(* ===== verification/_CoqProject ===== *)
-Q . S2P
Prelude.v
PyTime.v
ConnErrors.v
Effects.v
Base64.v
PyText.v
Utf8.v
Json.v
States.v
RunStore.v
PgStore.v
PgRefine.v
Rbac.v
Dsl.v
Idem.v
Health.v
Middleware.v
Registry.v
Gates.v
Coroutine.v
GateRace.v
LockRace.v
Webhook.v
Engine.v
EngineSpec.v
Triggers.v
GateFlow.v
McpTools.v
Calendar.v
DeadlineTypes.v
Compute.v
Rules.v
Schedule.v
Monitor.v
Firing.v
Domain.v
PyFormat.v
Settings.v
Crypto.v
Regex.v
Reference.v
Ports.v
Repos.v
Approvals.v
Flow.v
Reconcile.v
Celery.v
CeleryConfig.v
Qc.v
QcPrompts.v
QcChecks.v
StatusUpdate.v
Extraction.v
Intake.v
Template.v
DocGen.v
Routing.v
Packs.v
Scrub.v
AuditLog.v
AuditRace.v
Schema.v
Migrations.v
Sidecar.v
Metrics.v
Telemetry.v
ConnMetrics.v
DocsGen.v
Cli.v
