(* ===== verification/Prelude.v ===== *)
(** * Case Automation MCP: verification library

    Case Automation MCP (src/src/cam) automates the work around legal cases: it
    runs workflows whose sensitive steps wait for a human approval, computes and
    watches deadlines, checks outgoing packets, routes documents and keeps a
    tamper-evident audit log.  This library models the program's core logic and
    proves what makes each part correct.  Paths below are relative to
    src/src/cam/.

    ** Method

    Code is translated to executable functions.  A coroutine runs on one event
    loop: a call is a function from the shared state to the state it leaves and
    a value or an exception ([Effects.M]); what was changed before a raise stays
    changed.  [Effects.sys] adds to a component's own store the outside world
    (audit sink, connectors, queues) and counters for the readings of the wall
    clock and of uuid4, whose results are given supplies ([clock], [uuids]).
    Python dictionaries are insertion-ordered association lists ([Prelude.dict]);
    exceptions, JSON values and aware datetimes are data.  Integers are
    unbounded, as in Python; floats are rationals.  Code outside the repository
    (Redis, the database, the HTTP and YAML libraries, hashing and HMAC, vendors)
    is a parameter: an operation, or a class of operations with its documented laws
    and an instance that satisfies them.  Where the interleaving of coroutines
    matters, [Coroutine.Coro] keeps their suspension points, and its run alone is
    the monadic reading.

    ** Files

    Shared: [Prelude] (dictionaries, lists, sorting, tactics), [PyTime] (dates,
    aware datetimes, isoformat), [PyText] (string operations, repr), [PyFormat]
    (str.format), [Regex] (Python's re, for the expressions the program uses),
    [Base64], [Utf8], [Json] (Python's json: dumps, loads, their round trip),
    [Effects] (JSON values, exceptions, the monad, [keeps] and [store_const]
    reasoning), [Coroutine] (coroutines, the event loop, rely-guarantee rules),
    [Domain] (core/domain/models.py).

    Orchestrator (core/orchestrator/): [States] (states.py: status enums,
    transition tables, records), [RunStore] (store.py: every method of
    InMemoryRunStore), [PgStore] (postgres_store.py and orm.py: every method of
    PostgresRunStore over an interface of database sessions) and [PgRefine] (it
    refines [RunStore]), [Dsl] (dsl.py: the decorator and the registry), [Idem]
    (idempotency.py, locking.py: in-memory and Redis stores as instances of one
    interface, the run lock), [Gates] (gates.py: approval tokens and resolve_gate),
    [Engine] and [EngineSpec] (engine.py: execute and its theorems), [Triggers]
    (triggers.py, recovery.py), [GateFlow] (triggers, engine and gates together),
    [GateRace] (interleaved resolutions), [LockRace] (workers that execute one run),
    [Approvals] (channels.py and the pages of sidecar/approvals.py), [McpTools]
    (mcp_server/workflow_tools.py), [Metrics] (metrics.py).

    Deadline engine (core/services/deadline/): [Calendar], [DeadlineTypes],
    [Compute], [Rules], [Schedule] (schedule.py, deadman.py, resources.py),
    [Monitor] (the loop of deadman.py), [Firing], [Reconcile]; its workers [Celery] (sidecar/celery_app.py,
    scheduler_celery.py) and [CeleryConfig] (sidecar/celery_config.py).

    Services (core/services/): [Qc] (types, packets, registry, runner, tool),
    [QcChecks] (the seven checks, and the restriction policy of packs/base.py) and
    [QcPrompts] of qc/; [Extraction] of extraction/; [AuditLog] (core/audit/) and
    [AuditRace] (overlapping calls of record).

    Workflows (core/workflows/): [Flow] (what they share), [Intake],
    [StatusUpdate], [Template] and [DocGen] (document_gen/), [Routing]
    (document_routing/).

    Connectors (connectors/): [ConnErrors] (errors.py), [Health] (health.py,
    redis_health.py: the circuit breaker), [Middleware] (middleware.py: the
    outbound client), [ConnMetrics] (their metrics), [Registry] (registry.py), [Webhook] (webhook/ and the route
    of sidecar/webhooks.py), [Ports] (ports.py as interfaces) and [Reference] (the
    in-memory adapters).

    Platform: [Repos] (persistence/models.py, the six domain repositories and the
    unit of work), [Schema] (tables, and what DDL does to them), [Migrations] (the
    revisions of persistence/migrations/ and the ORM classes), [Rbac] (security/rbac.py), [Crypto] (security/crypto.py,
    identity.py), [Settings] (config/settings.py), [Packs] (packs/), [Scrub]
    (obs/observability.py: redaction), [Telemetry] (its bootstrap and pipelines), [Sidecar] (sidecar/main.py: startup;
    sidecar/pack_inspector.py), [Cli] (cli/), [DocsGen] (docs/generator.py).

    ** How the parts interact

    [Triggers.start_run] puts a queued run and one pending step per workflow step
    into the [RunStore.RunStore]; [Engine.execute] takes the lock of [Idem], runs
    the steps through the idempotency interface [Idem.IdemOps], and at a gate step
    stores a gate and its tokens; [Gates.resolve_gate] consumes a token and moves
    gate and run; [Triggers.recovery_sweep] enqueues what a crash left behind.
    [Approvals] sends the tokens out and, like the agent's tools in [McpTools],
    answers by calling [Gates.resolve_gate].
    The engine, the gates and the audit log write JSON with [Json]; [GateRace],
    [LockRace] and [AuditRace] run their handlers as coroutines of [Coroutine].
    The deadline tools compute with [Calendar] and [Rules], arm reminders through
    the interface [Schedule.Scheduler], of which the in-memory scheduler and
    [Celery] are instances, and [Firing] delivers them through the interface
    [Firing.NotificationPort].
    Workflows are lists of handlers the engine calls ([Flow]); they reach vendors
    through the ports of [Ports].  [Intake] uses [Extraction], [Rules], [Schedule]
    and [Triggers]; [DocGen] renders with [Template] and checks with [Qc].  A pack
    of [Packs] configures [Intake], [Routing], [Rules] and [Scrub].
    Calls to vendors go through [Middleware.request], which asks the breaker of
    [Health] first; vendors call back through [Webhook.ingest_webhook], which finds
    the normaliser in [Registry].  All Redis users share [Idem.RedisOps].
    [Sidecar.lifespan] composes [Settings], [Scrub], [Packs], [Crypto] and
    [Registry] into a process; [Cli.start] is what launches it.

    ** What the theorems show

    - Stores: [PgRefine.pg_store_refines] and [pg_reads_agree]: the PostgreSQL
      store does what the in-memory store does, except that its updates of a step
      or a gate leave some columns alone ([PgRefine.as_stored],
      [kept_fields_differ]), so what is proved of the latter holds of the former
      ([PgRefine.pg_history]);
      [Repos.repositories_keep_contract]: every domain repository does what its
      protocol promises to later reads.
    - Runs and gates: [RunStore.store_invariant], [run_lifecycle] (since the last
      create_run of an id, which replaces a run of that id), [create_run_idempotent] and [token_single_use] over any sequence of store
      calls; [Gates] that a success had a valid, unexpired, unused token and an
      authorised actor, that a refusal changes at most the token's mark, that a
      gate is resolved at most once, and the token's round trip;
      [Approvals.submission_truthful] and [pages_carry_no_markup];
      [McpTools.agent_never_decides] and [status_redacted].
    - Concurrency: [GateRace.gate_race_one_winner]: however resolutions of a run
      interleave, at most one wins ([gate_race_terminates]: and all end);
      [LockRace.executions_serialised]: behind a lock in Redis, workers have the
      effect of a sequence; [AuditRace.concurrent_records_rooted]: overlapping
      records lose nothing and each names a row that was the latest while it ran.
      What interleaving does break is shown by schedules ([interleaved_decisions_disagree],
      [unbacked_lock_interleaves], [overlapping_records_fork]).
    - Together: [GateFlow.approval_precedes_effects]: whatever triggers, workers and
      approvers do, in any order, nothing after a gate runs without an authorised
      approval of that gate.
    - Engine: [EngineSpec.engine_refines_spec] (it implements the sequential
      specification of a workflow), [engine_confined], [gate_barrier],
      [recorded_step_not_reexecuted], [failure_parks], and [retry_raises] with
      [execute_single_pass] on the retry path, which the transition table forbids.
    - Deadlines: no missed sweep goes unnoticed ([Monitor.monitor_never_misses]);
      calendar walks, due dates against their trace, append-only rules,
      what scheduling stores and arms, reminders for which the port is called until
      one call returns and then no more ([Firing.reminder_sent_at_most_once]) and
      the overlap that defeats it, completion, exact drift reports; and that the
      workers, which build a new store for each task, never find anything to do
      ([Celery.celery_tasks_idle], [CeleryConfig.periodic_sweep_idle]).
    - Workflows: mails sent at most once ([Intake.welcome_sent_once],
      [StatusUpdate.status_update_sends_once]), no guess among ambiguous contacts,
      sound generation with visible gaps ([DocGen.generation_sound],
      [Template.gaps_are_visible]), one decision per routing key, least-privilege
      access lists, privileged documents that stay where they are.
    - Extraction: only a permitted endpoint sees content
      ([Extraction.residency_fails_closed]); proposals are well formed and flag
      what is below the threshold.
    - Checks: the aggregate of a verification, independence of registration order,
      a confidentiality gate that fails closed, a prompt that lists every check.
    - Connectors: the breaker's state and opening time as what was reported to it
      and looked at prescribe ([Health.circuit_breaker_exact], [circuit_unique]),
      bounded retries that end in a success or a non-retryable error, completed
      writes that are replayed instead of sent again
      ([Middleware.completed_write_replayed]), and a webhook pipeline that
      accepts only signed, fresh, new events, each at most once, together with the
      ways it loses an event whose hand-over failed or whose mark was made and
      not acknowledged.
    - Security and audit: [Crypto.envelope_survives] over key rotations and loads,
      [Scrub.scrub_complete] (no pattern matches what was scrubbed),
      [Telemetry.signals_scrubbed] (which parts of a log line or a span are
      scrubbed, and that the others pass as they are), a verified
      audit chain that stays verified and cannot be altered unnoticed: equal
      canonical texts are the same event ([Json.dumps_inj]).
    - Database: [Migrations.upgrade_matches_models] (the revisions build the tables
      the code maps, with server defaults the code only has on its side) and [downgrade_restores].
    - Platform: [Packs.active_pack_valid], [Settings.settings_checked] and
      [sops_serves_file]; startup always ends in a serving process with each part
      configured or left as it was ([Sidecar.startup_always_serves]); the inspector
      shows packs without their patterns ([Sidecar.inspector_redacts]); the
      command line launches the sidecar last and only on a ready machine
      ([Cli.start_launches_last]) and never completes a scaffold
      ([Cli.init_contained]); [Metrics.reports_counted]; [DocsGen.docs_complete].

    ** Fuel and bounds

    [Calendar.walk] and [add_loop] carry fuel: five days always reach a business
    day of a supported year and [add_business_days] computes enough fuel from its
    argument ([Calendar.business_day_walks]); running out is an error value no
    theorem accepts as a result.  [Engine.execute] has fuel for its recursive
    retry, and [execute_single_pass] shows any fuel gives the same run.
    The retry loop of [Middleware] gets one unit of fuel per attempt, and
    [retry_bounded] shows that this always suffices.  [PyFormat.str_format] and
    [Regex.sub_from] take the length of their text ([PyFormat.format_fuel]).
    Dates are those of Python, 0001-01-01 to 9999-12-31, beyond which operations
    raise; the calendar covers 2020 to 2040, as the code does.

    Interleavings: a resolution takes at most 16 steps and a call of record 3, which
    the theorems of [GateRace] and [AuditRace] count; [Json]'s scanner gets twice the
    length of its text, and [Json.scan_enough] shows that more changes nothing.

    ** Not modelled

    Log lines (except the entries the approval channels write, which are their
    effect), spans and sleeping, which no result depends on; key expiry in Redis;
    Python's limits on recursion and on the digits of an integer; text outside ASCII
    in the string functions (JSON and UTF-8 apart).  Glue: running a coroutine from
    a Celery task, Alembic's online and offline runners and its version table, ORM
    relationship attributes, the PyMuPDF and pdfplumber readers and the mock
    language model of extraction, the duplicate mappings of
    persistence/repositories/base.py, which nothing calls, the module re-exports,
    and argument parsing, which is the library's.  Interleavings are modelled for
    gates, execution and the audit log; for the webhook handler and the reminders
    single schedules show what they break.  Most clients of the codec keep it as a
    parameter: [Gates.issue_verify_roundtrip], [AuditLog.audit_log_tamper_evident]
    and the Redis store of [Idem] take the one of [Json]. *)

From Stdlib Require Import ZArith Lia Ascii String List.
From stdpp Require Import base list strings.
From stdpp Require Import sorting.

Open Scope Z_scope.

#[export] Set Default Goal Selector "1".
#[export] Set Warnings "-clear-no-such-hyp".

(** ** Notation scope, hint database and tactics of the development *)

Declare Scope cam_scope.
Delimit Scope cam_scope with cam.

Create HintDb cam discriminated.
Create Rewrite HintDb cam.

(** Case analysis on the scrutinee of some [match] in the goal or a hypothesis. *)
Ltac case_match_in H :=
  match type of H with
  | context [ match ?x with _ => _ end ] => destruct x eqn:?
  end.

Ltac split_matches :=
  repeat (simplify_eq/=; try case_match); simplify_eq/=; try done.

(** Membership of a constant in a literal list. *)
Ltac in_list := rewrite ?elem_of_cons; auto 20.

(** Normalise boolean hypotheses of the shape the source's guards produce. *)
Ltac simpl_bool :=
  repeat match goal with
  | H : _ && _ = true |- _ => apply andb_prop in H as [? ?]
  | H : _ || _ = false |- _ => apply orb_false_elim in H as [? ?]
  | H : negb _ = true |- _ => apply negb_true_iff in H
  | H : negb _ = false |- _ => apply negb_false_iff in H
  | H : bool_decide _ = true |- _ => apply bool_decide_eq_true in H
  | H : bool_decide _ = false |- _ => apply bool_decide_eq_false in H
  | H : (_ =? _)%Z = true |- _ => apply Z.eqb_eq in H
  | H : (_ =? _)%Z = false |- _ => apply Z.eqb_neq in H
  | H : (_ <? _)%Z = true |- _ => apply Z.ltb_lt in H
  | H : (_ <? _)%Z = false |- _ => apply Z.ltb_ge in H
  | H : (_ <=? _)%Z = true |- _ => apply Z.leb_le in H
  | H : (_ <=? _)%Z = false |- _ => apply Z.leb_gt in H
  end.

(** ** Options *)

(** Python truth of an optional string: [None] and the empty string are false. *)
Definition str_truthy (s : string) : bool := negb (String.eqb s EmptyString).

Definition opt_truthy (o : option string) : bool :=
  match o with Some s => str_truthy s | None => false end.

(** Python's [a or b] on optional strings. *)
Definition opt_or (a b : option string) : option string :=
  if opt_truthy a then a else b.

(** ** Insertion-ordered dictionaries

    Python's [dict] iterates in insertion order; assigning to an existing key
    keeps its position.  An association list with at most one entry per key
    models it; [dset] replaces in place or appends. *)

Definition dict (K V : Type) : Type := list (K * V).

Section Dict.
Context {K V : Type} `{EqDecision K}.
Implicit Types (d : dict K V) (k : K) (v : V).

Fixpoint dget k d : option V :=
  match d with
  | [] => None
  | (k', v) :: d' => if decide (k = k') then Some v else dget k d'
  end.

Fixpoint dset k v d : dict K V :=
  match d with
  | [] => [(k, v)]
  | (k', v') :: d' => if decide (k = k') then (k, v) :: d' else (k', v') :: dset k v d'
  end.

Fixpoint dpop k d : dict K V :=
  match d with
  | [] => []
  | (k', v') :: d' => if decide (k = k') then d' else (k', v') :: dpop k d'
  end.

Definition dmem k d : bool := match dget k d with Some _ => true | None => false end.

Definition dkeys d : list K := d.*1.

Definition dvalues d : list V := d.*2.

(** A dictionary is well formed when no key occurs twice. *)
Definition dict_wf d : Prop := NoDup (dkeys d).

Lemma dget_dset_eq k v d : dget k (dset k v d) = Some v.
Proof. induction d as [|[k' v'] d IH]; simpl; repeat (case_decide; simpl); congruence. Qed.

Lemma dget_dset_ne k k' v d : k' <> k -> dget k' (dset k v d) = dget k' d.
Proof. intros Hne. induction d as [|[k2 v2] d IH]; simpl; repeat (case_decide; simpl); congruence. Qed.

Lemma dget_dset k k' v d :
  dget k' (dset k v d) = if decide (k' = k) then Some v else dget k' d.
Proof. case_decide; subst; [apply dget_dset_eq | by apply dget_dset_ne]. Qed.

Lemma dget_Some_in k v d : dget k d = Some v -> (k, v) ∈ d.
Proof.
  induction d as [|[k' v'] d IH]; simpl; [done|].
  case_decide; intros; simplify_eq; [left | right; auto].
Qed.

Lemma dget_in_Some k v d : dict_wf d -> (k, v) ∈ d -> dget k d = Some v.
Proof.
  unfold dict_wf, dkeys. induction d as [|[k' v'] d IH]; simpl.
  - intros _ Hin. by apply elem_of_nil in Hin.
  - intros [Hni Hnd]%NoDup_cons Hin. apply elem_of_cons in Hin as [?|Hin]; simplify_eq.
    + by rewrite decide_True.
    + case_decide as E; [|auto]. subst. exfalso. apply Hni.
      apply list_elem_of_fmap. by exists (k', v).
Qed.

Lemma dget_None_keys k d : dget k d = None <-> k ∉ dkeys d.
Proof.
  unfold dkeys. induction d as [|[k' v'] d IH]; simpl.
  - split; [intros _; apply not_elem_of_nil | done].
  - case_decide as E.
    + split; [done|]. intros Hn. exfalso. apply Hn. subst. left.
    + rewrite IH, not_elem_of_cons. tauto.
Qed.

Lemma dmem_true k d : dmem k d = true <-> k ∈ dkeys d.
Proof.
  unfold dmem. destruct (dget k d) eqn:E.
  - split; [|done]. intros _. apply dget_Some_in in E. unfold dkeys.
    apply list_elem_of_fmap. by exists (k, v).
  - apply dget_None_keys in E. split; [done | by intros].
Qed.

Lemma dmem_dget k d : dmem k d = true -> exists v, dget k d = Some v.
Proof. unfold dmem. destruct (dget k d); eauto; done. Qed.

Lemma dkeys_dset k v d :
  dkeys (dset k v d) = if dmem k d then dkeys d else dkeys d ++ [k].
Proof.
  unfold dmem, dkeys. induction d as [|[k' v'] d IH]; csimpl; [done|].
  case_decide; csimpl; [by subst|]. rewrite IH. by destruct (dget k d).
Qed.

Lemma dict_wf_dset k v d : dict_wf d -> dict_wf (dset k v d).
Proof.
  unfold dict_wf. intros H. rewrite dkeys_dset. destruct (dmem k d) eqn:E; [done|].
  apply NoDup_app. split; [done|]. split; [|apply NoDup_singleton].
  intros x Hx Hx2. apply list_elem_of_singleton in Hx2. subst.
  apply dmem_true in Hx. congruence.
Qed.

Lemma dpop_keys_sublist k d : sublist (dkeys (dpop k d)) (dkeys d).
Proof.
  unfold dkeys. induction d as [|[k' v'] d IH]; csimpl; [done|].
  case_decide; by constructor.
Qed.

Lemma dget_dpop_eq k d : dict_wf d -> dget k (dpop k d) = None.
Proof.
  unfold dict_wf, dkeys. induction d as [|[k' v'] d IH]; simpl; [done|].
  intros [Hni Hnd]%NoDup_cons. case_decide as E; [by apply dget_None_keys; subst|].
  simpl. rewrite decide_False by done. auto.
Qed.

Lemma dget_dpop_ne k k' d : k' <> k -> dget k' (dpop k d) = dget k' d.
Proof.
  intros Hne. induction d as [|[k2 v2] d IH]; simpl; [done|].
  repeat (case_decide; simpl); congruence.
Qed.

Lemma dict_wf_dpop k d : dict_wf d -> dict_wf (dpop k d).
Proof.
  unfold dict_wf, dkeys. intros H. eapply sublist_NoDup; [exact H|].
  apply dpop_keys_sublist.
Qed.

Lemma in_dset k v p d : p ∈ dset k v d -> p = (k, v) \/ p ∈ d.
Proof.
  induction d as [|[k' v'] d IH]; simpl.
  - intros H%list_elem_of_singleton. by left.
  - case_decide.
    + intros [?|?]%elem_of_cons; [by left|]. right. by right.
    + intros [?|Hin]%elem_of_cons; [right; subst; left|].
      destruct (IH Hin); [by left|]. right. by right.
Qed.

Lemma dvalues_in_dget d v : dict_wf d -> v ∈ dvalues d -> exists k, dget k d = Some v.
Proof.
  intros Hwf Hin. unfold dvalues in Hin. apply list_elem_of_fmap in Hin as [[k v'] [-> Hin]].
  exists k. by apply dget_in_Some.
Qed.

(** A new key goes to the end. *)
Lemma dset_new k v d : k ∉ dkeys d -> dset k v d = d ++ [(k, v)].
Proof.
  induction d as [|[k' v'] d IH]; [done|]. cbn. intros [Hk Hd]%not_elem_of_cons.
  rewrite decide_False by done. by rewrite IH.
Qed.

Lemma dict_wf_nil : dict_wf ([] : dict K V).
Proof. apply NoDup_nil_2. Qed.

Lemma dset_dset_same k v v' d : dset k v (dset k v' d) = dset k v d.
Proof. induction d as [|[k2 v2] d IH]; simpl; repeat (case_decide; simpl); congruence. Qed.

Lemma dset_dget_id k v d : dget k d = Some v -> dset k v d = d.
Proof. induction d as [|[k2 v2] d IH]; simpl; [done|]. case_decide; intros; simplify_eq; [done|]. by rewrite IH. Qed.

End Dict.

(** Mapping the values of a dictionary. *)
Lemma dget_map {K V V'} `{EqDecision K} (f : V -> V') (d : dict K V) k :
  dget k (map (fun p => (p.1, f p.2)) d) = option_map f (dget k d).
Proof. induction d as [|[k' v] d IH]; [done|]. cbn. by destruct (decide (k = k')). Qed.

#[export] Hint Resolve dict_wf_dset dict_wf_dpop dict_wf_nil : cam.
#[export] Hint Rewrite @dget_dset_eq : cam.

(** ** Lists *)

(** The first element satisfying [p], as [next((x for x in l if p(x)), None)]. *)
Fixpoint find_first {A} (p : A -> bool) (l : list A) : option A :=
  match l with
  | [] => None
  | x :: l' => if p x then Some x else find_first p l'
  end.

Lemma find_first_Some {A} (p : A -> bool) l x :
  find_first p l = Some x -> x ∈ l /\ p x = true.
Proof.
  induction l as [|y l IH]; simpl; [done|]. destruct (p y) eqn:E; intros; simplify_eq.
  - split; [left|done].
  - destruct IH; [done|]. split; [by right|done].
Qed.

Lemma find_first_None {A} (p : A -> bool) l :
  find_first p l = None <-> forall x, x ∈ l -> p x = false.
Proof.
  induction l as [|y l IH]; simpl.
  - split; [intros _ x Hx; by apply elem_of_nil in Hx | done].
  - destruct (p y) eqn:E; split.
    + done.
    + intros H. rewrite (H y) in E; [done|left].
    + intros H x [->|Hx]%elem_of_cons; [done|]. by apply IH.
    + intros H. apply IH. intros x Hx. apply H. by right.
Qed.

(** [filter] by a boolean test, as a list comprehension with one condition. *)
Fixpoint bfilter {A} (p : A -> bool) (l : list A) : list A :=
  match l with
  | [] => []
  | x :: l' => if p x then x :: bfilter p l' else bfilter p l'
  end.

Lemma elem_of_bfilter {A} (p : A -> bool) l x : x ∈ bfilter p l <-> x ∈ l /\ p x = true.
Proof.
  induction l as [|y l IH]; simpl.
  - rewrite elem_of_nil. tauto.
  - destruct (p y) eqn:E; rewrite ?elem_of_cons, IH, ?elem_of_cons; split.
    + intros [->|[??]]; auto.
    + intros [[->|?]?]; auto.
    + intros [??]; auto.
    + intros [[->|?] ?]; [congruence|auto].
Qed.

Lemma bfilter_sublist {A} (p : A -> bool) l : sublist (bfilter p l) l.
Proof. induction l as [|y l IH]; simpl; [done|]. destruct (p y); by constructor. Qed.

Lemma bfilter_cons {A} (p : A -> bool) x l :
  bfilter p (x :: l) = if p x then x :: bfilter p l else bfilter p l.
Proof. reflexivity. Qed.

Lemma bfilter_app {A} (p : A -> bool) l1 l2 : bfilter p (l1 ++ l2) = bfilter p l1 ++ bfilter p l2.
Proof. induction l1 as [|x l1 IH]; simpl; [done|]. rewrite IH. by destruct (p x). Qed.

Lemma bfilter_all {A} (p : A -> bool) l : (forall x, x ∈ l -> p x = true) -> bfilter p l = l.
Proof.
  induction l as [|x l IH]; intros H; [done|]. cbn. rewrite (H x) by left. f_equal. apply IH. intros y Hy. apply H. by right.
Qed.

Lemma bfilter_none {A} (p : A -> bool) l : (forall x, x ∈ l -> p x = false) -> bfilter p l = [].
Proof.
  induction l as [|x l IH]; intros H; [done|]. cbn. rewrite (H x) by left. apply IH. intros y Hy. apply H. by right.
Qed.

Lemma NoDup_map_bfilter {A B} (f : A -> B) (p : A -> bool) l : NoDup (map f l) -> NoDup (map f (bfilter p l)).
Proof.
  intros H. eapply sublist_NoDup; [exact H|]. clear H. induction l as [|x l IH]; cbn; [done|].
  destruct (p x); cbn; by constructor.
Qed.

Lemma bfilter_perm {A} (p : A -> bool) l l' : Permutation l l' -> Permutation (bfilter p l) (bfilter p l').
Proof.
  induction 1 as [|x l l' _ IH|x y l|l1 l2 l3 _ IH1 _ IH2]; cbn [bfilter].
  - done.
  - destruct (p x); [by constructor|done].
  - destruct (p x), (p y); done || constructor.
  - by rewrite IH1.
Qed.

(** ** Stable sort by a boolean preorder, as Python's [sorted] *)

Section Sort.
Context {A : Type} (leb : A -> A -> bool).

Fixpoint insert_sorted (x : A) (l : list A) : list A :=
  match l with
  | [] => [x]
  | y :: l' => if leb x y then x :: l else y :: insert_sorted x l'
  end.

Fixpoint py_sorted (l : list A) : list A :=
  match l with
  | [] => []
  | x :: l' => insert_sorted x (py_sorted l')
  end.

Lemma insert_sorted_perm x l : Permutation (insert_sorted x l) (x :: l).
Proof.
  induction l as [|y l IH]; simpl; [done|]. destruct (leb x y); [done|].
  rewrite IH. constructor.
Qed.

Lemma py_sorted_perm l : Permutation (py_sorted l) l.
Proof. induction l as [|x l IH]; simpl; [done|]. by rewrite insert_sorted_perm, IH. Qed.

Context (leb_total : forall x y, leb x y = true \/ leb y x = true).
Context (leb_trans : forall x y z, leb x y = true -> leb y z = true -> leb x z = true).

Lemma insert_sorted_ok x l :
  StronglySorted (fun a b => leb a b = true) l ->
  StronglySorted (fun a b => leb a b = true) (insert_sorted x l).
Proof.
  induction l as [|y l IH]; simpl; intros Hs; [repeat constructor|].
  inversion Hs as [|? ? Hs' Hf]; subst. destruct (leb x y) eqn:E.
  - constructor; [done|]. constructor; [done|].
    eapply List.Forall_impl; [|exact Hf]. intros z Hz; simpl in *. eauto.
  - constructor; [auto|]. rewrite insert_sorted_perm. constructor; [|done].
    destruct (leb_total x y); [congruence|done].
Qed.

Lemma py_sorted_ok l : StronglySorted (fun a b => leb a b = true) (py_sorted l).
Proof. induction l as [|x l IH]; simpl; [constructor|]. by apply insert_sorted_ok. Qed.

(** Sorting an already sorted list leaves it unchanged: the sort is stable. *)
Lemma py_sorted_id l : StronglySorted (fun a b => leb a b = true) l -> py_sorted l = l.
Proof.
  induction 1 as [|x l Hs IH Hf]; simpl; [done|]. rewrite IH.
  destruct l as [|y l]; simpl; [done|]. by inversion Hf as [|? ? Hxy]; subst; rewrite Hxy.
Qed.

End Sort.

(** ** Strings *)

Definition starts_with (p s : string) : bool := String.prefix p s.

Fixpoint drop_chars (n : nat) (s : string) : string :=
  match n, s with
  | O, _ => s
  | S n', String _ s' => drop_chars n' s'
  | S _, EmptyString => EmptyString
  end.

(** [s[:n]] *)
Fixpoint take_chars (n : nat) (s : string) : string :=
  match n, s with
  | O, _ => EmptyString
  | S n', String c s' => String c (take_chars n' s')
  | S _, EmptyString => EmptyString
  end.

Lemma drop_chars_app p s : drop_chars (String.length p) (p +:+ s) = s.
Proof. induction p as [|c p IH]; simpl; auto. Qed.

(** [s in l] for a list of strings. *)
Definition str_in (s : string) (l : list string) : bool := existsb (String.eqb s) l.

Lemma str_in_spec s l : str_in s l = true <-> s ∈ l.
Proof.
  unfold str_in. rewrite existsb_exists. setoid_rewrite String.eqb_eq.
  setoid_rewrite <- list_elem_of_In. naive_solver.
Qed.
