(* ===== verification/PyTime.v ===== *)
(** * PyTime: the part of Python's [datetime] module the program uses

    A [date] is its proleptic Gregorian ordinal (day 1 is 0001-01-01), as
    [date.toordinal()]; [ymd2ord] and [ord2ymd] follow CPython's algorithm and
    are proved inverse to each other.  An aware [datetime] is a date, the
    microseconds of its local day and the UTC offset of its (fixed) time zone;
    comparisons and subtraction go through the UTC instant.  Arithmetic that
    leaves the supported range 0001-01-01 .. 9999-12-31 gives [None], which the
    callers turn into Python's [OverflowError]. *)

From Stdlib Require Import ZArith Lia Ascii String List.
From stdpp Require Import base list strings pretty.
From S2P Require Import Prelude.

Open Scope string_scope.
Open Scope list_scope.
Open Scope Z_scope.

Ltac zdiv := Z.div_mod_to_equations; lia.

(** ** Dates *)

Definition date := Z.

Definition MAXORDINAL : Z := 3652059.

Definition date_ok (d : date) : bool := (1 <=? d) && (d <=? MAXORDINAL).

Definition is_leap (y : Z) : bool :=
  (y mod 4 =? 0) && (negb (y mod 100 =? 0) || (y mod 400 =? 0)).

Definition leapZ (y : Z) : Z := if is_leap y then 1 else 0.

Definition days_before_year (y : Z) : Z :=
  let y' := y - 1 in y' * 365 + y' / 4 - y' / 100 + y' / 400.

(** Month lengths and cumulative month lengths, by the leap day [l] of the year. *)
Definition dim (l m : Z) : Z :=
  if m =? 2 then 28 + l
  else if (m =? 4) || (m =? 6) || (m =? 9) || (m =? 11) then 30 else 31.

Definition days_in_month (y m : Z) : Z := dim (leapZ y) m.

(** Cumulative days before each month of a non-leap year. *)
Definition month_start (m : Z) : Z :=
  nth (Z.to_nat m) [0; 0; 31; 59; 90; 120; 151; 181; 212; 243; 273; 304; 334] 0.

Definition dbm (l m : Z) : Z := month_start m + (if 2 <? m then l else 0).

Definition days_before_month (y m : Z) : Z := dbm (leapZ y) m.

Definition ymd_ok (y m d : Z) : bool :=
  (1 <=? y) && (y <=? 9999) && (1 <=? m) && (m <=? 12) &&
  (1 <=? d) && (d <=? days_in_month y m).

Definition ymd2ord (y m d : Z) : date := days_before_year y + days_before_month y m + d.

(** The year and the 0-based day of the year of an ordinal. *)
Definition ord2yd (n : date) : Z * Z :=
  let n := n - 1 in
  let n400 := n / 146097 in let n := n mod 146097 in
  let n100 := n / 36524 in let n := n mod 36524 in
  let n4 := n / 1461 in let n := n mod 1461 in
  let n1 := n / 365 in let n := n mod 365 in
  let year := n400 * 400 + 1 + n100 * 100 + n4 * 4 + n1 in
  if (n1 =? 4) || (n100 =? 4) then (year - 1, 365) else (year, n).

(** Month and day of the 0-based day [n] of a year whose leap day is [l]. *)
Definition yd2md (l n : Z) : Z * Z :=
  let month := Z.shiftr (n + 50) 5 in
  let preceding := dbm l month in
  if n <? preceding then
    let month := month - 1 in
    (month, n - (preceding - dim l month) + 1)
  else (month, n - preceding + 1).

Definition ord2ymd (o : date) : Z * Z * Z :=
  let '(year, n) := ord2yd o in
  let '(month, day) := yd2md (leapZ year) n in
  (year, month, day).

Definition date_year (o : date) : Z := fst (fst (ord2ymd o)).
Definition date_month (o : date) : Z := snd (fst (ord2ymd o)).
Definition date_day (o : date) : Z := snd (ord2ymd o).

(** [date(y, m, d)]: [None] stands for [ValueError]. *)
Definition mk_date (y m d : Z) : option date :=
  if ymd_ok y m d then Some (ymd2ord y m d) else None.

(** [d + timedelta(days=k)]: [None] stands for [OverflowError]. *)
Definition date_add (d : date) (k : Z) : option date :=
  if date_ok (d + k) then Some (d + k) else None.

(** Monday is 0. *)
Definition weekday (d : date) : Z := (d + 6) mod 7.

(** ** The two conversions are inverse *)

Lemma leap_year_days y :
  days_before_year (y + 1) = days_before_year y + 365 + leapZ y.
Proof.
  unfold days_before_year, leapZ, is_leap.
  replace (y + 1 - 1) with y by lia.
  assert (y / 4 = (y - 1) / 4 + (if y mod 4 =? 0 then 1 else 0)).
  { destruct (Z.eqb_spec (y mod 4) 0); zdiv. }
  assert (y / 100 = (y - 1) / 100 + (if y mod 100 =? 0 then 1 else 0)).
  { destruct (Z.eqb_spec (y mod 100) 0); zdiv. }
  assert (y / 400 = (y - 1) / 400 + (if y mod 400 =? 0 then 1 else 0)).
  { destruct (Z.eqb_spec (y mod 400) 0); zdiv. }
  destruct (Z.eqb_spec (y mod 4) 0), (Z.eqb_spec (y mod 100) 0),
    (Z.eqb_spec (y mod 400) 0); simpl; try lia; exfalso; zdiv.
Qed.

Lemma leapZ_bounds y : 0 <= leapZ y <= 1.
Proof. unfold leapZ. destruct (is_leap y); lia. Qed.

Lemma days_before_year_mono y y' :
  y <= y' -> days_before_year y + 365 * (y' - y) <= days_before_year y'.
Proof.
  intros H. replace y' with (y + Z.of_nat (Z.to_nat (y' - y))) by lia.
  induction (Z.to_nat (y' - y)) as [|n IH].
  - replace (y + Z.of_nat 0) with y by lia. lia.
  - replace (y + Z.of_nat (S n)) with (y + Z.of_nat n + 1) by lia.
    rewrite leap_year_days. pose proof (leapZ_bounds (y + Z.of_nat n)). lia.
Qed.

(** The leap days of a 400-year cycle, split as the algorithm splits it. *)
Lemma days_before_year_cycle n400 n100 n4 n1 :
  0 <= n100 <= 3 -> 0 <= n4 <= 24 -> 0 <= n1 <= 3 ->
  days_before_year (n400 * 400 + 1 + n100 * 100 + n4 * 4 + n1) =
    n400 * 146097 + n100 * 36524 + n4 * 1461 + n1 * 365.
Proof.
  intros. unfold days_before_year.
  replace (n400 * 400 + 1 + n100 * 100 + n4 * 4 + n1 - 1)
    with (n400 * 400 + n100 * 100 + n4 * 4 + n1) by lia.
  replace ((n400 * 400 + n100 * 100 + n4 * 4 + n1) / 4)
    with (n400 * 100 + n100 * 25 + n4) by zdiv.
  replace ((n400 * 400 + n100 * 100 + n4 * 4 + n1) / 100)
    with (n400 * 4 + n100) by zdiv.
  replace ((n400 * 400 + n100 * 100 + n4 * 4 + n1) / 400) with n400 by zdiv.
  lia.
Qed.

Lemma leapZ_cycle n400 n100 n4 n1 :
  0 <= n100 <= 3 -> 0 <= n4 <= 24 -> 0 <= n1 <= 3 ->
  (n1 = 3 /\ (n4 < 24 \/ n100 = 3)) ->
  leapZ (n400 * 400 + 1 + n100 * 100 + n4 * 4 + n1) = 1.
Proof.
  intros ? ? ? [-> Hc]. unfold leapZ, is_leap.
  set (y := n400 * 400 + 1 + n100 * 100 + n4 * 4 + 3).
  assert (y mod 4 = 0) as ->.
  { symmetry. apply Z.mod_unique with (n400 * 100 + n100 * 25 + n4 + 1); unfold y; lia. }
  destruct (Z.eq_dec n4 24) as [->|].
  - assert (n100 = 3) as -> by lia.
    assert (y mod 400 = 0) as ->; [|by rewrite orb_true_r].
    symmetry. apply Z.mod_unique with (n400 + 1); unfold y; lia.
  - assert (y mod 100 = 4 * n4 + 4) as ->.
    { symmetry. apply Z.mod_unique with (n400 * 4 + n100); unfold y; lia. }
    destruct (Z.eqb_spec (4 * n4 + 4) 0); [lia|]. reflexivity.
Qed.

Lemma ord2yd_spec o y n : ord2yd o = (y, n) ->
  days_before_year y + n = o - 1 /\ 0 <= n < 365 + leapZ y.
Proof.
  unfold ord2yd.
  pose proof (Z.mod_pos_bound (o - 1) 146097). pose proof (Z.div_mod (o - 1) 146097).
  set (a := (o - 1) mod 146097) in *. set (n400 := (o - 1) / 146097) in *.
  pose proof (Z.mod_pos_bound a 36524). pose proof (Z.div_mod a 36524).
  set (b := a mod 36524) in *. set (n100 := a / 36524) in *.
  pose proof (Z.mod_pos_bound b 1461). pose proof (Z.div_mod b 1461).
  set (c := b mod 1461) in *. set (n4 := b / 1461) in *.
  pose proof (Z.mod_pos_bound c 365). pose proof (Z.div_mod c 365).
  set (r := c mod 365) in *. set (n1 := c / 365) in *.
  assert (0 <= n100 <= 4 /\ 0 <= n4 <= 24 /\ 0 <= n1 <= 4) as (? & ? & ?) by lia.
  destruct ((n1 =? 4) || (n100 =? 4)) eqn:E; intros [= <- <-].
  - assert (n1 = 4 \/ n100 = 4) as Hc by
      (apply orb_true_iff in E as [?%Z.eqb_eq|?%Z.eqb_eq]; auto).
    destruct (Z.eq_dec n100 4) as [Hn|Hn].
    + assert (n4 = 0 /\ n1 = 0 /\ r = 0) as (-> & Hn1 & Hr) by lia.
      replace (n400 * 400 + 1 + n100 * 100 + 0 * 4 + n1 - 1)
        with (n400 * 400 + 1 + 3 * 100 + 24 * 4 + 3) by lia.
      rewrite days_before_year_cycle, leapZ_cycle by lia. lia.
    + assert (n1 = 4 /\ r = 0) as (Hn1 & Hr) by lia.
      replace (n400 * 400 + 1 + n100 * 100 + n4 * 4 + n1 - 1)
        with (n400 * 400 + 1 + n100 * 100 + n4 * 4 + 3) by lia.
      rewrite days_before_year_cycle, leapZ_cycle by lia. lia.
  - simpl_bool. rewrite days_before_year_cycle by lia.
    pose proof (leapZ_bounds (n400 * 400 + 1 + n100 * 100 + n4 * 4 + n1)). lia.
Qed.

Lemma ord2yd_unique o y n :
  days_before_year y + n = o - 1 -> 0 <= n < 365 + leapZ y -> ord2yd o = (y, n).
Proof.
  intros Hs Hb. destruct (ord2yd o) as [y' n'] eqn:E.
  apply ord2yd_spec in E as [Hs' Hb'].
  assert (y = y') as <-.
  { destruct (Z.lt_trichotomy y y') as [Hlt|[?|Hlt]]; [exfalso|done|exfalso].
    - pose proof (days_before_year_mono (y + 1) y'). rewrite leap_year_days in *. lia.
    - pose proof (days_before_year_mono (y' + 1) y). rewrite leap_year_days in *. lia. }
  f_equal. lia.
Qed.

(** Month arithmetic within one year is checked day by day. *)
Definition zrange (a : Z) (n : nat) : list Z := map (fun i => a + Z.of_nat i) (seq 0 n).

Lemma zrange_in a n x : a <= x < a + Z.of_nat n -> In x (zrange a n).
Proof.
  intros H. unfold zrange. apply in_map_iff. exists (Z.to_nat (x - a)).
  split; [lia|]. apply in_seq. lia.
Qed.

Lemma forallb_zrange f a n :
  forallb f (zrange a n) = true -> forall x, a <= x < a + Z.of_nat n -> f x = true.
Proof. intros H x Hx. eapply forallb_forall in H; [exact H|]. by apply zrange_in. Qed.

Definition md_check (l n : Z) : bool :=
  let '(m, d) := yd2md l n in
  (1 <=? m) && (m <=? 12) && (1 <=? d) && (d <=? dim l m) && (dbm l m + d =? n + 1).

Lemma yd2md_spec l n m d :
  0 <= l <= 1 -> 0 <= n < 365 + l -> yd2md l n = (m, d) ->
  1 <= m <= 12 /\ 1 <= d <= dim l m /\ dbm l m + d = n + 1.
Proof.
  intros Hl Hn E.
  assert (md_check l n = true) as Hc.
  { assert (l = 0 \/ l = 1) as [-> | ->] by lia;
      [apply (forallb_zrange (md_check 0) 0 365) | apply (forallb_zrange (md_check 1) 0 366)];
      first [reflexivity | lia]. }
  unfold md_check in Hc. rewrite E in Hc. simpl_bool. lia.
Qed.

(** [m] ranges over the twelve months. *)
Ltac months m :=
  let H := fresh in
  assert (m = 1 \/ m = 2 \/ m = 3 \/ m = 4 \/ m = 5 \/ m = 6 \/ m = 7 \/ m = 8 \/
          m = 9 \/ m = 10 \/ m = 11 \/ m = 12) as H by lia;
  repeat (destruct H as [-> | H]); try subst m.

Lemma dbm_succ l m :
  0 <= l <= 1 -> 1 <= m < 12 -> dbm l m + dim l m = dbm l (m + 1).
Proof. intros. months m; unfold dbm, dim, month_start; simpl; lia. Qed.

Lemma dim_pos l m : 0 <= l <= 1 -> 28 <= dim l m <= 31.
Proof. intros. unfold dim. destruct (m =? 2); [lia|]. destruct (_ || _); lia. Qed.

Lemma dbm_step l m m' :
  0 <= l <= 1 -> 1 <= m -> m < m' -> m' <= 12 -> dbm l m + dim l m <= dbm l m'.
Proof.
  intros. replace m' with (m + 1 + Z.of_nat (Z.to_nat (m' - m - 1))) in * by lia.
  set (k := Z.to_nat (m' - m - 1)) in *. clearbody k. induction k as [|k IH].
  - replace (m + 1 + Z.of_nat 0) with (m + 1) by lia. rewrite dbm_succ by lia. lia.
  - pose proof (dim_pos l (m + 1 + Z.of_nat k)).
    pose proof (dbm_succ l (m + 1 + Z.of_nat k)).
    replace (m + 1 + Z.of_nat (S k)) with (m + 1 + Z.of_nat k + 1) by lia. lia.
Qed.

Lemma yd2md_unique l n m d :
  0 <= l <= 1 -> 0 <= n < 365 + l ->
  1 <= m <= 12 -> 1 <= d <= dim l m -> dbm l m + d = n + 1 -> yd2md l n = (m, d).
Proof.
  intros Hl Hn Hm Hd Hs. destruct (yd2md l n) as [m' d'] eqn:E.
  apply yd2md_spec in E as (Hm' & Hd' & Hs'); [|done|done].
  assert (m = m') as <-.
  { destruct (Z.lt_trichotomy m m') as [?|[?|?]]; [exfalso|done|exfalso].
    - pose proof (dbm_step l m m'). lia.
    - pose proof (dbm_step l m' m). lia. }
  f_equal. lia.
Qed.

Lemma dbm_bound l m :
  0 <= l <= 1 -> 1 <= m <= 12 -> 0 <= dbm l m /\ dbm l m + dim l m <= 365 + l.
Proof. intros. months m; unfold dbm, dim, month_start; simpl; lia. Qed.

(** A valid calendar date survives the trip through its ordinal. *)
Lemma ord2ymd_ymd2ord y m d : ymd_ok y m d = true -> ord2ymd (ymd2ord y m d) = (y, m, d).
Proof.
  unfold ymd_ok, ord2ymd, ymd2ord, days_in_month, days_before_month. intros H. simpl_bool.
  pose proof (leapZ_bounds y). pose proof (dbm_bound (leapZ y) m).
  rewrite (ord2yd_unique _ y (dbm (leapZ y) m + d - 1)) by lia.
  rewrite (yd2md_unique _ _ m d) by lia. reflexivity.
Qed.

(** An ordinal survives the trip through its calendar date, which is valid. *)
Lemma ord2ymd_spec o y m d :
  ord2ymd o = (y, m, d) -> 1 <= m <= 12 /\ 1 <= d <= days_in_month y m /\ ymd2ord y m d = o.
Proof.
  unfold ord2ymd, ymd2ord, days_in_month, days_before_month.
  destruct (ord2yd o) as [y' n] eqn:E1. destruct (yd2md (leapZ y') n) as [m' d'] eqn:E2.
  intros [= -> -> ->]. apply ord2yd_spec in E1 as [? ?].
  apply yd2md_spec in E2 as (? & ? & ?); [|apply leapZ_bounds|done]. lia.
Qed.

Lemma date_ymd o : ymd2ord (date_year o) (date_month o) (date_day o) = o.
Proof.
  unfold date_year, date_month, date_day. destruct (ord2ymd o) as [[y m] d] eqn:E.
  apply ord2ymd_spec in E. simpl. tauto.
Qed.

Lemma date_year_range o y :
  days_before_year y + 1 <= o <= days_before_year (y + 1) -> date_year o = y.
Proof.
  intros Ho. unfold date_year, ord2ymd. rewrite leap_year_days in Ho.
  rewrite (ord2yd_unique o y (o - 1 - days_before_year y)) by lia.
  by destruct (yd2md _ _).
Qed.

Lemma mk_date_year y m d o : mk_date y m d = Some o -> date_year o = y.
Proof.
  unfold mk_date, date_year. destruct (ymd_ok y m d) eqn:E; [|done].
  intros [= <-]. by rewrite ord2ymd_ymd2ord.
Qed.

Lemma weekday_bounds d : 0 <= weekday d < 7.
Proof. unfold weekday. apply Z.mod_pos_bound. lia. Qed.

(** ** Aware datetimes *)

Definition US_PER_SECOND : Z := 1000000.
Definition US_PER_DAY : Z := 86400 * US_PER_SECOND.

(** [dt_date] and [dt_us] are local; [dt_off] is the UTC offset in microseconds. *)
Record datetime := mk_datetime { dt_date : date; dt_us : Z; dt_off : Z }.

(** [UTC] datetimes have offset 0. *)
Definition utc_datetime (d : date) (us : Z) : datetime := mk_datetime d us 0.

Definition dt_ok (t : datetime) : bool :=
  date_ok (dt_date t) && (0 <=? dt_us t) && (dt_us t <? US_PER_DAY).

(** Microseconds from 0001-01-01T00:00 UTC; order and difference of aware
    datetimes are those of their instants. *)
Definition instant (t : datetime) : Z := dt_date t * US_PER_DAY + dt_us t - dt_off t.

Definition dt_lt (a b : datetime) : bool := instant a <? instant b.
Definition dt_le (a b : datetime) : bool := instant a <=? instant b.

(** [datetime(1970, 1, 1, tzinfo=UTC)] *)
Definition EPOCH_ORD : Z := 719163.

(** [t.timestamp()] in microseconds. *)
Definition timestamp_us (t : datetime) : Z := instant t - EPOCH_ORD * US_PER_DAY.

(** [t + timedelta(microseconds=us)]; [None] is [OverflowError]. *)
Definition dt_add (t : datetime) (us : Z) : option datetime :=
  let total := dt_us t + us in
  let d := dt_date t + total / US_PER_DAY in
  if date_ok d then Some (mk_datetime d (total mod US_PER_DAY) (dt_off t)) else None.

(** [datetime.combine(d, t.time(), tzinfo=t.tzinfo)] *)
Definition dt_combine (d : date) (t : datetime) : datetime := mk_datetime d (dt_us t) (dt_off t).

(** [t.replace(year=y, month=m, day=d)]; [None] is [ValueError]. *)
Definition dt_replace (t : datetime) (y m d : Z) : option datetime :=
  match mk_date y m d with Some o => Some (dt_combine o t) | None => None end.

#[export] Instance datetime_eq_dec : EqDecision datetime.
Proof. solve_decision. Defined.

Lemma instant_add t us t' : dt_add t us = Some t' -> instant t' = instant t + us.
Proof.
  unfold dt_add. destruct (date_ok _); [|done]. intros [= <-]. unfold instant. simpl.
  pose proof (Z.div_mod (dt_us t + us) US_PER_DAY ltac:(done)). lia.
Qed.

Lemma dt_add_off t us t' : dt_add t us = Some t' -> dt_off t' = dt_off t.
Proof. unfold dt_add. destruct (date_ok _); [|done]. by intros [= <-]. Qed.

Lemma dt_add_days t k t' :
  0 <= dt_us t < US_PER_DAY -> dt_add t (k * US_PER_DAY) = Some t' ->
  dt_date t' = dt_date t + k /\ dt_us t' = dt_us t.
Proof.
  intros Hb. unfold dt_add. rewrite Z.div_add, Z.mod_add by done.
  rewrite Z.div_small, Z.mod_small by done. destruct (date_ok _); [|done].
  intros [= <-]. simpl. split; [lia|done].
Qed.

Lemma dt_lt_irrefl t : dt_lt t t = false.
Proof. apply Z.ltb_irrefl. Qed.

Lemma dt_le_total a b : dt_le a b = true \/ dt_le b a = true.
Proof. unfold dt_le. rewrite !Z.leb_le. lia. Qed.

Lemma dt_le_trans a b c : dt_le a b = true -> dt_le b c = true -> dt_le a c = true.
Proof. unfold dt_le. rewrite !Z.leb_le. lia. Qed.

(** ** [isoformat] *)

(** Decimal digits padded with zeros to width [w]. *)
Fixpoint zeros (n : nat) : string :=
  match n with O => EmptyString | S n' => String "0"%char (zeros n') end.

Definition pad (w : nat) (n : Z) : string :=
  let s := pretty n in zeros (w - String.length s) +:+ s.

Definition date_str (d : date) : string :=
  let '(y, m, dd) := ord2ymd d in
  pad 4 y +:+ "-" +:+ pad 2 m +:+ "-" +:+ pad 2 dd.

Definition time_str (us : Z) : string :=
  let s := us / US_PER_SECOND in let frac := us mod US_PER_SECOND in
  pad 2 (s / 3600) +:+ ":" +:+ pad 2 (s / 60 mod 60) +:+ ":" +:+ pad 2 (s mod 60) +:+
  (if frac =? 0 then EmptyString else "." +:+ pad 6 frac).

(** Whole-minute offsets, as every [timezone] the program builds has. *)
Definition off_str (off : Z) : string :=
  let m := Z.abs off / (60 * US_PER_SECOND) in
  (if off <? 0 then "-" else "+") +:+ pad 2 (m / 60) +:+ ":" +:+ pad 2 (m mod 60).

Definition isoformat (t : datetime) : string :=
  date_str (dt_date t) +:+ "T" +:+ time_str (dt_us t) +:+ off_str (dt_off t).

Example isoformat_example :
  isoformat (utc_datetime (ymd2ord 2026 3 9) (9 * 3600 * US_PER_SECOND)) =
  "2026-03-09T09:00:00+00:00"%string.
Proof. reflexivity. Qed.
