(* ===== verification/ConnErrors.v ===== *)
(** * ConnErrors: connectors/errors.py

    The five terminal classes of connector failure, the [retryable] flag each
    class carries, and [classify], the total mapping of HTTP responses and
    exceptions to exactly one class.  What httpx tells the classifier about its
    argument (is it a [Response], a timeout, a network error) is the constructor
    of [failure]; [float()] on a header is the parameter [parse_float]. *)

From Stdlib Require Import ZArith Lia Ascii String List QArith.
From stdpp Require Import base list strings pretty.
From S2P Require Import Prelude.

Open Scope string_scope.
Open Scope list_scope.
Open Scope Z_scope.

Inductive connector_class :=
| AuthError
| RateLimitError
| NotFoundError
| TransientError
| FatalError.

#[export] Instance connector_class_eq_dec : EqDecision connector_class.
Proof. solve_decision. Defined.

Record ConnectorError := mk_ConnectorError {
  ce_class : connector_class;
  ce_connector : string;
  ce_detail : string;
  ce_retry_after : option Q }.

(** The class attribute [retryable]. *)
Definition class_retryable (c : connector_class) : bool :=
  match c with
  | AuthError => false
  | RateLimitError => true
  | NotFoundError => false
  | TransientError => true
  | FatalError => false
  end.

Definition ce_retryable (e : ConnectorError) : bool := class_retryable (ce_class e).

Definition class_name (c : connector_class) : string :=
  match c with
  | AuthError => "AuthError"
  | RateLimitError => "RateLimitError"
  | NotFoundError => "NotFoundError"
  | TransientError => "TransientError"
  | FatalError => "FatalError"
  end.

(** The argument of [classify]: an httpx response with its status code and
    [Retry-After] header, an httpx timeout, an httpx connect/network error, an
    already classified error, or anything else with its type name. *)
Inductive failure :=
| Response (status : Z) (retry_after : option string)
| TimeoutException
| NetworkError
| Classified (e : ConnectorError)
| Unclassified (type_name : string).

(** [type(x).__name__] of the httpx objects, for the fallback message. *)
Definition failure_type_name (f : failure) : string :=
  match f with
  | Response _ _ => "Response"
  | TimeoutException => "TimeoutException"
  | NetworkError => "NetworkError"
  | Classified e => class_name (ce_class e)
  | Unclassified n => n
  end.

Section Classify.
Context (parse_float : string -> option Q).

Definition simple_error (c : connector_class) (connector detail : string) : ConnectorError :=
  mk_ConnectorError c connector detail None.

Definition classify_status (status : Z) (retry_after_raw : option string) (connector : string)
    : ConnectorError :=
  let detail := "HTTP " +:+ pretty status in
  if (status =? 401) || (status =? 403) then simple_error AuthError connector detail
  else if status =? 429 then
    let retry_after := match retry_after_raw with
                       | Some raw => parse_float raw
                       | None => None
                       end in
    mk_ConnectorError RateLimitError connector detail retry_after
  else if status =? 404 then simple_error NotFoundError connector detail
  else if existsb (Z.eqb status) [408; 425; 500; 502; 503; 504] then
    simple_error TransientError connector detail
  else simple_error FatalError connector (detail +:+ " (non-retryable)").

(** [have_httpx] says whether the guarded import of httpx succeeded. *)
Definition classify (have_httpx : bool) (f : failure) (connector : string) : ConnectorError :=
  let fallback := simple_error FatalError connector
                    ("Unclassified error: " +:+ failure_type_name f) in
  match f with
  | Response status ra => if have_httpx then classify_status status ra connector else fallback
  | TimeoutException =>
      if have_httpx then simple_error TransientError connector "Request timed out." else fallback
  | NetworkError =>
      if have_httpx then simple_error TransientError connector "Network error." else fallback
  | Classified e => e
  | Unclassified _ => fallback
  end.

(** The spec's table: what an HTTP status says about retrying. *)
Definition status_retryable (status : Z) : bool :=
  existsb (Z.eqb status) [408; 425; 429; 500; 502; 503; 504].

Lemma classify_status_retryable status ra connector :
  ce_retryable (classify_status status ra connector) = status_retryable status.
Proof.
  unfold classify_status, status_retryable, ce_retryable. simpl.
  destruct (Z.eqb_spec status 401) as [->|]; [done|].
  destruct (Z.eqb_spec status 403) as [->|]; [done|].
  destruct (Z.eqb_spec status 429) as [->|]; [done|].
  destruct (Z.eqb_spec status 404) as [->|]; [done|]. simpl.
  rewrite !orb_false_r.
  by destruct (status =? 408), (status =? 425), (status =? 500), (status =? 502),
    (status =? 503), (status =? 504).
Qed.

End Classify.
