(* ===== verification/Effects.v ===== *)
(** * Effects: JSON values, exceptions and the state-and-exception monad

    The program's coroutines run one at a time on an event loop; a call mutates
    shared objects and then returns a value or raises.  [M S A] models that: a
    computation maps the state it finds to the state it leaves and either a
    value or an exception, and what was mutated before a raise stays mutated.
    [sys] pairs a component's own store with the outside world [W] (audit sink,
    connectors, message queues) and counts how often the wall clock and
    [uuid4] were read, so that a run is a function of these supplies. *)

From Stdlib Require Import ZArith Lia Ascii String List QArith.
From stdpp Require Import base list strings pretty.
From S2P Require Import Prelude PyTime ConnErrors.

Open Scope string_scope.
Open Scope list_scope.
Open Scope Z_scope.

(** ** JSON values: Python's [Any] as the program stores it *)

#[warnings="-register-all"]
Inductive json :=
| JNull
| JBool (b : bool)
| JInt (z : Z)
| JFloat (q : Q)
| JStr (s : string)
| JList (l : list json)
| JDict (d : list (string * json)).

Definition jdict := dict string json.

(** What [float()] reads: a number, an infinity or NaN. *)
Inductive pyfloat := FFinite (q : Q) | FInfinite | FNan.

(** One call of the injected audit callback ([AuditService.record]). *)
Record AuditEvent := mk_AuditEvent {
  ev_actor : string;
  ev_action : string;
  ev_inputs : jdict;
  ev_outputs : jdict;
  ev_run_id : option string }.

Definition jopt (o : option string) : json :=
  match o with Some s => JStr s | None => JNull end.

(** Python truth of a JSON value. *)
Definition json_truthy (j : json) : bool :=
  match j with
  | JNull => false
  | JBool b => b
  | JInt z => negb (z =? 0)
  | JFloat q => negb (Qeq_bool q 0)
  | JStr s => str_truthy s
  | JList l => match l with [] => false | _ => true end
  | JDict d => match d with [] => false | _ => true end
  end.

(** ** Exceptions *)

Inductive exn :=
| KeyError (what : string)
| ValueError (what : string)
| TypeError (what : string)
| AttributeError (what : string)
| OverflowError
| AssertionError
| RuntimeError (what : string)
| ValidationError (what : string)
| IllegalTransitionError (subject from to : string)
| GateResolutionError (reason : string) (status_code : Z)
| CalendarError (what : string)
| MissingTriggerError (field : string)
| RuleValidationError (rule_id : option json) (reason : string)
| PastDueOnCreateError (due_at now : datetime)
| ConnectorExn (e : ConnectorError)
| OtherError (cls msg : string).

(** [type(exc).__name__] *)
Definition exn_name (e : exn) : string :=
  match e with
  | KeyError _ => "KeyError"
  | ValueError _ => "ValueError"
  | TypeError _ => "TypeError"
  | AttributeError _ => "AttributeError"
  | OverflowError => "OverflowError"
  | AssertionError => "AssertionError"
  | RuntimeError _ => "RuntimeError"
  | ValidationError _ => "ValidationError"
  | IllegalTransitionError _ _ _ => "IllegalTransitionError"
  | GateResolutionError _ _ => "GateResolutionError"
  | CalendarError _ => "CalendarError"
  | MissingTriggerError _ => "MissingTriggerError"
  | RuleValidationError _ _ => "RuleValidationError"
  | PastDueOnCreateError _ _ => "PastDueOnCreateError"
  | ConnectorExn e => class_name (ce_class e)
  | OtherError cls _ => cls
  end.

Inductive res (A : Type) :=
| Ok (a : A)
| Err (e : exn).
Arguments Ok {A} a.
Arguments Err {A} e.

Definition res_bind {A B} (r : res A) (f : A -> res B) : res B :=
  match r with Ok a => f a | Err e => Err e end.

Definition is_ok {A} (r : res A) : bool := match r with Ok _ => true | Err _ => false end.

(** [None] of a partial operation raises [e]. *)
Definition or_raise {A} (e : exn) (o : option A) : res A :=
  match o with Some a => Ok a | None => Err e end.

(** ** The state-and-exception monad *)

Definition M (S A : Type) : Type := S -> S * res A.

Definition ret {S A} (a : A) : M S A := fun s => (s, Ok a).

Definition raise {S A} (e : exn) : M S A := fun s => (s, Err e).

Definition bind {S A B} (m : M S A) (f : A -> M S B) : M S B := fun s =>
  match m s with
  | (s', Ok a) => f a s'
  | (s', Err e) => (s', Err e)
  end.

Definition lift_res {S A} (r : res A) : M S A := fun s => (s, r).

Definition gets {S A} (f : S -> A) : M S A := fun s => (s, Ok (f s)).

Definition modify {S} (f : S -> S) : M S unit := fun s => (f s, Ok tt).

(** [try: m except Exception as exc: h exc] *)
Definition try_except {S A} (m : M S A) (h : exn -> M S A) : M S A := fun s =>
  match m s with
  | (s', Ok a) => (s', Ok a)
  | (s', Err e) => h e s'
  end.

(** [try: m finally: f] *)
Definition try_finally {S A} (m : M S A) (f : M S unit) : M S A := fun s =>
  let '(s', r) := m s in
  match f s' with
  | (s'', Ok _) => (s'', r)
  | (s'', Err e) => (s'', Err e)
  end.

(** [try: m except Exception: pass] *)
Definition try_pass {S A} (m : M S A) : M S unit := fun s =>
  let '(s', _) := m s in (s', Ok tt).

(** Run a computation on a part of the state. *)
Definition zoom {S T A} (g : S -> T) (p : T -> S -> S) (m : M T A) : M S A := fun s =>
  let '(t, r) := m (g s) in (p t s, r).

Notation "'let!' x ':=' m 'in' k" := (bind m (fun x => k))
  (at level 10, x pattern, m at level 100, k at level 200) : cam_scope.
Notation "m ;; k" := (bind m (fun _ => k))
  (at level 100, k at level 200, right associativity) : cam_scope.
Notation "'letr!' x ':=' m 'in' k" := (res_bind m (fun x => k))
  (at level 10, x pattern, m at level 100, k at level 200) : cam_scope.

Open Scope cam_scope.

Fixpoint for_each {S A} (l : list A) (f : A -> M S unit) : M S unit :=
  match l with
  | [] => ret tt
  | x :: l' => f x ;; for_each l' f
  end.

Fixpoint map_m {S A B} (f : A -> M S B) (l : list A) : M S (list B) :=
  match l with
  | [] => ret []
  | x :: l' => let! y := f x in let! ys := map_m f l' in ret (y :: ys)
  end.

Fixpoint map_res {A B} (f : A -> res B) (l : list A) : res (list B) :=
  match l with
  | [] => Ok []
  | x :: l' => letr! y := f x in letr! ys := map_res f l' in Ok (y :: ys)
  end.

(** Fields of a pydantic model read from a dictionary: a string, and a string or
    [None] with default [None]. *)
Definition str_field (k : string) (d : jdict) : res string :=
  match dget k d with
  | Some (JStr s) => Ok s
  | _ => Err (ValidationError k)
  end.

Definition opt_str_field (k : string) (d : jdict) : res (option string) :=
  match dget k d with
  | Some (JStr s) => Ok (Some s)
  | Some JNull | None => Ok None
  | _ => Err (ValidationError k)
  end.

(** ** Inversion and invariant lemmas *)

Section MonadLemmas.
Context {S : Type}.

Lemma bind_ok {A B} (m : M S A) (f : A -> M S B) s s' b :
  bind m f s = (s', Ok b) -> exists s1 a, m s = (s1, Ok a) /\ f a s1 = (s', Ok b).
Proof. unfold bind. destruct (m s) as [s1 [a|e]]; [by exists s1, a | done]. Qed.

Lemma bind_ok_eq {A B} (m : M S A) (f : A -> M S B) s s1 a :
  m s = (s1, Ok a) -> bind m f s = f a s1.
Proof. unfold bind. by intros ->. Qed.

Lemma bind_err {A B} (m : M S A) (f : A -> M S B) s s' e :
  bind m f s = (s', Err e) ->
  m s = (s', Err e) \/ exists s1 a, m s = (s1, Ok a) /\ f a s1 = (s', Err e).
Proof.
  unfold bind. destruct (m s) as [s1 [a|e']]; [right; by exists s1, a|].
  intros [= -> ->]. by left.
Qed.

(** Two continuations that agree on what [m] returns. *)
Lemma bind_cong {A B} (m : M S A) (f g : A -> M S B) s :
  (forall s' a, m s = (s', Ok a) -> f a s' = g a s') -> bind m f s = bind m g s.
Proof. unfold bind. destruct (m s) as [s' [a|e]]; [|done]. intros H. by apply H. Qed.

(** [keeps P m]: the computation preserves the state predicate [P], whether it
    returns or raises. *)
Definition keeps {A} (P : S -> Prop) (m : M S A) : Prop :=
  forall s, P s -> P (fst (m s)).

Lemma keeps_ret {A} P (a : A) : keeps P (ret a).
Proof. by intros s. Qed.

Lemma keeps_raise {A} P e : keeps P (raise (A := A) e).
Proof. by intros s. Qed.

Lemma keeps_lift_res {A} P (r : res A) : keeps P (lift_res r).
Proof. by intros s. Qed.

Lemma keeps_gets {A} P (f : S -> A) : keeps P (gets f).
Proof. by intros s. Qed.

Lemma keeps_bind {A B} P (m : M S A) (f : A -> M S B) :
  keeps P m -> (forall a, keeps P (f a)) -> keeps P (bind m f).
Proof.
  intros Hm Hf s Hs. unfold bind. specialize (Hm s Hs).
  destruct (m s) as [s' [a|e]]; simpl in *; [by apply Hf | done].
Qed.

Lemma keeps_try_except {A} P (m : M S A) h :
  keeps P m -> (forall e, keeps P (h e)) -> keeps P (try_except m h).
Proof.
  intros Hm Hf s Hs. unfold try_except. specialize (Hm s Hs).
  destruct (m s) as [s' [a|e]]; simpl in *; [done | by apply Hf].
Qed.

Lemma keeps_try_pass {A} P (m : M S A) : keeps P m -> keeps P (try_pass m).
Proof.
  intros Hm s Hs. unfold try_pass. specialize (Hm s Hs). by destruct (m s).
Qed.

Lemma keeps_try_finally {A} P (m : M S A) f :
  keeps P m -> keeps P f -> keeps P (try_finally m f).
Proof.
  intros Hm Hf s Hs. unfold try_finally. specialize (Hm s Hs).
  destruct (m s) as [s' r]; simpl in *. specialize (Hf s' Hm).
  by destruct (f s') as [s'' [u|e]].
Qed.

Lemma keeps_for_each {A} P (l : list A) (f : A -> M S unit) :
  (forall x, x ∈ l -> keeps P (f x)) -> keeps P (for_each l f).
Proof.
  induction l as [|x l IH]; simpl; intros Hf; [apply keeps_ret|].
  apply keeps_bind; [apply Hf; left|]. intros _. apply IH. intros y Hy. apply Hf. by right.
Qed.

Lemma keeps_map_m {A B} P (f : A -> M S B) (l : list A) :
  (forall x, keeps P (f x)) -> keeps P (map_m f l).
Proof.
  intros Hf. induction l as [|x l IH]; simpl; [apply keeps_ret|].
  apply keeps_bind; [done|]. intros y. apply keeps_bind; [done|]. intros. apply keeps_ret.
Qed.

End MonadLemmas.

Lemma keeps_zoom {S T A} (P : S -> Prop) (g : S -> T) p (m : M T A) :
  (forall s, P s -> P (p (fst (m (g s))) s)) -> keeps P (zoom g p m).
Proof. intros H s Hs. unfold zoom. specialize (H s Hs). by destruct (m (g s)). Qed.

#[export] Hint Resolve keeps_ret keeps_raise keeps_lift_res keeps_gets keeps_bind
  keeps_try_except keeps_try_pass keeps_try_finally keeps_map_m : cam.

(** Step through the monad: unfold one [bind] in [H] along its successful path. *)
Ltac inv_bind H :=
  let s1 := fresh "s" in let a := fresh "a" in let H1 := fresh "Hb" in
  apply bind_ok in H as (s1 & a & H1 & H).

Lemma map_res_ok {A B} (f : A -> res B) l ys :
  map_res f l = Ok ys -> Forall2 (fun x y => f x = Ok y) l ys.
Proof.
  revert ys. induction l as [|x l IH]; simpl; intros ys.
  - intros [= <-]. constructor.
  - unfold res_bind. destruct (f x) eqn:E; [|done].
    destruct (map_res f l) eqn:E2; [|done]. intros [= <-]. constructor; auto.
Qed.

(** ** A component with its environment *)

Record sys (T W : Type) := mk_sys {
  sys_store : T;
  sys_world : W;
  sys_ticks : nat;
  sys_uuids : nat }.
Arguments mk_sys {T W}.
Arguments sys_store {T W}.
Arguments sys_world {T W}.
Arguments sys_ticks {T W}.
Arguments sys_uuids {T W}.

Section Sys.
Context {T W : Type}.

Definition set_store (t : T) (s : sys T W) : sys T W :=
  mk_sys t (sys_world s) (sys_ticks s) (sys_uuids s).

Definition set_world (w : W) (s : sys T W) : sys T W :=
  mk_sys (sys_store s) w (sys_ticks s) (sys_uuids s).

Definition on_store {A} (m : M T A) : M (sys T W) A := zoom sys_store set_store m.

Definition on_world {A} (m : M W A) : M (sys T W) A := zoom sys_world set_world m.

(** [datetime.now(tz=UTC)]: the next reading of the clock supply. *)
Definition tick (s : sys T W) : sys T W :=
  mk_sys (sys_store s) (sys_world s) (S (sys_ticks s)) (sys_uuids s).

Definition get_now (clock : nat -> datetime) : M (sys T W) datetime := fun s =>
  (tick s, Ok (clock (sys_ticks s))).

(** [str(uuid.uuid4())]: the next element of the uuid supply. *)
Definition uuid4 (uuids : nat -> string) : M (sys T W) string := fun s =>
  (mk_sys (sys_store s) (sys_world s) (sys_ticks s) (S (sys_uuids s)), Ok (uuids (sys_uuids s))).

(** Run a computation of a sub-component with the same world and supplies. *)
Definition zoom_sys {U A} (g : T -> U) (p : U -> T -> T) (m : M (sys U W) A) : M (sys T W) A :=
  fun s =>
  let '(u, r) := m (mk_sys (g (sys_store s)) (sys_world s) (sys_ticks s) (sys_uuids s)) in
  (mk_sys (p (sys_store u) (sys_store s)) (sys_world u) (sys_ticks u) (sys_uuids u), r).

Lemma bind_get_now {A} clock (f : datetime -> M (sys T W) A) s :
  bind (get_now clock) f s = f (clock (sys_ticks s)) (tick s).
Proof. reflexivity. Qed.

Lemma on_store_world {A} (m : M T A) s : sys_world (fst (on_store m s)) = sys_world s.
Proof. unfold on_store, zoom. by destruct (m _). Qed.

Lemma on_world_store {A} (m : M W A) s : sys_store (fst (on_world m s)) = sys_store s.
Proof. unfold on_world, zoom. by destruct (m _). Qed.

(** A predicate on the store alone is kept by everything but [on_store]. *)
Definition store_sat (P : T -> Prop) (s : sys T W) : Prop := P (sys_store s).

Lemma keeps_on_world {A} P (m : M W A) : keeps (store_sat P) (on_world m).
Proof. intros s Hs. unfold store_sat. by rewrite on_world_store. Qed.

Lemma keeps_get_now P clock : keeps (store_sat P) (get_now clock).
Proof. by intros s. Qed.

Lemma keeps_uuid4 P uuids : keeps (store_sat P) (uuid4 uuids).
Proof. by intros s. Qed.

Lemma keeps_on_store {A} (P : T -> Prop) (m : M T A) :
  keeps P m -> keeps (store_sat P) (on_store m).
Proof.
  intros Hm s Hs. unfold store_sat, on_store, zoom in *. specialize (Hm (sys_store s) Hs).
  by destruct (m (sys_store s)).
Qed.

(** A predicate on the world alone is kept by everything but [on_world]. *)
Definition world_sat (P : W -> Prop) (s : sys T W) : Prop := P (sys_world s).

Lemma world_on_world {A} (P : W -> Prop) (m : M W A) : keeps P m -> keeps (world_sat P) (on_world m).
Proof.
  intros Hm s Hs. unfold world_sat, on_world, zoom in *. specialize (Hm (sys_world s) Hs).
  by destruct (m (sys_world s)).
Qed.

Lemma world_on_store {A} P (m : M T A) : keeps (world_sat P) (on_store m).
Proof. intros s Hs. unfold world_sat. by rewrite on_store_world. Qed.

Lemma world_get_now P clock : keeps (world_sat P) (get_now clock).
Proof. by intros s. Qed.

Lemma world_uuid4 P uuids : keeps (world_sat P) (uuid4 uuids).
Proof. by intros s. Qed.

(** The computation leaves the store as it found it. *)
Definition store_const {A} (m : M (sys T W) A) : Prop :=
  forall s, sys_store (fst (m s)) = sys_store s.

Lemma const_ret {A} (a : A) : store_const (ret a).
Proof. by intros s. Qed.

Lemma const_raise {A} e : store_const (raise (A := A) e).
Proof. by intros s. Qed.

Lemma const_lift_res {A} (r : res A) : store_const (lift_res r).
Proof. by intros s. Qed.

Lemma const_get_now clock : store_const (get_now clock).
Proof. by intros s. Qed.

Lemma const_uuid4 uuids : store_const (uuid4 uuids).
Proof. by intros s. Qed.

Lemma const_on_world {A} (m : M W A) : store_const (on_world m).
Proof. intros s. apply on_world_store. Qed.

Lemma const_gets {A} (f : T -> A) : store_const (on_store (gets f)).
Proof. by intros s. Qed.

Lemma const_bind {A B} (m : M (sys T W) A) (f : A -> M (sys T W) B) :
  store_const m -> (forall a, store_const (f a)) -> store_const (bind m f).
Proof.
  intros Hm Hf s. unfold bind. specialize (Hm s). destruct (m s) as [s' [a|e]]; simpl in *; [|done].
  by rewrite Hf.
Qed.

Lemma const_try_pass {A} (m : M (sys T W) A) : store_const m -> store_const (try_pass m).
Proof. intros Hm s. unfold try_pass. specialize (Hm s). by destruct (m s). Qed.

Lemma const_try_except {A} (m : M (sys T W) A) h :
  store_const m -> (forall e, store_const (h e)) -> store_const (try_except m h).
Proof.
  intros Hm Hh s. unfold try_except. specialize (Hm s).
  destruct (m s) as [s' [a|e]]; simpl in *; [done|]. by rewrite Hh.
Qed.

Lemma const_eq {A} (m : M (sys T W) A) s s' r :
  store_const m -> m s = (s', r) -> sys_store s' = sys_store s.
Proof. intros Hm E. specialize (Hm s). by rewrite E in Hm. Qed.

Lemma on_store_eq {A} (m : M T A) s s' r :
  on_store m s = (s', r) -> m (sys_store s) = (sys_store s', r).
Proof. unfold on_store, zoom. destruct (m (sys_store s)) as [t r'] eqn:E. by intros [= <- <-]. Qed.

End Sys.

#[export] Hint Resolve const_ret const_raise const_lift_res const_get_now const_uuid4
  const_on_world const_gets const_bind const_try_pass const_try_except : cam.

Lemma world_zoom_sys {T U W A} (P : W -> Prop) (g : T -> U) p (m : M (sys U W) A) :
  keeps (world_sat P) m -> keeps (world_sat P) (zoom_sys g p m).
Proof.
  intros Hm s Hs. unfold zoom_sys. specialize (Hm (mk_sys (g (sys_store s)) (sys_world s) (sys_ticks s) (sys_uuids s)) Hs).
  by destruct (m _).
Qed.

#[export] Hint Resolve world_zoom_sys world_on_world world_on_store world_get_now world_uuid4 : cam.

#[export] Hint Resolve keeps_on_world keeps_get_now keeps_uuid4 keeps_on_store : cam.
