(* ===== verification/Base64.v ===== *)
(** * Base64: Python's base64 module, URL-safe alphabet

    [urlsafe_b64encode] and the lenient [urlsafe_b64decode] (binascii's
    non-strict state machine: characters outside the alphabet are skipped, a
    complete padding ends the input), as gates.py uses them on approval tokens.
    Decoding the re-padded text of an encoding gives the data back. *)

From Stdlib Require Import ZArith Lia Ascii String List.
From stdpp Require Import base list strings.
From S2P Require Import Prelude PyTime.

Open Scope string_scope.
Open Scope list_scope.
Open Scope Z_scope.

Definition byte_of (c : ascii) : Z := Z.of_N (N_of_ascii c).
Definition of_byte (b : Z) : ascii := ascii_of_N (Z.to_N b).

Lemma of_byte_byte_of c : of_byte (byte_of c) = c.
Proof. unfold of_byte, byte_of. rewrite N2Z.id. apply ascii_N_embedding. Qed.

Lemma byte_of_bounds c : 0 <= byte_of c < 256.
Proof.
  unfold byte_of. pose proof (N_ascii_bounded c). lia.
Qed.

Definition b64_alphabet : list ascii :=
  list_ascii_of_string "ABCDEFGHIJKLMNOPQRSTUVWXYZabcdefghijklmnopqrstuvwxyz0123456789-_".

Definition b64_char (v : Z) : ascii := nth (Z.to_nat v) b64_alphabet "A"%char.

Fixpoint index_of (c : ascii) (l : list ascii) (i : Z) : option Z :=
  match l with
  | [] => None
  | c' :: l' => if Ascii.eqb c c' then Some i else index_of c l' (i + 1)
  end.

Lemma list_ascii_app a b :
  list_ascii_of_string (a +:+ b) = list_ascii_of_string a ++ list_ascii_of_string b.
Proof. induction a as [|c a IH]; simpl; [done|]. by rewrite IH. Qed.

Lemma string_of_list_app a b :
  string_of_list_ascii (a ++ b) = string_of_list_ascii a +:+ string_of_list_ascii b.
Proof.
  rewrite <- (string_of_list_ascii_of_string (string_of_list_ascii a +:+ string_of_list_ascii b)).
  by rewrite list_ascii_app, !list_ascii_of_string_of_list_ascii.
Qed.

Lemma length_string_of_list l : String.length (string_of_list_ascii l) = length l.
Proof. induction l as [|c l IH]; simpl; [done|]. by f_equal. Qed.

(** The decoding table after [translate("-_" -> "+/")]: both spellings decode. *)
Definition b64_value (c : ascii) : option Z :=
  if Ascii.eqb c "+"%char then Some 62
  else if Ascii.eqb c "/"%char then Some 63
  else index_of c b64_alphabet 0.

(** Six-bit groups of a byte string, the last group of an incomplete triple
    filled with zero bits. *)
Fixpoint sextets (l : list Z) : list Z :=
  match l with
  | a :: b :: c :: l' =>
      a / 4 :: (a mod 4) * 16 + b / 16 :: (b mod 16) * 4 + c / 64 :: c mod 64 :: sextets l'
  | [a; b] => [a / 4; (a mod 4) * 16 + b / 16; (b mod 16) * 4]
  | [a] => [a / 4; (a mod 4) * 16]
  | [] => []
  end.

Definition padding (n : nat) : list ascii := repeat "="%char ((4 - n mod 4) mod 4)%nat.

Definition urlsafe_b64encode (s : string) : string :=
  let cs := map b64_char (sextets (map byte_of (list_ascii_of_string s))) in
  string_of_list_ascii (cs ++ padding (length cs)).

(** [s.rstrip(c)] *)
Fixpoint lstrip_list (c : ascii) (l : list ascii) : list ascii :=
  match l with
  | x :: l' => if Ascii.eqb x c then lstrip_list c l' else l
  | [] => []
  end.

Definition rstrip (c : ascii) (s : string) : string :=
  string_of_list_ascii (rev (lstrip_list c (rev (list_ascii_of_string s)))).

(** binascii.a2b_base64, non-strict: position in the quad, pending bits, pads seen. *)
Fixpoint a2b (l : list ascii) (quad : Z) (left pads : Z) : option (list Z) :=
  match l with
  | [] => if quad =? 0 then Some [] else None
  | c :: l' =>
      if Ascii.eqb c "="%char then
        if (2 <=? quad) && (4 <=? quad + pads + 1) then Some []
        else a2b l' quad left (if 2 <=? quad then pads + 1 else pads)
      else match b64_value c with
      | None => a2b l' quad left pads
      | Some v =>
          if quad =? 0 then a2b l' 1 v 0
          else if quad =? 1 then option_map (cons (left * 4 + v / 16)) (a2b l' 2 (v mod 16) 0)
          else if quad =? 2 then option_map (cons (left * 16 + v / 4)) (a2b l' 3 (v mod 4) 0)
          else option_map (cons (left * 64 + v)) (a2b l' 0 0 0)
      end
  end.

(** [str.isascii()] of a UTF-8 string. *)
Definition is_ascii (s : string) : bool :=
  forallb (fun c => byte_of c <? 128) (list_ascii_of_string s).

(** [None] is the [ValueError] of non-ASCII text or [binascii.Error]. *)
Definition urlsafe_b64decode (s : string) : option string :=
  if is_ascii s then
    option_map (fun l => string_of_list_ascii (map of_byte l))
      (a2b (list_ascii_of_string s) 0 0 0)
  else None.

(** ** Round trip *)

Definition b64_check (v : Z) : bool :=
  match b64_value (b64_char v) with Some w => w =? v | None => false end.

Lemma b64_char_value v : 0 <= v < 64 -> b64_value (b64_char v) = Some v.
Proof.
  intros Hv. assert (b64_check v = true) as H.
  { apply (forallb_zrange b64_check 0 64); [reflexivity | lia]. }
  unfold b64_check in H. destruct (b64_value _); [|done]. simpl_bool. by subst.
Qed.

(** No alphabet character is the pad or the token separator. *)
Lemma b64_char_not v : b64_char v <> "="%char /\ b64_char v <> "."%char.
Proof.
  unfold b64_char. generalize (Z.to_nat v) as n. intros n.
  assert (Forall (fun c => c <> "="%char /\ c <> "."%char) b64_alphabet) as Hf.
  { repeat constructor; done. }
  destruct (nth_in_or_default n b64_alphabet "A"%char) as [Hin | ->]; [|done].
  eapply List.Forall_forall in Hf; [exact Hf|done].
Qed.

(** The number of padding characters a sextet list still needs. *)
Definition pads_for (n : nat) : list ascii := padding n.

Lemma padding_add4 n : padding (S (S (S (S n)))) = padding n.
Proof.
  unfold padding. replace (S (S (S (S n)))) with (n + 1 * 4)%nat by lia.
  by rewrite Nat.Div0.mod_add.
Qed.

Lemma a2b_char v l quad left pads :
  0 <= v < 64 ->
  a2b (b64_char v :: l) quad left pads =
    if quad =? 0 then a2b l 1 v 0
    else if quad =? 1 then option_map (cons (left * 4 + v / 16)) (a2b l 2 (v mod 16) 0)
    else if quad =? 2 then option_map (cons (left * 16 + v / 4)) (a2b l 3 (v mod 4) 0)
    else option_map (cons (left * 64 + v)) (a2b l 0 0 0).
Proof.
  intros Hv. cbn [a2b]. destruct (Ascii.eqb_spec (b64_char v) "="%char) as [E|_].
  - by destruct (b64_char_not v).
  - by rewrite b64_char_value.
Qed.

Lemma a2b_sextets l :
  Forall (fun b => 0 <= b < 256) l ->
  a2b (map b64_char (sextets l) ++ padding (length (sextets l))) 0 0 0 = Some l.
Proof.
  assert (forall n l, (length l <= n)%nat -> Forall (fun b => 0 <= b < 256) l ->
    a2b (map b64_char (sextets l) ++ padding (length (sextets l))) 0 0 0 = Some l) as H;
    [|by apply (H (length l))].
  clear l. induction n as [|n IH]; intros l Hl Hb; [by destruct l; [|simpl in Hl; lia]|].
  destruct l as [|a [|b [|c l]]]; [done| | |].
  - apply Forall_cons in Hb as [Ha _].
    cbn [sextets map app length]. rewrite !a2b_char by zdiv. simpl.
    do 2 f_equal. zdiv.
  - apply Forall_cons in Hb as [Ha Hb]. apply Forall_cons in Hb as [Hb _].
    cbn [sextets map app length]. rewrite !a2b_char by zdiv. simpl.
    do 2 f_equal; [zdiv|]. f_equal. zdiv.
  - apply Forall_cons in Hb as [Ha Hb]. apply Forall_cons in Hb as [Hb Hc].
    apply Forall_cons in Hc as [Hc Hl'].
    cbn [sextets map app length]. rewrite padding_add4, !a2b_char by zdiv.
    simpl in Hl. cbn [Z.eqb Pos.eqb]. rewrite IH by (done || lia). simpl.
    do 2 f_equal; [zdiv|]. f_equal; [zdiv|]. f_equal. zdiv.
Qed.

(** The text of a token payload: encoding without its padding. *)
Definition b64_text (s : string) : list ascii :=
  map b64_char (sextets (map byte_of (list_ascii_of_string s))).

Lemma lstrip_repeat c n l :
  (forall x, In x l -> x <> c) -> lstrip_list c (repeat c n ++ l) = l.
Proof.
  intros Hl. induction n as [|n IH]; simpl.
  - destruct l as [|x l]; [done|]. simpl. destruct (Ascii.eqb_spec x c) as [->|]; [|done].
    exfalso. apply (Hl c); [by left|done].
  - by rewrite Ascii.eqb_refl.
Qed.

Lemma rev_repeat {A} (x : A) n : rev (repeat x n) = repeat x n.
Proof.
  induction n as [|n IH]; [done|]. simpl. rewrite IH. clear IH.
  induction n as [|n IH]; simpl; [done|]. by rewrite IH.
Qed.

Lemma rstrip_encode s : rstrip "="%char (urlsafe_b64encode s) = string_of_list_ascii (b64_text s).
Proof.
  unfold rstrip, urlsafe_b64encode. rewrite list_ascii_of_string_of_list_ascii.
  fold (b64_text s). unfold padding at 1. rewrite rev_app_distr, rev_repeat, lstrip_repeat.
  - by rewrite rev_involutive.
  - intros x Hx%in_rev. unfold b64_text in Hx. apply in_map_iff in Hx as (v & <- & _).
    apply b64_char_not.
Qed.

Lemma b64_text_no_dot s : Forall (fun c => c <> "."%char) (b64_text s).
Proof.
  unfold b64_text. apply List.Forall_forall. intros x Hx.
  apply in_map_iff in Hx as (v & <- & _). apply b64_char_not.
Qed.

Lemma b64_char_ascii v : (byte_of (b64_char v) <? 128) = true.
Proof.
  unfold b64_char. generalize (Z.to_nat v) as n. intros n.
  assert (forallb (fun c => byte_of c <? 128) b64_alphabet = true) as Hf by reflexivity.
  destruct (nth_in_or_default n b64_alphabet "A"%char) as [Hin | ->]; [|done].
  eapply forallb_forall in Hf; [exact Hf|done].
Qed.

Lemma padding_ascii n : forallb (fun c => byte_of c <? 128) (padding n) = true.
Proof. unfold padding. generalize ((4 - n mod 4) mod 4)%nat as k. by induction k. Qed.

Lemma b64_text_ascii s : forallb (fun c => byte_of c <? 128) (b64_text s) = true.
Proof.
  apply forallb_forall. intros x Hx. unfold b64_text in Hx.
  apply in_map_iff in Hx as (v & <- & _). apply b64_char_ascii.
Qed.

Lemma b64_decode_text s :
  urlsafe_b64decode (string_of_list_ascii (b64_text s ++ padding (length (b64_text s)))) = Some s.
Proof.
  unfold urlsafe_b64decode, is_ascii. rewrite list_ascii_of_string_of_list_ascii.
  rewrite forallb_app, b64_text_ascii, padding_ascii. cbn [andb].
  unfold b64_text. rewrite length_map. rewrite a2b_sextets.
  - simpl. f_equal. rewrite map_map.
    rewrite (map_ext _ (fun c => c)) by apply of_byte_byte_of. rewrite map_id.
    apply string_of_list_ascii_of_string.
  - apply List.Forall_forall. intros x Hx. apply in_map_iff in Hx as (c & <- & _).
    apply byte_of_bounds.
Qed.

(** ** The standard alphabet

    [b64encode] is [urlsafe_b64encode] before its [translate("+/" -> "-_")];
    [b64decode] of a byte string skips what is outside the standard alphabet,
    [-] and [_] included. *)

Definition std_char (c : ascii) : ascii :=
  if Ascii.eqb c "-"%char then "+"%char
  else if Ascii.eqb c "_"%char then "/"%char
  else c.

Definition b64encode (data : string) : string :=
  string_of_list_ascii (map std_char (list_ascii_of_string (urlsafe_b64encode data))).

Definition urlsafe_only (c : ascii) : bool := Ascii.eqb c "-"%char || Ascii.eqb c "_"%char.

(** [None] is the [binascii.Error]. *)
Definition b64decode (data : string) : option string :=
  option_map (fun l => string_of_list_ascii (map of_byte l))
    (a2b (List.filter (fun c => negb (urlsafe_only c)) (list_ascii_of_string data)) 0 0 0).

Lemma std_char_eq c : Ascii.eqb (std_char c) "="%char = Ascii.eqb c "="%char.
Proof.
  unfold std_char. destruct (Ascii.eqb_spec c "-"%char) as [->|_]; [done|].
  by destruct (Ascii.eqb_spec c "_"%char) as [->|_].
Qed.

Lemma std_char_value c : b64_value (std_char c) = b64_value c.
Proof.
  unfold std_char. destruct (Ascii.eqb_spec c "-"%char) as [->|_]; [done|].
  by destruct (Ascii.eqb_spec c "_"%char) as [->|_].
Qed.

Lemma std_char_kept c : urlsafe_only (std_char c) = false.
Proof.
  unfold std_char. destruct (Ascii.eqb c "-"%char) eqn:E1; [done|].
  destruct (Ascii.eqb c "_"%char) eqn:E2; [done|]. unfold urlsafe_only. by rewrite E1, E2.
Qed.

(** Decoding does not tell the two alphabets apart. *)
Lemma a2b_std l quad left pads : a2b (map std_char l) quad left pads = a2b l quad left pads.
Proof.
  revert quad left pads. induction l as [|c l IH]; intros quad left pads; [done|].
  cbn [map a2b]. rewrite std_char_eq, std_char_value.
  destruct (Ascii.eqb c "="%char); [by rewrite IH|].
  destruct (b64_value c); by rewrite ?IH.
Qed.

Lemma b64decode_encode s : b64decode (b64encode s) = Some s.
Proof.
  unfold b64decode, b64encode. rewrite list_ascii_of_string_of_list_ascii.
  assert (List.filter (fun c => negb (urlsafe_only c))
            (map std_char (list_ascii_of_string (urlsafe_b64encode s)))
          = map std_char (list_ascii_of_string (urlsafe_b64encode s))) as ->.
  { apply forallb_filter_id. apply forallb_forall. intros x (c & <- & _)%in_map_iff.
    by rewrite std_char_kept. }
  rewrite a2b_std. unfold urlsafe_b64encode. rewrite list_ascii_of_string_of_list_ascii.
  pose proof (b64_decode_text s) as H. unfold urlsafe_b64decode in H.
  rewrite list_ascii_of_string_of_list_ascii in H.
  destruct (is_ascii _); [exact H|done].
Qed.
