(* ===== verification/PyText.v ===== *)
(** * PyText: the Python string operations the services use

    Lower-casing, whitespace splitting and stripping, [repr] of strings and of
    lists of strings, and the [.2f] format.  Strings are lists of characters;
    the functions are those of Python on ASCII text. *)

From Stdlib Require Import ZArith Lia Ascii String List QArith.
From stdpp Require Import base list strings pretty.
From S2P Require Import Prelude PyTime.

Open Scope string_scope.
Open Scope list_scope.
Open Scope Z_scope.

Definition code (c : ascii) : Z := Z.of_N (N_of_ascii c).

Definition chr (n : Z) : ascii := ascii_of_N (Z.to_N n).

Definition char_lower (c : ascii) : ascii :=
  if (65 <=? code c) && (code c <=? 90) then chr (code c + 32) else c.

Fixpoint str_map (f : ascii -> ascii) (s : string) : string :=
  match s with
  | EmptyString => EmptyString
  | String c s' => String (f c) (str_map f s')
  end.

Definition str_lower (s : string) : string := str_map char_lower s.

Definition char_upper (c : ascii) : ascii :=
  if (97 <=? code c) && (code c <=? 122) then chr (code c - 32) else c.

Definition str_upper (s : string) : string := str_map char_upper s.

(** [c.isspace()] *)
Definition is_space (c : ascii) : bool :=
  let n := code c in (n =? 32) || ((9 <=? n) && (n <=? 13)) || ((28 <=? n) && (n <=? 31)).

(** [s.split()]: the maximal runs of other characters; [acc] is the current run. *)
Fixpoint split_from (acc : string) (s : string) : list string :=
  match s with
  | EmptyString => if str_truthy acc then [acc] else []
  | String c s' =>
      if is_space c then (if str_truthy acc then [acc] else []) ++ split_from EmptyString s'
      else split_from (acc +:+ String c EmptyString) s'
  end.

Definition str_split (s : string) : list string := split_from EmptyString s.

Fixpoint str_join (sep : string) (l : list string) : string :=
  match l with
  | [] => EmptyString
  | [x] => x
  | x :: l' => x +:+ sep +:+ str_join sep l'
  end.

(** [s.strip() == EmptyString] *)
Fixpoint is_blank (s : string) : bool :=
  match s with
  | EmptyString => true
  | String c s' => is_space c && is_blank s'
  end.

(** [s.strip()] *)
Fixpoint lstrip (s : string) : string :=
  match s with
  | EmptyString => EmptyString
  | String c s' => if is_space c then lstrip s' else s
  end.

Fixpoint rstrip (s : string) : string :=
  match s with
  | EmptyString => EmptyString
  | String c s' =>
      match rstrip s' with
      | EmptyString => if is_space c then EmptyString else String c EmptyString
      | r => String c r
      end
  end.

Definition str_strip (s : string) : string := rstrip (lstrip s).

(** [s.split(sep)] for a one-character separator. *)
Fixpoint split_on (sep : ascii) (s : string) : list string :=
  match s with
  | EmptyString => [EmptyString]
  | String c s' =>
      if Ascii.eqb c sep then EmptyString :: split_on sep s'
      else match split_on sep s' with
           | x :: l => String c x :: l
           | [] => [String c EmptyString]
           end
  end.

(** [p in s] *)
Fixpoint str_contains (p s : string) : bool :=
  starts_with p s || match s with EmptyString => false | String _ s' => str_contains p s' end.

Example strip_ex : map str_strip (split_on "," " ada, bob ,") = ["ada"; "bob"; ""].
Proof. reflexivity. Qed.

(** ** [repr] *)

Definition SQUOTE : ascii := "'"%char.
Definition DQUOTE : ascii := chr 34.
Definition BACKSLASH : ascii := chr 92.

Fixpoint str_has (c : ascii) (s : string) : bool :=
  match s with
  | EmptyString => false
  | String c' s' => Ascii.eqb c c' || str_has c s'
  end.

Definition hex_digit (n : Z) : ascii := if n <? 10 then chr (48 + n) else chr (87 + n).

Definition escape_char (q c : ascii) : string :=
  if Ascii.eqb c q || Ascii.eqb c BACKSLASH then String BACKSLASH (String c EmptyString)
  else if code c =? 9 then String BACKSLASH "t"
  else if code c =? 10 then String BACKSLASH "n"
  else if code c =? 13 then String BACKSLASH "r"
  else if (code c <? 32) || (code c =? 127) then
    String BACKSLASH (String "x"%char (String (hex_digit (code c / 16)) (String (hex_digit (code c mod 16)) EmptyString)))
  else String c EmptyString.

Fixpoint escape (q : ascii) (s : string) : string :=
  match s with
  | EmptyString => EmptyString
  | String c s' => escape_char q c +:+ escape q s'
  end.

Definition py_repr (s : string) : string :=
  let q := if str_has SQUOTE s && negb (str_has DQUOTE s) then DQUOTE else SQUOTE in
  String q (escape q s +:+ String q EmptyString).

(** [repr] of a list of strings *)
Definition py_repr_list (l : list string) : string := "[" +:+ str_join ", " (map py_repr l) +:+ "]".

Definition py_bool (b : bool) : string := if b then "True" else "False".

(** ** The format [.2f]: round half to even on the exact value *)

Definition round_half_even (n d : Z) : Z :=
  let q := n / d in let r := n mod d in
  if 2 * r <? d then q else if d <? 2 * r then q + 1 else if Z.even q then q else q + 1.

Definition fmt2 (q : Q) : string :=
  let k := round_half_even (Z.abs (Qnum q) * 100) (Zpos (Qden q)) in
  (if Qnum q <? 0 then "-" else EmptyString) +:+ pretty (k / 100) +:+ "." +:+ pad 2 (k mod 100).

Example py_repr_ex : py_repr "it's" = String DQUOTE ("it's" +:+ String DQUOTE EmptyString).
Proof. reflexivity. Qed.

Example fmt2_ex : map fmt2 [(1 # 2)%Q; (1 # 8)%Q; (999 # 1000)%Q] = ["0.50"; "0.12"; "1.00"].
Proof. reflexivity. Qed.

Example split_ex : str_split " Ada   Lovelace " = ["Ada"; "Lovelace"].
Proof. reflexivity. Qed.

Lemma str_app_assoc (a b c : string) : (a +:+ b) +:+ c = a +:+ b +:+ c.
Proof. induction a as [|ch a IH]; [done|]. exact (f_equal (String ch) IH). Qed.

Lemma str_len_app (a b : string) : String.length (a +:+ b) = (String.length a + String.length b)%nat.
Proof. induction a as [|c a IH]; simpl; [done|]. by rewrite IH. Qed.

Lemma str_app_nil s : s +:+ EmptyString = s.
Proof. induction s as [|c s IH]; [done|]. exact (f_equal (String c) IH). Qed.

Lemma str_app_cons c a b : String c a +:+ b = String c (a +:+ b).
Proof. done. Qed.

Lemma str_has_app c a b : str_has c (a +:+ b) = str_has c a || str_has c b.
Proof. induction a as [|x a IH]; [done|]. rewrite str_app_cons. cbn [str_has]. by rewrite IH, orb_assoc. Qed.

(** ** String order *)

(** [int(s)] of a decimal literal: optional blanks and sign, digits with single
    underscores between them; [None] where it raises [ValueError]. *)
Fixpoint digits_value (acc : Z) (after_digit : bool) (s : string) : option Z :=
  match s with
  | EmptyString => if after_digit then Some acc else None
  | String c s' =>
      if (48 <=? code c) && (code c <=? 57) then digits_value (10 * acc + (code c - 48)) true s'
      else if (code c =? 95) && after_digit then digits_value acc false s'
      else None
  end.

Definition py_int (s : string) : option Z :=
  match str_strip s with
  | String "-" s' => option_map Z.opp (digits_value 0 false s')
  | String "+" s' => digits_value 0 false s'
  | s' => digits_value 0 false s'
  end.

Example py_int_ex : map py_int [" 1_000 "; "-7"; "5x"; ""; "_1"; "1__0"] =
  [Some 1000; Some (-7); None; None; None; None].
Proof. reflexivity. Qed.

(** Whether [float(s)] of a string succeeds: blanks around an optional sign and a
    number, an infinity or a NaN; single underscores may stand between digits. *)
Definition is_digit (c : ascii) : bool := (48 <=? code c) && (code c <=? 57).

(** What follows the digits at the start of [s]. *)
Fixpoint after_digits (s : string) : string :=
  match s with
  | String c s' =>
      if is_digit c then after_digits s'
      else if code c =? 95 then
        match s' with String d _ => if is_digit d then after_digits s' else s | EmptyString => s end
      else s
  | EmptyString => EmptyString
  end.

Definition starts_digit (s : string) : bool :=
  match s with String c _ => is_digit c | EmptyString => false end.

(** Nothing, or an exponent and nothing else. *)
Definition exponent_ok (s : string) : bool :=
  match s with
  | EmptyString => true
  | String c s' =>
      if (code c =? 101) || (code c =? 69) then
        let s' := match s' with String d t => if (code d =? 43) || (code d =? 45) then t else s' | EmptyString => s' end in
        starts_digit s' && String.eqb (after_digits s') EmptyString
      else false
  end.

Definition number_ok (s : string) : bool :=
  let point (t : string) := match t with String "." t' => Some t' | _ => None end in
  if starts_digit s then
    let rest := after_digits s in
    match point rest with
    | Some frac => exponent_ok (if starts_digit frac then after_digits frac else frac)
    | None => exponent_ok rest
    end
  else match point s with
       | Some frac => starts_digit frac && exponent_ok (after_digits frac)
       | None => false
       end.

Definition float_ok (s : string) : bool :=
  let s := str_strip s in
  let s := match s with String c t => if (code c =? 43) || (code c =? 45) then t else s | EmptyString => s end in
  str_in (str_lower s) ["inf"; "infinity"; "nan"] || number_ok s.

Example float_ok_ex : map float_ok [" -1_0.5e+3 "; "5."; ".5"; "NaN"; "1_"; "1__0"; "."; "1e"; "+"; "0x1"; ""] =
  [true; true; true; true; false; false; false; false; false; false; false].
Proof. reflexivity. Qed.

Lemma ascii_compare_code a b : Ascii.compare a b = Z.compare (code a) (code b).
Proof. unfold Ascii.compare, code. by rewrite N2Z.inj_compare. Qed.

Lemma string_leb_cons a s b t :
  String.leb (String a s) (String b t) = (code a <? code b) || ((code a =? code b) && String.leb s t).
Proof.
  unfold String.leb. cbn [String.compare]. rewrite ascii_compare_code.
  destruct (Z.compare_spec (code a) (code b)) as [E|E|E].
  - rewrite E, Z.ltb_irrefl, Z.eqb_refl. done.
  - by rewrite (proj2 (Z.ltb_lt _ _) E).
  - rewrite (proj2 (Z.ltb_ge _ _)), (proj2 (Z.eqb_neq _ _)); [done|lia|lia].
Qed.

Lemma code_inj a b : code a = code b -> a = b.
Proof.
  unfold code. intros H%N2Z.inj. rewrite <- (ascii_N_embedding a), <- (ascii_N_embedding b).
  by rewrite H.
Qed.

Lemma string_leb_trans s t u :
  String.leb s t = true -> String.leb t u = true -> String.leb s u = true.
Proof.
  revert t u. induction s as [|a s IH]; intros [|b t] [|c u]; try done.
  rewrite !string_leb_cons, !orb_true_iff, !andb_true_iff, !Z.ltb_lt, !Z.eqb_eq.
  intros [?|[? ?]] [?|[? ?]]; [left; lia|left; lia|left; lia|right]. split; [lia|eauto].
Qed.

Lemma string_leb_total s t : String.leb s t = true \/ String.leb t s = true.
Proof.
  revert t. induction s as [|a s IH]; intros [|b t]; [by left|by left|by right|].
  rewrite !string_leb_cons, !orb_true_iff, !andb_true_iff, !Z.ltb_lt, !Z.eqb_eq.
  destruct (Z.lt_trichotomy (code a) (code b)) as [?|[E|?]]; [auto| |auto].
  rewrite E. destruct (IH t); auto.
Qed.

Lemma string_leb_antisym s t : String.leb s t = true -> String.leb t s = true -> s = t.
Proof.
  revert t. induction s as [|a s IH]; intros [|b t]; try done.
  rewrite !string_leb_cons, !orb_true_iff, !andb_true_iff, !Z.ltb_lt, !Z.eqb_eq.
  intros [?|[? ?]] [?|[? ?]]; try lia. f_equal; [by apply code_inj|auto].
Qed.
