(* ===== verification/Utf8.v ===== *)
(** * Utf8: texts as UTF-8 bytes

    A Python string is a byte string here, its code points in UTF-8.  [is_text]
    is well-formedness (what [bytes.decode] accepts); [code_points] lists the
    code points of a text and [utf8] encodes one, the two inverse to each other on
    well-formed texts.  With [pass] the surrogates are let through, as the error
    handler [surrogatepass] does. *)

From Stdlib Require Import ZArith Lia Ascii String List.
From stdpp Require Import base list strings.
From S2P Require Import Prelude PyTime Base64.

Open Scope string_scope.
Open Scope list_scope.
Open Scope Z_scope.

Definition cont (b : Z) : bool := (128 <=? b) && (b <? 192).

Fixpoint utf8_valid_with (pass : bool) (l : list Z) : bool :=
  match l with
  | [] => true
  | a :: l1 =>
      if a <? 128 then utf8_valid_with pass l1
      else match l1 with
      | b :: l2 =>
          if (194 <=? a) && (a <? 224) then cont b && utf8_valid_with pass l2
          else match l2 with
          | c :: l3 =>
              if (224 <=? a) && (a <? 240) then
                cont b && cont c && (if a =? 224 then 160 <=? b else true)
                && (if a =? 237 then pass || (b <? 160) else true) && utf8_valid_with pass l3
              else match l3 with
              | d :: l4 =>
                  (240 <=? a) && (a <? 245) && cont b && cont c && cont d
                  && (if a =? 240 then 144 <=? b else true)
                  && (if a =? 244 then b <? 144 else true) && utf8_valid_with pass l4
              | [] => false
              end
          | [] => false
          end
      | [] => false
      end
  end.

(** Well-formed UTF-8. *)
Definition utf8_valid : list Z -> bool := utf8_valid_with false.

Definition str_bytes (s : string) : list Z := map byte_of (list_ascii_of_string s).

Definition is_text (s : string) : bool := utf8_valid (str_bytes s).

(** ** Code points *)

Definition is_surrogate (c : Z) : bool := (55296 <=? c) && (c <? 57344).

Definition scalar (c : Z) : bool := (0 <=? c) && (c <? 1114112) && negb (is_surrogate c).

Definition utf8 (c : Z) : list Z :=
  if c <? 128 then [c]
  else if c <? 2048 then [192 + c / 64; 128 + c mod 64]
  else if c <? 65536 then [224 + c / 4096; 128 + (c / 64) mod 64; 128 + c mod 64]
  else [240 + c / 262144; 128 + (c / 4096) mod 64; 128 + (c / 64) mod 64; 128 + c mod 64].

(** The code points of a well-formed text; an incomplete sequence stands for itself. *)
Fixpoint code_points (l : list Z) : list Z :=
  match l with
  | [] => []
  | a :: l1 =>
      if a <? 128 then a :: code_points l1
      else match l1 with
      | [] => [a]
      | b :: l2 =>
          if a <? 224 then (a - 192) * 64 + (b - 128) :: code_points l2
          else match l2 with
          | [] => [a; b]
          | c :: l3 =>
              if a <? 240 then (a - 224) * 4096 + (b - 128) * 64 + (c - 128) :: code_points l3
              else match l3 with
              | [] => [a; b; c]
              | d :: l4 =>
                  (a - 240) * 262144 + (b - 128) * 4096 + (c - 128) * 64 + (d - 128) :: code_points l4
              end
          end
      end
  end.

Ltac div_mod_lia := Z.div_mod_to_equations; lia.

Lemma utf8_2 a b : 194 <= a < 224 -> 128 <= b < 192 ->
  let c := (a - 192) * 64 + (b - 128) in utf8 c = [a; b] /\ scalar c = true.
Proof.
  intros Ha Hb c. subst c. unfold utf8, scalar, is_surrogate.
  rewrite (proj2 (Z.ltb_ge _ 128)), (proj2 (Z.ltb_lt _ 2048)) by lia. split; [|lia].
  repeat f_equal; div_mod_lia.
Qed.

Lemma utf8_3 a b c : 224 <= a < 240 -> 128 <= b < 192 -> 128 <= c < 192 ->
  (a = 224 -> 160 <= b) -> (a = 237 -> b < 160) ->
  let x := (a - 224) * 4096 + (b - 128) * 64 + (c - 128) in utf8 x = [a; b; c] /\ scalar x = true.
Proof.
  intros Ha Hb Hc H1 H2 x. subst x. unfold utf8, scalar, is_surrogate.
  rewrite (proj2 (Z.ltb_ge _ 128)), (proj2 (Z.ltb_ge _ 2048)), (proj2 (Z.ltb_lt _ 65536)) by lia.
  split; [|lia]. repeat f_equal; div_mod_lia.
Qed.

Lemma utf8_4 a b c d : 240 <= a < 245 -> 128 <= b < 192 -> 128 <= c < 192 -> 128 <= d < 192 ->
  (a = 240 -> 144 <= b) -> (a = 244 -> b < 144) ->
  let x := (a - 240) * 262144 + (b - 128) * 4096 + (c - 128) * 64 + (d - 128) in
  utf8 x = [a; b; c; d] /\ scalar x = true.
Proof.
  intros Ha Hb Hc Hd H1 H2 x. subst x. unfold utf8, scalar, is_surrogate.
  rewrite (proj2 (Z.ltb_ge _ 128)), (proj2 (Z.ltb_ge _ 2048)), (proj2 (Z.ltb_ge _ 65536)) by lia.
  split; [|lia]. repeat f_equal; div_mod_lia.
Qed.

(** A well-formed text is the encoding of its code points, which are scalar values. *)
Lemma utf8_code_points l :
  Forall (fun b => 0 <= b) l -> utf8_valid l = true ->
  flat_map utf8 (code_points l) = l /\ Forall (fun c => scalar c = true) (code_points l).
Proof.
  unfold utf8_valid. induction l as [l IH] using (induction_ltof1 _ (@length Z)). unfold ltof in IH.
  intros Hb Hv. destruct l as [|a l1]; [by split|]. inversion_clear Hb as [|? ? Ha Hb1].
  cbn [utf8_valid_with code_points] in *. destruct (Z.ltb_spec a 128) as [L|L].
  { destruct (IH l1) as [E F]; [cbn; lia|done|done|]. cbn [flat_map]. rewrite E. unfold utf8.
    rewrite (proj2 (Z.ltb_lt _ 128)) by lia. split; [done|]. constructor; [|done].
    unfold scalar, is_surrogate. lia. }
  destruct l1 as [|b l2]; [done|]. inversion_clear Hb1 as [|? ? Hb' Hb2]. unfold cont in Hv.
  destruct ((194 <=? a) && (a <? 224)) eqn:E2.
  { rewrite (proj2 (Z.ltb_lt a 224)) by lia. apply andb_true_iff in Hv as [Hc Hv].
    destruct (IH l2) as [E F]; [cbn; lia|done|done|].
    destruct (utf8_2 a b) as [E1 F1]; [lia..|]. cbn [flat_map]. rewrite E1, E. split; [done|by constructor]. }
  destruct l2 as [|c l3]; [done|]. inversion_clear Hb2 as [|? ? Hc' Hb3].
  destruct ((224 <=? a) && (a <? 240)) eqn:E3.
  { rewrite (proj2 (Z.ltb_ge a 224)), (proj2 (Z.ltb_lt a 240)) by lia. rewrite !andb_true_iff in Hv.
    destruct Hv as [[[[Hb1 Hc1] Hlow] Hhigh] Hv]. destruct (IH l3) as [E F]; [cbn; lia|done|done|].
    destruct (utf8_3 a b c) as [E1 F1]; [lia..|intros ->; cbn in *; lia|intros ->; cbn in *; lia|].
    cbn [flat_map]. rewrite E1, E. split; [done|by constructor]. }
  destruct l3 as [|d l4]; [done|]. inversion_clear Hb3 as [|? ? Hd' Hb4].
  rewrite !andb_true_iff in Hv. destruct Hv as [[[[[[[Ha1 Ha2] Hb1] Hc1] Hd1] Hlow] Hhigh] Hv].
  rewrite (proj2 (Z.ltb_ge a 224)), (proj2 (Z.ltb_ge a 240)) by lia.
  destruct (IH l4) as [E F]; [cbn; lia|done|done|].
  destruct (utf8_4 a b c d) as [E1 F1]; [lia..|intros ->; cbn in *; lia|intros ->; cbn in *; lia|].
  cbn [flat_map]. rewrite E1, E. split; [done|by constructor].
Qed.

Lemma str_bytes_nonneg s : Forall (fun b => 0 <= b) (str_bytes s).
Proof. apply Forall_map, Forall_true. intros c. pose proof (byte_of_bounds c). cbn. lia. Qed.

Lemma of_str_bytes s : map of_byte (str_bytes s) = list_ascii_of_string s.
Proof.
  unfold str_bytes. rewrite map_map. rewrite <- (map_id (list_ascii_of_string s)) at 2.
  apply map_ext. intros c. apply of_byte_byte_of.
Qed.
