(* ===== verification/Json.v ===== *)
(** * Json: Python's json module

    [json.dumps] with the separators and key orders the program uses, ASCII only
    as by default, and [json.loads] of a text and of bytes: the scanner of
    json/scanner.py and json/decoder.py, character by character.  Texts are UTF-8
    byte strings.  The shortest decimal form of a float ([float.__repr__]), its
    reading, the three constants beyond JSON ([NaN], [Infinity], [-Infinity]) and
    the decoders of the other encodings are parameters; the interpreter's limits
    on nesting and on the digits of an integer are left out.

    Proved: reading what was written gives the value back, its keys in the order
    they were written; the scanner's fuel is enough for every text; equal
    texts come from equal values. *)

From Stdlib Require Import ZArith Lia Ascii String List QArith.
From stdpp Require Import base list strings pretty sorting.
From S2P Require Import Prelude PyTime Effects PyText Base64 Utf8.

Open Scope string_scope.
Open Scope list_scope.
Open Scope Z_scope.

Definition chars : Type := list ascii.

Definition to_chars (s : string) : chars := list_ascii_of_string s.

(** ** Writing *)

Definition HEX_DIGITS : chars := to_chars "0123456789abcdef".

Definition hex_char (n : Z) : ascii := nth (Z.to_nat n) HEX_DIGITS "0"%char.

(** ["\\u{:04x}".format(n)] *)
Definition unicode_escape (n : Z) : chars :=
  [chr 92; "u"%char; hex_char (n / 4096); hex_char (n / 256 mod 16); hex_char (n / 16 mod 16); hex_char (n mod 16)].

(** The escapes with a letter of their own. *)
Definition short_escape (c : Z) : option ascii :=
  if c =? 34 then Some (chr 34)
  else if c =? 92 then Some (chr 92)
  else if c =? 10 then Some "n"%char
  else if c =? 13 then Some "r"%char
  else if c =? 9 then Some "t"%char
  else if c =? 12 then Some "f"%char
  else if c =? 8 then Some "b"%char
  else None.

(** [py_encode_basestring_ascii] on one code point. *)
Definition escape (c : Z) : chars :=
  match short_escape c with
  | Some e => [chr 92; e]
  | None =>
      if (32 <=? c) && (c <=? 126) then [chr c]
      else if c <? 65536 then unicode_escape c
      else unicode_escape (55296 + (c - 65536) / 1024) ++ unicode_escape (56320 + (c - 65536) mod 1024)
  end.

Definition encode_str (s : string) : chars :=
  chr 34 :: flat_map escape (code_points (str_bytes s)) ++ [chr 34].

(** [sort_keys], and [separators=(",", ":")] for the defaults [", "] and [": "]. *)
Record Style := mk_Style { sort_keys : bool; compact : bool }.

Definition DEFAULT : Style := mk_Style false false.
Definition SORTED : Style := mk_Style true false.
Definition CANONICAL : Style := mk_Style true true.
Definition COMPACT : Style := mk_Style false true.

Definition item_separator (st : Style) : chars := to_chars (if compact st then "," else ", ").
Definition key_separator (st : Style) : chars := to_chars (if compact st then ":" else ": ").

Fixpoint joined (sep : chars) (l : list chars) : chars :=
  match l with
  | [] => []
  | [x] => x
  | x :: l' => x ++ sep ++ joined sep l'
  end.

Definition key_leb {A} (p q : string * A) : bool := String.leb p.1 q.1.

(** [sorted(d.items())] under [sort_keys]; the keys are distinct. *)
Definition ordered {A} (st : Style) (d : list (string * A)) : list (string * A) :=
  if sort_keys st then py_sorted key_leb d else d.

Section Dumps.
Context (float_repr : Q -> string) (st : Style).

Fixpoint encode (j : json) : chars :=
  match j with
  | JNull => to_chars "null"
  | JBool b => to_chars (if b then "true" else "false")
  | JInt z => to_chars (pretty z)
  | JFloat q => to_chars (float_repr q)
  | JStr s => encode_str s
  | JList l => "["%char :: joined (item_separator st) (map encode l) ++ ["]"%char]
  | JDict d =>
      let pairs := ordered st (map (fun p => (p.1, encode p.2)) d) in
      "{"%char :: joined (item_separator st) (map (fun p => encode_str p.1 ++ key_separator st ++ p.2) pairs)
        ++ ["}"%char]
  end.

Definition json_dumps (j : json) : string := string_of_list_ascii (encode j).

(** The value with its keys as they are written. *)
Fixpoint in_order (j : json) : json :=
  match j with
  | JList l => JList (map in_order l)
  | JDict d => JDict (ordered st (map (fun p => (p.1, in_order p.2)) d))
  | _ => j
  end.
End Dumps.

(** ** Reading *)

(** [WHITESPACE]: blank, tab, newline and return. *)
Definition is_ws (c : ascii) : bool :=
  (code c =? 32) || (code c =? 9) || (code c =? 10) || (code c =? 13).

Fixpoint skip_ws (l : chars) : chars :=
  match l with
  | c :: r => if is_ws c then skip_ws r else l
  | [] => []
  end.

Definition hex_digit (c : ascii) : option Z :=
  if is_digit c then Some (code c - 48)
  else if (97 <=? code c) && (code c <=? 102) then Some (code c - 87)
  else if (65 <=? code c) && (code c <=? 70) then Some (code c - 55)
  else None.

(** [_decode_uXXXX] *)
Definition hex4 (a b c d : ascii) : option Z :=
  match hex_digit a, hex_digit b, hex_digit c, hex_digit d with
  | Some x, Some y, Some z, Some w => Some (x * 4096 + y * 256 + z * 16 + w)
  | _, _, _, _ => None
  end.

(** [BACKSLASH] *)
Definition unescape (c : ascii) : option ascii :=
  if (code c =? 34) || (code c =? 92) || (code c =? 47) then Some c
  else if Ascii.eqb c "b" then Some (chr 8)
  else if Ascii.eqb c "f" then Some (chr 12)
  else if Ascii.eqb c "n" then Some (chr 10)
  else if Ascii.eqb c "r" then Some (chr 13)
  else if Ascii.eqb c "t" then Some (chr 9)
  else None.

Definition is_high (u : Z) : bool := (55296 <=? u) && (u <=? 56319).
Definition is_low (u : Z) : bool := (56320 <=? u) && (u <=? 57343).

Definition code_chars (u : Z) : chars := map of_byte (utf8 u).

Definition before (p : chars) (o : option (chars * chars)) : option (chars * chars) :=
  match o with Some (s, r) => Some (p ++ s, r) | None => None end.

(** [py_scanstring], strict, after the opening quote: the text and what follows
    the closing one. *)
Fixpoint scan_string (l : chars) : option (chars * chars) :=
  match l with
  | [] => None
  | c :: l1 =>
      if code c =? 34 then Some ([], l1)
      else if code c =? 92 then
        match l1 with
        | [] => None
        | e :: l2 =>
            if Ascii.eqb e "u" then
              match l2 with
              | h1 :: h2 :: h3 :: h4 :: l3 =>
                  match hex4 h1 h2 h3 h4 with
                  | None => None
                  | Some u =>
                      if is_high u then
                        match l3 with
                        | b :: v :: g1 :: g2 :: g3 :: g4 :: l4 =>
                            if (code b =? 92) && Ascii.eqb v "u" then
                              match hex4 g1 g2 g3 g4 with
                              | None => None
                              | Some u2 =>
                                  if is_low u2 then
                                    before (code_chars (65536 + (u - 55296) * 1024 + (u2 - 56320))) (scan_string l4)
                                  else before (code_chars u) (scan_string l3)
                              end
                            else before (code_chars u) (scan_string l3)
                        | _ => before (code_chars u) (scan_string l3)
                        end
                      else before (code_chars u) (scan_string l3)
                  end
              | _ => None
              end
            else match unescape e with
                 | Some b => before [b] (scan_string l2)
                 | None => None
                 end
        end
      else if code c <? 32 then None
      else before [c] (scan_string l1)
  end.

(** The parts of [NUMBER_RE] at the start of a text. *)
Fixpoint span_digits (l : chars) : chars * chars :=
  match l with
  | c :: r => if is_digit c then let '(ds, r') := span_digits r in (c :: ds, r') else ([], l)
  | [] => ([], [])
  end.

Definition scan_natural (l : chars) : option (chars * chars) :=
  match l with
  | c :: r =>
      if code c =? 48 then Some ([c], r)
      else if is_digit c then Some (span_digits l)
      else None
  | [] => None
  end.

Definition scan_int (l : chars) : option (chars * chars) :=
  match l with
  | c :: r => if code c =? 45 then before [c] (scan_natural r) else scan_natural l
  | [] => None
  end.

Definition scan_frac (l : chars) : chars * chars :=
  match l with
  | c :: r =>
      if code c =? 46 then
        match span_digits r with
        | ([], _) => ([], l)
        | (ds, r') => (c :: ds, r')
        end
      else ([], l)
  | [] => ([], [])
  end.

Definition is_sign (c : ascii) : bool := (code c =? 43) || (code c =? 45).

Definition scan_exp (l : chars) : chars * chars :=
  match l with
  | c :: r =>
      if (code c =? 101) || (code c =? 69) then
        let '(sg, r1) := match r with
                         | s :: r1 => if is_sign s then ([s], r1) else ([], r)
                         | [] => ([], r)
                         end in
        match span_digits r1 with
        | ([], _) => ([], l)
        | (ds, r') => (c :: sg ++ ds, r')
        end
      else ([], l)
  | [] => ([], [])
  end.

(** Integer part, fraction with exponent, and the rest. *)
Definition split_number (l : chars) : option (chars * chars * chars) :=
  match scan_int l with
  | Some (i, r) =>
      let '(f, r1) := scan_frac r in
      let '(e, r2) := scan_exp r1 in
      Some (i, f ++ e, r2)
  | None => None
  end.

Definition digits_int (l : chars) : Z := fold_left (fun acc c => 10 * acc + (code c - 48)) l 0.

(** [int(text)] of an integer part. *)
Definition int_of (l : chars) : Z :=
  match l with
  | c :: r => if code c =? 45 then - digits_int r else digits_int l
  | [] => 0
  end.

Fixpoint strip_chars (p l : chars) : option chars :=
  match p, l with
  | [], _ => Some l
  | a :: p', b :: l' => if Ascii.eqb a b then strip_chars p' l' else None
  | _ :: _, [] => None
  end.

Fixpoint first_literal {A} (lits : list (string * A)) (l : chars) : option (A * chars) :=
  match lits with
  | [] => None
  | (t, a) :: lits' =>
      match strip_chars (to_chars t) l with
      | Some r => Some (a, r)
      | None => first_literal lits' l
      end
  end.

(** [dict(pairs)] *)
Definition dict_of (ps : list (string * json)) : list (string * json) :=
  fold_left (fun d p => dset p.1 p.2 d) ps [].

Section Loads.
Context (parse_float parse_constant : string -> json).

Definition scan_number (l : chars) : option (json * chars) :=
  match split_number l with
  | Some (i, [], r) => Some (JInt (int_of i), r)
  | Some (i, fe, r) => Some (parse_float (string_of_list_ascii (i ++ fe)), r)
  | None => None
  end.

Definition LITERALS : list (string * json) := [("null", JNull); ("true", JBool true); ("false", JBool false)].

Definition CONSTANTS : list (string * json) :=
  map (fun t => (t, parse_constant t)) ["NaN"; "Infinity"; "-Infinity"].

Definition scan_atom (l : chars) : option (json * chars) :=
  match first_literal LITERALS l with
  | Some x => Some x
  | None => match scan_number l with Some x => Some x | None => first_literal CONSTANTS l end
  end.

(** One call of [scan_once], given the loops of [JSONArray] and [JSONObject] after
    the bracket and its blanks. *)
Definition value_step (elements : chars -> option (list json * chars))
    (members : chars -> option (list (string * json) * chars)) (l : chars) : option (json * chars) :=
  match l with
  | c :: r =>
      if code c =? 34 then
        match scan_string r with Some (s, r') => Some (JStr (string_of_list_ascii s), r') | None => None end
      else if code c =? 123 then
        match skip_ws r with
        | d :: r1 =>
            if code d =? 125 then Some (JDict [], r1)
            else match members (d :: r1) with
                 | Some (ps, r') => Some (JDict (dict_of ps), r')
                 | None => None
                 end
        | [] => None
        end
      else if code c =? 91 then
        match skip_ws r with
        | d :: r1 =>
            if code d =? 93 then Some (JList [], r1)
            else match elements (d :: r1) with
                 | Some (vs, r') => Some (JList vs, r')
                 | None => None
                 end
        | [] => None
        end
      else scan_atom l
  | [] => None
  end.

(** One round of [JSONArray]. *)
Definition elements_step (value : chars -> option (json * chars))
    (elements : chars -> option (list json * chars)) (l : chars) : option (list json * chars) :=
  match value l with
  | Some (v, r) =>
      match skip_ws r with
      | c :: r1 =>
          if code c =? 93 then Some ([v], r1)
          else if code c =? 44 then
            match elements (skip_ws r1) with
            | Some (vs, r2) => Some (v :: vs, r2)
            | None => None
            end
          else None
      | [] => None
      end
  | None => None
  end.

(** One round of [JSONObject], from the quote of a key. *)
Definition members_step (value : chars -> option (json * chars))
    (members : chars -> option (list (string * json) * chars)) (l : chars)
    : option (list (string * json) * chars) :=
  match l with
  | q :: l1 =>
      if code q =? 34 then
        match scan_string l1 with
        | Some (k, r) =>
            match skip_ws r with
            | c :: r1 =>
                if code c =? 58 then
                  match value (skip_ws r1) with
                  | Some (v, r2) =>
                      match skip_ws r2 with
                      | d :: r3 =>
                          if code d =? 125 then Some ([(string_of_list_ascii k, v)], r3)
                          else if code d =? 44 then
                            match members (skip_ws r3) with
                            | Some (ps, r4) => Some ((string_of_list_ascii k, v) :: ps, r4)
                            | None => None
                            end
                          else None
                      | [] => None
                      end
                  | None => None
                  end
                else None
            | [] => None
            end
        | None => None
        end
      else None
  | [] => None
  end.

Fixpoint scan_value (n : nat) (l : chars) {struct n} : option (json * chars) :=
  match n with
  | S n' => value_step (scan_elements n') (scan_members n') l
  | O => None
  end
with scan_elements (n : nat) (l : chars) {struct n} : option (list json * chars) :=
  match n with
  | S n' => elements_step (scan_value n') (scan_elements n') l
  | O => None
  end
with scan_members (n : nat) (l : chars) {struct n} : option (list (string * json) * chars) :=
  match n with
  | S n' => members_step (scan_value n') (scan_members n') l
  | O => None
  end.

Lemma scan_value_S n l : scan_value (S n) l = value_step (scan_elements n) (scan_members n) l.
Proof. done. Qed.

Lemma scan_elements_S n l : scan_elements (S n) l = elements_step (scan_value n) (scan_elements n) l.
Proof. done. Qed.

Lemma scan_members_S n l : scan_members (S n) l = members_step (scan_value n) (scan_members n) l.
Proof. done. Qed.

Definition BOM_UTF8 : chars := [chr 239; chr 187; chr 191].

Definition value_fuel (l : chars) : nat := 2 * length l + 1.

(** [JSONDecoder.decode]; [None] is [JSONDecodeError]. *)
Definition decode_json (l : chars) : option json :=
  let l := skip_ws l in
  match scan_value (value_fuel l) l with
  | Some (v, r) => match skip_ws r with [] => Some v | _ => None end
  | None => None
  end.

(** [json.loads] of a text. *)
Definition json_loads (s : string) : option json :=
  match strip_chars BOM_UTF8 (to_chars s) with
  | Some _ => None
  | None => decode_json (to_chars s)
  end.

Inductive Encoding := Utf32 | Utf16 | Utf8Sig | Utf16BE | Utf16LE | Utf32BE | Utf32LE | Utf8.

Definition zero (c : ascii) : bool := code c =? 0.

Definition detect_encoding (b : chars) : Encoding :=
  let starts p := match strip_chars (map chr p) b with Some _ => true | None => false end in
  if starts [0; 0; 254; 255] || starts [255; 254; 0; 0] then Utf32
  else if starts [254; 255] || starts [255; 254] then Utf16
  else if starts [239; 187; 191] then Utf8Sig
  else match b with
  | [b0; b1] => if zero b0 then Utf16BE else if zero b1 then Utf16LE else Utf8
  | b0 :: b1 :: b2 :: b3 :: _ =>
      if zero b0 then (if zero b1 then Utf32BE else Utf16BE)
      else if zero b1 then (if zero b2 && zero b3 then Utf32LE else Utf16LE)
      else Utf8
  | _ => Utf8
  end.

(** [json.loads] of bytes; [None] is a [ValueError]. *)
Definition json_loads_bytes (decode_as : Encoding -> string -> option string) (b : string) : option json :=
  match detect_encoding (to_chars b) with
  | Utf8 => if utf8_valid_with true (str_bytes b) then json_loads b else None
  | enc => match decode_as enc b with Some s => json_loads s | None => None end
  end.
End Loads.

(** ** Texts *)

Lemma code_chr n : 0 <= n < 256 -> code (chr n) = n.
Proof. intros H. unfold code, chr. rewrite N_ascii_embedding by lia. lia. Qed.

Lemma hex_digit_char n : 0 <= n < 16 -> hex_digit (hex_char n) = Some n.
Proof.
  intros Hn. pose (ok n := match hex_digit (hex_char n) with Some m => m =? n | None => false end).
  assert (ok n = true) as H by (apply (forallb_zrange ok 0 16); [reflexivity|lia]).
  unfold ok in H. destruct (hex_digit _) as [m|]; [|done]. apply Z.eqb_eq in H. by subst m.
Qed.

Lemma hex4_escape n : 0 <= n < 65536 ->
  hex4 (hex_char (n / 4096)) (hex_char (n / 256 mod 16)) (hex_char (n / 16 mod 16)) (hex_char (n mod 16)) = Some n.
Proof.
  intros Hn. unfold hex4. rewrite !hex_digit_char by div_mod_lia. f_equal. div_mod_lia.
Qed.

(** A text starts with a unicode escape. *)
Lemma scan_unicode n r : 0 <= n < 65536 -> is_high n = false ->
  scan_string (unicode_escape n ++ r) = before (code_chars n) (scan_string r).
Proof.
  intros Hn Hh. unfold unicode_escape. cbn -[hex_char hex4 Z.div Z.modulo code_chars].
  by rewrite hex4_escape, Hh.
Qed.

Lemma scan_pair u v r : is_high u = true -> is_low v = true ->
  scan_string (unicode_escape u ++ unicode_escape v ++ r) =
    before (code_chars (65536 + (u - 55296) * 1024 + (v - 56320))) (scan_string r).
Proof.
  intros Hu Hv. assert (0 <= u < 65536 /\ 0 <= v < 65536) as [Hu1 Hv1].
  { unfold is_high, is_low in *. lia. }
  unfold unicode_escape. cbn -[hex_char hex4 Z.div Z.modulo code_chars].
  by rewrite hex4_escape, Hu, hex4_escape, Hv.
Qed.

Lemma short_unescape c e : short_escape c = Some e ->
  Ascii.eqb e "u" = false /\ unescape e = Some (chr c) /\ 0 <= c < 128.
Proof.
  unfold short_escape.
  repeat match goal with |- context [ ?a =? ?b ] => destruct (Z.eqb_spec a b) as [->|] end;
    intros [= <-]; split_and!; done || lia.
Qed.

Lemma scan_short e r : Ascii.eqb e "u" = false ->
  scan_string (chr 92 :: e :: r) =
    match unescape e with Some b => before [b] (scan_string r) | None => None end.
Proof.
  intros He. cbn [scan_string]. change (code (chr 92) =? 34) with false.
  change (code (chr 92) =? 92) with true. cbv iota. by rewrite He.
Qed.

Lemma scan_escape c r : scalar c = true ->
  scan_string (escape c ++ r) = before (code_chars c) (scan_string r).
Proof.
  unfold scalar, is_surrogate. intros Hc. unfold escape. destruct (short_escape c) as [e|] eqn:E.
  { apply short_unescape in E as (Eu & Ee & Hr). cbn [app].
    rewrite scan_short, Ee by done. unfold code_chars, utf8. by rewrite (proj2 (Z.ltb_lt c 128)) by lia. }
  destruct ((32 <=? c) && (c <=? 126)) eqn:Hp.
  { assert (c <> 34 /\ c <> 92) as [H34 H92].
    { unfold short_escape in E. split; intros ->; done. }
    cbn [app scan_string]. rewrite code_chr by lia.
    rewrite (proj2 (Z.eqb_neq c 34)), (proj2 (Z.eqb_neq c 92)), (proj2 (Z.ltb_ge c 32)) by lia.
    unfold code_chars, utf8. by rewrite (proj2 (Z.ltb_lt c 128)) by lia. }
  destruct (Z.ltb_spec c 65536) as [L|L].
  - apply scan_unicode; [lia|]. unfold is_high. lia.
  - rewrite <- app_assoc, scan_pair; [|unfold is_high|unfold is_low]; [|div_mod_lia..].
    f_equal. f_equal. div_mod_lia.
Qed.

(** What was written as a string is read back. *)
Lemma scan_encoded s r : is_text s = true ->
  scan_string (flat_map escape (code_points (str_bytes s)) ++ chr 34 :: r) = Some (to_chars s, r).
Proof.
  intros Hs. destruct (utf8_code_points (str_bytes s)) as [E F]; [apply str_bytes_nonneg|done|].
  rewrite <- (of_str_bytes s : _ = to_chars s). rewrite <- E at 2. clear E Hs.
  induction F as [|c cs Hc _ IH]; [done|]. cbn [flat_map]. rewrite <- app_assoc, scan_escape by done.
  rewrite IH. cbn [before]. by rewrite map_app.
Qed.

(** ** Numbers *)

(** A text that does not continue a number. *)
Definition stops (l : chars) : bool :=
  match l with
  | c :: _ => negb (is_digit c || is_sign c || (code c =? 46) || (code c =? 101) || (code c =? 69))
  | [] => true
  end.

Lemma span_digits_app l r : stops r = true ->
  span_digits (l ++ r) = let '(ds, l') := span_digits l in (ds, l' ++ r).
Proof.
  intros Hr. induction l as [|c l IH]; cbn.
  - destruct r as [|c r]; [done|]. cbn in Hr |- *. by destruct (is_digit c).
  - destruct (is_digit c); [|done]. rewrite IH. by destruct (span_digits l).
Qed.

Lemma scan_natural_app l r i l' : stops r = true ->
  scan_natural l = Some (i, l') -> scan_natural (l ++ r) = Some (i, l' ++ r).
Proof.
  intros Hr. destruct l as [|c l]; [done|]. unfold scan_natural. cbn [app].
  destruct (code c =? 48); [by intros [= <- <-]|]. destruct (is_digit c); [|done].
  destruct (span_digits (c :: l)) as [i0 l0] eqn:E. intros [= <- <-].
  rewrite app_comm_cons, span_digits_app by done. by rewrite E.
Qed.

Lemma scan_int_app l r i l' : stops r = true ->
  scan_int l = Some (i, l') -> scan_int (l ++ r) = Some (i, l' ++ r).
Proof.
  intros Hr. destruct l as [|c l]; [done|]. cbn [scan_int app]. destruct (code c =? 45).
  - destruct (scan_natural l) as [[i0 l0]|] eqn:E; [|done]. intros [= <- <-].
    by rewrite (scan_natural_app _ _ _ _ Hr E).
  - rewrite app_comm_cons. by apply scan_natural_app.
Qed.

Lemma scan_frac_app l r : stops r = true ->
  scan_frac (l ++ r) = let '(f, l') := scan_frac l in (f, l' ++ r).
Proof.
  intros Hr. destruct l as [|c l].
  - destruct r as [|c r]; [done|]. cbn in Hr |- *. destruct (code c =? 46); [|done].
    by rewrite orb_true_r in Hr.
  - cbn [scan_frac app]. destruct (code c =? 46); [|done]. rewrite span_digits_app by done.
    by destruct (span_digits l) as [[|d ds] l'].
Qed.

Lemma scan_exp_app l r : stops r = true ->
  scan_exp (l ++ r) = let '(e, l') := scan_exp l in (e, l' ++ r).
Proof.
  intros Hr. destruct l as [|c l].
  - destruct r as [|c r]; [done|]. cbn in Hr |- *. destruct (code c =? 101), (code c =? 69); try done.
    all: by rewrite ?orb_true_r in Hr.
  - cbn [scan_exp app]. destruct ((code c =? 101) || (code c =? 69)); [|done].
    destruct l as [|s l].
    + destruct r as [|s r]; [done|]. cbn in Hr |- *.
      destruct (is_sign s); [by rewrite ?orb_true_r in Hr|]. cbn. by destruct (is_digit s).
    + cbn [app]. destruct (is_sign s); rewrite ?app_comm_cons, span_digits_app by done.
      * by destruct (span_digits l) as [[|d ds] l'].
      * by destruct (span_digits (s :: l)) as [[|d ds] l'].
Qed.

Lemma split_number_app l r i fe l' : stops r = true ->
  split_number l = Some (i, fe, l') -> split_number (l ++ r) = Some (i, fe, l' ++ r).
Proof.
  intros Hr. unfold split_number. destruct (scan_int l) as [[i0 l0]|] eqn:E; [|done].
  rewrite (scan_int_app _ _ _ _ Hr E), scan_frac_app by done. destruct (scan_frac l0) as [f l1].
  rewrite scan_exp_app by done. destruct (scan_exp l1) as [e l2]. by intros [= -> <- <-].
Qed.

Lemma span_digits_parts l ds r : span_digits l = (ds, r) -> l = ds ++ r.
Proof.
  revert ds. induction l as [|c l IH]; intros ds; cbn; [by intros [= <- <-]|].
  destruct (is_digit c); [|by intros [= <- <-]]. destruct (span_digits l) as [ds' r'].
  intros [= <- <-]. by rewrite (IH ds').
Qed.

Lemma scan_int_parts l i r : scan_int l = Some (i, r) -> l = i ++ r.
Proof.
  assert (Hn : forall l i, scan_natural l = Some (i, r) -> l = i ++ r).
  { clear. intros [|c l] i; [done|]. unfold scan_natural. destruct (code c =? 48); [by intros [= <- <-]|].
    destruct (is_digit c); [|done]. destruct (span_digits (c :: l)) as [ds r'] eqn:E. intros [= <- <-].
    by apply span_digits_parts. }
  destruct l as [|c l]; [done|]. cbn [scan_int]. destruct (code c =? 45); [|apply Hn].
  destruct (scan_natural l) as [[i' r']|] eqn:E; [|done]. cbn. intros [= <- <-]. by rewrite (Hn l i' E).
Qed.

Lemma scan_frac_parts l f r : scan_frac l = (f, r) -> l = f ++ r.
Proof.
  destruct l as [|c l]; cbn; [by intros [= <- <-]|]. destruct (code c =? 46); [|by intros [= <- <-]].
  destruct (span_digits l) as [[|d ds] r'] eqn:E; intros [= <- <-]; [done|].
  by rewrite (span_digits_parts _ _ _ E).
Qed.

Lemma scan_exp_parts l e r : scan_exp l = (e, r) -> l = e ++ r.
Proof.
  destruct l as [|c l]; cbn; [by intros [= <- <-]|]. destruct (_ || _); [|by intros [= <- <-]].
  destruct (match l with [] => _ | _ => _ end) as [sg r1] eqn:Es.
  assert (l = sg ++ r1) as El by (destruct l as [|s l]; [by injection Es as <- <-|]; destruct (is_sign s); by injection Es as <- <-).
  destruct (span_digits r1) as [[|d ds] r'] eqn:E; intros [= <- <-]; [done|].
  rewrite El, (span_digits_parts _ _ _ E). cbn. by rewrite <- app_assoc.
Qed.

(** The parts make up the text. *)
Lemma split_number_parts l i fe r : split_number l = Some (i, fe, r) -> l = i ++ fe ++ r.
Proof.
  unfold split_number. destruct (scan_int l) as [[i0 l0]|] eqn:E; [|done].
  destruct (scan_frac l0) as [f l1] eqn:Ef. destruct (scan_exp l1) as [e l2] eqn:Ee.
  intros [= <- <- <-]. rewrite (scan_int_parts _ _ _ E), (scan_frac_parts _ _ _ Ef), (scan_exp_parts _ _ _ Ee).
  by rewrite <- app_assoc.
Qed.

(** *** Integers in decimal *)

Definition all_digits (l : chars) : Prop := Forall (fun c => is_digit c = true) l.

Lemma span_all l : all_digits l -> span_digits l = (l, []).
Proof. induction 1 as [|c l Hc _ IH]; [done|]. cbn. by rewrite Hc, IH. Qed.

Lemma code_digit n : (n < 10)%N -> code (pretty_N_char n) = 48 + Z.of_N n.
Proof.
  intros Hn. pose (ok z := code (pretty_N_char (Z.to_N z)) =? 48 + z).
  assert (ok (Z.of_N n) = true) as H by (apply (forallb_zrange ok 0 10); [reflexivity|lia]).
  unfold ok in H. rewrite N2Z.id in H. by apply Z.eqb_eq.
Qed.

(** A decimal numeral without leading zeros, and its value. *)
Record numeral (x : N) (l : chars) : Prop := mk_numeral {
  nu_digits : all_digits l;
  nu_head : exists c t, l = c :: t /\ code c <> 48;
  nu_value : digits_int l = Z.of_N x }.

Lemma pretty_go_numeral x s : (0 < x)%N ->
  exists l, to_chars (pretty_N_go x s) = l ++ to_chars s /\ numeral x l.
Proof.
  revert s. induction (N.lt_wf_0 x) as [x _ IH]. intros s Hx. rewrite pretty_N_go_step by done.
  assert (Hm : (x mod 10 < 10)%N) by (by apply N.mod_lt).
  pose proof (N.div_mod x 10 ltac:(done)) as Hdm. revert Hm Hdm. generalize (x mod 10)%N as m. intros m Hm Hdm.
  set (c := pretty_N_char m). assert (Hc : code c = 48 + Z.of_N m) by (by apply code_digit).
  assert (Hd : is_digit c = true) by (unfold is_digit; rewrite Hc; lia).
  destruct (decide (x < 10)%N) as [Hs|Hs].
  - rewrite N.div_small, pretty_N_go_0 by done. exists [c]. rewrite N.div_small in Hdm by done.
    split; [done|]. split; [by repeat constructor| |unfold digits_int; cbn [fold_left]; lia].
    exists c, []. split; [done|lia].
  - destruct (IH (x / 10)%N (N.div_lt x 10 Hx eq_refl) (String c s)) as (l & E & [Hl (h & t & -> & Hh) Hv]).
    { apply N.div_str_pos. lia. }
    exists ((h :: t) ++ [c]). rewrite E, <- app_assoc. split; [done|]. split.
    + apply Forall_app. split; [done|by constructor].
    + by exists h, (t ++ [c]).
    + unfold digits_int in *. rewrite fold_left_app, Hv. cbn [fold_left]. rewrite Hc.
      lia.
Qed.

Lemma scan_pretty_pos x r : (0 < x)%N -> stops r = true ->
  exists l, to_chars (pretty_N_go x "") = l /\ numeral x l /\ scan_natural (l ++ r) = Some (l, r).
Proof.
  intros Hx Hr. destruct (pretty_go_numeral x "" Hx) as (l & E & Hn). rewrite app_nil_r in E.
  exists l. do 2 (split; [done|]). apply (scan_natural_app l r l []); [done|].
  destruct Hn as [Hd (c & t & -> & Hc) _]. unfold scan_natural.
  rewrite (proj2 (Z.eqb_neq _ _) Hc). inversion_clear Hd as [|? ? Hc' Ht]. rewrite Hc'.
  f_equal. apply span_all. by constructor.
Qed.

Lemma stops_no_frac r : stops r = true -> scan_frac r = ([], r) /\ scan_exp r = ([], r).
Proof.
  intros Hr. split; [apply (scan_frac_app [] r Hr)|apply (scan_exp_app [] r Hr)].
Qed.

Lemma digit_not_minus c : is_digit c = true -> (code c =? 45) = false.
Proof. unfold is_digit. lia. Qed.

Lemma split_int l r : stops r = true -> scan_int (l ++ r) = Some (l, r) ->
  split_number (l ++ r) = Some (l, [], r).
Proof.
  intros Hr E. unfold split_number. rewrite E. destruct (stops_no_frac r Hr) as [-> ->]. done.
Qed.

(** The decimal form of an integer is read as that integer. *)
Lemma split_pretty z r : stops r = true ->
  exists l, to_chars (pretty z) = l /\ split_number (l ++ r) = Some (l, [], r) /\ int_of l = z /\
    (exists c t, l = c :: t /\ (is_digit c = true \/ code c = 45)).
Proof.
  intros Hr. destruct z as [|p|p].
  - exists ["0"%char]. split; [done|]. split; [by apply split_int|]. split; [done|].
    eexists _, _. split; [done|by left].
  - destruct (scan_pretty_pos (Npos p) r ltac:(lia) Hr) as (l & E & [Hd (c & t & -> & Hc) Hv] & Hs).
    exists (c :: t). split; [done|]. inversion_clear Hd as [|? ? Hcd Ht].
    split; [|split; [|by exists c, t; split; [|left]]].
    + apply split_int; [done|]. cbn [scan_int app]. by rewrite (digit_not_minus c Hcd).
    + unfold int_of. rewrite (digit_not_minus c Hcd). rewrite Hv. done.
  - destruct (scan_pretty_pos (Npos p) r ltac:(lia) Hr) as (l & E & Hn & Hs).
    exists ("-"%char :: l). split; [by rewrite <- E|].
    split; [|split; [|by exists "-"%char, l; split; [|right]]].
    + apply split_int; [done|]. cbn [scan_int app]. change (code "-" =? 45) with true. cbn [before].
      by rewrite Hs.
    + unfold int_of. change (code "-" =? 45) with true. cbv iota. by rewrite (nu_value _ _ Hn).
Qed.

(** ** Values *)

(** Induction that reaches the values inside lists and dicts. *)
Lemma json_nested_ind (P : json -> Prop) :
  P JNull -> (forall b, P (JBool b)) -> (forall z, P (JInt z)) -> (forall q, P (JFloat q)) ->
  (forall s, P (JStr s)) -> (forall l, Forall P l -> P (JList l)) ->
  (forall d, Forall (fun p => P p.2) d -> P (JDict d)) -> forall j, P j.
Proof.
  intros Hn Hb Hz Hq Hs Hl Hd. fix IH 1. intros [|b|z|q|s|l|d]; [done|apply Hb|apply Hz|apply Hq|apply Hs|apply Hl|apply Hd].
  - induction l as [|x l IHl]; constructor; [apply IH|exact IHl].
  - induction d as [|[k x] d IHd]; constructor; [apply IH|exact IHd].
Qed.

(** *** Orders of keys *)

Section Ordered.
Context {A B : Type} (st : Style).

Lemma insert_sorted_map (f : A -> B) (p : string * A) d :
  insert_sorted key_leb (p.1, f p.2) (map (fun p => (p.1, f p.2)) d) =
  map (fun p => (p.1, f p.2)) (insert_sorted key_leb p d).
Proof.
  induction d as [|q d IH]; [done|]. cbn [map insert_sorted]. unfold key_leb at 1 3. cbn [fst].
  destruct (String.leb p.1 q.1); [done|]. cbn [map]. by rewrite <- IH.
Qed.

Lemma ordered_map (f : A -> B) (d : list (string * A)) :
  ordered st (map (fun p => (p.1, f p.2)) d) = map (fun p => (p.1, f p.2)) (ordered st d).
Proof.
  unfold ordered. destruct (sort_keys st); [|done]. induction d as [|p d IH]; [done|].
  cbn [map py_sorted]. rewrite IH. apply insert_sorted_map.
Qed.

Lemma ordered_perm (d : list (string * A)) : Permutation (ordered st d) d.
Proof. unfold ordered. destruct (sort_keys st); [apply py_sorted_perm|done]. Qed.
End Ordered.

(** Looking a key up does not depend on the order. *)
Lemma dget_ordered {V} st k (d : dict string V) : dict_wf d -> dget k (ordered st d) = dget k d.
Proof.
  intros Hd. pose proof (ordered_perm st d) as Hp.
  assert (Hw : dict_wf (ordered st d)) by (unfold dict_wf, dkeys; by rewrite Hp).
  destruct (dget k d) as [v|] eqn:E.
  - apply dget_in_Some; [done|]. rewrite Hp. by apply dget_Some_in.
  - apply dget_None_keys. apply dget_None_keys in E. unfold dkeys in *. by rewrite Hp.
Qed.

Lemma dset_pairs (ps acc : list (string * json)) : dict_wf (acc ++ ps) ->
  fold_left (fun d p => dset p.1 p.2 d) ps acc = acc ++ ps.
Proof.
  revert acc. induction ps as [|[k v] ps IH]; intros acc Hn; [by rewrite app_nil_r|]. cbn [fold_left fst snd].
  rewrite dset_new.
  - rewrite IH; rewrite <- app_assoc; done.
  - unfold dict_wf, dkeys in Hn |- *. rewrite fmap_app in Hn. apply NoDup_app in Hn as (_ & Hk & _).
    intros Hin. by apply (Hk k Hin); left.
Qed.

(** A dict with distinct keys is what its pairs build. *)
Lemma dict_of_pairs (ps : list (string * json)) : dict_wf ps -> dict_of ps = ps.
Proof. apply (dset_pairs ps []). Qed.

(** ** The round trip *)

(** ASCII and not NUL. *)
Definition plain (c : ascii) : Prop := 0 < code c < 128.

Section RoundTrip.
Context (float_repr : Q -> string) (parse_float parse_constant : string -> json) (st : Style).

Abbreviation enc := (encode float_repr st).
Abbreviation scan := (scan_value parse_float parse_constant).
Abbreviation elements := (scan_elements parse_float parse_constant).
Abbreviation members := (scan_members parse_float parse_constant).
Abbreviation loads := (json_loads parse_float parse_constant).

(** The float's decimal form is a JSON number with a fraction or an exponent, and
    reads back. *)
Definition float_reads (q : Q) : Prop :=
  (exists i c fe, split_number (to_chars (float_repr q)) = Some (i, c :: fe, [])) /\
  parse_float (float_repr q) = JFloat q /\ Forall plain (to_chars (float_repr q)).

(** A value json can carry: strings are texts, the keys of a dict are distinct. *)
#[warnings="-register-all"]
Inductive faithful : json -> Prop :=
| fa_null : faithful JNull
| fa_bool b : faithful (JBool b)
| fa_int z : faithful (JInt z)
| fa_float q : float_reads q -> faithful (JFloat q)
| fa_str s : is_text s = true -> faithful (JStr s)
| fa_list l : Forall faithful l -> faithful (JList l)
| fa_dict d : dict_wf d -> Forall (fun p => is_text p.1 = true /\ faithful p.2) d -> faithful (JDict d).

(** The same, decided, where [float_ok] decides the floats. *)
Fixpoint carries (float_ok : Q -> bool) (j : json) : bool :=
  match j with
  | JFloat q => float_ok q
  | JStr s => is_text s
  | JList l => forallb (carries float_ok) l
  | JDict d => bool_decide (NoDup (dkeys d)) && forallb (fun p => is_text p.1 && carries float_ok p.2) d
  | _ => true
  end.

Lemma carries_faithful float_ok j :
  (forall q, float_ok q = true -> float_reads q) -> carries float_ok j = true -> faithful j.
Proof.
  intros Hq. induction j as [|b|z|q|s|l IH|d IH] using json_nested_ind; cbn [carries]; intros Hj; try by constructor; auto.
  - constructor. rewrite Forall_forall in IH |- *. rewrite forallb_forall in Hj. intros x Hx.
    by apply IH, Hj, list_elem_of_In.
  - apply andb_true_iff in Hj as [Hw Hj]. apply bool_decide_eq_true in Hw. constructor; [done|].
    rewrite Forall_forall in IH |- *. rewrite forallb_forall in Hj. intros p Hp.
    specialize (Hj p (proj1 (list_elem_of_In _ _) Hp)). apply andb_true_iff in Hj as [Ht Hv]. auto.
Qed.

Definition after_value (l : chars) : bool :=
  match l with c :: _ => (code c =? 44) || (code c =? 93) || (code c =? 125) | [] => true end.

Lemma after_stops l : after_value l = true -> stops l = true.
Proof. destruct l as [|c l]; [done|]. unfold after_value, stops, is_digit, is_sign. lia. Qed.

Lemma split_number_head l i fe r : split_number l = Some (i, fe, r) ->
  exists c t, l = c :: t /\ (is_digit c = true \/ code c = 45).
Proof.
  destruct l as [|c l]; [done|]. unfold split_number, scan_int, scan_natural. intros H.
  exists c, l. split; [done|]. destruct (Z.eqb_spec (code c) 45); [by right|].
  destruct (Z.eqb_spec (code c) 48) as [E|]; [left; unfold is_digit; by rewrite E|].
  destruct (is_digit c); [by left|done].
Qed.

(** How the texts of values start: with no blank, bracket or quote of a key. *)
Definition value_head (c : ascii) : bool :=
  negb (is_ws c) && negb (code c =? 93) && negb (code c =? 125) && (code c <? 128).

Lemma encode_head j : faithful j -> exists c t, enc j = c :: t /\ value_head c = true.
Proof.
  assert (Hnum : forall c, is_digit c = true \/ code c = 45 -> value_head c = true).
  { intros c. unfold value_head, is_ws, is_digit. lia. }
  intros Hj. destruct Hj as [|b|z|q [(i & c & fe & Hq) _]|s|l|d]; cbn [encode]; [by eexists _, _|by destruct b; eexists _, _| | |by eexists _, _..].
  - destruct (split_pretty z [] eq_refl) as (l & -> & _ & _ & c & t & -> & Hc). by exists c, t; auto.
  - apply split_number_head in Hq as (c' & t & -> & Hc). by exists c', t; auto.
Qed.

Lemma scan_atom_number l c t i fe r :
  l = c :: t -> (is_digit c = true \/ code c = 45) -> split_number l = Some (i, fe, r) ->
  forall n, scan (S n) l = scan_number parse_float l.
Proof.
  intros -> Hc Hs n. rewrite scan_value_S. unfold value_step. unfold is_digit in Hc.
  rewrite (proj2 (Z.eqb_neq _ 34)), (proj2 (Z.eqb_neq _ 123)), (proj2 (Z.eqb_neq _ 91)) by lia.
  unfold scan_atom.
  assert (first_literal LITERALS (c :: t) = None) as ->.
  { assert (forall a, (code a =? code c) = false -> Ascii.eqb a c = false) as Ha.
    { intros a Ha. destruct (Ascii.eqb_spec a c) as [->|]; [|done]. by rewrite Z.eqb_refl in Ha. }
    cbn -[code Ascii.eqb]. rewrite !Ha; [done|..]; [change (code "f") with 102|change (code "t") with 116|change (code "n") with 110]; lia. }
  unfold scan_number. rewrite Hs. by destruct fe.
Qed.

Lemma skip_ws_head c t : is_ws c = false -> skip_ws (c :: t) = c :: t.
Proof. intros H. cbn. by rewrite H. Qed.

(** A separator and the blank it may end with. *)
Lemma skip_separator x : skip_ws x = x ->
  (exists t, skip_ws (item_separator st ++ x) = ","%char :: t /\ skip_ws t = x /\ (length x <= length t)%nat /\
     length (item_separator st ++ x) = S (length t)) /\
  (exists t, skip_ws (key_separator st ++ x) = ":"%char :: t /\ skip_ws t = x /\ (length x <= length t)%nat /\
     length (key_separator st ++ x) = S (length t)).
Proof.
  intros Hx. unfold item_separator, key_separator. destruct (compact st); cbn [to_chars list_ascii_of_string app].
  - split; exists x; done.
  - split; exists (" "%char :: x); (split; [done|]); (split; [done|]); cbn; lia.
Qed.

Definition reads (j : json) : Prop := forall n r,
  after_value r = true -> (2 * length (enc j ++ r) + 1 <= n)%nat ->
  scan n (enc j ++ r) = Some (in_order st j, r).

Lemma joined_cons sep x y l : joined sep (x :: y :: l) = x ++ sep ++ joined sep (y :: l).
Proof. done. Qed.

(** Nothing in a joined list of values starts with a blank or closes it. *)
Lemma joined_head {A} (f : A -> chars) sep x l r :
  (exists c t, f x = c :: t /\ value_head c = true) ->
  exists c t, joined sep (map f (x :: l)) ++ r = c :: t /\ value_head c = true.
Proof.
  intros (c & t & E & Hc). exists c. destruct l as [|y l]; cbn [map].
  - exists (t ++ r). cbn. by rewrite E.
  - rewrite joined_cons, E. by eexists.
Qed.

Lemma value_head_skip x : (exists c t, x = c :: t /\ value_head c = true) -> skip_ws x = x.
Proof.
  intros (c & t & -> & Hc). apply skip_ws_head. unfold value_head in Hc. by destruct (is_ws c).
Qed.

Lemma elements_read j l : Forall (fun j => faithful j /\ reads j) (j :: l) ->
  forall n r, (2 * length (joined (item_separator st) (map enc (j :: l)) ++ "]"%char :: r) + 2 <= n)%nat ->
  elements n (joined (item_separator st) (map enc (j :: l)) ++ "]"%char :: r) =
    Some (map (in_order st) (j :: l), r).
Proof.
  revert j. induction l as [|k l IH]; intros j HF n r Hn; inversion_clear HF as [|? ? [Hj Hr] HF'];
    (destruct n as [|n]; [lia|]); cbn [map] in *.
  - cbn [joined] in *. rewrite scan_elements_S. unfold elements_step. by rewrite Hr by (done || lia).
  - rewrite joined_cons, <- !app_assoc in *. rewrite scan_elements_S. unfold elements_step.
    set (rest := joined (item_separator st) (enc k :: map enc l) ++ "]"%char :: r) in *.
    assert (Hk : skip_ws rest = rest).
    { apply value_head_skip, (joined_head enc), encode_head. by inversion_clear HF' as [|? ? [? _]]. }
    destruct (skip_separator rest Hk) as [(t & Et & Es & Hl & Hlen) _].
    assert (Ha : after_value (item_separator st ++ rest) = true).
    { unfold item_separator. by destruct (compact st). }
    rewrite Hr by (done || lia). rewrite Et. cbn [code]. change (code "," =? 93) with false.
    change (code "," =? 44) with true. cbv iota. rewrite Es. subst rest.
    rewrite length_app in Hn. specialize (IH k HF' n r). cbn [map] in IH. rewrite IH; [done|].
    destruct (encode_head j Hj) as (c & t' & E & _). rewrite E in Hn. cbn [length] in Hn. lia.
Qed.

Definition pair_text (p : string * json) : chars := encode_str p.1 ++ key_separator st ++ enc p.2.

Lemma pair_text_head p : exists c t, pair_text p = c :: t /\ value_head c = true.
Proof. by eexists _, _. Qed.

(** One pair of an object. *)
Lemma member_read p tail n :
  is_text p.1 = true -> faithful p.2 -> reads p.2 -> after_value tail = true ->
  (2 * length (pair_text p ++ tail) + 2 <= S n)%nat ->
  members (S n) (pair_text p ++ tail) =
    match skip_ws tail with
    | d :: r3 =>
        if code d =? 125 then Some ([(p.1, in_order st p.2)], r3)
        else if code d =? 44 then
          match members n (skip_ws r3) with
          | Some (ps, r4) => Some ((p.1, in_order st p.2) :: ps, r4)
          | None => None
          end
        else None
    | [] => None
    end.
Proof.
  intros Hk Hj Hr Ht Hn. unfold pair_text, encode_str in *. rewrite <- !app_assoc in *. cbn [app] in *.
  rewrite <- app_assoc in *. cbn [app] in *. rewrite scan_members_S. unfold members_step. change (code (chr 34) =? 34) with true. cbv iota.
  rewrite scan_encoded by done.
  assert (Hv : skip_ws (enc p.2 ++ tail) = enc p.2 ++ tail).
  { apply value_head_skip. destruct (encode_head p.2 Hj) as (c & t & -> & Hc). by eexists _, _. }
  destruct (skip_separator _ Hv) as [_ (t & Et & Es & Hl & Hlen)]. rewrite Et.
  change (code ":" =? 58) with true. cbv iota. rewrite Es.
  rewrite Hr; [|done|].
  - unfold to_chars. by rewrite string_of_list_ascii_of_string.
  - cbn [length] in Hn. rewrite length_app in Hn. cbn [length] in Hn. rewrite length_app in Hn. lia.
Qed.

Lemma members_read p ps :
  Forall (fun p => is_text p.1 = true /\ faithful p.2 /\ reads p.2) (p :: ps) ->
  forall n r, (2 * length (joined (item_separator st) (map pair_text (p :: ps)) ++ "}"%char :: r) + 2 <= n)%nat ->
  members n (joined (item_separator st) (map pair_text (p :: ps)) ++ "}"%char :: r) =
    Some (map (fun p => (p.1, in_order st p.2)) (p :: ps), r).
Proof.
  revert p. induction ps as [|q ps IH]; intros p HF n r Hn; inversion_clear HF as [|? ? [Hk [Hj Hr]] HF'];
    (destruct n as [|n]; [lia|]); cbn [map] in *.
  - cbn [joined] in *. by rewrite member_read by (done || lia).
  - rewrite joined_cons, <- !app_assoc in *.
    set (rest := joined (item_separator st) (pair_text q :: map pair_text ps) ++ "}"%char :: r) in *.
    assert (Hq : skip_ws rest = rest) by (apply value_head_skip, (joined_head pair_text), pair_text_head).
    destruct (skip_separator rest Hq) as [(t & Et & Es & Hl & Hlen) _].
    assert (Ha : after_value (item_separator st ++ rest) = true).
    { unfold item_separator. by destruct (compact st). }
    rewrite member_read by (done || lia). rewrite Et. change (code "," =? 125) with false.
    change (code "," =? 44) with true. cbv iota. rewrite Es. subst rest.
    rewrite length_app in Hn. specialize (IH q HF' n r). cbn [map] in IH. rewrite IH; [done|].
    destruct (pair_text_head p) as (c & t' & E & _). rewrite E in Hn. cbn [length] in Hn. lia.
Qed.

Lemma encode_dict d :
  enc (JDict d) = "{"%char :: joined (item_separator st) (map pair_text (ordered st d)) ++ ["}"%char].
Proof. cbn [encode]. rewrite ordered_map, map_map. done. Qed.

(** Every value that json can carry is read back from its text. *)
Lemma encode_reads j : faithful j -> reads j.
Proof.
  induction j as [|b|z|q|s|l IH|d IH] using json_nested_ind; intros Hj n r Hr Hn;
    (destruct n as [|n]; [lia|]); inversion_clear Hj as [| | |? Hq|? Hs|? Hl|? Hd HF].
  - done.
  - by destruct b.
  - destruct (split_pretty z r (after_stops r Hr)) as (t & E & Hs & Hv & c & t' & -> & Hc).
    cbn [encode in_order]. rewrite E. erewrite (scan_atom_number _ c (t' ++ r)); [|done|done|exact Hs].
    unfold scan_number. by rewrite Hs, Hv.
  - destruct Hq as [(i & c & fe & Hs) [Hp _]]. cbn [encode in_order].
    pose proof (split_number_app _ _ _ _ _ (after_stops r Hr) Hs) as Hs'.
    destruct (split_number_head _ _ _ _ Hs') as (c' & t & E & Hc).
    erewrite scan_atom_number; [|done|done|exact Hs']. unfold scan_number. rewrite Hs'.
    apply split_number_parts in Hs. rewrite app_nil_r in Hs. rewrite <- Hs. unfold to_chars. rewrite string_of_list_ascii_of_string. by rewrite Hp.
  - cbn [encode in_order encode_str app]. rewrite scan_value_S. unfold value_step. change (code (chr 34) =? 34) with true. cbv iota.
    unfold encode_str. rewrite <- app_assoc. cbn [app]. rewrite scan_encoded by done.
    unfold to_chars. by rewrite string_of_list_ascii_of_string.
  - cbn [encode in_order app]. rewrite scan_value_S. unfold value_step.
    change (code "[" =? 34) with false. change (code "[" =? 123) with false. change (code "[" =? 91) with true.
    cbv iota. destruct l as [|j l]; [done|].
    assert (HF : Forall (fun j => faithful j /\ reads j) (j :: l)).
    { apply Forall_forall. intros x Hx. rewrite Forall_forall in IH, Hl. auto. }
    rewrite <- app_assoc in *. cbn [encode app length] in Hn |- *. rewrite <- app_assoc in Hn. cbn [app] in Hn.
    destruct (joined_head enc (item_separator st) j l ("]"%char :: r)) as (c & t & E & Hc).
    { apply encode_head. by inversion_clear Hl. }
    rewrite E, skip_ws_head by (unfold value_head in Hc; by destruct (is_ws c)).
    unfold value_head in Hc. destruct (code c =? 93); [by rewrite ?andb_false_r in Hc|].
    rewrite <- E, elements_read by (done || lia). done.
  - rewrite encode_dict in *. cbn [in_order app]. rewrite scan_value_S. unfold value_step. rewrite ordered_map.
    change (code "{" =? 34) with false. change (code "{" =? 123) with true. cbv iota.
    assert (HF' : Forall (fun p => is_text p.1 = true /\ faithful p.2 /\ reads p.2) (ordered st d)).
    { rewrite ordered_perm. apply Forall_forall. intros p Hp. rewrite Forall_forall in IH, HF.
      destruct (HF p Hp) as [H1 H2]. auto. }
    assert (Hw : dict_wf (map (fun p => (p.1, in_order st p.2)) (ordered st d))).
    { unfold dict_wf, dkeys in *. rewrite <- list_fmap_compose. cbn [compose fst].
      change (NoDup ((ordered st d).*1)). by rewrite ordered_perm. }
    clear IH HF Hd. destruct (ordered st d) as [|p ps]; [done|].
    rewrite <- app_assoc in *. cbn [app length] in Hn |- *. rewrite <- app_assoc in Hn. cbn [app] in Hn.
    destruct (joined_head pair_text (item_separator st) p ps ("}"%char :: r)) as (c & t & E & Hc);
      [apply pair_text_head|].
    rewrite E, skip_ws_head by (unfold value_head in Hc; by destruct (is_ws c)).
    unfold value_head in Hc. destruct (code c =? 125); [by rewrite ?andb_false_r in Hc|].
    rewrite <- E, members_read by (done || lia). by rewrite dict_of_pairs.
Qed.

(** [json.loads(json.dumps(j))] is [j], its keys in the order they were written. *)
Lemma loads_dumps j : faithful j -> loads (json_dumps float_repr st j) = Some (in_order st j).
Proof.
  intros Hj. destruct (encode_head j Hj) as (c & t & E & Hc). unfold json_loads, json_dumps, to_chars.
  rewrite list_ascii_of_string_of_list_ascii.
  assert (strip_chars BOM_UTF8 (enc j) = None) as ->.
  { rewrite E. cbn [BOM_UTF8 strip_chars]. destruct (Ascii.eqb_spec (chr 239) c) as [<-|]; [|done].
    unfold value_head in Hc. by rewrite andb_false_r in Hc. }
  unfold decode_json. rewrite value_head_skip by (by exists c, t).
  pose proof (encode_reads j Hj (value_fuel (enc j)) [] eq_refl) as H. rewrite app_nil_r in H.
  by rewrite H by (unfold value_fuel; lia).
Qed.

(** Equal texts come from values that are equal up to the order of their keys. *)
Lemma dumps_inj j j' : faithful j -> faithful j' ->
  json_dumps float_repr st j = json_dumps float_repr st j' -> in_order st j = in_order st j'.
Proof.
  intros Hj Hj' E. apply loads_dumps in Hj, Hj'. rewrite E in Hj. congruence.
Qed.

Lemma dumps_dict d : exists t, json_dumps float_repr st (JDict d) = String "{"%char t.
Proof. unfold json_dumps. rewrite encode_dict. by eexists. Qed.

(** *** The text is ASCII *)

Lemma hex_char_plain n : plain (hex_char n).
Proof.
  unfold hex_char, plain. destruct (nth_in_or_default (Z.to_nat n) HEX_DIGITS "0"%char) as [Hin| ->]; [|done].
  assert (Forall plain HEX_DIGITS) as H by (repeat constructor; done).
  rewrite List.Forall_forall in H. by apply H.
Qed.

Lemma escape_plain c : scalar c = true -> Forall plain (escape c).
Proof.
  intros _. unfold escape. destruct (short_escape c) as [e|] eqn:E.
  - constructor; [done|]. constructor; [|constructor]. unfold short_escape in E.
    repeat case_match; simplify_eq; done.
  - destruct ((32 <=? c) && (c <=? 126)) eqn:H.
    + repeat constructor; rewrite code_chr; lia.
    + assert (Hu : forall n, Forall plain (unicode_escape n)).
      { intros n. unfold unicode_escape. repeat (apply List.Forall_cons; [done || apply hex_char_plain|]). constructor. }
      destruct (c <? 65536); [done|]. by apply Forall_app.
Qed.

Lemma encode_str_plain s : is_text s = true -> Forall plain (encode_str s).
Proof.
  intros Hs. unfold encode_str. constructor; [done|]. apply Forall_app. split; [|by repeat constructor].
  destruct (utf8_code_points (str_bytes s)) as [_ F]; [apply str_bytes_nonneg|done|].
  induction F as [|c cs Hc _ IH]; [constructor|]. cbn [flat_map]. apply Forall_app. split; [by apply escape_plain|done].
Qed.

Lemma joined_plain sep l : Forall plain sep -> Forall (Forall plain) l -> Forall plain (joined sep l).
Proof.
  intros Hs. induction 1 as [|x l Hx Hl IH]; [constructor|]. destruct l as [|y l]; [done|].
  rewrite joined_cons. by repeat (apply Forall_app; split).
Qed.

Lemma separators_plain : Forall plain (item_separator st) /\ Forall plain (key_separator st).
Proof. unfold item_separator, key_separator. destruct (compact st); split; repeat constructor; done. Qed.

Lemma pretty_plain (z : Z) : Forall plain (to_chars (pretty z)).
Proof.
  assert (Hn : forall x, (0 < x)%N -> Forall plain (to_chars (pretty_N_go x EmptyString))).
  { intros x Hx. destruct (pretty_go_numeral x EmptyString Hx) as (l & -> & [Hd _ _]). rewrite app_nil_r.
    eapply Forall_impl; [exact Hd|]. intros c. unfold is_digit, plain. lia. }
  destruct z as [|p|p]; [by repeat constructor|by apply Hn|]. constructor; [done|]. by apply (Hn (Npos p)).
Qed.

Lemma encode_plain j : faithful j -> Forall plain (enc j).
Proof.
  destruct separators_plain as [Hi Hk].
  induction j as [|b|z|q|s|l IH|d IH] using json_nested_ind; intros Hj;
    inversion_clear Hj as [| | |? Hq|? Hs|? Hl|? Hd HF].
  - by repeat constructor.
  - destruct b; by repeat constructor.
  - apply pretty_plain.
  - by destruct Hq as (_ & _ & Hq).
  - by apply encode_str_plain.
  - cbn [encode]. constructor; [done|]. apply Forall_app. split; [|by repeat constructor].
    apply joined_plain; [done|]. apply Forall_map. rewrite Forall_forall in IH, Hl |- *. auto.
  - rewrite encode_dict. constructor; [done|]. apply Forall_app. split; [|by repeat constructor].
    apply joined_plain; [done|]. apply Forall_map. rewrite ordered_perm. rewrite Forall_forall in IH, HF |- *.
    intros p Hp. destruct (HF p Hp) as [H1 H2]. unfold pair_text.
    apply Forall_app. split; [by apply encode_str_plain|]. apply Forall_app. split; [done|by apply IH].
Qed.

Lemma plain_utf8 l : Forall plain l -> detect_encoding l = Utf8 /\ utf8_valid_with true (map byte_of l) = true.
Proof.
  intros Hl. split.
  - assert (Hz : forall c, plain c -> zero c = false) by (intros c; unfold plain, zero; lia).
    assert (Hs : forall n p c t, plain c -> 128 <= n < 256 \/ n = 0 -> strip_chars (map chr (n :: p)) (c :: t) = None).
    { intros n p c t Hc Hn. cbn [map strip_chars]. destruct (Ascii.eqb_spec (chr n) c) as [<-|]; [|done].
      unfold plain in Hc. rewrite code_chr in Hc; lia. }
    unfold detect_encoding. destruct Hl as [|a l Ha Hl]; [done|]. rewrite !Hs by (done || lia). cbn [orb].
    destruct Hl as [|b l Hb Hl]; [done|]. rewrite !Hz by done.
    destruct Hl as [|c l Hc Hl]; [done|]. by destruct Hl.
  - induction Hl as [|c l Hc Hl IH]; [done|]. cbn [map utf8_valid_with].
    assert (byte_of c < 128) as Hb by (unfold plain, code in Hc; unfold byte_of; lia).
    by rewrite (proj2 (Z.ltb_lt _ 128) Hb).
Qed.

(** Bytes that were written are recognised as UTF-8 and read back. *)
Lemma loads_bytes_dumps decode_as j : faithful j ->
  json_loads_bytes parse_float parse_constant decode_as (json_dumps float_repr st j) = Some (in_order st j).
Proof.
  intros Hj. unfold json_loads_bytes. rewrite <- (loads_dumps j Hj).
  destruct (plain_utf8 (enc j) (encode_plain j Hj)) as [E1 E2]. unfold json_dumps at 1 2, to_chars at 1, str_bytes.
  rewrite list_ascii_of_string_of_list_ascii, E1. unfold json_dumps at 1.
  by rewrite list_ascii_of_string_of_list_ascii, E2.
Qed.
End RoundTrip.

(** Without [sort_keys] the value itself comes back. *)
Lemma in_order_unsorted st j : sort_keys st = false -> in_order st j = j.
Proof.
  intros Hs. induction j as [|b|z|q|s|l IH|d IH] using json_nested_ind; try done; cbn [in_order]; f_equal.
  - induction IH as [|x l Hx _ IHl]; [done|]. cbn. by rewrite Hx, IHl.
  - unfold ordered. rewrite Hs. induction IH as [|[k x] d Hx _ IHd]; [done|]. cbn in *. by rewrite Hx, IHd.
Qed.

(** ** The scanner's fuel *)

Lemma skip_ws_length l : (length (skip_ws l) <= length l)%nat.
Proof. induction l as [|c l IH]; [done|]. cbn. destruct (is_ws c); cbn; lia. Qed.

Lemma before_some p o s r : before p o = Some (s, r) -> exists s', o = Some (s', r).
Proof. destruct o as [[s' r']|]; [|done]. intros [= _ ->]. by exists s'. Qed.

Lemma scan_string_length l s r : scan_string l = Some (s, r) -> (length r < length l)%nat.
Proof.
  revert s. induction l as [l IH] using (induction_ltof1 _ (@length ascii)). unfold ltof in IH. intros s.
  assert (Hb : forall p l' s, (length l' < length l)%nat -> before p (scan_string l') = Some (s, r) ->
    (length r < length l)%nat).
  { intros p l' s' Hl (s0 & E)%before_some. apply IH in E; lia. }
  destruct l as [|c l1]; [done|]. cbn [scan_string]. destruct (code c =? 34); [intros [= _ <-]; cbn; lia|].
  destruct (code c =? 92); [|destruct (code c <? 32); [done|apply Hb; cbn; lia]].
  destruct l1 as [|e l2]; [done|]. destruct (Ascii.eqb e "u").
  2: { destruct (unescape e); [apply Hb; cbn; lia|done]. }
  destruct l2 as [|h1 [|h2 [|h3 [|h4 l3]]]]; try done. destruct (hex4 h1 h2 h3 h4) as [u|]; [|done].
  destruct (is_high u); [|apply Hb; cbn; lia].
  destruct l3 as [|b [|v [|g1 [|g2 [|g3 [|g4 l4]]]]]]; try (apply Hb; cbn; lia).
  destruct (_ && _); [|apply Hb; cbn; lia]. destruct (hex4 g1 g2 g3 g4) as [u2|]; [|done].
  destruct (is_low u2); apply Hb; cbn; lia.
Qed.

Lemma strip_chars_length p l r : strip_chars p l = Some r -> length l = (length p + length r)%nat.
Proof.
  revert l. induction p as [|a p IH]; intros l; [by intros [= ->]|]. destruct l as [|b l]; [done|]. cbn.
  destruct (Ascii.eqb a b); [|done]. intros H. by rewrite (IH l H).
Qed.

Lemma first_literal_length {A} (lits : list (string * A)) l a r :
  Forall (fun p => p.1 <> EmptyString) lits -> first_literal lits l = Some (a, r) -> (length r < length l)%nat.
Proof.
  induction 1 as [|[t x] lits Ht _ IH]; [done|]. cbn. destruct (strip_chars (to_chars t) l) as [r'|] eqn:E; [|done].
  intros [= _ <-]. apply strip_chars_length in E. destruct t; [done|]. cbn in E. lia.
Qed.

Lemma scan_int_nonempty l i r : scan_int l = Some (i, r) -> i <> [].
Proof.
  assert (Hn : forall l i, scan_natural l = Some (i, r) -> i <> []).
  { clear. intros [|c l] i; [done|]. unfold scan_natural. destruct (code c =? 48); [by intros [= <- _]|].
    destruct (is_digit c) eqn:E; [|done]. cbn. rewrite E. destruct (span_digits l). by intros [= <- _]. }
  destruct l as [|c l]; [done|]. cbn [scan_int]. destruct (code c =? 45); [|apply Hn].
  destruct (scan_natural l) as [[i' r']|]; [|done]. by intros [= <- _].
Qed.

Section Fuel.
Context (parse_float parse_constant : string -> json).
Abbreviation scan := (scan_value parse_float parse_constant).
Abbreviation elements := (scan_elements parse_float parse_constant).
Abbreviation members := (scan_members parse_float parse_constant).

Lemma scan_atom_length l v r : scan_atom parse_float parse_constant l = Some (v, r) -> (length r < length l)%nat.
Proof.
  unfold scan_atom. destruct (first_literal LITERALS l) as [[a r']|] eqn:E.
  { intros [= _ <-]. eapply first_literal_length; [|exact E]. by repeat constructor. }
  destruct (scan_number parse_float l) as [[a r']|] eqn:En.
  - intros [= _ <-]. unfold scan_number in En. destruct (split_number l) as [[[i fe] r0]|] eqn:Es; [|done].
    assert (r0 = r') as -> by (destruct fe; by simplify_eq). pose proof (split_number_parts _ _ _ _ Es) as Hl.
    assert (i <> []) as Hi.
    { intros ->. unfold split_number in Es. destruct (scan_int l) as [[i l0]|] eqn:Ei; [|done].
      apply scan_int_nonempty in Ei. destruct (scan_frac l0) as [f l1]. destruct (scan_exp l1) as [e l2].
      congruence. }
    rewrite Hl, !length_app. destruct i; [done|]. cbn. lia.
  - apply first_literal_length. by repeat constructor.
Qed.

(** A step forward: what is left is shorter. *)
Lemma scan_shorter n :
  (forall l v r, scan n l = Some (v, r) -> (length r < length l)%nat) /\
  (forall l v r, elements n l = Some (v, r) -> (length r < length l)%nat) /\
  (forall l v r, members n l = Some (v, r) -> (length r < length l)%nat).
Proof.
  induction n as [|n (IHv & IHe & IHm)]; [by split_and!; intros l v r; cbn|]. split_and!; intros l v r.
  - destruct l as [|c l]; [done|]. rewrite ?scan_value_S; unfold value_step. destruct (code c =? 34).
    { destruct (scan_string l) as [[s r']|] eqn:E; [|done]. intros [= _ <-]. apply scan_string_length in E. cbn. lia. }
    destruct (code c =? 123); [|destruct (code c =? 91); [|apply scan_atom_length]];
      pose proof (skip_ws_length l) as Hs; destruct (skip_ws l) as [|d r1]; try done; cbn in Hs.
    + destruct (code d =? 125); [intros [= _ <-]; cbn; lia|].
      destruct (members n (d :: r1)) as [[ps r']|] eqn:E; [|done]. intros [= _ <-]. apply IHm in E. cbn in *. lia.
    + destruct (code d =? 93); [intros [= _ <-]; cbn; lia|].
      destruct (elements n (d :: r1)) as [[ps r']|] eqn:E; [|done]. intros [= _ <-]. apply IHe in E. cbn in *. lia.
  - rewrite ?scan_elements_S; unfold elements_step. destruct (scan n l) as [[x r0]|] eqn:E; [|done]. apply IHv in E.
    pose proof (skip_ws_length r0) as Hs. destruct (skip_ws r0) as [|d r1]; [done|]. cbn in Hs.
    destruct (code d =? 93); [intros [= _ <-]; lia|]. destruct (code d =? 44); [|done].
    destruct (elements n (skip_ws r1)) as [[vs r2]|] eqn:E2; [|done]. intros [= _ <-]. apply IHe in E2.
    pose proof (skip_ws_length r1). lia.
  - destruct l as [|q l]; [done|]. rewrite ?scan_members_S; unfold members_step. destruct (code q =? 34); [|done].
    destruct (scan_string l) as [[k r0]|] eqn:E; [|done]. apply scan_string_length in E.
    pose proof (skip_ws_length r0) as Hs. destruct (skip_ws r0) as [|c r1]; [done|]. cbn in Hs.
    destruct (code c =? 58); [|done]. pose proof (skip_ws_length r1) as Hs1.
    destruct (scan n (skip_ws r1)) as [[x r2]|] eqn:Ev; [|done]. apply IHv in Ev.
    pose proof (skip_ws_length r2) as Hs2. destruct (skip_ws r2) as [|d r3]; [done|]. cbn in Hs2.
    destruct (code d =? 125); [intros [= _ <-]; cbn; lia|]. destruct (code d =? 44); [|done].
    destruct (members n (skip_ws r3)) as [[ps r4]|] eqn:Em; [|done]. intros [= _ <-]. apply IHm in Em.
    pose proof (skip_ws_length r3). cbn. lia.
Qed.

(** Twice the length of the text and one is enough: more fuel changes nothing, so
    [None] is always a syntax error. *)
Lemma scan_enough n m :
  (forall l, 2 * length l + 1 <= n -> 2 * length l + 1 <= m -> scan n l = scan m l)%nat /\
  (forall l, 2 * length l + 2 <= n -> 2 * length l + 2 <= m -> elements n l = elements m l)%nat /\
  (forall l, 2 * length l + 2 <= n -> 2 * length l + 2 <= m -> members n l = members m l)%nat.
Proof.
  revert m. induction n as [|n IH]; intros m; [split_and!; intros; lia|].
  destruct m as [|m]; [split_and!; intros; lia|]. destruct (IH m) as (IHv & IHe & IHm). clear IH.
  split_and!; intros l Hn Hm.
  - destruct l as [|c l]; [done|]. rewrite ?scan_value_S; unfold value_step. cbn [length] in *.
    pose proof (skip_ws_length l) as Hs. destruct (code c =? 34), (code c =? 123), (code c =? 91); try done;
      destruct (skip_ws l) as [|d r1]; try done; cbn [length] in Hs; case_match; try done;
      first [rewrite IHm by (cbn; lia) | rewrite IHe by (cbn; lia)]; done.
  - rewrite ?scan_elements_S; unfold elements_step. rewrite IHv by lia. destruct (scan m l) as [[x r0]|] eqn:E; [|done].
    apply (proj1 (scan_shorter m)) in E. pose proof (skip_ws_length r0) as Hs.
    destruct (skip_ws r0) as [|d r1]; [done|]. cbn [length] in Hs. pose proof (skip_ws_length r1).
    by rewrite IHe by lia.
  - destruct l as [|q l]; [done|]. rewrite ?scan_members_S; unfold members_step. cbn [length] in *. destruct (code q =? 34); [|done].
    destruct (scan_string l) as [[k r0]|] eqn:E; [|done]. apply scan_string_length in E.
    pose proof (skip_ws_length r0) as Hs. destruct (skip_ws r0) as [|c r1]; [done|]. cbn [length] in Hs.
    pose proof (skip_ws_length r1). destruct (code c =? 58); [|done]. rewrite IHv by lia.
    destruct (scan m (skip_ws r1)) as [[x r2]|] eqn:Ev; [|done]. apply (proj1 (scan_shorter m)) in Ev.
    pose proof (skip_ws_length r2) as Hs2. destruct (skip_ws r2) as [|d r3]; [done|]. cbn [length] in Hs2.
    pose proof (skip_ws_length r3). by rewrite IHm by lia.
Qed.
End Fuel.

(** ** Examples *)

(** A decimal form for the timestamps of the program, whole microseconds. *)
Definition micro_repr (q : Q) : string :=
  pretty (Qnum q / US_PER_SECOND) +:+ "." +:+ pad 6 (Qnum q mod US_PER_SECOND).

Definition micro_read (s : string) : json :=
  match map py_int (split_on "." s) with
  | [Some a; Some b] => JFloat (Qmake (a * US_PER_SECOND + b) 1000000)
  | _ => JNull
  end.

Definition no_float (_ : Q) : string := "0.5".
Definition as_text (s : string) : json := JStr s.

Definition ex_value : json :=
  JDict [("b", JList [JInt (-10); JNull; JBool true; JList []; JDict []]);
         ("a", JStr ("x" +:+ string_of_list_ascii (map chr [34; 10; 195; 169; 240; 159; 152; 128])))].

Example dumps_ex :
  json_dumps no_float SORTED ex_value =
    str_map (fun c => if Ascii.eqb c "`" then chr 34 else c)
      "{`a`: `x\`\n\u00e9\ud83d\ude00`, `b`: [-10, null, true, [], {}]}".
Proof. vm_compute. reflexivity. Qed.

Example loads_ex :
  map (json_loads as_text as_text) ["[ 1 , -2 ] "; "1.5e+3"; "-Infinity"; "01"; "[1,]"; "1 2"; ""] =
    [Some (JList [JInt 1; JInt (-2)]); Some (JStr "1.5e+3"); Some (JStr "-Infinity"); None; None; None; None].
Proof. vm_compute. reflexivity. Qed.
