(* ===== verification/States.v ===== *)
(** * States: core/orchestrator/states.py

    Run and step statuses with their legal-transition tables, and the records
    the orchestrator stores.  The tables are the program's state machines; the
    lemmas say which run states are terminal and from which state alone
    [REJECTED], [SUCCEEDED] and [AWAITING_APPROVAL] can be entered. *)

From Stdlib Require Import ZArith Lia Ascii String List.
From stdpp Require Import base list strings relations.
From S2P Require Import Prelude PyTime ConnErrors Effects.

Open Scope string_scope.
Open Scope list_scope.
Open Scope Z_scope.

Inductive RunStatus :=
| QUEUED | RUNNING | AWAITING_APPROVAL | SUCCEEDED | PARKED | REJECTED | CANCELLED.

Inductive StepStatus :=
| SPENDING | SRUNNING | SSUCCEEDED | SFAILED | SCOMPENSATED | SSKIPPED.

#[export] Instance RunStatus_eq_dec : EqDecision RunStatus.
Proof. solve_decision. Defined.

#[export] Instance StepStatus_eq_dec : EqDecision StepStatus.
Proof. solve_decision. Defined.

Definition run_status_value (s : RunStatus) : string :=
  match s with
  | QUEUED => "queued" | RUNNING => "running" | AWAITING_APPROVAL => "awaiting_approval"
  | SUCCEEDED => "succeeded" | PARKED => "parked" | REJECTED => "rejected"
  | CANCELLED => "cancelled"
  end.

Definition step_status_value (s : StepStatus) : string :=
  match s with
  | SPENDING => "pending" | SRUNNING => "running" | SSUCCEEDED => "succeeded"
  | SFAILED => "failed" | SCOMPENSATED => "compensated" | SSKIPPED => "skipped"
  end.

Definition run_transitions (s : RunStatus) : list RunStatus :=
  match s with
  | QUEUED => [RUNNING]
  | RUNNING => [SUCCEEDED; AWAITING_APPROVAL; PARKED; CANCELLED]
  | AWAITING_APPROVAL => [RUNNING; REJECTED; CANCELLED]
  | PARKED => [RUNNING; CANCELLED]
  | SUCCEEDED => []
  | REJECTED => []
  | CANCELLED => []
  end.

Definition step_transitions (s : StepStatus) : list StepStatus :=
  match s with
  | SPENDING => [SRUNNING]
  | SRUNNING => [SSUCCEEDED; SFAILED]
  | SFAILED => [SRUNNING; SCOMPENSATED]
  | SSUCCEEDED => [SCOMPENSATED]
  | SCOMPENSATED => []
  | SSKIPPED => []
  end.

Definition is_legal_run_transition (from to : RunStatus) : bool :=
  bool_decide (to ∈ run_transitions from).

Definition is_legal_step_transition (from to : StepStatus) : bool :=
  bool_decide (to ∈ step_transitions from).

Definition run_terminal (s : RunStatus) : bool :=
  match run_transitions s with [] => true | _ => false end.

(** ** Stored records *)

Record StepError := mk_StepError {
  se_error_class : string;
  se_detail : string;
  se_attempt : Z;
  se_retryable : bool }.

Record TriggerRef := mk_TriggerRef {
  tr_kind : string;
  tr_source : string;
  tr_dedupe_key : option string }.

Record WorkflowRun := mk_WorkflowRun {
  run_id : string;
  run_workflow : string;
  run_workflow_version : Z;
  run_status : RunStatus;
  run_current_step : option string;
  run_trigger : TriggerRef;
  run_context : jdict;
  run_created_at : datetime;
  run_updated_at : datetime;
  run_last_error : option StepError }.

Record StepState := mk_StepState {
  st_run_id : string;
  st_step : string;
  st_seq : Z;
  st_status : StepStatus;
  st_attempt : Z;
  st_idem_key : string;
  st_input : option jdict;
  st_output : option jdict;
  st_error : option StepError;
  st_started_at : option datetime;
  st_ended_at : option datetime }.

Inductive GateStatus := GPending | GApproved | GRejected | GExpired.

#[export] Instance GateStatus_eq_dec : EqDecision GateStatus.
Proof. solve_decision. Defined.

Definition gate_status_value (s : GateStatus) : string :=
  match s with
  | GPending => "pending" | GApproved => "approved" | GRejected => "rejected"
  | GExpired => "expired"
  end.

Record GateRequest := mk_GateRequest {
  gr_id : string;
  gr_run_id : string;
  gr_step : string;
  gr_required_role : string;
  gr_quorum : Z;
  gr_status : GateStatus;
  gr_channels : list string;
  gr_created_at : datetime;
  gr_expires_at : datetime }.

Inductive Decision := Approve | Reject.

#[export] Instance Decision_eq_dec : EqDecision Decision.
Proof. solve_decision. Defined.

Record ApprovalDecision := mk_ApprovalDecision {
  ad_gate_request_id : string;
  ad_run_id : string;
  ad_step : string;
  ad_decision : Decision;
  ad_actor : string;
  ad_channel : string;
  ad_token_id : string;
  ad_reason : option string;
  ad_decided_at : datetime }.

Record ApprovalToken := mk_ApprovalToken {
  tok_id : string;
  tok_gate_request_id : string;
  tok_run_id : string;
  tok_step : string;
  tok_key_id : string;
  tok_token_hash : string;
  tok_channel : string;
  tok_expires_at : datetime;
  tok_used_at : option datetime }.

(** [now] is the clock reading of the property's own [datetime.now]. *)
Definition tok_is_expired (now : datetime) (t : ApprovalToken) : bool := dt_lt (tok_expires_at t) now.

Definition tok_is_used (t : ApprovalToken) : bool :=
  match tok_used_at t with Some _ => true | None => false end.

(** ** Reachability in the run state machine *)

Definition run_step (a b : RunStatus) : Prop := is_legal_run_transition a b = true.
Definition step_step (a b : StepStatus) : Prop := is_legal_step_transition a b = true.

Lemma run_terminal_stuck a b : run_terminal a = true -> ~ run_step a b.
Proof. destruct a; simpl; try done; by destruct b. Qed.

Lemma rejected_pred a : run_step a REJECTED -> a = AWAITING_APPROVAL.
Proof. destruct a; try done. Qed.

Lemma awaiting_pred a : run_step a AWAITING_APPROVAL -> a = RUNNING.
Proof. destruct a; try done. Qed.

Lemma succeeded_pred a : run_step a SUCCEEDED -> a = RUNNING.
Proof. destruct a; try done. Qed.
