(* ===== verification/RunStore.v ===== *)
(** * RunStore: core/orchestrator/store.py

    [InMemoryRunStore]: runs, their ordered step lists, gates, tokens,
    decisions and the dedupe index, with one definition per method.  Methods
    that read the clock take the reading [now] as their first argument.  The
    store's well-formedness is an invariant of every method, a run's status
    moves only along legal edges, and a token is used at most once. *)

From Stdlib Require Import ZArith Lia Ascii String List.
From stdpp Require Import base list strings.
From S2P Require Import Prelude PyTime ConnErrors Effects States.

Open Scope string_scope.
Open Scope list_scope.
Open Scope Z_scope.
Open Scope cam_scope.

Record RunStore := mk_RunStore {
  rs_runs : dict string WorkflowRun;
  rs_steps : dict string (list StepState);
  rs_gates : dict string GateRequest;
  rs_tokens : dict string ApprovalToken;
  rs_decisions : list ApprovalDecision;
  rs_dedupe : dict string string }.

Definition empty_run_store : RunStore := mk_RunStore [] [] [] [] [] [].

(** Field updates. *)
Definition set_runs r s :=
  mk_RunStore r (rs_steps s) (rs_gates s) (rs_tokens s) (rs_decisions s) (rs_dedupe s).
Definition set_steps x s :=
  mk_RunStore (rs_runs s) x (rs_gates s) (rs_tokens s) (rs_decisions s) (rs_dedupe s).
Definition set_gates x s :=
  mk_RunStore (rs_runs s) (rs_steps s) x (rs_tokens s) (rs_decisions s) (rs_dedupe s).
Definition set_tokens x s :=
  mk_RunStore (rs_runs s) (rs_steps s) (rs_gates s) x (rs_decisions s) (rs_dedupe s).
Definition set_decisions x s :=
  mk_RunStore (rs_runs s) (rs_steps s) (rs_gates s) (rs_tokens s) x (rs_dedupe s).
Definition set_dedupe x s :=
  mk_RunStore (rs_runs s) (rs_steps s) (rs_gates s) (rs_tokens s) (rs_decisions s) x.

(** ** Runs *)

Definition run_not_found (run_id : string) : exn := KeyError ("Run " +:+ run_id +:+ " not found.").

(** The dedupe key of a run when Python takes it as true. *)
Definition truthy_key (r : WorkflowRun) : option string :=
  match tr_dedupe_key (run_trigger r) with
  | Some k => if str_truthy k then Some k else None
  | None => None
  end.

(** The second half of [create_run]: store the run and its steps, index its key. *)
Definition insert_run (run : WorkflowRun) (steps : list StepState) (s : RunStore) : RunStore :=
  let s := set_runs (dset (run_id run) run (rs_runs s)) s in
  let s := set_steps (dset (run_id run) steps (rs_steps s)) s in
  match truthy_key run with
  | Some k => set_dedupe (dset k (run_id run) (rs_dedupe s)) s
  | None => s
  end.

Definition create_run (run : WorkflowRun) (steps : list StepState) : M RunStore WorkflowRun := fun s =>
  match truthy_key run with
  | Some k =>
      match dget k (rs_dedupe s) with
      | Some existing_id => (s, or_raise (KeyError existing_id) (dget existing_id (rs_runs s)))
      | None => (insert_run run steps s, Ok run)
      end
  | None => (insert_run run steps s, Ok run)
  end.

Definition get_run (run_id : string) : M RunStore (option WorkflowRun) :=
  gets (fun s => dget run_id (rs_runs s)).

(** [run.model_copy(update={...})] of [update_run_status]. *)
Definition with_status (now : datetime) (status : RunStatus) (current_step : option string)
    (last_error : option StepError) (run : WorkflowRun) : WorkflowRun :=
  mk_WorkflowRun (run_id run) (run_workflow run) (run_workflow_version run) status
    (match current_step with Some c => Some c | None => run_current_step run end)
    (run_trigger run) (run_context run) (run_created_at run) now
    (match last_error with Some e => Some e | None => run_last_error run end).

Definition update_run_status (now : datetime) (rid : string) (status : RunStatus)
    (current_step : option string) (last_error : option StepError) : M RunStore unit := fun s =>
  match dget rid (rs_runs s) with
  | None => (s, Err (run_not_found rid))
  | Some run =>
      if is_legal_run_transition (run_status run) status then
        (set_runs (dset rid (with_status now status current_step last_error run) (rs_runs s)) s,
         Ok tt)
      else
        (s, Err (IllegalTransitionError ("Run " +:+ rid) (run_status_value (run_status run))
                   (run_status_value status)))
  end.

Definition with_current_step (now : datetime) (step : string) (run : WorkflowRun) : WorkflowRun :=
  mk_WorkflowRun (run_id run) (run_workflow run) (run_workflow_version run) (run_status run)
    (Some step) (run_trigger run) (run_context run) (run_created_at run) now (run_last_error run).

Definition set_current_step (now : datetime) (rid step : string) : M RunStore unit := fun s =>
  match dget rid (rs_runs s) with
  | None => (s, Err (run_not_found rid))
  | Some run => (set_runs (dset rid (with_current_step now step run) (rs_runs s)) s, Ok tt)
  end.

Definition with_step_succeeded (now : datetime) (st : StepState) : StepState :=
  mk_StepState (st_run_id st) (st_step st) (st_seq st) SSUCCEEDED (st_attempt st)
    (st_idem_key st) (st_input st) (st_output st) (st_error st) (st_started_at st) (Some now).

(** The first step of that name, replaced in place: the [for ... return] loops. *)
Fixpoint update_first {A} (p : A -> bool) (f : A -> A) (l : list A) : list A :=
  match l with
  | [] => []
  | x :: l' => if p x then f x :: l' else x :: update_first p f l'
  end.

Definition step_named (name : string) (st : StepState) : bool := String.eqb (st_step st) name.

(** [self._steps.get(run_id, [])]: a missing run has no list, and what the loop
    does to the temporary list is lost. *)
Definition steps_of (rid : string) (s : RunStore) : list StepState :=
  match dget rid (rs_steps s) with Some l => l | None => [] end.

Definition put_steps (rid : string) (l : list StepState) (s : RunStore) : RunStore :=
  match dget rid (rs_steps s) with
  | Some _ => set_steps (dset rid l (rs_steps s)) s
  | None => s
  end.

Definition advance_gate_step (now : datetime) (rid step_name : string) : M RunStore unit := fun s =>
  (put_steps rid (update_first (step_named step_name) (with_step_succeeded now) (steps_of rid s)) s,
   Ok tt).

Definition find_queued_runs : M RunStore (list string) :=
  gets (fun s => map run_id
    (bfilter (fun r => bool_decide (run_status r = QUEUED)) (dvalues (rs_runs s)))).

Definition recoverable (r : WorkflowRun) : bool :=
  bool_decide (run_status r = QUEUED) || bool_decide (run_status r = RUNNING).

Definition find_recoverable_runs : M RunStore (list string) :=
  gets (fun s => map run_id (bfilter recoverable (dvalues (rs_runs s)))).

(** ** Steps *)

Definition get_steps (rid : string) : M RunStore (list StepState) := gets (steps_of rid).

Definition get_step (rid step_name : string) : M RunStore (option StepState) :=
  gets (fun s => find_first (step_named step_name) (steps_of rid s)).

Definition update_step (step : StepState) : M RunStore unit := fun s =>
  let steps := steps_of (st_run_id step) s in
  match find_first (step_named (st_step step)) steps with
  | Some old =>
      if is_legal_step_transition (st_status old) (st_status step) then
        (put_steps (st_run_id step)
           (update_first (step_named (st_step step)) (fun _ => step) steps) s, Ok tt)
      else
        (s, Err (IllegalTransitionError ("Step " +:+ st_step step)
                   (step_status_value (st_status old)) (step_status_value (st_status step))))
  | None => (s, Err (KeyError ("Step " +:+ st_step step +:+ " not found in run "
                               +:+ st_run_id step +:+ ".")))
  end.

(** ** Gates, tokens, decisions *)

Definition create_gate_request (gate : GateRequest) : M RunStore GateRequest := fun s =>
  (set_gates (dset (gr_id gate) gate (rs_gates s)) s, Ok gate).

Definition get_gate_request (gate_id : string) : M RunStore (option GateRequest) :=
  gets (fun s => dget gate_id (rs_gates s)).

Definition update_gate_request (gate : GateRequest) : M RunStore unit :=
  modify (fun s => set_gates (dset (gr_id gate) gate (rs_gates s)) s).

Definition save_token (token : ApprovalToken) : M RunStore unit :=
  modify (fun s => set_tokens (dset (tok_id token) token (rs_tokens s)) s).

Definition get_token (token_id : string) : M RunStore (option ApprovalToken) :=
  gets (fun s => dget token_id (rs_tokens s)).

Definition with_used_at (used_at : datetime) (t : ApprovalToken) : ApprovalToken :=
  mk_ApprovalToken (tok_id t) (tok_gate_request_id t) (tok_run_id t) (tok_step t) (tok_key_id t)
    (tok_token_hash t) (tok_channel t) (tok_expires_at t) (Some used_at).

Definition mark_token_used (token_id : string) (used_at : datetime) : M RunStore bool := fun s =>
  match dget token_id (rs_tokens s) with
  | None => (s, Ok false)
  | Some token =>
      if tok_is_used token then (s, Ok false)
      else (set_tokens (dset token_id (with_used_at used_at token) (rs_tokens s)) s, Ok true)
  end.

Definition save_approval_decision (d : ApprovalDecision) : M RunStore unit :=
  modify (fun s => set_decisions (rs_decisions s ++ [d]) s).

Definition all_decisions : M RunStore (list ApprovalDecision) := gets rs_decisions.

(** ** Calls: the mutating methods, as one type *)

Inductive store_call :=
| CCreateRun (run : WorkflowRun) (steps : list StepState)
| CUpdateStatus (now : datetime) (rid : string) (status : RunStatus)
    (current_step : option string) (last_error : option StepError)
| CSetCurrentStep (now : datetime) (rid step : string)
| CAdvanceGate (now : datetime) (rid step : string)
| CUpdateStep (step : StepState)
| CCreateGate (gate : GateRequest)
| CUpdateGate (gate : GateRequest)
| CSaveToken (token : ApprovalToken)
| CMarkUsed (token_id : string) (used_at : datetime)
| CSaveDecision (d : ApprovalDecision).

(** The state a call leaves, whether it returns or raises. *)
Definition exec_call (c : store_call) (s : RunStore) : RunStore :=
  match c with
  | CCreateRun run steps => fst (create_run run steps s)
  | CUpdateStatus now rid st cs le => fst (update_run_status now rid st cs le s)
  | CSetCurrentStep now rid step => fst (set_current_step now rid step s)
  | CAdvanceGate now rid step => fst (advance_gate_step now rid step s)
  | CUpdateStep step => fst (update_step step s)
  | CCreateGate gate => fst (create_gate_request gate s)
  | CUpdateGate gate => fst (update_gate_request gate s)
  | CSaveToken token => fst (save_token token s)
  | CMarkUsed tid used_at => fst (mark_token_used tid used_at s)
  | CSaveDecision d => fst (save_approval_decision d s)
  end.

Definition exec_calls (cs : list store_call) (s : RunStore) : RunStore :=
  fold_left (fun s c => exec_call c s) cs s.

(** ** The well-formedness invariant *)

Definition keyed {A} (id : A -> string) (d : dict string A) : Prop :=
  dict_wf d /\ forall k x, dget k d = Some x -> id x = k.

Record store_wf (s : RunStore) : Prop := mk_store_wf {
  wf_runs : keyed run_id (rs_runs s);
  wf_steps : forall k, dmem k (rs_steps s) = dmem k (rs_runs s);
  wf_gates : keyed gr_id (rs_gates s);
  wf_tokens : keyed tok_id (rs_tokens s);
  wf_dedupe : forall k rid, dget k (rs_dedupe s) = Some rid -> dmem rid (rs_runs s) = true }.

Lemma wf_run_id s k r : store_wf s -> dget k (rs_runs s) = Some r -> run_id r = k.
Proof. intros [[_ H] _ _ _ _]. apply H. Qed.

Lemma keyed_dset {A} (id : A -> string) d x k : id x = k -> keyed id d -> keyed id (dset k x d).
Proof.
  intros Hid [Hwf Hk]. split; [auto with cam|]. intros k' x'. rewrite dget_dset.
  case_decide; intros; simplify_eq; auto.
Qed.

Lemma keyed_dset_found {A} (id : A -> string) d x x' k :
  dget k d = Some x -> id x' = id x -> keyed id d -> keyed id (dset k x' d).
Proof. intros Hg Hid Hk. apply keyed_dset; [|done]. rewrite Hid. by apply Hk. Qed.

Lemma dmem_dset {K V} `{EqDecision K} (k k' : K) (v : V) d :
  dmem k' (dset k v d) = bool_decide (k' = k) || dmem k' d.
Proof. unfold dmem. rewrite dget_dset. case_decide; [by rewrite bool_decide_true | by rewrite bool_decide_false]. Qed.

Lemma dmem_dset_found {K V} `{EqDecision K} (k k' : K) (v v' : V) d :
  dget k d = Some v -> dmem k' (dset k v' d) = dmem k' d.
Proof.
  intros Hg. rewrite dmem_dset. destruct (bool_decide_reflect (k' = k)); [|done].
  subst. simpl. unfold dmem. by rewrite Hg.
Qed.

Lemma empty_store_wf : store_wf empty_run_store.
Proof. split; simpl; try done; (split; [apply dict_wf_nil | done]). Qed.

Lemma insert_run_wf run steps s : store_wf s -> store_wf (insert_run run steps s).
Proof.
  intros [Hr Hs Hg Ht Hd]. unfold insert_run.
  destruct (truthy_key run) as [k|]; split; simpl; auto using keyed_dset;
    intros k'; rewrite ?dmem_dset, ?Hs; try done.
  - intros rid. rewrite dget_dset, dmem_dset. case_decide; intros; simplify_eq.
    + by rewrite bool_decide_true.
    + rewrite (Hd k' rid) by done. by rewrite orb_true_r.
  - intros rid Hk. rewrite dmem_dset, (Hd k' rid) by done. by rewrite orb_true_r.
Qed.

Lemma set_runs_found_wf s rid run run' :
  dget rid (rs_runs s) = Some run -> run_id run' = run_id run ->
  store_wf s -> store_wf (set_runs (dset rid run' (rs_runs s)) s).
Proof.
  intros Hf Hid [Hr Hs Hg Ht Hd]. split; simpl; eauto using keyed_dset_found.
  - intros k. by erewrite dmem_dset_found.
  - intros k r Hk. erewrite dmem_dset_found; eauto.
Qed.

Lemma put_steps_wf rid l s : store_wf s -> store_wf (put_steps rid l s).
Proof.
  intros [Hr Hs Hg Ht Hd]. unfold put_steps. destruct (dget rid (rs_steps s)) eqn:E; [|done].
  split; simpl; auto. intros k. by erewrite dmem_dset_found.
Qed.

Lemma exec_call_wf c s : store_wf s -> store_wf (exec_call c s).
Proof.
  intros Hwf. destruct c; simpl.
  - unfold create_run. destruct (truthy_key run); [destruct (dget _ _)|]; simpl;
      auto using insert_run_wf.
  - unfold update_run_status. destruct (dget rid (rs_runs s)) eqn:E; [|done].
    case_match; [|done]. by apply (set_runs_found_wf s rid w).
  - unfold set_current_step. destruct (dget rid (rs_runs s)) eqn:E; [|done].
    by apply (set_runs_found_wf s rid w).
  - by apply put_steps_wf.
  - unfold update_step. repeat case_match; simpl; auto using put_steps_wf.
  - destruct Hwf. split; simpl; auto using keyed_dset.
  - destruct Hwf. split; simpl; auto using keyed_dset.
  - destruct Hwf. split; simpl; auto using keyed_dset.
  - unfold mark_token_used. destruct (dget token_id (rs_tokens s)) eqn:E; [|done].
    case_match; [done|]. destruct Hwf. split; simpl; eauto using keyed_dset_found.
  - destruct Hwf. split; simpl; auto.
Qed.

Lemma exec_calls_wf cs s : store_wf s -> store_wf (exec_calls cs s).
Proof. revert s. induction cs as [|c cs IH]; simpl; auto using exec_call_wf. Qed.

(** ** What a call does to one run's status *)

(** The call stores a new run under [rid]. *)
Definition recreates (rid : string) (c : store_call) : bool :=
  match c with CCreateRun run _ => String.eqb (run_id run) rid | _ => false end.

Definition status_of (rid : string) (s : RunStore) : option RunStatus :=
  option_map run_status (dget rid (rs_runs s)).

Lemma status_of_set s rid rid' run :
  status_of rid' (set_runs (dset rid run (rs_runs s)) s) =
    if decide (rid' = rid) then Some (run_status run) else status_of rid' s.
Proof. unfold status_of. simpl. rewrite dget_dset. by case_decide. Qed.

Lemma put_steps_status rid rid' l s : status_of rid' (put_steps rid l s) = status_of rid' s.
Proof. unfold put_steps. by destruct (dget _ _). Qed.

Lemma insert_run_status run steps rid s :
  run_id run <> rid -> status_of rid (insert_run run steps s) = status_of rid s.
Proof.
  intros Hne. unfold insert_run, status_of. destruct (truthy_key run); simpl;
    by rewrite dget_dset_ne by congruence.
Qed.

(** A call leaves a stored run's status alone or moves it along one legal edge. *)
Lemma exec_call_status c s rid st :
  recreates rid c = false -> status_of rid s = Some st ->
  exists st', status_of rid (exec_call c s) = Some st' /\ (st' = st \/ run_step st st').
Proof.
  intros Hc Hst. destruct c; simpl in *; try (exists st; by auto).
  - apply String.eqb_neq in Hc. exists st. split; [|by left]. rewrite <- Hst.
    unfold create_run. destruct (truthy_key run); [destruct (dget _ _)|]; simpl;
      auto using insert_run_status.
  - unfold update_run_status. destruct (dget rid0 (rs_runs s)) as [w|] eqn:E; [|eauto].
    destruct (is_legal_run_transition (run_status w) status) eqn:L; [|eauto].
    simpl. rewrite status_of_set. case_decide; [|eauto]. subst rid0.
    unfold status_of in Hst. rewrite E in Hst. simplify_eq/=. eauto.
  - unfold set_current_step. destruct (dget rid0 (rs_runs s)) as [w|] eqn:E; [|eauto].
    simpl. rewrite status_of_set. case_decide; [|eauto]. subst rid0.
    unfold status_of in Hst. rewrite E in Hst. simplify_eq/=. eauto.
  - rewrite put_steps_status. eauto.
  - exists st. split; [|by left]. rewrite <- Hst. unfold update_step.
    repeat case_match; simpl; auto using put_steps_status.
  - exists st. split; [|by left]. rewrite <- Hst. unfold mark_token_used.
    by repeat case_match.
Qed.

Definition never_recreated (rid : string) (cs : list store_call) : Prop :=
  Forall (fun c => recreates rid c = false) cs.

Lemma exec_calls_app cs1 cs2 s : exec_calls (cs1 ++ cs2) s = exec_calls cs2 (exec_calls cs1 s).
Proof. apply fold_left_app. Qed.

Lemma exec_calls_present cs s rid st :
  never_recreated rid cs -> status_of rid s = Some st ->
  exists st', status_of rid (exec_calls cs s) = Some st'.
Proof.
  intros Hn. revert s st. induction Hn as [|c cs Hc Hn IH]; intros s st Hst; [eauto|].
  destruct (exec_call_status c s rid st Hc Hst) as (st' & Hst' & _). simpl. eauto.
Qed.

Lemma terminal_stays cs s rid st :
  never_recreated rid cs -> run_terminal st = true -> status_of rid s = Some st ->
  status_of rid (exec_calls cs s) = Some st.
Proof.
  intros Hn Ht. revert s. induction Hn as [|c cs Hc Hn IH]; intros s Hst; [done|].
  simpl. apply IH. destruct (exec_call_status c s rid st Hc Hst) as (st' & Hst' & [->|Hs]); [done|].
  by apply run_terminal_stuck in Hs.
Qed.

(** A status that a history ends in and did not start in was entered from a
    predecessor at some split of the calls. *)
Lemma entered_from cs s rid st st' :
  never_recreated rid cs -> status_of rid s = Some st ->
  status_of rid (exec_calls cs s) = Some st' -> st <> st' ->
  exists cs1 c cs2 p, cs = cs1 ++ c :: cs2 /\
    status_of rid (exec_calls cs1 s) = Some p /\ run_step p st' /\
    status_of rid (exec_call c (exec_calls cs1 s)) = Some st'.
Proof.
  intros Hn. revert s st. induction Hn as [|c cs Hc Hn IH]; intros s st Hst Hend Hne.
  - simpl in *. congruence.
  - destruct (exec_call_status c s rid st Hc Hst) as (st1 & Hst1 & Hor). simpl in Hend.
    destruct (decide (st1 = st')) as [->|Hne1].
    + exists [], c, cs, st. destruct Hor as [?|?]; [congruence|]. auto.
    + destruct (IH (exec_call c s) st1 Hst1 Hend Hne1) as (cs1 & c' & cs2 & p & -> & ? & ? & ?).
      exists (c :: cs1), c', cs2, p. auto.
Qed.

(** ** Helper lemmas of the properties *)

Lemma create_run_total run steps s :
  store_wf s -> exists r, snd (create_run run steps s) = Ok r.
Proof.
  intros Hwf. unfold create_run. destruct (truthy_key run) as [k|]; [|eauto].
  destruct (dget k (rs_dedupe s)) as [id|] eqn:E; [|eauto].
  apply (wf_dedupe s Hwf) in E. unfold dmem in E. simpl.
  destruct (dget id (rs_runs s)); [eauto|done].
Qed.

Lemma recoverable_true r :
  recoverable r = true <-> run_status r = QUEUED \/ run_status r = RUNNING.
Proof. unfold recoverable. by rewrite orb_true_iff, !bool_decide_eq_true. Qed.

(** Filtering a keyed dictionary's values by [p] and projecting ids lists
    exactly the keys whose value satisfies [p]. *)
Lemma keyed_filter_ids {A} (id : A -> string) (d : dict string A) (p : A -> bool) k :
  keyed id d ->
  k ∈ map id (bfilter p (dvalues d)) <-> exists x, dget k d = Some x /\ p x = true.
Proof.
  intros [Hwf Hk]. rewrite list_elem_of_fmap. split.
  - intros (x & -> & Hin). apply elem_of_bfilter in Hin as [Hin Hp].
    apply dvalues_in_dget in Hin as [k Hg]; [|done]. exists x. by rewrite (Hk k x Hg).
  - intros (x & Hg & Hp). exists x. split; [symmetry; by apply Hk|].
    apply elem_of_bfilter. split; [|done]. unfold dvalues. apply list_elem_of_fmap.
    exists (k, x). split; [done|]. by apply dget_Some_in.
Qed.

Lemma insert_run_get run steps s : dget (run_id run) (rs_runs (insert_run run steps s)) = Some run.
Proof. unfold insert_run. destruct (truthy_key run); simpl; apply dget_dset_eq. Qed.

(** Once a dedupe key is bound no call rebinds it. *)
Lemma exec_call_dedupe c s k id :
  dget k (rs_dedupe s) = Some id -> dget k (rs_dedupe (exec_call c s)) = Some id.
Proof.
  intros Hk. destruct c; simpl; try done.
  - unfold create_run. destruct (truthy_key run) as [k'|] eqn:Ek; simpl.
    + destruct (dget k' (rs_dedupe s)) eqn:E; [done|]. simpl.
      unfold insert_run. rewrite Ek. simpl. rewrite dget_dset_ne by congruence. done.
    + unfold insert_run. by rewrite Ek.
  - unfold update_run_status. by repeat case_match.
  - unfold set_current_step. by repeat case_match.
  - unfold put_steps. by case_match.
  - unfold update_step, put_steps. by repeat case_match.
  - unfold mark_token_used. by repeat case_match.
Qed.

Lemma exec_calls_dedupe cs s k id :
  dget k (rs_dedupe s) = Some id -> dget k (rs_dedupe (exec_calls cs s)) = Some id.
Proof. revert s. induction cs as [|c cs IH]; simpl; auto using exec_call_dedupe. Qed.

(** ** Single use of tokens *)

(** The call returned [True] to the holder of token [tid]. *)
Definition granted (tid : string) (c : store_call) (s : RunStore) : bool :=
  match c with
  | CMarkUsed t at_ => String.eqb t tid &&
      match snd (mark_token_used t at_ s) with Ok b => b | Err _ => false end
  | _ => false
  end.

Definition resaves (tid : string) (c : store_call) : bool :=
  match c with CSaveToken t => String.eqb (tok_id t) tid | _ => false end.

(** How many calls of a sequence were granted the token. *)
Fixpoint grants (tid : string) (cs : list store_call) (s : RunStore) : nat :=
  match cs with
  | [] => 0
  | c :: cs' => (if granted tid c s then 1 else 0) + grants tid cs' (exec_call c s)
  end%nat.

Definition token_used (tid : string) (s : RunStore) : Prop :=
  exists t, dget tid (rs_tokens s) = Some t /\ tok_is_used t = true.

Lemma granted_uses tid c s : granted tid c s = true -> token_used tid (exec_call c s).
Proof.
  destruct c; simpl; try done. unfold mark_token_used. intros H.
  apply andb_prop in H as [->%String.eqb_eq H].
  destruct (dget tid (rs_tokens s)) as [t|] eqn:E; [|done].
  destruct (tok_is_used t) eqn:U; [done|]. simpl.
  exists (with_used_at used_at t). split; [|done]. simpl. apply dget_dset_eq.
Qed.

Lemma used_not_granted tid c s : token_used tid s -> granted tid c s = false.
Proof.
  intros (t & Ht & Hu). destruct c; simpl; try done. unfold mark_token_used.
  destruct (String.eqb_spec token_id tid) as [->|]; [|done]. by rewrite Ht, Hu.
Qed.

Lemma create_run_tokens run steps s :
  rs_tokens (fst (create_run run steps s)) = rs_tokens s.
Proof.
  unfold create_run, insert_run. destruct (truthy_key run) as [k|]; [|done].
  by destruct (dget k (rs_dedupe s)).
Qed.

Lemma used_stays tid c s :
  resaves tid c = false -> token_used tid s -> token_used tid (exec_call c s).
Proof.
  intros Hr (t & Ht & Hu). destruct c; simpl in *; try (exists t; by auto).
  - exists t. by rewrite create_run_tokens.
  - exists t. unfold update_run_status. by repeat case_match.
  - exists t. unfold set_current_step. by repeat case_match.
  - exists t. unfold put_steps. by case_match.
  - exists t. unfold update_step, put_steps. by repeat case_match.
  - apply String.eqb_neq in Hr. exists t. simpl. by rewrite dget_dset_ne by congruence.
  - unfold mark_token_used. destruct (dget token_id (rs_tokens s)) as [t'|] eqn:E;
      [|exists t; by auto]. destruct (tok_is_used t') eqn:U; [exists t; by auto|].
    unfold token_used. simpl. rewrite dget_dset. case_decide; [|exists t; by auto].
    by exists (with_used_at used_at t').
Qed.

Lemma used_no_grants tid cs s :
  Forall (fun c => resaves tid c = false) cs -> token_used tid s -> grants tid cs s = 0%nat.
Proof.
  intros H. revert s. induction H as [|c cs Hc Hcs IH]; intros s Hu; [done|].
  simpl. rewrite used_not_granted by done. rewrite IH by (by apply used_stays). done.
Qed.

(** ** Properties *)

(** C6: the store's invariant.  Whatever methods have been called since the
    store was created, and whether they returned or raised, the store is well
    formed: runs, gates and tokens are filed under their own ids, every run has
    a step list and the other way round, and every dedupe key points to a
    stored run.  So [create_run] never raises, and [find_recoverable_runs]
    lists exactly the ids of the runs that are queued or running. *)
Theorem store_invariant cs :
  let s := exec_calls cs empty_run_store in
  store_wf s /\
  (forall run steps, exists r, snd (create_run run steps s) = Ok r) /\
  (forall rid ids, snd (find_recoverable_runs s) = Ok ids ->
     rid ∈ ids <-> exists r, dget rid (rs_runs s) = Some r /\
       (run_status r = QUEUED \/ run_status r = RUNNING)).
Proof.
  intros s. assert (store_wf s) as Hwf by (apply exec_calls_wf, empty_store_wf).
  split; [done|]. split; [intros; by apply create_run_total|].
  intros rid ids [= <-]. rewrite (keyed_filter_ids run_id) by (by apply wf_runs).
  split; intros (r & Hg & Hp); exists r; by rewrite recoverable_true in *.
Qed.

(** The calls since a run was last stored by [create_run]. *)
Lemma since_creation rid cs :
  exists old recent, cs = old ++ recent /\ never_recreated rid recent /\
    (old = [] \/ exists before run steps, old = before ++ [CCreateRun run steps] /\ run_id run = rid).
Proof.
  induction cs as [|c cs IH] using rev_ind; [exists [], []; by repeat constructor; left|].
  destruct (recreates rid c) eqn:E.
  - exists (cs ++ [c]), []. rewrite app_nil_r. split; [done|]. split; [constructor|]. right.
    destruct c as [run steps| | | | | | | | |]; try done. apply String.eqb_eq in E. by exists cs, run, steps.
  - destruct IH as (old & recent & -> & Hn & Ho). exists old, (recent ++ [c]).
    rewrite app_assoc. split; [done|]. split; [|done]. apply Forall_app. by repeat constructor.
Qed.

(** [create_run] of an id that is taken stores the new run over the old one,
    unless its dedupe key is known: this is how a run that ended comes back. *)
Lemma create_run_status run steps s :
  status_of (run_id run) (exec_call (CCreateRun run steps) s) =
    match truthy_key run with
    | Some k => match dget k (rs_dedupe s) with
                | Some _ => status_of (run_id run) s
                | None => Some (run_status run)
                end
    | None => Some (run_status run)
    end.
Proof.
  cbn [exec_call]. unfold create_run.
  assert (Hi : status_of (run_id run) (insert_run run steps s) = Some (run_status run)).
  { unfold insert_run, status_of. destruct (truthy_key run); simpl; by rewrite dget_dset_eq. }
  destruct (truthy_key run) as [k|]; [|done]. destruct (dget k (rs_dedupe s)) as [rid|]; [|done].
  by destruct (dget rid (rs_runs s)).
Qed.

Lemma status_stays cs s rid st :
  status_of rid s = Some st -> exists st', status_of rid (exec_calls cs s) = Some st'.
Proof.
  revert s st. induction cs as [|c cs IH]; intros s st Hst; [by exists st|]. simpl.
  assert (exists st1, status_of rid (exec_call c s) = Some st1) as [st1 H1]; [|by eapply IH].
  destruct (recreates rid c) eqn:E.
  - destruct c as [run steps| | | | | | | | |]; try done. apply String.eqb_eq in E. subst rid.
    rewrite create_run_status. repeat case_match; eauto.
  - destruct (exec_call_status c s rid st E Hst) as (st' & H & _). eauto.
Qed.

(** C7: the life cycle of a run, over any sequence of calls.  Counting from the
    last [create_run] for its id, or from the start if there is none, [st0] being
    its status then: from a terminal status no call changes it; and a queued run
    that ends rejected was running before it waited for approval, and waited
    before it was rejected.  Such a [create_run] for a taken id replaces the run by
    the new one, unless it finds its dedupe key. *)
Theorem run_lifecycle cs s rid st :
  status_of rid s = Some st ->
  exists old recent st0, cs = old ++ recent /\ never_recreated rid recent /\
    status_of rid (exec_calls old s) = Some st0 /\
    ((old = [] /\ st0 = st) \/
     exists before run steps, old = before ++ [CCreateRun run steps] /\ run_id run = rid /\
       (st0 = run_status run \/ status_of rid (exec_calls before s) = Some st0)) /\
    (run_terminal st0 = true -> status_of rid (exec_calls cs s) = Some st0) /\
    (st0 = QUEUED -> status_of rid (exec_calls cs s) = Some REJECTED ->
     exists cs1 cs2 cs3, recent = cs1 ++ cs2 ++ cs3 /\
       status_of rid (exec_calls (old ++ cs1) s) = Some RUNNING /\
       status_of rid (exec_calls (old ++ cs1 ++ cs2) s) = Some AWAITING_APPROVAL).
Proof.
  intros Hst. destruct (since_creation rid cs) as (old & recent & -> & Hn & Ho).
  assert (Hst0 : exists st0, status_of rid (exec_calls old s) = Some st0 /\
    ((old = [] /\ st0 = st) \/
     exists before run steps, old = before ++ [CCreateRun run steps] /\ run_id run = rid /\
       (st0 = run_status run \/ status_of rid (exec_calls before s) = Some st0))).
  { destruct Ho as [->|(before & run & steps & -> & Hid)]; [by exists st; split; [|left]|].
    rewrite exec_calls_app. cbn [exec_calls fold_left]. pose proof (create_run_status run steps (exec_calls before s)) as Hc.
    rewrite Hid in Hc.
    assert (Hb : exists st1, status_of rid (exec_calls before s) = Some st1) by (by eapply status_stays).
    destruct Hb as [st1 Hb]. rewrite Hb in Hc.
    assert (Hor : exists st0, status_of rid (exec_call (CCreateRun run steps) (exec_calls before s)) = Some st0 /\
      (st0 = run_status run \/ Some st1 = Some st0)).
    { rewrite Hc. repeat case_match; eexists; (split; [done|]); auto. }
    destruct Hor as (st0 & E & Hor). exists st0. split; [done|]. right. exists before, run, steps.
    rewrite Hb. auto. }
  destruct Hst0 as (st0 & H0 & Horigin). exists old, recent, st0. rewrite exec_calls_app.
  do 4 (split; [done|]). split; [intros; by apply terminal_stays|]. intros -> Hend.
  destruct (entered_from recent _ rid _ _ Hn H0 Hend) as (cs1 & c & cs2 & p & -> & Hp & Hs & _);
    [done|]. apply rejected_pred in Hs as ->.
  apply Forall_app in Hn as [Hn1 Hn2].
  destruct (entered_from cs1 _ rid _ _ Hn1 H0 Hp) as (cs3 & c' & cs4 & q & -> & Hq & Hs & _);
    [done|]. apply awaiting_pred in Hs as ->.
  exists cs3, (c' :: cs4), (c :: cs2). rewrite exec_calls_app in Hp.
  rewrite <- app_assoc, !exec_calls_app. by split_and!.
Qed.

Definition example_time : datetime := utc_datetime (ymd2ord 2026 3 9) 0.

Definition example_run : WorkflowRun :=
  mk_WorkflowRun "r1" "intake" 1 QUEUED None (mk_TriggerRef "event" "webhook" (Some "evt-1")) []
    example_time example_time None.

Definition example_calls : list store_call :=
  [CUpdateStatus example_time "r1" RUNNING None None;
   CUpdateStatus example_time "r1" AWAITING_APPROVAL None None;
   CUpdateStatus example_time "r1" REJECTED None None].

(** The same id again, without a dedupe key. *)
Definition example_rerun : WorkflowRun :=
  mk_WorkflowRun "r1" "intake" 1 QUEUED None (mk_TriggerRef "agent" "cli" None) []
    example_time example_time None.

Lemma run_lifecycle_witness :
  let s := exec_call (CCreateRun example_run []) empty_run_store in
  let again := exec_calls (example_calls ++ [CCreateRun example_rerun []]) s in
  status_of "r1" (exec_calls example_calls s) = Some REJECTED /\
  status_of "r1" again = Some QUEUED /\
  exists old recent st0, example_calls ++ [CCreateRun example_rerun []] = old ++ recent /\
    status_of "r1" (exec_calls old s) = Some st0.
Proof.
  split; [reflexivity|]. split; [reflexivity|].
  destruct (run_lifecycle (example_calls ++ [CCreateRun example_rerun []])
    (exec_call (CCreateRun example_run []) empty_run_store) "r1" QUEUED) as (old & recent & st0 & H1 & _ & H2 & _).
  - reflexivity.
  - by exists old, recent, st0.
Defined.

(** One run per dedupe key.  Once [create_run] has returned a run for a
    non-empty dedupe key, then after any further calls (that do not overwrite
    that run id) another [create_run] with the same key, whatever its run and
    steps, changes nothing and returns the stored run of the same id. *)
Lemma create_run_idempotent run1 steps1 s s1 r1 cs run2 steps2 k :
  store_wf s -> truthy_key run1 = Some k -> truthy_key run2 = Some k ->
  create_run run1 steps1 s = (s1, Ok r1) ->
  let s2 := exec_calls cs s1 in
  exists r2, create_run run2 steps2 s2 = (s2, Ok r2) /\ run_id r2 = run_id r1.
Proof.
  intros Hwf K1 K2 Hc s2.
  assert (store_wf s1) as Hwf1.
  { replace s1 with (exec_call (CCreateRun run1 steps1) s) by (simpl; by rewrite Hc).
    by apply exec_call_wf. }
  assert (dget k (rs_dedupe s1) = Some (run_id r1)) as Hk1.
  { unfold create_run in Hc. rewrite K1 in Hc. destruct (dget k (rs_dedupe s)) as [id|] eqn:E.
    - simplify_eq. destruct (dget id (rs_runs s1)) eqn:Er; simplify_eq/=.
      rewrite E. f_equal. symmetry. by eapply wf_run_id.
    - simplify_eq. unfold insert_run. rewrite K1. simpl. apply dget_dset_eq. }
  assert (store_wf s2) as Hwf2 by (by apply exec_calls_wf).
  apply (exec_calls_dedupe cs) in Hk1. fold s2 in Hk1.
  destruct (create_run_total run2 steps2 s2 Hwf2) as [r2 Hr2].
  unfold create_run in *. rewrite K2, Hk1 in *. simpl in *.
  destruct (dget (run_id r1) (rs_runs s2)) eqn:Er; simplify_eq/=.
  exists r2. split; [done|]. by apply wf_run_id in Er.
Qed.

Lemma create_run_idempotent_witness :
  exists r2, create_run example_run [] (exec_calls example_calls
      (fst (create_run example_run [] empty_run_store))) =
    (exec_calls example_calls (fst (create_run example_run [] empty_run_store)), Ok r2) /\
    run_id r2 = "r1".
Proof.
  apply (create_run_idempotent example_run [] empty_run_store
           (fst (create_run example_run [] empty_run_store)) example_run
           example_calls example_run [] "evt-1");
    [apply empty_store_wf | reflexivity | reflexivity | reflexivity].
Defined.

(** Single use.  In any sequence of calls that does not save the token
    again, [mark_token_used] grants a token at most once. *)
Lemma token_single_use tid cs s :
  Forall (fun c => resaves tid c = false) cs -> (grants tid cs s <= 1)%nat.
Proof.
  intros H. revert s. induction H as [|c cs Hc Hcs IH]; intros s; simpl; [lia|].
  destruct (granted tid c s) eqn:G; [|apply IH].
  rewrite used_no_grants; [lia|done|by apply granted_uses].
Qed.

Definition example_token : ApprovalToken :=
  mk_ApprovalToken "t1" "g1" "r1" "GATE:review" "v1" "hash" "web" example_time None.

Lemma token_single_use_witness :
  let s := exec_call (CSaveToken example_token) empty_run_store in
  grants "t1" [CMarkUsed "t1" example_time; CMarkUsed "t1" example_time] s = 1%nat /\
  (grants "t1" [CMarkUsed "t1" example_time; CMarkUsed "t1" example_time] s <= 1)%nat.
Proof.
  split; [reflexivity|]. apply (token_single_use "t1"). repeat constructor.
Defined.
