(* ===== verification/PgStore.v ===== *)
(** * PgStore: core/orchestrator/postgres_store.py and orm.py

    [PostgresRunStore]: the production run store, one definition per method, over
    the five tables of orm.py.  The database and SQLAlchemy are outside the
    repository: the class [SqlOps] has what a session of the store does (SELECT,
    SELECT with ORDER BY, and the COMMIT of the pending INSERTs and UPDATEs) and
    [SqlLaws] what is documented of them: a SELECT without ORDER BY returns its
    rows in some order; a COMMIT makes all its statements effective or none, and
    enforces the constraints orm.py declares; when it raises, the caller does not
    know which (the connection may be lost after the server committed).  A dictionary read from a JSONB
    column is taken equal to the one written, and timestamps are in UTC.  The
    autoincrement columns, which nothing reads, are left out. *)

From Stdlib Require Import ZArith Lia Ascii String List Sorted.
From stdpp Require Import base list strings.
From S2P Require Import Prelude PyTime ConnErrors Effects States RunStore.

Open Scope string_scope.
Open Scope list_scope.
Open Scope Z_scope.
Open Scope cam_scope.

(** ** The tables (orm.py) *)

Record WorkflowRunORM := mk_WorkflowRunORM {
  or_id : string;
  or_workflow : string;
  or_workflow_version : Z;
  or_status : string;
  or_current_step : option string;
  or_trigger : jdict;
  or_context : jdict;
  or_last_error : option jdict;
  or_dedupe_key : option string;
  or_created_at : datetime;
  or_updated_at : datetime }.

Record WorkflowStepStateORM := mk_WorkflowStepStateORM {
  os_run_id : string;
  os_step : string;
  os_seq : Z;
  os_status : string;
  os_attempt : Z;
  os_idem_key : string;
  os_input : option jdict;
  os_output : option jdict;
  os_error : option jdict;
  os_started_at : option datetime;
  os_ended_at : option datetime }.

Record GateRequestORM := mk_GateRequestORM {
  og_id : string;
  og_run_id : string;
  og_step : string;
  og_required_role : string;
  og_quorum : Z;
  og_status : string;
  og_channels : list string;
  og_created_at : datetime;
  og_expires_at : datetime }.

Record ApprovalDecisionORM := mk_ApprovalDecisionORM {
  od_gate_request_id : string;
  od_run_id : string;
  od_step : string;
  od_decision : string;
  od_actor : string;
  od_channel : string;
  od_token_id : string;
  od_reason : option string;
  od_decided_at : datetime }.

Record ApprovalTokenORM := mk_ApprovalTokenORM {
  ot_id : string;
  ot_gate_request_id : string;
  ot_run_id : string;
  ot_step : string;
  ot_key_id : string;
  ot_token_hash : string;
  ot_channel : string;
  ot_expires_at : datetime;
  ot_used_at : option datetime }.

(** The committed rows. *)
Record Db := mk_Db {
  db_runs : list WorkflowRunORM;
  db_steps : list WorkflowStepStateORM;
  db_gates : list GateRequestORM;
  db_tokens : list ApprovalTokenORM;
  db_decisions : list ApprovalDecisionORM }.

(** What a session has pending: [session.add] of a row, or changed columns of a
    row it loaded, which become an UPDATE of those columns by primary key (of a
    step, by its unique run and name). *)
Inductive stmt :=
| InsRun (r : WorkflowRunORM)
| InsStep (r : WorkflowStepStateORM)
| InsGate (r : GateRequestORM)
| InsToken (r : ApprovalTokenORM)
| InsDecision (r : ApprovalDecisionORM)
| UpdRun (id : string) (f : WorkflowRunORM -> WorkflowRunORM)
| UpdStep (run_id step : string) (f : WorkflowStepStateORM -> WorkflowStepStateORM)
| UpdGate (id : string) (f : GateRequestORM -> GateRequestORM)
| UpdToken (id : string) (f : ApprovalTokenORM -> ApprovalTokenORM).

Definition run_with_id (id : string) (r : WorkflowRunORM) : bool := String.eqb (or_id r) id.
Definition gate_with_id (id : string) (r : GateRequestORM) : bool := String.eqb (og_id r) id.
Definition token_with_id (id : string) (r : ApprovalTokenORM) : bool := String.eqb (ot_id r) id.
Definition step_at (run_id step : string) (r : WorkflowStepStateORM) : bool :=
  String.eqb (os_run_id r) run_id && String.eqb (os_step r) step.

(** [dedupe_key ... unique=True]: NULLs are distinct. *)
Definition same_dedupe (k : option string) (r : WorkflowRunORM) : bool :=
  match k, or_dedupe_key r with Some a, Some b => String.eqb a b | _, _ => false end.

Definition update_where {A} (p : A -> bool) (f : A -> A) (l : list A) : option (list A) :=
  if existsb p l then Some (map (fun x => if p x then f x else x) l) else None.

(** What the database does with one statement under the constraints orm.py
    declares: primary keys, the unique dedupe key, the unique run and step, and
    the foreign keys.  Every column of a row is given, so NOT NULL and the
    defaults play no part. *)
Definition apply_stmt (st : stmt) (d : Db) : option Db :=
  match st with
  | InsRun r =>
      if existsb (run_with_id (or_id r)) (db_runs d) || existsb (same_dedupe (or_dedupe_key r)) (db_runs d)
      then None
      else Some (mk_Db (db_runs d ++ [r]) (db_steps d) (db_gates d) (db_tokens d) (db_decisions d))
  | InsStep r =>
      if existsb (run_with_id (os_run_id r)) (db_runs d) &&
         negb (existsb (step_at (os_run_id r) (os_step r)) (db_steps d))
      then Some (mk_Db (db_runs d) (db_steps d ++ [r]) (db_gates d) (db_tokens d) (db_decisions d))
      else None
  | InsGate r =>
      if existsb (run_with_id (og_run_id r)) (db_runs d) && negb (existsb (gate_with_id (og_id r)) (db_gates d))
      then Some (mk_Db (db_runs d) (db_steps d) (db_gates d ++ [r]) (db_tokens d) (db_decisions d))
      else None
  | InsToken r =>
      if existsb (run_with_id (ot_run_id r)) (db_runs d) &&
         existsb (gate_with_id (ot_gate_request_id r)) (db_gates d) &&
         negb (existsb (token_with_id (ot_id r)) (db_tokens d))
      then Some (mk_Db (db_runs d) (db_steps d) (db_gates d) (db_tokens d ++ [r]) (db_decisions d))
      else None
  | InsDecision r =>
      if existsb (run_with_id (od_run_id r)) (db_runs d) &&
         existsb (gate_with_id (od_gate_request_id r)) (db_gates d)
      then Some (mk_Db (db_runs d) (db_steps d) (db_gates d) (db_tokens d) (db_decisions d ++ [r]))
      else None
  | UpdRun id f =>
      option_map (fun l => mk_Db l (db_steps d) (db_gates d) (db_tokens d) (db_decisions d))
        (update_where (run_with_id id) f (db_runs d))
  | UpdStep rid step f =>
      option_map (fun l => mk_Db (db_runs d) l (db_gates d) (db_tokens d) (db_decisions d))
        (update_where (step_at rid step) f (db_steps d))
  | UpdGate id f =>
      option_map (fun l => mk_Db (db_runs d) (db_steps d) l (db_tokens d) (db_decisions d))
        (update_where (gate_with_id id) f (db_gates d))
  | UpdToken id f =>
      option_map (fun l => mk_Db (db_runs d) (db_steps d) (db_gates d) l (db_decisions d))
        (update_where (token_with_id id) f (db_tokens d))
  end.

Fixpoint apply_stmts (ss : list stmt) (d : Db) : option Db :=
  match ss with
  | [] => Some d
  | st :: ss' => match apply_stmt st d with Some d' => apply_stmts ss' d' | None => None end
  end.

(** ** The database session *)

Class SqlOps (D : Type) := {
  sql_select : forall {A : Type}, (Db -> list A) -> M D (list A);
  sql_select_by : forall {A : Type}, (A -> Z) -> (Db -> list A) -> M D (list A);
  sql_commit : list stmt -> M D unit;
  sql_rows : D -> Db }.

Class SqlLaws (D : Type) `{SqlOps D} := {
  select_keeps {A} (q : Db -> list A) d : sql_rows (fst (sql_select q d)) = sql_rows d;
  select_val {A} (q : Db -> list A) d l : snd (sql_select q d) = Ok l -> Permutation l (q (sql_rows d));
  select_by_keeps {A} (k : A -> Z) q d : sql_rows (fst (sql_select_by k q d)) = sql_rows d;
  select_by_val {A} (k : A -> Z) q d l : snd (sql_select_by k q d) = Ok l ->
    Permutation l (q (sql_rows d)) /\ StronglySorted (fun a b => k a <= k b) l;
  commit_ok ss d d' : sql_commit ss d = (d', Ok tt) -> apply_stmts ss (sql_rows d) = Some (sql_rows d');
  commit_err ss d d' e : sql_commit ss d = (d', Err e) ->
    sql_rows d' = sql_rows d \/ apply_stmts ss (sql_rows d) = Some (sql_rows d') }.

(** A database that fails only on a violated constraint. *)
Definition IntegrityError : exn := OtherError "IntegrityError" "constraint violated".

#[export] Instance mem_db_ops : SqlOps Db := {
  sql_select _ q := gets q;
  sql_select_by _ k q := gets (fun d => py_sorted (fun a b => k a <=? k b) (q d));
  sql_commit ss := fun d =>
    match apply_stmts ss d with Some d' => (d', Ok tt) | None => (d, Err IntegrityError) end;
  sql_rows d := d }.

#[export] Instance mem_db_laws : SqlLaws Db.
Proof.
  split; simpl.
  - done.
  - by intros A q d l [= <-].
  - done.
  - intros A k q d l [= <-]. split; [apply py_sorted_perm|].
    assert (StronglySorted (fun a b => (k a <=? k b) = true)
              (py_sorted (fun a b => k a <=? k b) (q d))) as Hs.
    { apply py_sorted_ok.
      - intros x y. destruct (Z.leb_spec (k x) (k y)); [by left|]. right. apply Z.leb_le. lia.
      - intros x y z Hx Hy. apply Z.leb_le. apply Z.leb_le in Hx, Hy. lia. }
    induction Hs as [|x xs Hs IH Hf]; constructor; [done|].
    eapply List.Forall_impl; [|exact Hf]. intros a Ha. simpl in Ha. by apply Z.leb_le.
  - intros ss d d'. by destruct (apply_stmts ss d); intros [= <-].
  - intros ss d d' e. destruct (apply_stmts ss d); intros [= <-]. by left.
Qed.

(** ** Values of the enumerations *)

Definition run_status_of (v : string) : res RunStatus :=
  or_raise (ValueError v) (find_first (fun s => String.eqb (run_status_value s) v)
    [QUEUED; RUNNING; AWAITING_APPROVAL; SUCCEEDED; PARKED; REJECTED; CANCELLED]).

Definition step_status_of (v : string) : res StepStatus :=
  or_raise (ValueError v) (find_first (fun s => String.eqb (step_status_value s) v)
    [SPENDING; SRUNNING; SSUCCEEDED; SFAILED; SCOMPENSATED; SSKIPPED]).

Definition gate_status_of (v : string) : res GateStatus :=
  or_raise (ValidationError v) (find_first (fun s => String.eqb (gate_status_value s) v)
    [GPending; GApproved; GRejected; GExpired]).

Definition decision_value (d : Decision) : string :=
  match d with Approve => "approve" | Reject => "reject" end.

(** ** Mapping helpers *)

(** [model_dump(mode="json")] and [model_validate] of the two nested models. *)
Definition dump_trigger (t : TriggerRef) : jdict :=
  [("kind", JStr (tr_kind t)); ("source", JStr (tr_source t)); ("dedupe_key", jopt (tr_dedupe_key t))].

Definition validate_trigger (d : jdict) : res TriggerRef :=
  letr! kind := str_field "kind" d in
  if str_in kind ["event"; "schedule"; "agent"] then
    letr! source := str_field "source" d in
    letr! key := opt_str_field "dedupe_key" d in
    Ok (mk_TriggerRef kind source key)
  else Err (ValidationError "kind").

Definition dump_error (e : StepError) : jdict :=
  [("error_class", JStr (se_error_class e)); ("detail", JStr (se_detail e));
   ("attempt", JInt (se_attempt e)); ("retryable", JBool (se_retryable e))].

Definition validate_error (d : jdict) : res StepError :=
  letr! cls := str_field "error_class" d in
  letr! detail := str_field "detail" d in
  match dget "attempt" d, dget "retryable" d with
  | Some (JInt n), Some (JBool b) => Ok (mk_StepError cls detail n b)
  | _, _ => Err (ValidationError "StepError")
  end.

(** [StepError.model_validate(x) if x else None] *)
Definition error_of (o : option jdict) : res (option StepError) :=
  match o with
  | Some (kv :: d) => letr! e := validate_error (kv :: d) in Ok (Some e)
  | _ => Ok None
  end.

Definition run_to_orm (run : WorkflowRun) : WorkflowRunORM :=
  mk_WorkflowRunORM (run_id run) (run_workflow run) (run_workflow_version run)
    (run_status_value (run_status run)) (run_current_step run) (dump_trigger (run_trigger run))
    (run_context run) (option_map dump_error (run_last_error run)) (tr_dedupe_key (run_trigger run))
    (run_created_at run) (run_updated_at run).

Definition run_from_orm (r : WorkflowRunORM) : res WorkflowRun :=
  letr! status := run_status_of (or_status r) in
  letr! trigger := validate_trigger (or_trigger r) in
  letr! last_error := error_of (or_last_error r) in
  Ok (mk_WorkflowRun (or_id r) (or_workflow r) (or_workflow_version r) status (or_current_step r)
        trigger (or_context r) (or_created_at r) (or_updated_at r) last_error).

Definition step_to_orm (st : StepState) : WorkflowStepStateORM :=
  mk_WorkflowStepStateORM (st_run_id st) (st_step st) (st_seq st) (step_status_value (st_status st))
    (st_attempt st) (st_idem_key st) (st_input st) (st_output st)
    (option_map dump_error (st_error st)) (st_started_at st) (st_ended_at st).

Definition step_from_orm (r : WorkflowStepStateORM) : res StepState :=
  letr! status := step_status_of (os_status r) in
  letr! error := error_of (os_error r) in
  Ok (mk_StepState (os_run_id r) (os_step r) (os_seq r) status (os_attempt r) (os_idem_key r)
        (os_input r) (os_output r) error (os_started_at r) (os_ended_at r)).

Definition gate_to_orm (g : GateRequest) : GateRequestORM :=
  mk_GateRequestORM (gr_id g) (gr_run_id g) (gr_step g) (gr_required_role g) (gr_quorum g)
    (gate_status_value (gr_status g)) (gr_channels g) (gr_created_at g) (gr_expires_at g).

Definition gate_from_orm (r : GateRequestORM) : res GateRequest :=
  letr! status := gate_status_of (og_status r) in
  Ok (mk_GateRequest (og_id r) (og_run_id r) (og_step r) (og_required_role r) (og_quorum r) status
        (og_channels r) (og_created_at r) (og_expires_at r)).

Definition token_to_orm (t : ApprovalToken) : ApprovalTokenORM :=
  mk_ApprovalTokenORM (tok_id t) (tok_gate_request_id t) (tok_run_id t) (tok_step t) (tok_key_id t)
    (tok_token_hash t) (tok_channel t) (tok_expires_at t) (tok_used_at t).

Definition token_from_orm (r : ApprovalTokenORM) : ApprovalToken :=
  mk_ApprovalToken (ot_id r) (ot_gate_request_id r) (ot_run_id r) (ot_step r) (ot_key_id r)
    (ot_token_hash r) (ot_channel r) (ot_expires_at r) (ot_used_at r).

Definition decision_to_orm (d : ApprovalDecision) : ApprovalDecisionORM :=
  mk_ApprovalDecisionORM (ad_gate_request_id d) (ad_run_id d) (ad_step d)
    (decision_value (ad_decision d)) (ad_actor d) (ad_channel d) (ad_token_id d) (ad_reason d)
    (ad_decided_at d).

(** ** The store *)

Section PgStore.
Context {D : Type} {SO : SqlOps D}.

(** [session.scalar(select(...))]: the first row, if any. *)
Definition scalar {A} (q : Db -> list A) : M D (option A) :=
  let! l := sql_select q in ret (head l).

Definition runs_where (p : WorkflowRunORM -> bool) (d : Db) := bfilter p (db_runs d).
Definition steps_where (p : WorkflowStepStateORM -> bool) (d : Db) := bfilter p (db_steps d).
Definition gates_where (p : GateRequestORM -> bool) (d : Db) := bfilter p (db_gates d).
Definition tokens_where (p : ApprovalTokenORM -> bool) (d : Db) := bfilter p (db_tokens d).

(** [key] of [if run.trigger.dedupe_key:] is [truthy_key run]. *)
Definition pg_create_run (run : WorkflowRun) (steps : list StepState) : M D WorkflowRun :=
  let! existing :=
    match truthy_key run with
    | Some k => scalar (runs_where (same_dedupe (Some k)))
    | None => ret None
    end in
  match existing with
  | Some r => lift_res (run_from_orm r)
  | None =>
      sql_commit (InsRun (run_to_orm run) :: map (fun st => InsStep (step_to_orm st)) steps) ;;
      ret run
  end.

Definition from_orm {A B} (f : A -> res B) (o : option A) : res (option B) :=
  match o with Some r => letr! x := f r in Ok (Some x) | None => Ok None end.

Definition pg_get_run (rid : string) : M D (option WorkflowRun) :=
  let! r := scalar (runs_where (run_with_id rid)) in lift_res (from_orm run_from_orm r).

Definition row_with_status (now : datetime) (status : RunStatus) (current_step : option string)
    (last_error : option StepError) (r : WorkflowRunORM) : WorkflowRunORM :=
  mk_WorkflowRunORM (or_id r) (or_workflow r) (or_workflow_version r) (run_status_value status)
    (match current_step with Some c => Some c | None => or_current_step r end)
    (or_trigger r) (or_context r)
    (match last_error with Some e => Some (dump_error e) | None => or_last_error r end)
    (or_dedupe_key r) (or_created_at r) now.

Definition pg_update_run_status (now : datetime) (rid : string) (status : RunStatus)
    (current_step : option string) (last_error : option StepError) : M D unit :=
  let! r := scalar (runs_where (run_with_id rid)) in
  match r with
  | None => raise (run_not_found rid)
  | Some r =>
      let! current := lift_res (run_status_of (or_status r)) in
      if is_legal_run_transition current status then
        sql_commit [UpdRun rid (row_with_status now status current_step last_error)]
      else raise (IllegalTransitionError ("Run " +:+ rid) (run_status_value current)
                    (run_status_value status))
  end.

Definition row_with_current_step (now : datetime) (step : string) (r : WorkflowRunORM)
    : WorkflowRunORM :=
  mk_WorkflowRunORM (or_id r) (or_workflow r) (or_workflow_version r) (or_status r) (Some step)
    (or_trigger r) (or_context r) (or_last_error r) (or_dedupe_key r) (or_created_at r) now.

Definition pg_set_current_step (now : datetime) (rid step : string) : M D unit :=
  let! r := scalar (runs_where (run_with_id rid)) in
  match r with
  | None => raise (run_not_found rid)
  | Some _ => sql_commit [UpdRun rid (row_with_current_step now step)]
  end.

Definition step_not_found (rid step : string) : exn :=
  KeyError ("Step " +:+ step +:+ " not found in run " +:+ rid +:+ ".").

Definition row_succeeded (now : datetime) (r : WorkflowStepStateORM) : WorkflowStepStateORM :=
  mk_WorkflowStepStateORM (os_run_id r) (os_step r) (os_seq r) (step_status_value SSUCCEEDED)
    (os_attempt r) (os_idem_key r) (os_input r) (os_output r) (os_error r) (os_started_at r) (Some now).

Definition pg_advance_gate_step (now : datetime) (rid step_name : string) : M D unit :=
  let! r := scalar (steps_where (step_at rid step_name)) in
  match r with
  | None => raise (step_not_found rid step_name)
  | Some _ => sql_commit [UpdStep rid step_name (row_succeeded now)]
  end.

Definition row_has_status (ss : list RunStatus) (r : WorkflowRunORM) : bool :=
  str_in (or_status r) (map run_status_value ss).

Definition pg_find_queued_runs : M D (list string) :=
  sql_select (fun d => map or_id (runs_where (row_has_status [QUEUED]) d)).

Definition pg_find_recoverable_runs : M D (list string) :=
  sql_select (fun d => map or_id (runs_where (row_has_status [QUEUED; RUNNING]) d)).

Definition step_of_run (rid : string) (r : WorkflowStepStateORM) : bool := String.eqb (os_run_id r) rid.

Definition pg_get_steps (rid : string) : M D (list StepState) :=
  let! rows := sql_select_by os_seq (steps_where (step_of_run rid)) in
  lift_res (map_res step_from_orm rows).

Definition pg_get_step (rid step_name : string) : M D (option StepState) :=
  let! r := scalar (steps_where (step_at rid step_name)) in lift_res (from_orm step_from_orm r).

(** The columns [update_step] assigns. *)
Definition row_with_step (st : StepState) (r : WorkflowStepStateORM) : WorkflowStepStateORM :=
  mk_WorkflowStepStateORM (os_run_id r) (os_step r) (os_seq r) (step_status_value (st_status st))
    (st_attempt st) (os_idem_key r) (st_input st) (st_output st)
    (option_map dump_error (st_error st)) (st_started_at st) (st_ended_at st).

Definition pg_update_step (st : StepState) : M D unit :=
  let! r := scalar (steps_where (step_at (st_run_id st) (st_step st))) in
  match r with
  | None => raise (step_not_found (st_run_id st) (st_step st))
  | Some r =>
      let! current := lift_res (step_status_of (os_status r)) in
      if is_legal_step_transition current (st_status st) then
        sql_commit [UpdStep (st_run_id st) (st_step st) (row_with_step st)]
      else raise (IllegalTransitionError ("Step " +:+ st_step st) (step_status_value current)
                    (step_status_value (st_status st)))
  end.

Definition pg_create_gate_request (g : GateRequest) : M D GateRequest :=
  sql_commit [InsGate (gate_to_orm g)] ;; ret g.

Definition pg_get_gate_request (gid : string) : M D (option GateRequest) :=
  let! r := scalar (gates_where (gate_with_id gid)) in lift_res (from_orm gate_from_orm r).

(** The columns [update_gate_request] assigns. *)
Definition row_with_gate (g : GateRequest) (r : GateRequestORM) : GateRequestORM :=
  mk_GateRequestORM (og_id r) (og_run_id r) (og_step r) (gr_required_role g) (gr_quorum g)
    (gate_status_value (gr_status g)) (og_channels r) (og_created_at r) (og_expires_at r).

Definition pg_update_gate_request (g : GateRequest) : M D unit :=
  let! r := scalar (gates_where (gate_with_id (gr_id g))) in
  match r with
  | None => raise (KeyError ("Gate " +:+ gr_id g +:+ " not found."))
  | Some _ => sql_commit [UpdGate (gr_id g) (row_with_gate g)]
  end.

Definition pg_save_token (t : ApprovalToken) : M D unit := sql_commit [InsToken (token_to_orm t)].

Definition pg_get_token (tid : string) : M D (option ApprovalToken) :=
  let! r := scalar (tokens_where (token_with_id tid)) in ret (option_map token_from_orm r).

Definition row_used_at (used_at : datetime) (r : ApprovalTokenORM) : ApprovalTokenORM :=
  mk_ApprovalTokenORM (ot_id r) (ot_gate_request_id r) (ot_run_id r) (ot_step r) (ot_key_id r)
    (ot_token_hash r) (ot_channel r) (ot_expires_at r) (Some used_at).

(** The SELECT of [mark_token_used] and its test: may this caller use the token? *)
Definition token_free (tid : string) : M D bool :=
  let! r := scalar (tokens_where (token_with_id tid)) in
  ret (match r with
       | Some r => match ot_used_at r with Some _ => false | None => true end
       | None => false
       end).

Definition pg_mark_token_used (tid : string) (used_at : datetime) : M D bool :=
  let! free := token_free tid in
  if free then sql_commit [UpdToken tid (row_used_at used_at)] ;; ret true else ret false.

Definition pg_save_approval_decision (d : ApprovalDecision) : M D unit :=
  sql_commit [InsDecision (decision_to_orm d)].

End PgStore.
