(* ===== verification/PgRefine.v ===== *)
(** * PgRefine: the PostgreSQL store refines the in-memory store

    [pg_rel] relates the committed rows of [PgStore] to a [RunStore.RunStore]: the
    tables hold exactly the encodings of the stored records.  Every mutating
    method that returns does what the in-memory method does to the related store
    and returns the same value; one that raises has that whole effect or none; and
    every query answers what the in-memory query answers.  So the theorems of
    [RunStore] hold of the production store.  The production updates leave some
    columns alone ([as_stored] is the in-memory call with the same effect). *)

From Stdlib Require Import ZArith Lia Ascii String List Sorted.
From stdpp Require Import base list strings.
From S2P Require Import Prelude PyTime ConnErrors Effects States RunStore PgStore.

Open Scope string_scope.
Open Scope list_scope.
Open Scope Z_scope.
Open Scope cam_scope.

(** ** Lists and dictionaries as tables *)

Lemma bfilter_map {A B} (p : B -> bool) (f : A -> B) l :
  bfilter p (map f l) = map f (bfilter (fun x => p (f x)) l).
Proof. induction l as [|x l IH]; simpl; [done|]. rewrite IH. by destruct (p (f x)). Qed.

Lemma bfilter_ext {A} (p q : A -> bool) l :
  (forall x, x ∈ l -> p x = q x) -> bfilter p l = bfilter q l.
Proof.
  induction l as [|x l IH]; simpl; [done|]. intros H. rewrite (H x) by left.
  rewrite IH; [done|]. intros y Hy. apply H. by right.
Qed.

Lemma existsb_bfilter {A} (p : A -> bool) l :
  existsb p l = match bfilter p l with [] => false | _ => true end.
Proof. induction l as [|x l IH]; simpl; [done|]. by destruct (p x). Qed.

Lemma perm_singleton_head {A} (l : list A) (o : option A) :
  Permutation l (match o with Some x => [x] | None => [] end) -> head l = o.
Proof.
  destruct o as [x|]; intros H.
  - apply Permutation_sym, Permutation_singleton_l in H. by subst.
  - by apply Permutation_sym, Permutation_nil in H; subst.
Qed.

Section KeyedTable.
Context {A : Type} (id : A -> string).
Implicit Types (d : dict string A).

Lemma keyed_cons k x d :
  keyed id ((k, x) :: d) -> id x = k /\ (k ∉ dkeys d) /\ keyed id d.
Proof.
  intros [Hwf Hk]. unfold dict_wf, dkeys in *. csimpl in Hwf.
  apply NoDup_cons in Hwf as [Hni Hnd]. split; [|split; [done|split; [done|]]].
  - apply Hk. simpl. by rewrite decide_True.
  - intros k' x' Hx. apply Hk. simpl. rewrite decide_False; [done|]. intros ->.
    apply dget_Some_in in Hx. apply Hni, list_elem_of_fmap. by exists (k, x').
Qed.

Lemma keyed_values_ne k d y : keyed id d -> k ∉ dkeys d -> y ∈ dvalues d -> String.eqb (id y) k = false.
Proof.
  intros [Hwf Hk] Hni Hy. apply String.eqb_neq. intros <-.
  apply dvalues_in_dget in Hy as [k' Hg]; [|done]. rewrite (Hk _ _ Hg) in Hni.
  apply Hni. apply dmem_true. unfold dmem. by rewrite Hg.
Qed.

(** A SELECT by primary key finds the value filed under the key. *)
Lemma keyed_select k d : keyed id d ->
  bfilter (fun x => String.eqb (id x) k) (dvalues d) =
    match dget k d with Some x => [x] | None => [] end.
Proof.
  unfold dvalues. induction d as [|[k' x] d IH]; csimpl; [done|]. intros Hk.
  apply keyed_cons in Hk as (<- & Hni & Hk). specialize (IH Hk). rewrite String.eqb_sym.
  destruct (String.eqb_spec k (id x)) as [->|Hne].
  - rewrite decide_True by done. rewrite IH.
    by rewrite (proj2 (dget_None_keys (id x) d) Hni).
  - rewrite decide_False by done. exact IH.
Qed.

(** An UPDATE by primary key. *)
Lemma keyed_update k x d y : keyed id d -> dget k d = Some y ->
  dvalues (dset k x d) = map (fun z => if String.eqb (id z) k then x else z) (dvalues d).
Proof.
  unfold dvalues. induction d as [|[k' z] d IH]; csimpl; [done|]. intros Hk.
  apply keyed_cons in Hk as (<- & Hni & Hk). destruct (decide (k = id z)) as [->|Hne].
  - intros _. csimpl. rewrite String.eqb_refl. f_equal. symmetry.
    rewrite <- (map_id (d.*2)) at 2. apply map_ext_in. intros y' Hy%list_elem_of_In.
    by rewrite (keyed_values_ne (id z) d y' Hk Hni Hy).
  - intros Hg. csimpl. rewrite (proj2 (String.eqb_neq (id z) k)) by congruence.
    by rewrite IH.
Qed.

End KeyedTable.

(** An INSERT under a fresh key. *)
Lemma dvalues_dset_new {K V} `{EqDecision K} (k : K) (v : V) d :
  dget k d = None -> dvalues (dset k v d) = dvalues d ++ [v].
Proof.
  unfold dvalues. induction d as [|[k' v'] d IH]; csimpl; [done|].
  case_decide; [done|]. intros Hg. csimpl. by rewrite IH.
Qed.

(** ** Round trips of the mapping layer *)

Definition trigger_ok (t : TriggerRef) : Prop := str_in (tr_kind t) ["event"; "schedule"; "agent"] = true.

Lemma run_status_roundtrip s : run_status_of (run_status_value s) = Ok s.
Proof. by destruct s. Qed.

Lemma step_status_roundtrip s : step_status_of (step_status_value s) = Ok s.
Proof. by destruct s. Qed.

Lemma error_roundtrip o : error_of (option_map dump_error o) = Ok o.
Proof. by destruct o as [[]|]. Qed.

Lemma trigger_roundtrip t : trigger_ok t -> validate_trigger (dump_trigger t) = Ok t.
Proof. unfold trigger_ok, validate_trigger. simpl. intros ->. by destruct t as [k s [o|]]. Qed.

Lemma run_roundtrip w : trigger_ok (run_trigger w) -> run_from_orm (run_to_orm w) = Ok w.
Proof.
  intros Ht. unfold run_from_orm. simpl or_status. rewrite run_status_roundtrip. simpl.
  rewrite trigger_roundtrip, error_roundtrip by done. by destruct w.
Qed.

Lemma step_roundtrip st : step_from_orm (step_to_orm st) = Ok st.
Proof.
  unfold step_from_orm. simpl os_status. rewrite step_status_roundtrip. simpl.
  rewrite error_roundtrip. by destruct st.
Qed.

Lemma gate_roundtrip g : gate_from_orm (gate_to_orm g) = Ok g.
Proof. destruct g as [? ? ? ? ? st ? ? ?]. by destruct st. Qed.

Lemma token_roundtrip t : token_from_orm (token_to_orm t) = t.
Proof. by destruct t. Qed.

Lemma steps_roundtrip l : map_res step_from_orm (map step_to_orm l) = Ok l.
Proof. induction l as [|st l IH]; simpl; [done|]. by rewrite step_roundtrip, IH. Qed.

(** ** The relation *)

(** A run's steps: its own, in strictly ascending order, with distinct names. *)
Record steps_ok (rid : string) (l : list StepState) : Prop := mk_steps_ok {
  so_run : List.Forall (fun st => st_run_id st = rid) l;
  so_seq : StronglySorted (fun a b => st_seq a < st_seq b) l;
  so_names : NoDup (map st_step l) }.

Definition all_steps (s : RunStore) : list StepState := concat (dvalues (rs_steps s)).

Record pg_rel (d : Db) (s : RunStore) : Prop := mk_pg_rel {
  rel_wf : store_wf s;
  rel_steps_wf : dict_wf (rs_steps s);
  rel_steps_ok : forall rid l, dget rid (rs_steps s) = Some l -> steps_ok rid l;
  rel_trigger : forall rid w, dget rid (rs_runs s) = Some w -> trigger_ok (run_trigger w);
  rel_dedupe : forall k rid, dget k (rs_dedupe s) = Some rid <->
    exists w, dget rid (rs_runs s) = Some w /\ truthy_key w = Some k;
  rel_runs : Permutation (db_runs d) (map run_to_orm (dvalues (rs_runs s)));
  rel_steps : Permutation (db_steps d) (map step_to_orm (all_steps s));
  rel_gates : Permutation (db_gates d) (map gate_to_orm (dvalues (rs_gates s)));
  rel_tokens : Permutation (db_tokens d) (map token_to_orm (dvalues (rs_tokens s)));
  rel_decisions : db_decisions d = map decision_to_orm (rs_decisions s) }.

Lemma pg_rel_empty : pg_rel (mk_Db [] [] [] [] []) empty_run_store.
Proof.
  split; simpl; try done; [apply empty_store_wf | apply dict_wf_nil |].
  intros k rid. split; [done|]. by intros (w & ? & _).
Qed.

Definition opt_list {A} (o : option A) : list A := match o with Some x => [x] | None => [] end.

Lemma rel_select_run d s rid : pg_rel d s ->
  Permutation (runs_where (run_with_id rid) d) (map run_to_orm (opt_list (dget rid (rs_runs s)))).
Proof.
  intros H. unfold runs_where. rewrite (bfilter_perm _ _ _ (rel_runs _ _ H)), bfilter_map.
  change (fun x => run_with_id rid (run_to_orm x)) with (fun w => String.eqb (run_id w) rid).
  by rewrite keyed_select by apply H.
Qed.

Lemma rel_select_gate d s gid : pg_rel d s ->
  Permutation (gates_where (gate_with_id gid) d) (map gate_to_orm (opt_list (dget gid (rs_gates s)))).
Proof.
  intros H. unfold gates_where. rewrite (bfilter_perm _ _ _ (rel_gates _ _ H)), bfilter_map.
  change (fun x => gate_with_id gid (gate_to_orm x)) with (fun w => String.eqb (gr_id w) gid).
  by rewrite keyed_select by apply H.
Qed.

Lemma rel_select_token d s tid : pg_rel d s ->
  Permutation (tokens_where (token_with_id tid) d) (map token_to_orm (opt_list (dget tid (rs_tokens s)))).
Proof.
  intros H. unfold tokens_where. rewrite (bfilter_perm _ _ _ (rel_tokens _ _ H)), bfilter_map.
  change (fun x => token_with_id tid (token_to_orm x)) with (fun w => String.eqb (tok_id w) tid).
  by rewrite keyed_select by apply H.
Qed.

(** The steps of one run among those of all runs. *)
Lemma concat_select rid (ss : dict string (list StepState)) :
  dict_wf ss -> (forall r l, dget r ss = Some l -> List.Forall (fun st => st_run_id st = r) l) ->
  bfilter (fun st => String.eqb (st_run_id st) rid) (concat (dvalues ss)) =
    match dget rid ss with Some l => l | None => [] end.
Proof.
  unfold dict_wf, dkeys, dvalues. induction ss as [|[r l] ss IH]; csimpl; [done|].
  intros [Hni Hnd]%NoDup_cons Hall. rewrite bfilter_app.
  assert (List.Forall (fun st => st_run_id st = r) l) as Hl
    by (apply Hall; by rewrite decide_True).
  rewrite IH; [|done|].
  2: { intros r' l' Hg. apply Hall. rewrite decide_False; [done|]. intros ->.
       apply dget_Some_in in Hg. apply Hni, list_elem_of_fmap. by exists (r, l'). }
  destruct (decide (rid = r)) as [->|Hne].
  - rewrite (proj2 (dget_None_keys r ss) Hni), app_nil_r. clear -Hl.
    induction Hl as [|st l Hst Hl IH]; simpl; [done|]. by rewrite Hst, String.eqb_refl, IH.
  - assert (bfilter (fun st => String.eqb (st_run_id st) rid) l = []) as ->; [|done].
    clear -Hl Hne. induction Hl as [|st l Hst Hl IH]; simpl; [done|].
    rewrite Hst, (proj2 (String.eqb_neq r rid)) by congruence. done.
Qed.

Lemma rel_select_steps d s rid : pg_rel d s ->
  Permutation (steps_where (step_of_run rid) d) (map step_to_orm (steps_of rid s)).
Proof.
  intros H. unfold steps_where. rewrite (bfilter_perm _ _ _ (rel_steps _ _ H)), bfilter_map.
  change (fun x => step_of_run rid (step_to_orm x)) with (fun w => String.eqb (st_run_id w) rid).
  unfold all_steps. rewrite concat_select; [done|apply H|].
  intros r l Hl. apply (so_run r). by apply (rel_steps_ok _ _ H).
Qed.

Lemma find_first_unique name l :
  NoDup (map st_step l) ->
  bfilter (step_named name) l = opt_list (find_first (step_named name) l).
Proof.
  induction l as [|st l IH]; csimpl; [done|]. intros [Hni Hnd]%NoDup_cons.
  destruct (step_named name st) eqn:E; [|by apply IH]. simpl. f_equal.
  unfold step_named in E. apply String.eqb_eq in E as <-.
  clear IH Hnd. induction l as [|st' l IH]; csimpl; [done|]. csimpl in Hni.
  apply not_elem_of_cons in Hni as [Hne Hni]. unfold step_named at 1.
  rewrite (proj2 (String.eqb_neq (st_step st') (st_step st))) by congruence. by apply IH.
Qed.

Lemma rel_names d s rid : pg_rel d s -> NoDup (map st_step (steps_of rid s)).
Proof.
  intros H. unfold steps_of. destruct (dget rid (rs_steps s)) as [l|] eqn:E; [|constructor].
  by apply (so_names rid), (rel_steps_ok _ _ H).
Qed.

Lemma bfilter_bfilter {A} (p q : A -> bool) l : bfilter p (bfilter q l) = bfilter (fun x => q x && p x) l.
Proof.
  induction l as [|x l IH]; simpl; [done|]. destruct (q x); simpl; [destruct (p x)|]; congruence.
Qed.

Lemma rel_select_step d s rid name : pg_rel d s ->
  Permutation (steps_where (step_at rid name) d)
    (map step_to_orm (opt_list (find_first (step_named name) (steps_of rid s)))).
Proof.
  intros H. rewrite <- find_first_unique by (by eapply rel_names).
  change (step_named name) with (fun st => String.eqb (os_step (step_to_orm st)) name).
  rewrite <- (bfilter_map (fun r => String.eqb (os_step r) name)).
  rewrite <- (bfilter_perm _ _ _ (rel_select_steps d s rid H)).
  unfold steps_where. by rewrite bfilter_bfilter.
Qed.

(** ** Statements *)

Lemma update_where_perm {A B} (enc : B -> A) p f g rows rows' L :
  Permutation rows (map enc L) -> update_where p f rows = Some rows' ->
  (forall x, x ∈ L -> (if p (enc x) then f (enc x) else enc x) = enc (g x)) ->
  Permutation rows' (map enc (map g L)).
Proof.
  unfold update_where. destruct (existsb p rows); [|done]. intros Hp [= <-] Hg.
  rewrite Hp, !map_map.
  rewrite (map_ext_in _ (fun x => enc (g x))); [done|]. intros x Hx%list_elem_of_In. by apply Hg.
Qed.

Lemma update_keyed_perm {A B} (enc : B -> A) (id : B -> string) p f rows rows' d k y y' :
  keyed id d -> dget k d = Some y -> f (enc y) = enc y' ->
  (forall x, p (enc x) = String.eqb (id x) k) ->
  Permutation rows (map enc (dvalues d)) -> update_where p f rows = Some rows' ->
  Permutation rows' (map enc (dvalues (dset k y' d))).
Proof.
  intros Hk Hg Hf Hp Hperm Hu. rewrite (keyed_update id k y' d y Hk Hg).
  eapply update_where_perm; [exact Hperm | exact Hu |]. intros x Hx. rewrite Hp.
  destruct (String.eqb_spec (id x) k) as [Hid|]; [|done]. rewrite <- Hf. do 2 f_equal.
  destruct Hk as [Hwf Hk]. apply dvalues_in_dget in Hx as [k' Hx]; [|done].
  rewrite <- (Hk _ _ Hx) in Hx. rewrite Hid in Hx. congruence.
Qed.

Lemma concat_update (h : StepState -> StepState) rid (ss : dict string (list StepState)) l :
  dict_wf ss -> (forall r l, dget r ss = Some l -> List.Forall (fun st => st_run_id st = r) l) ->
  dget rid ss = Some l ->
  concat (dvalues (dset rid (map h l) ss)) =
    map (fun st => if String.eqb (st_run_id st) rid then h st else st) (concat (dvalues ss)).
Proof.
  unfold dict_wf, dkeys, dvalues. induction ss as [|[r l0] ss IH]; csimpl; [done|].
  intros [Hni Hnd]%NoDup_cons Hall. rewrite map_app.
  assert (List.Forall (fun st => st_run_id st = r) l0) as Hl
    by (apply Hall; by rewrite decide_True).
  assert (forall r' l', dget r' ss = Some l' -> r' <> r) as Hne'.
  { intros r' l' Hg ->. apply dget_Some_in in Hg. apply Hni, list_elem_of_fmap. by exists (r, l'). }
  destruct (decide (rid = r)) as [->|Hne].
  - intros [= ->]. csimpl. f_equal.
    + clear -Hl. induction Hl as [|st l Hst Hl IH]; simpl; [done|].
      by rewrite Hst, String.eqb_refl, IH.
    + rewrite <- (map_id (concat ss.*2)) at 1. apply map_ext_in. intros st Hst.
      apply in_concat in Hst as (l' & Hl' & Hst).
      apply list_elem_of_In in Hl'. apply (dvalues_in_dget ss) in Hl' as [r' Hg]; [|done].
      specialize (Hall r' l'). simpl in Hall. rewrite decide_False in Hall by eauto.
      specialize (Hall Hg). rewrite List.Forall_forall in Hall. rewrite (Hall st Hst).
      by rewrite (proj2 (String.eqb_neq r' r)) by eauto.
  - intros Hg. csimpl. f_equal.
    + clear -Hl Hne. induction Hl as [|st l Hst Hl IH]; simpl; [done|].
      rewrite Hst, (proj2 (String.eqb_neq r rid)) by congruence. by f_equal.
    + apply IH; [done| |done]. intros r' l' Hg'. apply Hall. by rewrite decide_False by eauto.
Qed.

Lemma update_first_map name (g : StepState -> StepState) l :
  NoDup (map st_step l) ->
  update_first (step_named name) g l = map (fun st => if step_named name st then g st else st) l.
Proof.
  induction l as [|st l IH]; csimpl; [done|]. intros [Hni Hnd]%NoDup_cons.
  destruct (step_named name st) eqn:E; [|by rewrite IH]. f_equal.
  unfold step_named in *. apply String.eqb_eq in E. subst name. clear IH Hnd.
  induction l as [|st' l IH]; csimpl; [done|]. csimpl in Hni.
  apply not_elem_of_cons in Hni as [Hne Hni].
  rewrite (proj2 (String.eqb_neq (st_step st') (st_step st))) by congruence. f_equal. by apply IH.
Qed.

Lemma apply_ins_steps rows d d' :
  apply_stmts (map InsStep rows) d = Some d' ->
  d' = mk_Db (db_runs d) (db_steps d ++ rows) (db_gates d) (db_tokens d) (db_decisions d).
Proof.
  revert d. induction rows as [|r rows IH]; intros d; simpl.
  - intros [= <-]. rewrite app_nil_r. by destruct d.
  - destruct (existsb _ _ && _); [|done]. intros H. apply IH in H. simpl in H.
    by rewrite <- app_assoc in H.
Qed.

(** Inserted steps are new, and new to each other. *)
Lemma apply_ins_steps_fresh rows d d' :
  apply_stmts (map InsStep rows) d = Some d' ->
  Forall (fun r => existsb (step_at (os_run_id r) (os_step r)) (db_steps d) = false) rows /\
  NoDup (map (fun r => (os_run_id r, os_step r)) rows).
Proof.
  revert d. induction rows as [|r rows IH]; intros d; simpl; [by repeat constructor|].
  destruct (existsb _ _ && _) eqn:E; [|done]. apply andb_prop in E as [_ E%negb_true_iff].
  intros [HF Hnd]%IH. cbn [db_steps] in HF. setoid_rewrite existsb_app in HF. setoid_rewrite orb_false_iff in HF.
  split; [constructor; [done|]; eapply Forall_impl; [exact HF|]; by intros x [? _]|].
  constructor; [|done]. intros Hin%list_elem_of_fmap. destruct Hin as (x & Heq & Hx).
  rewrite Forall_forall in HF. apply HF in Hx as [_ Hx]. injection Heq as H1 H2. cbn in Hx.
  unfold step_at in Hx. by rewrite H1, H2, !String.eqb_refl in Hx.
Qed.

Lemma inserted_steps_ok rid steps d d' :
  apply_stmts (map InsStep (map step_to_orm steps)) d = Some d' ->
  Forall (fun st => st_run_id st = rid) steps -> StronglySorted (fun a b => st_seq a < st_seq b) steps ->
  steps_ok rid steps.
Proof.
  intros [_ Hnd]%apply_ins_steps_fresh Hr Hs. split; [done..|].
  rewrite map_map in Hnd. cbn [os_run_id os_step step_to_orm] in Hnd. clear -Hnd Hr.
  induction Hr as [|st l Hst Hl IH]; csimpl; [constructor|]. csimpl in Hnd.
  apply NoDup_cons in Hnd as [Hni Hnd]. constructor; [|by apply IH]. intros Hin. apply Hni.
  apply list_elem_of_fmap in Hin as (x & Heq & Hx). apply list_elem_of_fmap. exists x. split; [|done].
  rewrite list.Forall_forall in Hl. by rewrite Hst, (Hl x Hx), Heq.
Qed.

(** ** What the methods do to related states *)

Lemma rel_update_run d s rid w w' rows' :
  pg_rel d s -> dget rid (rs_runs s) = Some w -> run_id w' = run_id w ->
  run_trigger w' = run_trigger w ->
  Permutation rows' (map run_to_orm (dvalues (dset rid w' (rs_runs s)))) ->
  pg_rel (mk_Db rows' (db_steps d) (db_gates d) (db_tokens d) (db_decisions d))
    (set_runs (dset rid w' (rs_runs s)) s).
Proof.
  intros [Hwf Hd Hok Ht Hk H1 H2 H3 H4 H5] Hw Hid Htr Hp. split; simpl; try done.
  - by eapply set_runs_found_wf.
  - intros rid' w0. rewrite dget_dset. case_decide; [intros [= <-]; rewrite Htr|]; eauto.
  - intros k rid'. rewrite Hk. unfold truthy_key. setoid_rewrite dget_dset.
    case_decide; [subst|done]. split.
    + intros (w0 & Hw0 & Hk0). exists w'. rewrite Htr. assert (w0 = w) as -> by congruence. done.
    + intros (w0 & [= <-] & Hk0). exists w. rewrite Htr in Hk0. done.
Qed.

Lemma steps_ok_map rid h l :
  (forall st, st_run_id (h st) = st_run_id st /\ st_seq (h st) = st_seq st /\ st_step (h st) = st_step st) ->
  steps_ok rid l -> steps_ok rid (map h l).
Proof.
  intros Hh [H1 H2 H3]. split.
  - apply Forall_map. eapply List.Forall_impl; [|exact H1]. intros st <-. apply Hh.
  - clear -Hh H2. induction H2 as [|st l H IH Hf]; simpl; constructor; [done|].
    apply Forall_map. eapply List.Forall_impl; [|exact Hf]. intros st'.
    by rewrite !(proj1 (proj2 (Hh _))).
  - rewrite map_map. by rewrite (map_ext _ st_step) by apply Hh.
Qed.

(** Rewriting one step of a run, on both sides. *)
Lemma rel_update_step d s rid name old (g : StepState -> StepState) f rows' :
  pg_rel d s -> find_first (step_named name) (steps_of rid s) = Some old ->
  (forall st, st_run_id (g st) = st_run_id st /\ st_seq (g st) = st_seq st /\ st_step (g st) = st_step st) ->
  f (step_to_orm old) = step_to_orm (g old) ->
  update_where (step_at rid name) f (db_steps d) = Some rows' ->
  pg_rel (mk_Db (db_runs d) rows' (db_gates d) (db_tokens d) (db_decisions d))
    (put_steps rid (update_first (step_named name) g (steps_of rid s)) s).
Proof.
  intros Hrel Hold Hg Hf Hu. pose proof (rel_names d s rid Hrel) as Hnd.
  rewrite update_first_map by done. set (h := fun st => if step_named name st then g st else st).
  assert (forall st, st_run_id (h st) = st_run_id st /\ st_seq (h st) = st_seq st /\
    st_step (h st) = st_step st) as Hh by (intros st; unfold h; by destruct (step_named name st)).
  assert (forall st, st ∈ steps_of rid s -> step_named name st = true -> st = old) as Huniq.
  { intros st Hin Hst. assert (st ∈ bfilter (step_named name) (steps_of rid s)) as Hb
      by (by apply elem_of_bfilter).
    rewrite (find_first_unique name _ Hnd), Hold in Hb. by apply list_elem_of_singleton in Hb. }
  pose proof (put_steps_wf rid (map h (steps_of rid s)) s (rel_wf _ _ Hrel)) as Hwf.
  revert Hold Hwf Huniq. unfold steps_of, put_steps.
  destruct (dget rid (rs_steps s)) as [l|] eqn:El; [|done]. intros Hold Hwf Huniq.
  assert (forall r l', dget r (rs_steps s) = Some l' -> List.Forall (fun st => st_run_id st = r) l')
    as Hruns by (intros r l' Hl'; apply (so_run r); by apply (rel_steps_ok _ _ Hrel)).
  destruct Hrel as [_ Hd Hok Ht Hk H1 H2 H3 H4 H5]. split; simpl; try done; [by auto with cam|..].
  - intros r l'. rewrite dget_dset. case_decide; [|eauto]. subst. intros [= <-].
    apply steps_ok_map; eauto.
  - unfold all_steps. simpl. rewrite (concat_update h rid _ l) by done.
    eapply update_where_perm; [exact H2 | exact Hu |]. intros st Hin.
    change (step_at rid name (step_to_orm st)) with (String.eqb (st_run_id st) rid && step_named name st).
    destruct (String.eqb_spec (st_run_id st) rid) as [Hr|]; [|done]. simpl. unfold h.
    destruct (step_named name st) eqn:En; [|done].
    assert (st = old) as ->; [|done]. apply Huniq; [|done].
    assert (st ∈ bfilter (fun st => String.eqb (st_run_id st) rid) (concat (dvalues (rs_steps s)))) as Hb.
    { apply elem_of_bfilter. split; [done|]. by apply String.eqb_eq. }
    by rewrite concat_select, El in Hb.
Qed.

(** ** Calls with their replies *)

Inductive reply :=
| RpRun (w : WorkflowRun)
| RpGate (g : GateRequest)
| RpBool (b : bool)
| RpUnit.

Definition reply_with {S A} (f : A -> reply) (m : M S A) : M S reply := let! x := m in ret (f x).

Definition mem_call (c : store_call) : M RunStore reply :=
  match c with
  | CCreateRun run steps => reply_with RpRun (create_run run steps)
  | CUpdateStatus now rid st cs le => reply_with (fun _ => RpUnit) (update_run_status now rid st cs le)
  | CSetCurrentStep now rid step => reply_with (fun _ => RpUnit) (set_current_step now rid step)
  | CAdvanceGate now rid step => reply_with (fun _ => RpUnit) (advance_gate_step now rid step)
  | CUpdateStep step => reply_with (fun _ => RpUnit) (update_step step)
  | CCreateGate gate => reply_with RpGate (create_gate_request gate)
  | CUpdateGate gate => reply_with (fun _ => RpUnit) (update_gate_request gate)
  | CSaveToken token => reply_with (fun _ => RpUnit) (save_token token)
  | CMarkUsed tid used_at => reply_with RpBool (mark_token_used tid used_at)
  | CSaveDecision d => reply_with (fun _ => RpUnit) (save_approval_decision d)
  end.

(** The step as the database stores it after an update of [old]: run, name,
    position and idempotency key are never written again. *)
Definition merge_step (st old : StepState) : StepState :=
  mk_StepState (st_run_id old) (st_step old) (st_seq old) (st_status st) (st_attempt st)
    (st_idem_key old) (st_input st) (st_output st) (st_error st) (st_started_at st) (st_ended_at st).

(** The gate as the database stores it after an update of [old]: role, quorum and
    status are written. *)
Definition merge_gate (g old : GateRequest) : GateRequest :=
  mk_GateRequest (gr_id old) (gr_run_id old) (gr_step old) (gr_required_role g) (gr_quorum g)
    (gr_status g) (gr_channels old) (gr_created_at old) (gr_expires_at old).

(** The call of the in-memory store that has the effect of the production call. *)
Definition as_stored (c : store_call) (s : RunStore) : store_call :=
  match c with
  | CUpdateStep st =>
      match find_first (step_named (st_step st)) (steps_of (st_run_id st) s) with
      | Some old => CUpdateStep (merge_step st old)
      | None => c
      end
  | CUpdateGate g =>
      match dget (gr_id g) (rs_gates s) with
      | Some old => CUpdateGate (merge_gate g old)
      | None => c
      end
  | _ => c
  end.

(** A new run comes with its own steps in ascending order, and its trigger is one
    the model class admits. *)
Definition new_run_ok (c : store_call) : Prop :=
  match c with
  | CCreateRun run steps =>
      Forall (fun st => st_run_id st = run_id run) steps /\
      StronglySorted (fun a b => st_seq a < st_seq b) steps /\ trigger_ok (run_trigger run)
  | _ => True
  end.

Section Refinement.
Context {D : Type} `{SqlLaws D}.

Definition pg_call (c : store_call) : M D reply :=
  match c with
  | CCreateRun run steps => reply_with RpRun (pg_create_run run steps)
  | CUpdateStatus now rid st cs le => reply_with (fun _ => RpUnit) (pg_update_run_status now rid st cs le)
  | CSetCurrentStep now rid step => reply_with (fun _ => RpUnit) (pg_set_current_step now rid step)
  | CAdvanceGate now rid step => reply_with (fun _ => RpUnit) (pg_advance_gate_step now rid step)
  | CUpdateStep step => reply_with (fun _ => RpUnit) (pg_update_step step)
  | CCreateGate gate => reply_with RpGate (pg_create_gate_request gate)
  | CUpdateGate gate => reply_with (fun _ => RpUnit) (pg_update_gate_request gate)
  | CSaveToken token => reply_with (fun _ => RpUnit) (pg_save_token token)
  | CMarkUsed tid used_at => reply_with RpBool (pg_mark_token_used tid used_at)
  | CSaveDecision d => reply_with (fun _ => RpUnit) (pg_save_approval_decision d)
  end.

(** [m] on the database [d] simulates [n] on the store [s]: when it returns, so
    does [n], with the same value, and the states stay related; when it raises,
    the database is unchanged or has that very effect. *)
Definition sim {A} (m : M D A) (n : M RunStore A) (d : D) (s : RunStore) : Prop :=
  forall d' r, m d = (d', r) ->
  match r with
  | Ok v => exists s', n s = (s', Ok v) /\ pg_rel (sql_rows d') s'
  | Err _ => sql_rows d' = sql_rows d \/ exists s' v, n s = (s', Ok v) /\ pg_rel (sql_rows d') s'
  end.

Lemma sim_reply {A} (f : A -> reply) m n d s :
  sim m n d s -> sim (reply_with f m) (reply_with f n) d s.
Proof.
  intros Hs d' r. unfold reply_with, bind. destruct (m d) as [d1 [x|e]] eqn:E.
  - specialize (Hs _ _ E). intros [= <- <-]. destruct Hs as (s' & Hn & Hrel).
    exists s'. by rewrite Hn.
  - specialize (Hs _ _ E). intros [= <- <-]. destruct Hs as [Hs|(s' & v & Hn & Hrel)]; [by left|].
    right. exists s', (f v). by rewrite Hn.
Qed.

Lemma sim_raise {A} e (n : M RunStore A) d s : sim (raise e) n d s.
Proof. intros d' r [= <- <-]. by left. Qed.

Lemma sim_ret {A} (v : A) n d s : n s = (s, Ok v) -> pg_rel (sql_rows d) s -> sim (ret v) n d s.
Proof. intros Hn Hrel d' r [= <- <-]. by exists s. Qed.

(** A SELECT of at most one row. *)
Lemma sim_scalar {A B} (q : Db -> list B) (o : option B) (f : option B -> M D A) n d s :
  Permutation (q (sql_rows d)) (opt_list o) ->
  (forall d1, sql_rows d1 = sql_rows d -> sim (f o) n d1 s) ->
  sim (let! x := scalar q in f x) n d s.
Proof.
  intros Hq Hf d' r. unfold scalar, bind.
  pose proof (select_keeps q d) as Hk. pose proof (select_val q d) as Hv.
  destruct (sql_select q d) as [d1 [l|e]]; simpl in *.
  - assert (head l = o) as ->.
    { apply perm_singleton_head. rewrite (Hv l eq_refl), Hq. by destruct o. }
    intros Hm. specialize (Hf d1 Hk _ _ Hm). destruct r; [done|]. by rewrite <- Hk.
  - intros [= <- <-]. by left.
Qed.

Lemma sim_commit {A} ss (v : A) n d s :
  (forall db', apply_stmts ss (sql_rows d) = Some db' -> exists s', n s = (s', Ok v) /\ pg_rel db' s') ->
  sim (sql_commit ss ;; ret v) n d s.
Proof.
  intros Hs d' r. unfold bind. destruct (sql_commit ss d) as [d1 [[]|e]] eqn:E.
  - intros [= <- <-]. apply commit_ok in E. by apply Hs.
  - intros [= <- <-]. apply commit_err in E as [E|E]; [by left|]. right.
    destruct (Hs _ E) as (s' & Hn & Hrel). by exists s', v.
Qed.

Lemma sim_commit_unit ss n d s :
  (forall db', apply_stmts ss (sql_rows d) = Some db' -> exists s', n s = (s', Ok tt) /\ pg_rel db' s') ->
  sim (sql_commit ss) n d s.
Proof.
  intros Hs d' r E. apply (sim_commit ss tt n d s Hs). unfold bind. rewrite E. by destruct r as [[]|e].
Qed.

(** ** Method by method *)

Lemma map_opt_list {A B} (f : A -> B) o : map f (opt_list o) = opt_list (option_map f o).
Proof. by destruct o. Qed.

Lemma update_run_status_sim now rid st cs le d s :
  pg_rel (sql_rows d) s -> sim (pg_update_run_status now rid st cs le) (update_run_status now rid st cs le) d s.
Proof.
  intros Hrel. unfold pg_update_run_status, update_run_status.
  eapply sim_scalar; [rewrite (rel_select_run _ s) by done; by rewrite map_opt_list|].
  intros d1 E1. destruct (dget rid (rs_runs s)) as [w|] eqn:Ew; cbn [option_map]; [|apply sim_raise].
  cbn [or_status run_to_orm]. rewrite run_status_roundtrip. unfold bind, lift_res.
  destruct (is_legal_run_transition (run_status w) st) eqn:El; [|apply sim_raise].
  apply sim_commit_unit. intros db'. rewrite E1. simpl.
  destruct (update_where _ _ _) as [rows'|] eqn:Eu; simpl; [|done]. intros [= <-].
  rewrite Ew, El. eexists. split; [done|].
  eapply rel_update_run; [done | exact Ew | done | done |].
  refine (update_keyed_perm run_to_orm run_id _ _ _ _ _ _ _ _ (wf_runs _ (rel_wf _ _ Hrel)) Ew _ _
    (rel_runs _ _ Hrel) Eu); [|done].
  unfold row_with_status, run_to_orm. simpl. by destruct cs, le.
Qed.

Lemma set_current_step_sim now rid step d s :
  pg_rel (sql_rows d) s -> sim (pg_set_current_step now rid step) (set_current_step now rid step) d s.
Proof.
  intros Hrel. unfold pg_set_current_step, set_current_step.
  eapply sim_scalar; [rewrite (rel_select_run _ s) by done; by rewrite map_opt_list|].
  intros d1 E1. destruct (dget rid (rs_runs s)) as [w|] eqn:Ew; cbn [option_map]; [|apply sim_raise].
  apply sim_commit_unit. intros db'. rewrite E1. simpl.
  destruct (update_where _ _ _) as [rows'|] eqn:Eu; simpl; [|done]. intros [= <-].
  rewrite Ew. eexists. split; [done|].
  eapply rel_update_run; [done | exact Ew | done | done |].
  by refine (update_keyed_perm run_to_orm run_id _ _ _ _ _ _ _ _ (wf_runs _ (rel_wf _ _ Hrel)) Ew _ _
    (rel_runs _ _ Hrel) Eu).
Qed.

Lemma advance_gate_step_sim now rid name d s :
  pg_rel (sql_rows d) s -> sim (pg_advance_gate_step now rid name) (advance_gate_step now rid name) d s.
Proof.
  intros Hrel. unfold pg_advance_gate_step, advance_gate_step.
  eapply sim_scalar; [rewrite (rel_select_step _ s) by done; by rewrite map_opt_list|].
  intros d1 E1. destruct (find_first _ _) as [old|] eqn:Eo; cbn [option_map]; [|apply sim_raise].
  apply sim_commit_unit. intros db'. rewrite E1. simpl.
  destruct (update_where _ _ _) as [rows'|] eqn:Eu; simpl; [|done]. intros [= <-].
  eexists. split; [done|]. by refine (rel_update_step _ _ _ _ _ _ _ _ Hrel Eo _ _ Eu).
Qed.

Lemma update_first_ext {A} (p : A -> bool) f g l :
  (forall x, find_first p l = Some x -> f x = g x) -> update_first p f l = update_first p g l.
Proof.
  induction l as [|x l IH]; simpl; [done|]. destruct (p x); intros Hf; [by rewrite Hf|].
  by rewrite IH.
Qed.

Lemma update_step_sim st d s :
  pg_rel (sql_rows d) s ->
  sim (pg_call (CUpdateStep st)) (mem_call (as_stored (CUpdateStep st) s)) d s.
Proof.
  intros Hrel. cbn [as_stored pg_call].
  destruct (find_first (step_named (st_step st)) (steps_of (st_run_id st) s)) as [old|] eqn:Eo;
    apply sim_reply; unfold pg_update_step;
    (eapply sim_scalar; [rewrite (rel_select_step _ s) by done; by rewrite map_opt_list|]);
    intros d1 E1; rewrite Eo; cbn [option_map]; [|apply sim_raise].
  cbn [os_status step_to_orm]. rewrite step_status_roundtrip. unfold bind, lift_res.
  destruct (is_legal_step_transition (st_status old) (st_status st)) eqn:El; [|apply sim_raise].
  apply sim_commit_unit. intros db'. rewrite E1. simpl.
  destruct (update_where _ _ _) as [rows'|] eqn:Eu; simpl; [|done]. intros [= <-].
  pose proof (find_first_Some _ _ _ Eo) as [Hin Hname%String.eqb_eq].
  assert (st_run_id old = st_run_id st) as Hrid.
  { revert Hin. unfold steps_of. destruct (dget _ _) as [l|] eqn:E; [|by intros ?%elem_of_nil].
    intros Hin. pose proof (so_run _ _ (rel_steps_ok _ _ Hrel _ _ E)) as Hall.
    rewrite List.Forall_forall in Hall. apply Hall. by apply list_elem_of_In. }
  unfold update_step, merge_step. cbn [st_step st_run_id st_status]. rewrite Hrid, Hname, Eo, El.
  eexists. split; [done|]. rewrite (update_first_ext _ _ (merge_step st)).
  - by refine (rel_update_step _ _ _ _ _ _ _ _ Hrel Eo _ _ Eu).
  - intros x Hx. rewrite Eo in Hx. injection Hx as <-. unfold merge_step. by rewrite Hrid, Hname.
Qed.

(** ** Gates, tokens and decisions *)

Lemma fresh_key {A B} (enc : A -> B) (id : A -> string) p rows d k :
  keyed id d -> Permutation rows (map enc (dvalues d)) -> (forall x, p (enc x) = String.eqb (id x) k) ->
  existsb p rows = false -> dget k d = None.
Proof.
  intros Hk Hp Hid He. destruct (dget k d) as [x|] eqn:E; [|done]. exfalso.
  rewrite existsb_bfilter in He.
  pose proof (bfilter_perm p _ _ Hp) as Hb. rewrite bfilter_map in Hb.
  rewrite (bfilter_ext _ (fun x => String.eqb (id x) k)) in Hb by auto.
  rewrite keyed_select, E in Hb by done. destruct (bfilter p rows); [|done].
  by apply Permutation_nil_cons in Hb.
Qed.

Lemma create_gate_sim g d s :
  pg_rel (sql_rows d) s -> sim (pg_create_gate_request g) (create_gate_request g) d s.
Proof.
  intros Hrel. apply sim_commit. intros db'. simpl.
  destruct (existsb (run_with_id _) _ && _) eqn:E; [|done]. intros [= <-].
  apply andb_prop in E as [_ E%negb_true_iff].
  assert (dget (gr_id g) (rs_gates s) = None) as Hnew
    by (by refine (fresh_key gate_to_orm gr_id _ _ _ _ (wf_gates _ (rel_wf _ _ Hrel)) (rel_gates _ _ Hrel) _ E)).
  eexists. split; [done|]. pose proof (exec_call_wf (CCreateGate g) s (rel_wf _ _ Hrel)) as Hwf.
  destruct Hrel as [_ Hd Hok Ht Hk H1 H2 H3 H4 H5]. split; simpl; try done.
  rewrite (dvalues_dset_new _ _ _ Hnew), map_app. simpl. by rewrite H3.
Qed.

Lemma update_gate_sim g d s :
  pg_rel (sql_rows d) s ->
  sim (pg_call (CUpdateGate g)) (mem_call (as_stored (CUpdateGate g) s)) d s.
Proof.
  intros Hrel. cbn [as_stored pg_call].
  destruct (dget (gr_id g) (rs_gates s)) as [old|] eqn:Eg; apply sim_reply; unfold pg_update_gate_request;
    (eapply sim_scalar; [rewrite (rel_select_gate _ s) by done; by rewrite map_opt_list|]);
    intros d1 E1; rewrite Eg; cbn [option_map]; [|apply sim_raise].
  apply sim_commit_unit. intros db'. rewrite E1. simpl.
  destruct (update_where _ _ _) as [rows'|] eqn:Eu; simpl; [|done]. intros [= <-].
  eexists. split; [done|].
  pose proof (exec_call_wf (CUpdateGate (merge_gate g old)) s (rel_wf _ _ Hrel)) as Hwf.
  assert (gr_id old = gr_id g) as Hid by (by apply (wf_gates _ (rel_wf _ _ Hrel))).
  pose proof (wf_gates _ (rel_wf _ _ Hrel)) as Hkeyed.
  destruct Hrel as [_ Hd Hst Ht Hk H1 H2 H3 H4 H5]. split; simpl; try done.
  rewrite Hid. by refine (update_keyed_perm gate_to_orm gr_id _ _ _ _ _ _ _ _ Hkeyed Eg _ _ H3 Eu).
Qed.

Lemma save_token_sim t d s :
  pg_rel (sql_rows d) s -> sim (pg_save_token t) (save_token t) d s.
Proof.
  intros Hrel. apply sim_commit_unit. intros db'. simpl.
  destruct (existsb (run_with_id _) _ && _ && _) eqn:E; [|done]. intros [= <-].
  apply andb_prop in E as [_ E%negb_true_iff].
  assert (dget (tok_id t) (rs_tokens s) = None) as Hnew
    by (by refine (fresh_key token_to_orm tok_id _ _ _ _ (wf_tokens _ (rel_wf _ _ Hrel)) (rel_tokens _ _ Hrel) _ E)).
  eexists. split; [done|]. pose proof (exec_call_wf (CSaveToken t) s (rel_wf _ _ Hrel)) as Hwf.
  destruct Hrel as [_ Hd Hok Ht Hk H1 H2 H3 H4 H5]. split; simpl; try done.
  rewrite (dvalues_dset_new _ _ _ Hnew), map_app. simpl. by rewrite H4.
Qed.

Lemma mark_token_sim tid used_at d s :
  pg_rel (sql_rows d) s -> sim (pg_mark_token_used tid used_at) (mark_token_used tid used_at) d s.
Proof.
  intros Hrel. unfold pg_mark_token_used, token_free, mark_token_used.
  intros d' r Hm. revert d' r Hm.
  assert (sim (let! x := scalar (tokens_where (token_with_id tid)) in
    if match x with Some r => match ot_used_at r with Some _ => false | None => true end | None => false end
    then sql_commit [UpdToken tid (row_used_at used_at)] ;; ret true else ret false)
    (mark_token_used tid used_at) d s) as Hsim.
  - eapply sim_scalar; [rewrite (rel_select_token _ s) by done; by rewrite map_opt_list|].
    intros d1 E1. unfold mark_token_used.
    destruct (dget tid (rs_tokens s)) as [t|] eqn:Et; cbn [option_map].
    2: { apply sim_ret; [by rewrite Et|]. by rewrite E1. }
    cbn [ot_used_at token_to_orm]. destruct (tok_used_at t) as [u|] eqn:Eu.
    + apply sim_ret; [|by rewrite E1]. rewrite Et. unfold tok_is_used. by rewrite Eu.
    + apply sim_commit. intros db'. rewrite E1. simpl.
      destruct (update_where _ _ _) as [rows'|] eqn:Ew; simpl; [|done]. intros [= <-].
      rewrite Et. unfold tok_is_used. rewrite Eu. eexists. split; [done|].
      pose proof (exec_call_wf (CMarkUsed tid used_at) s (rel_wf _ _ Hrel)) as Hwf.
      simpl in Hwf. unfold mark_token_used, tok_is_used in Hwf. rewrite Et, Eu in Hwf.
      pose proof (wf_tokens _ (rel_wf _ _ Hrel)) as Hkeyed.
      destruct Hrel as [_ Hd Hst Ht Hk H1 H2 H3 H4 H5]. split; simpl; try done.
      by refine (update_keyed_perm token_to_orm tok_id _ _ _ _ _ _ _ _ Hkeyed Et _ _ H4 Ew).
  - intros d' r Hm. apply Hsim. rewrite <- Hm. unfold bind, ret.
    by destruct (scalar _ d) as [d1 [x|e]].
Qed.

Lemma save_decision_sim a d s :
  pg_rel (sql_rows d) s -> sim (pg_save_approval_decision a) (save_approval_decision a) d s.
Proof.
  intros Hrel. apply sim_commit_unit. intros db'. simpl.
  destruct (_ && _) eqn:E; [|done]. intros [= <-]. eexists. split; [done|].
  pose proof (exec_call_wf (CSaveDecision a) s (rel_wf _ _ Hrel)) as Hwf.
  destruct Hrel as [_ Hd Hok Ht Hk H1 H2 H3 H4 H5]. split; simpl; try done.
  by rewrite H5, map_app.
Qed.

(** ** create_run *)

Lemma same_dedupe_truthy k w :
  str_truthy k = true -> same_dedupe (Some k) (run_to_orm w) = true <-> truthy_key w = Some k.
Proof.
  intros Hk. unfold same_dedupe, truthy_key. simpl. destruct (tr_dedupe_key (run_trigger w)) as [k'|].
  - rewrite String.eqb_eq. split; [intros <-; by rewrite Hk|]. destruct (str_truthy k'); congruence.
  - split; [done|]. done.
Qed.

Lemma dedupe_lookup d s k : pg_rel d s ->
  (match dget k (rs_dedupe s) with Some rid => dget rid (rs_runs s) | None => None end) = None ->
  dget k (rs_dedupe s) = None.
Proof.
  intros Hrel. destruct (dget k (rs_dedupe s)) as [rid|] eqn:E; [|done].
  apply (rel_dedupe _ _ Hrel) in E as (w & -> & _). done.
Qed.

Lemma rel_select_dedupe d s k : pg_rel d s -> str_truthy k = true ->
  Permutation (runs_where (same_dedupe (Some k)) d)
    (map run_to_orm (opt_list
       (match dget k (rs_dedupe s) with Some rid => dget rid (rs_runs s) | None => None end))).
Proof.
  intros Hrel Hk. unfold runs_where.
  rewrite (bfilter_perm _ _ _ (rel_runs _ _ Hrel)), bfilter_map.
  pose proof (wf_runs _ (rel_wf _ _ Hrel)) as Hkeyed.
  assert (forall w, w ∈ dvalues (rs_runs s) -> dget (run_id w) (rs_runs s) = Some w) as Hget.
  { intros w Hw. destruct Hkeyed as [Hwf Hid].
    apply dvalues_in_dget in Hw as [k' Hw]; [|done]. by rewrite (Hid _ _ Hw). }
  destruct (dget k (rs_dedupe s)) as [rid|] eqn:E.
  - rewrite (bfilter_ext _ (fun w => String.eqb (run_id w) rid)); [by rewrite keyed_select|].
    intros w Hw. apply eq_true_iff_eq. rewrite same_dedupe_truthy, String.eqb_eq by done. split.
    + intros Ht. assert (dget k (rs_dedupe s) = Some (run_id w)) as Hd
        by (apply (rel_dedupe _ _ Hrel); eauto). congruence.
    + intros <-. apply (rel_dedupe _ _ Hrel) in E as (w' & Hw' & Ht).
      rewrite Hget in Hw' by done. by injection Hw' as <-.
  - rewrite (bfilter_ext _ (fun _ => false)).
    { assert (forall l : list WorkflowRun, bfilter (fun _ => false) l = []) as ->; [|done].
      intros l. by induction l. }
    intros w Hw. apply not_true_is_false. rewrite same_dedupe_truthy by done. intros Ht.
    assert (dget k (rs_dedupe s) = Some (run_id w)) as Hd
      by (apply (rel_dedupe _ _ Hrel); eauto). congruence.
Qed.

(** Storing a run whose id and dedupe key are free. *)
Lemma rel_insert_run run steps d s :
  pg_rel d s -> dget (run_id run) (rs_runs s) = None ->
  (forall k, truthy_key run = Some k -> dget k (rs_dedupe s) = None) ->
  steps_ok (run_id run) steps -> trigger_ok (run_trigger run) ->
  pg_rel (mk_Db (db_runs d ++ [run_to_orm run]) (db_steps d ++ map step_to_orm steps)
            (db_gates d) (db_tokens d) (db_decisions d)) (insert_run run steps s).
Proof.
  intros Hrel Hnew Hkey Hsteps Htrig.
  pose proof (insert_run_wf run steps s (rel_wf _ _ Hrel)) as Hwf.
  assert (dget (run_id run) (rs_steps s) = None) as Hns.
  { pose proof (wf_steps _ (rel_wf _ _ Hrel) (run_id run)) as Hm. unfold dmem in Hm.
    rewrite Hnew in Hm. by destruct (dget (run_id run) (rs_steps s)). }
  destruct Hrel as [_ Hd Hok Ht Hk H1 H2 H3 H4 H5].
  assert (rs_runs (insert_run run steps s) = dset (run_id run) run (rs_runs s)) as R1
    by (unfold insert_run; by destruct (truthy_key run)).
  assert (rs_steps (insert_run run steps s) = dset (run_id run) steps (rs_steps s)) as R2
    by (unfold insert_run; by destruct (truthy_key run)).
  split; simpl; try done.
  - rewrite R2. auto with cam.
  - rewrite R2. intros rid l. rewrite dget_dset. case_decide; [intros [= <-]; by subst|eauto].
  - rewrite R1. intros rid w. rewrite dget_dset. case_decide; [by intros [= <-]|eauto].
  - rewrite R1. intros k rid. setoid_rewrite dget_dset. unfold insert_run.
    destruct (truthy_key run) as [k0|] eqn:Ek; simpl; rewrite ?dget_dset.
    + case_decide as E1; [subst k0|].
      * split; [intros [= <-]; exists run; by rewrite decide_True|].
        intros (w & Hw & Hwk). case_decide; [congruence|].
        specialize (Hkey k eq_refl). assert (dget k (rs_dedupe s) = Some rid) by (apply Hk; eauto).
        congruence.
      * rewrite Hk. split; intros (w & Hw & Hwk); exists w; (split; [|done]).
        -- case_decide; [congruence|done].
        -- case_decide; [congruence|done].
    + rewrite Hk. split; intros (w & Hw & Hwk); exists w; (split; [|done]).
      * case_decide; [congruence|done].
      * case_decide; [congruence|done].
  - rewrite R1, (dvalues_dset_new _ _ _ Hnew), map_app. simpl. by rewrite H1.
  - unfold all_steps. rewrite R2, (dvalues_dset_new _ _ _ Hns), concat_app, map_app. simpl.
    by rewrite app_nil_r, H2.
  - unfold insert_run. by destruct (truthy_key run).
  - unfold insert_run. by destruct (truthy_key run).
  - unfold insert_run. by destruct (truthy_key run).
Qed.

Lemma insert_commit_sim run steps d s :
  pg_rel (sql_rows d) s -> new_run_ok (CCreateRun run steps) ->
  (forall k, truthy_key run = Some k -> dget k (rs_dedupe s) = None) ->
  sim (sql_commit (InsRun (run_to_orm run) :: map (fun st => InsStep (step_to_orm st)) steps) ;; ret run)
    (create_run run steps) d s.
Proof.
  intros Hrel (Hrun & Hseq & Htrig) Hkey. apply sim_commit. intros db'. simpl.
  destruct (existsb (run_with_id _) _ || _) eqn:E; [done|].
  apply orb_false_elim in E as [E _]. rewrite <- (map_map step_to_orm InsStep). intros Hi.
  pose proof (inserted_steps_ok _ _ _ _ Hi Hrun Hseq) as Hsteps.
  apply apply_ins_steps in Hi. simpl in Hi. subst db'.
  assert (dget (run_id run) (rs_runs s) = None) as Hnew
    by (by refine (fresh_key run_to_orm run_id _ _ _ _ (wf_runs _ (rel_wf _ _ Hrel)) (rel_runs _ _ Hrel) _ E)).
  exists (insert_run run steps s). split.
  - unfold create_run. destruct (truthy_key run) as [k|]; [|done]. by rewrite (Hkey k eq_refl).
  - by apply rel_insert_run.
Qed.

Lemma create_run_sim run steps d s :
  pg_rel (sql_rows d) s -> new_run_ok (CCreateRun run steps) ->
  sim (pg_create_run run steps) (create_run run steps) d s.
Proof.
  intros Hrel Hok. unfold pg_create_run. destruct (truthy_key run) as [k|] eqn:Ek.
  - assert (str_truthy k = true) as Hk.
    { unfold truthy_key in Ek. destruct (tr_dedupe_key _) as [k'|]; [|done].
      destruct (str_truthy k') eqn:E; [|done]. congruence. }
    eapply sim_scalar; [rewrite (rel_select_dedupe _ s k) by done; by rewrite map_opt_list|].
    intros d1 E1. destruct (match dget k (rs_dedupe s) with Some rid => dget rid (rs_runs s) | None => None end)
      as [w|] eqn:Ew; cbn [option_map].
    + destruct (dget k (rs_dedupe s)) as [rid|] eqn:Ed; [|done].
      unfold lift_res. rewrite run_roundtrip by (by eapply (rel_trigger _ _ Hrel)).
      apply sim_ret; [|by rewrite E1]. unfold create_run. by rewrite Ek, Ed, Ew.
    + apply insert_commit_sim; [by rewrite E1 | done |]. intros k' Hk'.
      assert (k' = k) as -> by congruence. by apply (dedupe_lookup _ _ _ Hrel).
  - intros d' r. unfold bind at 1, ret at 1. apply insert_commit_sim; [done..|]. congruence.
Qed.

(** ** The refinement *)

Lemma pg_call_sim c d s :
  pg_rel (sql_rows d) s -> new_run_ok c -> sim (pg_call c) (mem_call (as_stored c s)) d s.
Proof.
  intros Hrel Hok. destruct c; try (by apply update_step_sim); try (by apply update_gate_sim); apply sim_reply;
    auto using create_run_sim, update_run_status_sim, set_current_step_sim, advance_gate_step_sim,
      create_gate_sim, save_token_sim, mark_token_sim, save_decision_sim.
Qed.

(** C8: the production store refines the in-memory store.  From related states,
    a mutating call of the PostgreSQL store (a [create_run] being given the run's
    own steps in ascending order) that returns gives the value the in-memory store
    gives and leads to related states again; the in-memory call is the same one,
    except that [update_step] and [update_gate_request] keep the fields the
    production store never writes again.  A call that raises, whether because the
    run, step or gate is missing, the transition is illegal, a constraint is
    violated or the database failed, leaves every table as it was, or all of it
    took effect and only the answer was lost. *)
Theorem pg_store_refines c d s d' r :
  pg_rel (sql_rows d) s -> new_run_ok c -> pg_call c d = (d', r) ->
  match r with
  | Ok v => exists s', mem_call (as_stored c s) s = (s', Ok v) /\ pg_rel (sql_rows d') s'
  | Err _ => sql_rows d' = sql_rows d \/
      exists s' v, mem_call (as_stored c s) s = (s', Ok v) /\ pg_rel (sql_rows d') s'
  end.
Proof. intros Hrel Hok. by apply pg_call_sim. Qed.

(** ** Queries *)

Lemma scalar_val {A} (q : Db -> list A) (o : option A) d d' r :
  Permutation (q (sql_rows d)) (opt_list o) -> scalar q d = (d', r) ->
  sql_rows d' = sql_rows d /\ forall x, r = Ok x -> x = o.
Proof.
  intros Hq. unfold scalar, bind.
  pose proof (select_keeps q d) as Hk. pose proof (select_val q d) as Hv.
  destruct (sql_select q d) as [d1 [l|e]]; simpl in *; intros [= <- <-]; (split; [done|]); [|done].
  intros x [= <-]. apply perm_singleton_head. rewrite (Hv l eq_refl), Hq. by destruct o.
Qed.

Lemma sorted_perm_unique {A} (k : A -> Z) l1 l2 :
  Permutation l1 l2 -> StronglySorted (fun a b => k a <= k b) l1 ->
  StronglySorted (fun a b => k a < k b) l2 -> l1 = l2.
Proof.
  intros Hp H1. revert l2 Hp. induction H1 as [|x l1 H1 IH Hf]; intros l2 Hp H2.
  - by apply Permutation_nil in Hp.
  - destruct l2 as [|y l2]; [by apply Permutation_sym, Permutation_nil in Hp|].
    inversion H2 as [|? ? H2' Hf2]; subst.
    rewrite List.Forall_forall in Hf, Hf2.
    assert (x = y) as ->.
    { destruct (Permutation_in x Hp) as [|Hx]; [by left|done|].
      destruct (Permutation_in y (Permutation_sym Hp)) as [|Hy]; [by left|done|].
      specialize (Hf y Hy). specialize (Hf2 x Hx). simpl in *. lia. }
    f_equal. apply IH; [|done]. by apply Permutation_cons_inv in Hp.
Qed.

Lemma steps_sorted_map l :
  StronglySorted (fun a b => st_seq a < st_seq b) l ->
  StronglySorted (fun a b => os_seq a < os_seq b) (map step_to_orm l).
Proof.
  induction 1 as [|st l H1 IH Hf]; simpl; constructor; [done|]. by apply Forall_map.
Qed.

(** A query that leaves the tables alone and, when it returns, answers [x]. *)
Definition answers {A} (m : M D A) (P : A -> Prop) (d : D) : Prop :=
  sql_rows (fst (m d)) = sql_rows d /\ forall x, snd (m d) = Ok x -> P x.

Lemma answers_scalar {A B} (q : Db -> list A) o (f : option A -> res B) P d :
  Permutation (q (sql_rows d)) (opt_list o) -> (forall x, f o = Ok x -> P x) ->
  answers (let! x := scalar q in lift_res (f x)) P d.
Proof.
  intros Hq Hf. unfold answers, bind. destruct (scalar q d) as [d1 [x|e]] eqn:E;
    destruct (scalar_val q o d d1 _ Hq E) as [Hr Hx]; simpl; (split; [done|]); [|done].
  by rewrite (Hx x eq_refl).
Qed.

Lemma answers_select {A} (q : Db -> list A) l d :
  Permutation (q (sql_rows d)) l -> answers (sql_select q) (fun x => Permutation x l) d.
Proof.
  intros Hq. split; [apply select_keeps|]. intros x Hx. apply select_val in Hx. by rewrite Hx.
Qed.

Lemma select_by_status ss d s : pg_rel d s ->
  Permutation (map or_id (runs_where (row_has_status ss) d))
    (map run_id (bfilter (fun w => str_in (run_status_value (run_status w)) (map run_status_value ss))
                   (dvalues (rs_runs s)))).
Proof.
  intros Hrel. unfold runs_where.
  rewrite (bfilter_perm _ _ _ (rel_runs _ _ Hrel)), bfilter_map, map_map. done.
Qed.

(** C9: the queries of the two stores agree.  On related states every query
    leaves the database alone and, when the database answers, returns what the
    in-memory store returns: the run, the step, the gate, the token, the steps
    of a run in their order, and the queued and the recoverable runs up to the
    order of the list, which SQL does not fix. *)
Theorem pg_reads_agree d s rid name gid tid :
  pg_rel (sql_rows d) s ->
  answers (pg_get_run rid) (fun x => snd (get_run rid s) = Ok x) d /\
  answers (pg_get_steps rid) (fun x => snd (get_steps rid s) = Ok x) d /\
  answers (pg_get_step rid name) (fun x => snd (get_step rid name s) = Ok x) d /\
  answers (pg_get_gate_request gid) (fun x => snd (get_gate_request gid s) = Ok x) d /\
  answers (pg_get_token tid) (fun x => snd (get_token tid s) = Ok x) d /\
  answers pg_find_queued_runs (fun l => exists l', snd (find_queued_runs s) = Ok l' /\ Permutation l l') d /\
  answers pg_find_recoverable_runs
    (fun l => exists l', snd (find_recoverable_runs s) = Ok l' /\ Permutation l l') d.
Proof.
  intros Hrel. split_and!.
  - eapply answers_scalar; [rewrite (rel_select_run _ s) by done; by rewrite map_opt_list|].
    intros x. simpl. destruct (dget rid (rs_runs s)) as [w|] eqn:Ew; cbn [option_map from_orm]; [|by intros [= <-]].
    rewrite run_roundtrip by (by eapply (rel_trigger _ _ Hrel)). by intros [= <-].
  - unfold answers, pg_get_steps, bind.
    pose proof (select_by_keeps os_seq (steps_where (step_of_run rid)) d) as Hk.
    pose proof (select_by_val os_seq (steps_where (step_of_run rid)) d) as Hv.
    destruct (sql_select_by _ _ d) as [d1 [l|e]]; simpl in *; (split; [done|]); [|done].
    intros x. destruct (Hv l eq_refl) as [Hp Hs]. rewrite (rel_select_steps _ s) in Hp by done.
    assert (l = map step_to_orm (steps_of rid s)) as ->.
    { apply (sorted_perm_unique os_seq); [done..|]. apply steps_sorted_map. unfold steps_of.
      destruct (dget rid (rs_steps s)) as [l0|] eqn:E; [|constructor].
      by apply (so_seq rid), (rel_steps_ok _ _ Hrel). }
    rewrite steps_roundtrip. by intros [= <-].
  - eapply answers_scalar; [rewrite (rel_select_step _ s) by done; by rewrite map_opt_list|].
    intros x. simpl. destruct (find_first _ _) as [st|]; cbn [option_map from_orm]; [|by intros [= <-]].
    rewrite step_roundtrip. by intros [= <-].
  - eapply answers_scalar; [rewrite (rel_select_gate _ s) by done; by rewrite map_opt_list|].
    intros x. simpl. destruct (dget gid (rs_gates s)) as [g|]; cbn [option_map from_orm]; [|by intros [= <-]].
    rewrite gate_roundtrip. by intros [= <-].
  - eapply (answers_scalar _ _ (fun r => Ok (option_map token_from_orm r)));
      [rewrite (rel_select_token _ s) by done; by rewrite map_opt_list|].
    intros x [= <-]. simpl. destruct (dget tid (rs_tokens s)) as [t|]; [|done]. simpl.
    by rewrite token_roundtrip.
  - destruct (answers_select (fun db => map or_id (runs_where (row_has_status [QUEUED]) db)) _ d
      (select_by_status [QUEUED] _ s Hrel)) as [H1 H2]. split; [done|].
    intros l Hl. eexists. split; [done|]. rewrite (H2 l Hl).
    rewrite (bfilter_ext _ (fun r => bool_decide (run_status r = QUEUED))); [done|].
    intros w _. by destruct (run_status w).
  - destruct (answers_select (fun db => map or_id (runs_where (row_has_status [QUEUED; RUNNING]) db)) _ d
      (select_by_status [QUEUED; RUNNING] _ s Hrel)) as [H1 H2]. split; [done|].
    intros l Hl. eexists. split; [done|]. rewrite (H2 l Hl).
    rewrite (bfilter_ext _ recoverable); [done|].
    intros w _. unfold recoverable. by destruct (run_status w).
Qed.

(** ** Histories *)

Definition pg_exec (cs : list store_call) (d : D) : D := fold_left (fun d c => fst (pg_call c d)) cs d.

(** Whether a call stores a new run does not depend on the fields that are kept. *)
Definition recreates_as (c : store_call) (s : RunStore) : Prop :=
  forall rid, recreates rid (as_stored c s) = recreates rid c.

Lemma mem_call_exec c s s' v : mem_call c s = (s', Ok v) -> exec_call c s = s'.
Proof.
  assert (forall A (f : A -> reply) (m : M RunStore A), fst (reply_with f m s) = fst (m s)) as Hf
    by (intros A f m; unfold reply_with, bind; by destruct (m s) as [? []]).
  intros Hm. apply (f_equal fst) in Hm. simpl in Hm. subst s'.
  destruct c; cbn [mem_call exec_call]; by rewrite Hf.
Qed.

(** A production history is an in-memory history of the calls that took effect. *)
Lemma pg_history cs d s :
  pg_rel (sql_rows d) s -> Forall new_run_ok cs ->
  exists cs', pg_rel (sql_rows (pg_exec cs d)) (exec_calls cs' s) /\
    forall rid, never_recreated rid cs -> never_recreated rid cs'.
Proof.
  intros Hrel Hok. revert d s Hrel. induction Hok as [|c cs Hc Hcs IH]; intros d s Hrel; [by exists []|].
  simpl. destruct (pg_call c d) as [d' r] eqn:E. simpl.
  assert (Hr : recreates_as c s) by (intros rid; unfold as_stored; destruct c; by repeat case_match).
  assert (Hdone : forall s' v, mem_call (as_stored c s) s = (s', Ok v) -> pg_rel (sql_rows d') s' ->
    exists cs', pg_rel (sql_rows (pg_exec cs d')) (exec_calls cs' s) /\
      forall rid, never_recreated rid (c :: cs) -> never_recreated rid cs').
  { intros s' v Hm%mem_call_exec Hrel'. destruct (IH d' s' Hrel') as (cs' & Hx & Hn).
    exists (as_stored c s :: cs'). simpl. rewrite Hm. split; [done|]. intros rid [Hc' Hcs']%Forall_cons.
    constructor; [by rewrite Hr|by apply Hn]. }
  pose proof (pg_call_sim c d s Hrel Hc d' r E) as Hsim. destruct r as [v|e].
  - destruct Hsim as (s' & Hm & Hrel'). by eapply Hdone.
  - destruct Hsim as [Heq|(s' & v & Hm & Hrel')]; [|by eapply Hdone]. rewrite <- Heq in Hrel.
    destruct (IH d' s Hrel) as (cs' & Hx & Hn). exists cs'. split; [done|].
    intros rid [_ Hcs']%Forall_cons. by apply Hn.
Qed.

(** So a run that ended stays as it ended, in the production store too. *)
Lemma pg_terminal_stays cs d s rid st :
  pg_rel (sql_rows d) s -> Forall new_run_ok cs -> never_recreated rid cs ->
  run_terminal st = true -> status_of rid s = Some st ->
  exists s', pg_rel (sql_rows (pg_exec cs d)) s' /\ status_of rid s' = Some st.
Proof.
  intros Hrel Hok Hn Ht Hst. destruct (pg_history cs d s Hrel Hok) as (cs' & Hx & Hn').
  exists (exec_calls cs' s). split; [done|]. by apply terminal_stays; [apply Hn'|..].
Qed.

(** Two callers whose SELECTs both precede the first UPDATE both find the token
    unused: the in-memory store's single use does not survive interleaving. *)
Lemma overlapping_token_checks d s tid t d1 d2 b1 b2 :
  pg_rel (sql_rows d) s -> dget tid (rs_tokens s) = Some t -> tok_is_used t = false ->
  token_free tid d = (d1, Ok b1) -> token_free tid d1 = (d2, Ok b2) ->
  b1 = true /\ b2 = true.
Proof.
  intros Hrel Ht Hu. unfold token_free, bind, ret.
  assert (forall d, pg_rel (sql_rows d) s -> Permutation (tokens_where (token_with_id tid) (sql_rows d))
            (opt_list (Some (token_to_orm t)))) as Hq.
  { intros d0 H1. rewrite (rel_select_token _ s) by done. by rewrite Ht. }
  destruct (scalar _ d) as [d0 [x|e]] eqn:E1; [|done]. intros [= -> <-].
  destruct (scalar_val _ _ _ _ _ (Hq d Hrel) E1) as [Hr Hx]. rewrite (Hx x eq_refl).
  destruct (scalar _ d1) as [d3 [y|e]] eqn:E2; [|done]. intros [= -> <-].
  rewrite <- Hr in Hrel. destruct (scalar_val _ _ _ _ _ (Hq d1 Hrel) E2) as [_ Hy].
  rewrite (Hy y eq_refl). unfold tok_is_used in Hu. cbn.
  by destruct (tok_used_at t).
Qed.
End Refinement.

(** ** Concrete stores *)

Definition empty_db : Db := mk_Db [] [] [] [] [].

Lemma pg_store_refines_witness :
  exists s', mem_call (CCreateRun example_run []) empty_run_store = (s', Ok (RpRun example_run)) /\
    pg_rel (fst (pg_call (D := Db) (CCreateRun example_run []) empty_db)) s'.
Proof.
  refine (pg_store_refines (D := Db) (CCreateRun example_run []) empty_db empty_run_store
    (fst (pg_call (CCreateRun example_run []) empty_db)) (Ok (RpRun example_run))
    pg_rel_empty _ eq_refl).
  repeat constructor.
Defined.

Lemma pg_reads_agree_witness :
  snd (pg_get_run (D := Db) "r1" empty_db) = Ok None /\
  answers (D := Db) (pg_get_run "r1") (fun x => snd (get_run "r1" empty_run_store) = Ok x) empty_db.
Proof.
  split; [reflexivity|].
  exact (proj1 (pg_reads_agree (D := Db) empty_db empty_run_store "r1" "s" "g" "t" pg_rel_empty)).
Defined.

(** Runs whose dedupe key is the empty string are ordinary runs to the in-memory
    store; the unique index of the database admits only one of them. *)
Definition keyless_run (id : string) : WorkflowRun :=
  mk_WorkflowRun id "intake" 1 QUEUED None (mk_TriggerRef "event" "webhook" (Some "")) []
    example_time example_time None.

Example empty_dedupe_key_collides :
  let d1 := fst (pg_create_run (D := Db) (keyless_run "r1") [] empty_db) in
  let s1 := fst (create_run (keyless_run "r1") [] empty_run_store) in
  snd (pg_create_run (D := Db) (keyless_run "r2") [] d1) = Err IntegrityError /\
  snd (create_run (keyless_run "r2") [] s1) = Ok (keyless_run "r2").
Proof. split; reflexivity. Qed.

(** A gate step that does not exist is an error of the database store only. *)
Example missing_gate_step_differs :
  snd (pg_advance_gate_step (D := Db) example_time "r1" "GATE:x" empty_db) =
    Err (step_not_found "r1" "GATE:x") /\
  snd (advance_gate_step example_time "r1" "GATE:x" empty_run_store) = Ok tt.
Proof. split; reflexivity. Qed.

(** An update that changes the channels of a gate or the key of a step is lost
    in the database store only. *)
Definition kept_gate (channels : list string) : GateRequest :=
  mk_GateRequest "g1" "r1" "GATE:x" "attorney" 1 GPending channels example_time example_time.

Definition kept_calls : list store_call :=
  [CCreateRun example_run []; CCreateGate (kept_gate ["web"]); CUpdateGate (kept_gate ["email"])].

Example kept_fields_differ :
  option_map og_channels (head (db_gates (pg_exec (D := Db) kept_calls empty_db))) = Some ["web"] /\
  option_map gr_channels (dget "g1" (rs_gates (exec_calls kept_calls empty_run_store))) = Some ["email"].
Proof. split; reflexivity. Qed.
