(* ===== verification/Rbac.v ===== *)
(** * Rbac: security/rbac.py

    Roles, permissions, the grant matrix and [authorize], the default-deny
    check every gated operation goes through.  A principal's roles are a
    frozenset; [authorize] visits them in an unspecified order, so the model
    takes a list and the theorem shows the answer does not depend on it. *)

From Stdlib Require Import ZArith Lia Ascii String List.
From stdpp Require Import base list strings.
From S2P Require Import Prelude.

Open Scope string_scope.
Open Scope list_scope.
Open Scope Z_scope.

Inductive Role :=
| ATTORNEY | PARALEGAL | INTAKE_COORDINATOR | OPERATIONS | AGENT_SERVICE | ADMIN.

#[export] Instance Role_eq_dec : EqDecision Role.
Proof. solve_decision. Defined.

Definition role_value (r : Role) : string :=
  match r with
  | ATTORNEY => "attorney" | PARALEGAL => "paralegal"
  | INTAKE_COORDINATOR => "intake_coordinator" | OPERATIONS => "operations"
  | AGENT_SERVICE => "agent_service" | ADMIN => "admin"
  end.

Definition all_roles : list Role :=
  [ATTORNEY; PARALEGAL; INTAKE_COORDINATOR; OPERATIONS; AGENT_SERVICE; ADMIN].

(** [Role(s)]: [None] is the [ValueError] of an unknown value. *)
Definition role_of (s : string) : option Role :=
  find_first (fun r => String.eqb (role_value r) s) all_roles.

Inductive Permission :=
| MATTER_READ | MATTER_WRITE
| CONTACT_READ | CONTACT_WRITE
| DOCUMENT_READ | DOCUMENT_WRITE | DOCUMENT_GENERATE | DOCUMENT_ROUTE
| DEADLINE_READ | DEADLINE_WRITE
| EMAIL_DRAFT | EMAIL_SEND
| WORKFLOW_RUN | WORKFLOW_STATUS
| GATE_APPROVE
| AUDIT_EXPORT
| RULE_ACTIVATE | SECRET_ROTATE.

#[export] Instance Permission_eq_dec : EqDecision Permission.
Proof. solve_decision. Defined.

Definition all_permissions : list Permission :=
  [MATTER_READ; MATTER_WRITE; CONTACT_READ; CONTACT_WRITE; DOCUMENT_READ; DOCUMENT_WRITE;
   DOCUMENT_GENERATE; DOCUMENT_ROUTE; DEADLINE_READ; DEADLINE_WRITE; EMAIL_DRAFT; EMAIL_SEND;
   WORKFLOW_RUN; WORKFLOW_STATUS; GATE_APPROVE; AUDIT_EXPORT; RULE_ACTIVATE; SECRET_ROTATE].

Record Principal := mk_Principal { pr_identity : string; pr_roles : list Role }.

Definition GRANTS (r : Role) : list Permission :=
  match r with
  | ATTORNEY =>
      [MATTER_READ; MATTER_WRITE; CONTACT_READ; CONTACT_WRITE; DOCUMENT_READ; DOCUMENT_WRITE;
       DOCUMENT_GENERATE; DOCUMENT_ROUTE; DEADLINE_READ; DEADLINE_WRITE; EMAIL_DRAFT; EMAIL_SEND;
       WORKFLOW_RUN; WORKFLOW_STATUS; GATE_APPROVE; AUDIT_EXPORT]
  | PARALEGAL =>
      [MATTER_READ; MATTER_WRITE; CONTACT_READ; CONTACT_WRITE; DOCUMENT_READ; DOCUMENT_WRITE;
       DOCUMENT_GENERATE; DEADLINE_READ; DEADLINE_WRITE; EMAIL_DRAFT; WORKFLOW_RUN;
       WORKFLOW_STATUS]
  | INTAKE_COORDINATOR =>
      [MATTER_READ; CONTACT_READ; CONTACT_WRITE; DOCUMENT_READ; DEADLINE_READ; EMAIL_DRAFT;
       WORKFLOW_RUN; WORKFLOW_STATUS]
  | OPERATIONS =>
      [MATTER_READ; CONTACT_READ; DOCUMENT_READ; DEADLINE_READ; WORKFLOW_STATUS; AUDIT_EXPORT]
  | AGENT_SERVICE =>
      [MATTER_READ; CONTACT_READ; DOCUMENT_READ; DEADLINE_READ; EMAIL_DRAFT; WORKFLOW_RUN;
       WORKFLOW_STATUS]
  | ADMIN => all_permissions
  end.

Definition granted_to (p : Permission) (r : Role) : bool := bool_decide (p ∈ GRANTS r).

Fixpoint authorize_roles (roles : list Role) (p : Permission) (checked : option bool) : bool :=
  match roles with
  | [] => false
  | r :: roles' =>
      if granted_to p r then match checked with Some b => b | None => true end
      else authorize_roles roles' p checked
  end.

(** The resource checker is consulted only for a non-empty resource. *)
Definition authorize (principal : Principal) (p : Permission) (resource : option string)
    (resource_checker : option (Principal -> string -> bool)) : bool :=
  authorize_roles (pr_roles principal) p
    match resource, resource_checker with
    | Some r, Some check => if str_truthy r then Some (check principal r) else None
    | _, _ => None
    end.

Lemma authorize_roles_spec roles p checked :
  authorize_roles roles p checked = true <->
  (exists r, r ∈ roles /\ p ∈ GRANTS r) /\ checked <> Some false.
Proof.
  induction roles as [|r roles IH]; simpl; unfold granted_to in *.
  - split; [done|]. intros [(r & Hr & _) _]. by apply elem_of_nil in Hr.
  - destruct (bool_decide_reflect (p ∈ GRANTS r)) as [Hp|Hp].
    + split.
      * intros H. split; [exists r; split; [left|done]|]. destruct checked as [[]|]; congruence.
      * intros [_ H]. destruct checked as [[]|]; congruence.
    + rewrite IH. split; intros [(r' & Hr & Hg) Hc]; (split; [|done]); exists r'.
      * split; [by right|done].
      * split; [|done]. by apply elem_of_cons in Hr as [->|].
Qed.

Lemma role_of_spec s r : role_of s = Some r <-> role_value r = s.
Proof.
  unfold role_of. split.
  - intros H. apply find_first_Some in H as [_ H]. by apply String.eqb_eq.
  - intros <-. by destruct r.
Qed.

Lemma approver_roles r : GATE_APPROVE ∈ GRANTS r <-> r = ATTORNEY \/ r = ADMIN.
Proof.
  rewrite <- (bool_decide_eq_true (GATE_APPROVE ∈ GRANTS r)).
  destruct r; split; try done; try (intros _; by auto); by intros [|].
Qed.

(** Authorisation is default-deny and order-independent.  Access is given
    exactly when some role of the principal has the permission in the grant
    matrix and no resource check that applies refuses; so a principal none of
    whose roles is granted the permission is refused whatever the checker says. *)
Lemma authorize_iff principal p resource checker :
  authorize principal p resource checker = true <->
  (exists r, r ∈ pr_roles principal /\ p ∈ GRANTS r) /\
  (forall res check, resource = Some res -> res <> EmptyString -> checker = Some check ->
     check principal res = true).
Proof.
  unfold authorize. rewrite authorize_roles_spec. split; intros [Hr Hc]; (split; [done|]).
  - intros res check -> Hne ->. unfold str_truthy in Hc.
    destruct (String.eqb_spec res EmptyString); [done|]. simpl in Hc.
    by destruct (check principal res).
  - destruct resource as [res|], checker as [check|]; try done.
    unfold str_truthy. destruct (String.eqb_spec res EmptyString); [done|]. simpl.
    by rewrite (Hc res check).
Qed.

(** Least privilege of the AI service identity.  A principal whose only
    role is [agent_service] can neither approve a gate, send e-mail, write a
    matter, contact, document or deadline, route or generate a document, export
    the audit log, activate a rule nor rotate a secret; and approval is granted
    to attorneys and administrators only. *)
Lemma agent_service_confined identity p resource checker :
  authorize (mk_Principal identity [AGENT_SERVICE]) p resource checker = true ->
  p ∈ [MATTER_READ; CONTACT_READ; DOCUMENT_READ; DEADLINE_READ; EMAIL_DRAFT;
       WORKFLOW_RUN; WORKFLOW_STATUS] /\
  (forall r, GATE_APPROVE ∈ GRANTS r <-> r = ATTORNEY \/ r = ADMIN).
Proof.
  unfold authorize. rewrite authorize_roles_spec. intros [(r & Hr & Hp) _].
  apply list_elem_of_singleton in Hr as ->. split; [done|].
  apply approver_roles.
Qed.

Lemma agent_service_confined_witness :
  authorize (mk_Principal "bot" [AGENT_SERVICE]) EMAIL_DRAFT None None = true /\
  EMAIL_DRAFT ∈ [MATTER_READ; CONTACT_READ; DOCUMENT_READ; DEADLINE_READ; EMAIL_DRAFT;
                 WORKFLOW_RUN; WORKFLOW_STATUS].
Proof.
  split; [reflexivity|].
  apply (agent_service_confined "bot" EMAIL_DRAFT None None). reflexivity.
Defined.
