(* ===== verification/Dsl.v ===== *)
(** * Dsl: core/orchestrator/dsl.py

    Gate configurations, the step context handed to handlers, workflow
    definitions, the registry and the [@workflow] class decorator.  The module
    is parameterised by the world [W] handlers act on.  A handler is an [async]
    method: it may change the world, registers compensation hooks on its
    context, and returns an output dict (or [None]) or raises. *)

From Stdlib Require Import ZArith Lia Ascii String List.
From stdpp Require Import base list strings pretty.
From S2P Require Import Prelude PyTime ConnErrors Effects States.

Open Scope string_scope.
Open Scope list_scope.
Open Scope Z_scope.
Open Scope cam_scope.

Definition GATE_PREFIX : string := "GATE:".

Record GateConfig := mk_GateConfig {
  gc_required_role : string;
  gc_quorum : Z;
  gc_channels : list string;
  gc_ttl_seconds : Z }.

Definition DEFAULT_GATE_CONFIG : GateConfig :=
  mk_GateConfig "attorney" 1 ["mcp"; "web"; "email"] 86400.

Section Dsl.
Context {W : Type}.

Definition Compensation : Type := M W unit.

Record StepContext := mk_StepContext {
  ctx_run_id : string;
  ctx_context : jdict;
  ctx_outputs : jdict;
  ctx_idem_key : string;
  ctx_compensations : list Compensation }.

(** [StepContext.__init__]: no compensations yet. *)
Definition new_context (rid : string) (context outputs : jdict) (idem_key : string) : StepContext :=
  mk_StepContext rid context outputs idem_key [].

Definition ctx_output (step_name : string) (c : StepContext) : option json :=
  dget step_name (ctx_outputs c).

Definition compensate (fn : Compensation) (c : StepContext) : StepContext :=
  mk_StepContext (ctx_run_id c) (ctx_context c) (ctx_outputs c) (ctx_idem_key c)
    (ctx_compensations c ++ [fn]).

(** A handler runs on the world and on the context object it is given. *)
Definition Handler : Type := M (W * StepContext) (option jdict).

Record WorkflowDef := mk_WorkflowDef {
  wd_name : string;
  wd_version : Z;
  wd_steps : list string;
  wd_handlers : dict string Handler;
  wd_gate_configs : dict string GateConfig;
  wd_input_schema : option (jdict -> res unit) }.

Definition is_gate (step : string) : bool := starts_with GATE_PREFIX step.

Definition gate_name (step : string) : string := drop_chars (String.length GATE_PREFIX) step.

Definition gate_config (d : WorkflowDef) (step : string) : GateConfig :=
  match dget (gate_name step) (wd_gate_configs d) with
  | Some c => c
  | None => DEFAULT_GATE_CONFIG
  end.

Definition validate_context (d : WorkflowDef) (context : jdict) : res unit :=
  match wd_input_schema d with Some validate => validate context | None => Ok tt end.

(** ** Registry *)

Definition registry : Type := dict string WorkflowDef.

Definition registry_key (name : string) (version : Z) : string := name +:+ ":" +:+ pretty version.

Definition get_workflow (reg : registry) (name : string) (version : Z) : res WorkflowDef :=
  or_raise (KeyError ("No workflow registered for " +:+ name +:+ " version " +:+ pretty version))
    (dget (registry_key name version) reg).

(** [max(l, key=version)]: the first of the definitions of highest version. *)
Fixpoint max_version (best : WorkflowDef) (l : list WorkflowDef) : WorkflowDef :=
  match l with
  | [] => best
  | d :: l' => max_version (if wd_version best <? wd_version d then d else best) l'
  end.

Definition get_workflow_latest (reg : registry) (name : string) : res WorkflowDef :=
  match bfilter (fun d => String.eqb (wd_name d) name) (dvalues reg) with
  | [] => Err (KeyError ("No workflow registered for " +:+ name))
  | d :: l => Ok (max_version d l)
  end.

Definition registered_workflows (reg : registry) : list (string * Z) :=
  map (fun d => (wd_name d, wd_version d)) (dvalues reg).

Definition clear_registry (reg : registry) : registry := [].

(** ** The [@workflow] decorator *)

(** What [getattr(instance, step, None)] finds, a missing attribute being [None]. *)
Inductive attribute :=
| NotCallable
| SyncMethod
| AsyncMethod (h : Handler).

Record WorkflowClass := mk_WorkflowClass {
  wc_steps : list string;
  wc_gates : dict string GateConfig;
  wc_attr : string -> option attribute }.

Definition step_handler (name : string) (cls : WorkflowClass) (step : string) : res Handler :=
  match wc_attr cls step with
  | None | Some NotCallable =>
      Err (ValueError ("Workflow " +:+ name +:+ ": step " +:+ step +:+ " has no handler method"))
  | Some SyncMethod =>
      Err (ValueError ("Workflow " +:+ name +:+ ": handler " +:+ step +:+ " must be an async def."))
  | Some (AsyncMethod h) => Ok h
  end.

(** The loop over [steps]: default gate configurations and handlers. *)
Fixpoint collect_steps (name : string) (cls : WorkflowClass) (steps : list string)
    (gates : dict string GateConfig) (handlers : dict string Handler)
    : res (dict string GateConfig * dict string Handler) :=
  match steps with
  | [] => Ok (gates, handlers)
  | step :: steps' =>
      if is_gate step then
        let gates := if dmem (gate_name step) gates then gates
                     else dset (gate_name step) DEFAULT_GATE_CONFIG gates in
        collect_steps name cls steps' gates handlers
      else
        letr! h := step_handler name cls step in
        collect_steps name cls steps' gates (dset step h handlers)
  end.

Definition workflow (name : string) (version : Z) (schema : option (jdict -> res unit))
    (cls : WorkflowClass) : M registry unit := fun reg =>
  match wc_steps cls with
  | [] => (reg, Err (ValueError ("Workflow " +:+ name +:+ ": `steps` list is empty.")))
  | steps =>
      match collect_steps name cls steps (wc_gates cls) [] with
      | Err e => (reg, Err e)
      | Ok (gates, handlers) =>
          let key := registry_key name version in
          if dmem key reg then
            (reg, Err (ValueError ("Workflow " +:+ name +:+ " version " +:+ pretty version
                                   +:+ " is already registered.")))
          else (dset key (mk_WorkflowDef name version steps handlers gates schema) reg, Ok tt)
      end
  end.

(** ** Lemmas *)

(** What a registered definition guarantees to the engine. *)
Record def_wf (d : WorkflowDef) : Prop := mk_def_wf {
  df_steps : wd_steps d <> [];
  df_handlers : forall step, step ∈ wd_steps d -> is_gate step = false ->
    exists h, dget step (wd_handlers d) = Some h;
  df_gates : forall step, step ∈ wd_steps d -> is_gate step = true ->
    exists c, dget (gate_name step) (wd_gate_configs d) = Some c }.

Definition registry_wf (reg : registry) : Prop :=
  dict_wf reg /\
  forall k d, dget k reg = Some d -> k = registry_key (wd_name d) (wd_version d) /\ def_wf d.

Lemma collect_steps_spec name cls steps gates handlers gates' handlers' :
  collect_steps name cls steps gates handlers = Ok (gates', handlers') ->
  (forall k, dmem k gates = true -> dmem k gates' = true) /\
  (forall k, dmem k handlers = true -> dmem k handlers' = true) /\
  (forall step, step ∈ steps -> is_gate step = false ->
     dmem step handlers' = true /\ exists h, wc_attr cls step = Some (AsyncMethod h)) /\
  (forall step, step ∈ steps -> is_gate step = true -> dmem (gate_name step) gates' = true).
Proof.
  assert (forall {V} k k' (v : V) d, dmem (K:=string) k d = true -> dmem k (dset k' v d) = true) as Hmono.
  { intros V k k' v d H. unfold dmem in *. rewrite dget_dset. by case_decide. }
  assert (forall {V} k (v : V) d, dmem (K:=string) k (dset k v d) = true) as Hself.
  { intros V k v d. unfold dmem. by rewrite dget_dset_eq. }
  revert gates handlers. induction steps as [|step steps IH]; simpl; intros gates handlers H.
  - simplify_eq. split; [done|]. split; [done|]. split; intros step Hin; by apply elem_of_nil in Hin.
  - destruct (is_gate step) eqn:G.
    + apply IH in H as (Hg & Hh & Hhs & Hgs). split; [|split; [done|split]].
      * intros k Hk. apply Hg. destruct (dmem (gate_name step) gates); auto.
      * intros s [->|Hs]%elem_of_cons Hs2; [congruence|auto].
      * intros s [->|Hs]%elem_of_cons Hs2; [|auto]. apply Hg.
        destruct (dmem (gate_name step) gates) eqn:E; auto.
    + unfold res_bind in H. destruct (step_handler name cls step) as [h|e] eqn:Eh; [|done].
      apply IH in H as (Hg & Hh & Hhs & Hgs). split; [done|]. split; [auto|]. split.
      * intros s [->|Hs]%elem_of_cons Hs2; [|auto]. split; [apply Hh; auto|].
        unfold step_handler in Eh. destruct (wc_attr cls step) as [[]|]; simplify_eq. eauto.
      * intros s [->|Hs]%elem_of_cons Hs2; [congruence|auto].
Qed.

Lemma max_version_spec best l :
  (max_version best l = best \/ max_version best l ∈ l) /\
  wd_version best <= wd_version (max_version best l) /\
  Forall (fun d => wd_version d <= wd_version (max_version best l)) l.
Proof.
  revert best. induction l as [|d l IH]; intros best; simpl; [repeat constructor; lia|].
  destruct (Z.ltb_spec (wd_version best) (wd_version d)).
  - destruct (IH d) as ([->|Hin] & ? & ?); (split; [right|split; [lia|by constructor]]);
      [left | by right].
  - destruct (IH best) as ([->|Hin] & ? & ?).
    + split; [by left|]. split; [lia|]. constructor; [lia|done].
    + split; [right; by right|]. split; [lia|]. constructor; [lia|done].
Qed.

Lemma get_workflow_latest_ok reg name d :
  registry_wf reg -> get_workflow_latest reg name = Ok d ->
  wd_name d = name /\ def_wf d /\ dget (registry_key name (wd_version d)) reg = Some d /\
  (forall k d', dget k reg = Some d' -> wd_name d' = name -> wd_version d' <= wd_version d).
Proof.
  intros [Hwf Hreg] H. unfold get_workflow_latest in H.
  destruct (bfilter _ _) as [|x l] eqn:E; [done|]. simplify_eq.
  assert (max_version x l ∈ x :: l) as Hin.
  { destruct (max_version_spec x l) as [[->|?] _]; [left|by right]. }
  rewrite <- E in Hin. apply elem_of_bfilter in Hin as [Hv Hn]. apply String.eqb_eq in Hn.
  apply dvalues_in_dget in Hv as [k Hk]; [|done]. destruct (Hreg k _ Hk) as [-> Hd].
  split; [done|]. split; [done|]. split; [by rewrite <- Hn|].
  intros k' d' Hk' Hn'. assert (d' ∈ x :: l) as Hin'.
  { rewrite <- E. apply elem_of_bfilter. split; [|by apply String.eqb_eq].
    unfold dvalues. apply list_elem_of_fmap. exists (k', d'). split; [done|].
    by apply dget_Some_in. }
  destruct (max_version_spec x l) as (_ & ? & Hf).
  apply elem_of_cons in Hin' as [->|Hin']; [done|].
  by apply (proj1 (List.Forall_forall _ _) Hf), list_elem_of_In.
Qed.

Lemma workflow_ok name version schema cls reg reg' u :
  workflow name version schema cls reg = (reg', Ok u) ->
  exists gates handlers, collect_steps name cls (wc_steps cls) (wc_gates cls) [] = Ok (gates, handlers)
    /\ wc_steps cls <> [] /\ dget (registry_key name version) reg = None
    /\ reg' = dset (registry_key name version)
                (mk_WorkflowDef name version (wc_steps cls) handlers gates schema) reg.
Proof.
  unfold workflow. intros H. destruct (wc_steps cls) as [|st sts] eqn:Es; [done|].
  destruct (collect_steps _ _ _ _ _) as [[gates handlers]|e] eqn:E; [|done].
  destruct (dmem _ reg) eqn:Em; [done|]. simplify_eq. exists gates, handlers.
  unfold dmem in Em. destruct (dget _ reg) eqn:Eg; [done|]. done.
Qed.

Lemma workflow_keeps_wf name version schema cls reg :
  registry_wf reg -> registry_wf (fst (workflow name version schema cls reg)).
Proof.
  intros [Hwf Hreg]. destruct (workflow name version schema cls reg) as [reg' [u|e]] eqn:E; simpl.
  - apply workflow_ok in E as (gates & handlers & Hc & Hne & Hfresh & ->).
    split; [auto with cam|]. intros k d. rewrite dget_dset. case_decide; [|auto].
    intros [= <-]. subst. split; [done|]. apply collect_steps_spec in Hc as (_ & _ & Hh & Hg).
    split; simpl; [done| |]; intros step Hin Hs; apply dmem_dget;
      [by apply Hh | by apply Hg].
  - unfold workflow in E. by repeat case_match; simplify_eq.
Qed.
End Dsl.

Arguments WorkflowDef W : clear implicits.
Arguments WorkflowClass W : clear implicits.
Arguments StepContext W : clear implicits.
Arguments Handler W : clear implicits.
Arguments Compensation W : clear implicits.
Arguments registry W : clear implicits.

(** A registry built by any sequence of decorator applications. *)
Inductive registered {W} : registry W -> Prop :=
| reg_empty : registered []
| reg_workflow name version schema cls reg :
    registered reg -> registered (fst (workflow name version schema cls reg)).

Lemma registered_wf {W} (reg : registry W) : registered reg -> registry_wf reg.
Proof.
  induction 1; [|by apply workflow_keeps_wf]. split; [apply dict_wf_nil|done].
Qed.

(** The registry keeps its promise to the engine.  After any applications
    of the decorator, the latest version of a name is a registered definition
    of that name with the highest version, it has a handler for every step that
    is not a gate and a configuration for every gate; and registering a name
    and version again is refused and leaves the registry as it was. *)
Lemma registry_latest {W} (reg : registry W) name d :
  registered reg -> get_workflow_latest reg name = Ok d ->
  wd_name d = name /\ def_wf d /\
  (forall k d', dget k reg = Some d' -> wd_name d' = name -> wd_version d' <= wd_version d) /\
  (forall schema cls, exists e,
     workflow name (wd_version d) schema cls reg = (reg, Err (ValueError e))).
Proof.
  intros Hr Hd. apply registered_wf in Hr.
  destruct (get_workflow_latest_ok reg name d Hr Hd) as (Hn & Hdf & Hk & Hmax).
  do 3 (split; [done|]). intros schema cls. unfold workflow.
  destruct (wc_steps cls) as [|st sts]; [eauto|].
  destruct (collect_steps _ _ _ _ _) as [[gates handlers]|e] eqn:E.
  - unfold dmem. rewrite Hk. eauto.
  - assert (exists w, e = ValueError w) as [w ->]; [|eauto]. clear - E. revert E.
    generalize (wc_gates cls) as g. generalize ([] : dict string (Handler W)) as h.
    induction (st :: sts) as [|s l IH]; intros h g; simpl; [done|].
    destruct (is_gate s); [apply IH|]. unfold res_bind.
    destruct (step_handler name cls s) as [h'|e'] eqn:E'; [apply IH|].
    intros [= <-]. unfold step_handler in E'. repeat case_match; simplify_eq; eauto.
Qed.

(** A class with one step and one gate. *)
Definition example_class {W} : WorkflowClass W :=
  mk_WorkflowClass ["parse"; "GATE:review"] []
    (fun _ => Some (AsyncMethod (ret (Some [("ok", JBool true)])))).

Definition example_registry : registry unit := fst (workflow "intake" 1 None example_class []).

Definition example_def : WorkflowDef unit :=
  match get_workflow_latest example_registry "intake" with
  | Ok d => d
  | Err _ => mk_WorkflowDef "" 0 [] [] [] None
  end.

Lemma registry_latest_witness :
  wd_version example_def = 1 /\ wd_steps example_def = ["parse"; "GATE:review"] /\
  wd_name example_def = "intake".
Proof.
  split; [reflexivity|]. split; [reflexivity|].
  apply (registry_latest example_registry "intake" example_def); [repeat constructor | reflexivity].
Defined.
