(* ===== verification/Idem.v ===== *)
(** * Idem: core/orchestrator/idempotency.py and core/orchestrator/locking.py

    [IdempotencyStore] is the interface the engine relies on: the class
    [IdemOps] has its three methods and [IdemLaws] what they promise.  The
    in-memory store and the Redis store are both instances.  The Redis client
    is outside the repository: the class [RedisOps] has the commands the
    program sends and [RedisLaws] their documented effect on the key space
    ([SET], [SET NX], [GET], [DEL]; expiry is not modelled, so the laws speak of
    a server within the keys' TTL).  Any command may also fail, and a write whose
    answer was lost may have taken effect.  Outputs are stored as JSON, as [Json]
    models it. *)

From Stdlib Require Import ZArith Lia Ascii String List QArith.
From stdpp Require Import base list strings.
From S2P Require Import Prelude PyTime ConnErrors Effects Json.

Open Scope string_scope.
Open Scope list_scope.
Open Scope Z_scope.
Open Scope cam_scope.

(** ** The Redis client *)

Class RedisOps (R : Type) := {
  redis_get : string -> M R (option string);
  redis_set : string -> string -> Z -> M R unit;
  redis_set_nx : string -> string -> Z -> M R bool;
  redis_delete : string -> M R unit;
  redis_expire : string -> Z -> M R unit;
  redis_view : R -> string -> option string }.

Class RedisLaws (R : Type) `{RedisOps R} := {
  get_view k r : forall k', redis_view (fst (redis_get k r)) k' = redis_view r k';
  get_val k r v : snd (redis_get k r) = Ok v -> v = redis_view r k;
  set_view k v ttl r r' : redis_set k v ttl r = (r', Ok tt) ->
    forall k', redis_view r' k' = if decide (k' = k) then Some v else redis_view r k';
  set_err k v ttl r r' e : redis_set k v ttl r = (r', Err e) ->
    (forall k', redis_view r' k' = redis_view r k') \/
    (forall k', redis_view r' k' = if decide (k' = k) then Some v else redis_view r k');
  set_nx_view k v ttl r r' b : redis_set_nx k v ttl r = (r', Ok b) ->
    forall k', redis_view r' k' = if bool_decide (k' = k) && b then Some v else redis_view r k';
  set_nx_err k v ttl r r' e : redis_set_nx k v ttl r = (r', Err e) ->
    (forall k', redis_view r' k' = redis_view r k') \/
    (redis_view r k = None /\
     forall k', redis_view r' k' = if decide (k' = k) then Some v else redis_view r k');
  set_nx_val k v ttl r b : snd (redis_set_nx k v ttl r) = Ok b ->
    b = match redis_view r k with Some _ => false | None => true end;
  delete_view k r r' : redis_delete k r = (r', Ok tt) ->
    forall k', redis_view r' k' = if decide (k' = k) then None else redis_view r k' }.

(** A server that never fails, as an association list: the documented commands
    themselves, used to show that the laws can hold.  [redis_lossy] below is one
    whose writes take effect although their answers are lost. *)
Definition redis_mem : Type := dict string string.

#[export] Instance redis_mem_ops : RedisOps redis_mem := {
  redis_get k := gets (dget k);
  redis_set k v _ := modify (dset k v);
  redis_set_nx k v _ := fun r =>
    match dget k r with Some _ => (r, Ok false) | None => (dset k v r, Ok true) end;
  redis_delete k := modify (bfilter (fun p => negb (String.eqb p.1 k)));
  redis_expire _ _ := ret tt;
  redis_view r k := dget k r }.

Lemma dget_bfilter_key {V} (r : dict string V) k k' :
  dget k' (bfilter (fun p => negb (String.eqb p.1 k)) r) =
    if decide (k' = k) then None else dget k' r.
Proof.
  induction r as [|[k2 v2] r IH]; simpl; [by case_decide|].
  destruct (String.eqb_spec k2 k) as [->|]; simpl; rewrite IH; repeat case_decide; congruence.
Qed.

#[export] Instance redis_mem_laws : RedisLaws redis_mem.
Proof.
  split; simpl; try done.
  - intros k r v [= <-]. done.
  - intros k v ttl r r' [= <-] k'. apply dget_dset.
  - intros k v ttl r r' b. destruct (dget k r) eqn:E; intros [= <- <-] k'.
    + by rewrite andb_false_r.
    + rewrite dget_dset, andb_true_r. by repeat case_decide.
  - intros k v ttl r r' e. by destruct (dget k r).
  - intros k v ttl r b. by destruct (dget k r); intros [= <-].
  - intros k r r' [= <-] k'. apply dget_bfilter_key.
Qed.

(** The same server behind a connection that loses the answers of its writes. *)
Record redis_lossy := mk_redis_lossy { rl_server : redis_mem }.

Definition lossy {A} (lost : bool) (m : M redis_mem A) : M redis_lossy A := fun r =>
  let '(s, x) := m (rl_server r) in
  (mk_redis_lossy s, if lost then Err (OtherError "TimeoutError" "Timeout reading from socket") else x).

#[export] Instance redis_lossy_ops : RedisOps redis_lossy := {
  redis_get k := lossy false (redis_get k);
  redis_set k v ttl := lossy true (redis_set k v ttl);
  redis_set_nx k v ttl := lossy true (redis_set_nx k v ttl);
  redis_delete k := lossy true (redis_delete k);
  redis_expire k ttl := lossy true (redis_expire k ttl);
  redis_view r k := redis_view (rl_server r) k }.

#[export] Instance redis_lossy_laws : RedisLaws redis_lossy.
Proof.
  split; simpl; unfold lossy; try done.
  - intros k r v [= <-]. done.
  - intros k v ttl r r' e [= <- <-]. right. intros k'. apply dget_dset.
  - intros k v ttl r r' b. simpl. by destruct (dget k (rl_server r)).
  - intros k v ttl r r' e. simpl. destruct (dget k (rl_server r)) eqn:E; intros [= <- <-]; [by left|right].
    split; [done|]. intros k'. apply dget_dset.
  - intros k v ttl r b. simpl. by destruct (dget k (rl_server r)).
Qed.

(** ** The idempotency interface *)

Class IdemOps (I : Type) := {
  reserve : string -> M I bool;
  record_output : string -> jdict -> M I unit;
  lookup_output : string -> M I (option jdict);
  (** Ghost: what [lookup_output] finds for each key. *)
  recorded : I -> string -> option jdict;
  (** Ghost: the outputs that come back as they were recorded. *)
  storable : jdict -> Prop }.

Class IdemLaws (I : Type) `{IdemOps I} := {
  lookup_recorded k i : forall k', recorded (fst (lookup_output k i)) k' = recorded i k';
  lookup_val k i v : snd (lookup_output k i) = Ok v -> v = recorded i k;
  reserve_recorded k i : forall k', recorded (fst (reserve k i)) k' = recorded i k';
  record_recorded k v i i' : record_output k v i = (i', Ok tt) ->
    (storable v -> v <> [] -> recorded i' k = Some v) /\ (forall k', k' <> k -> recorded i' k' = recorded i k') }.

(** A store none of whose methods raises. *)
Class IdemTotal (I : Type) `{IdemOps I} := {
  lookup_total k i : exists i' v, lookup_output k i = (i', Ok v);
  reserve_total k i : exists i' b, reserve k i = (i', Ok b);
  record_total k v i : exists i', record_output k v i = (i', Ok tt) }.

(** *** InMemoryIdempotencyStore *)

Definition idem_mem : Type := dict string jdict.

(** [val if val != {} else None] *)
Definition non_empty (v : jdict) : option jdict := match v with [] => None | _ => Some v end.

Definition mem_reserve (k : string) : M idem_mem bool := fun i =>
  if dmem k i then (i, Ok false) else (dset k [] i, Ok true).

Definition mem_record (k : string) (v : jdict) : M idem_mem unit := modify (dset k v).

Definition mem_view (i : idem_mem) (k : string) : option jdict :=
  match dget k i with Some v => non_empty v | None => None end.

Definition mem_lookup (k : string) : M idem_mem (option jdict) := gets (fun i => mem_view i k).

Definition mem_force_record (k : string) (v : jdict) : M idem_mem unit := modify (dset k v).

#[export] Instance idem_mem_ops : IdemOps idem_mem := {
  reserve := mem_reserve;
  record_output := mem_record;
  lookup_output := mem_lookup;
  recorded := mem_view;
  storable _ := True }.

#[export] Instance idem_mem_laws : IdemLaws idem_mem.
Proof.
  split; simpl; try done.
  - intros k i v [= <-]. done.
  - intros k i k'. unfold mem_reserve, mem_view, dmem.
    destruct (dget k i) eqn:E; simpl; [done|]. rewrite dget_dset.
    case_decide; [|done]. subst. by rewrite E.
  - intros k v i i' [= <-]. unfold mem_view. split.
    + intros _ Hne. rewrite dget_dset_eq. by destruct v.
    + intros k' Hk. by rewrite dget_dset_ne.
Qed.

#[export] Instance idem_mem_total : IdemTotal idem_mem.
Proof.
  split; simpl; intros k.
  - intros i. by eexists i, _.
  - intros i. unfold mem_reserve. destruct (dmem k i); by eexists _, _.
  - intros v i. by eexists.
Qed.

(** *** RedisIdempotencyStore *)

Definition IDEM_TTL : Z := 86400.

Definition redis_key (idem_key : string) : string := "cam:step_idem:" +:+ idem_key.

Lemma redis_key_inj k k' : redis_key k = redis_key k' -> k = k'.
Proof. unfold redis_key. simpl. intros H. by simplify_eq. Qed.

Section RedisIdem.
Context (float_repr : Q -> string) (parse_float parse_constant : string -> json).
Context {R : Type} `{RedisLaws R}.

Record redis_idem := mk_redis_idem { ri_client : R }.

Definition on_client {A} (m : M R A) : M redis_idem A :=
  zoom ri_client (fun r _ => mk_redis_idem r) m.

Definition rd_reserve (k : string) : M redis_idem bool :=
  on_client (redis_set_nx (redis_key k) "reserved" IDEM_TTL).

Definition rd_record (k : string) (v : jdict) : M redis_idem unit :=
  on_client (redis_set (redis_key k) (json_dumps float_repr DEFAULT (JDict v)) IDEM_TTL).

(** [record], the only writer of these keys besides [reserve], writes dicts. *)
Definition decode_output (raw : option string) : option jdict :=
  match raw with
  | None => None
  | Some raw =>
      if String.eqb raw "reserved" then None
      else match json_loads parse_float parse_constant raw with Some (JDict d) => Some d | _ => None end
  end.

(** What was recorded is read back, and never taken for the placeholder. *)
Lemma decode_dumped v : faithful float_repr parse_float (JDict v) ->
  decode_output (Some (json_dumps float_repr DEFAULT (JDict v))) = Some v.
Proof.
  intros Hv. cbn [decode_output].
  destruct (String.eqb_spec (json_dumps float_repr DEFAULT (JDict v)) "reserved") as [Hd|_].
  - destruct (dumps_dict float_repr DEFAULT v) as [t Ht]. by rewrite Ht in Hd.
  - by rewrite (loads_dumps _ _ _ _ _ Hv), in_order_unsorted.
Qed.

Definition rd_lookup (k : string) : M redis_idem (option jdict) :=
  let! raw := on_client (redis_get (redis_key k)) in ret (decode_output raw).

#[export] Instance redis_idem_ops : IdemOps redis_idem := {
  reserve := rd_reserve;
  record_output := rd_record;
  lookup_output := rd_lookup;
  recorded i k := decode_output (redis_view (ri_client i) (redis_key k));
  storable v := faithful float_repr parse_float (JDict v) }.

#[export] Instance redis_idem_laws : IdemLaws redis_idem.
Proof.
  split; simpl.
  - intros k i k'. unfold rd_lookup, bind, on_client, zoom.
    pose proof (get_view (redis_key k) (ri_client i) (redis_key k')) as Hv.
    destruct (redis_get _ _) as [r [v|e]]; simpl in *; by rewrite Hv.
  - intros k i v. unfold rd_lookup, bind, on_client, zoom.
    pose proof (get_val (redis_key k) (ri_client i)) as Hv.
    destruct (redis_get _ _) as [r [v'|e]]; simpl in *; [|done]. intros [= <-].
    by rewrite (Hv v').
  - intros k i k'. unfold rd_reserve, on_client, zoom.
    pose proof (set_nx_val (redis_key k) "reserved" IDEM_TTL (ri_client i) true) as Hb.
    destruct (redis_set_nx _ _ _ _) as [r [b|e]] eqn:E; cbn [fst snd ri_client] in *.
    + rewrite (set_nx_view _ _ _ _ _ _ E).
      destruct (bool_decide_reflect (redis_key k' = redis_key k)) as [Hk|]; [|done].
      destruct b; [|done]. rewrite Hk. specialize (Hb eq_refl).
      destruct (redis_view (ri_client i) (redis_key k)); [done|reflexivity].
    + destruct (set_nx_err _ _ _ _ _ _ E) as [Hv|[Hn Hv]]; rewrite Hv; [done|].
      case_decide as Hk; [|done]. by rewrite Hk, Hn.
  - intros k v i i'. unfold rd_record, on_client, zoom.
    destruct (redis_set _ _ _ _) as [r [[]|e]] eqn:E; [|done]. intros [= <-]. simpl.
    pose proof (set_view _ _ _ _ _ E) as Hv. split.
    + intros Hs _. rewrite Hv, decide_True by done. by apply decode_dumped.
    + intros k' Hk. rewrite Hv, decide_False; [done|]. intros Hk'. by apply redis_key_inj in Hk'.
Qed.
End RedisIdem.

(** ** RunLock *)

Definition DEFAULT_LOCK_TTL : Z := 300.

Definition lock_key (rid : string) : string := "cam:run_lock:" +:+ rid.

Section RunLock.
Context {R : Type} `{RedisOps R}.

(** [has_redis] is [self._redis is not None]; no method of the lock raises. *)
Record RunLock := mk_RunLock { lock_has_redis : bool; lock_ttl : Z }.

Definition acquire (l : RunLock) (rid : string) : M R bool :=
  if lock_has_redis l then
    try_except (redis_set_nx (lock_key rid) "1" (lock_ttl l)) (fun _ => ret true)
  else ret true.

Definition release (l : RunLock) (rid : string) : M R unit :=
  if lock_has_redis l then try_except (redis_delete (lock_key rid)) (fun _ => ret tt)
  else ret tt.

Definition extend (l : RunLock) (rid : string) : M R unit :=
  if lock_has_redis l then try_except (redis_expire (lock_key rid) (lock_ttl l)) (fun _ => ret tt)
  else ret tt.

Lemma acquire_total l rid r : exists r' b, acquire l rid r = (r', Ok b).
Proof.
  unfold acquire, try_except. destruct (lock_has_redis l); [|by exists r, true].
  destruct (redis_set_nx _ _ _ _) as [r' [b|e]]; [by exists r', b | by exists r', true].
Qed.

Lemma release_total l rid r : exists r', release l rid r = (r', Ok tt).
Proof.
  unfold release, try_except. destruct (lock_has_redis l); [|by exists r].
  destruct (redis_delete _ _) as [r' [[]|e]]; by exists r'.
Qed.
End RunLock.

(** Mutual exclusion of workers.  With a lock backed by Redis, when a first
    worker's [SET NX] succeeded, every later [acquire] of the same run either
    returns [False] or met a Redis error, until the key is deleted; after a
    successful release the run can be locked again. *)
Lemma run_lock_excludes {R} `{RedisLaws R} ttl ttl' rid r r1 :
  redis_set_nx (lock_key rid) "1" ttl r = (r1, Ok true) ->
  let worker1 := mk_RunLock true ttl in
  let worker2 := mk_RunLock true ttl' in
  acquire worker1 rid r = (r1, Ok true) /\
  (snd (acquire worker2 rid r1) = Ok false \/
   exists e, snd (redis_set_nx (lock_key rid) "1" ttl' r1) = Err e) /\
  (forall r2 r3 b, redis_delete (lock_key rid) r1 = (r2, Ok tt) ->
     release worker1 rid r1 = (r2, Ok tt) /\
     (redis_set_nx (lock_key rid) "1" ttl' r2 = (r3, Ok b) -> b = true)).
Proof.
  intros E w1 w2. unfold acquire, release, try_except; simpl. rewrite E. split; [done|].
  assert (redis_view r1 (lock_key rid) = Some "1") as Hv.
  { by rewrite (set_nx_view _ _ _ _ _ _ E), bool_decide_true. }
  split.
  - pose proof (set_nx_val (lock_key rid) "1" ttl' r1) as Hb.
    destruct (redis_set_nx _ _ ttl' r1) as [r2 [b|e]]; simpl in *; [left | right; eauto].
    by rewrite (Hb b eq_refl), Hv.
  - intros r2 r3 b Hd. rewrite Hd. split; [done|]. intros Hn.
    pose proof (set_nx_val (lock_key rid) "1" ttl' r2 b) as Hb. rewrite Hn in Hb.
    pose proof (delete_view _ _ _ Hd (lock_key rid)) as Hdel. rewrite decide_True in Hdel by done.
    rewrite Hdel in Hb. by apply Hb.
Qed.

Lemma run_lock_excludes_witness :
  let r1 : redis_mem := [("cam:run_lock:r1", "1")] in
  snd (acquire (mk_RunLock true 300) "r1" r1) = Ok false /\
  acquire (mk_RunLock true 300) "r1" ([] : redis_mem) = (r1, Ok true).
Proof.
  split; [reflexivity|].
  apply (run_lock_excludes (R := redis_mem) 300 300 "r1" [] [("cam:run_lock:r1", "1")]).
  reflexivity.
Defined.
