(* ===== verification/Health.v ===== *)
(** * Health: connectors/health.py and connectors/redis_health.py

    The circuit breaker of one connector ([ConnectorHealth]), the process-wide
    registry of breakers ([get_health], [reset_health]) and the variant whose
    open flag is shared through Redis ([RedisConnectorHealth]).  A method that
    reads [time.monotonic()] takes the reading as its argument [now]; it reads
    the clock at most once.  Log lines are left out; the
    gauge is in [ConnMetrics]. *)

From Stdlib Require Import ZArith Lia Lqa Ascii String List QArith.
From stdpp Require Import base list strings.
From S2P Require Import Prelude PyTime ConnErrors Effects Idem.

Open Scope string_scope.
Open Scope list_scope.
Open Scope Z_scope.
Open Scope cam_scope.

(** ** ConnectorHealth *)

Inductive HealthState := HHealthy | HDegraded | HOpen | HHalfOpen.

#[export] Instance HealthState_eq_dec : EqDecision HealthState.
Proof. solve_decision. Defined.

Record ConnectorHealth := mk_ConnectorHealth {
  h_connector : string;
  h_failure_threshold : Z;
  h_cool_down_seconds : Q;
  h_state : HealthState;
  h_consecutive_failures : Z;
  h_opened_at : option Q;
  h_last_error : option ConnectorError }.

Definition new_health (connector : string) (failure_threshold : Z) (cool_down_seconds : Q)
    : ConnectorHealth :=
  mk_ConnectorHealth connector failure_threshold cool_down_seconds HHealthy 0 None None.

Definition with_state (st : HealthState) (h : ConnectorHealth) : ConnectorHealth :=
  mk_ConnectorHealth (h_connector h) (h_failure_threshold h) (h_cool_down_seconds h) st
    (h_consecutive_failures h) (h_opened_at h) (h_last_error h).

Definition with_opened_at (t : option Q) (h : ConnectorHealth) : ConnectorHealth :=
  mk_ConnectorHealth (h_connector h) (h_failure_threshold h) (h_cool_down_seconds h) (h_state h)
    (h_consecutive_failures h) t (h_last_error h).

Definition with_failures (n : Z) (e : option ConnectorError) (h : ConnectorHealth)
    : ConnectorHealth :=
  mk_ConnectorHealth (h_connector h) (h_failure_threshold h) (h_cool_down_seconds h) (h_state h)
    n (h_opened_at h) e.

(** [(time.monotonic() - self._opened_at) >= self.cool_down_seconds], with the
    test that [_opened_at] is set. *)
Definition cooled_down (now : Q) (h : ConnectorHealth) : bool :=
  match h_opened_at h with
  | Some t => Qle_bool (h_cool_down_seconds h) (now - t)
  | None => false
  end.

(** [_maybe_transition_to_half_open] *)
Definition maybe_half_open (now : Q) (h : ConnectorHealth) : ConnectorHealth :=
  if bool_decide (h_state h = HOpen) && cooled_down now h then with_state HHalfOpen h else h.

(** The properties [state] and [is_open]: reading them may move the breaker. *)
Definition read_state (now : Q) (h : ConnectorHealth) : ConnectorHealth * HealthState :=
  let h' := maybe_half_open now h in (h', h_state h').

Definition is_open (now : Q) (h : ConnectorHealth) : ConnectorHealth * bool :=
  let '(h', st) := read_state now h in (h', bool_decide (st = HOpen)).

Definition record_success (h : ConnectorHealth) : ConnectorHealth :=
  let h1 := with_failures 0 None h in
  match h_state h1 with
  | HHalfOpen | HOpen | HDegraded => with_opened_at None (with_state HHealthy h1)
  | HHealthy => h1
  end.

(** [max(1, self.failure_threshold // 2)] *)
Definition degrade_threshold (failure_threshold : Z) : Z := Z.max 1 (failure_threshold / 2).

Definition record_failure (now : Q) (error : ConnectorError) (h : ConnectorHealth)
    : ConnectorHealth :=
  let h1 := with_failures (h_consecutive_failures h + 1) (Some error) h in
  match h_state h1 with
  | HHalfOpen => with_opened_at (Some now) (with_state HOpen h1)
  | HHealthy | HDegraded =>
      if h_failure_threshold h1 <=? h_consecutive_failures h1 then
        with_opened_at (Some now) (with_state HOpen h1)
      else if degrade_threshold (h_failure_threshold h1) <=? h_consecutive_failures h1 then
        with_state HDegraded h1
      else h1
  | HOpen => h1
  end.

(** ** The registry of breakers of the process

    [_HEALTH] maps a connector to an object that clients keep a reference to, so
    the model has a heap of breakers and the registry maps names to addresses. *)

Record HealthReg := mk_HealthReg {
  hr_heap : list ConnectorHealth;
  hr_names : dict string nat }.

Definition get_health (connector : string) (failure_threshold : Z) (cool_down_seconds : Q)
    : M HealthReg nat := fun g =>
  match dget connector (hr_names g) with
  | Some a => (g, Ok a)
  | None =>
      let a := length (hr_heap g) in
      (mk_HealthReg (hr_heap g ++ [new_health connector failure_threshold cool_down_seconds])
         (dset connector a (hr_names g)), Ok a)
  end.

Definition reset_health (connector : string) : M HealthReg unit :=
  modify (fun g => mk_HealthReg (hr_heap g) (dpop connector (hr_names g))).

(** ** RedisConnectorHealth *)

Definition open_key (connector : string) : string := "cam:circuit_open:" +:+ connector.

Section RedisHealth.
Context {R : Type} {RO : RedisOps R}.

Record RHealth := mk_RHealth {
  rh_local : ConnectorHealth;
  rh_redis : option R }.

(** A call on the client, when there is one, whose errors are swallowed. *)
Definition swallowed (m : M R unit) (s : RHealth) : RHealth :=
  match rh_redis s with
  | None => s
  | Some r => mk_RHealth (rh_local s) (Some (fst (m r)))
  end.

Definition local_is_open (now : Q) (s : RHealth) : RHealth * bool :=
  let '(h, b) := is_open now (rh_local s) in (mk_RHealth h (rh_redis s), b).

(** [is_open_async]; with a synchronous client [is_open] is the same code. *)
Definition r_is_open (now : Q) (s : RHealth) : RHealth * bool :=
  match rh_redis s with
  | None => local_is_open now s
  | Some r =>
      let '(r', v) := redis_get (open_key (h_connector (rh_local s))) r in
      let s' := mk_RHealth (rh_local s) (Some r') in
      match v with
      | Ok (Some _) => (s', true)
      | Ok None => (s', false)
      | Err _ => local_is_open now s'
      end
  end.

Definition r_record_success (s : RHealth) : RHealth :=
  let h := record_success (rh_local s) in
  swallowed (redis_delete (open_key (h_connector h))) (mk_RHealth h (rh_redis s)).

(** [int(self.cool_down_seconds)] truncates towards zero. *)
Definition Qtrunc (q : Q) : Z := Z.quot (Qnum q) (Zpos (Qden q)).

Definition r_record_failure (now : Q) (error : ConnectorError) (s : RHealth) : RHealth :=
  let h := record_failure now error (rh_local s) in
  let s' := mk_RHealth h (rh_redis s) in
  if bool_decide (h_state h = HOpen) then
    swallowed (redis_set (open_key (h_connector h)) "1" (Qtrunc (h_cool_down_seconds h))) s'
  else s'.

End RedisHealth.

(** ** What the breaker promises, as a function of what happened *)

(** What a client tells the breaker: a success, a failure, or a look at it. *)
Inductive hevent :=
| ESuccess
| EFailure (now : Q) (e : ConnectorError)
| ELook (now : Q).

Definition hstep (h : ConnectorHealth) (ev : hevent) : ConnectorHealth :=
  match ev with
  | ESuccess => record_success h
  | EFailure now e => record_failure now e h
  | ELook now => fst (read_state now h)
  end.

Definition hrun (h : ConnectorHealth) (evs : list hevent) : ConnectorHealth := fold_left hstep evs h.

(** The events since the last success. *)
Definition since_success (evs : list hevent) : list hevent :=
  fold_left (fun acc ev => match ev with ESuccess => [] | _ => acc ++ [ev] end) evs [].

(** The failures among them, oldest first. *)
Definition failure_of (ev : hevent) : option ConnectorError :=
  match ev with EFailure _ e => Some e | _ => None end.
Definition failures_in (es : list hevent) : list ConnectorError := omap failure_of es.

(** A look [cool_down] or more after [t]. *)
Definition cooled (cool_down t : Q) (ev : hevent) : bool :=
  match ev with ELook now => Qle_bool cool_down (now - t) | _ => false end.

(** The number of consecutive failures that opens the circuit. *)
Definition trip (threshold : Z) : Z := Z.max 1 threshold.

Section Circuit.
Context (threshold : Z) (cool_down : Q).

(** [probing t es]: since the circuit opened at [t], the events [es], among them a
    look after the cool-down, and no failure from that look on. *)
Inductive probing (t : Q) : list hevent -> Prop :=
| probing_intro waiting now probe :
    Forall (fun ev => cooled cool_down t ev = false) waiting ->
    cooled cool_down t (ELook now) = true -> (failures_in probe = []) ->
    probing t (waiting ++ ELook now :: probe).

(** [opens es t]: the last of the events [es] is a failure at [t] that opened the
    circuit, because it is the failure that reaches the threshold or because it
    is the first one after a look at a cooled-down circuit. *)
Inductive opens : list hevent -> Q -> Prop :=
| opens_trip es now e :
    Z.of_nat (length (failures_in es)) + 1 = trip threshold -> opens (es ++ [EFailure now e]) now
| opens_again es t es' now e :
    opens es t -> probing t es' -> opens (es ++ es' ++ [EFailure now e]) now.

(** The state and the opening time that the events since the last success
    prescribe. *)
Definition circuit (es : list hevent) (st : HealthState) (opened_at : option Q) : Prop :=
  let n := Z.of_nat (length (failures_in es)) in
  if n <? trip threshold then
    st = (if degrade_threshold threshold <=? n then HDegraded else HHealthy) /\ opened_at = None
  else exists opening t es', es = opening ++ es' /\ opens opening t /\ opened_at = Some t /\
    ((st = HOpen /\ Forall (fun ev => cooled cool_down t ev = false) es') \/
     (st = HHalfOpen /\ probing t es')).
End Circuit.

Definition health_inv (es : list hevent) (h : ConnectorHealth) : Prop :=
  h_consecutive_failures h = Z.of_nat (length (failures_in es)) /\ h_last_error h = last (failures_in es) /\
  circuit (h_failure_threshold h) (h_cool_down_seconds h) es (h_state h) (h_opened_at h).

Lemma failures_snoc es now e : failures_in (es ++ [EFailure now e]) = failures_in es ++ [e].
Proof. unfold failures_in. by rewrite omap_app. Qed.

Lemma failures_look es now : failures_in (es ++ [ELook now]) = failures_in es.
Proof. unfold failures_in. rewrite omap_app. cbn. apply app_nil_r. Qed.

Lemma failures_count_snoc es now e :
  Z.of_nat (length (failures_in (es ++ [EFailure now e]))) = Z.of_nat (length (failures_in es)) + 1.
Proof. rewrite failures_snoc, length_app. cbn [length]. lia. Qed.

Lemma health_inv_empty h :
  h_consecutive_failures h = 0 -> h_last_error h = None -> h_state h = HHealthy -> h_opened_at h = None ->
  health_inv [] h.
Proof.
  intros En El Es Eo. unfold health_inv, circuit. rewrite En, El, Es, Eo. split; [done|]. split; [done|].
  cbn [failures_in omap length].
  unfold trip, degrade_threshold. cbn -[Z.max].
  destruct (Z.ltb_spec (Z.of_nat 0) (Z.max 1 (h_failure_threshold h))); [|lia].
  by destruct (Z.leb_spec (Z.max 1 (h_failure_threshold h / 2)) (Z.of_nat 0)); [lia|].
Qed.

Lemma record_success_inv es h : health_inv es h -> health_inv [] (record_success h).
Proof.
  intros (_ & _ & Hc). unfold record_success. cbn. destruct (h_state h) eqn:E; cbn.
  - apply health_inv_empty; try done. cbn. unfold circuit in Hc. cbn in E.
    destruct (_ <? _); [by destruct Hc|]. destruct Hc as (? & ? & ? & _ & _ & _ & [[? _]|[? _]]); discriminate.
  - by apply health_inv_empty.
  - by apply health_inv_empty.
  - by apply health_inv_empty.
Qed.

(** A tripped circuit stays tripped when another event comes. *)
Lemma tripped_count threshold cool_down es t :
  opens threshold cool_down es t -> trip threshold <= Z.of_nat (length (failures_in es)).
Proof.
  induction 1 as [es now e Hn|es t es' now e _ IH _].
  - rewrite failures_count_snoc. lia.
  - unfold failures_in. rewrite omap_app, length_app. fold (failures_in es). lia.
Qed.

Lemma circuit_tripped threshold cool_down opening es' st t :
  opens threshold cool_down opening t ->
  ((st = HOpen /\ Forall (fun ev => cooled cool_down t ev = false) es') \/
   (st = HHalfOpen /\ probing cool_down t es')) ->
  circuit threshold cool_down (opening ++ es') st (Some t).
Proof.
  intros Ho Hs. unfold circuit. destruct (Z.ltb_spec (Z.of_nat (length (failures_in (opening ++ es')))) (trip threshold)) as [Hl|_].
  - apply tripped_count in Ho. unfold failures_in in Hl, Ho. rewrite omap_app, length_app in Hl. lia.
  - by exists opening, t, es'.
Qed.

(** [circuit] prescribes one state and one opening time: the circuit cannot have
    opened at two times. *)
Section CircuitUnique.
Context (threshold : Z) (cool_down : Q).
Abbreviation opens := (opens threshold cool_down).
Abbreviation probing := (probing cool_down).

Lemma first_split {A} (f : A -> bool) w w' x x' q q' :
  Forall (fun a => f a = false) w -> Forall (fun a => f a = false) w' -> (f x = true) -> (f x' = true) ->
  w ++ x :: q = w' ++ x' :: q' -> q = q'.
Proof.
  intros Hw Hw' Hx Hx'. revert w' Hw'. induction Hw as [|a w Ha _ IH]; intros [|a' w'] Hw' E;
    cbn in E; injection E as E1 E2; subst.
  - done.
  - apply Forall_cons_iff in Hw' as [? _]. congruence.
  - congruence.
  - apply (IH w'); [apply (proj1 (Forall_cons_iff _ _ _) Hw')|done].
Qed.

Lemma probing_cooled t es : probing t es -> ~ Forall (fun ev => cooled cool_down t ev = false) es.
Proof. intros [w l p _ Hl _] [_ Hf]%Forall_app. apply Forall_cons_iff in Hf as [Hf _]. congruence. Qed.

Lemma probing_no_failure t p p' now e rest : probing t p -> probing t p' -> p <> p' ++ EFailure now e :: rest.
Proof.
  intros [w l q Hw Hl Hq] [w' l' q' Hw' Hl' _] E. rewrite <- app_assoc, <- app_comm_cons in E.
  apply (first_split (cooled cool_down t)) in E; [|done..]. subst q.
  unfold failures_in in Hq. rewrite omap_app in Hq. apply app_nil in Hq as [_ Hq]. done.
Qed.

Lemma opens_last es t : opens es t -> exists es' e, es = es' ++ [EFailure t e].
Proof. intros [es' now e _|es' t' es2 now e _ _]; [by eexists _, _|]. exists (es' ++ es2), e. by rewrite app_assoc. Qed.

Lemma opens_time es t t' : opens es t -> opens es t' -> t = t'.
Proof.
  intros (l & e & ->)%opens_last (l' & e' & E)%opens_last. apply app_inj_tail in E as [_ E]. congruence.
Qed.

(** Between two openings there is a probe that failed. *)
Lemma opens_nested n op1 x t1 t2 :
  (length (op1 ++ x) < n)%nat -> opens op1 t1 -> opens (op1 ++ x) t2 -> x <> [] ->
  exists p now e rest, x = p ++ EFailure now e :: rest /\ probing t1 p.
Proof.
  revert op1 x t1 t2. induction n as [|n IH]; intros op1 x t1 t2 Hn Ho1 Ho2 Hx; [lia|].
  remember (op1 ++ x) as op2 eqn:E. destruct Ho2 as [es now e Ht|op3 t3 p now e Ho3 Hp].
  - exfalso. destruct x as [|y x _] using rev_ind; [done|]. rewrite app_assoc in E.
    apply app_inj_tail in E as [-> _]. apply tripped_count in Ho1. unfold failures_in in *.
    rewrite omap_app, length_app in Ht. lia.
  - apply app_eq_inv in E as [(k & -> & ->)|(k & -> & E)].
    + destruct k as [|y k].
      * rewrite app_nil_r in Ho3. rewrite (opens_time _ _ _ Ho1 Ho3). by exists p, now, e, [].
      * destruct (IH op1 (y :: k) t1 t3) as (p' & now' & e' & rest & -> & Hp'); [|done..|].
        { rewrite !length_app in *. cbn [length] in *. lia. }
        exists p', now', e', (rest ++ p ++ [EFailure now e]). by rewrite <- app_assoc.
    + destruct k as [|y k].
      * rewrite app_nil_r in Ho1. rewrite (opens_time _ _ _ Ho1 Ho3). by exists p, now, e, [].
      * destruct (IH op3 (y :: k) t3 t1) as (p' & now' & e' & rest & E2 & Hp'); [|done..|].
        { destruct x; [done|]. rewrite E in Hn. rewrite !length_app in *. cbn [length] in *. lia. }
        exfalso. rewrite E2 in E. destruct x as [|z x _] using rev_ind; [done|]. rewrite !app_assoc in E.
        apply app_inj_tail in E as [E _]. apply (probing_no_failure t3 p p' now' e' (rest ++ x)); [done|done|].
        by rewrite E, <- app_assoc.
Qed.

Lemma circuit_unique es st1 t1 st2 t2 :
  circuit threshold cool_down es st1 t1 -> circuit threshold cool_down es st2 t2 -> st1 = st2 /\ t1 = t2.
Proof.
  unfold circuit. destruct (_ <? _); [naive_solver congruence|].
  assert (forall op a t st op' b t' st', op ++ a = op' ++ b -> opens op t -> opens op' t' ->
    ((st = HOpen /\ Forall (fun ev => cooled cool_down t ev = false) a) \/ (st = HHalfOpen /\ probing t a)) ->
    ((st' = HOpen /\ Forall (fun ev => cooled cool_down t' ev = false) b) \/ (st' = HHalfOpen /\ probing t' b)) ->
    (exists k, op' = op ++ k /\ a = k ++ b) -> st = st' /\ t = t') as Hone.
  { intros op a t st op' b t' st' _ Ho Ho' Hs Hs' (k & -> & ->). destruct k as [|y k].
    - rewrite app_nil_r in Ho'. pose proof (opens_time _ _ _ Ho Ho') as <-. split; [|done].
      destruct Hs as [[-> Hf]|[-> Hp]], Hs' as [[-> Hf']|[-> Hp']]; try done; exfalso; by eapply probing_cooled.
    - exfalso. destruct (opens_nested _ op (y :: k) t t' (Nat.lt_succ_diag_r _) Ho Ho') as (p & now & e & rest & E & Hp); [done|].
      rewrite E in Hs. destruct Hs as [[_ Hf]|[_ Hp2]].
      + apply Forall_app in Hf as [[Hf _]%Forall_app _]. by eapply probing_cooled.
      + apply (probing_no_failure t _ p now e (rest ++ b) Hp2 Hp). by rewrite <- app_assoc. }
  intros (op & t & a & -> & Ho & -> & Hs) (op' & t' & b & E & Ho' & -> & Hs').
  destruct (app_eq_inv _ _ _ _ E) as [(k & -> & Ek)|(k & -> & Ek)].
  - destruct (Hone _ b t' st2 _ a t st1 (eq_sym E) Ho' Ho Hs' Hs) as [-> ->]; [|done]. by exists k.
  - destruct (Hone _ a t st1 _ b t' st2 E Ho Ho' Hs Hs') as [-> ->]; [|done]. by exists k.
Qed.
End CircuitUnique.

Lemma probing_look cool_down t es now : probing cool_down t es -> probing cool_down t (es ++ [ELook now]).
Proof.
  intros [w l p Hw Hl Hp]. rewrite <- app_assoc, <- app_comm_cons. constructor; [done|done|].
  by rewrite failures_look.
Qed.

Lemma circuit_look threshold cool_down es st t now :
  circuit threshold cool_down es st t ->
  circuit threshold cool_down (es ++ [ELook now])
    (if bool_decide (st = HOpen) && match t with Some t => Qle_bool cool_down (now - t) | None => false end
     then HHalfOpen else st) t.
Proof.
  intros Hc. unfold circuit in Hc. destruct (_ <? _) eqn:El.
  - destruct Hc as [-> ->]. rewrite andb_false_r. unfold circuit. rewrite failures_look, El. done.
  - destruct Hc as (op & t' & es' & -> & Ho & -> & Hs). rewrite <- app_assoc.
    apply circuit_tripped; [done|]. destruct Hs as [[-> Hf]|[-> Hp]].
    + rewrite bool_decide_true by done. cbn [andb]. destruct (Qle_bool _ _) eqn:Ec.
      * right. split; [done|]. by constructor.
      * left. split; [done|]. apply Forall_app. split; [done|]. by constructor.
    + right. rewrite bool_decide_false by done. split; [done|]. by apply probing_look.
Qed.

Lemma maybe_half_open_inv now es h : health_inv es h -> health_inv (es ++ [ELook now]) (maybe_half_open now h).
Proof.
  intros (Hn & Hl & Hc%(circuit_look _ _ _ _ _ now)). unfold health_inv, maybe_half_open, cooled_down.
  rewrite failures_look. destruct (_ && _); by destruct h.
Qed.

Lemma record_failure_inv now e es h :
  health_inv es h -> health_inv (es ++ [EFailure now e]) (record_failure now e h).
Proof.
  intros (Hn & Hl & Hc). unfold health_inv.
  rewrite failures_count_snoc, failures_snoc, last_snoc.
  assert (h_consecutive_failures (record_failure now e h) = h_consecutive_failures h + 1 /\
    h_last_error (record_failure now e h) = Some e /\ h_failure_threshold (record_failure now e h) = h_failure_threshold h /\
    h_cool_down_seconds (record_failure now e h) = h_cool_down_seconds h) as (-> & -> & -> & ->).
  { unfold record_failure. cbn. repeat case_match; done. }
  split; [lia|]. split; [done|]. unfold circuit in Hc.
  set (n := Z.of_nat (length (failures_in es))) in *. set (th := h_failure_threshold h) in *.
  destruct (Z.ltb_spec n (trip th)) as [Hlt|Hge].
  - destruct Hc as [Hst Ho].
    assert (h_state (record_failure now e h) =
      (if th <=? n + 1 then HOpen else if degrade_threshold th <=? n + 1 then HDegraded else HHealthy) /\
      h_opened_at (record_failure now e h) = if th <=? n + 1 then Some now else None) as [-> ->].
    { unfold record_failure. cbn. rewrite Hst, Hn. fold n th.
      destruct (Z.leb_spec (degrade_threshold th) n); (destruct (Z.leb_spec th (n + 1)); [done|]);
        (destruct (Z.leb_spec (degrade_threshold th) (n + 1)); [done|]); cbn; rewrite ?Hst; split; try done; lia. }
    destruct (Z.leb_spec th (n + 1)).
    + rewrite <- (app_nil_r (es ++ _)). apply circuit_tripped; [|by left].
      apply opens_trip. fold n. unfold trip in *. lia.
    + unfold circuit. rewrite failures_count_snoc. fold n.
      destruct (Z.ltb_spec (n + 1) (trip th)); [done|]. unfold trip in *. lia.
  - destruct Hc as (op & t & es' & -> & Ho & Ht & [[Hst Hf]|[Hst Hp]]).
    + unfold record_failure. cbn. rewrite Hst. cbn. rewrite Hst, Ht, <- app_assoc.
      apply circuit_tripped; [done|]. left. split; [done|]. apply Forall_app. split; [done|]. by constructor.
    + unfold record_failure. cbn. rewrite Hst. cbn.
      replace ((op ++ es') ++ [EFailure now e]) with ((op ++ es' ++ [EFailure now e]) ++ [])
        by (by rewrite app_nil_r, <- app_assoc).
      apply circuit_tripped; [|by left]. by eapply opens_again.
Qed.

Lemma hrun_inv evs es h :
  health_inv es h ->
  health_inv (fold_left (fun acc ev => match ev with ESuccess => [] | _ => acc ++ [ev] end) evs es) (hrun h evs).
Proof.
  revert es h. induction evs as [|[|now e|now] evs IH]; intros es h H; simpl; [done|..]; apply IH.
  - by eapply record_success_inv.
  - by apply record_failure_inv.
  - by apply maybe_half_open_inv.
Qed.

Lemma hstep_config ev h :
  h_connector (hstep h ev) = h_connector h /\
  h_failure_threshold (hstep h ev) = h_failure_threshold h /\
  h_cool_down_seconds (hstep h ev) = h_cool_down_seconds h.
Proof.
  destruct ev, h as [c t cd st n op le]; simpl;
    unfold record_success, record_failure, maybe_half_open; simpl;
    repeat case_match; done.
Qed.

Lemma hrun_config evs h :
  h_connector (hrun h evs) = h_connector h /\
  h_failure_threshold (hrun h evs) = h_failure_threshold h /\
  h_cool_down_seconds (hrun h evs) = h_cool_down_seconds h.
Proof.
  revert h. induction evs as [|ev evs IH]; intros h; simpl; [done|].
  destruct (IH (hstep h ev)) as (-> & -> & ->). apply hstep_config.
Qed.

Lemma cooled_down_false now h :
  cooled_down now h = false <->
  (forall t, h_opened_at h = Some t -> (now - t < h_cool_down_seconds h)%Q).
Proof.
  unfold cooled_down. destruct (h_opened_at h) as [t|]; [|naive_solver].
  split.
  - intros H t' [= <-]. apply Qnot_le_lt. intros Hle. apply Qle_bool_iff in Hle. congruence.
  - intros H. specialize (H t eq_refl). apply not_true_iff_false. intros Hle.
    apply Qle_bool_iff in Hle. apply (Qlt_not_le _ _ H Hle).
Qed.

Lemma is_open_spec now h :
  snd (is_open now h) = true <->
  h_state h = HOpen /\ (forall t, h_opened_at h = Some t -> (now - t < h_cool_down_seconds h)%Q).
Proof.
  rewrite <- cooled_down_false. unfold is_open, read_state, maybe_half_open. simpl.
  destruct (bool_decide_reflect (h_state h = HOpen)) as [E|E]; simpl.
  - destruct (cooled_down now h); simpl; [|rewrite E]; split; naive_solver.
  - rewrite bool_decide_eq_true. naive_solver.
Qed.

(** C25: the circuit breaker of a connector is the machine its specification
    describes.  Whatever successes, failures and looks at the state a breaker
    saw since its creation: the failure count is the number of failures since
    the last success and [last_error] the latest of them.  Below the threshold
    the state is healthy or degraded as the count compares with half the
    threshold, and no opening time is kept.  From the threshold on, the opening
    time is that of the failure that last opened the circuit (the one that reached
    the threshold, or the first one after a look at a cooled-down circuit); the
    state is open while no look came after the cool-down from that time, and half
    open from the first such look.  Calls are refused exactly while the state is
    open and the cool-down has not elapsed.  A success closes the circuit. *)
Theorem circuit_breaker_exact connector threshold cool_down evs :
  let h := hrun (new_health connector threshold cool_down) evs in
  let es := since_success evs in
  h_consecutive_failures h = Z.of_nat (length (failures_in es)) /\ h_last_error h = last (failures_in es) /\
  circuit threshold cool_down es (h_state h) (h_opened_at h) /\
  (forall now, snd (is_open now h) = true <->
     h_state h = HOpen /\ exists t, h_opened_at h = Some t /\ (now - t < cool_down)%Q) /\
  (h_state (record_success h) = HHealthy /\ h_opened_at (record_success h) = None).
Proof.
  cbv zeta. pose proof (hrun_inv evs [] (new_health connector threshold cool_down)) as Hi.
  destruct Hi as (Hn & Hl & Hc); [by apply health_inv_empty|]. fold (since_success evs) in *.
  destruct (hrun_config evs (new_health connector threshold cool_down)) as (_ & Ht & Hcd).
  set (h := hrun _ evs) in *. simpl in Ht, Hcd. rewrite Ht, Hcd in Hc.
  split; [done|]. split; [done|]. split; [done|].
  assert (h_state h = HOpen -> exists t, h_opened_at h = Some t) as Ho.
  { unfold circuit in Hc. intros E. rewrite E in Hc. destruct (_ <? _).
    - destruct Hc as [Hc _]. by destruct (_ <=? _).
    - destruct Hc as (? & t & ? & _ & _ & -> & _). by exists t. }
  assert (h_state h = HHealthy -> h_opened_at h = None) as Hh.
  { unfold circuit in Hc. intros E. rewrite E in Hc. destruct (_ <? _); [apply Hc|].
    destruct Hc as (? & ? & ? & _ & _ & _ & [[? _]|[? _]]); discriminate. }
  split.
  - intros now. rewrite is_open_spec, Hcd. split.
    + intros [E H]. destruct (Ho E) as [t Ht']. split; [done|]. exists t. auto.
    + intros [E (t & Ho' & H)]. split; [done|]. intros t' Ht'. congruence.
  - unfold record_success. cbn. destruct (h_state h) eqn:E; cbn; try done. by split; [|apply Hh].
Qed.

(** ** The shared flag *)

Section RedisHealthLaws.
Context {R : Type} {RO : RedisOps R} {RL : RedisLaws R}.

(** A worker whose Redis answers sees the flag another worker set, whatever its
    own breaker says; one whose Redis fails falls back to its own breaker. *)
Lemma r_is_open_flag now h r r' v :
  redis_get (open_key (h_connector h)) r = (r', v) ->
  snd (r_is_open now (mk_RHealth h (Some r))) =
    match v with
    | Ok _ => match redis_view r (open_key (h_connector h)) with Some _ => true | None => false end
    | Err _ => snd (is_open now h)
    end.
Proof.
  intros E. unfold r_is_open. simpl. rewrite E. destruct v as [v|e].
  - pose proof (get_val (open_key (h_connector h)) r v) as Hv. rewrite E in Hv.
    rewrite <- (Hv eq_refl). by destruct v.
  - unfold local_is_open. simpl. by destruct (is_open now h).
Qed.

(** Opening a breaker publishes the flag when Redis accepts the write. *)
Lemma r_record_failure_publishes now e h r r' :
  let h' := record_failure now e h in
  h_state h' = HOpen ->
  redis_set (open_key (h_connector h')) "1" (Qtrunc (h_cool_down_seconds h')) r = (r', Ok tt) ->
  exists r2, r_record_failure now e (mk_RHealth h (Some r)) = mk_RHealth h' (Some r2) /\
    redis_view r2 (open_key (h_connector h)) = Some "1".
Proof.
  cbv zeta. intros Ho E. unfold r_record_failure. simpl. rewrite Ho. simpl.
  unfold swallowed. simpl. rewrite E. exists r'. split; [done|]. rewrite (set_view _ _ _ _ _ E).
  destruct (hstep_config (EFailure now e) h) as (Hc & _). simpl in Hc. rewrite Hc.
  by rewrite decide_True.
Qed.

End RedisHealthLaws.

(** ** The registry *)

(** Every registered address holds a breaker of that name. *)
Definition reg_wf (g : HealthReg) : Prop :=
  forall c a, dget c (hr_names g) = Some a ->
    exists h, hr_heap g !! a = Some h /\ h_connector h = c.

Lemma get_health_wf connector t cd g g' a :
  reg_wf g -> get_health connector t cd g = (g', Ok a) ->
  reg_wf g' /\ dget connector (hr_names g') = Some a /\
  (exists h, hr_heap g' !! a = Some h /\ h_connector h = connector) /\
  get_health connector t cd g' = (g', Ok a).
Proof.
  intros Hwf. unfold get_health. destruct (dget connector (hr_names g)) as [a'|] eqn:E.
  - intros [= <- <-]. rewrite E. repeat split; auto.
  - intros [= <- <-]. simpl. rewrite dget_dset_eq.
    assert ((hr_heap g ++ [new_health connector t cd]) !! length (hr_heap g)
            = Some (new_health connector t cd)) as Hnew.
    { rewrite lookup_app_r by lia. by rewrite Nat.sub_diag. }
    repeat split; [|by eexists]. intros c a. simpl. rewrite dget_dset.
    case_decide; [intros [= <-]; subst; by eexists|].
    intros Hc. destruct (Hwf c a Hc) as (h & Hh & Hn). exists h. split; [|done].
    rewrite lookup_app_l; [done|]. by apply lookup_lt_Some in Hh.
Qed.

Lemma reset_health_wf connector g :
  dict_wf (hr_names g) -> reg_wf g -> reg_wf (fst (reset_health connector g)).
Proof.
  intros Hd Hwf c a. simpl. destruct (decide (c = connector)) as [->|Hne].
  - by rewrite dget_dpop_eq.
  - rewrite dget_dpop_ne by done. apply Hwf.
Qed.
