(* ===== verification/Middleware.v ===== *)
(** * Middleware: connectors/middleware.py

    [OutboundClient.request] and its helpers: the circuit guard, the idempotency
    key of a write and its record in Redis, the retry loop with its deadline, and
    what a success leaves behind.  httpx is outside the repository: one HTTP
    call is the parameter [http], a response carries what the code asks of it.
    [time.monotonic], [SystemRandom().uniform] and [uuid5] are parameters too; a
    sleep is recorded in [en_sleeps].  Log lines are left
    out; the counters are in [ConnMetrics]. *)

From Stdlib Require Import ZArith Lia Lqa Ascii String List QArith Qminmax.
From stdpp Require Import base list strings pretty.
From S2P Require Import Prelude PyTime ConnErrors Effects Idem Health.

Open Scope string_scope.
Open Scope list_scope.
Open Scope Z_scope.
Open Scope cam_scope.

Record RetryPolicy := mk_RetryPolicy {
  max_attempts : Z;
  base_delay : Q;
  max_delay : Q;
  total_deadline : Q }.

Definition DEFAULT_RETRY : RetryPolicy := mk_RetryPolicy 5 (1#2) 30 120.

(** What the client asks of an [httpx.Response]: [status_code], [is_success],
    the [Retry-After] header, whether [content] is not empty, and [json()],
    where [None] is a raise. *)
Record HttpResponse := mk_HttpResponse {
  resp_status : Z;
  resp_is_success : bool;
  resp_retry_after : option string;
  resp_has_content : bool;
  resp_json : option json }.

(** The arguments of [httpx.AsyncClient.request]. *)
Record HttpArgs := mk_HttpArgs {
  ha_method : string;
  ha_url : string;
  ha_headers : option (dict string string);
  ha_json : json;
  ha_timeout : Q }.

Record OutboundClient := mk_OutboundClient {
  cl_connector : string;
  cl_has_redis : bool;
  cl_health : nat }.

Record Env (R W : Type) := mk_Env {
  en_health : HealthReg;
  en_redis : R;
  en_http : W;
  en_mono : nat;
  en_jitters : nat;
  en_sleeps : list Q }.
Arguments mk_Env {R W}.
Arguments en_health {R W}.
Arguments en_redis {R W}.
Arguments en_http {R W}.
Arguments en_mono {R W}.
Arguments en_jitters {R W}.
Arguments en_sleeps {R W}.

Definition idem_redis_key (connector idem_key : string) : string :=
  "cam:idem:" +:+ connector +:+ ":" +:+ idem_key.

(** [{"result": result, "status": "completed"}] *)
Definition completed_record (result : json) : json :=
  JDict [("result", result); ("status", JStr "completed")].

(** [if cached and cached.get("status") == "completed": ... cached["result"]] *)
Definition cached_result (cached : option json) : res (option json) :=
  match cached with
  | None => Ok None
  | Some j =>
      if json_truthy j then
        match j with
        | JDict d =>
            match dget "status" d with
            | Some (JStr st) =>
                if String.eqb st "completed" then
                  match dget "result" d with
                  | Some r => Ok (Some r)
                  | None => Err (KeyError "result")
                  end
                else Ok None
            | _ => Ok None
            end
        | _ => Err (AttributeError "get")
        end
      else Ok None
  end.

(** Python's two-argument [max] and [min]. *)
Definition py_qmax (a b : Q) : Q := if Qle_bool b a then a else b.
Definition py_qmin (a b : Q) : Q := if Qle_bool a b then a else b.

#[global] Arguments cached_result : simpl never.

Section Client.
Context {R W : Type} {RO : RedisOps R}.
Context (http : HttpArgs -> W -> W * (HttpResponse + failure)).
Context (make_response : Z -> json -> HttpResponse).
Context (classify_fn : failure -> string -> ConnectorError).
Context (mono : nat -> Q) (uniform : nat -> Q -> Q).
Context (uuid5 : string -> string -> string) (canonical_json : json -> string).
Context (dumps : json -> string) (loads : string -> option json).

Definition CM (A : Type) : Type := M (Env R W) A.

(** ** Access to the environment *)

Definition on_reg {A} (m : M HealthReg A) : CM A :=
  zoom en_health (fun g s =>
    mk_Env g (en_redis s) (en_http s) (en_mono s) (en_jitters s) (en_sleeps s)) m.

Definition on_redis_client {A} (m : M R A) : CM A :=
  zoom en_redis (fun r s =>
    mk_Env (en_health s) r (en_http s) (en_mono s) (en_jitters s) (en_sleeps s)) m.

Definition monotonic : CM Q := fun s =>
  (mk_Env (en_health s) (en_redis s) (en_http s) (S (en_mono s)) (en_jitters s) (en_sleeps s),
   Ok (mono (en_mono s))).

Definition sleep (d : Q) : CM unit := fun s =>
  (mk_Env (en_health s) (en_redis s) (en_http s) (en_mono s) (en_jitters s) (en_sleeps s ++ [d]),
   Ok tt).

Definition call_http (a : HttpArgs) : CM (HttpResponse + failure) := fun s =>
  let '(w, x) := http a (en_http s) in
  (mk_Env (en_health s) (en_redis s) w (en_mono s) (en_jitters s) (en_sleeps s), Ok x).

(** A method of the breaker the client holds. *)
Definition on_breaker {A} (c : OutboundClient) (f : ConnectorHealth -> ConnectorHealth * A) : CM A :=
  on_reg (fun g =>
    match hr_heap g !! cl_health c with
    | Some h => let '(h', a) := f h in
                (mk_HealthReg (<[cl_health c := h']> (hr_heap g)) (hr_names g), Ok a)
    | None => (g, Err (RuntimeError "dangling reference"))
    end).

Definition breaker_failure (c : OutboundClient) (e : ConnectorError) : CM unit :=
  let! now := monotonic in on_breaker c (fun h => (record_failure now e h, tt)).

(** ** OutboundClient *)

Definition new_client (connector : string) (has_redis : bool) (failure_threshold : Z)
    (cool_down_seconds : Q) : CM OutboundClient :=
  let! a := on_reg (get_health connector failure_threshold cool_down_seconds) in
  ret (mk_OutboundClient connector has_redis a).

Definition guard_circuit (c : OutboundClient) : CM unit :=
  let! now := monotonic in
  let! b := on_breaker c (is_open now) in
  if b then
    let! e := on_breaker c (fun h => (h, h_last_error h)) in
    raise (ConnectorExn (match e with
                         | Some e => e
                         | None => simple_error FatalError (cl_connector c) "Circuit breaker is open."
                         end))
  else ret tt.

Definition url_namespace : string := "6ba7b810-9dad-11d1-80b4-00c04fd430c8".

Definition derive_write_key (connector operation logical_args : string) : string :=
  uuid5 url_namespace (connector +:+ ":" +:+ operation +:+ ":" +:+ logical_args).

Definition resolve_idem_key (c : OutboundClient) (a : HttpArgs) (idem_key : option string)
    (is_write : bool) (operation : string) : option string :=
  if negb is_write || negb (cl_has_redis c) then None
  else match idem_key with
       | Some k => Some k
       | None => Some (derive_write_key (cl_connector c) operation
                         (ha_method a +:+ ":" +:+ ha_url a +:+ ":" +:+ canonical_json (ha_json a)))
       end.

Definition idem_get (connector idem_key : string) : CM (option json) :=
  let! raw := on_redis_client (redis_get (idem_redis_key connector idem_key)) in
  match raw with
  | None => ret None
  | Some raw => match loads raw with
                | Some j => ret (Some j)
                | None => raise (ValueError "JSONDecodeError")
                end
  end.

Definition idem_set (connector idem_key : string) (result : json) : CM unit :=
  on_redis_client (redis_set (idem_redis_key connector idem_key)
                     (dumps (completed_record result)) 86400).

Definition single_attempt (c : OutboundClient) (a : HttpArgs) : CM HttpResponse :=
  let! x := call_http (mk_HttpArgs (ha_method a) (ha_url a)
                         (Some (match ha_headers a with Some h => h | None => [] end))
                         (ha_json a) (ha_timeout a)) in
  match x with
  | inl r => if resp_is_success r then ret r
             else raise (ConnectorExn (classify_fn (Response (resp_status r) (resp_retry_after r))
                                         (cl_connector c)))
  | inr exc => raise (ConnectorExn (classify_fn exc (cl_connector c)))
  end.

(** [_jitter_wait]: the next draw of [uniform(0, min(cap, base * 2**attempt))]. *)
Definition jitter_wait (attempt : Z) (base cap : Q) : CM Q := fun s =>
  let ceiling := py_qmin cap (base * inject_Z (2 ^ attempt))%Q in
  (mk_Env (en_health s) (en_redis s) (en_http s) (en_mono s) (S (en_jitters s)) (en_sleeps s),
   Ok (uniform (en_jitters s) ceiling)).

Definition rate_limit_wait (exc : ConnectorError) (wait : Q) : Q :=
  match ce_class exc, ce_retry_after exc with
  | RateLimitError, Some ra => py_qmax wait ra
  | _, _ => wait
  end.

(** The body of the loop's handler for a [ConnectorError] up to the end of the
    sleep: it raises, or returns and the loop goes round again. *)
Definition after_failure (c : OutboundClient) (p : RetryPolicy) (deadline : Q) (attempt : Z)
    (exc : ConnectorError) : CM unit :=
  breaker_failure c exc ;;
  (if negb (ce_retryable exc) || (max_attempts p <=? attempt) then
     if ce_retryable exc && (max_attempts p <=? attempt) then
       raise (ConnectorExn (simple_error FatalError (cl_connector c)
                              ("Retry exhausted after " +:+ pretty attempt +:+ " attempts.")))
     else raise (ConnectorExn exc)
   else
     let! w := jitter_wait attempt (base_delay p) (max_delay p) in
     let wait := rate_limit_wait exc w in
     let! now := monotonic in
     let remaining := (deadline - now)%Q in
     if Qle_bool remaining 0 then
       raise (ConnectorExn (simple_error FatalError (cl_connector c)
                              "Total deadline exceeded mid-retry."))
     else sleep (py_qmin wait remaining)).

Fixpoint retry_loop (fuel : nat) (c : OutboundClient) (a : HttpArgs) (p : RetryPolicy)
    (deadline : Q) (attempt : Z) : CM HttpResponse :=
  match fuel with
  | O => raise (RuntimeError "out of fuel")
  | S fuel' =>
      let attempt := attempt + 1 in
      let! now := monotonic in
      if Qle_bool deadline now then
        let err := simple_error FatalError (cl_connector c) "Total deadline exceeded." in
        breaker_failure c err ;; raise (ConnectorExn err)
      else
        try_except (single_attempt c a) (fun exn =>
          match exn with
          | ConnectorExn exc =>
              after_failure c p deadline attempt exc ;;
              retry_loop fuel' c a p deadline attempt
          | e => raise e
          end)
  end.

(** One round per attempt, and at least one. *)
Definition retry_fuel (p : RetryPolicy) : nat := S (Z.to_nat (max_attempts p)).

Definition execute_with_retry (c : OutboundClient) (a : HttpArgs) (p : RetryPolicy)
    : CM HttpResponse :=
  let! now := monotonic in
  retry_loop (retry_fuel p) c a p (now + total_deadline p)%Q 0.

(** [response.json() if response.content else {}], [{}] when it raises. *)
Definition result_data (r : HttpResponse) : json :=
  if resp_has_content r then match resp_json r with Some j => j | None => JDict [] end
  else JDict [].

Definition record_success_step (c : OutboundClient) (r : HttpResponse) (is_write : bool)
    (key : option string) : CM unit :=
  on_breaker c (fun h => (record_success h, tt)) ;;
  match key with
  | Some k => if is_write && cl_has_redis c && str_truthy k
              then idem_set (cl_connector c) k (result_data r) else ret tt
  | None => ret tt
  end.

(** The replay of a completed write, when there is one. *)
Definition lookup_completed (c : OutboundClient) (is_write : bool) (key : option string)
    : CM (option json) :=
  match key with
  | Some k => if is_write then let! cached := idem_get (cl_connector c) k in
                               lift_res (cached_result cached)
              else ret None
  | None => ret None
  end.

Definition request (c : OutboundClient) (a : HttpArgs) (idem_key : option string) (p : RetryPolicy)
    (is_write : bool) (operation : string) : CM HttpResponse :=
  guard_circuit c ;;
  (let key := resolve_idem_key c a idem_key is_write operation in
   let! cached := lookup_completed c is_write key in
   match cached with
   | Some result => ret (make_response 200 result)
   | None =>
       let! response := execute_with_retry c a p in
       record_success_step c response is_write key ;; ret response
   end).

(** ** What a computation of the client leaves behind

    [traced c a s s' fs n new]: from [s] to [s'] Redis is untouched, [n] HTTP
    calls were made, the breaker of [c] was told of the failures [fs] and nothing
    else, and the client slept for the durations [new]. *)

Definition attempt_args (a : HttpArgs) : HttpArgs :=
  mk_HttpArgs (ha_method a) (ha_url a)
    (Some (match ha_headers a with Some h => h | None => [] end)) (ha_json a) (ha_timeout a).

Definition http_step (a : HttpArgs) (w : W) : W := fst (http (attempt_args a) w).

Definition failures (fs : list (Q * ConnectorError)) : list hevent :=
  map (fun x => EFailure x.1 x.2) fs.

Definition has_breaker (c : OutboundClient) (s : Env R W) : Prop :=
  is_Some (hr_heap (en_health s) !! cl_health c).

Record traced (c : OutboundClient) (a : HttpArgs) (s s' : Env R W)
    (fs : list (Q * ConnectorError)) (n : nat) (new : list Q) : Prop := mk_traced {
  tr_redis : en_redis s' = en_redis s;
  tr_http : en_http s' = Nat.iter n (http_step a) (en_http s);
  tr_names : hr_names (en_health s') = hr_names (en_health s);
  tr_breaker : exists h, hr_heap (en_health s) !! cl_health c = Some h /\
    hr_heap (en_health s') = <[cl_health c := hrun h (failures fs)]> (hr_heap (en_health s));
  tr_sleeps : en_sleeps s' = en_sleeps s ++ new;
  tr_mono : (en_mono s <= en_mono s')%nat }.

Lemma traced_valid c a s s' fs n new : traced c a s s' fs n new -> has_breaker c s'.
Proof.
  intros [_ _ _ (h & Hh & E) _ _]. unfold has_breaker. rewrite E.
  rewrite list_lookup_insert_eq; [by eexists|]. by eapply lookup_lt_Some.
Qed.

Lemma traced_refl c a s s' :
  has_breaker c s -> en_redis s' = en_redis s -> en_http s' = en_http s ->
  en_health s' = en_health s -> en_sleeps s' = en_sleeps s -> (en_mono s <= en_mono s')%nat ->
  traced c a s s' [] 0 [].
Proof.
  intros [h Hh] E1 E2 E3 E4 E5. split; rewrite ?E3, ?app_nil_r; try done.
  exists h. split; [done|]. simpl. by rewrite list_insert_id.
Qed.

Lemma traced_trans c a s s1 s2 fs1 fs2 n1 n2 new1 new2 :
  traced c a s s1 fs1 n1 new1 -> traced c a s1 s2 fs2 n2 new2 ->
  traced c a s s2 (fs1 ++ fs2) (n1 + n2) (new1 ++ new2).
Proof.
  intros [A1 A2 A3 (h1 & A4 & A5) A6 A7] [B1 B2 B3 (h2 & B4 & B5) B6 B7]. split.
  - congruence.
  - by rewrite B2, A2, Nat.add_comm, Nat.iter_add.
  - congruence.
  - exists h1. split; [done|]. rewrite A5 in B4, B5.
    rewrite list_lookup_insert_eq in B4 by (by eapply lookup_lt_Some).
    injection B4 as <-. rewrite B5, list_insert_insert_eq. unfold failures, hrun.
    by rewrite map_app, fold_left_app.
  - by rewrite B6, A6, app_assoc.
  - lia.
Qed.

Lemma traced_monotonic c a s :
  has_breaker c s -> traced c a s (fst (monotonic s)) [] 0 [].
Proof. intros H. apply traced_refl; simpl; try done. lia. Qed.

Lemma traced_failure c a e s s' r :
  has_breaker c s -> breaker_failure c e s = (s', r) ->
  r = Ok tt /\ exists now, traced c a s s' [(now, e)] 0 [].
Proof.
  intros [h Hh]. unfold breaker_failure, bind, monotonic, on_breaker, on_reg, zoom. simpl.
  rewrite Hh. intros [= <- <-]. split; [done|]. exists (mono (en_mono s)). split; simpl; try done.
  - by exists h.
  - by rewrite app_nil_r.
  - lia.
Qed.

Lemma traced_attempt c a s s' r :
  has_breaker c s -> single_attempt c a s = (s', r) ->
  traced c a s s' [] 1 [] /\
  match r with
  | Ok resp => snd (http (attempt_args a) (en_http s)) = inl resp /\ resp_is_success resp = true
  | Err e => exists exc, e = ConnectorExn exc
  end.
Proof.
  intros [h Hh]. unfold single_attempt, bind, call_http.
  change (mk_HttpArgs _ _ _ _ _) with (attempt_args a).
  destruct (http (attempt_args a) (en_http s)) as [w x] eqn:E.
  assert (traced c a s (mk_Env (en_health s) (en_redis s) w (en_mono s) (en_jitters s)
                          (en_sleeps s)) [] 1 []) as Ht.
  { split; simpl; try done.
    - unfold http_step. by rewrite E.
    - exists h. split; [done|]. by rewrite list_insert_id.
    - by rewrite app_nil_r. }
  destruct x as [resp|f]; [destruct (resp_is_success resp) eqn:Es|];
    intros [= <- <-]; (split; [exact Ht|]); eauto.
Qed.

Lemma rem_positive q : Qle_bool q 0 = false -> (0 < q)%Q.
Proof.
  intros H. apply Qnot_le_lt. intros Hle. apply Qle_bool_iff in Hle. congruence.
Qed.

Lemma py_qmin_le_r x y : (py_qmin x y <= y)%Q.
Proof.
  unfold py_qmin. destruct (Qle_bool x y) eqn:E; [by apply Qle_bool_iff | lra].
Qed.

(** The handler of a failed attempt: it tells the breaker once; either the loop
    goes on, after one sleep that ends by the deadline, or a terminal error
    leaves the client. *)
Lemma traced_after_failure c a p deadline attempt exc s s' r :
  has_breaker c s -> after_failure c p deadline attempt exc s = (s', r) ->
  exists now,
  match r with
  | Ok _ => attempt < max_attempts p /\ exists k d, (en_mono s <= k)%nat /\
      (d <= deadline - mono k)%Q /\ traced c a s s' [(now, exc)] 0 [d]
  | Err e => traced c a s s' [(now, exc)] 0 [] /\
      exists ce, e = ConnectorExn ce /\ ce_retryable ce = false
  end.
Proof.
  intros Hv. unfold after_failure, bind.
  destruct (breaker_failure c exc s) as [s1 r1] eqn:Ef.
  destruct (traced_failure c a exc s s1 r1 Hv Ef) as [-> [now Ht]].
  destruct (negb (ce_retryable exc) || (max_attempts p <=? attempt)) eqn:Eg.
  - destruct (ce_retryable exc && _) eqn:E2; intros [= <- <-]; exists now; (split; [done|]);
      eexists; (split; [reflexivity|]); [done|].
    destruct (ce_retryable exc); [|done]. simpl in *. congruence.
  - simpl_bool. unfold jitter_wait, monotonic. cbn -[Qle_bool py_qmin].
    destruct (Qle_bool (deadline - _) 0) eqn:Er.
    + intros [= <- <-]. exists now. split; [|by eexists].
      destruct Ht as [T1 T2 T3 T4 T5 T6]. split; simpl; try done. lia.
    + intros [= <- <-]. exists now. split; [done|].
      exists (en_mono s1), (py_qmin (rate_limit_wait exc
        (uniform (en_jitters s1) (py_qmin (max_delay p) (base_delay p * inject_Z (2 ^ attempt)))))
        (deadline - mono (en_mono s1))).
      destruct Ht as [T1 T2 T3 T4 T5 T6]. rewrite app_nil_r in T5.
      split; [done|]. split; [apply py_qmin_le_r|]. split; simpl; try done.
      * by rewrite T5.
      * lia.
Qed.

(** How a retried call ends after [n] attempts, of which those in [fs] failed:
    with the vendor's successful answer to the last of them, or with an error no
    caller will retry. *)
Definition retry_outcome (a : HttpArgs) (w0 : W) (n failed : nat) (r : res HttpResponse) : Prop :=
  match r with
  | Ok resp => n = S failed /\ resp_is_success resp = true /\
      snd (http (attempt_args a) (Nat.iter failed (http_step a) w0)) = inl resp
  | Err e => (n <= failed <= S n)%nat /\ exists ce, e = ConnectorExn ce /\ ce_retryable ce = false
  end.

Context (mono_le : forall i j, (i <= j)%nat -> (mono i <= mono j)%Q).

Lemma retry_loop_traced fuel c a p deadline budget attempt s s' r :
  has_breaker c s -> 0 <= attempt < Z.max 1 (max_attempts p) ->
  Z.max 1 (max_attempts p) - attempt <= Z.of_nat fuel ->
  (deadline <= mono (en_mono s) + budget)%Q ->
  retry_loop fuel c a p deadline attempt s = (s', r) ->
  exists fs n new, traced c a s s' fs n new /\
    Z.of_nat n <= Z.max 1 (max_attempts p) - attempt /\ (length new <= n)%nat /\
    List.Forall (fun d => (d <= budget)%Q) new /\ retry_outcome a (en_http s) n (length fs) r.
Proof.
  revert attempt s. induction fuel as [|fuel IH]; intros attempt s Hv Ha Hf Hd; [lia|].
  cbn [retry_loop]. unfold bind at 1. destruct (monotonic s) as [s1 r1] eqn:Em.
  pose proof (traced_monotonic c a s Hv) as T1. rewrite Em in T1. simpl in T1.
  injection Em as _ <-. pose proof (traced_valid _ _ _ _ _ _ _ T1) as Hv1.
  destruct (Qle_bool deadline (mono (en_mono s))).
  - unfold bind. destruct (breaker_failure c _ s1) as [s2 r2] eqn:Ef.
    destruct (traced_failure c a _ s1 s2 r2 Hv1 Ef) as [-> [now T2]]. intros [= <- <-].
    eexists _, 0%nat, []. split; [exact (traced_trans _ _ _ _ _ _ _ _ _ _ _ T1 T2)|].
    split; [lia|]. split; [done|]. split; [constructor|]. split; [simpl; lia|]. by eexists.
  - unfold try_except. destruct (single_attempt c a s1) as [s2 r2] eqn:Es.
    destruct (traced_attempt c a s1 s2 r2 Hv1 Es) as [T2 Hr].
    pose proof (traced_trans _ _ _ _ _ _ _ _ _ _ _ T1 T2) as T12.
    pose proof (traced_valid _ _ _ _ _ _ _ T12) as Hv2.
    destruct r2 as [resp|e].
    + intros [= <- <-]. destruct Hr as [Hr Hs]. exists [], 1%nat, []. split; [done|].
      split; [lia|]. split; [simpl; lia|]. split; [constructor|]. split; [done|]. split; [done|].
      simpl. rewrite <- Hr, (tr_http _ _ _ _ _ _ _ T1). done.
    + destruct Hr as [exc ->]. unfold bind.
      destruct (after_failure c p deadline (attempt + 1) exc s2) as [s3 r3] eqn:Ea.
      destruct (traced_after_failure c a p deadline (attempt + 1) exc s2 s3 r3 Hv2 Ea) as [now Hr].
      destruct r3 as [u|e].
      * destruct Hr as (Hlt & k & d & Hk & Hdk & T3).
        pose proof (traced_trans _ _ _ _ _ _ _ _ _ _ _ T12 T3) as T.
        pose proof (traced_valid _ _ _ _ _ _ _ T) as Hv3. intros Hl.
        assert ((en_mono s <= k)%nat) as Hsk by (pose proof (tr_mono _ _ _ _ _ _ _ T12); lia).
        pose proof (mono_le _ _ Hsk). pose proof (mono_le _ _ (tr_mono _ _ _ _ _ _ _ T)).
        destruct (IH (attempt + 1) s3 Hv3) as (fs & n & new & T' & Hn & Hlen & Hfor & Hout);
          [lia | lia | lra | exact Hl |].
        exists ((now, exc) :: fs), (S n), (d :: new).
        split; [exact (traced_trans _ _ _ _ _ _ _ _ _ _ _ T T')|].
        split; [lia|]. split; [simpl; lia|]. split; [constructor; [lra|done]|].
        rewrite (tr_http _ _ _ _ _ _ _ T) in Hout. unfold retry_outcome in *. destruct r.
        -- destruct Hout as (-> & Hs & Hc). split; [done|]. split; [done|].
           rewrite <- Hc. simpl length. by rewrite <- Nat.iter_add, Nat.add_1_r.
        -- destruct Hout as [Hb He]. split; [simpl; lia|done].
      * destruct Hr as [T3 He]. intros [= <- <-].
        eexists _, 1%nat, []. split; [exact (traced_trans _ _ _ _ _ _ _ _ _ _ _ T12 T3)|].
        split; [lia|]. split; [simpl; lia|]. split; [constructor|]. split; [simpl; lia|done].
Qed.

(** C37: retries are bounded and end well.  A call of the retry loop makes at
    most [max(1, max_attempts)] HTTP calls and always ends: either with the
    successful answer to its last call, every earlier call having failed, or
    with a connector error whose class says not to retry, so that no exception
    of another kind and no retryable one leaves it.  The breaker is told once of
    each failed attempt; the client sleeps at most once per attempt and never
    longer than the deadline it was given; Redis is not touched. *)
Theorem retry_bounded c a p s s' r :
  has_breaker c s -> execute_with_retry c a p s = (s', r) ->
  exists fs n new, traced c a s s' fs n new /\
    Z.of_nat n <= Z.max 1 (max_attempts p) /\ (length new <= n)%nat /\
    List.Forall (fun d => (d <= total_deadline p)%Q) new /\
    retry_outcome a (en_http s) n (length fs) r.
Proof.
  intros Hv. unfold execute_with_retry, bind.
  destruct (monotonic s) as [s1 r1] eqn:Em.
  pose proof (traced_monotonic c a s Hv) as T1. rewrite Em in T1. simpl in T1.
  injection Em as _ <-. intros H.
  destruct (fun A B C => retry_loop_traced _ _ _ _ _ (total_deadline p) _ _ _ _
              (traced_valid _ _ _ _ _ _ _ T1) A B C H) as (fs & n & new & T & Hn & Hl & Hf & Ho).
  - lia.
  - unfold retry_fuel. lia.
  - pose proof (mono_le _ _ (tr_mono _ _ _ _ _ _ _ T1)). lra.
  - rewrite (tr_http _ _ _ _ _ _ _ T1) in Ho. exists fs, n, new.
    split; [exact (traced_trans _ _ _ _ _ _ _ _ _ _ _ T1 T)|].
    split; [lia|]. done.
Qed.

(** ** The circuit guard *)

Lemma guard_circuit_frame c s s' r :
  guard_circuit c s = (s', r) ->
  en_redis s' = en_redis s /\ en_http s' = en_http s /\ en_sleeps s' = en_sleeps s /\
  (has_breaker c s -> has_breaker c s').
Proof.
  unfold guard_circuit, has_breaker, bind, monotonic, on_breaker, on_reg, zoom.
  cbn -[is_open]. destruct (hr_heap (en_health s) !! cl_health c) as [h|] eqn:Hh.
  2: { intros [= <- <-]. simpl. by rewrite Hh. }
  destruct (is_open (mono (en_mono s)) h) as [h' b].
  assert (<[cl_health c := h']> (hr_heap (en_health s)) !! cl_health c = Some h') as Hi
    by (apply list_lookup_insert_eq; by eapply lookup_lt_Some).
  destruct b; cbn -[is_open].
  - rewrite Hi. intros [= <- <-]. simpl. repeat split.
    intros _. rewrite list_insert_insert_eq, Hi. by eexists.
  - intros [= <- <-]. simpl. rewrite Hi. repeat split. by eexists.
Qed.

(** An open circuit fails fast.  While the breaker of the client is open and
    its cool-down has not elapsed, [request] raises the last recorded error at
    once: no HTTP call, no Redis command, no sleep, and the breaker is left as it
    was.  This holds for reads and writes, whatever the retry policy. *)
Lemma open_circuit_fails_fast c a key p is_write op h s :
  hr_heap (en_health s) !! cl_health c = Some h -> snd (is_open (mono (en_mono s)) h) = true ->
  let '(s', r) := request c a key p is_write op s in
  r = Err (ConnectorExn (match h_last_error h with
                         | Some e => e
                         | None => simple_error FatalError (cl_connector c) "Circuit breaker is open."
                         end)) /\
  en_http s' = en_http s /\ en_redis s' = en_redis s /\ en_sleeps s' = en_sleeps s /\
  en_health s' = en_health s.
Proof.
  intros Hh Ho. assert (is_open (mono (en_mono s)) h = (h, true)) as Ei.
  { destruct (is_open_spec (mono (en_mono s)) h) as [Hs _]. destruct (Hs Ho) as [E Hc].
    apply cooled_down_false in Hc. unfold is_open, read_state, maybe_half_open.
    rewrite E, Hc, bool_decide_true by done. simpl. by rewrite E. }
  unfold request, guard_circuit, bind, monotonic, on_breaker, on_reg, zoom. cbn -[is_open].
  rewrite Hh, Ei. cbn -[is_open]. rewrite list_insert_id by done. rewrite Hh. cbn.
  rewrite list_insert_id by done. repeat split. by destruct (en_health s).
Qed.

(** ** Completed writes *)

Context {RL : RedisLaws R}.

(** What a stored record says was returned, if it is one of a completed write. *)
Definition completed (raw : option string) : option json :=
  match raw with
  | Some raw => match loads raw with
                | Some j => match cached_result (Some j) with Ok (Some b) => Some b | _ => None end
                | None => None
                end
  | None => None
  end.

Definition record_of (s : Env R W) (connector key : string) : option string :=
  redis_view (en_redis s) (idem_redis_key connector key).

Lemma lookup_completed_frame c key s s' r :
  lookup_completed c true (Some key) s = (s', r) ->
  en_http s' = en_http s /\ (has_breaker c s -> has_breaker c s') /\
  (forall k, record_of s' (cl_connector c) k = record_of s (cl_connector c) k) /\
  (forall b, r = Ok (Some b) -> completed (record_of s (cl_connector c) key) = Some b) /\
  (forall b x, completed (record_of s (cl_connector c) key) = Some b -> r = Ok x -> x = Some b) /\
  (forall v, snd (redis_get (idem_redis_key (cl_connector c) key) (en_redis s)) = Ok v ->
     completed (record_of s (cl_connector c) key) <> None -> is_ok r = true).
Proof.
  unfold lookup_completed, idem_get, bind, on_redis_client, zoom, record_of.
  pose proof (get_view (idem_redis_key (cl_connector c) key) (en_redis s)) as Hv.
  pose proof (get_val (idem_redis_key (cl_connector c) key) (en_redis s)) as Hg.
  destruct (redis_get _ _) as [r1 [raw|e]]; simpl in *.
  - rewrite <- (Hg raw eq_refl). clear Hg. destruct raw as [raw|]; simpl.
    + destruct (loads raw) as [j|] eqn:El; simpl.
      2: { intros [= <- <-]. by do 3 (split; [done|]). }
      intros [= <- <-]. unfold completed. do 3 (split; [done|]).
      destruct (cached_result (Some j)) as [[b'|]|e]; repeat split; intros; congruence.
    + intros [= <- <-]. by do 3 (split; [done|]).
  - intros [= <- <-]. by do 3 (split; [done|]).
Qed.

Lemma completed_record_result body : cached_result (Some (completed_record body)) = Ok (Some body).
Proof. done. Qed.

Lemma guard_circuit_closed c h s :
  hr_heap (en_health s) !! cl_health c = Some h -> snd (is_open (mono (en_mono s)) h) = false ->
  is_ok (snd (guard_circuit c s)) = true.
Proof.
  intros Hh Ho. unfold guard_circuit, bind, monotonic, on_breaker, on_reg, zoom. cbn -[is_open].
  rewrite Hh. destruct (is_open (mono (en_mono s)) h) as [h' b]. simpl in Ho. by subst.
Qed.

Lemma success_step_record c resp key s s' :
  cl_has_redis c = true -> str_truthy key = true ->
  record_success_step c resp true (Some key) s = (s', Ok tt) ->
  record_of s' (cl_connector c) key = Some (dumps (completed_record (result_data resp))).
Proof.
  intros Hr Hk. unfold record_success_step, bind.
  destruct (on_breaker c _ s) as [s1 [u|e]]; [|done]. rewrite Hr, Hk. simpl.
  unfold idem_set, on_redis_client, zoom, record_of.
  destruct (redis_set _ _ _ (en_redis s1)) as [r [[]|e]] eqn:E; [|done].
  intros [= <-]. simpl. rewrite (set_view _ _ _ _ _ E). by rewrite decide_True.
Qed.

Lemma resolve_has_redis c a k op key :
  resolve_idem_key c a k true op = Some key -> cl_has_redis c = true.
Proof. unfold resolve_idem_key. by destruct (cl_has_redis c). Qed.

(** A write that returned has left a record of its result, and either returned
    the record that was there or the vendor's answer. *)
Lemma request_records c a k p op key s s' resp :
  loads (dumps (completed_record (result_data resp))) = Some (completed_record (result_data resp)) ->
  resolve_idem_key c a k true op = Some key -> str_truthy key = true ->
  request c a k p true op s = (s', Ok resp) ->
  exists body, completed (record_of s' (cl_connector c) key) = Some body /\
    (body = result_data resp \/ resp = make_response 200 body /\ en_http s' = en_http s).
Proof.
  intros Hcodec Hkey Ht. unfold request. rewrite Hkey. intros H. inv_bind H.
  destruct (guard_circuit_frame c s s0 _ Hb) as (_ & E2 & _). inv_bind H.
  destruct (lookup_completed_frame c key s0 s1 _ Hb0) as (F1 & _ & F2 & F3 & _).
  destruct a1 as [body|].
  - injection H as <- <-. exists body. rewrite F2. split; [auto|]. right. split; [done|]. congruence.
  - inv_bind H. inv_bind H. injection H as <- ->. exists (result_data resp). split; [|by left].
    destruct a2. rewrite (success_step_record c resp key _ _ (resolve_has_redis _ _ _ _ _ Hkey) Ht Hb2).
    simpl. by rewrite Hcodec.
Qed.

(** C22: A completed write is not sent twice.  Once a write with some idempotency
    key (given, or derived from method, URL and body) returned a response,
    every later write of the same connector under the same key, from any client,
    while Redis keeps the record, makes no HTTP call; if its circuit is not open
    and Redis answers, it returns a 200 response with the recorded result, and
    whatever it returns is that response.  The recorded result is the body of the
    first response, or what an earlier write had recorded. *)
Theorem completed_write_replayed c a k p op key s s1 resp :
  loads (dumps (completed_record (result_data resp))) = Some (completed_record (result_data resp)) ->
  resolve_idem_key c a k true op = Some key -> str_truthy key = true ->
  request c a k p true op s = (s1, Ok resp) ->
  exists body,
    (body = result_data resp \/ resp = make_response 200 body /\ en_http s1 = en_http s) /\
    forall c' a' k' p' op' s2 s3 r,
      cl_connector c' = cl_connector c -> resolve_idem_key c' a' k' true op' = Some key ->
      record_of s2 (cl_connector c) key = record_of s1 (cl_connector c) key ->
      request c' a' k' p' true op' s2 = (s3, r) ->
      en_http s3 = en_http s2 /\
      (forall resp', r = Ok resp' -> resp' = make_response 200 body) /\
      (forall h v, hr_heap (en_health s2) !! cl_health c' = Some h ->
         snd (is_open (mono (en_mono s2)) h) = false ->
         snd (redis_get (idem_redis_key (cl_connector c) key) (en_redis s2)) = Ok v ->
         r = Ok (make_response 200 body)).
Proof.
  intros Hcodec Hkey Ht H1.
  destruct (request_records c a k p op key s s1 resp Hcodec Hkey Ht H1) as (body & Hrec & Hb).
  exists body. split; [done|]. intros c' a' k' p' op' s2 s3 r Hc Hkey' Hsame.
  unfold request. rewrite Hkey'. unfold bind at 1.
  pose proof (guard_circuit_closed c') as Hopen.
  destruct (guard_circuit c' s2) as [s4 [u|e]] eqn:Eg;
    destruct (guard_circuit_frame c' s2 s4 _ Eg) as (E1 & E2 & _).
  2: { intros [= <- <-]. split; [done|]. split; [done|]. intros h v Hh Ho _.
       specialize (Hopen h s2 Hh Ho). by rewrite Eg in Hopen. }
  assert (record_of s4 (cl_connector c') key = record_of s1 (cl_connector c) key) as Er
    by (rewrite Hc, <- Hsame; unfold record_of; by rewrite E1).
  unfold bind at 1. destruct (lookup_completed c' true (Some key) s4) as [s5 r5] eqn:El.
  destruct (lookup_completed_frame c' key s4 s5 r5 El) as (F1 & _ & _ & _ & F4 & F5).
  rewrite Er, Hc, E1 in *. destruct r5 as [x|e].
  - rewrite (F4 body x Hrec eq_refl). intros [= <- <-]. split; [congruence|].
    split; [congruence|]. done.
  - intros [= <- <-]. split; [congruence|]. split; [done|]. intros h v _ _ Hv.
    specialize (F5 v Hv). rewrite Hrec in F5. by specialize (F5 ltac:(done)).
Qed.

(** The vendor's success is lost when Redis fails afterwards: the write was made,
    the caller gets the Redis error, and either nothing is recorded or the answer
    is recorded although the caller was told of a failure. *)
Lemma success_lost_on_redis_error c resp key s r' e :
  has_breaker c s -> cl_has_redis c = true -> str_truthy key = true ->
  redis_set (idem_redis_key (cl_connector c) key)
    (dumps (completed_record (result_data resp))) 86400 (en_redis s) = (r', Err e) ->
  exists s', record_success_step c resp true (Some key) s = (s', Err e) /\
    ((forall k, record_of s' (cl_connector c) k = record_of s (cl_connector c) k) \/
     record_of s' (cl_connector c) key = Some (dumps (completed_record (result_data resp)))).
Proof.
  intros [h Hh] Hr Hk E. unfold record_success_step, bind, on_breaker, on_reg, zoom.
  cbn. rewrite Hh, Hr, Hk. cbn. unfold idem_set, on_redis_client, zoom. cbn. rewrite E.
  eexists. split; [reflexivity|]. unfold record_of. cbn.
  destruct (set_err _ _ _ _ _ _ E) as [Hv|Hv]; [left; intros k; apply Hv|right].
  by rewrite Hv, decide_True.
Qed.
End Client.

(** ** Concrete clients *)

(** A vendor that answers from a list. *)
Definition script_http (a : HttpArgs) (w : list (HttpResponse + failure))
    : list (HttpResponse + failure) * (HttpResponse + failure) :=
  match w with
  | [] => ([], inr TimeoutException)
  | x :: w' => (w', x)
  end.

Definition demo_ok : HttpResponse := mk_HttpResponse 201 true None true (Some (JStr "created")).
Definition demo_busy : HttpResponse := mk_HttpResponse 503 false None true None.
Definition demo_replay (status : Z) (j : json) : HttpResponse :=
  mk_HttpResponse status true None true (Some j).
Definition demo_mono (n : nat) : Q := inject_Z (Z.of_nat n).
Definition demo_classify : failure -> string -> ConnectorError := classify (fun _ => None) true.
Definition demo_args : HttpArgs := mk_HttpArgs "POST" "https://v/matters" None (JStr "m1") 10.
Definition demo_client : OutboundClient := mk_OutboundClient "case" true 0.
(** A codec that keeps the recorded string. *)
Definition demo_dumps (j : json) : string :=
  match j with JDict (("result", JStr s) :: _) => s | _ => EmptyString end.
Definition demo_loads (s : string) : option json := Some (completed_record (JStr s)).

Definition demo_env (h : ConnectorHealth) (w : list (HttpResponse + failure))
    : Env redis_mem (list (HttpResponse + failure)) :=
  mk_Env (mk_HealthReg [h] [("case", 0%nat)]) [] w 0 0 [].

Abbreviation demo_execute :=
  (execute_with_retry (R := redis_mem) script_http demo_classify demo_mono (fun _ c => c)).

(** Two 503 answers, then success: three calls, two sleeps, a degraded breaker. *)
Lemma retry_bounded_witness :
  exists fs n new,
    traced script_http demo_client demo_args (demo_env (new_health "case" 5 60) [inl demo_busy; inl demo_busy; inl demo_ok])
      (fst (demo_execute demo_client demo_args DEFAULT_RETRY
              (demo_env (new_health "case" 5 60) [inl demo_busy; inl demo_busy; inl demo_ok]))) fs n new /\
    Z.of_nat n <= 5 /\ (length new <= n)%nat /\
    List.Forall (fun d => (d <= 120)%Q) new /\
    retry_outcome script_http demo_args
      [inl demo_busy; inl demo_busy; inl demo_ok] n (length fs) (Ok demo_ok).
Proof.
  refine (retry_bounded script_http demo_classify demo_mono (fun _ c => c) _ demo_client demo_args
    DEFAULT_RETRY (demo_env (new_health "case" 5 60) [inl demo_busy; inl demo_busy; inl demo_ok])
    _ (Ok demo_ok) _ _).
  - intros i j Hij. unfold demo_mono. rewrite <- Zle_Qle. lia.
  - by eexists.
  - vm_compute. reflexivity.
Defined.

Definition demo_open : ConnectorHealth :=
  record_failure 0 (simple_error TransientError "case" "HTTP 503") (new_health "case" 1 60).

Abbreviation demo_request :=
  (request (R := redis_mem) script_http demo_replay demo_classify demo_mono (fun _ c => c)
     (fun _ s => s) (fun _ => EmptyString) demo_dumps demo_loads).

Lemma open_circuit_fails_fast_witness :
  snd (demo_request demo_client demo_args None DEFAULT_RETRY true "create" (demo_env demo_open [inl demo_ok]))
    = Err (ConnectorExn (simple_error TransientError "case" "HTTP 503")).
Proof.
  pose proof (open_circuit_fails_fast script_http demo_replay demo_classify demo_mono (fun _ c => c)
    (fun _ s => s) (fun _ => EmptyString) demo_dumps demo_loads demo_client demo_args None DEFAULT_RETRY
    true "create" demo_open (demo_env demo_open [inl demo_ok]) eq_refl eq_refl) as H.
  destruct (demo_request _ _ _ _ _ _ _) as [s' r]. exact (proj1 H).
Defined.

Lemma completed_write_replayed_witness :
  exists s1, demo_request demo_client demo_args (Some "k1") DEFAULT_RETRY true "create"
    (demo_env (new_health "case" 5 60) [inl demo_ok; inl demo_busy]) = (s1, Ok demo_ok) /\
  snd (demo_request demo_client demo_args (Some "k1") DEFAULT_RETRY true "create" s1) =
    Ok (demo_replay 200 (JStr "created")).
Proof.
  eexists. split; [vm_compute; reflexivity|].
  set (s1 := mk_Env _ _ _ _ _ _).
  assert (demo_request demo_client demo_args (Some "k1") DEFAULT_RETRY true "create"
    (demo_env (new_health "case" 5 60) [inl demo_ok; inl demo_busy]) = (s1, Ok demo_ok)) as E
    by (vm_compute; reflexivity).
  destruct (completed_write_replayed script_http demo_replay demo_classify demo_mono (fun _ c => c)
    (fun _ s => s) (fun _ => EmptyString) demo_dumps demo_loads demo_client demo_args (Some "k1")
    DEFAULT_RETRY "create" "k1" (demo_env (new_health "case" 5 60) [inl demo_ok; inl demo_busy])
    s1 demo_ok eq_refl eq_refl eq_refl E) as (body & [->|[Hb _]] & H).
  - destruct (demo_request demo_client demo_args (Some "k1") DEFAULT_RETRY true "create" s1)
      as [s3 r] eqn:E2.
    destruct (H demo_client demo_args (Some "k1") DEFAULT_RETRY "create" s1 s3 r eq_refl eq_refl eq_refl E2)
      as (_ & _ & H3).
    exact (H3 (record_success (new_health "case" 5 60)) (Some "created") eq_refl eq_refl eq_refl).
  - exfalso. by injection Hb.
Defined.
