(* ===== verification/Registry.v ===== *)
(** * Registry: connectors/registry.py

    Adapters registered under a connector's name, one per port category, with
    the connector's webhook normaliser and the reference of its secret.  The
    registry is the module-level dictionary, passed as state; [A] is the type of
    adapters and [N] that of normalisers.  An entry's dictionary has a key
    exactly when that argument was given to some registration, which the
    optional fields of [Entry] say. *)

From Stdlib Require Import ZArith Lia Ascii String List.
From stdpp Require Import base list strings.
From S2P Require Import Prelude PyTime ConnErrors Effects.

Open Scope string_scope.
Open Scope list_scope.
Open Scope cam_scope.

Inductive Category := CatCase | CatCrm | CatEmail | CatDocstore.

Definition category_name (c : Category) : string :=
  match c with
  | CatCase => "case"
  | CatCrm => "crm"
  | CatEmail => "email"
  | CatDocstore => "docstore"
  end.

Section Registry.
Context {A N : Type}.

Record Entry := mk_Entry {
  en_case : option A;
  en_crm : option A;
  en_email : option A;
  en_docstore : option A;
  en_normaliser : option N;
  en_secret_ref : option string }.

Definition Registry : Type := dict string Entry.

Definition empty_entry : Entry := mk_Entry None None None None None None.

(** [if x is not None: entry[...] = x] *)
Definition set_if {B} (x old : option B) : option B :=
  match x with Some _ => x | None => old end.

(** [given] holds the keyword arguments of the call. *)
Definition update_entry (given e : Entry) : Entry :=
  mk_Entry (set_if (en_case given) (en_case e)) (set_if (en_crm given) (en_crm e))
    (set_if (en_email given) (en_email e)) (set_if (en_docstore given) (en_docstore e))
    (set_if (en_normaliser given) (en_normaliser e))
    (set_if (en_secret_ref given) (en_secret_ref e)).

Definition entry_of (name : string) (g : Registry) : Entry :=
  match dget name g with Some e => e | None => empty_entry end.

Definition register_connector (name : string) (given : Entry) : M Registry unit :=
  modify (fun g => dset name (update_entry given (entry_of name g)) g).

Definition entry_get (c : Category) (e : Entry) : option A :=
  match c with
  | CatCase => en_case e
  | CatCrm => en_crm e
  | CatEmail => en_email e
  | CatDocstore => en_docstore e
  end.

Definition get_connector (name : string) (c : Category) : M Registry A := fun g =>
  match entry_get c (entry_of name g) with
  | Some a => (g, Ok a)
  | None => (g, Err (OtherError "ConnectorNotFoundError"
                       ("No '" +:+ category_name c +:+ "' connector registered under name '" +:+
                        name +:+ "'.")))
  end.

Definition get_normaliser (name : string) : M Registry (option N) :=
  gets (fun g => en_normaliser (entry_of name g)).

Definition registered_connectors : M Registry (list string) := gets dkeys.

Definition clear_connectors : M Registry unit := modify (fun _ => []).

(** ** Lookup after registration *)

Lemma entry_of_register name name' given g :
  entry_of name' (fst (register_connector name given g)) =
    if decide (name' = name) then update_entry given (entry_of name g) else entry_of name' g.
Proof. unfold entry_of at 1. simpl. rewrite dget_dset. by case_decide. Qed.

(** The adapter found is the last one registered for that name and category;
    registering other categories or names does not hide it. *)
Lemma get_connector_registered name c given g :
  snd (get_connector name c (fst (register_connector name given g))) =
    match entry_get c given with
    | Some a => Ok a
    | None => snd (get_connector name c g)
    end.
Proof.
  unfold get_connector. rewrite entry_of_register, decide_True by done.
  destruct given as [[?|] [?|] [?|] [?|] ? ?], c; simpl; try done; by case_match.
Qed.

Lemma get_connector_other name name' c given g :
  name' <> name ->
  snd (get_connector name' c (fst (register_connector name given g))) =
    snd (get_connector name' c g).
Proof.
  intros Hne. unfold get_connector. rewrite entry_of_register, decide_False by done.
  by destruct (entry_get c _).
Qed.

Lemma registered_connectors_register name given g :
  snd (registered_connectors (fst (register_connector name given g))) =
    Ok (if dmem name g then dkeys g else dkeys g ++ [name]).
Proof. simpl. by rewrite dkeys_dset. Qed.

End Registry.
Arguments Entry : clear implicits.
Arguments Registry : clear implicits.
