(* ===== verification/Gates.v ===== *)
(** * Gates: core/orchestrator/gates.py

    Issuing and verifying signed single-use approval tokens, and [resolve_gate],
    the single authority that turns a token into an approval or rejection of a
    parked run.  HMAC and SHA-256 are parameters ([sign], [sha256_hex]); base64 is
    modelled, and the codec ([json_dumps_sorted], [json_loads]), a parameter of the
    operations, is Python's json in the round trip of a token.  The
    expiry stored in a token is the exact timestamp; Python stores the nearest
    double, which orders microsecond timestamps of this era the same way. *)

From Stdlib Require Import ZArith Lia Ascii String List QArith.
From stdpp Require Import base list strings.
From S2P Require Import Prelude PyTime ConnErrors Effects States RunStore Rbac Base64 Utf8 Json.

Open Scope string_scope.
Open Scope list_scope.
Open Scope Z_scope.
Open Scope cam_scope.

Definition DEFAULT_TOKEN_TTL_SECONDS : Z := 86400.
Definition KEY_ID : string := "v1".

(** ** Reading values out of a decoded payload *)

(** [payload[k]] on whatever [json.loads] returned. *)
Definition json_get (payload : json) (k : string) : res json :=
  match payload with
  | JDict d => or_raise (KeyError k) (dget k d)
  | _ => Err (TypeError "indices")
  end.

(** A value used as a dictionary key: unhashable values raise, and a value that
    is not a string equals no string key. *)
Definition as_key (j : json) : res (option string) :=
  match j with
  | JStr s => Ok (Some s)
  | JList _ | JDict _ => Err (TypeError "unhashable type")
  | _ => Ok None
  end.

(** A value compared with a float. *)
Definition as_number (j : json) : res Q :=
  match j with
  | JInt z => Ok (inject_Z z)
  | JFloat q => Ok q
  | JBool b => Ok (if b then 1%Q else 0%Q)
  | _ => Err (TypeError "'>' not supported")
  end.

(** A value given to a pydantic [str] field. *)
Definition as_str_field (j : json) : res string :=
  match j with JStr s => Ok s | _ => Err (ValidationError "Input should be a valid string") end.

Definition Qlt_bool (a b : Q) : bool := negb (Qle_bool b a).

(** [t.timestamp()] *)
Definition timestamp (t : datetime) : Q := Qmake (timestamp_us t) 1000000.

(** [raw.split(".", 1)]: [None] when there is no separator. *)
Fixpoint split_dot (l : list ascii) : option (list ascii * list ascii) :=
  match l with
  | [] => None
  | c :: l' =>
      if Ascii.eqb c "."%char then Some ([], l')
      else match split_dot l' with Some (a, b) => Some (c :: a, b) | None => None end
  end.

(** [hmac.compare_digest] refuses non-ASCII text. *)
Definition compare_digest (a b : string) : res bool :=
  if is_ascii a && is_ascii b then Ok (String.eqb a b)
  else Err (TypeError "comparing strings with non-ASCII characters is not supported").

Section Gates.
Context {W Key : Type}.
Context (clock : nat -> datetime) (uuids : nat -> string).
Context (sign : Key -> string -> string) (sha256_hex : string -> string).
Context (json_dumps_sorted : json -> string) (json_loads : string -> option json).
Context (audit_fn : option (AuditEvent -> M W unit)).

Definition GM (A : Type) : Type := M (sys RunStore W) A.

(** [_b64] *)
Definition b64 (data : string) : string := rstrip "="%char (urlsafe_b64encode data).

Definition token_payload (tid gid rid step : string) (exp : Q) : json :=
  JDict [("tid", JStr tid); ("gid", JStr gid); ("rid", JStr rid); ("step", JStr step);
         ("exp", JFloat exp)].

(** The raw token for a payload. *)
Definition raw_token_of (key : Key) (payload : json) : string :=
  let payload_b64 := b64 (json_dumps_sorted payload) in
  payload_b64 +:+ "." +:+ sign key payload_b64.

Definition issue_token (gid rid step channel : string) (key : Key) (ttl_seconds : Z)
    : GM (string * ApprovalToken) :=
  let! token_id := uuid4 uuids in
  let! now := get_now clock in
  let! expires_at := lift_res (or_raise OverflowError (dt_add now (ttl_seconds * US_PER_SECOND))) in
  let raw := raw_token_of key (token_payload token_id gid rid step (timestamp expires_at)) in
  ret (raw, mk_ApprovalToken token_id gid rid step KEY_ID (sha256_hex raw) channel expires_at None).

(** The decoding half of [verify_token]. *)
Definition decode_payload (payload_b64 : string) : option json :=
  let missing := (4 - String.length payload_b64 mod 4)%nat in
  let padded := payload_b64 +:+ string_of_list_ascii (repeat "="%char (missing mod 4)) in
  match urlsafe_b64decode padded with Some bytes => json_loads bytes | None => None end.

(** A payload or the reason there is none. *)
Definition verify_token (raw : string) (key : Key) : res (json + string) :=
  match split_dot (list_ascii_of_string raw) with
  | None => Ok (inr "malformed")
  | Some (p, sg) =>
      let payload_b64 := string_of_list_ascii p in
      letr! same := compare_digest (sign key payload_b64) (string_of_list_ascii sg) in
      if same then
        match decode_payload payload_b64 with
        | Some payload => Ok (inl payload)
        | None => Ok (inr "malformed")
        end
      else Ok (inr "tampered")
  end.

Definition maybe_audit (actor action : string) (inputs : jdict) : GM unit :=
  match audit_fn with
  | None => ret tt
  | Some f => try_pass (on_world (f (mk_AuditEvent actor action inputs [] None)))
  end.

(** Audit a failure, then raise [GateResolutionError]. *)
Definition deny {A} (actor action : string) (inputs : jdict) (reason : string) (code : Z) : GM A :=
  maybe_audit actor action inputs ;; raise (GateResolutionError reason code).

(** Step 1: signature and payload fields. *)
Record token_claims := mk_claims {
  cl_tid : json; cl_gid : json; cl_rid : json; cl_step : json; cl_exp : json }.

Definition read_claims (payload : json) : res token_claims :=
  match payload with
  | JNull => Err AssertionError
  | _ =>
      letr! tid := json_get payload "tid" in
      letr! gid := json_get payload "gid" in
      letr! rid := json_get payload "rid" in
      letr! step := json_get payload "step" in
      letr! exp := json_get payload "exp" in
      Ok (mk_claims tid gid rid step exp)
  end.

Definition verified_claims (raw actor : string) (key : Key) : GM token_claims :=
  let! v := lift_res (verify_token raw key) in
  match v with
  | inr err => deny actor "gate.token_verify_failed" [("reason", JStr err)]
                 ("Token verification failed: " +:+ err) 401
  | inl payload => lift_res (read_claims payload)
  end.

(** Steps 2-4: expiry, token record, single use. *)
Definition consume_token (actor : string) (c : token_claims) : GM string :=
  let! now := get_now clock in
  let! exp := lift_res (as_number (cl_exp c)) in
  if Qlt_bool exp (timestamp now) then
    deny actor "gate.token_expired" [("token_id", cl_tid c)] "Token has expired." 401
  else
  let! tid := lift_res (as_key (cl_tid c)) in
  match tid with
  | None => raise (GateResolutionError "Token not found." 404)
  | Some tid =>
      let! record := on_store (get_token tid) in
      match record with
      | None => raise (GateResolutionError "Token not found." 404)
      | Some _ =>
          let! used_at := get_now clock in
          let! first_use := on_store (mark_token_used tid used_at) in
          if first_use then ret tid
          else deny actor "gate.token_reused" [("token_id", JStr tid)]
                 "Token has already been used." 409
      end
  end.

(** Step 5: the gate, which must be pending. *)
Definition load_gate (c : token_claims) : GM GateRequest :=
  let! gid := lift_res (as_key (cl_gid c)) in
  let! gate := match gid with
               | Some gid => on_store (get_gate_request gid)
               | None => ret None
               end in
  match gate with
  | None => raise (GateResolutionError "Gate request not found." 404)
  | Some gate =>
      if bool_decide (gr_status gate = GPending) then ret gate
      else raise (GateResolutionError
                    ("Gate is already '" +:+ gate_status_value (gr_status gate) +:+ "'.") 409)
  end.

(** Step 6: the actor string is a role; it must be the required role and hold
    [GATE_APPROVE].  An unknown [required_role] raises [ValueError]. *)
Definition check_authz (actor : string) (gate : GateRequest) : GM unit :=
  let denied := deny actor "gate.authz_denied" [("required_role", JStr (gr_required_role gate))]
                  "Insufficient role to approve this gate." 403 in
  match role_of actor with
  | None => denied
  | Some actor_role =>
      let! required := lift_res (or_raise (ValueError (gr_required_role gate))
                                   (role_of (gr_required_role gate))) in
      if decide (actor_role = required) then
        if authorize (mk_Principal actor [actor_role]) GATE_APPROVE None None then ret tt
        else denied
      else denied
  end.

Definition valid_channel (channel : string) : bool := str_in channel ["mcp"; "web"; "email"].

Definition make_decision (c : token_claims) (tid : string) (decision : Decision)
    (actor channel : string) (reason : option string) (decided_at : datetime)
    : res ApprovalDecision :=
  letr! gid := as_str_field (cl_gid c) in
  letr! rid := as_str_field (cl_rid c) in
  letr! step := as_str_field (cl_step c) in
  if valid_channel channel then
    Ok (mk_ApprovalDecision gid rid step decision actor channel tid reason decided_at)
  else Err (ValidationError "channel").

Definition with_gate_status (st : GateStatus) (g : GateRequest) : GateRequest :=
  mk_GateRequest (gr_id g) (gr_run_id g) (gr_step g) (gr_required_role g) (gr_quorum g) st
    (gr_channels g) (gr_created_at g) (gr_expires_at g).

Definition gate_outcome (d : Decision) : GateStatus :=
  match d with Approve => GApproved | Reject => GRejected end.

Definition run_outcome (d : Decision) : RunStatus :=
  match d with Approve => RUNNING | Reject => REJECTED end.

(** Steps 7-9: record, close the gate, audit, resume or reject the run. *)
Definition apply_decision (gate : GateRequest) (d : ApprovalDecision) : GM unit :=
  on_store (save_approval_decision d) ;;
  (on_store (update_gate_request (with_gate_status (gate_outcome (ad_decision d)) gate)) ;;
  (maybe_audit (ad_actor d)
     (match ad_decision d with Approve => "gate.approved" | Reject => "gate.rejected" end)
     [("run_id", JStr (ad_run_id d)); ("step", JStr (ad_step d)); ("channel", JStr (ad_channel d));
      ("token_id", JStr (ad_token_id d)); ("reason", jopt (ad_reason d))] ;;
  (let! now := get_now clock in
   on_store (update_run_status now (ad_run_id d) (run_outcome (ad_decision d)) None None) ;;
   match ad_decision d with
   | Approve => let! now := get_now clock in on_store (advance_gate_step now (ad_run_id d) (ad_step d))
   | Reject => ret tt
   end))).

Definition resolve_gate (raw : string) (decision : Decision) (actor channel : string) (key : Key)
    (reason : option string) : GM ApprovalDecision :=
  let! c := verified_claims raw actor key in
  let! tid := consume_token actor c in
  let! gate := load_gate c in
  check_authz actor gate ;;
  (let! decided_at := get_now clock in
   let! d := lift_res (make_decision c tid decision actor channel reason decided_at) in
   apply_decision gate d ;;
   ret d).

(** ** Token lemmas *)

Lemma split_dot_spec l a b : split_dot l = Some (a, b) ->
  l = a ++ "."%char :: b /\ Forall (fun c => c <> "."%char) a.
Proof.
  revert a b. induction l as [|c l IH]; intros a b; simpl; [done|].
  destruct (Ascii.eqb_spec c "."%char) as [->|Hc].
  - intros [= <- <-]. by repeat constructor.
  - destruct (split_dot l) as [[a' b']|]; [|done]. intros [= <- <-].
    destruct (IH a' b' eq_refl) as [-> Hf]. by repeat constructor.
Qed.

Lemma split_dot_app a b :
  Forall (fun c => c <> "."%char) a -> split_dot (a ++ "."%char :: b) = Some (a, b).
Proof.
  induction 1 as [|c a Hc Ha IH]; simpl; [done|].
  destruct (Ascii.eqb_spec c "."%char) as [->|_]; [done|]. by rewrite IH.
Qed.

Lemma split_dot_raw p sg :
  Forall (fun c => c <> "."%char) (list_ascii_of_string p) ->
  split_dot (list_ascii_of_string (p +:+ "." +:+ sg)) =
    Some (list_ascii_of_string p, list_ascii_of_string sg).
Proof.
  intros Hp. rewrite list_ascii_app. by apply split_dot_app.
Qed.

Lemma compare_digest_true a b : compare_digest a b = Ok true -> a = b /\ is_ascii a = true.
Proof.
  unfold compare_digest. destruct (is_ascii a) eqn:E, (is_ascii b); simpl; try done.
  intros [= H%String.eqb_eq]. done.
Qed.

Lemma decode_payload_b64 data : decode_payload (b64 data) = json_loads data.
Proof.
  unfold decode_payload, b64. rewrite rstrip_encode.
  set (t := b64_text data).
  rewrite length_string_of_list. fold (padding (length t)).
  rewrite <- string_of_list_app. unfold t. by rewrite b64_decode_text.
Qed.

Lemma b64_no_dot data : Forall (fun c => c <> "."%char) (list_ascii_of_string (b64 data)).
Proof.
  unfold b64. rewrite rstrip_encode, list_ascii_of_string_of_list_ascii. apply b64_text_no_dot.
Qed.

(** [verify_token] accepts exactly the texts [p.sign(key, p)] whose payload
    part decodes. *)
Lemma verify_token_accepts raw key payload :
  verify_token raw key = Ok (inl payload) <->
  exists p, Forall (fun c => c <> "."%char) (list_ascii_of_string p) /\
    raw = p +:+ "." +:+ sign key p /\ is_ascii (sign key p) = true /\
    decode_payload p = Some payload.
Proof.
  unfold verify_token. split.
  - destruct (split_dot (list_ascii_of_string raw)) as [[a b]|] eqn:E; [|done].
    apply split_dot_spec in E as [Hraw Hf].
    destruct (compare_digest _ _) as [[|]|] eqn:Ec; simpl; try done.
    apply compare_digest_true in Ec as [Hs Ha].
    destruct (decode_payload _) as [pl|] eqn:Ed; [|done]. intros [= <-].
    exists (string_of_list_ascii a). rewrite list_ascii_of_string_of_list_ascii.
    split; [done|]. split; [|done]. rewrite Hs.
    rewrite <- (string_of_list_ascii_of_string raw), Hraw.
    change ("."%char :: b) with (["."%char] ++ b). by rewrite !string_of_list_app.
  - intros (p & Hf & -> & Ha & Hd). rewrite split_dot_raw by done.
    rewrite !string_of_list_ascii_of_string. unfold compare_digest. rewrite Ha.
    simpl. rewrite String.eqb_refl, Hd. done.
Qed.

(** ** Which steps touch the store *)

Lemma maybe_audit_const actor action inputs : store_const (maybe_audit actor action inputs).
Proof. unfold maybe_audit. destruct audit_fn; auto with cam. Qed.

Lemma maybe_audit_ok actor action inputs s :
  exists s', maybe_audit actor action inputs s = (s', Ok tt) /\ sys_store s' = sys_store s.
Proof.
  pose proof (maybe_audit_const actor action inputs s) as Hc.
  unfold maybe_audit, try_pass in *. destruct audit_fn; [|by exists s].
  destruct (on_world _ _) as [s' r]; by exists s'.
Qed.

Lemma deny_const {A} actor action inputs reason code :
  store_const (deny (A := A) actor action inputs reason code).
Proof. unfold deny. auto using maybe_audit_const with cam. Qed.

Lemma deny_err {A} actor action inputs reason code s s' (r : res A) :
  deny actor action inputs reason code s = (s', r) -> r = Err (GateResolutionError reason code).
Proof.
  unfold deny, bind. destruct (maybe_audit_ok actor action inputs s) as (s1 & -> & _).
  by intros [= <- <-].
Qed.

Lemma verified_claims_const raw actor key : store_const (verified_claims raw actor key).
Proof.
  unfold verified_claims. apply const_bind; [auto with cam|]. intros [pl|err];
    auto using deny_const with cam.
Qed.

Lemma load_gate_const c : store_const (load_gate c).
Proof.
  unfold load_gate. apply const_bind; [auto with cam|]. intros gid.
  apply const_bind; [destruct gid; by intros st|]. intros [g|]; [|auto with cam].
  case_match; auto with cam.
Qed.

Lemma check_authz_const actor gate : store_const (check_authz actor gate).
Proof.
  unfold check_authz. destruct (role_of actor); [|apply deny_const].
  apply const_bind; [auto with cam|]. intros r'. repeat case_match; auto using deny_const with cam.
Qed.

(** [consume_token] either leaves the store alone and raises, or marks one
    stored unused token as used and returns its id. *)
Lemma consume_token_spec actor c s s' r :
  consume_token actor c s = (s', r) ->
  match r with
  | Err _ => sys_store s' = sys_store s
  | Ok tid => exists tok at_ exp, cl_tid c = JStr tid /\
      as_number (cl_exp c) = Ok exp /\
      Qlt_bool exp (timestamp (clock (sys_ticks s))) = false /\
      dget tid (rs_tokens (sys_store s)) = Some tok /\ tok_is_used tok = false /\
      sys_store s' = set_tokens (dset tid (with_used_at at_ tok) (rs_tokens (sys_store s)))
                       (sys_store s)
  end.
Proof.
  unfold consume_token. cbn [bind get_now tick lift_res].
  destruct (as_number (cl_exp c)) as [exp|e]; [|by intros [= <- <-]].
  destruct (Qlt_bool exp _) eqn:Ee.
  { intros H. pose proof (deny_err _ _ _ _ _ _ _ _ H) as ->.
    by apply (const_eq _ _ _ _ (deny_const _ _ _ _ _)) in H. }
  destruct (cl_tid c) as [| | | |tid| |] eqn:Et; cbn; try (by intros [= <- <-]).
  unfold bind, on_store, zoom. cbn.
  destruct (dget tid (rs_tokens (sys_store s))) as [tok|] eqn:Eg; [|by intros [= <- <-]].
  unfold mark_token_used. cbn. rewrite Eg.
  destruct (tok_is_used tok) eqn:Eu; cbn.
  - intros H. pose proof (deny_err _ _ _ _ _ _ _ _ H) as ->.
    by apply (const_eq _ _ _ _ (deny_const _ _ _ _ _)) in H.
  - intros [= <- <-]. cbn. by eexists tok, _, exp.
Qed.

Lemma load_gate_ok c s s' gate :
  load_gate c s = (s', Ok gate) ->
  exists gid, cl_gid c = JStr gid /\ dget gid (rs_gates (sys_store s)) = Some gate /\
    gr_status gate = GPending.
Proof.
  unfold load_gate, bind, lift_res. destruct (cl_gid c) as [| | | |gid| |]; cbn; try done.
  destruct (dget gid _) as [g|] eqn:Eg; cbn; [|done].
  destruct (bool_decide_reflect (gr_status g = GPending)); [|done].
  intros [= <- <-]. by exists gid.
Qed.

Lemma check_authz_ok actor gate s s' u :
  check_authz actor gate s = (s', Ok u) ->
  exists r, role_of actor = Some r /\ role_of (gr_required_role gate) = Some r /\
    GATE_APPROVE ∈ GRANTS r.
Proof.
  unfold check_authz, bind, lift_res. destruct (role_of actor) as [r|].
  - destruct (role_of (gr_required_role gate)) as [r'|]; cbn [or_raise]; [|done].
    destruct (decide (r = r')) as [<-|].
    + destruct (authorize _ _ _ _) eqn:Ea.
      * intros _. exists r. do 2 (split; [done|]). unfold authorize in Ea.
        apply authorize_roles_spec in Ea as [(r0 & Hr & Hg) _].
        by apply list_elem_of_singleton in Hr as ->.
      * intros H. by apply deny_err in H.
    + intros H. by apply deny_err in H.
  - intros H. by apply deny_err in H.
Qed.

(** The stored effect of recording a decision, up to the run transition. *)
Definition decided_store (gate : GateRequest) (d : ApprovalDecision) (s : RunStore) : RunStore :=
  let s := set_decisions (rs_decisions s ++ [d]) s in
  set_gates (dset (gr_id gate) (with_gate_status (gate_outcome (ad_decision d)) gate) (rs_gates s)) s.

Lemma apply_decision_spec gate d s s' r :
  apply_decision gate d s = (s', r) ->
  exists now now', let s1 := decided_store gate d (sys_store s) in
    match update_run_status now (ad_run_id d) (run_outcome (ad_decision d)) None None s1 with
    | (s2, Err e) => r = Err e /\ sys_store s' = s2
    | (s2, Ok _) => r = Ok tt /\
        sys_store s' = match ad_decision d with
                       | Approve => exec_call (CAdvanceGate now' (ad_run_id d) (ad_step d)) s2
                       | Reject => s2
                       end
    end.
Proof.
  unfold apply_decision, bind at 1 2 3. cbn [on_store zoom save_approval_decision modify
    update_gate_request sys_store set_store].
  match goal with |- context [maybe_audit ?a ?b ?c ?st] =>
    destruct (maybe_audit_ok a b c st) as (s1 & -> & Hs1) end.
  unfold bind. cbn [get_now tick]. intros H.
  exists (clock (sys_ticks s1)), (clock (S (sys_ticks s1))). cbv zeta.
  unfold on_store, zoom in H. cbn [sys_store set_store tick] in *. rewrite Hs1 in H.
  fold (decided_store gate d (sys_store s)) in H.
  change (set_gates _ _) with (decided_store gate d (sys_store s)) in H.
  destruct (update_run_status _ _ _ _ _ _) as [s2 [[]|e]]; cbn in H.
  - destruct (ad_decision d); cbn in H; [|unfold ret in H]; injection H as <- <-; split; reflexivity.
  - by simplify_eq.
Qed.

Lemma verified_claims_ok raw actor key s s' c :
  verified_claims raw actor key s = (s', Ok c) ->
  sys_store s' = sys_store s /\ sys_ticks s' = sys_ticks s /\
  exists payload, verify_token raw key = Ok (inl payload) /\ read_claims payload = Ok c.
Proof.
  unfold verified_claims. intros H. inv_bind H. unfold lift_res in Hb. injection Hb as <- Hv.
  destruct a as [payload|err].
  - unfold lift_res in H. injection H as <- Hr. eauto 6.
  - by apply deny_err in H.
Qed.

Lemma make_decision_ok c tid decision actor channel reason decided_at d :
  make_decision c tid decision actor channel reason decided_at = Ok d ->
  cl_gid c = JStr (ad_gate_request_id d) /\ cl_rid c = JStr (ad_run_id d) /\
  cl_step c = JStr (ad_step d) /\ ad_decision d = decision /\ ad_actor d = actor /\
  ad_channel d = channel /\ ad_token_id d = tid /\ valid_channel channel = true.
Proof.
  unfold make_decision, res_bind, as_str_field. intros H.
  destruct (cl_gid c) as [| | | |g| |]; try done. destruct (cl_rid c) as [| | | |r| |]; try done.
  destruct (cl_step c) as [| | | |st| |]; try done. destruct (valid_channel channel); [|done].
  by simplify_eq.
Qed.

(** Everything a successful resolution went through. *)
Record resolved (raw : string) (decision : Decision) (actor : string) (key : Key)
    (s s' : sys RunStore W) (d : ApprovalDecision) : Prop := mk_resolved {
  rv_claims : exists payload c exp, verify_token raw key = Ok (inl payload) /\
    read_claims payload = Ok c /\ cl_tid c = JStr (ad_token_id d) /\
    cl_gid c = JStr (ad_gate_request_id d) /\ cl_rid c = JStr (ad_run_id d) /\
    cl_step c = JStr (ad_step d) /\ as_number (cl_exp c) = Ok exp /\
    Qlt_bool exp (timestamp (clock (sys_ticks s))) = false;
  rv_decision : ad_decision d = decision /\ ad_actor d = actor;
  rv_token : exists tok at_, dget (ad_token_id d) (rs_tokens (sys_store s)) = Some tok /\
    tok_is_used tok = false /\
    dget (ad_token_id d) (rs_tokens (sys_store s')) = Some (with_used_at at_ tok);
  rv_gate : exists gate r, dget (ad_gate_request_id d) (rs_gates (sys_store s)) = Some gate /\
    gr_status gate = GPending /\ role_of actor = Some r /\
    role_of (gr_required_role gate) = Some r /\ GATE_APPROVE ∈ GRANTS r /\
    rs_gates (sys_store s') =
      dset (gr_id gate) (with_gate_status (gate_outcome decision) gate) (rs_gates (sys_store s));
  rv_run : exists run, dget (ad_run_id d) (rs_runs (sys_store s)) = Some run /\
    is_legal_run_transition (run_status run) (run_outcome decision) = true /\
    status_of (ad_run_id d) (sys_store s') = Some (run_outcome decision);
  rv_decisions : rs_decisions (sys_store s') = rs_decisions (sys_store s) ++ [d] }.

Lemma advance_gate_fields now rid step st :
  let st' := exec_call (CAdvanceGate now rid step) st in
  rs_runs st' = rs_runs st /\ rs_gates st' = rs_gates st /\ rs_tokens st' = rs_tokens st /\
  rs_decisions st' = rs_decisions st.
Proof. cbn. unfold put_steps. by destruct (dget rid (rs_steps st)). Qed.

(** A returning [apply_decision] closed the gate and moved the run. *)
Lemma apply_decision_ok gate d s s' u :
  apply_decision gate d s = (s', Ok u) ->
  exists run now, dget (ad_run_id d) (rs_runs (sys_store s)) = Some run /\
    is_legal_run_transition (run_status run) (run_outcome (ad_decision d)) = true /\
    rs_runs (sys_store s') =
      dset (ad_run_id d) (with_status now (run_outcome (ad_decision d)) None None run)
        (rs_runs (sys_store s)) /\
    rs_gates (sys_store s') =
      dset (gr_id gate) (with_gate_status (gate_outcome (ad_decision d)) gate)
        (rs_gates (sys_store s)) /\
    rs_tokens (sys_store s') = rs_tokens (sys_store s) /\
    rs_decisions (sys_store s') = rs_decisions (sys_store s) ++ [d].
Proof.
  intros H. apply apply_decision_spec in H as (now & now' & H). unfold update_run_status in H.
  cbn [decided_store set_gates set_decisions rs_runs] in H.
  destruct (dget (ad_run_id d) (rs_runs (sys_store s))) as [run|]; [|by destruct H].
  destruct (is_legal_run_transition _ _) eqn:L; [|by destruct H].
  destruct H as [_ H]. exists run, now. do 2 (split; [done|]). rewrite H.
  unfold decided_store. destruct (ad_decision d).
  - match goal with |- context [exec_call ?c ?st] =>
      destruct (advance_gate_fields now' (ad_run_id d) (ad_step d) st) as (-> & -> & -> & ->) end.
    by repeat split.
  - by repeat split.
Qed.

Lemma resolve_gate_ok raw decision actor channel key reason s s' d :
  resolve_gate raw decision actor channel key reason s = (s', Ok d) ->
  resolved raw decision actor key s s' d.
Proof.
  unfold resolve_gate. intros H.
  inv_bind H. rename a into c. rename Hb into Hc.
  inv_bind H. rename a into tid. rename Hb into Htok.
  inv_bind H. rename a into gate. rename Hb into Hg.
  inv_bind H. rename Hb into Hz. inv_bind H. inv_bind H. inv_bind H. unfold ret in H.
  injection H as <- <-. unfold lift_res in Hb0. injection Hb0 as <- Hd. injection Hb as <- <-.
  rename a1 into d.
  apply make_decision_ok in Hd as (Hgid & Hrid & Hst & <- & <- & _ & Htid & _).
  apply verified_claims_ok in Hc as (Hs0 & Ht0 & payload & Hv & Hr).
  apply consume_token_spec in Htok as (tok & at_ & exp & Hct & Hexp & Hlt & Hgt & Hu & Hs1).
  pose proof (const_eq _ _ _ _ (load_gate_const c) Hg) as Hs2.
  pose proof (const_eq _ _ _ _ (check_authz_const _ gate) Hz) as Hs3.
  apply load_gate_ok in Hg as (gid & Hcg & Hgg & Hp).
  apply check_authz_ok in Hz as (r & Hra & Hrr & Hga).
  apply apply_decision_ok in Hb1 as (run & now & Hrun & Hl & Hruns & Hgates & Htoks & Hdecs).
  rewrite Hs0 in Hgt, Hs1. rewrite Hs1 in Hgg.
  cbn [tick sys_store] in Hrun, Hruns, Hgates, Htoks, Hdecs.
  rewrite Hs3, Hs2, Hs1 in Hrun, Hruns, Hgates, Htoks, Hdecs.
  rewrite Hgid in Hcg. injection Hcg as <-. subst tid. rewrite Ht0 in Hlt. split.
  - by exists payload, c, exp.
  - done.
  - exists tok, at_. do 2 (split; [done|]). rewrite Htoks. cbn. apply dget_dset_eq.
  - exists gate, r. by repeat split.
  - exists run. do 2 (split; [done|]). unfold status_of. rewrite Hruns, dget_dset_eq. done.
  - done.
Qed.

(** ** Effects of refused resolutions *)

(** Raising [GateResolutionError] leaves runs, steps, gates and decisions
    alone; at most one token, which existed unused, has been marked used. *)
Definition only_token_burnt (s s' : RunStore) : Prop :=
  s' = s \/ exists tid tok at_, dget tid (rs_tokens s) = Some tok /\ tok_is_used tok = false /\
    s' = set_tokens (dset tid (with_used_at at_ tok) (rs_tokens s)) s.

Lemma apply_decision_not_gate_error gate d s s' reason code :
  apply_decision gate d s <> (s', Err (GateResolutionError reason code)).
Proof.
  intros H. apply apply_decision_spec in H as (now & now' & H). unfold update_run_status in H.
  destruct (dget _ _); [destruct (is_legal_run_transition _ _)|]; by destruct H.
Qed.

(** ** Repeated attempts *)

Record attempt := mk_attempt {
  at_raw : string; at_decision : Decision; at_actor : string; at_channel : string;
  at_reason : option string }.

Definition run_attempt (key : Key) (a : attempt) : GM ApprovalDecision :=
  resolve_gate (at_raw a) (at_decision a) (at_actor a) (at_channel a) key (at_reason a).

(** How many of a sequence of attempts succeeded for gate [gid]. *)
Fixpoint successes (key : Key) (gid : string) (l : list attempt) (s : sys RunStore W) : nat :=
  match l with
  | [] => 0
  | a :: l' =>
      let '(s', r) := run_attempt key a s in
      (match r with
       | Ok d => if String.eqb (ad_gate_request_id d) gid then 1 else 0
       | Err _ => 0
       end + successes key gid l' s')%nat
  end.

Definition gate_closed (gid : string) (s : RunStore) : Prop :=
  exists gate, dget gid (rs_gates s) = Some gate /\ gr_status gate <> GPending.

(** An attempt only ever replaces a gate by one that is no longer pending. *)
Lemma resolve_gate_gates raw decision actor channel key reason s s' r :
  resolve_gate raw decision actor channel key reason s = (s', r) ->
  rs_gates (sys_store s') = rs_gates (sys_store s) \/
  exists gid gate, dget gid (rs_gates (sys_store s)) = Some gate /\
    rs_gates (sys_store s') =
      dset (gr_id gate) (with_gate_status (gate_outcome decision) gate) (rs_gates (sys_store s)).
Proof.
  unfold resolve_gate, bind at 1. intros H.
  destruct (verified_claims raw actor key s) as [s1 [c|e]] eqn:E1;
    pose proof (const_eq _ _ _ _ (verified_claims_const raw actor key) E1) as H1;
    [|injection H as <- <-; left; by rewrite H1].
  unfold bind at 1 in H. destruct (consume_token actor c s1) as [s2 r2] eqn:E2.
  apply consume_token_spec in E2. destruct r2 as [tid|e];
    [|injection H as <- <-; left; by rewrite E2, H1].
  destruct E2 as (tok & at_ & exp & _ & _ & _ & _ & _ & H2).
  assert (rs_gates (sys_store s2) = rs_gates (sys_store s)) as Hg2 by (rewrite H2, H1; done).
  unfold bind at 1 in H. destruct (load_gate c s2) as [s3 r3] eqn:E3.
  pose proof (const_eq _ _ _ _ (load_gate_const c) E3) as H3.
  destruct r3 as [gate|e]; [|injection H as <- <-; left; by rewrite H3].
  apply load_gate_ok in E3 as (gid & _ & Hgid & _).
  unfold bind at 1 in H. destruct (check_authz actor gate s3) as [s4 r4] eqn:E4.
  pose proof (const_eq _ _ _ _ (check_authz_const actor gate) E4) as H4.
  destruct r4 as [u|e]; [|injection H as <- <-; left; by rewrite H4, H3].
  unfold bind at 1 in H. cbn [get_now tick] in H. unfold bind at 1, lift_res in H.
  destruct (make_decision _ _ _ _ _ _ _) as [d|e] eqn:Ed;
    [|injection H as <- <-; left; cbn; by rewrite H4, H3].
  apply make_decision_ok in Ed as (_ & _ & _ & <- & _).
  unfold bind in H. destruct (apply_decision gate d _) as [s5 r5] eqn:E5.
  apply apply_decision_spec in E5 as (now & now' & E5). cbn [tick sys_store] in E5.
  right. exists gid, gate. rewrite <- Hg2. split; [done|].
  assert (sys_store s' = sys_store s5) as -> by (destruct r5; by injection H as <- <-).
  replace (sys_store s4) with (sys_store s2) in E5 by (by rewrite H4, H3).
  unfold update_run_status, decided_store in E5.
  destruct (dget _ (rs_runs _)) as [run|]; [destruct (is_legal_run_transition _ _)|];
    destruct E5 as [_ ->]; [|done|done].
  destruct (ad_decision d); [|done].
  match goal with |- context [exec_call ?c ?st] =>
    by destruct (advance_gate_fields now' (ad_run_id d) (ad_step d) st) as (_ & -> & _) end.
Qed.

Lemma gate_closed_stays gid key a s :
  keyed gr_id (rs_gates (sys_store s)) -> gate_closed gid (sys_store s) ->
  gate_closed gid (sys_store (fst (run_attempt key a s))).
Proof.
  intros [_ Hk] (gate & Hg & Hp). destruct (run_attempt key a s) as [s' r] eqn:E. cbn.
  apply resolve_gate_gates in E as [Heq | (gid' & gate' & Hg' & Heq)].
  - exists gate. by rewrite Heq.
  - unfold gate_closed. rewrite Heq, dget_dset. case_decide as D; [|by exists gate].
    eexists. split; [done|]. by destruct (at_decision a).
Qed.

Lemma gates_keyed_stays key a s :
  keyed gr_id (rs_gates (sys_store s)) ->
  keyed gr_id (rs_gates (sys_store (fst (run_attempt key a s)))).
Proof.
  intros Hk. destruct (run_attempt key a s) as [s' r] eqn:E. cbn.
  apply resolve_gate_gates in E as [-> | (gid' & gate' & Hg' & ->)]; [done|].
  by apply keyed_dset.
Qed.

Lemma closed_no_success key gid l s :
  keyed gr_id (rs_gates (sys_store s)) -> gate_closed gid (sys_store s) ->
  successes key gid l s = 0%nat.
Proof.
  revert s. induction l as [|a l IH]; intros s Hk Hc; [done|]. cbn.
  pose proof (gate_closed_stays gid key a s Hk Hc) as Hc'.
  pose proof (gates_keyed_stays key a s Hk) as Hk'.
  destruct (run_attempt key a s) as [s' r] eqn:E. cbn in *. rewrite IH by done.
  destruct r as [d|e]; [|done]. destruct (String.eqb_spec (ad_gate_request_id d) gid) as [Heq|]; [|done].
  apply resolve_gate_ok in E. destruct (rv_gate _ _ _ _ _ _ _ E) as (g & r & Hg & Hp & _).
  destruct Hc as (g' & Hg' & Hp'). congruence.
Qed.

Lemma success_closes key a s s' d :
  keyed gr_id (rs_gates (sys_store s)) ->
  run_attempt key a s = (s', Ok d) -> gate_closed (ad_gate_request_id d) (sys_store s').
Proof.
  intros [_ Hk] E. apply resolve_gate_ok in E.
  destruct (rv_gate _ _ _ _ _ _ _ E) as (g & r & Hg & Hp & _ & _ & _ & Hgs).
  unfold gate_closed. rewrite Hgs, (Hk _ _ Hg), dget_dset_eq.
  eexists. split; [done|]. by destruct (at_decision a).
Qed.
End Gates.

(** ** Properties *)

Section GateProperties.
Context {W Key : Type}.
Context (clock : nat -> datetime) (uuids : nat -> string).
Context (sign : Key -> string -> string) (sha256_hex : string -> string).
Context (json_dumps_sorted : json -> string) (json_loads : string -> option json).
Context (audit_fn : option (AuditEvent -> M W unit)).

Abbreviation issue := (issue_token (W := W) clock uuids sign sha256_hex json_dumps_sorted).
Abbreviation verify := (verify_token sign json_loads).
Abbreviation resolve := (resolve_gate clock sign json_loads audit_fn).

Lemma issue_token_ok gid rid step channel key ttl s s' raw tok :
  issue gid rid step channel key ttl s = (s', Ok (raw, tok)) ->
  sys_store s' = sys_store s /\ tok_id tok = uuids (sys_uuids s) /\
  dt_add (clock (sys_ticks s)) (ttl * US_PER_SECOND) = Some (tok_expires_at tok) /\
  raw = raw_token_of sign json_dumps_sorted key
          (token_payload (tok_id tok) gid rid step (timestamp (tok_expires_at tok))) /\
  tok = mk_ApprovalToken (tok_id tok) gid rid step KEY_ID (sha256_hex raw) channel
          (tok_expires_at tok) None.
Proof.
  unfold issue_token, bind, uuid4, get_now, lift_res. cbn.
  destruct (dt_add _ _) as [exp|]; cbn; [|done]. intros [= <- <- <-]. by cbn.
Qed.

(** A token that was issued verifies, for any codec that reads back the fields it
    wrote. *)
Lemma issued_verifies gid rid step channel key ttl s s' raw tok d' :
  issue gid rid step channel key ttl s = (s', Ok (raw, tok)) ->
  let payload := token_payload (tok_id tok) gid rid step (timestamp (tok_expires_at tok)) in
  json_loads (json_dumps_sorted payload) = Some (JDict d') ->
  (forall k, json_get (JDict d') k = json_get payload k) ->
  is_ascii (sign key (b64 (json_dumps_sorted payload))) = true ->
  verify raw key = Ok (inl (JDict d')) /\
  read_claims (JDict d') = Ok (mk_claims (JStr (tok_id tok)) (JStr gid) (JStr rid) (JStr step)
                                 (JFloat (timestamp (tok_expires_at tok)))) /\
  (forall now, dt_le now (tok_expires_at tok) = true ->
     Qlt_bool (timestamp (tok_expires_at tok)) (timestamp now) = false) /\
  tok_token_hash tok = sha256_hex raw /\ tok_is_used tok = false /\ sys_store s' = sys_store s.
Proof.
  intros Hi payload Hcodec Hget Hascii.
  apply issue_token_ok in Hi as (Hst & _ & _ & Hraw & Htok).
  split; [apply verify_token_accepts; exists (b64 (json_dumps_sorted payload));
          rewrite decode_payload_b64; by auto using b64_no_dot|].
  split; [unfold read_claims; by rewrite !Hget|].
  split; [|by rewrite Htok].
  intros now Hle. unfold Qlt_bool, Qle_bool, timestamp, timestamp_us. cbn [Qnum Qden].
  unfold dt_le in Hle. apply negb_false_iff, Z.leb_le. apply Z.leb_le in Hle. lia.
Qed.

(** Only signed tokens verify.  [verify_token] accepts a raw token exactly
    when it is [p.signature] with the key's own signature of [p] and [p] decodes;
    any other ASCII text after the first dot is reported as tampered, so a
    changed payload or signature is never accepted. *)
Lemma verify_token_exact raw key :
  (forall payload, verify raw key = Ok (inl payload) <->
     exists p, Forall (fun c => c <> "."%char) (list_ascii_of_string p) /\
       raw = p +:+ "." +:+ sign key p /\ is_ascii (sign key p) = true /\
       decode_payload json_loads p = Some payload) /\
  (forall p sg, Forall (fun c => c <> "."%char) (list_ascii_of_string p) ->
     raw = p +:+ "." +:+ sg -> is_ascii sg = true -> is_ascii (sign key p) = true ->
     sg <> sign key p -> verify raw key = Ok (inr "tampered")).
Proof.
  split; [intros; apply verify_token_accepts|].
  intros p sg Hp -> Ha Hs Hne. unfold verify_token. rewrite split_dot_raw by done.
  rewrite !string_of_list_ascii_of_string. unfold compare_digest. rewrite Ha, Hs. cbn.
  destruct (String.eqb_spec (sign key p) sg); [by subst|done].
Qed.

(** C3: soundness of an approval or rejection.  When [resolve_gate] returns a
    decision, the raw token carried a valid signature and was not expired, its
    stored record existed unused and is used now, the gate it names was
    pending and now has the decided status, the actor's role is the gate's
    required role and is attorney or administrator, the run it names moved
    along a legal edge to [RUNNING] (approve) or [REJECTED] (reject), and
    exactly this decision was appended to the decision log. *)
Theorem resolve_gate_sound raw decision actor channel key reason s s' d :
  resolve raw decision actor channel key reason s = (s', Ok d) ->
  resolved clock sign json_loads raw decision actor key s s' d /\
  (actor = "attorney" \/ actor = "admin") /\
  exists gate, dget (ad_gate_request_id d) (rs_gates (sys_store s)) = Some gate /\
    gr_required_role gate = actor.
Proof.
  intros H. apply resolve_gate_ok in H. split; [done|].
  destruct (rv_gate _ _ _ _ _ _ _ _ _ _ H) as (gate & r & Hg & _ & Ha & Hr & Hp & _).
  apply role_of_spec in Ha, Hr. split; [|exists gate; split; [done|congruence]].
  apply approver_roles in Hp as [-> | ->]; subst actor; [by left | by right].
Qed.

(** A refusal changes nothing but a token.  When [resolve_gate] raises
    [GateResolutionError], runs, steps, gates, decisions and the dedupe index
    are as before; at most one stored token went from unused to used. *)
Lemma resolve_gate_refused raw decision actor channel key reason s s' why code :
  resolve raw decision actor channel key reason s = (s', Err (GateResolutionError why code)) ->
  only_token_burnt (sys_store s) (sys_store s').
Proof.
  unfold resolve_gate. intros H. apply bind_err in H as [H|(s1 & c & E1 & H)].
  { left. by apply (const_eq _ _ _ _ (verified_claims_const _ _ _ _ _ _)) in H. }
  pose proof (const_eq _ _ _ _ (verified_claims_const _ _ _ _ _ _) E1) as H1.
  apply bind_err in H as [H|(s2 & tid & E2 & H)].
  { apply consume_token_spec in H. left. by rewrite H. }
  apply consume_token_spec in E2 as (tok & at_ & exp & _ & _ & _ & Hg & Hu & H2).
  rewrite H1 in Hg, H2. right. exists tid, tok, at_. do 2 (split; [done|]).
  transitivity (sys_store s2); [|done].
  apply bind_err in H as [H|(s3 & gate & E3 & H)].
  { by apply (const_eq _ _ _ _ (load_gate_const _)) in H. }
  pose proof (const_eq _ _ _ _ (load_gate_const _) E3) as H3.
  apply bind_err in H as [H|(s4 & u & E4 & H)].
  { apply (const_eq _ _ _ _ (check_authz_const _ _ _)) in H. congruence. }
  pose proof (const_eq _ _ _ _ (check_authz_const _ _ _) E4) as H4.
  apply bind_err in H as [H|(s5 & at' & E5 & H)]; [done|]. injection E5 as <- <-.
  apply bind_err in H as [H|(s6 & d & E6 & H)].
  { unfold lift_res in H. injection H as <- _. cbn. congruence. }
  apply bind_err in H as [H|(s7 & u' & _ & H)]; [|done].
  by apply apply_decision_not_gate_error in H.
Qed.

(** C10: a gate is resolved once.  Whatever tokens (one is issued per
    channel), decisions, actors and channels a sequence of attempts uses, at
    most one of them succeeds for the same gate. *)
Theorem gate_resolved_once key gid attempts s :
  keyed gr_id (rs_gates (sys_store s)) ->
  (successes clock sign json_loads audit_fn key gid attempts s <= 1)%nat.
Proof.
  revert s. induction attempts as [|a l IH]; intros s Hk; cbn; [lia|].
  pose proof (gates_keyed_stays clock sign json_loads audit_fn key a s Hk) as Hk'.
  destruct (run_attempt clock sign json_loads audit_fn key a s) as [s' [d|e]] eqn:E; cbn in Hk'.
  - apply (success_closes clock sign json_loads audit_fn) in E; [|done].
    destruct (String.eqb_spec (ad_gate_request_id d) gid) as [<-|].
    + rewrite closed_no_success by done. lia.
    + apply IH, Hk'.
  - apply IH, Hk'.
Qed.
End GateProperties.

(** ** The codec of the program

    [issue_token] writes the payload with sorted keys, [verify_token] reads the
    decoded bytes. *)

Section TokenCodec.
Context {W Key : Type} (clock : nat -> datetime) (uuids : nat -> string).
Context (sign : Key -> string -> string) (sha256_hex : string -> string).
Context (float_repr : Q -> string) (parse_float parse_constant : string -> json).
Context (decode_as : Encoding -> string -> option string).

Abbreviation dumps := (json_dumps float_repr SORTED).
Abbreviation loads := (json_loads_bytes parse_float parse_constant decode_as).

Lemma token_payload_faithful tid gid rid step exp :
  is_text tid = true -> is_text gid = true -> is_text rid = true -> is_text step = true ->
  float_reads float_repr parse_float exp ->
  faithful float_repr parse_float (token_payload tid gid rid step exp).
Proof.
  intros. apply fa_dict; [by apply (bool_decide_unpack _)|].
  repeat (apply List.Forall_cons; [split; [reflexivity|by constructor]|]). constructor.
Qed.

(** C20: a token that was issued verifies.  With Python's json on both sides, texts
    for the token's, gate's, run's and step's names, an expiry whose decimal form
    reads back and an ASCII signature, the raw token [issue_token] returns passes
    [verify_token] under the same key, and what [resolve_gate] reads from its
    payload is the issued token's id, gate, run, step and expiry, unexpired at any
    instant up to that expiry.  The stored record has the token's hash and no use,
    and nothing is written. *)
Theorem issue_verify_roundtrip gid rid step channel key ttl s s' raw tok :
  issue_token (W := W) clock uuids sign sha256_hex dumps gid rid step channel key ttl s = (s', Ok (raw, tok)) ->
  is_text (tok_id tok) = true -> is_text gid = true -> is_text rid = true -> is_text step = true ->
  float_reads float_repr parse_float (timestamp (tok_expires_at tok)) ->
  (forall p, is_ascii (sign key p) = true) ->
  exists payload,
    verify_token sign loads raw key = Ok (inl payload) /\
    read_claims payload = Ok (mk_claims (JStr (tok_id tok)) (JStr gid) (JStr rid) (JStr step)
                                (JFloat (timestamp (tok_expires_at tok)))) /\
    (forall now, dt_le now (tok_expires_at tok) = true ->
       Qlt_bool (timestamp (tok_expires_at tok)) (timestamp now) = false) /\
    tok_token_hash tok = sha256_hex raw /\ tok_is_used tok = false /\ sys_store s' = sys_store s.
Proof.
  intros Hi Ht Hg Hr Hs Hf Ha.
  pose proof (token_payload_faithful _ _ _ _ _ Ht Hg Hr Hs Hf) as Hp.
  pose proof (loads_bytes_dumps float_repr parse_float parse_constant SORTED decode_as _ Hp) as Hl.
  eexists. eapply (issued_verifies clock uuids sign sha256_hex dumps loads); [exact Hi|exact Hl| |apply Ha].
  intros k. unfold json_get, token_payload. cbn [in_order]. by rewrite dget_ordered by by apply (bool_decide_unpack _).
Qed.
End TokenCodec.

(** ** A concrete gate *)

Definition ex_now : datetime := utc_datetime (ymd2ord 2026 3 9) 0.
Definition ex_exp : datetime := utc_datetime (ymd2ord 2026 3 10) 0.
Definition ex_clock (n : nat) : datetime := ex_now.
Definition ex_uuids (n : nat) : string := "t0".
Definition ex_sign (k : unit) (s : string) : string := "sig".
Definition ex_hash (s : string) : string := "hash".
Definition ex_payload : json := token_payload "t0" "g1" "r1" "GATE:review" (timestamp ex_exp).
Definition ex_dumps (j : json) : string := "x".
Definition ex_loads (s : string) : option json := Some ex_payload.
Definition ex_raw : string := raw_token_of ex_sign ex_dumps tt ex_payload.

(** The gate asks for two approvals. *)
Definition ex_gate : GateRequest :=
  mk_GateRequest "g1" "r1" "GATE:review" "attorney" 2 GPending ["web"] ex_now ex_exp.

Definition ex_gate_run : WorkflowRun :=
  mk_WorkflowRun "r1" "intake" 1 AWAITING_APPROVAL None (mk_TriggerRef "event" "webhook" None) []
    ex_now ex_now None.

Definition ex_gate_step : StepState :=
  mk_StepState "r1" "GATE:review" 0 SPENDING 0 "r1:GATE:review" None None None None None.

Definition ex_token : ApprovalToken :=
  mk_ApprovalToken "t0" "g1" "r1" "GATE:review" KEY_ID "hash" "web" ex_exp None.

Definition ex_gate_store : RunStore :=
  mk_RunStore [("r1", ex_gate_run)] [("r1", [ex_gate_step])] [("g1", ex_gate)]
    [("t0", ex_token)] [] [].

Definition ex_gate_sys : sys RunStore unit := mk_sys ex_gate_store tt 0 0.

Definition ex_resolve (actor : string) : GM (W := unit) ApprovalDecision :=
  resolve_gate ex_clock ex_sign ex_loads None ex_raw Approve actor "web" tt None.

Definition ex_decision : ApprovalDecision :=
  mk_ApprovalDecision "g1" "r1" "GATE:review" Approve "attorney" "web" "t0" None ex_now.

Definition ex_issue : GM (W := unit) (string * ApprovalToken) :=
  issue_token ex_clock ex_uuids ex_sign ex_hash ex_dumps "g1" "r1" "GATE:review" "web" tt 86400.

Definition codec_dumps : json -> string := json_dumps micro_repr SORTED.
Definition codec_loads : string -> option json := json_loads_bytes micro_read micro_read (fun _ _ => None).

Definition codec_issue : GM (W := unit) (string * ApprovalToken) :=
  issue_token ex_clock ex_uuids ex_sign ex_hash codec_dumps "g1" "r1" "GATE:review" "web" tt 86400.

Definition codec_raw : string := raw_token_of ex_sign codec_dumps tt ex_payload.

Lemma issue_verify_roundtrip_witness :
  codec_raw = "eyJleHAiOiAxNzczMTAwODAwLjAwMDAwMCwgImdpZCI6ICJnMSIsICJyaWQiOiAicjEiLCAic3RlcCI6ICJHQVRFOnJldmlldyIsICJ0aWQiOiAidDAifQ.sig" /\
  exists payload, verify_token ex_sign codec_loads codec_raw tt = Ok (inl payload).
Proof.
  split; [vm_compute; reflexivity|].
  destruct (issue_verify_roundtrip (W := unit) ex_clock ex_uuids ex_sign ex_hash micro_repr micro_read micro_read
    (fun _ _ => None) "g1" "r1" "GATE:review" "web" tt 86400 ex_gate_sys (fst (codec_issue ex_gate_sys)) codec_raw
    ex_token) as (payload & Hv & _); [vm_compute; reflexivity..| |done|].
  - split; [|split; [vm_compute; reflexivity|]].
    + eexists _, _, _. vm_compute. reflexivity.
    + vm_compute. repeat constructor.
  - by exists payload.
Defined.

Lemma resolve_gate_sound_witness :
  snd (ex_resolve "attorney" ex_gate_sys) = Ok ex_decision /\
  ("attorney" = "attorney" \/ "attorney" = "admin").
Proof.
  split; [vm_compute; reflexivity|].
  apply (resolve_gate_sound ex_clock ex_sign ex_loads None ex_raw Approve "attorney" "web" tt None
           ex_gate_sys (fst (ex_resolve "attorney" ex_gate_sys)) ex_decision).
  vm_compute. reflexivity.
Defined.

Lemma resolve_gate_refused_witness :
  only_token_burnt ex_gate_store (sys_store (fst (ex_resolve "paralegal" ex_gate_sys))).
Proof.
  apply (resolve_gate_refused ex_clock ex_sign ex_loads None ex_raw Approve "paralegal" "web" tt None
           ex_gate_sys (fst (ex_resolve "paralegal" ex_gate_sys))
           "Insufficient role to approve this gate." 403).
  vm_compute. reflexivity.
Defined.

Definition ex_attempt : attempt := mk_attempt ex_raw Approve "attorney" "web" None.

Lemma gate_resolved_once_witness :
  successes ex_clock ex_sign ex_loads None tt "g1" [ex_attempt; ex_attempt] ex_gate_sys = 1%nat /\
  (successes ex_clock ex_sign ex_loads None tt "g1" [ex_attempt; ex_attempt] ex_gate_sys <= 1)%nat.
Proof.
  split; [vm_compute; reflexivity|].
  apply (gate_resolved_once ex_clock ex_sign ex_loads None tt "g1" [ex_attempt; ex_attempt] ex_gate_sys).
  split; [apply NoDup_singleton|]. intros k x. cbn.
  destruct (decide (k = "g1")) as [->|]; [by intros [= <-] | done].
Defined.

(** The quorum is not enforced.  A gate that requires two approvals is
    approved, and its run resumed with the gate step done, by a single one. *)
Theorem quorum_not_enforced :
  let '(s', r) := ex_resolve "attorney" ex_gate_sys in
  gr_quorum ex_gate = 2 /\ r = Ok ex_decision /\
  option_map gr_status (dget "g1" (rs_gates (sys_store s'))) = Some GApproved /\
  status_of "r1" (sys_store s') = Some RUNNING /\
  map st_status (steps_of "r1" (sys_store s')) = [SSUCCEEDED] /\
  rs_decisions (sys_store s') = [ex_decision].
Proof. vm_compute. by repeat split. Qed.
