(* ===== verification/Coroutine.v ===== *)
(** * Coroutine: suspended computations and their interleavings

    A coroutine of the program runs between two suspension points without being
    interrupted; at an [await] the event loop may run any other one.  [Coro S A]
    keeps what [M S A] forgets: where those points are.  [run_coro] runs one
    coroutine alone and is the monadic reading of the rest of the library;
    [pool_step] lets any coroutine of a pool take one step, and [run_schedule]
    executes a given interleaving.  Three rules serve the components: a bound on
    the steps of every interleaving, a rely-guarantee rule for facts that no step
    of the pool undoes, and a rule for races that have a single winner. *)

From Stdlib Require Import ZArith Lia String List.
From stdpp Require Import base list numbers relations.
From S2P Require Import Prelude Effects.

Open Scope list_scope.
Open Scope nat_scope.
Open Scope cam_scope.

(** [CAwait m k]: perform [m], then continue with what it gave. *)
Inductive Coro (S A : Type) : Type :=
| CReturn (r : res A)
| CAwait (B : Type) (m : M S B) (k : res B -> Coro S A).
Arguments CReturn {S A} r.
Arguments CAwait {S A B} m k.

Section Coro.
Context {S : Type}.

(** [await m]: a step whose exception is the coroutine's. *)
Definition await {A} (m : M S A) : Coro S A := CAwait m CReturn.

Fixpoint cbind {A B} (c : Coro S A) (f : A -> Coro S B) : Coro S B :=
  match c with
  | CReturn (Ok a) => f a
  | CReturn (Err e) => CReturn (Err e)
  | CAwait m k => CAwait m (fun b => cbind (k b) f)
  end.

(** [try: c finally: f] *)
Fixpoint cfinally {A} (c : Coro S A) (f : Coro S unit) : Coro S A :=
  match c with
  | CReturn r => cbind f (fun _ => CReturn r)
  | CAwait m k => CAwait m (fun b => cfinally (k b) f)
  end.

(** The coroutine alone on the event loop. *)
Fixpoint run_coro {A} (c : Coro S A) : M S A :=
  match c with
  | CReturn r => lift_res r
  | CAwait m k => fun s => let '(s', b) := m s in run_coro (k b) s'
  end.

Definition finished {A} (c : Coro S A) : bool :=
  match c with CReturn _ => true | CAwait _ _ => false end.

(** One step of an unfinished coroutine. *)
Definition step_coro {A} (c : Coro S A) (s : S) : option (S * Coro S A) :=
  match c with
  | CReturn _ => None
  | CAwait m k => let '(s', b) := m s in Some (s', k b)
  end.

(** At most [n] steps are left. *)
Fixpoint bounded {A} (n : nat) (c : Coro S A) {struct c} : Prop :=
  match c, n with
  | CReturn _, _ => True
  | CAwait m k, 0 => False
  | CAwait m k, Datatypes.S n' => forall s, bounded n' (k (snd (m s)))
  end.

(** ** The event loop *)

Definition pool (A : Type) : Type := S * list (Coro S A).

Inductive pool_step {A} : relation (pool A) :=
| step_at i s cs c s' c' :
    cs !! i = Some c -> step_coro c s = Some (s', c') ->
    pool_step (s, cs) (s', <[i := c']> cs).

(** Coroutine [i] has its turn; a finished or missing one leaves the pool alone. *)
Definition turn {A} (i : nat) (p : pool A) : pool A :=
  match p.2 !! i with
  | Some c => match step_coro c p.1 with
              | Some (s', c') => (s', <[i := c']> p.2)
              | None => p
              end
  | None => p
  end.

Definition run_schedule {A} (is_ : list nat) (p : pool A) : pool A :=
  fold_left (fun p i => turn i p) is_ p.

(** ** The monadic reading *)

Lemma run_await {A} (m : M S A) s : run_coro (await m) s = m s.
Proof. cbn. unfold lift_res. by destruct (m s). Qed.

Lemma run_cbind {A B} (c : Coro S A) (f : A -> Coro S B) s :
  run_coro (cbind c f) s = bind (run_coro c) (fun a => run_coro (f a)) s.
Proof.
  revert s. induction c as [[a|e]|D m k IH]; intros s; [done..|]. cbn. unfold bind.
  destruct (m s) as [s' b]. apply IH.
Qed.

(** What [cbind] runs is what [bind] runs, part by part. *)
Lemma run_cbind_eq {A B} (c : Coro S A) (f : A -> Coro S B) (m : M S A) (g : A -> M S B) s :
  run_coro c s = m s -> (forall a s', run_coro (f a) s' = g a s') ->
  run_coro (cbind c f) s = bind m g s.
Proof. intros Hm Hf. rewrite run_cbind. unfold bind. rewrite Hm. by destruct (m s) as [s' [a|e]]. Qed.

Lemma run_cfinally {A} (c : Coro S A) (f : Coro S unit) s :
  run_coro (cfinally c f) s = try_finally (run_coro c) (run_coro f) s.
Proof.
  revert s. induction c as [r|D m k IH]; intros s.
  - cbn. rewrite run_cbind. unfold bind, try_finally, lift_res. by destruct (run_coro f s) as [s' [u|e]].
  - cbn. unfold try_finally. destruct (m s) as [s' b]. apply IH.
Qed.

Lemma bounded_mono {A} n n' (c : Coro S A) : bounded n c -> n <= n' -> bounded n' c.
Proof.
  revert n n'. induction c as [r|D m k IH]; intros n n'; [by destruct n'|].
  destruct n as [|n], n' as [|n']; try done; [lia|]. cbn. intros H Hn s. eapply IH; [apply H|lia].
Qed.

Lemma bounded_cbind {A B} n n' (c : Coro S A) (f : A -> Coro S B) :
  bounded n c -> (forall a, bounded n' (f a)) -> bounded (n + n') (cbind c f).
Proof.
  revert n. induction c as [[a|e]|D m k IH]; intros n Hc Hf.
  - apply bounded_mono with n'; [apply Hf|lia].
  - done.
  - destruct n as [|n]; [done|]. intros s. by apply IH.
Qed.

Lemma bounded_await {A} (m : M S A) : bounded 1 (await m).
Proof. done. Qed.

(** ** Schedules and reachability *)

Lemma turn_at {A} i s (cs : list (Coro S A)) c s' c' :
  cs !! i = Some c -> step_coro c s = Some (s', c') -> turn i (s, cs) = (s', <[i := c']> cs).
Proof. unfold turn. cbn. intros -> H. by rewrite H. Qed.

Lemma turn_idle {A} i s (cs : list (Coro S A)) r :
  cs !! i = Some (CReturn r) -> turn i (s, cs) = (s, cs).
Proof. unfold turn. cbn. by intros ->. Qed.

Lemma turn_step {A} i (p : pool A) : turn i p = p \/ pool_step p (turn i p).
Proof.
  destruct p as [s cs]. unfold turn. cbn. destruct (cs !! i) as [c|] eqn:E; [|by left].
  destruct (step_coro c s) as [[s' c']|] eqn:Es; [right|by left]. by econstructor.
Qed.

Lemma step_turn {A} (p q : pool A) : pool_step p q -> exists i, turn i p = q.
Proof. intros [i s cs c s' c' Hi Hc]. exists i. by eapply turn_at. Qed.

Lemma schedule_reaches {A} is_ (p : pool A) : rtc pool_step p (run_schedule is_ p).
Proof.
  revert p. induction is_ as [|i is_ IH]; intros p; [done|]. cbn.
  destruct (turn_step i p) as [-> | H]; [apply IH | eapply rtc_l; [done|apply IH]].
Qed.

(** The reachable pools are those some schedule produces. *)
Lemma reachable_schedule {A} (p q : pool A) :
  rtc pool_step p q <-> exists is_, run_schedule is_ p = q.
Proof.
  split; [|intros [is_ <-]; apply schedule_reaches].
  induction 1 as [|p q r Hs _ [is_ <-]]; [by exists []|].
  destruct (step_turn p q Hs) as [i <-]. by exists (i :: is_).
Qed.

(** An unfinished coroutine can always go on. *)
Lemma pool_progress {A} (p : pool A) :
  Forall (fun c => finished c = true) p.2 \/ exists q, pool_step p q.
Proof.
  destruct p as [s cs]. cbn.
  destruct (decide (Forall (fun c => finished c = true) cs)) as [H|H]; [by left|right].
  apply not_Forall_Exists in H; [|intros ?; apply _].
  apply Exists_exists in H as (c & Hin & Hc). apply list_elem_of_lookup in Hin as [i Hi].
  destruct c as [r|D m k]; [by destruct Hc|]. destruct (m s) as [s' b] eqn:Em.
  eexists. eapply step_at; [done|]. cbn. by rewrite Em.
Qed.

Lemma step_bounded {A} n (c c' : Coro S A) s s' :
  step_coro c s = Some (s', c') -> bounded n c -> exists n', n = Datatypes.S n' /\ bounded n' c'.
Proof.
  destruct c as [r|D m k]; [done|]. destruct n as [|n]; [done|]. cbn. intros Hs Hb.
  exists n. split; [done|]. specialize (Hb s). destruct (m s) as [s1 b]. by simplify_eq/=.
Qed.

Lemma sum_list_insert (l : list nat) i x y :
  l !! i = Some x -> sum_list (<[i := y]> l) + x = sum_list l + y.
Proof.
  revert i. induction l as [|z l IH]; intros [|i]; simpl; [done..| |].
  - intros [= ->]. unfold id. lia.
  - intros H. specialize (IH i H). unfold id in *. lia.
Qed.

(** Every interleaving is finite: it has at most as many steps as the
    coroutines have together. *)
Lemma pool_terminates {A} n ns (p q : pool A) :
  Forall2 bounded ns p.2 -> nsteps pool_step n p q -> n <= sum_list ns.
Proof.
  intros Hb Hn. revert ns Hb. induction Hn as [|n p q r Hs Hn IH]; intros ns Hb; [lia|].
  destruct Hs as [i s cs c s' c' Hi Hc]. cbn in *.
  destruct (Forall2_lookup_r _ _ _ _ _ Hb Hi) as (m & Hm & Hmc).
  destruct (step_bounded _ _ _ _ _ Hc Hmc) as (m' & -> & Hc').
  specialize (IH (<[i := m']> ns) (Forall2_insert _ _ _ _ _ _ Hb Hc')).
  pose proof (sum_list_insert ns i _ m' Hm). lia.
Qed.

(** A coroutine given all its turns in a row computes its monadic run. *)
Lemma run_alone {A} n i (c : Coro S A) s cs :
  cs !! i = Some c -> bounded n c ->
  run_schedule (replicate n i) (s, cs) =
    ((run_coro c s).1, <[i := CReturn (run_coro c s).2]> cs).
Proof.
  revert c s cs. induction n as [|n IH]; intros c s cs Hi Hc.
  - destruct c; [|done]. by rewrite list_insert_id.
  - change (run_schedule (replicate (Datatypes.S n) i) (s, cs))
      with (run_schedule (replicate n i) (turn i (s, cs))).
    destruct c as [r|D m k].
    + rewrite (turn_idle i s cs r Hi). by apply IH.
    + destruct (m s) as [s' b] eqn:Em. rewrite (turn_at i s cs _ s' (k b) Hi) by (cbn; by rewrite Em).
      rewrite (IH (k b)); [| |specialize (Hc s); by rewrite Em in Hc].
      * rewrite list_insert_insert_eq. cbn. by rewrite Em.
      * apply list_lookup_insert_eq. by eapply lookup_lt_Some.
Qed.

End Coro.

(** ** Rely and guarantee

    Every step of every coroutine relates its states by the preorder [R], so an
    assertion that is stable under [R] survives whatever the others do. *)

Section RelyGuarantee.
Context {S A : Type} (R : relation S) `{!PreOrder R}.

Definition stable (P : S -> Prop) : Prop := forall s s', R s s' -> P s -> P s'.

(** From [P], between whose steps the others may move along [R]: every step moves
    along [R], and a normal return with [a] ends in [Q a]. *)
Fixpoint obeys {B} (P : S -> Prop) (Q : B -> S -> Prop) (c : Coro S B) : Prop :=
  match c with
  | CReturn r => forall b s, r = Ok b -> P s -> Q b s
  | CAwait m k => forall s, P s ->
      R s (m s).1 /\ exists P', stable P' /\ P' (m s).1 /\ obeys P' Q (k (m s).2)
  end.

Lemma obeys_pre {B} (P P' : S -> Prop) (Q : B -> S -> Prop) c :
  (forall s, P' s -> P s) -> obeys P Q c -> obeys P' Q c.
Proof. intros HP. destruct c; cbn; eauto. Qed.

Lemma obeys_post {B} (P : S -> Prop) (Q Q' : B -> S -> Prop) c :
  (forall b s, Q b s -> Q' b s) -> obeys P Q c -> obeys P Q' c.
Proof.
  intros HQ. revert P. induction c as [r|D m k IH]; cbn; intros P Hc; [eauto|].
  intros s Hs. destruct (Hc s Hs) as (HR & P' & HP' & Hs' & Hk). eauto 7.
Qed.

Lemma obeys_cbind {B C} (P : S -> Prop) (Q : B -> S -> Prop) (Q' : C -> S -> Prop) c f :
  obeys P Q c -> (forall b, obeys (Q b) Q' (f b)) -> obeys P Q' (cbind c f).
Proof.
  revert P. induction c as [[b|e]|D m k IH]; cbn; intros P Hc Hf; [|done|].
  - eapply obeys_pre; [|apply Hf]. eauto.
  - intros s Hs. destruct (Hc s Hs) as (HR & P' & HP' & Hs' & Hk). eauto 7.
Qed.

Lemma obeys_await {B} (P : S -> Prop) (Q : B -> S -> Prop) (m : M S B) :
  (forall b, stable (Q b)) ->
  (forall s, P s -> R s (m s).1 /\ forall b, (m s).2 = Ok b -> Q b (m s).1) ->
  obeys P Q (await m).
Proof.
  intros HQ Hm s Hs. destruct (Hm s Hs) as [HR Hr]. split; [done|].
  destruct (m s) as [s' [b|e]]; cbn in *.
  - exists (Q b). repeat split; auto. by intros b' s1 [= <-].
  - exists (fun _ => True). repeat split; done.
Qed.

(** A coroutine of the pool is at an assertion that holds and is stable. *)
Definition on_course (Q : A -> S -> Prop) (s : S) (c : Coro S A) : Prop :=
  exists P, stable P /\ P s /\ obeys P Q c.

Lemma on_course_step Q s c s' c' :
  step_coro c s = Some (s', c') -> on_course Q s c -> R s s' /\ on_course Q s' c'.
Proof.
  destruct c as [r|D m k]; [done|]. cbn. intros Hs (P & HP & Ps & Hc).
  destruct (Hc s Ps) as (HR & P' & HP' & Hs' & Hk). destruct (m s) as [s1 b].
  simplify_eq/=. split; [done|]. by exists P'.
Qed.

Lemma on_course_stable Q s s' c : R s s' -> on_course Q s c -> on_course Q s' c.
Proof. intros HR (P & HP & Ps & Hc). exists P. eauto. Qed.

(** What every coroutine obeys holds after any interleaving. *)
Lemma pool_obeys Q (p q : pool (S := S) A) :
  Forall (on_course Q p.1) p.2 -> rtc pool_step p q ->
  R p.1 q.1 /\ Forall (on_course Q q.1) q.2.
Proof.
  intros H Hpq. revert H. induction Hpq as [p|p q r [i s cs c s' c' Hi Hc] _ IH]; [done|].
  cbn in *. intros H.
  destruct (on_course_step Q s c s' c' Hc) as [HR Hon]; [by eapply Forall_lookup_1|].
  destruct IH as [HR' HF].
  - apply Forall_insert; [|done]. eapply Forall_impl; [done|]. intros. by eapply on_course_stable.
  - split; [by etrans|done].
Qed.

Lemma on_course_return Q s a : on_course Q s (CReturn (Ok a)) -> Q a s.
Proof. intros (P & _ & Ps & Hc). by apply Hc. Qed.

End RelyGuarantee.

(** ** Races with one winner

    Coroutines compete to move what [obs] shows from an open value to a closed
    one; the winner returns with a value [a] that claims the race and says by
    [out a] where it moved it. *)

Section Race.
Context {S A X : Type} (obs : S -> X) (is_open : X -> Prop) (claims : A -> Prop) (out : A -> X).
Context (out_closed : forall a, claims a -> ~ is_open (out a)).

(** No step touches what [obs] shows. *)
Fixpoint quiet {B} (c : Coro S B) : Prop :=
  match c with
  | CReturn r => True
  | CAwait m k => forall s, obs (m s).1 = obs s /\ quiet (k (m s).2)
  end.

(** The race is won: what is left is quiet and returns [a]. *)
Fixpoint settled (a : A) (c : Coro S A) : Prop :=
  match c with
  | CReturn r => r = Ok a
  | CAwait m k => forall s, obs (m s).1 = obs s /\ settled a (k (m s).2)
  end.

(** The race is open to this coroutine: each step is quiet, or wins. *)
Fixpoint pending (c : Coro S A) : Prop :=
  match c with
  | CReturn r => forall a, r = Ok a -> ~ claims a
  | CAwait m k => forall s,
      (obs (m s).1 = obs s /\ pending (k (m s).2)) \/
      (is_open (obs s) /\ exists a, claims a /\ obs (m s).1 = out a /\ settled a (k (m s).2))
  end.

Lemma pending_cbind {B} (c : Coro S B) f :
  quiet c -> (forall b, pending (f b)) -> pending (cbind c f).
Proof.
  intros Hc Hf. induction c as [[b|e]|D m k IH]; cbn; [done..|].
  intros s. left. destruct (Hc s). eauto.
Qed.

Lemma quiet_cbind {B C} (c : Coro S B) (f : B -> Coro S C) :
  quiet c -> (forall b, quiet (f b)) -> quiet (cbind c f).
Proof.
  intros Hc Hf. induction c as [[b|e]|D m k IH]; cbn; [done..|].
  intros s. destruct (Hc s). eauto.
Qed.

Lemma quiet_await {B} (m : M S B) : (forall s, obs (m s).1 = obs s) -> quiet (await m).
Proof. by intros H s. Qed.

(** One coroutine has won, all others are still racing. *)
Definition won (p : pool (S := S) A) : Prop :=
  exists i c a, p.2 !! i = Some c /\ settled a c /\ claims a /\ obs p.1 = out a /\
    forall j c', j <> i -> p.2 !! j = Some c' -> pending c'.

Definition racing (p : pool (S := S) A) : Prop := Forall pending p.2.

Lemma race_step (p q : pool (S := S) A) :
  pool_step p q -> racing p \/ won p -> racing q \/ won q.
Proof.
  intros [i s cs c s' c' Hi Hc]. destruct c as [r|D m k]; [done|]. cbn in Hc.
  destruct (m s) as [s1 b] eqn:Em. injection Hc as -> <-.
  pose proof (lookup_lt_Some _ _ _ Hi) as Hlt.
  intros [H|(j & c & a & Hj & Hs & Ha & Ho & Hot)].
  - pose proof (proj1 (Forall_lookup _ _) H i _ Hi s) as Hp. rewrite Em in Hp. cbn in Hp.
    destruct Hp as [[Ho Hk]|(Hop & a & Ha & Ho & Hk)]; [left|right].
    + by apply Forall_insert.
    + exists i, (k b), a. cbn. split_and!; try done; [by apply list_lookup_insert_eq|].
      intros j c' Hj Hl. rewrite list_lookup_insert_ne in Hl by done.
      by apply (proj1 (Forall_lookup _ _) H j).
  - cbn in Hj, Ho. right. destruct (decide (j = i)) as [->|Hne].
    + rewrite Hi in Hj. injection Hj as <-. specialize (Hs s). rewrite Em in Hs.
      destruct Hs as [Ho' Hs]. exists i, (k b), a. cbn.
      split_and!; try done; [by apply list_lookup_insert_eq | by rewrite <- Ho|].
      intros j c' Hj Hl. rewrite list_lookup_insert_ne in Hl by done. by apply (Hot j).
    + pose proof (Hot i _ ltac:(done) Hi s) as Hp. rewrite Em in Hp. cbn in Hp.
      destruct Hp as [[Ho' Hk]|(Hop & _)]; [|rewrite Ho in Hop; by destruct (out_closed a)].
      exists j, c, a. cbn. rewrite list_lookup_insert_ne by done.
      split_and!; try done; [by rewrite Ho'|]. intros j' c' Hj' Hl.
      destruct (decide (j' = i)) as [->|].
      * rewrite list_lookup_insert_eq in Hl by done. by injection Hl as <-.
      * rewrite list_lookup_insert_ne in Hl by done. by apply (Hot j').
Qed.

(** Whatever the interleaving, at most one coroutine returns with a claim, and
    [obs] then shows what it claims. *)
Lemma one_winner (p q : pool (S := S) A) i j a b :
  racing p -> rtc pool_step p q ->
  q.2 !! i = Some (CReturn (Ok a)) -> q.2 !! j = Some (CReturn (Ok b)) ->
  claims a -> claims b -> i = j /\ obs q.1 = out a.
Proof.
  intros Hp Hpq Hi Hj Ha Hb.
  assert (H : racing q \/ won q).
  { clear -Hp Hpq out_closed. assert (H : racing p \/ won p) by by left. clear Hp.
    induction Hpq; [done|]. eauto using race_step. }
  destruct H as [H|(w & c & d & Hw & Hs & _ & Ho & Hot)].
  - by destruct (proj1 (Forall_lookup _ _) H i _ Hi a).
  - destruct (decide (i = w)) as [->|]; [|by destruct (Hot i _ ltac:(done) Hi a)].
    destruct (decide (j = w)) as [->|]; [|by destruct (Hot j _ ltac:(done) Hj b)].
    rewrite Hi in Hw. injection Hw as <-. cbn in Hs. injection Hs as ->. done.
Qed.

End Race.

#[export] Hint Resolve bounded_cbind bounded_await : cam.

Notation "'clet!' x ':=' m 'in' k" := (cbind m (fun x => k))
  (at level 10, x pattern, m at level 100, k at level 200) : cam_scope.
Notation "m ;;; k" := (cbind m (fun _ => k))
  (at level 100, k at level 200, right associativity) : cam_scope.
