(* ===== verification/GateRace.v ===== *)
(** * GateRace: resolve_gate under the event loop

    [core/orchestrator/gates.py]: [resolve_gate] suspends at every call of the
    store and of the audit callback, so two resolutions that arrive by different
    channels interleave.  [resolve_gate_coro] is the same code with its
    suspension points; each store call is atomic, as the in-memory store's
    methods are, and a clock reading between two awaits counts as a step of its
    own, which only adds interleavings.  Alone it is [Gates.resolve_gate]; in a
    pool, whatever the interleaving, at most one resolution of a run succeeds. *)

From Stdlib Require Import ZArith Lia Ascii String List QArith.
From stdpp Require Import base list strings relations numbers.
From S2P Require Import Prelude PyTime Effects States RunStore Rbac Base64 Gates Coroutine.

Open Scope string_scope.
Open Scope list_scope.
Open Scope Z_scope.
Open Scope cam_scope.

Section GateRace.
Context {W Key : Type}.
Context (clock : nat -> datetime).
Context (sign : Key -> string -> string) (json_loads : string -> option json).
Context (audit_fn : option (AuditEvent -> M W unit)).

Abbreviation verified_claims := (verified_claims sign json_loads audit_fn).
Abbreviation load_gate := (load_gate (W := W)).
Abbreviation check_authz := (check_authz audit_fn).
Abbreviation deny := (deny audit_fn).

Definition GCoro (A : Type) : Type := Coro (sys RunStore W) A.

(** Steps 2-4. *)
Definition consume_token_coro (actor : string) (c : token_claims) : GCoro string :=
  clet! now := await (get_now clock) in
  clet! exp := CReturn (as_number (cl_exp c)) in
  if Qlt_bool exp (timestamp now) then
    await (deny actor "gate.token_expired" [("token_id", cl_tid c)] "Token has expired." 401)
  else
  clet! tid := CReturn (as_key (cl_tid c)) in
  match tid with
  | None => CReturn (Err (GateResolutionError "Token not found." 404))
  | Some tid =>
      clet! record := await (on_store (get_token tid)) in
      match record with
      | None => CReturn (Err (GateResolutionError "Token not found." 404))
      | Some _ =>
          clet! used_at := await (get_now clock) in
          clet! first_use := await (on_store (mark_token_used tid used_at)) in
          if first_use then CReturn (Ok tid)
          else await (deny actor "gate.token_reused" [("token_id", JStr tid)]
                        "Token has already been used." 409)
      end
  end.

(** Steps 7 and 8, then 9: the audit record, the run's status and the gate step. *)
Definition finish_decision_coro (d : ApprovalDecision) : GCoro ApprovalDecision :=
  clet! now := await (get_now clock) in
  await (on_store (update_run_status now (ad_run_id d) (run_outcome (ad_decision d)) None None)) ;;;
  match ad_decision d with
  | Approve =>
      clet! now := await (get_now clock) in
      await (on_store (advance_gate_step now (ad_run_id d) (ad_step d))) ;;; CReturn (Ok d)
  | Reject => CReturn (Ok d)
  end.

Definition record_decision_coro (gate : GateRequest) (d : ApprovalDecision) : GCoro unit :=
  await (on_store (save_approval_decision d)) ;;;
  (await (on_store (update_gate_request (with_gate_status (gate_outcome (ad_decision d)) gate))) ;;;
   await (maybe_audit audit_fn (ad_actor d)
     (match ad_decision d with Approve => "gate.approved" | Reject => "gate.rejected" end)
     [("run_id", JStr (ad_run_id d)); ("step", JStr (ad_step d)); ("channel", JStr (ad_channel d));
      ("token_id", JStr (ad_token_id d)); ("reason", jopt (ad_reason d))])).

(** [verify_token] through the audit of its refusal, [get_gate_request] with its
    test, and the authorisation check suspend at most once each. *)
Definition resolve_gate_coro (raw : string) (decision : Decision) (actor channel : string)
    (key : Key) (reason : option string) : GCoro ApprovalDecision :=
  clet! c := await (verified_claims raw actor key) in
  clet! tid := consume_token_coro actor c in
  clet! gate := await (load_gate c) in
  await (check_authz actor gate) ;;;
  (clet! decided_at := await (get_now clock) in
   clet! d := CReturn (make_decision c tid decision actor channel reason decided_at) in
   record_decision_coro gate d ;;;
   finish_decision_coro d).

Definition attempt_coro (key : Key) (a : attempt) : GCoro ApprovalDecision :=
  resolve_gate_coro (at_raw a) (at_decision a) (at_actor a) (at_channel a) key (at_reason a).

(** Resolutions in flight, each with the key it was started with. *)
Definition attempts_pool (key : Key) (l : list attempt) (s : sys RunStore W)
    : pool (S := sys RunStore W) ApprovalDecision :=
  (s, map (attempt_coro key) l).

(** ** Alone it is [Gates.resolve_gate] *)

Lemma consume_token_coro_run actor c s :
  run_coro (consume_token_coro actor c) s = consume_token clock audit_fn actor c s.
Proof.
  unfold consume_token_coro, consume_token.
  apply run_cbind_eq; [apply run_await|]. intros now s1.
  apply run_cbind_eq; [done|]. intros exp s2.
  destruct (Qlt_bool _ _); [apply run_await|].
  apply run_cbind_eq; [done|]. intros [tid|] s3; [|done].
  apply run_cbind_eq; [apply run_await|]. intros [tok|] s4; [|done].
  apply run_cbind_eq; [apply run_await|]. intros used s5.
  apply run_cbind_eq; [apply run_await|]. intros [] s6; [done|apply run_await].
Qed.

Lemma apply_decision_coro_run gate d s :
  run_coro (record_decision_coro gate d ;;; finish_decision_coro d) s =
    (apply_decision clock audit_fn gate d ;; ret d) s.
Proof.
  unfold record_decision_coro, finish_decision_coro, apply_decision. rewrite run_cbind. unfold bind.
  cbn [run_coro cbind await]. unfold on_store at 1 2 4 5, zoom. cbn.
  match goal with |- context [maybe_audit ?f ?a ?b ?c ?st] =>
    destruct (maybe_audit f a b c st) as [s1 [[]|e]] end; cbn; [|done].
  destruct (on_store _ _) as [s2 [[]|e]]; cbn; [|done]. by destruct (ad_decision d).
Qed.

Lemma resolve_gate_coro_run raw decision actor channel key reason s :
  run_coro (resolve_gate_coro raw decision actor channel key reason) s =
    resolve_gate clock sign json_loads audit_fn raw decision actor channel key reason s.
Proof.
  unfold resolve_gate_coro, resolve_gate.
  apply run_cbind_eq; [apply run_await|]. intros c s1.
  apply run_cbind_eq; [apply consume_token_coro_run|]. intros tid s2.
  apply run_cbind_eq; [apply run_await|]. intros gate s3.
  apply run_cbind_eq; [apply run_await|]. intros [] s4.
  apply run_cbind_eq; [apply run_await|]. intros now s5.
  apply run_cbind_eq; [done|]. intros d s6. apply apply_decision_coro_run.
Qed.

(** ** Every resolution ends *)

Lemma consume_token_bounded actor c : bounded 5 (consume_token_coro actor c).
Proof.
  unfold consume_token_coro. apply (bounded_cbind 1 4); [done|]. intros now.
  apply (bounded_cbind 0 4); [done|]. intros exp. case_match; [by intros s|].
  apply (bounded_cbind 0 4); [done|]. intros [tid|]; [|done].
  apply (bounded_cbind 1 3); [done|]. intros [tok|]; [|done].
  apply (bounded_cbind 1 2); [done|]. intros used.
  apply (bounded_cbind 1 1); [done|]. by intros [].
Qed.

Lemma finish_decision_bounded d : bounded 4 (finish_decision_coro d).
Proof.
  unfold finish_decision_coro. apply (bounded_cbind 1 3); [done|]. intros now.
  apply (bounded_cbind 1 2); [done|]. intros [].
  destruct (ad_decision d); [|done]. apply (bounded_cbind 1 1); [done|]. intros now'.
  by apply (bounded_cbind 1 0).
Qed.

Lemma record_decision_bounded gate d : bounded 3 (record_decision_coro gate d).
Proof.
  unfold record_decision_coro. apply (bounded_cbind 1 2); [done|]. intros [].
  by apply (bounded_cbind 1 1).
Qed.

Definition RESOLVE_STEPS : nat := 16.

Lemma resolve_gate_bounded raw decision actor channel key reason :
  bounded RESOLVE_STEPS (resolve_gate_coro raw decision actor channel key reason).
Proof.
  unfold resolve_gate_coro. apply (bounded_cbind 1 15); [done|]. intros c.
  apply (bounded_cbind 5 10); [apply consume_token_bounded|]. intros tid.
  apply (bounded_cbind 1 9); [done|]. intros gate.
  apply (bounded_cbind 1 8); [done|]. intros [].
  apply (bounded_cbind 1 7); [done|]. intros now. apply (bounded_cbind 0 7); [done|]. intros d.
  apply (bounded_cbind 3 4); [apply record_decision_bounded|]. intros [].
  apply finish_decision_bounded.
Qed.

(** ** The run is decided once *)

Definition shown (rid : string) (s : sys RunStore W) : option RunStatus :=
  status_of rid (sys_store s).

(** A resolution can still move the run. *)
Definition undecided (st : option RunStatus) : Prop :=
  st <> Some RUNNING /\ st <> Some REJECTED.

Definition decides (rid : string) (d : ApprovalDecision) : Prop := ad_run_id d = rid.

Definition decided_status (d : ApprovalDecision) : option RunStatus :=
  Some (run_outcome (ad_decision d)).

Abbreviation quiet rid := (quiet (shown rid)).
Abbreviation pending rid := (pending (shown rid) undecided (decides rid) decided_status).

Lemma const_quiet {A} rid (m : GM (W := W) A) : store_const m -> quiet rid (await m).
Proof. intros H. apply quiet_await. intros s. unfold shown. by rewrite (H s). Qed.

Lemma store_quiet {A} rid (m : M RunStore A) :
  (forall s, status_of rid (m s).1 = status_of rid s) ->
  quiet rid (await (on_store (W := W) m)).
Proof.
  intros H. apply quiet_await. intros s. unfold shown, on_store, zoom.
  specialize (H (sys_store s)). by destruct (m (sys_store s)).
Qed.

Lemma mark_used_status rid tid at_ s : status_of rid (mark_token_used tid at_ s).1 = status_of rid s.
Proof. unfold mark_token_used. by repeat case_match. Qed.

Lemma consume_token_quiet rid actor c : quiet rid (consume_token_coro actor c).
Proof.
  unfold consume_token_coro.
  apply quiet_cbind; [apply const_quiet; auto with cam|]. intros now.
  apply quiet_cbind; [done|]. intros exp. case_match; [apply const_quiet, deny_const|].
  apply quiet_cbind; [done|]. intros [tid|]; [|done].
  apply quiet_cbind; [by apply store_quiet|]. intros [tok|]; [|done].
  apply quiet_cbind; [apply const_quiet; auto with cam|]. intros used.
  apply quiet_cbind; [apply store_quiet, mark_used_status|].
  intros []; [done|apply const_quiet, deny_const].
Qed.

Lemma record_decision_quiet rid gate d : quiet rid (record_decision_coro gate d).
Proof.
  unfold record_decision_coro. apply quiet_cbind; [by apply store_quiet|]. intros [].
  apply quiet_cbind; [by apply store_quiet|]. intros []. apply const_quiet, maybe_audit_const.
Qed.

(** The two statuses a resolution moves a run to are entered from others. *)
Lemma run_outcome_from st d : is_legal_run_transition st (run_outcome d) = true -> undecided (Some st).
Proof. by destruct st, d. Qed.

Lemma finish_decision_settled rid d :
  settled (shown rid) d
    (match ad_decision d with
     | Approve => clet! now := await (get_now clock) in
         await (on_store (W := W) (advance_gate_step now (ad_run_id d) (ad_step d))) ;;; CReturn (Ok d)
     | Reject => CReturn (Ok d)
     end).
Proof.
  destruct (ad_decision d); [|done]. intros s. split; [done|]. cbn. intros s1. split; [|done].
  unfold shown. cbn. apply put_steps_status.
Qed.

Lemma finish_decision_pending rid d : pending rid (finish_decision_coro d).
Proof.
  unfold finish_decision_coro. apply pending_cbind; [apply const_quiet; auto with cam|].
  intros now s. unfold await. cbn [cbind]. unfold on_store, zoom, shown, update_run_status.
  destruct (dget (ad_run_id d) (rs_runs (sys_store s))) as [run|] eqn:Er; [|by left].
  destruct (is_legal_run_transition _ _) eqn:El; [|by left]. cbn.
  rewrite status_of_set. case_decide as D.
  - right. subst rid. split; [|exists d; split_and!; [done..|apply finish_decision_settled]].
    unfold status_of. rewrite Er. by eapply run_outcome_from.
  - left. split; [done|]. destruct (ad_decision d); [|intros a [= <-] H; by apply D].
    cbn. intros s1. left. split; [done|]. intros s2. left. split; [|intros a [= <-] H; by apply D].
    apply put_steps_status.
Qed.

Lemma resolve_gate_pending rid raw decision actor channel key reason :
  pending rid (resolve_gate_coro raw decision actor channel key reason).
Proof.
  unfold resolve_gate_coro.
  apply pending_cbind; [apply const_quiet, verified_claims_const|]. intros c.
  apply pending_cbind; [apply consume_token_quiet|]. intros tid.
  apply pending_cbind; [apply const_quiet, load_gate_const|]. intros gate.
  apply pending_cbind; [apply const_quiet, check_authz_const|]. intros [].
  apply pending_cbind; [apply const_quiet; auto with cam|]. intros now.
  apply pending_cbind; [done|]. intros d.
  apply pending_cbind; [apply record_decision_quiet|]. intros []. apply finish_decision_pending.
Qed.

(** ** What the others cannot undo

    No step of a resolution removes a decision, frees a used token or changes
    the role a gate requires. *)

Record guarantee (s s' : RunStore) : Prop := mk_guarantee {
  g_decisions : rs_decisions s `prefix_of` rs_decisions s';
  g_used : forall tid, token_used tid s -> token_used tid s';
  g_keyed : keyed gr_id (rs_gates s) -> keyed gr_id (rs_gates s');
  g_role : forall gid g, dget gid (rs_gates s) = Some g ->
    keyed gr_id (rs_gates s) ->
    exists g', dget gid (rs_gates s') = Some g' /\ gr_required_role g' = gr_required_role g }.

#[local] Instance guarantee_preorder : PreOrder guarantee.
Proof.
  split; [split; eauto|]. intros s1 s2 s3 [D U K G] [D' U' K' G']. split; [by etrans|by eauto..|].
  intros gid g Hg Hk. destruct (G gid g Hg Hk) as (g' & Hg' & <-). eauto.
Qed.

Definition sys_guarantee (s s' : sys RunStore W) : Prop := guarantee (sys_store s) (sys_store s').

#[local] Instance sys_guarantee_preorder : PreOrder sys_guarantee.
Proof.
  unfold sys_guarantee. split; [intros s; reflexivity|].
  intros s1 s2 s3 H H'. by transitivity (sys_store s2).
Qed.

(** [role] is what the stored gate [gid] requires. *)
Definition gate_requires (gid role : string) (s : RunStore) : Prop :=
  keyed gr_id (rs_gates s) /\
  exists g, dget gid (rs_gates s) = Some g /\ gr_required_role g = role.

Lemma guarantee_requires gid role s s' :
  guarantee s s' -> gate_requires gid role s -> gate_requires gid role s'.
Proof.
  intros [_ _ K G] (Hk & g & Hg & <-). split; [by apply K|].
  destruct (G gid g Hg Hk) as (g' & Hg' & <-). eauto.
Qed.

Lemma guarantee_decided d s s' :
  guarantee s s' -> d ∈ rs_decisions s -> d ∈ rs_decisions s'.
Proof. intros [[l ->] _ _ _] Hd. apply elem_of_app. by left. Qed.

(** The successful return of one attempt, as the store shows it from then on. *)
Record granted_to (key : Key) (a : attempt) (d : ApprovalDecision) (s : RunStore) : Prop :=
  mk_granted_to {
  gt_token : exists payload c exp i, verify_token sign json_loads (at_raw a) key = Ok (inl payload) /\
    read_claims payload = Ok c /\ cl_tid c = JStr (ad_token_id d) /\
    cl_gid c = JStr (ad_gate_request_id d) /\ cl_rid c = JStr (ad_run_id d) /\
    as_number (cl_exp c) = Ok exp /\ Qlt_bool exp (timestamp (clock i)) = false;
  gt_asked : ad_decision d = at_decision a /\ ad_actor d = at_actor a;
  gt_role : exists role r, gate_requires (ad_gate_request_id d) role s /\
    role_of (at_actor a) = Some r /\ role_of role = Some r /\ GATE_APPROVE ∈ GRANTS r;
  gt_used : token_used (ad_token_id d) s;
  gt_logged : d ∈ rs_decisions s }.

Abbreviation obeys := (obeys sys_guarantee).

(** Stability of an assertion on the store. *)
Definition kept (P : RunStore -> Prop) : Prop := forall s s', guarantee s s' -> P s -> P s'.

(** A step that leaves the store alone keeps every assertion on it. *)
Lemma obeys_const {A} (P : RunStore -> Prop) (F : A -> RunStore -> Prop) (m : GM (W := W) A) :
  store_const m -> (forall a, kept (F a)) ->
  (forall s s' a, P (sys_store s) -> m s = (s', Ok a) -> F a (sys_store s)) ->
  obeys (store_sat P) (fun a => store_sat (F a)) (await m).
Proof.
  intros Hm HF Hr. apply obeys_await; [intros a s s' Hg; by apply HF|].
  intros s Ps. unfold sys_guarantee, store_sat. rewrite (Hm s). split; [reflexivity|].
  intros a Ha. apply (Hr s (m s).1); [done|]. by rewrite <- Ha, <- surjective_pairing.
Qed.

Lemma obeys_store {A} (P : RunStore -> Prop) (F : A -> RunStore -> Prop) (m : M RunStore A) :
  (forall a, kept (F a)) ->
  (forall s, P s -> guarantee s (m s).1 /\ forall a, (m s).2 = Ok a -> F a (m s).1) ->
  obeys (store_sat P) (fun a => store_sat (F a)) (await (on_store (W := W) m)).
Proof.
  intros HF Hm. apply obeys_await; [intros a s s' Hg; by apply HF|].
  intros s Ps. unfold sys_guarantee, store_sat, on_store, zoom.
  specialize (Hm (sys_store s) Ps). by destruct (m (sys_store s)).
Qed.

(** A value computed between two steps. *)
Lemma obeys_pure {A} (P : RunStore -> Prop) (F : A -> RunStore -> Prop) (r : res A) :
  (forall a s, r = Ok a -> P s -> F a s) ->
  obeys (store_sat P) (fun a => store_sat (F a)) (CReturn r).
Proof. intros H a s Hr Ps. by apply H. Qed.

Lemma same_gates_guarantee s s' :
  rs_gates s' = rs_gates s -> rs_decisions s `prefix_of` rs_decisions s' ->
  (forall tid, token_used tid s -> token_used tid s') -> guarantee s s'.
Proof. intros Hg Hd Ht. split; [done..| |]; rewrite Hg; eauto. Qed.

Lemma mark_used_guarantee tid at_ s :
  guarantee s (mark_token_used tid at_ s).1 /\
  ((mark_token_used tid at_ s).2 = Ok true -> token_used tid (mark_token_used tid at_ s).1).
Proof.
  split.
  - apply same_gates_guarantee.
    + unfold mark_token_used. by repeat case_match.
    + unfold mark_token_used. by repeat case_match.
    + intros tid'. by apply (used_stays tid' (CMarkUsed tid at_)).
  - unfold mark_token_used, token_used. destruct (dget tid _) as [t|] eqn:E; [|done].
    destruct (tok_is_used t); [done|]. intros _. exists (with_used_at at_ t). split; [|done].
    apply dget_dset_eq.
Qed.

Lemma update_gate_guarantee st g s :
  gate_requires (gr_id g) (gr_required_role g) s ->
  guarantee s (update_gate_request (with_gate_status st g) s).1.
Proof.
  intros (Hk & g0 & Hg0 & Hr). split; cbn.
  - done.
  - done.
  - intros _. by apply keyed_dset.
  - intros gid g1 Hg1 _. rewrite dget_dset. case_decide; [subst gid|by exists g1].
    eexists. split; [done|]. cbn. rewrite <- Hr. congruence.
Qed.

Lemma kept_and P Q : kept P -> kept Q -> kept (fun s => P s /\ Q s).
Proof. intros HP HQ s s' Hg []. eauto. Qed.

Lemma kept_pure (F : Prop) : kept (fun _ => F).
Proof. by intros s s' _. Qed.

Lemma kept_used tid : kept (token_used tid).
Proof. intros s s' Hg. apply (g_used _ _ Hg). Qed.

Lemma kept_keyed : kept (fun s => keyed gr_id (rs_gates s)).
Proof. intros s s' Hg. apply (g_keyed _ _ Hg). Qed.

Lemma kept_requires gid role : kept (gate_requires gid role).
Proof. intros s s'. apply guarantee_requires. Qed.

Lemma kept_decided d : kept (fun s => d ∈ rs_decisions s).
Proof. intros s s'. apply guarantee_decided. Qed.

#[local] Hint Resolve kept_and kept_pure kept_used kept_keyed kept_requires kept_decided : cam.

(** The claims were read from a payload the key signed. *)
Definition verified (raw : string) (key : Key) (c : token_claims) : Prop :=
  exists payload, verify_token sign json_loads raw key = Ok (inl payload) /\
    read_claims payload = Ok c.

(** [consume_token] found the token [tid] of the claims unexpired. *)
Definition consumed (c : token_claims) (tid : string) : Prop :=
  cl_tid c = JStr tid /\
  exists exp i, as_number (cl_exp c) = Ok exp /\ Qlt_bool exp (timestamp (clock i)) = false.

Lemma consume_token_obeys P actor c :
  kept P ->
  obeys (store_sat P) (fun tid => store_sat (fun s => P s /\ consumed c tid /\ token_used tid s))
    (consume_token_coro actor c).
Proof.
  intros HP. unfold consume_token_coro.
  eapply obeys_cbind.
  { apply (obeys_const P (fun now s => P s /\ exists i, now = clock i)); auto with cam.
    intros now s s' Ps [= _ <-]. eauto. }
  intros now. eapply obeys_cbind.
  { apply (obeys_pure _ (fun exp s => P s /\ as_number (cl_exp c) = Ok exp /\ exists i, now = clock i)).
    intros exp s He [Ps Hi]. eauto. }
  intros exp. destruct (Qlt_bool exp (timestamp now)) eqn:El.
  { apply obeys_const; [apply deny_const|auto with cam|]. intros tid s s' _ Hd. by apply deny_err in Hd. }
  eapply obeys_cbind.
  { apply (obeys_pure _ (fun tid s => P s /\ forall t, tid = Some t -> consumed c t)).
    intros tid s Ht (Ps & He & i & ->). split; [done|]. intros t ->. split; [|eauto].
    destruct (cl_tid c); simplify_eq/=; congruence. }
  intros [tid|]; [|done]. eapply obeys_cbind.
  { apply (obeys_store _ (fun _ s => P s /\ consumed c tid)); [auto with cam|].
    intros s [Ps Hc]. cbn. split; [reflexivity|]. intros tok _. auto. }
  intros [tok|]; [|done]. eapply obeys_cbind.
  { apply (obeys_const _ (fun _ s => P s /\ consumed c tid)); [auto with cam..|].
    intros used s s' H _. exact H. }
  intros used. eapply obeys_cbind.
  { apply (obeys_store _ (fun b s => b = true -> P s /\ consumed c tid /\ token_used tid s)).
    - intros b s s' Hg Hb ->. by apply (kept_and P _ HP (kept_and _ _ (kept_pure _) (kept_used tid)) s s' Hg), Hb.
    - intros s [Ps Hc]. destruct (mark_used_guarantee tid used s) as [Hg Hu].
      split; [done|]. intros b Hb ->. eauto. }
  intros [].
  - apply (obeys_pure _ (fun t s => P s /\ consumed c t /\ token_used t s)).
    intros t s [= <-] Hs. by apply Hs.
  - apply obeys_const; [apply deny_const|auto with cam|]. intros t s s' _ Hd. by apply deny_err in Hd.
Qed.

(** The loaded gate is stored under the claimed id. *)
Definition loaded (c : token_claims) (gate : GateRequest) (s : RunStore) : Prop :=
  cl_gid c = JStr (gr_id gate) /\ gate_requires (gr_id gate) (gr_required_role gate) s.

Lemma kept_loaded c gate : kept (loaded c gate).
Proof. unfold loaded. auto with cam. Qed.

#[local] Hint Resolve kept_loaded : cam.

Lemma load_gate_obeys P c :
  kept P -> (forall s, P s -> keyed gr_id (rs_gates s)) ->
  obeys (store_sat P) (fun gate => store_sat (fun s => P s /\ loaded c gate s)) (await (load_gate c)).
Proof.
  intros HP HK. apply obeys_const; [apply load_gate_const|auto with cam|].
  intros gate s s' Ps Hl. apply load_gate_ok in Hl as (gid & Hc & Hg & _).
  split; [done|]. destruct (HK _ Ps) as [Hwf Hid]. unfold loaded, gate_requires.
  rewrite (Hid _ _ Hg), Hc. repeat split; eauto.
Qed.

Lemma check_authz_obeys P actor gate :
  kept P ->
  obeys (store_sat P) (fun _ => store_sat (fun s => P s /\
      exists r, role_of actor = Some r /\ role_of (gr_required_role gate) = Some r /\
        GATE_APPROVE ∈ GRANTS r)) (await (check_authz actor gate)).
Proof.
  intros HP. apply obeys_const; [apply check_authz_const|auto with cam|].
  intros u s s' Ps Hz. split; [done|]. by apply check_authz_ok in Hz.
Qed.

Lemma record_decision_obeys P gate d :
  kept P -> (forall s, P s -> gate_requires (gr_id gate) (gr_required_role gate) s) ->
  obeys (store_sat P) (fun _ => store_sat (fun s => P s /\ d ∈ rs_decisions s))
    (record_decision_coro gate d).
Proof.
  intros HP HG. unfold record_decision_coro. eapply obeys_cbind.
  { apply (obeys_store _ (fun _ s => P s /\ d ∈ rs_decisions s)); [auto with cam|].
    intros s Ps. cbn. assert (Hg : guarantee s (set_decisions (rs_decisions s ++ [d]) s)).
    { apply same_gates_guarantee; [done|by apply prefix_app_r|done]. }
    split; [done|]. intros [] _. split; [by eapply HP|]. cbn. apply elem_of_app. right. by left. }
  intros []. eapply obeys_cbind.
  { apply (obeys_store _ (fun _ s => P s /\ d ∈ rs_decisions s)); [auto with cam|].
    intros s [Ps Hd]. pose proof (update_gate_guarantee (gate_outcome (ad_decision d)) gate s (HG s Ps)) as Hg.
    split; [done|]. intros [] _. by apply (kept_and P _ HP (kept_decided d) _ _ Hg). }
  intros []. apply obeys_const; [apply maybe_audit_const|auto with cam|]. by intros u s s' Hs _.
Qed.

Lemma update_status_guarantee now rid st s :
  guarantee s (update_run_status now rid st None None s).1.
Proof.
  unfold update_run_status. repeat case_match; try reflexivity. by apply same_gates_guarantee.
Qed.

Lemma advance_guarantee now rid step s : guarantee s (advance_gate_step now rid step s).1.
Proof.
  destruct (advance_gate_fields now rid step s) as (_ & Hg & Ht & Hd).
  cbn in *. apply same_gates_guarantee; [done|by rewrite Hd|].
  intros tid. unfold token_used. by rewrite Ht.
Qed.

Lemma finish_decision_obeys P d :
  kept P -> obeys (store_sat P) (fun d' => store_sat (fun s => P s /\ d' = d)) (finish_decision_coro d).
Proof.
  intros HP. unfold finish_decision_coro. eapply obeys_cbind.
  { apply (obeys_const _ (fun _ => P)); [auto with cam|done|]. by intros now s s' Ps _. }
  intros now. eapply obeys_cbind.
  { apply (obeys_store _ (fun _ => P)); [done|]. intros s Ps.
    pose proof (update_status_guarantee now (ad_run_id d) (run_outcome (ad_decision d)) s) as Hg.
    split; [done|]. intros _ _. by eapply HP. }
  assert (Hret : obeys (store_sat P) (fun d' => store_sat (fun s => P s /\ d' = d)) (CReturn (Ok d))).
  { intros d' s [= <-] Ps. by split. }
  intros []. destruct (ad_decision d); [|exact Hret]. eapply obeys_cbind.
  { apply (obeys_const _ (fun _ => P)); [auto with cam|done|]. by intros now' s s' Ps _. }
  intros now'. eapply obeys_cbind.
  { apply (obeys_store _ (fun _ => P)); [done|]. intros s Ps.
    pose proof (advance_guarantee now' (ad_run_id d) (ad_step d) s) as Hg.
    split; [done|]. intros _ _. by eapply HP. }
  intros []. exact Hret.
Qed.

Lemma attempt_obeys key a :
  obeys (store_sat (fun s => keyed gr_id (rs_gates s))) (fun d => store_sat (granted_to key a d))
    (attempt_coro key a).
Proof.
  unfold attempt_coro, resolve_gate_coro. eapply obeys_cbind.
  { apply (obeys_const _ (fun c s => keyed gr_id (rs_gates s) /\ verified (at_raw a) key c)).
    - apply verified_claims_const.
    - auto with cam.
    - intros c s s' Hk Hv. split; [done|]. by apply verified_claims_ok in Hv as (_ & _ & ?). }
  intros c. eapply obeys_cbind; [apply consume_token_obeys; auto with cam|]. intros tid.
  eapply obeys_cbind; [apply load_gate_obeys; [auto with cam|]; by intros s [[Hk _] _]|]. intros gate.
  eapply obeys_cbind; [apply check_authz_obeys; auto with cam|]. intros [].
  eapply obeys_cbind.
  { match goal with |- context [store_sat ?P] =>
      apply (obeys_const P (fun _ => P)); [auto with cam..|]; by intros now s s' Ps _ end. }
  intros now. eapply obeys_cbind.
  { match goal with |- context [store_sat ?P] =>
      apply (obeys_pure P (fun d s => P s /\
        make_decision c tid (at_decision a) (at_actor a) (at_channel a) (at_reason a) now = Ok d)) end.
    intros d s Hd Ps. exact (conj Ps Hd). }
  intros d. eapply obeys_cbind.
  { apply record_decision_obeys; [auto 10 with cam|].
    intros s Hs. unfold store_sat in Hs. destruct Hs as [[[_ [_ H]] _] _]. exact H. }
  intros []. eapply obeys_post; [|apply finish_decision_obeys; auto 10 with cam].
  intros d' s [H ->]. destruct H as [[[[[[_ (payload & Hv & Hp)] [[Ht (exp & i & He & Hl)] Hu]]
    [Hg Hr]] (r & Hra & Hrg & Hga)] Hd] Hin].
  apply make_decision_ok in Hd as (Hgid & Hrid & _ & Hdec & Hact & _ & Htid & _).
  split.
  - exists payload, c, exp, i. rewrite Htid. by split_and!.
  - by split.
  - exists (gr_required_role gate), r. rewrite Hgid in Hg. injection Hg as ->. by split_and!.
  - by rewrite Htid.
  - done.
Qed.

(** ** The pool *)

Lemma attempts_racing rid key l s :
  racing (shown rid) undecided (decides rid) decided_status (attempts_pool key l s).
Proof. apply Forall_map, Forall_true. intros a. apply resolve_gate_pending. Qed.

(** Every attempt is on the way to what it grants. *)
Lemma attempts_on_course key l s :
  keyed gr_id (rs_gates (sys_store s)) ->
  Forall (on_course sys_guarantee
    (fun d s => exists a, a ∈ l /\ granted_to key a d (sys_store s)) s) (map (attempt_coro key) l).
Proof.
  intros Hk. apply Forall_map, Forall_forall. intros a Ha.
  exists (store_sat (fun s => keyed gr_id (rs_gates s))). split_and!; [|done|].
  - intros s1 s2 Hg. by apply kept_keyed.
  - eapply obeys_post; [|apply attempt_obeys]. intros d s1 Hd. exists a.
    split; [by apply list_elem_of_In|done].
Qed.

(** C4: However many resolutions of a run are in flight and however the event
    loop interleaves them at their awaits, at most one returns successfully, the
    run then has the status that one decided, its decision is in the log, and it
    was made by an attempt with a token signed under the key, unexpired and now
    used, whose actor holds the role the gate requires. *)
Theorem gate_race_one_winner key l s q i d :
  keyed gr_id (rs_gates (sys_store s)) ->
  rtc pool_step (attempts_pool key l s) q ->
  q.2 !! i = Some (CReturn (Ok d)) ->
  (forall j d', q.2 !! j = Some (CReturn (Ok d')) -> ad_run_id d' = ad_run_id d -> j = i) /\
  status_of (ad_run_id d) (sys_store q.1) = Some (run_outcome (ad_decision d)) /\
  exists a, a ∈ l /\ granted_to key a d (sys_store q.1).
Proof.
  intros Hk Hq Hi. pose proof (attempts_racing (ad_run_id d) key l s) as Hr.
  assert (Hout : forall d', decides (ad_run_id d) d' -> ~ undecided (decided_status d')).
  { intros d' _ [H1 H2]. unfold decided_status in *.
    destruct (ad_decision d'); cbn in *; congruence. }
  split_and!.
  - intros j d' Hj Hd'. by apply (one_winner _ _ _ _ Hout _ q j i d' d Hr).
  - by apply (one_winner _ _ _ _ Hout _ q i i d d Hr).
  - destruct (pool_obeys sys_guarantee _ (attempts_pool key l s) q (attempts_on_course key l s Hk) Hq) as [_ HF].
    by apply (on_course_return _ _ _ _ (proj1 (Forall_lookup _ _) HF i _ Hi)).
Qed.

(** Any interleaving of [n] resolutions ends within [16 n] steps; until it has
    ended some resolution can take a step; and a resolution that gets all its
    turns in a row behaves as [Gates.resolve_gate]. *)
Lemma gate_race_terminates key l s :
  (forall n q, nsteps pool_step n (attempts_pool key l s) q -> (n <= RESOLVE_STEPS * length l)%nat) /\
  (forall q, rtc pool_step (attempts_pool key l s) q ->
     Forall (fun c => finished c = true) q.2 \/ exists q', pool_step q q') /\
  (forall i a, l !! i = Some a ->
     run_schedule (replicate RESOLVE_STEPS i) (attempts_pool key l s) =
       let '(s', r) := run_attempt clock sign json_loads audit_fn key a s in
       (s', <[i := CReturn r]> (map (attempt_coro key) l))).
Proof.
  split_and!.
  - intros n q Hn. apply (pool_terminates _ (replicate (length l) RESOLVE_STEPS)) in Hn.
    + rewrite sum_list_replicate in Hn. lia.
    + apply Forall2_replicate_l; [by cbn; rewrite length_map|].
      apply Forall_map, Forall_true. intros a. apply resolve_gate_bounded.
  - intros q _. apply pool_progress.
  - intros i a Hi. unfold attempts_pool.
    erewrite (run_alone RESOLVE_STEPS i (attempt_coro key a)).
    + unfold attempt_coro at 1 2. rewrite resolve_gate_coro_run. unfold run_attempt.
      by destruct (resolve_gate _ _ _ _ _ _ _ _ _ _ _).
    + by rewrite list_lookup_fmap, Hi.
    + apply resolve_gate_bounded.
Qed.

End GateRace.

(** ** Two channels, one gate

    The gate [g1] of run [r1] was announced with one token per channel.  The
    attorney approves on the web page while a second click rejects by e-mail. *)

Definition race_payload (tid : string) : json :=
  token_payload tid "g1" "r1" "GATE:review" (timestamp ex_exp).
Definition race_loads (s : string) : option json :=
  Some (race_payload (if String.eqb s "a" then "t0" else "t1")).
Definition race_raw (data : string) : string := b64 data +:+ ".sig".
Definition race_store : RunStore :=
  set_tokens [("t0", ex_token);
              ("t1", mk_ApprovalToken "t1" "g1" "r1" "GATE:review" KEY_ID "hash" "email" ex_exp None)]
    ex_gate_store.
Definition race_sys : sys RunStore unit := mk_sys race_store tt 0 0.

Definition race_attempts : list attempt :=
  [mk_attempt (race_raw "a") Approve "attorney" "web" None;
   mk_attempt (race_raw "b") Reject "attorney" "email" None].

Definition race_run (schedule : list nat)
    : pool (S := sys RunStore unit) ApprovalDecision :=
  run_schedule schedule (attempts_pool ex_clock ex_sign race_loads None tt race_attempts race_sys).

Definition race_result (c : Coro (sys RunStore unit) ApprovalDecision)
    : option (res Decision) :=
  match c with
  | CReturn (Ok d) => Some (Ok (ad_decision d))
  | CReturn (Err e) => Some (Err e)
  | CAwait _ _ => None
  end.

(** Both read the pending gate; the rejection then runs to its last step but one,
    the approval to its end, and the rejection finds the run resumed. *)
Definition race_schedule : list nat :=
  replicate 9 1%nat ++ replicate 16 0%nat ++ replicate 7 1%nat.

(** The approval succeeds and resumes the run with its gate step done, although
    the log holds the rejection first and the gate ends rejected: the status test
    of step 5 and the update of step 8 are not one step. *)
Lemma interleaved_decisions_disagree :
  let q := race_run race_schedule in
  let s := sys_store q.1 in
  map race_result q.2 = [Some (Ok Approve);
                         Some (Err (IllegalTransitionError "Run r1" "running" "rejected"))] /\
  status_of "r1" s = Some RUNNING /\
  map st_status (steps_of "r1" s) = [SSUCCEEDED] /\
  option_map gr_status (dget "g1" (rs_gates s)) = Some GRejected /\
  map ad_decision (rs_decisions s) = [Reject; Approve].
Proof. vm_compute. by repeat split. Qed.

(** Alone, the same two attempts leave the second one refused at the gate. *)
Lemma sequential_decisions_agree :
  let q := race_run (replicate 16 0%nat ++ replicate 16 1%nat) in
  let s := sys_store q.1 in
  map race_result q.2 = [Some (Ok Approve);
                         Some (Err (GateResolutionError "Gate is already 'approved'." 409))] /\
  option_map gr_status (dget "g1" (rs_gates s)) = Some GApproved /\
  map ad_decision (rs_decisions s) = [Approve].
Proof. vm_compute. by repeat split. Qed.

Definition race_decision : ApprovalDecision :=
  mk_ApprovalDecision "g1" "r1" "GATE:review" Approve "attorney" "web" "t0" None ex_now.

Lemma gate_race_one_winner_witness :
  (race_run race_schedule).2 !! 0%nat = Some (CReturn (Ok race_decision)) /\
  status_of "r1" (sys_store (race_run race_schedule).1) = Some RUNNING.
Proof.
  split; [vm_compute; reflexivity|].
  apply (gate_race_one_winner ex_clock ex_sign race_loads None tt race_attempts race_sys
           (race_run race_schedule) 0 race_decision).
  - split; [apply NoDup_singleton|]. intros k x. cbn.
    destruct (decide (k = "g1")) as [->|]; [by intros [= <-] | done].
  - apply schedule_reaches.
  - vm_compute. reflexivity.
Defined.
