(* ===== verification/LockRace.v ===== *)
(** * LockRace: WorkflowEngine.execute under the event loop

    [core/orchestrator/engine.py] and [locking.py]: [execute] takes the run's lock,
    advances the run and releases the lock; a worker that finds the lock held
    returns the run as it is.  The state is the Redis server and everything else;
    [_execute] is any coroutine over everything else.  Proved: with a lock backed
    by a Redis server that answers, any interleaving of any number of workers has
    the effect of some of them executing one after the other, each returning what
    it returns in that sequence.  Without Redis, which is the default, two
    workers' steps interleave. *)

From Stdlib Require Import ZArith Lia Ascii String List.
From stdpp Require Import base list strings relations.
From S2P Require Import Prelude Effects Idem Coroutine.

Open Scope string_scope.
Open Scope list_scope.
Open Scope Z_scope.
Open Scope cam_scope.

(** A Redis server that answers. *)
Class RedisReliable (R : Type) `{RedisOps R} : Prop := {
  set_nx_total k v ttl r : exists r' b, redis_set_nx k v ttl r = (r', Ok b);
  delete_total k r : exists r', redis_delete k r = (r', Ok tt) }.

#[export] Instance redis_mem_reliable : RedisReliable redis_mem.
Proof.
  split.
  - intros k v ttl r. cbn. destruct (dget k r); by eauto.
  - intros k r. cbn. by eauto.
Qed.

Section LockRace.
Context {R T A : Type} `{RedisOps R}.
Context (lock : RunLock) (rid : string).
(** [store.get_run] and the [KeyError] of a missing run. *)
Context (load_run : M T A).

Definition LM (B : Type) : Type := M (R * T) B.
Definition LCoro (B : Type) : Type := Coro (R * T) B.

Definition on_lock {B} (m : M R B) : LM B := zoom fst (fun r s => (r, s.2)) m.
Definition on_rest {B} (m : M T B) : LM B := zoom snd (fun t s => (s.1, t)) m.

(** [_execute], which does not touch the lock. *)
Fixpoint lift_body (c : Coro T A) : LCoro A :=
  match c with
  | CReturn r => CReturn r
  | CAwait m k => CAwait (on_rest m) (fun b => lift_body (k b))
  end.

Definition release_coro : LCoro unit := await (on_lock (release lock rid)).
Definition skip_coro : LCoro A := await (on_rest load_run).

Definition execute_coro (body : Coro T A) : LCoro A :=
  clet! locked := await (on_lock (acquire lock rid)) in
  if locked then cfinally (lift_body body) release_coro else skip_coro.

Lemma lift_body_run c s : run_coro (lift_body c) s = on_rest (run_coro c) s.
Proof.
  revert s. induction c as [r|D m k IH]; intros [r0 t]; [done|]. cbn. unfold on_rest, zoom. cbn.
  destruct (m t) as [t' b]. rewrite IH. done.
Qed.

(** Alone it takes the lock, executes and releases, as [Engine.execute_with] does. *)
Lemma execute_coro_run body s :
  run_coro (execute_coro body) s =
    (let! locked := on_lock (acquire lock rid) in
     if locked then try_finally (on_rest (run_coro body)) (on_lock (release lock rid))
     else on_rest load_run) s.
Proof.
  unfold execute_coro. apply run_cbind_eq; [apply run_await|]. intros [] s1; [|apply run_await].
  rewrite run_cfinally. unfold try_finally. rewrite lift_body_run.
  destruct (on_rest (run_coro body) s1) as [s2 x]. unfold release_coro. by rewrite run_await.
Qed.

(** ** The workers *)

Definition held (r : R) : Prop := redis_view r (lock_key rid) <> None.

Section Serial.
Context {RL : RedisLaws R} {RR : RedisReliable R}.
Context (backed : lock_has_redis lock = true).
Context (reads_only : forall t, (load_run t).1 = t).
Context (bodies : list (Coro T A)) (t0 : T).

Lemma acquire_free r :
  redis_view r (lock_key rid) = None -> exists r', acquire lock rid r = (r', Ok true) /\ held r'.
Proof.
  intros Hv. unfold acquire, try_except. rewrite backed.
  destruct (set_nx_total (lock_key rid) "1" (lock_ttl lock) r) as (r' & b & E).
  pose proof (set_nx_val (lock_key rid) "1" (lock_ttl lock) r b) as Hb.
  pose proof (set_nx_view _ _ _ _ _ _ E (lock_key rid)) as Hw.
  rewrite E in Hb |- *. cbn in Hb, Hw. specialize (Hb eq_refl). rewrite Hv in Hb. subst b.
  exists r'. split; [done|]. unfold held. rewrite Hw, bool_decide_true by done. done.
Qed.

Lemma acquire_held r : held r -> exists r', acquire lock rid r = (r', Ok false) /\ held r'.
Proof.
  unfold held. intros Hv. unfold acquire, try_except. rewrite backed.
  destruct (set_nx_total (lock_key rid) "1" (lock_ttl lock) r) as (r' & b & E).
  pose proof (set_nx_val (lock_key rid) "1" (lock_ttl lock) r b) as Hb.
  pose proof (set_nx_view _ _ _ _ _ _ E (lock_key rid)) as Hw.
  rewrite E in Hb |- *. cbn in Hb, Hw. specialize (Hb eq_refl).
  destruct (redis_view r (lock_key rid)) eqn:Er; [|done]. subst b. exists r'. split; [done|].
  rewrite Hw, andb_false_r. done.
Qed.

Lemma release_frees r : exists r', release lock rid r = (r', Ok tt) /\ redis_view r' (lock_key rid) = None.
Proof.
  unfold release, try_except. rewrite backed. destruct (delete_total (lock_key rid) r) as (r' & E).
  rewrite E. exists r'. split; [done|]. rewrite (delete_view _ _ _ E). by rewrite decide_True.
Qed.

(** The workers of [order] executing one after the other. *)
Definition serial (order : list nat) : T :=
  fold_left (fun t i => match bodies !! i with Some b => (run_coro b t).1 | None => t end) order t0.

(** Worker [i] returned what its turn in the sequence gives. *)
Definition done_in (order : list nat) (i : nat) (c : LCoro A) : Prop :=
  exists pre post b, order = pre ++ i :: post /\ bodies !! i = Some b /\
    c = CReturn (run_coro b (serial pre)).2.

(** Where a worker is, with [order] the ones that have finished and [h] the one
    that holds the lock: waiting for it, turned away, finished, or inside with
    the rest of its body to run. *)
Inductive worker_at (order : list nat) (h : option nat) (t : T) (i : nat) : LCoro A -> Prop :=
| at_start b : i ∉ order -> h <> Some i -> bodies !! i = Some b ->
    worker_at order h t i (execute_coro b)
| at_skip : i ∉ order -> h <> Some i -> worker_at order h t i skip_coro
| at_skipped t' : i ∉ order -> h <> Some i -> worker_at order h t i (CReturn (load_run t').2)
| at_done c : i ∈ order -> h <> Some i -> done_in order i c -> worker_at order h t i c
| at_inside b c : i ∉ order -> h = Some i -> bodies !! i = Some b ->
    run_coro c t = run_coro b (serial order) ->
    worker_at order h t i (cfinally (lift_body c) release_coro).

Record serialised (p : pool (S := R * T) A) (order : list nat) (h : option nat) : Prop := mk_serialised {
  se_nodup : NoDup order;
  se_lock : match h with
            | None => redis_view p.1.1 (lock_key rid) = None /\ p.1.2 = serial order
            | Some w => held p.1.1 /\ (w < length p.2)%nat
            end;
  se_workers : forall i c, p.2 !! i = Some c -> worker_at order h p.1.2 i c }.

Lemma serial_snoc order i b :
  bodies !! i = Some b -> serial (order ++ [i]) = (run_coro b (serial order)).1.
Proof. intros Hb. unfold serial. rewrite fold_left_app. cbn. by rewrite Hb. Qed.

(** Other workers are where they were when the holder moves the state. *)
Lemma worker_keeps order h t t' i c :
  worker_at order h t i c -> h <> Some i -> worker_at order h t' i c.
Proof. intros Hw Hh. destruct Hw; [by econstructor..|done]. Qed.

(** The lock is taken or passed by. *)
Lemma worker_takes order w t t' i c :
  worker_at order None t i c -> i <> w -> worker_at order (Some w) t' i c.
Proof.
  intros Hw Hi. destruct Hw; [eapply at_start|apply at_skip|apply at_skipped|apply at_done|]; try done; congruence.
Qed.

Lemma done_snoc order i j c : done_in order i c -> done_in (order ++ [j]) i c.
Proof.
  intros (pre & post & b & -> & Hb & ->). exists pre, (post ++ [j]), b.
  split; [by rewrite <- app_assoc|done].
Qed.

(** The holder has finished and released. *)
Lemma worker_releases order w t t' i c :
  worker_at order (Some w) t i c -> i <> w -> worker_at (order ++ [w]) None t' i c.
Proof.
  intros Hw Hi. assert (Hn : i ∉ order -> i ∉ order ++ [w]).
  { intros Ho [|Hx%list_elem_of_singleton]%elem_of_app; done. }
  destruct Hw; [eapply at_start|apply at_skip|apply at_skipped|apply at_done|]; auto; try done; try congruence.
  - apply elem_of_app. by left.
  - by apply done_snoc.
Qed.

Lemma insert_workers {B} (P : nat -> B -> Prop) (l : list B) i x :
  P i x -> (forall j y, j <> i -> l !! j = Some y -> P j y) ->
  forall j y, <[i := x]> l !! j = Some y -> P j y.
Proof.
  intros Hx Hl j y Hj. destruct (decide (j = i)) as [->|Hne].
  - apply list_lookup_insert_Some in Hj as [(_ & -> & _)|[? _]]; [done|done].
  - rewrite list_lookup_insert_ne in Hj by done. by apply Hl.
Qed.

Lemma on_lock_step {B} (m : M R B) r t r' (x : res B) :
  m r = (r', x) -> on_lock m (r, t) = ((r', t), x).
Proof. unfold on_lock, zoom. cbn. by intros ->. Qed.

(** A worker that has not started takes the lock if it is free, else turns away. *)
Lemma start_step order h r t cs i b :
  serialised ((r, t), cs) order h -> i ∉ order -> h <> Some i -> bodies !! i = Some b ->
  cs !! i = Some (execute_coro b) ->
  forall s' c', step_coro (execute_coro b) (r, t) = Some (s', c') ->
  exists h', serialised (s', <[i := c']> cs) order h'.
Proof.
  intros [Hn Hl Hw] Ho Hh Hb Hi s' c' Hc. pose proof (lookup_lt_Some _ _ _ Hi) as Hlt.
  unfold execute_coro, await in Hc. cbn in Hc, Hl, Hw. destruct h as [w|].
  - destruct Hl as [Hl Hwl]. destruct (acquire_held r Hl) as (r' & E & Hr').
    rewrite (on_lock_step _ _ t _ _ E) in Hc. injection Hc as <- <-. exists (Some w).
    split; [done|cbn; by rewrite length_insert|]. cbn. apply insert_workers; [by apply at_skip|].
    intros j c Hj Hcj. by apply Hw.
  - destruct Hl as [Hl Ht]. destruct (acquire_free r Hl) as (r' & E & Hr').
    rewrite (on_lock_step _ _ t _ _ E) in Hc. injection Hc as <- <-. exists (Some i).
    split; [done|cbn; by rewrite length_insert|]. cbn. apply insert_workers.
    + eapply at_inside; [done|done|exact Hb|by rewrite Ht].
    + intros j c Hj Hcj. by eapply worker_takes; [apply Hw|].
Qed.

(** The holder takes a step of its body, or releases the lock and has finished. *)
Lemma inside_step order r t cs i b c :
  serialised ((r, t), cs) order (Some i) -> i ∉ order -> bodies !! i = Some b ->
  run_coro c t = run_coro b (serial order) ->
  cs !! i = Some (cfinally (lift_body c) release_coro) ->
  forall s' c', step_coro (cfinally (lift_body c) release_coro) (r, t) = Some (s', c') ->
  exists order' h', serialised (s', <[i := c']> cs) order' h'.
Proof.
  intros [Hn Hl Hw] Ho Hb Hrun Hi s' c' Hc. pose proof (lookup_lt_Some _ _ _ Hi) as Hlt. cbn in Hw, Hl.
  destruct c as [x|D m k].
  - cbn in Hc. destruct (release_frees r) as (r' & E & Hr'). rewrite (on_lock_step _ _ t _ _ E) in Hc.
    injection Hc as <- <-. exists (order ++ [i]), None. cbn in Hrun. unfold lift_res in Hrun.
    split; cbn.
    + apply NoDup_app. split; [done|]. split; [|apply NoDup_singleton].
      intros j Hj Hji%list_elem_of_singleton. by subst j.
    + split; [done|]. by rewrite (serial_snoc order i b Hb), <- Hrun.
    + apply insert_workers.
      * apply at_done; [|done|].
        -- apply elem_of_app. right. by left.
        -- exists order, [], b. by rewrite <- Hrun.
      * intros j c Hj Hcj. by eapply worker_releases; [apply Hw|].
  - cbn in Hc. unfold on_rest, zoom in Hc. cbn in Hc. cbn in Hrun. destruct (m t) as [t' x].
    injection Hc as <- <-. exists order, (Some i). split; cbn; [done|by rewrite length_insert|].
    apply insert_workers; [by eapply at_inside|].
    intros j c Hj Hcj. eapply worker_keeps; [by apply Hw|congruence].
Qed.

Lemma serialised_step p q order h :
  pool_step p q -> serialised p order h -> exists order' h', serialised q order' h'.
Proof.
  intros [i [r t] cs c s' c' Hi Hc] Hs. pose proof (se_workers _ _ _ Hs i c Hi) as Hw. cbn in Hw.
  destruct Hw as [b Ho Hh Hb|Ho Hh|t' Ho Hh|c Ho Hh Hd|b c Ho Hh Hb Hrun].
  - exists order. by eapply start_step.
  - exists order, h. cbn in Hc. unfold on_rest, zoom in Hc. cbn in Hc.
    pose proof (reads_only t) as Hr. destruct (load_run t) as [t1 x] eqn:E. cbn in Hr. subst t1.
    injection Hc as <- <-. destruct Hs as [Hn Hl Hws]. split; [done|by destruct h; cbn; rewrite ?length_insert|].
    cbn in *. apply insert_workers; [|by intros j c _; apply Hws].
    replace x with ((load_run t).2) by (by rewrite E). by apply at_skipped.
  - done.
  - by destruct Hd as (pre & post & b & _ & _ & ->).
  - subst h. by eapply inside_step.
Qed.

Lemma serialised_start r0 :
  redis_view r0 (lock_key rid) = None ->
  serialised ((r0, t0), map execute_coro bodies) [] None.
Proof.
  intros Hf. split; [apply NoDup_nil_2|done|]. cbn. intros i c Hc.
  rewrite list_lookup_fmap in Hc. destruct (bodies !! i) as [b|] eqn:Hb; [|done]. cbn in Hc.
  injection Hc as <-. apply at_start; [by intros ?%elem_of_nil|done|done].
Qed.

(** C5: Workers that execute one run at once do not interleave.  With the lock
    backed by a Redis server that answers and does not let it expire, whenever
    all workers have returned, the state is what some of them leave when they
    execute one after the other, each alone; each of those returned what it
    returns in that sequence, and every other one the run as it read it.  The
    lock is free again. *)
Theorem executions_serialised r0 q :
  redis_view r0 (lock_key rid) = None ->
  rtc pool_step ((r0, t0), map execute_coro bodies) q ->
  Forall (fun c => finished c = true) q.2 ->
  exists order, NoDup order /\ q.1.2 = serial order /\ redis_view q.1.1 (lock_key rid) = None /\
    forall i c, q.2 !! i = Some c ->
      (i ∈ order /\ done_in order i c) \/ ((i ∉ order) /\ (exists t, c = CReturn (load_run t).2)).
Proof.
  intros Hf Hq Hfin.
  assert (Hs : exists order h, serialised q order h).
  { apply serialised_start in Hf. revert Hf. generalize ([] : list nat) (None : option nat). clear Hfin.
    induction Hq as [p|p p' q Hst _ IH]; intros order h Hs; [by exists order, h|].
    destruct (serialised_step _ _ _ _ Hst Hs) as (order' & h' & Hs'). by eapply IH. }
  destruct Hs as (order & h & [Hn Hl Hw]). exists order.
  assert (Hnone : h = None).
  { destruct h as [w|]; [|done]. destruct Hl as [_ Hlt]. apply lookup_lt_is_Some in Hlt as [c Hc].
    pose proof (proj1 (Forall_lookup _ _) Hfin w c Hc) as Hfc.
    destruct (Hw w c Hc) as [b Ho Hh Hb|Ho Hh|t' Ho Hh|c Ho Hh Hd|b c Ho Hh Hb Hrun]; try done.
    by destruct c. }
  subst h. destruct Hl as [Hl Ht]. split_and!; [done..|]. intros i c Hc.
  pose proof (proj1 (Forall_lookup _ _) Hfin i c Hc) as Hfc.
  destruct (Hw i c Hc) as [b Ho Hh Hb|Ho Hh|t' Ho Hh|c Ho Hh Hd|b c Ho Hh Hb Hrun]; try done.
  - right. split; [done|]. by exists t'.
  - by left.
Qed.

End Serial.
End LockRace.

(** ** Two workers

    A body that reads a step's attempt counter and, after the step's own wait,
    stores it incremented. *)

Definition ex_attempt : Coro Z Z :=
  clet! n := await (gets (fun t : Z => t)) in
  clet! _ := await (ret tt) in
  clet! _ := await (fun _ => (n + 1, Ok tt)) in
  CReturn (Ok n).

Definition ex_lock_pool (lock : RunLock) : pool (S := redis_mem * Z) Z :=
  (([], 0), map (execute_coro lock "r1" (gets (fun t : Z => t))) [ex_attempt; ex_attempt; ex_attempt]).

(** Worker 1 arrives while worker 0 is inside and worker 2 after it has left. *)
Definition ex_lock_schedule : list nat := ([0; 0; 1; 0; 1; 0; 0] ++ [2; 2; 2; 2; 2])%nat.

Definition lock_result (c : Coro (redis_mem * Z) Z) : option (res Z) :=
  match c with CReturn r => Some r | CAwait _ _ => None end.

(** With the default lock of the engine, [RunLock()], both attempts read the
    counter before either stores it. *)
Lemma unbacked_lock_interleaves :
  let run lock schedule :=
    let q := run_schedule schedule (ex_lock_pool lock) in (q.1.2, map lock_result q.2) in
  run (mk_RunLock false DEFAULT_LOCK_TTL) ex_lock_schedule =
    (2, [Some (Ok 0); None; Some (Ok 1)]) /\
  run (mk_RunLock false DEFAULT_LOCK_TTL) (ex_lock_schedule ++ [1; 1; 1])%nat =
    (1, [Some (Ok 0); Some (Ok 0); Some (Ok 1)]) /\
  run (mk_RunLock true DEFAULT_LOCK_TTL) (ex_lock_schedule ++ [1; 1; 1])%nat =
    (2, [Some (Ok 0); Some (Ok 0); Some (Ok 1)]).
Proof. vm_compute. by repeat split. Qed.

Lemma executions_serialised_witness :
  let q := run_schedule ex_lock_schedule (ex_lock_pool (mk_RunLock true DEFAULT_LOCK_TTL)) in
  map lock_result q.2 = [Some (Ok 0); Some (Ok 0); Some (Ok 1)] /\
  exists order, NoDup order /\ q.1.2 = serial [ex_attempt; ex_attempt; ex_attempt] 0 order.
Proof.
  intros q. split; [vm_compute; reflexivity|].
  destruct (executions_serialised (R := redis_mem) (mk_RunLock true DEFAULT_LOCK_TTL) "r1"
    (gets (fun t : Z => t)) (RL := redis_mem_laws) (RR := redis_mem_reliable) eq_refl
    (fun t => eq_refl) [ex_attempt; ex_attempt; ex_attempt] 0 [] q) as (order & Hn & Hs & _).
  - reflexivity.
  - apply schedule_reaches.
  - vm_compute. repeat constructor.
  - by exists order.
Defined.
