(* ===== verification/Webhook.v ===== *)
(** * Webhook: connectors/webhook/ and the route of sidecar/webhooks.py

    Inbound vendor events: [process_webhook] verifies the signature over the raw
    body, parses it, normalises it, drops duplicates through Redis and hands the
    event to the trigger sink; [ingest_webhook] is the HTTP route around it.
    Bodies and header values are byte strings.  HMAC-SHA256 ([hmac_hex] of key
    and message), the JSON decoder, [float()] on a header, the sink's [enqueue]
    and a connector's normaliser are parameters. *)

From Stdlib Require Import ZArith Lia Lqa Ascii String List QArith Qabs.
From stdpp Require Import base list strings.
From S2P Require Import Prelude PyTime ConnErrors Effects Idem Base64 Gates Registry.

Open Scope string_scope.
Open Scope list_scope.
Open Scope Z_scope.
Open Scope cam_scope.

(** ** models.py *)

Record Event := mk_Event {
  we_id : string;
  we_connector : string;
  we_provider_event_id : string;
  we_type : string;
  we_occurred_at : datetime;
  we_received_at : datetime;
  we_matter_ref : option string;
  we_payload : jdict;
  we_raw_ref : option string }.

(** ** pipeline.py *)

Definition MAX_BODY_BYTES : Z := 1048576.
Definition WEBHOOK_DEDUP_TTL : Z := 7 * 24 * 3600.
Definition REPLAY_WINDOW_SECONDS : Q := 300.

Record PipelineResult := mk_PipelineResult {
  pr_decision : string;
  pr_event : option Event;
  pr_reason : string }.

(** [abs(now - ts) > REPLAY_WINDOW_SECONDS]; every comparison with NaN is false. *)
Definition stale (now : Q) (ts : pyfloat) : bool :=
  match ts with
  | FFinite q => Qlt_bool REPLAY_WINDOW_SECONDS (Qabs (now - q))
  | FInfinite => true
  | FNan => false
  end.

Definition webhook_dedup_key (connector provider_event_id : string) : string :=
  "cam:webhook:" +:+ connector +:+ ":" +:+ provider_event_id.

(** What the lookup in the dedup store said. *)
Inductive Seen := SeenBefore | SeenNow | StoreDown.

Section Pipeline.
Context {R W : Type} {RO : RedisOps R}.
Context (clock : nat -> datetime) (uuids : nat -> string).
Context (hmac_hex : string -> string -> string) (json_loads : string -> option json).
Context (py_float : string -> option pyfloat).

Definition WM (A : Type) : Type := M (sys R W) A.

Definition verify_signature (raw_body : string) (signature_header : option string)
    (secret : string) (timestamp_header : option string) : WM bool :=
  match signature_header with
  | None => ret false
  | Some sg =>
      if negb (str_truthy sg) then ret false
      else
        let! fresh :=
          match timestamp_header with
          | None => ret true
          | Some h => match py_float h with
                      | None => ret false
                      | Some ts => let! now := get_now clock in ret (negb (stale (timestamp now) ts))
                      end
          end in
        if fresh then lift_res (compare_digest (hmac_hex secret raw_body) sg) else ret false
  end.

Definition is_duplicate (connector provider_event_id : string) : WM bool :=
  let! result := on_store (redis_get (webhook_dedup_key connector provider_event_id)) in
  ret (match result with Some _ => true | None => false end).

Definition mark_processed (connector provider_event_id : string) : WM unit :=
  on_store (redis_set (webhook_dedup_key connector provider_event_id) "1" WEBHOOK_DEDUP_TTL).

Definition dedup_step (connector provider_event_id : string) : WM Seen :=
  try_except
    (let! dup := is_duplicate connector provider_event_id in
     if dup then ret SeenBefore else mark_processed connector provider_event_id ;; ret SeenNow)
    (fun _ => ret StoreDown).

Definition signature_of (headers : dict string string) : option string :=
  opt_or (dget "x-hub-signature-256" headers) (dget "x-signature" headers).

Definition enqueue_step (enqueue : Event -> M W string) (event : Event) : WM PipelineResult :=
  try_except
    (on_world (enqueue event) ;; ret (mk_PipelineResult "enqueued" (Some event) ""))
    (fun _ => ret (mk_PipelineResult "enqueue_failed" None "Trigger sink unavailable.")).

Definition process_webhook (connector_name raw_body : string) (headers : dict string string)
    (secret : string) (normaliser : string -> json -> WM (option Event))
    (enqueue : Event -> M W string) : WM PipelineResult :=
  if MAX_BODY_BYTES <? Z.of_nat (String.length raw_body) then
    ret (mk_PipelineResult "rejected_oversized" None "Body exceeds size cap.")
  else
    let! ok := verify_signature raw_body (signature_of headers) secret (dget "x-timestamp" headers) in
    if negb ok then
      ret (mk_PipelineResult "rejected_bad_signature" None "Invalid or missing signature.")
    else
      match json_loads raw_body with
      | None => ret (mk_PipelineResult "rejected_bad_signature" None "Malformed JSON body.")
      | Some raw_payload =>
          let! event := normaliser connector_name raw_payload in
          match event with
          | None => ret (mk_PipelineResult "dropped_unknown_type" None "Unrecognised event type.")
          | Some event =>
              let! seen := dedup_step connector_name (we_provider_event_id event) in
              match seen with
              | SeenBefore => ret (mk_PipelineResult "duplicate_ignored" None "")
              | StoreDown => ret (mk_PipelineResult "redis_unavailable" None "Dedup store unavailable.")
              | SeenNow => enqueue_step enqueue event
              end
          end
      end.

(** *** reference_normaliser *)

Definition known_types : list string :=
  ["matter.status_changed"; "lead.created"; "document.signed"; "email.received"; "contact.created"].

(** [raw.get("type") or raw.get("event_type")] *)
Definition event_type_of (raw : jdict) : json :=
  let get k := match dget k raw with Some v => v | None => JNull end in
  if json_truthy (get "type") then get "type" else get "event_type".

(** [event_type not in known]: a list or a dict cannot be looked up in a set. *)
Definition known_type (event_type : json) : res (option string) :=
  match event_type with
  | JStr s => Ok (if str_in s known_types then Some s else None)
  | JList _ | JDict _ => Err (TypeError "unhashable type")
  | _ => Ok None
  end.

(** A value given to a pydantic [str | None] field. *)
Definition as_opt_str_field (j : json) : res (option string) :=
  match j with JNull => Ok None | j => letr! s := as_str_field j in Ok (Some s) end.

Definition reference_normaliser (connector : string) (raw : json) : WM (option Event) :=
  match raw with
  | JDict raw =>
      let event_type := event_type_of raw in
      if negb (json_truthy event_type) then ret None
      else
        let! kind := lift_res (known_type event_type) in
        match kind with
        | None => ret None
        | Some kind =>
            let! eid := uuid4 uuids in
            let! fallback := uuid4 uuids in
            let! occurred := get_now clock in
            let! received := get_now clock in
            lift_res (
              letr! peid := as_str_field (match dget "id" raw with Some v => v | None => JStr fallback end) in
              letr! matter_ref := as_opt_str_field (match dget "matter_id" raw with Some v => v | None => JNull end) in
              Ok (Some (mk_Event eid connector peid kind occurred received matter_ref
                (bfilter (fun kv => negb (str_in kv.1 ["id"; "type"; "event_type"])) raw) None)))
        end
  | _ => raise (AttributeError "get")
  end.

(** ** The route of sidecar/webhooks.py *)

Definition decision_to_status (decision : string) : Z :=
  match dget decision
    [("enqueued", 202); ("duplicate_ignored", 200); ("dropped_unknown_type", 202);
     ("rejected_bad_signature", 401); ("rejected_oversized", 413); ("redis_unavailable", 503);
     ("enqueue_failed", 503)] with
  | Some c => c
  | None => 202
  end.

(** [app.state]: the secrets, whether a Redis client is set, and the trigger sink
    if one is set. *)
Record AppState := mk_AppState {
  as_webhook_secrets : dict string string;
  as_has_redis : bool;
  as_trigger_sink : option (Event -> M W string) }.

(** The default sink is the class [_NoopTriggerSink] itself, so that calling
    [enqueue(event)] on it lacks an argument. *)
Definition sink_of (app : AppState) : Event -> M W string :=
  match as_trigger_sink app with
  | Some enqueue => enqueue
  | None => fun _ => raise (TypeError "enqueue() missing 1 required positional argument: 'event'")
  end.

Definition noop_normaliser (connector : string) (raw : json) : WM (option Event) := ret None.

(** The status code of the response, or of the [HTTPException]; an exception of
    the pipeline goes to the framework. *)
Definition ingest_webhook {A} (g : Registry A (string -> json -> WM (option Event))) (app : AppState)
    (connector_name raw_body : string) (headers : dict string string) : WM Z :=
  if negb (dmem connector_name g) then ret 404
  else if MAX_BODY_BYTES <? Z.of_nat (String.length raw_body) then ret 413
  else
    let normaliser := match en_normaliser (entry_of connector_name g) with
                      | Some n => n
                      | None => noop_normaliser
                      end in
    let secret := match dget connector_name (as_webhook_secrets app) with
                  | Some s => s
                  | None => EmptyString
                  end in
    if negb (as_has_redis app) then ret 503
    else
      let! result := process_webhook connector_name raw_body headers secret normaliser (sink_of app) in
      ret (decision_to_status (pr_decision result)).


(** ** What a delivery does *)

(** The condition for going past the signature check. *)
Definition signed (raw_body : string) (headers : dict string string) (secret : string)
    (now : datetime) : Prop :=
  exists sg, signature_of headers = Some sg /\ sg <> EmptyString /\
    is_ascii sg = true /\ sg = hmac_hex secret raw_body /\
    match dget "x-timestamp" headers with
    | None => True
    | Some h => exists ts, py_float h = Some ts /\ stale (timestamp now) ts = false
    end.

Lemma compare_digest_iff x y : compare_digest x y = Ok true <-> y = x /\ is_ascii y = true.
Proof.
  split.
  - intros H. apply compare_digest_true in H as [-> H]. done.
  - intros [-> H]. unfold compare_digest. by rewrite H, String.eqb_refl.
Qed.

Lemma verify_signature_spec raw headers secret s s' r :
  verify_signature raw (signature_of headers) secret (dget "x-timestamp" headers) s = (s', r) ->
  sys_store s' = sys_store s /\ sys_world s' = sys_world s /\
  (r = Ok true <-> signed raw headers secret (clock (sys_ticks s))).
Proof.
  unfold verify_signature, signed.
  destruct (signature_of headers) as [sg|].
  2: { intros [= <- <-]. split; [done|]. split; [done|]. split; [done|]. by intros (? & ? & _). }
  unfold str_truthy. destruct (String.eqb_spec sg EmptyString) as [->|Hsg]; simpl.
  { intros [= <- <-]. split; [done|]. split; [done|]. split; [done|]. by intros (? & [= <-] & ? & _). }
  destruct (dget "x-timestamp" headers) as [h|]; unfold bind, ret, get_now, lift_res; simpl.
  - destruct (py_float h) as [ts|] eqn:Ef; simpl.
    2: { intros [= <- <-]. split; [done|]. split; [done|]. split; [done|].
         intros (? & _ & _ & _ & _ & ? & H & _). done. }
    destruct (stale _ ts) eqn:Est; simpl; intros [= <- <-]; (split; [done|]); (split; [done|]).
    + split; [done|]. intros (? & _ & _ & _ & _ & ts' & [= <-] & H2). congruence.
    + rewrite compare_digest_iff. split.
      * intros [-> Ha]. exists (hmac_hex secret raw). repeat split; eauto.
      * intros (sg' & [= <-] & _ & Ha & -> & _). done.
  - intros [= <- <-]. split; [done|]. split; [done|]. rewrite compare_digest_iff. split.
    + intros [-> Ha]. by exists (hmac_hex secret raw).
    + intros (sg' & [= <-] & _ & Ha & -> & _). done.
Qed.

Context {RL : RedisLaws R}.

Lemma dedup_step_spec c peid s s' r :
  dedup_step c peid s = (s', r) ->
  sys_world s' = sys_world s /\
  match r with
  | Ok SeenNow => redis_view (sys_store s) (webhook_dedup_key c peid) = None /\
      forall k, redis_view (sys_store s') k =
        if decide (k = webhook_dedup_key c peid) then Some "1" else redis_view (sys_store s) k
  | Ok SeenBefore => is_Some (redis_view (sys_store s) (webhook_dedup_key c peid)) /\
      forall k, redis_view (sys_store s') k = redis_view (sys_store s) k
  | Ok StoreDown => (forall k, redis_view (sys_store s') k = redis_view (sys_store s) k) \/
      (redis_view (sys_store s) (webhook_dedup_key c peid) = None /\
       forall k, redis_view (sys_store s') k =
         if decide (k = webhook_dedup_key c peid) then Some "1" else redis_view (sys_store s) k)
  | Err _ => False
  end.
Proof.
  unfold dedup_step, is_duplicate, mark_processed, try_except, bind, on_store, zoom, ret.
  set (key := webhook_dedup_key c peid).
  pose proof (get_view key (sys_store s)) as Hv. pose proof (get_val key (sys_store s)) as Hg.
  destruct (redis_get key (sys_store s)) as [r1 [v|e]]; simpl in *.
  2: { intros [= <- <-]. by split; [|left]. }
  specialize (Hg v eq_refl). destruct v as [v|]; simpl.
  - intros [= <- <-]. simpl. rewrite <- Hg. split; [done|]. split; [by eexists|done].
  - destruct (redis_set key "1" WEBHOOK_DEDUP_TTL r1) as [r2 [[]|e]] eqn:Es; simpl;
      intros [= <- <-]; (split; [done|]); simpl.
    + split; [done|]. intros k. rewrite (set_view _ _ _ _ _ Es), Hv. done.
    + destruct (set_err _ _ _ _ _ _ Es) as [Hr|Hr]; [left|right; split; [done|]]; intros k; by rewrite Hr, Hv.
Qed.

(** A normaliser computes an event; it reaches neither Redis nor the sink. *)
Definition pure_normaliser (n : string -> json -> WM (option Event)) : Prop :=
  forall c j s, sys_store (fst (n c j s)) = sys_store s /\ sys_world (fst (n c j s)) = sys_world s.

Lemma reference_normaliser_pure : pure_normaliser reference_normaliser.
Proof.
  intros c j s. unfold reference_normaliser.
  destruct j as [| | | | | |raw]; try done.
  destruct (negb _); [done|]. unfold bind, lift_res.
  by destruct (known_type _) as [[kind|]|e].
Qed.

(** A delivery that got past the checks: the event is new, is marked as processed
    and only then offered to the sink, whose answer decides the result. *)
Definition handed_over (c raw : string) (headers : dict string string) (secret : string)
    (n : string -> json -> WM (option Event)) (enqueue : Event -> M W string)
    (s s' : sys R W) (pr : PipelineResult) (ev : Event) : Prop :=
  Z.of_nat (String.length raw) <= MAX_BODY_BYTES /\
  signed raw headers secret (clock (sys_ticks s)) /\
  (exists payload s1 s2, json_loads raw = Some payload /\ n c payload s1 = (s2, Ok (Some ev))) /\
  redis_view (sys_store s) (webhook_dedup_key c (we_provider_event_id ev)) = None /\
  (forall k, redis_view (sys_store s') k =
     if decide (k = webhook_dedup_key c (we_provider_event_id ev)) then Some "1"
     else redis_view (sys_store s) k) /\
  sys_world s' = fst (enqueue ev (sys_world s)) /\
  pr = match snd (enqueue ev (sys_world s)) with
       | Ok _ => mk_PipelineResult "enqueued" (Some ev) ""
       | Err _ => mk_PipelineResult "enqueue_failed" None "Trigger sink unavailable."
       end.

(** The one trace a delivery that was turned away may leave: Redis raised on the
    write of the new event's mark, and had made it. *)
Definition mark_unacknowledged (c raw : string) (n : string -> json -> WM (option Event)) (s s' : sys R W)
    (r : res PipelineResult) : Prop :=
  exists payload s1 s2 ev pr, json_loads raw = Some payload /\ n c payload s1 = (s2, Ok (Some ev)) /\
    r = Ok pr /\ pr_decision pr = "redis_unavailable" /\
    redis_view (sys_store s) (webhook_dedup_key c (we_provider_event_id ev)) = None /\
    forall k, redis_view (sys_store s') k =
      if decide (k = webhook_dedup_key c (we_provider_event_id ev)) then Some "1" else redis_view (sys_store s) k.

(** A delivery that was turned away: nothing was enqueued, and nothing stored but
    perhaps that mark. *)
Definition turned_away (c raw : string) (n : string -> json -> WM (option Event)) (s s' : sys R W)
    (r : res PipelineResult) : Prop :=
  sys_world s' = sys_world s /\
  ((forall k, redis_view (sys_store s') k = redis_view (sys_store s) k) \/
   mark_unacknowledged c raw n s s' r) /\
  forall pr, r = Ok pr -> pr_event pr = None /\
    pr_decision pr ∈ ["rejected_oversized"; "rejected_bad_signature"; "dropped_unknown_type";
                      "duplicate_ignored"; "redis_unavailable"].

(** C23: the webhook pipeline is sound.  Every delivery is either turned away,
    leaving the trigger sink untouched, and the dedup store too unless Redis made
    the write of the new event's mark and then raised (the answer
    [redis_unavailable]), or handed over: then
    its body is within the size cap and carries the HMAC of the raw bytes under
    the connector's secret, with a timestamp header, if there is one, within the
    replay window; it parsed and was recognised; its event id was not seen
    before, is marked now, and the sink was called exactly once, with the
    normalised event; the decision is [enqueued] exactly when the sink took it.
    In particular no exception of the sink escapes. *)
Theorem webhook_sound c raw headers secret n enqueue s s' r :
  pure_normaliser n ->
  process_webhook c raw headers secret n enqueue s = (s', r) ->
  turned_away c raw n s s' r \/
  exists pr ev, r = Ok pr /\ handed_over c raw headers secret n enqueue s s' pr ev.
Proof.
  intros Hn. unfold process_webhook.
  destruct (Z.ltb_spec MAX_BODY_BYTES (Z.of_nat (String.length raw))) as [|Hlen].
  { intros [= <- <-]. left. split; [done|]. split; [by left|]. intros pr [= <-]. split; [done|in_list]. }
  unfold bind at 1.
  destruct (verify_signature _ _ _ _ s) as [s1 v] eqn:Ev.
  destruct (verify_signature_spec _ _ _ _ _ _ Ev) as (E1 & E2 & Hv).
  destruct v as [[|]|e].
  2,3: intros [= <- <-]; left; (split; [done|]); (split; [left; intros; by rewrite E1|]);
       intros pr Hpr; first [discriminate | injection Hpr as <-; split; [done|in_list]].
  destruct Hv as [Hv _]. specialize (Hv eq_refl). cbn [negb].
  destruct (json_loads raw) as [payload|] eqn:Ej.
  2: { intros [= <- <-]. left. split; [done|]. split; [left; intros; by rewrite E1|].
       intros pr [= <-]. split; [done|in_list]. }
  unfold bind at 1. destruct (Hn c payload s1) as [N1 N2].
  destruct (n c payload s1) as [s2 [[ev|]|e]] eqn:En; simpl in N1, N2.
  2,3: intros [= <- <-]; left; (split; [congruence|]); (split; [left; intros; by rewrite N1, E1|]);
       intros pr Hpr; first [discriminate | injection Hpr as <-; split; [done|in_list]].
  unfold bind at 1. destruct (dedup_step c (we_provider_event_id ev) s2) as [s3 [sn|e]] eqn:Ed;
    destruct (dedup_step_spec _ _ _ _ _ Ed) as [D1 D2]; [|done].
  destruct sn.
  - intros [= <- <-]. left. split; [congruence|]. destruct D2 as [_ D2].
    split; [left; intros; by rewrite D2, N1, E1|]. intros pr [= <-]. split; [done|in_list].
  - unfold enqueue_step, try_except, bind, on_world, zoom, ret. destruct D2 as [D2 D3].
    rewrite D1, N2, E2. destruct (enqueue ev (sys_world s)) as [w q] eqn:Eq. intros Hr. right.
    assert (s' = set_world w s3) as -> by (destruct q; by injection Hr).
    exists (match q with
            | Ok _ => mk_PipelineResult "enqueued" (Some ev) ""
            | Err _ => mk_PipelineResult "enqueue_failed" None "Trigger sink unavailable."
            end), ev.
    split; [by destruct q; injection Hr as <-|]. split; [done|]. split; [done|].
    split; [by exists payload, s1, s2|]. split; [by rewrite <- E1, <- N1|].
    split; [intros k; rewrite <- E1, <- N1; apply D3|]. by rewrite Eq.
  - intros [= <- <-]. left. split; [congruence|]. split; [|intros pr [= <-]; split; [done|in_list]].
    destruct D2 as [D2|[D2 D3]]; [left; intros; by rewrite D2, N1, E1|right].
    eexists payload, s1, s2, ev, _. split; [done|]. split; [done|]. split; [reflexivity|]. split; [done|].
    rewrite <- E1, <- N1. done.
Qed.

(** ** Sequences of deliveries *)

Record Delivery := mk_Delivery {
  dl_connector : string;
  dl_body : string;
  dl_headers : dict string string;
  dl_secret : string;
  dl_normaliser : string -> json -> WM (option Event) }.

Fixpoint deliver_all (enqueue : Event -> M W string) (ds : list Delivery) (s : sys R W)
    : sys R W * list (string * res PipelineResult) :=
  match ds with
  | [] => (s, [])
  | d :: ds' =>
      let '(s1, r) := process_webhook (dl_connector d) (dl_body d) (dl_headers d) (dl_secret d)
                        (dl_normaliser d) enqueue s in
      let '(s2, rs) := deliver_all enqueue ds' s1 in
      (s2, (dl_connector d, r) :: rs)
  end.

(** The connector and vendor event id of every delivery reported as enqueued. *)
Fixpoint accepted (rs : list (string * res PipelineResult)) : list (string * string) :=
  match rs with
  | [] => []
  | (c, Ok (mk_PipelineResult d (Some ev) _)) :: rs' =>
      if String.eqb d "enqueued" then (c, we_provider_event_id ev) :: accepted rs' else accepted rs'
  | _ :: rs' => accepted rs'
  end.

Definition marked (s : sys R W) (cp : string * string) : Prop :=
  is_Some (redis_view (sys_store s) (webhook_dedup_key cp.1 cp.2)).

(** A key once set stays set, whatever is delivered. *)
Lemma process_keeps_marks c raw headers secret n enqueue s s' r cp :
  pure_normaliser n -> process_webhook c raw headers secret n enqueue s = (s', r) ->
  marked s cp -> marked s' cp.
Proof.
  intros Hn H Hm. unfold marked.
  destruct (webhook_sound _ _ _ _ _ _ _ _ _ Hn H) as [(_ & [Hk|(_ & _ & _ & ev & _ & _ & _ & _ & _ & _ & Hk)] & _)|(pr & ev & _ & Hh)].
  - by rewrite Hk.
  - rewrite Hk. case_decide; [by eexists|done].
  - destruct Hh as (_ & _ & _ & _ & Hk & _). rewrite Hk. case_decide; [by eexists|done].
Qed.

(** One delivery contributes an accepted id only if its key was free, and sets it. *)
Lemma process_accepted c raw headers secret n enqueue s s' r cp :
  pure_normaliser n -> process_webhook c raw headers secret n enqueue s = (s', r) ->
  cp ∈ accepted [(c, r)] -> accepted [(c, r)] = [cp] /\ ~ marked s cp /\ marked s' cp.
Proof.
  intros Hn H. destruct (webhook_sound _ _ _ _ _ _ _ _ _ Hn H) as [(_ & _ & Hr)|(pr & ev & -> & Hh)].
  - destruct r as [pr|e]; simpl; [|by intros ?%not_elem_of_nil].
    destruct (Hr pr eq_refl) as [E _]. destruct pr as [d o q]. simpl in E. subst.
    by intros ?%not_elem_of_nil.
  - destruct Hh as (_ & _ & _ & Hfree & Hk & _ & ->). simpl.
    destruct (snd (enqueue ev (sys_world s))); simpl; [|by intros ?%not_elem_of_nil].
    intros ->%list_elem_of_singleton. split; [done|]. unfold marked. simpl.
    rewrite Hfree, Hk, decide_True by done. split; [by intros [? ?]|by eexists].
Qed.

Lemma accepted_cons x rs : accepted (x :: rs) = accepted [x] ++ accepted rs.
Proof. destruct x as [c [[d [ev|] q]|e]]; simpl; [by destruct (String.eqb d "enqueued")|done..]. Qed.

(** C24: an event enters the system at most once.  Over any sequence of
    deliveries, of any connectors and secrets, that share a Redis which keeps the
    keys, no vendor event of a connector is reported as enqueued twice; whatever
    was reported had no dedup key before the sequence and has one after it.  So a
    provider that retries, or a replayed request, cannot start a second run. *)
Theorem webhook_at_most_once enqueue ds s s' rs :
  List.Forall (fun d => pure_normaliser (dl_normaliser d)) ds ->
  deliver_all enqueue ds s = (s', rs) ->
  NoDup (accepted rs) /\
  (forall cp, cp ∈ accepted rs -> ~ marked s cp /\ marked s' cp) /\
  (forall cp, marked s cp -> marked s' cp).
Proof.
  revert s s' rs. induction ds as [|d ds IH]; intros s s' rs Hn; simpl.
  - intros [= <- <-]. split; [constructor|]. split; [|done]. by intros cp ?%not_elem_of_nil.
  - inversion Hn as [|? ? Hd Hds]; subst.
    destruct (process_webhook _ _ _ _ _ _ s) as [s1 r] eqn:E1.
    destruct (deliver_all enqueue ds s1) as [s2 rs2] eqn:E2. intros [= <- <-].
    destruct (IH s1 s2 rs2 Hds E2) as (Hnd & Hin & Hkeep).
    pose proof (fun cp => process_accepted _ _ _ _ _ _ _ _ _ cp Hd E1) as Hacc.
    pose proof (fun cp => process_keeps_marks _ _ _ _ _ _ _ _ _ cp Hd E1) as Hmark.
    rewrite accepted_cons. split; [|split].
    + destruct (accepted [(dl_connector d, r)]) as [|cp l] eqn:Ea; [done|].
      destruct (Hacc cp) as (El & _ & Hm); [left|]. rewrite El. constructor; [|done].
      intros Hcp. by destruct (Hin cp Hcp).
    + intros cp [Hcp|Hcp]%elem_of_app.
      * destruct (Hacc cp Hcp) as (_ & Hm & Hm'). auto.
      * destruct (Hin cp Hcp) as [Hm Hm']. split; [|done]. auto.
    + auto.
Qed.

(** An event whose hand-over failed is lost.  Because the event is marked as
    processed before it is enqueued, when the sink raises the provider is told to
    retry (503) and every retry, as long as Redis keeps the key, is turned away
    without the sink being called: the event never reaches the orchestrator. *)
Lemma failed_enqueue_loses_event c raw headers secret n enqueue s s1 pr payload peid :
  pure_normaliser n -> json_loads raw = Some payload ->
  (forall t t' ev, n c payload t = (t', Ok (Some ev)) -> we_provider_event_id ev = peid) ->
  process_webhook c raw headers secret n enqueue s = (s1, Ok pr) ->
  pr_decision pr = "enqueue_failed" ->
  decision_to_status (pr_decision pr) = 503 /\
  forall enqueue' headers' secret' s2 s3 r,
    redis_view (sys_store s2) (webhook_dedup_key c peid) =
      redis_view (sys_store s1) (webhook_dedup_key c peid) ->
    process_webhook c raw headers' secret' n enqueue' s2 = (s3, r) -> turned_away c raw n s2 s3 r.
Proof.
  intros Hn Hj Hid H Hd. rewrite Hd. split; [done|].
  destruct (webhook_sound _ _ _ _ _ _ _ _ _ Hn H) as [(_ & _ & Hr)|(pr' & ev & _ & Hh)].
  { destruct (Hr pr eq_refl) as [_ Hin]. rewrite Hd in Hin.
    rewrite !elem_of_cons in Hin. by destruct Hin as [?|[?|[?|[?|[?|?%not_elem_of_nil]]]]]. }
  destruct Hh as (_ & _ & (p' & t & t' & Hp & He) & _ & Hk & _).
  assert (p' = payload) as -> by congruence. apply Hid in He.
  intros enqueue' headers' secret' s2 s3 r Hsame H2.
  destruct (webhook_sound _ _ _ _ _ _ _ _ _ Hn H2) as [|(pr2 & ev2 & _ & Hh2)]; [done|].
  exfalso. destruct Hh2 as (_ & _ & (p2 & t2 & t2' & Hp2 & He2) & Hnone & _).
  assert (p2 = payload) as -> by congruence. apply Hid in He2.
  rewrite He2, Hsame, Hk, He, decide_True in Hnone; done.
Qed.

(** Two requests whose lookups both precede the first mark are both new: the
    lookup and the mark are two Redis commands, and other requests run between
    them. *)
Lemma overlapping_lookups_both_new c peid (s s1 s2 : sys R W) b1 b2 :
  redis_view (sys_store s) (webhook_dedup_key c peid) = None ->
  is_duplicate c peid s = (s1, Ok b1) -> is_duplicate c peid s1 = (s2, Ok b2) ->
  b1 = false /\ b2 = false.
Proof.
  unfold is_duplicate, bind, on_store, zoom, ret. set (key := webhook_dedup_key c peid).
  intros Hnone. pose proof (get_view key (sys_store s) key) as Hv.
  pose proof (get_val key (sys_store s)) as Hg.
  destruct (redis_get key (sys_store s)) as [r1 [v|e]]; [|done]. simpl in *.
  intros [= <- <-]. simpl. pose proof (get_val key r1) as Hg2.
  destruct (redis_get key r1) as [r2 [v2|e]]; [|done]. simpl in *. intros [= <- <-].
  rewrite (Hg v eq_refl), (Hg2 v2 eq_refl), Hv, Hnone. done.
Qed.

(** A timestamp header that [float()] reads as NaN is never stale. *)
Lemma nan_timestamp_never_stale now : stale now FNan = false.
Proof. done. Qed.

(** With no secret configured for a connector the expected signature is the HMAC
    under the empty key, which any sender can compute. *)
Lemma missing_secret_signature {A} (g : Registry A (string -> json -> WM (option Event))) app c raw
    headers s :
  dmem c g = true -> dget c (as_webhook_secrets app) = None -> as_has_redis app = true ->
  Z.of_nat (String.length raw) <= MAX_BODY_BYTES ->
  ingest_webhook g app c raw headers s =
    (let! result := process_webhook c raw headers EmptyString
       (match en_normaliser (entry_of c g) with Some n => n | None => noop_normaliser end)
       (sink_of app) in ret (decision_to_status (pr_decision result))) s.
Proof.
  intros Hg Hs Hr Hl. unfold ingest_webhook. rewrite Hg, Hs, Hr. cbn [negb].
  destruct (Z.ltb_spec MAX_BODY_BYTES (Z.of_nat (String.length raw))); [lia|done].
Qed.
End Pipeline.

(** ** Concrete deliveries *)

Definition demo_clock (n : nat) : datetime := mk_datetime 738000 0 0.
Definition demo_uuids (n : nat) : string := "u".
Definition demo_hmac (k m : string) : string := k +:+ "/" +:+ m.
Definition demo_json (s : string) : option json :=
  Some (JDict [("type", JStr "lead.created"); ("id", JStr s); ("name", JStr "x")]).
Definition demo_float (s : string) : option pyfloat := None.
Definition demo_headers : dict string string := [("x-signature", "key/e1")].
(** A sink that logs event ids, and one that raises. *)
Definition log_sink (e : Event) : M (list string) string := fun w =>
  (w ++ [we_provider_event_id e], Ok "t1").
Definition down_sink (e : Event) : M (list string) string := raise (OtherError "ConnectionError" "").
Definition demo_state : sys redis_mem (list string) := mk_sys [] [] 0 0.

Abbreviation demo_norm := (reference_normaliser (R := redis_mem) (W := list string) demo_clock demo_uuids).
Abbreviation demo_webhook :=
  (process_webhook (R := redis_mem) demo_clock demo_hmac demo_json demo_float "crm" "e1" demo_headers
     "key" demo_norm).

Lemma webhook_sound_witness :
  let '(s', r) := demo_webhook log_sink demo_state in
  turned_away demo_json "crm" "e1" demo_norm demo_state s' r \/
  exists pr ev, r = Ok pr /\
    handed_over demo_clock demo_hmac demo_json demo_float "crm" "e1" demo_headers "key" demo_norm
      log_sink demo_state s' pr ev.
Proof.
  destruct (demo_webhook log_sink demo_state) as [s' r] eqn:E.
  exact (webhook_sound demo_clock demo_hmac demo_json demo_float "crm" "e1" demo_headers "key" demo_norm
    log_sink demo_state s' r (reference_normaliser_pure demo_clock demo_uuids) E).
Defined.

Definition demo_delivery : Delivery (R := redis_mem) (W := list string) :=
  mk_Delivery "crm" "e1" demo_headers "key" demo_norm.

(** The same event three times: one run is started. *)
Lemma webhook_at_most_once_witness :
  let '(s', rs) := deliver_all demo_clock demo_hmac demo_json demo_float log_sink
                     [demo_delivery; demo_delivery; demo_delivery] demo_state in
  sys_world s' = ["e1"] /\ NoDup (accepted rs).
Proof.
  destruct (deliver_all demo_clock demo_hmac demo_json demo_float log_sink
    [demo_delivery; demo_delivery; demo_delivery] demo_state) as [s' rs] eqn:E.
  split; [vm_compute in E; by injection E as <- _|].
  refine (proj1 (webhook_at_most_once demo_clock demo_hmac demo_json demo_float log_sink
    [demo_delivery; demo_delivery; demo_delivery] demo_state s' rs _ E)).
  repeat constructor; apply reference_normaliser_pure.
Defined.

(** The sink is down once; the provider retries; nothing is ever enqueued. *)
Lemma failed_enqueue_loses_event_witness :
  exists s1 pr, demo_webhook down_sink demo_state = (s1, Ok pr) /\
    decision_to_status (pr_decision pr) = 503 /\
    let '(s3, r) := demo_webhook log_sink s1 in turned_away demo_json "crm" "e1" demo_norm s1 s3 r.
Proof.
  destruct (demo_webhook down_sink demo_state) as [s1 r1] eqn:E.
  pose proof E as E'. vm_compute in E'. injection E' as Es <-.
  eexists s1, _. split; [reflexivity|].
  destruct (failed_enqueue_loses_event demo_clock demo_hmac demo_json demo_float "crm" "e1" demo_headers
    "key" demo_norm down_sink demo_state s1
    (mk_PipelineResult "enqueue_failed" None "Trigger sink unavailable.")
    (JDict [("type", JStr "lead.created"); ("id", JStr "e1"); ("name", JStr "x")]) "e1"
    (reference_normaliser_pure demo_clock demo_uuids) eq_refl
    ltac:(by intros t t' ev [= _ <-]) E eq_refl) as [Hst H].
  split; [exact Hst|]. destruct (demo_webhook log_sink s1) as [s3 r] eqn:E3.
  exact (H log_sink demo_headers "key" s1 s3 r eq_refl E3).
Defined.

(** Redis makes the mark and its answer is lost: the provider is told to retry,
    and the retry is dropped as a duplicate although nothing was enqueued. *)
Example unacknowledged_mark_loses_event :
  let deliver := process_webhook (R := redis_lossy) demo_clock demo_hmac demo_json demo_float "crm" "e1" demo_headers
    "key" (reference_normaliser demo_clock demo_uuids) log_sink in
  let p := deliver (mk_sys (mk_redis_lossy []) [] 0 0) in
  let q := deliver (fst p) in
  (snd p = Ok (mk_PipelineResult "redis_unavailable" None "Dedup store unavailable.")) /\
  decision_to_status "redis_unavailable" = 503 /\
  match snd q with Ok pr => pr_decision pr | Err _ => EmptyString end = "duplicate_ignored" /\
  sys_world (fst q) = [].
Proof. by vm_compute. Qed.
