(* ===== verification/Engine.v ===== *)
(** * Engine: core/orchestrator/engine.py

    [WorkflowEngine]: [execute] takes the run lock and drives a run through its
    steps; [run_steps] is the loop of [_execute].  The engine is parameterised
    by an idempotency store [I] (class [IdemOps]), a Redis client [R] for the
    lock, the world [W] that handlers, compensations and the audit callback act
    on, and the workflow registry.  The retry path calls [execute] again: the
    recursion takes fuel, and the theorems show that no fuel is ever consumed.
    Sleeping, logging and tracing are left out. *)

From Stdlib Require Import ZArith Lia Ascii String List.
From stdpp Require Import base list strings.
From S2P Require Import Prelude PyTime ConnErrors Effects States RunStore Dsl Idem Gates.

Open Scope string_scope.
Open Scope list_scope.
Open Scope Z_scope.
Open Scope cam_scope.

Definition MAX_ATTEMPTS : Z := 5.

Record EngStore (I R : Type) := mk_EngStore { es_store : RunStore; es_idem : I; es_redis : R }.
Arguments mk_EngStore {I R}.
Arguments es_store {I R}.
Arguments es_idem {I R}.
Arguments es_redis {I R}.

(** *** Copies of a step state ([model_copy]) *)

Definition step_running (now : datetime) (st : StepState) : StepState :=
  mk_StepState (st_run_id st) (st_step st) (st_seq st) SRUNNING (st_attempt st) (st_idem_key st)
    (st_input st) (st_output st) (st_error st) (Some now) (st_ended_at st).

Definition step_succeeded (now : datetime) (output : jdict) (st : StepState) : StepState :=
  mk_StepState (st_run_id st) (st_step st) (st_seq st) SSUCCEEDED (st_attempt st + 1)
    (st_idem_key st) (st_input st) (Some output) (st_error st) (st_started_at st) (Some now).

Definition step_failed (now : datetime) (err : StepError) (st : StepState) : StepState :=
  mk_StepState (st_run_id st) (st_step st) (st_seq st) SFAILED (st_attempt st + 1)
    (st_idem_key st) (st_input st) (st_output st) (Some err) (st_started_at st) (Some now).

Definition step_pending (st : StepState) : StepState :=
  mk_StepState (st_run_id st) (st_step st) (st_seq st) SPENDING (st_attempt st)
    (st_idem_key st) (st_input st) (st_output st) (st_error st) (st_started_at st) (st_ended_at st).

(** Steps the loop passes over. *)
Definition step_done (s : StepStatus) : bool :=
  match s with SSUCCEEDED | SSKIPPED | SCOMPENSATED => true | _ => false end.

Section Engine.
Context {W Key I R : Type} {IO : IdemOps I} {RO : RedisOps R}.
Context (clock : nat -> datetime) (uuids : nat -> string).
Context (sign : Key -> string -> string) (sha256_hex : string -> string).
Context (json_dumps_sorted : json -> string).
Context (str_of_exn : exn -> string).
Context (reg : registry W) (audit_fn : option (AuditEvent -> M W unit)).
Context (signing_key : Key) (run_lock : RunLock).

Definition EM (A : Type) : Type := M (sys (EngStore I R) W) A.

Definition on_runs {A} (m : M RunStore A) : EM A :=
  on_store (zoom es_store (fun x e => mk_EngStore x (es_idem e) (es_redis e)) m).

Definition on_idem {A} (m : M I A) : EM A :=
  on_store (zoom es_idem (fun x e => mk_EngStore (es_store e) x (es_redis e)) m).

Definition on_redis {A} (m : M R A) : EM A :=
  on_store (zoom es_redis (fun x e => mk_EngStore (es_store e) (es_idem e) x) m).

(** Run a gate operation on the run store of the engine. *)
Definition on_gate_sys {A} (m : M (sys RunStore W) A) : EM A := zoom
  (fun s => mk_sys (es_store (sys_store s)) (sys_world s) (sys_ticks s) (sys_uuids s))
  (fun g s => mk_sys (mk_EngStore (sys_store g) (es_idem (sys_store s)) (es_redis (sys_store s)))
                (sys_world g) (sys_ticks g) (sys_uuids g)) m.

(** [_classify_error] *)
Definition classify_error (e : exn) (attempt : Z) : StepError :=
  match e with
  | ConnectorExn ce =>
      mk_StepError (class_name (ce_class ce)) (ce_detail ce) attempt (ce_retryable ce)
  | _ => mk_StepError (exn_name e) (take_chars 200 (str_of_exn e)) attempt false
  end.

(** [_audit]: failures of the callback are swallowed. *)
Definition engine_audit (action rid : string) (inputs outputs : jdict) : EM unit :=
  match audit_fn with
  | None => ret tt
  | Some f => try_pass (on_world (f (mk_AuditEvent "workflow_engine" action inputs outputs (Some rid))))
  end.

(** [await self.store.get_run(run_id)] followed by [assert result is not None]. *)
Definition reload (rid : string) : EM WorkflowRun :=
  let! r := on_runs (get_run rid) in lift_res (or_raise AssertionError r).

Definition update_status (rid : string) (st : RunStatus) (err : option StepError) : EM unit :=
  let! now := get_now clock in on_runs (update_run_status now rid st None err).

Definition set_current (rid step : string) : EM unit :=
  let! now := get_now clock in on_runs (set_current_step now rid step).

(** ** Gates *)

Definition issue_gate_token (gate : GateRequest) (ttl : Z) (channel : string) : EM unit :=
  let! rt := on_gate_sys (issue_token clock uuids sign sha256_hex json_dumps_sorted
               (gr_id gate) (gr_run_id gate) (gr_step gate) channel signing_key ttl) in
  on_runs (save_token (snd rt)).

(** [GateRequest(...)]: pydantic checks the channel literals. *)
Definition make_gate (gate_id rid step : string) (cfg : GateConfig) (now : datetime) : res GateRequest :=
  letr! expires := or_raise OverflowError (dt_add now (gc_ttl_seconds cfg * US_PER_SECOND)) in
  if forallb valid_channel (gc_channels cfg) then
    Ok (mk_GateRequest gate_id rid step (gc_required_role cfg) (gc_quorum cfg) GPending
          (gc_channels cfg) now expires)
  else Err (ValidationError "channels").

Definition handle_gate (run : WorkflowRun) (st : StepState) (cfg : GateConfig) : EM unit :=
  let! gate_id := uuid4 uuids in
  let! now := get_now clock in
  let! gate := lift_res (make_gate gate_id (run_id run) (st_step st) cfg now) in
  on_runs (create_gate_request gate) ;;
  (for_each (gc_channels cfg) (issue_gate_token gate (gc_ttl_seconds cfg)) ;;
  (update_status (run_id run) AWAITING_APPROVAL None ;;
  engine_audit "gate.requested" (run_id run)
    [("step", JStr (st_step st)); ("gate_id", JStr gate_id);
     ("channels", JList (map JStr (gc_channels cfg)))] [])).

(** ** Parking *)

Definition error_json (err : StepError) : json :=
  JDict [("error_class", JStr (se_error_class err)); ("detail", JStr (se_detail err));
         ("attempt", JInt (se_attempt err)); ("retryable", JBool (se_retryable err))].

Definition run_compensations (comps : list (Compensation W)) : EM unit :=
  for_each (rev comps) (fun fn => try_pass (on_world fn)).

Definition park (rid : string) (err : StepError) (comps : list (Compensation W)) : EM unit :=
  run_compensations comps ;;
  (update_status rid PARKED (Some err) ;;
  engine_audit "run.parked" rid [("error", error_json err)] []).

(** ** One step *)

(** [await handler(ctx)]: the handler's effect on the world and its context. *)
Definition call_handler (h : Handler W) (ctx : StepContext W) : EM (option jdict * StepContext W) :=
  fun s => let '((w, ctx'), r) := h (sys_world s, ctx) in
           (set_world w s, match r with Ok o => Ok (o, ctx') | Err e => Err e end).

(** The [try] body up to the recording of the output. *)
Definition attempt_step (defn : WorkflowDef W) (st : StepState) (ctx : StepContext W)
    : EM (jdict * list (Compensation W)) :=
  let! h := lift_res (or_raise (KeyError (st_step st)) (dget (st_step st) (wd_handlers defn))) in
  let! oc := call_handler h ctx in
  let output := match fst oc with Some o => o | None => [] end in
  on_idem (reserve (st_idem_key st)) ;;
  (on_idem (record_output (st_idem_key st) output) ;;
  ret (output, ctx_compensations (snd oc))).

(** The rest of the [try] body, after [step_state] has become the succeeded copy. *)
Definition complete_step (rid : string) (st : StepState) (output : jdict) : EM unit :=
  on_runs (update_step st) ;;
  (engine_audit "step.succeeded" rid [("step", JStr (st_step st))] output ;;
  set_current rid (st_step st)).

(** The [except] block; [again] is the recursive [execute]. *)
Definition fail_step (again : EM WorkflowRun) (rid : string) (st : StepState) (e : exn)
    (comps : list (Compensation W)) : EM WorkflowRun :=
  let err := classify_error e (st_attempt st) in
  let! now := get_now clock in
  let st := step_failed now err st in
  on_runs (update_step st) ;;
  if se_retryable err && (st_attempt st <? MAX_ATTEMPTS) then
    on_runs (update_step (step_pending st)) ;; again
  else
    park rid err comps ;; reload rid.

(** Outputs of finished steps, for [ctx.output]. *)
Definition set_output (step : string) (output : jdict) (outputs : jdict) : jdict :=
  dset step (JDict output) outputs.

Definition initial_outputs (steps : list StepState) : jdict :=
  fold_left (fun outs st => match st_output st with
                            | Some o => set_output (st_step st) o outs
                            | None => outs
                            end) steps [].

(** The [for step_state in steps] loop and what follows it. *)
Fixpoint run_steps (again : EM WorkflowRun) (rid : string) (run : WorkflowRun) (defn : WorkflowDef W)
    (steps : list StepState) (outputs : jdict) (comps : list (Compensation W)) : EM WorkflowRun :=
  match steps with
  | [] =>
      update_status rid SUCCEEDED None ;;
      (engine_audit "run.succeeded" rid [] [] ;;
      reload rid)
  | st :: steps' =>
      if step_done (st_status st) then
        run_steps again rid run defn steps'
          (match st_output st with Some o => set_output (st_step st) o outputs | None => outputs end)
          comps
      else if is_gate (st_step st) then
        handle_gate run st (gate_config defn (st_step st)) ;; reload rid
      else
        let! existing := on_idem (lookup_output (st_idem_key st)) in
        match existing with
        | Some o =>
            set_current rid (st_step st) ;;
            run_steps again rid run defn steps' (set_output (st_step st) o outputs) comps
        | None =>
            let! now := get_now clock in
            let st := step_running now st in
            on_runs (update_step st) ;;
            fun s =>
              let ctx := new_context rid (run_context run) outputs (st_idem_key st) in
              match attempt_step defn st ctx s with
              | (s, Err e) => fail_step again rid st e comps s
              | (s, Ok (output, new_comps)) =>
                  let comps := comps ++ new_comps in
                  match get_now clock s with
                  | (s, Err e) => fail_step again rid st e comps s
                  | (s, Ok now) =>
                      let st := step_succeeded now output st in
                      match complete_step rid st output s with
                      | (s, Err e) => fail_step again rid st e comps s
                      | (s, Ok _) =>
                          run_steps again rid run defn steps'
                            (set_output (st_step st) output outputs) comps s
                      end
                  end
              end
        end
  end.

(** ** [_execute] and [execute] *)

Definition load_run (rid : string) : EM WorkflowRun :=
  let! r := on_runs (get_run rid) in lift_res (or_raise (run_not_found rid) r).

(** A queued run becomes running and is read again. *)
Definition start_queued (rid : string) (run : WorkflowRun) : EM WorkflowRun :=
  if bool_decide (run_status run = QUEUED) then
    update_status rid RUNNING None ;;
    let! r := on_runs (get_run rid) in
    lift_res (or_raise (AttributeError "workflow") r)
  else ret run.

Definition execute_locked (again : EM WorkflowRun) (rid : string) : EM WorkflowRun :=
  let! run := load_run rid in
  let! run := start_queued rid run in
  let! defn := lift_res (get_workflow_latest reg (run_workflow run)) in
  let! steps := on_runs (get_steps rid) in
  run_steps again rid run defn steps (initial_outputs steps) [].

(** [execute], given what its retry path calls. *)
Definition execute_with (again : EM WorkflowRun) (rid : string) : EM WorkflowRun :=
  let! locked := on_redis (acquire run_lock rid) in
  if locked then try_finally (execute_locked again rid) (on_redis (release run_lock rid))
  else load_run rid.

Fixpoint execute (fuel : nat) (rid : string) : EM WorkflowRun :=
  execute_with
    match fuel with
    | O => raise (OtherError "RecursionError" "maximum recursion depth exceeded")
    | S n => execute n rid
    end rid.

(** ** The engine's writes are store calls

    [by_calls P m]: whatever [m] does to the run store is a sequence of store
    calls that all satisfy [P]. *)

Definition runs_of (s : sys (EngStore I R) W) : RunStore := es_store (sys_store s).

Definition by_calls {A} (P : store_call -> Prop) (m : EM A) : Prop :=
  forall s, exists cs, Forall P cs /\ runs_of (fst (m s)) = exec_calls cs (runs_of s).

Section ByCalls.
Context (P : store_call -> Prop).

Lemma by_nothing {A} (m : EM A) : (forall s, runs_of (fst (m s)) = runs_of s) -> by_calls P m.
Proof. intros H s. exists []. by split. Qed.

Lemma by_ret {A} (a : A) : by_calls P (ret a).
Proof. by apply by_nothing. Qed.

Lemma by_raise {A} e : by_calls P (raise (A := A) e).
Proof. by apply by_nothing. Qed.

Lemma by_lift_res {A} (r : res A) : by_calls P (lift_res r).
Proof. by apply by_nothing. Qed.

Lemma by_get_now : by_calls P (get_now clock).
Proof. by apply by_nothing. Qed.

Lemma by_uuid4 : by_calls P (uuid4 uuids).
Proof. by apply by_nothing. Qed.

Lemma by_on_world {A} (m : M W A) : by_calls P (on_world m).
Proof. apply by_nothing. intros s. unfold runs_of. by rewrite on_world_store. Qed.

Lemma by_on_idem {A} (m : M I A) : by_calls P (on_idem m).
Proof. apply by_nothing. intros s. unfold runs_of, on_idem, on_store, zoom. by destruct (m _). Qed.

Lemma by_on_redis {A} (m : M R A) : by_calls P (on_redis m).
Proof. apply by_nothing. intros s. unfold runs_of, on_redis, on_store, zoom. by destruct (m _). Qed.

Lemma by_bind {A B} (m : EM A) (f : A -> EM B) :
  by_calls P m -> (forall a, by_calls P (f a)) -> by_calls P (bind m f).
Proof.
  intros Hm Hf s. unfold bind. destruct (Hm s) as (cs & Hcs & E).
  destruct (m s) as [s' [a|e]]; cbn in *; [|by exists cs].
  destruct (Hf a s') as (cs' & Hcs' & E'). exists (cs ++ cs').
  split; [by apply Forall_app|]. by rewrite exec_calls_app, E', E.
Qed.

Lemma by_try_pass {A} (m : EM A) : by_calls P m -> by_calls P (try_pass m).
Proof. intros Hm s. unfold try_pass. specialize (Hm s). by destruct (m s). Qed.

Lemma by_try_finally {A} (m : EM A) f :
  by_calls P m -> by_calls P f -> by_calls P (try_finally m f).
Proof.
  intros Hm Hf s. unfold try_finally. destruct (Hm s) as (cs & Hcs & E).
  destruct (m s) as [s' r]; cbn in *. destruct (Hf s') as (cs' & Hcs' & E').
  exists (cs ++ cs'). split; [by apply Forall_app|]. rewrite exec_calls_app, <- E, <- E'.
  by destruct (f s') as [s'' [u|e]].
Qed.

Lemma by_for_each {A} (l : list A) (f : A -> EM unit) :
  (forall x, by_calls P (f x)) -> by_calls P (for_each l f).
Proof.
  intros Hf. induction l as [|x l IH]; cbn; [apply by_ret|]. by apply by_bind.
Qed.

(** A read of the store. *)
Lemma by_read {A} (f : RunStore -> A) : by_calls P (on_runs (gets f)).
Proof. by apply by_nothing. Qed.

(** A write that is one call. *)
Lemma by_call {A} (m : M RunStore A) c :
  (forall t, fst (m t) = exec_call c t) -> P c -> by_calls P (on_runs m).
Proof.
  intros Hm Hc s. exists [c]. split; [by repeat constructor|]. cbn. rewrite <- Hm.
  unfold runs_of, on_runs, on_store, zoom. by destruct (m (es_store (sys_store s))).
Qed.
End ByCalls.

(** What the engine may do to the store while it drives run [rid]: the five
    kinds of call, never creating or cancelling a run, never touching a gate
    step, a token's use or a decision. *)
Definition engine_call (rid : string) (c : store_call) : Prop :=
  match c with
  | CUpdateStatus _ r st _ _ => r = rid /\ st ∈ [RUNNING; SUCCEEDED; AWAITING_APPROVAL; PARKED]
  | CSetCurrentStep _ r _ => r = rid
  | CUpdateStep st => is_gate (st_step st) = false
  | CCreateGate g => gr_status g = GPending /\ gr_run_id g = rid
  | CSaveToken t => tok_used_at t = None /\ tok_run_id t = rid
  | _ => False
  end.

Abbreviation by_engine rid := (by_calls (engine_call rid)).

Lemma by_update_status rid st err :
  st ∈ [RUNNING; SUCCEEDED; AWAITING_APPROVAL; PARKED] -> by_engine rid (update_status rid st err).
Proof.
  intros Hst. apply by_bind; [apply by_get_now|]. intros now.
  by apply by_call with (c := CUpdateStatus now rid st None err).
Qed.

Lemma by_set_current rid step : by_engine rid (set_current rid step).
Proof.
  apply by_bind; [apply by_get_now|]. intros now.
  by apply by_call with (c := CSetCurrentStep now rid step).
Qed.

Lemma by_update_step rid st :
  is_gate (st_step st) = false -> by_engine rid (on_runs (update_step st)).
Proof. intros Hg. by apply by_call with (c := CUpdateStep st). Qed.

Lemma by_audit rid action r inputs outputs : by_engine rid (engine_audit action r inputs outputs).
Proof.
  unfold engine_audit. destruct audit_fn; [|apply by_ret]. apply by_try_pass, by_on_world.
Qed.

Lemma by_reload rid r : by_engine rid (reload r).
Proof. apply by_bind; [apply by_read|]. intros. apply by_lift_res. Qed.

Lemma on_gate_sys_ok {A} (m : M (sys RunStore W) A) s s' a :
  on_gate_sys m s = (s', Ok a) ->
  exists g', m (mk_sys (runs_of s) (sys_world s) (sys_ticks s) (sys_uuids s)) = (g', Ok a) /\
    runs_of s' = sys_store g'.
Proof.
  unfold on_gate_sys, zoom, runs_of. destruct (m _) as [g' r]. intros [= <- ->]. by exists g'.
Qed.

Lemma on_gate_sys_runs {A} (m : M (sys RunStore W) A) s :
  store_const m -> runs_of (fst (on_gate_sys m s)) = runs_of s.
Proof.
  intros Hm. unfold on_gate_sys, zoom, runs_of.
  specialize (Hm (mk_sys (es_store (sys_store s)) (sys_world s) (sys_ticks s) (sys_uuids s))).
  by destruct (m _).
Qed.

Lemma issue_token_const gid rid step channel key ttl :
  store_const (issue_token (W := W) (Key := Key) clock uuids sign sha256_hex json_dumps_sorted
                 gid rid step channel key ttl).
Proof. unfold issue_token. repeat (apply const_bind; [auto with cam|intros]). auto with cam. Qed.

Lemma by_issue_gate_token rid gate ttl channel :
  gr_run_id gate = rid -> by_engine rid (issue_gate_token gate ttl channel).
Proof.
  intros Hg s. unfold issue_gate_token, bind.
  pose proof (on_gate_sys_runs _ s (issue_token_const (gr_id gate) (gr_run_id gate)
                (gr_step gate) channel signing_key ttl)) as Hc.
  destruct (on_gate_sys _ s) as [s1 [[raw tok]|e]] eqn:E; cbn [fst] in Hc; [|by exists []].
  apply on_gate_sys_ok in E as (g' & E & _).
  apply issue_token_ok in E as (_ & _ & _ & _ & ->).
  exists [CSaveToken (mk_ApprovalToken (tok_id tok) (gr_id gate) (gr_run_id gate) (gr_step gate)
            KEY_ID (sha256_hex raw) channel (tok_expires_at tok) None)].
  split; [by repeat constructor|]. cbn. by rewrite <- Hc.
Qed.

Lemma by_handle_gate rid run st cfg :
  run_id run = rid -> by_engine rid (handle_gate run st cfg).
Proof.
  intros Hr. unfold handle_gate. apply by_bind; [apply by_uuid4|]. intros gid.
  apply by_bind; [apply by_get_now|]. intros now s. unfold bind at 1, lift_res.
  unfold make_gate, res_bind, or_raise. destruct (dt_add _ _) as [exp|]; [|by exists []].
  destruct (forallb _ _); [|by exists []]. rewrite Hr. revert s.
  match goal with |- context [create_gate_request ?g] =>
    apply (by_bind _ (on_runs (create_gate_request g)));
      [by apply by_call with (c := CCreateGate g)|] end.
  intros _. apply by_bind; [apply by_for_each; intros; by apply by_issue_gate_token|].
  intros _. apply by_bind; [apply by_update_status; in_list|]. intros _. apply by_audit.
Qed.

Lemma by_park rid err comps : by_engine rid (park rid err comps).
Proof.
  apply by_bind; [apply by_for_each; intros; apply by_try_pass, by_on_world|]. intros _.
  apply by_bind; [apply by_update_status; in_list|]. intros _. apply by_audit.
Qed.

Lemma by_attempt_step rid defn st ctx : by_engine rid (attempt_step defn st ctx).
Proof.
  apply by_bind; [apply by_lift_res|]. intros h. apply by_bind.
  { apply by_nothing. intros s. unfold call_handler. by destruct (h _) as [[w c] r]. }
  intros oc. apply by_bind; [apply by_on_idem|]. intros _.
  apply by_bind; [apply by_on_idem|]. intros _. apply by_ret.
Qed.

Lemma by_complete_step rid st output :
  is_gate (st_step st) = false -> by_engine rid (complete_step rid st output).
Proof.
  intros Hg. apply by_bind; [by apply by_update_step|]. intros _.
  apply by_bind; [apply by_audit|]. intros _. apply by_set_current.
Qed.

Lemma by_fail_step again rid st e comps :
  by_engine rid again -> is_gate (st_step st) = false ->
  by_engine rid (fail_step again rid st e comps).
Proof.
  intros Ha Hg. unfold fail_step. apply by_bind; [apply by_get_now|]. intros now.
  apply by_bind; [by apply by_update_step|]. intros _. case_match.
  - apply by_bind; [by apply by_update_step|]. by intros _.
  - apply by_bind; [apply by_park|]. intros _. apply by_reload.
Qed.

(** Sequencing inside the step's [try]. *)
Lemma calls_then {A} P s s1 (m : EM A) :
  (exists cs, Forall P cs /\ runs_of s1 = exec_calls cs (runs_of s)) -> by_calls P m ->
  exists cs, Forall P cs /\ runs_of (fst (m s1)) = exec_calls cs (runs_of s).
Proof.
  intros (cs & Hcs & E) Hm. destruct (Hm s1) as (cs' & Hcs' & E'). exists (cs ++ cs').
  split; [by apply Forall_app|]. by rewrite exec_calls_app, E', E.
Qed.

Lemma by_run_steps again rid run defn steps outputs comps :
  by_engine rid again -> run_id run = rid ->
  by_engine rid (run_steps again rid run defn steps outputs comps).
Proof.
  intros Ha Hr. revert outputs comps. induction steps as [|st steps IH]; intros outputs comps; cbn [run_steps].
  - apply by_bind; [apply by_update_status; in_list|]. intros _.
    apply by_bind; [apply by_audit|]. intros _. apply by_reload.
  - destruct (step_done (st_status st)); [apply IH|].
    destruct (is_gate (st_step st)) eqn:Hg.
    { apply by_bind; [by apply by_handle_gate|]. intros _. apply by_reload. }
    apply by_bind; [apply by_on_idem|]. intros [o|].
    { apply by_bind; [apply by_set_current|]. intros _. apply IH. }
    apply by_bind; [apply by_get_now|]. intros now.
    apply by_bind; [by apply by_update_step|]. intros _ s.
    match goal with |- context [attempt_step ?d ?t ?c s] =>
      pose proof (by_attempt_step rid d t c s) as H1; destruct (attempt_step d t c s) as [s1 r1] end.
    cbn [fst] in H1. destruct r1 as [[output nc]|e];
      [|apply (calls_then _ s s1); [done|by apply by_fail_step]].
    cbn [get_now].
    match goal with |- context [complete_step rid ?t output ?s2] =>
      pose proof (by_complete_step rid t output Hg s2) as H2;
      destruct (complete_step rid t output s2) as [s3 r3] end.
    cbn [fst] in H2.
    assert (exists cs, Forall (engine_call rid) cs /\ runs_of s3 = exec_calls cs (runs_of s)) as H3.
    { destruct H1 as (cs1 & Hc1 & E1), H2 as (cs2 & Hc2 & E2). exists (cs1 ++ cs2).
      split; [by apply Forall_app|]. rewrite exec_calls_app, <- E1. exact E2. }
    destruct r3 as [[]|e]; apply (calls_then _ s s3); [done|apply IH|done|by apply by_fail_step].
Qed.

Lemma load_run_ok rid s s' run :
  load_run rid s = (s', Ok run) -> runs_of s' = runs_of s /\ dget rid (rs_runs (runs_of s)) = Some run.
Proof.
  unfold load_run, bind, on_runs, on_store, zoom, get_run, gets, lift_res. cbn.
  unfold runs_of. destruct (dget rid _) as [r|]; cbn; [|done]. intros [= <- <-]. done.
Qed.

Lemma by_load_run rid r : by_engine rid (load_run r).
Proof. apply by_bind; [apply by_read|]. intros. apply by_lift_res. Qed.

Lemma by_start_queued rid run : by_engine rid (start_queued rid run).
Proof.
  unfold start_queued. case_match; [|apply by_ret].
  apply by_bind; [apply by_update_status; in_list|]. intros _.
  apply by_bind; [apply by_read|]. intros. apply by_lift_res.
Qed.

(** The run [start_queued] hands on is the stored one. *)
Lemma start_queued_run rid run s s' run' :
  store_wf (runs_of s) -> run_id run = rid ->
  start_queued rid run s = (s', Ok run') -> run_id run' = rid.
Proof.
  intros Hwf Hr. pose proof (by_start_queued rid run s) as (cs & Hcs & E).
  unfold start_queued in *. case_match; [|by intros [= _ <-]].
  destruct (bind _ _ s) as [s1 r1] eqn:Eb. intros [= -> ->].
  cbn [fst] in E. apply bind_ok in Eb as (s2 & u & E1 & E2).
  apply bind_ok in E2 as (s3 & o & E2 & E3). unfold lift_res in E3. injection E3 as -> E3.
  destruct o as [run2|]; [|done]. injection E3 as ->.
  apply on_store_eq in E2. unfold zoom, get_run, gets in E2. injection E2 as E2 E2'.
  assert (runs_of s' = es_store (sys_store s2)) as Hs2 by (unfold runs_of; by rewrite <- E2).
  rewrite <- Hs2, E in E2'. by apply wf_run_id in E2'; [|apply exec_calls_wf].
Qed.

Lemma execute_locked_calls again rid s :
  store_wf (runs_of s) -> by_engine rid again ->
  exists cs, Forall (engine_call rid) cs /\
    runs_of (fst (execute_locked again rid s)) = exec_calls cs (runs_of s).
Proof.
  intros Hwf Ha. unfold execute_locked, bind at 1.
  destruct (load_run rid s) as [s1 [run|e]] eqn:E1.
  2: { pose proof (by_load_run rid rid s) as H. by rewrite E1 in H. }
  apply load_run_ok in E1 as [Hs1 Hrun]. apply wf_run_id in Hrun; [|done]. rewrite <- Hs1 in *.
  unfold bind at 1. pose proof (by_start_queued rid run s1) as H2.
  destruct (start_queued rid run s1) as [s2 [run2|e]] eqn:E2; [|done].
  apply start_queued_run in E2; [|done|done].
  apply (calls_then _ s1 s2); [done|].
  apply by_bind; [apply by_lift_res|]. intros defn.
  apply by_bind; [apply by_read|]. intros steps. by apply by_run_steps.
Qed.

(** ** No retry ever re-executes

    After [update_step] has stored the failed copy, the reset to [PENDING] is
    an illegal transition, so the recursive call is never reached. *)

Lemma update_first_found {A} (p : A -> bool) (x : A) l y :
  find_first p l = Some y -> p x = true -> find_first p (update_first p (fun _ => x) l) = Some x.
Proof.
  intros Hf Hx. induction l as [|z l IH]; cbn in *; [done|].
  destruct (p z) eqn:E; cbn; [by rewrite Hx|]. rewrite E. auto.
Qed.

Lemma update_step_stored st t t' u :
  update_step st t = (t', Ok u) ->
  find_first (step_named (st_step st)) (steps_of (st_run_id st) t') = Some st.
Proof.
  unfold update_step. destruct (find_first _ _) as [old|] eqn:E; [|done].
  destruct (is_legal_step_transition _ _); [|done]. intros [= <- _].
  unfold put_steps, steps_of in *. destruct (dget (st_run_id st) (rs_steps t)) as [l|] eqn:G; [|done].
  cbn. rewrite dget_dset_eq. eapply update_first_found; [exact E|].
  unfold step_named. apply String.eqb_refl.
Qed.

Lemma update_step_failed_pending st t :
  st_status st = SFAILED ->
  find_first (step_named (st_step st)) (steps_of (st_run_id st) t) = Some st ->
  update_step (step_pending st) t =
    (t, Err (IllegalTransitionError ("Step " +:+ st_step st) "failed" "pending")).
Proof. intros Hf E. unfold update_step. cbn. by rewrite E, Hf. Qed.

Lemma on_runs_eq {A} (m : M RunStore A) s s' r :
  on_runs m s = (s', r) -> m (runs_of s) = (runs_of s', r).
Proof.
  unfold on_runs, on_store, zoom, runs_of. destruct (m (es_store (sys_store s))) as [t r'] eqn:E.
  by intros [= <- <-].
Qed.

Definition put_runs (t : RunStore) (s : sys (EngStore I R) W) : sys (EngStore I R) W :=
  mk_sys (mk_EngStore t (es_idem (sys_store s)) (es_redis (sys_store s)))
    (sys_world s) (sys_ticks s) (sys_uuids s).

Lemma on_runs_run {A} (m : M RunStore A) s t r :
  m (runs_of s) = (t, r) -> on_runs m s = (put_runs t s, r).
Proof. unfold on_runs, on_store, zoom, runs_of. by intros ->. Qed.

Lemma bind_on_runs {A B} (m : M RunStore A) (f : A -> EM B) s t a :
  m (runs_of s) = (t, Ok a) -> bind (on_runs m) f s = f a (put_runs t s).
Proof. intros E. unfold bind. by rewrite (on_runs_run _ _ _ _ E). Qed.

Lemma fail_step_again again again' rid st e comps s :
  fail_step again rid st e comps s = fail_step again' rid st e comps s.
Proof.
  unfold fail_step. apply bind_cong. intros s0 now _. apply bind_cong. intros s1 u E1.
  case_match; [|done]. apply on_runs_eq, update_step_stored in E1. unfold bind.
  pose proof (update_step_failed_pending
    (step_failed now (classify_error e (st_attempt st)) st) (runs_of s1) eq_refl E1) as Hp.
  by rewrite (on_runs_run _ _ _ _ Hp).
Qed.

Lemma run_steps_again again again' rid run defn steps outputs comps s :
  run_steps again rid run defn steps outputs comps s =
  run_steps again' rid run defn steps outputs comps s.
Proof.
  revert outputs comps s. induction steps as [|st steps IH]; intros outputs comps s;
    cbn [run_steps]; [done|].
  destruct (step_done _); [apply IH|]. destruct (is_gate _); [done|].
  apply bind_cong. intros s1 [o|] _; [apply bind_cong; intros; apply IH|].
  apply bind_cong. intros s2 now _. apply bind_cong. intros s3 u _.
  destruct (attempt_step _ _ _ s3) as [s4 [[output nc]|e]]; [|apply fail_step_again].
  cbn [get_now]. destruct (complete_step _ _ _ _) as [s5 [u'|e]]; [apply IH|apply fail_step_again].
Qed.

Lemma execute_locked_again again again' rid s :
  execute_locked again rid s = execute_locked again' rid s.
Proof.
  unfold execute_locked. repeat (apply bind_cong; intros ? ? _). apply run_steps_again.
Qed.

Lemma execute_with_again again again' rid s : execute_with again rid s = execute_with again' rid s.
Proof.
  unfold execute_with. apply bind_cong. intros s1 [|] _; [|done].
  unfold try_finally. by rewrite (execute_locked_again again again').
Qed.

Lemma execute_once fuel again rid s : execute fuel rid s = execute_with again rid s.
Proof. destruct fuel; apply execute_with_again. Qed.

Lemma on_redis_runs {A} (m : M R A) s : runs_of (fst (on_redis m s)) = runs_of s.
Proof. unfold on_redis, on_store, zoom, runs_of. by destruct (m _). Qed.

Lemma execute_with_calls again rid s :
  store_wf (runs_of s) -> by_engine rid again ->
  exists cs, Forall (engine_call rid) cs /\
    runs_of (fst (execute_with again rid s)) = exec_calls cs (runs_of s).
Proof.
  intros Hwf Ha. unfold execute_with, bind.
  pose proof (on_redis_runs (acquire run_lock rid) s) as Hs1.
  destruct (on_redis (acquire run_lock rid) s) as [s1 [[]|e]]; cbn [fst] in Hs1;
    rewrite <- Hs1 in *; [|apply by_load_run|by exists []].
  unfold try_finally. pose proof (execute_locked_calls again rid s1 Hwf Ha) as H.
  destruct (execute_locked again rid s1) as [s2 r2]. cbn [fst] in H.
  pose proof (on_redis_runs (release run_lock rid) s2) as Hs3.
  destruct (on_redis (release run_lock rid) s2) as [s3 [u|e]]; cbn [fst] in *; by rewrite Hs3.
Qed.
End Engine.
