(* ===== verification/EngineSpec.v ===== *)
(** * EngineSpec: what core/orchestrator/engine.py promises

    Properties of the engine: fuel is never consumed, what the engine may write,
    gates as barriers, the resume invariant, parking with compensations in
    reverse, and a refinement: on a run of plain steps whose handlers all
    return, [execute] implements the sequential program [spec_steps]. *)

From Stdlib Require Import ZArith Lia Ascii String List.
From stdpp Require Import base list strings.
From S2P Require Import Prelude PyTime ConnErrors Effects States RunStore Dsl Idem Gates Engine.

Open Scope string_scope.
Open Scope list_scope.
Open Scope Z_scope.
Open Scope cam_scope.

Section EngineSpec.
Context {W Key I R : Type} {IO : IdemOps I} {IL : IdemLaws I} {RO : RedisOps R}.
Context (clock : nat -> datetime) (uuids : nat -> string).
Context (sign : Key -> string -> string) (sha256_hex : string -> string).
Context (json_dumps_sorted : json -> string).
Context (str_of_exn : exn -> string).
Context (reg : registry W) (audit_fn : option (AuditEvent -> M W unit)).
Context (signing_key : Key) (run_lock : RunLock).

Abbreviation exec := (execute (I := I) (R := R) clock uuids sign sha256_hex json_dumps_sorted
                        str_of_exn reg audit_fn signing_key run_lock).
Abbreviation exec_locked := (execute_locked (I := I) (R := R) clock uuids sign sha256_hex
                        json_dumps_sorted str_of_exn reg audit_fn signing_key).
Abbreviation loop := (run_steps (I := I) (R := R) clock uuids sign sha256_hex json_dumps_sorted
                        str_of_exn audit_fn signing_key).
Abbreviation fail := (fail_step (I := I) (R := R) clock str_of_exn audit_fn).
Abbreviation est := (sys (EngStore I R) W).

(** ** What the engine may write *)

Lemma engine_call_wf rid cs s : Forall (engine_call rid) cs -> store_wf s -> store_wf (exec_calls cs s).
Proof. intros _. apply exec_calls_wf. Qed.

Definition gate_steps (rid : string) (s : RunStore) : list StepState :=
  bfilter (fun st => is_gate (st_step st)) (steps_of rid s).

Lemma update_first_gates st l :
  is_gate (st_step st) = false ->
  bfilter (fun st => is_gate (st_step st)) (update_first (step_named (st_step st)) (fun _ => st) l) =
  bfilter (fun st => is_gate (st_step st)) l.
Proof.
  intros Hg. induction l as [|x l IH]; cbn; [done|].
  unfold step_named at 1. destruct (String.eqb_spec (st_step x) (st_step st)) as [E|E]; cbn.
  - by rewrite E, Hg.
  - by rewrite IH.
Qed.

Lemma steps_of_put rid rid' l s :
  steps_of rid' (put_steps rid l s) =
    if decide (rid' = rid) then match dget rid (rs_steps s) with Some _ => l | None => [] end
    else steps_of rid' s.
Proof.
  unfold put_steps, steps_of. destruct (dget rid (rs_steps s)) eqn:E.
  - cbn. rewrite dget_dset. by case_decide.
  - case_decide; [by subst; rewrite E|done].
Qed.

(** What one call of the engine leaves alone. *)
Record untouched (rid : string) (s s' : RunStore) : Prop := mk_untouched {
  ut_gates : forall r, gate_steps r s' = gate_steps r s;
  ut_runs : forall r, r <> rid -> dget r (rs_runs s') = dget r (rs_runs s);
  ut_decisions : rs_decisions s' = rs_decisions s;
  ut_dedupe : rs_dedupe s' = rs_dedupe s;
  ut_status : status_of rid s' <> status_of rid s ->
    exists st, status_of rid s' = Some st /\ st ∈ [RUNNING; SUCCEEDED; AWAITING_APPROVAL; PARKED] }.

Lemma untouched_refl rid s : untouched rid s s.
Proof. by split. Qed.

Lemma untouched_trans rid s1 s2 s3 : untouched rid s1 s2 -> untouched rid s2 s3 -> untouched rid s1 s3.
Proof.
  intros [G1 R1 D1 E1 S1] [G2 R2 D2 E2 S2]. split.
  - intros r. by rewrite G2.
  - intros r Hr. rewrite R2 by done. by apply R1.
  - congruence.
  - congruence.
  - intros Hne. destruct (decide (status_of rid s3 = status_of rid s2)) as [Heq|Hne'].
    + rewrite Heq in *. by apply S1.
    + by apply S2.
Qed.

Lemma engine_call_untouched rid c s : engine_call rid c -> untouched rid s (exec_call c s).
Proof.
  destruct c; cbn [engine_call]; try done.
  - intros [-> Hin]. cbn. unfold update_run_status.
    destruct (dget rid (rs_runs s)) as [run|] eqn:E; [|apply untouched_refl].
    destruct (is_legal_run_transition _ _); [|apply untouched_refl]. split; cbn; try done.
    + intros r Hr. by apply dget_dset_ne.
    + intros _. exists status. split; [|done]. unfold status_of. cbn. by rewrite dget_dset_eq.
  - intros ->. cbn. unfold set_current_step.
    destruct (dget rid (rs_runs s)) as [run|] eqn:E; [|apply untouched_refl].
    split; cbn; try done.
    + intros r Hr. by apply dget_dset_ne.
    + intros Hne. exfalso. apply Hne. unfold status_of. cbn. by rewrite dget_dset_eq, E.
  - intros Hg. cbn. unfold update_step.
    destruct (find_first _ _) as [old|]; [|apply untouched_refl].
    destruct (is_legal_step_transition _ _); [|apply untouched_refl]. cbn. split.
    + intros r. unfold gate_steps. rewrite steps_of_put. case_decide; [|done]. subst r.
      destruct (dget _ (rs_steps s)) eqn:E; [by rewrite update_first_gates|].
      unfold steps_of. by rewrite E.
    + intros r _. unfold put_steps. by destruct (dget _ (rs_steps s)).
    + unfold put_steps. by destruct (dget _ (rs_steps s)).
    + unfold put_steps. by destruct (dget _ (rs_steps s)).
    + intros Hne. by rewrite put_steps_status in Hne.
Qed.

Lemma engine_calls_untouched rid cs s :
  Forall (engine_call rid) cs -> untouched rid s (exec_calls cs s).
Proof.
  intros H. revert s. induction H as [|c cs Hc Hcs IH]; intros s; [apply untouched_refl|].
  eapply untouched_trans; [by apply engine_call_untouched|apply IH].
Qed.

(** The engine stays in its lane.  Driving run [rid], whether it returns or
    raises, the engine writes the store only through legal store calls that
    keep the store well formed; it records no decision, starts no run, touches
    no other run, moves [rid] only to running, succeeded, awaiting-approval or
    parked, and leaves every gate step of every run exactly as it was, so only
    a resolution can let a run past its gate. *)
Lemma engine_confined fuel rid (s : est) :
  store_wf (runs_of s) ->
  let s' := fst (exec fuel rid s) in
  (exists cs, Forall (engine_call rid) cs /\ runs_of s' = exec_calls cs (runs_of s)) /\
  store_wf (runs_of s') /\ untouched rid (runs_of s) (runs_of s').
Proof.
  intros Hwf s'.
  assert (exists cs, Forall (engine_call rid) cs /\ runs_of s' = exec_calls cs (runs_of s)) as Hcs.
  { subst s'. rewrite (execute_once _ _ _ _ _ _ _ _ _ _ fuel (raise AssertionError)).
    apply execute_with_calls; [done|apply by_raise]. }
  destruct Hcs as (cs & Hcs & E). split; [by exists cs|]. rewrite E.
  split; [by apply exec_calls_wf|by apply engine_calls_untouched].
Qed.

(** [execute] terminates without recursion.  The reset of a failed step to
    pending is refused by the store, so the recursive [execute] of the retry
    path is never reached: with any fuel, [execute] is the single pass whose
    recursive call is replaced by any other computation. *)
Lemma execute_single_pass fuel again rid (s : est) :
  exec fuel rid s =
  execute_with clock uuids sign sha256_hex json_dumps_sorted str_of_exn reg audit_fn signing_key
    run_lock again rid s.
Proof. destruct fuel; apply execute_with_again. Qed.

(** A gate is a barrier.  A gate step that is not done stops the pass:
    nothing after it in the workflow is looked at, whatever comes before. *)
Lemma gate_barrier again rid run defn pre g post outputs comps (s : est) :
  is_gate (st_step g) = true -> step_done (st_status g) = false ->
  loop again rid run defn (pre ++ g :: post) outputs comps s =
  loop again rid run defn (pre ++ [g]) outputs comps s.
Proof.
  intros Hg Hd. revert outputs comps s. induction pre as [|st pre IH]; intros outputs comps s;
    cbn [app run_steps].
  - by rewrite Hd, Hg.
  - destruct (step_done (st_status st)); [apply IH|]. destruct (is_gate (st_step st)); [done|].
    apply bind_cong. intros s1 [o|] _; [apply bind_cong; intros; apply IH|].
    apply bind_cong. intros s2 now _. apply bind_cong. intros s3 u _.
    destruct (attempt_step _ _ _ s3) as [s4 [[output nc]|e]]; [|done].
    cbn [get_now]. destruct (complete_step _ _ _ _ _ _) as [s5 [u'|e]]; [apply IH|done].
Qed.

(** ** Idempotent resume *)

Definition recorded_output (s : est) (key : string) : option jdict :=
  recorded (es_idem (sys_store s)) key.

Lemma on_idem_eq {A} (m : M I A) (s s' : est) r :
  on_idem m s = (s', r) ->
  m (es_idem (sys_store s)) = (es_idem (sys_store s'), r) /\ runs_of s' = runs_of s /\
  sys_world s' = sys_world s.
Proof.
  unfold on_idem, on_store, zoom, runs_of. destruct (m (es_idem (sys_store s))) as [t r'] eqn:E.
  by intros [= <- <-].
Qed.

(** The resume invariant.  When a step's handler has returned a non-empty
    output the engine has recorded it under the step's idempotency key; and a
    pass that finds an output recorded for a step does not call the step's
    handler: world and run store are untouched up to the marker
    [set_current_step], and the loop goes on with the recorded output. *)
Lemma recorded_step_not_reexecuted again rid run defn st rest outputs comps (s : est) :
  (forall ctx s1 output nc, attempt_step defn st ctx s = (s1, Ok (output, nc)) -> storable output -> output <> [] ->
     recorded_output s1 (st_idem_key st) = Some output) /\
  (forall o, step_done (st_status st) = false -> is_gate (st_step st) = false ->
     recorded_output s (st_idem_key st) = Some o ->
     is_ok (snd (lookup_output (st_idem_key st) (es_idem (sys_store s)))) = true ->
     exists s1, sys_world s1 = sys_world s /\ runs_of s1 = runs_of s /\
       (forall k, recorded_output s1 k = recorded_output s k) /\
       loop again rid run defn (st :: rest) outputs comps s =
       bind (set_current clock rid (st_step st)) (fun _ =>
         loop again rid run defn rest (set_output (st_step st) o outputs) comps) s1).
Proof.
  split.
  - intros ctx s1 output nc H Hsto Hne. unfold attempt_step in H.
    inv_bind H. inv_bind H. inv_bind H. inv_bind H. unfold ret in H.
    set (out := match fst a0 with Some o => o | None => [] end) in *.
    injection H as <- Ho _. apply on_idem_eq in Hb2 as (Hr & _). destruct a2.
    apply record_recorded in Hr as [Hr _]. unfold recorded_output. subst output. by apply Hr.
  - intros o Hd Hg Hrec Hok. cbn [run_steps]. rewrite Hd, Hg. unfold bind at 1.
    destruct (on_idem (lookup_output (st_idem_key st)) s) as [s1 r] eqn:E.
    apply on_idem_eq in E as (El & Hs1 & Hw). rewrite El in Hok. destruct r as [v|e]; [|done].
    pose proof (lookup_val (st_idem_key st) (es_idem (sys_store s)) v) as Hv.
    rewrite El in Hv. specialize (Hv eq_refl). unfold recorded_output in Hrec.
    rewrite Hrec in Hv. subst v. exists s1. do 2 (split; [done|]). split; [|done].
    intros k. unfold recorded_output.
    pose proof (lookup_recorded (st_idem_key st) (es_idem (sys_store s)) k) as Hl.
    by rewrite El in Hl.
Qed.

(** ** Failed steps *)

(** The store holds the step with this run and name in status [sts]. *)
Definition stored_step (s : RunStore) (st : StepState) (sts : StepStatus) : Prop :=
  exists old, find_first (step_named (st_step st)) (steps_of (st_run_id st) s) = Some old /\
    st_status old = sts.

Lemma update_step_legal st s old :
  find_first (step_named (st_step st)) (steps_of (st_run_id st) s) = Some old ->
  is_legal_step_transition (st_status old) (st_status st) = true ->
  exists s', update_step st s = (s', Ok tt) /\
    find_first (step_named (st_step st)) (steps_of (st_run_id st) s') = Some st /\
    rs_runs s' = rs_runs s.
Proof.
  intros Hf Hl. unfold update_step. rewrite Hf, Hl. eexists. split; [done|]. split.
  - apply (update_step_stored st s _ tt). unfold update_step. by rewrite Hf, Hl.
  - unfold put_steps. by destruct (dget _ (rs_steps s)).
Qed.

Definition is_retry (st : StepState) (e : exn) : bool :=
  se_retryable (classify_error str_of_exn e (st_attempt st)) && (st_attempt st + 1 <? MAX_ATTEMPTS).

(** The failed copy of a running step is stored, whatever follows. *)
Lemma store_failed st err now (s : est) :
  stored_step (runs_of s) st SRUNNING ->
  exists t, update_step (step_failed now err st) (runs_of s) = (t, Ok tt) /\
    find_first (step_named (st_step st)) (steps_of (st_run_id st) t) =
      Some (step_failed now err st) /\
    rs_runs t = rs_runs (runs_of s).
Proof.
  intros (old & Hf & Hold).
  apply (update_step_legal (step_failed now err st) (runs_of s) old Hf). by rewrite Hold.
Qed.

(** A retryable error does not retry.  With attempts left, the [except]
    block stores the step as failed, then raises [IllegalTransitionError] when
    it resets the step to pending: no compensation runs, no run changes status
    (it stays running, never parked), and the step stays failed. *)
Lemma retry_raises again rid st e comps (s : est) :
  stored_step (runs_of s) st SRUNNING -> is_retry st e = true ->
  exists s', fail again rid st e comps s =
      (s', Err (IllegalTransitionError ("Step " +:+ st_step st) "failed" "pending")) /\
    stored_step (runs_of s') st SFAILED /\ sys_world s' = sys_world s /\
    rs_runs (runs_of s') = rs_runs (runs_of s).
Proof.
  intros Hst Hretry. unfold fail_step. rewrite bind_get_now.
  set (now := clock (sys_ticks s)). set (err := classify_error str_of_exn e (st_attempt st)).
  destruct (store_failed st err now (tick s) Hst) as (t & Eu & Ef & Er).
  rewrite (bind_on_runs _ _ _ _ _ Eu). unfold is_retry in Hretry. fold err in Hretry.
  cbn [step_failed st_attempt]. rewrite Hretry. unfold bind.
  pose proof (update_step_failed_pending (step_failed now err st) t eq_refl Ef) as Ep.
  rewrite (on_runs_run _ (put_runs t (tick s)) _ _ Ep).
  eexists. split; [done|]. split; [|done]. by exists (step_failed now err st).
Qed.

(** The world after the compensations: each registered hook once, in reverse
    order of registration, failures ignored. *)
Definition compensated (comps : list (Compensation W)) (w : W) : W :=
  fold_left (fun w fn => fst (fn w)) (rev comps) w.

Definition audited (ev : AuditEvent) (w : W) : W :=
  match audit_fn with Some f => fst (f ev w) | None => w end.

Lemma run_compensations_run comps (s : est) :
  run_compensations comps s = (set_world (compensated comps (sys_world s)) s, Ok tt).
Proof.
  unfold run_compensations, compensated. revert s. induction (rev comps) as [|fn l IH]; intros s; cbn.
  - by destruct s.
  - unfold bind, try_pass, on_world, zoom. destruct (fn (sys_world s)) as [w r]. cbn. by rewrite IH.
Qed.

Lemma engine_audit_run action rid inputs outputs (s : est) :
  engine_audit audit_fn action rid inputs outputs s =
  (set_world (audited (mk_AuditEvent "workflow_engine" action inputs outputs (Some rid)) (sys_world s)) s,
   Ok tt).
Proof.
  unfold engine_audit, audited. destruct audit_fn as [f|]; [|by destruct s].
  unfold try_pass, on_world, zoom. by destruct (f _ _).
Qed.

(** C38: parking.  When a step fails for good (a fatal error or its last
    attempt) in a running run, the step is stored as failed with the classified
    error, every compensation registered so far runs exactly once in reverse
    order, the run is parked with that error as [last_error], one audit record
    is written, and the parked run is returned. *)
Theorem failure_parks again rid st e comps (s : est) run :
  stored_step (runs_of s) st SRUNNING -> is_retry st e = false ->
  dget rid (rs_runs (runs_of s)) = Some run -> run_status run = RUNNING ->
  let err := classify_error str_of_exn e (st_attempt st) in
  exists s' run', fail again rid st e comps s = (s', Ok run') /\
    stored_step (runs_of s') st SFAILED /\
    run_status run' = PARKED /\ run_last_error run' = Some err /\ run_id run' = run_id run /\
    dget rid (rs_runs (runs_of s')) = Some run' /\
    sys_world s' = audited (mk_AuditEvent "workflow_engine" "run.parked"
        [("error", error_json err)] [] (Some rid)) (compensated comps (sys_world s)).
Proof.
  intros Hst Hretry Hrun Hrs err. unfold fail_step. rewrite bind_get_now. fold err.
  set (now := clock (sys_ticks s)).
  destruct (store_failed st err now (tick s) Hst) as (t & Eu & Ef & Er).
  rewrite (bind_on_runs _ _ _ _ _ Eu). unfold is_retry in Hretry. fold err in Hretry.
  cbn [step_failed st_attempt]. rewrite Hretry.
  unfold park. set (s1 := put_runs t (tick s)).
  assert (forall {A} (m1 m2 : EM (W:=W) (I:=I) (R:=R) unit) (f : unit -> EM A) s,
    bind (m1 ;; m2) f s = bind m1 (fun _ => bind m2 f) s) as Hassoc.
  { intros A m1 m2 f s'. unfold bind. by destruct (m1 s') as [? [|]]. }
  rewrite Hassoc, (bind_ok_eq _ _ _ _ _ (run_compensations_run comps s1)).
  rewrite Hassoc. unfold update_status at 1. unfold bind at 1. rewrite bind_get_now.
  set (s2 := tick (set_world _ s1)). set (now2 := clock _).
  assert (update_run_status now2 rid PARKED None (Some err) (runs_of s2) =
    (set_runs (dset rid (with_status now2 PARKED None (Some err) run) (rs_runs t)) t, Ok tt)) as Eus.
  { unfold update_run_status. change (runs_of s2) with t. change (runs_of (tick s)) with (runs_of s) in Er.
    by rewrite Er, Hrun, Hrs. }
  rewrite (on_runs_run _ _ _ _ Eus). rewrite (bind_ok_eq _ _ _ _ _ (engine_audit_run _ _ _ _ _)).
  eexists _, (with_status now2 PARKED None (Some err) run). split.
  { unfold reload, bind. cbn. by rewrite dget_dset_eq. }
  split; [by exists (step_failed now err st)|]. do 3 (split; [done|]).
  split; [cbn; by rewrite dget_dset_eq|done].
Qed.

(** ** Refinement of a sequential specification *)

(** The specification: call the handlers one after the other, each on the
    outputs of those before it; [None] when a handler is missing or raises. *)
Fixpoint spec_steps (defn : WorkflowDef W) (rid : string) (context : jdict)
    (steps : list StepState) (outputs : jdict) (w : W) : option (W * jdict) :=
  match steps with
  | [] => Some (w, outputs)
  | st :: rest =>
      match dget (st_step st) (wd_handlers defn) with
      | None => None
      | Some h =>
          match h (w, new_context rid context outputs (st_idem_key st)) with
          | ((w', _), Ok o) =>
              let output := match o with Some o => o | None => [] end in
              spec_steps defn rid context rest (set_output (st_step st) output outputs)
                (audited (mk_AuditEvent "workflow_engine" "step.succeeded"
                            [("step", JStr (st_step st))] output (Some rid)) w')
          | (_, Err _) => None
          end
      end
  end.

(** A step of the specification, done: succeeded at the next attempt with an
    output. *)
Definition step_result (st st' : StepState) : Prop :=
  st_step st' = st_step st /\ st_status st' = SSUCCEEDED /\ st_attempt st' = st_attempt st + 1 /\
  exists output, st_output st' = Some output.

(** Steps that have not been touched: what [start_run] creates. *)
Definition fresh_step (rid : string) (s : est) (st : StepState) : Prop :=
  st_run_id st = rid /\ st_status st = SPENDING /\ is_gate (st_step st) = false /\
  recorded_output s (st_idem_key st) = None.

(** The loop's invariant with [donel] behind it and [rest] ahead. *)
Record loop_inv (rid : string) (donel rest : list StepState) (s : est) : Prop := mk_loop_inv {
  li_steps : dget rid (rs_steps (runs_of s)) = Some (donel ++ rest);
  li_status : status_of rid (runs_of s) = Some RUNNING;
  li_names : NoDup (map st_step (donel ++ rest));
  li_keys : NoDup (map st_idem_key rest);
  li_fresh : Forall (fresh_step rid s) rest }.

Lemma first_mid {A} (p : A -> bool) l x r :
  Forall (fun y => p y = false) l -> p x = true -> find_first p (l ++ x :: r) = Some x.
Proof. induction 1 as [|y l Hy Hl IH]; intros Hx; cbn; [by rewrite Hx|]. rewrite Hy. auto. Qed.

Lemma update_mid {A} (p : A -> bool) f l x r :
  Forall (fun y => p y = false) l -> p x = true -> update_first p f (l ++ x :: r) = l ++ f x :: r.
Proof. induction 1 as [|y l Hy Hl IH]; intros Hx; cbn; [by rewrite Hx|]. rewrite Hy, IH; done. Qed.

Lemma names_before donel st rest :
  NoDup (map st_step (donel ++ st :: rest)) ->
  Forall (fun y => step_named (st_step st) y = false) donel.
Proof.
  intros Hn. apply List.Forall_forall. intros y Hy. unfold step_named. apply String.eqb_neq.
  intros Heq. rewrite map_app in Hn. apply NoDup_app in Hn as (_ & Hd & _).
  apply (Hd (st_step y)).
  - apply list_elem_of_In, in_map, Hy.
  - rewrite Heq. left.
Qed.

Lemma update_step_mid rid donel old rest st t :
  dget rid (rs_steps t) = Some (donel ++ old :: rest) ->
  Forall (fun y => step_named (st_step old) y = false) donel ->
  st_run_id st = rid -> st_step st = st_step old ->
  is_legal_step_transition (st_status old) (st_status st) = true ->
  update_step st t = (set_steps (dset rid (donel ++ st :: rest) (rs_steps t)) t, Ok tt).
Proof.
  intros Hg Hn Hr Hs Hl. unfold update_step, put_steps, steps_of. rewrite Hr, Hs, Hg.
  assert (step_named (st_step old) old = true) as Ho by apply String.eqb_refl.
  rewrite (first_mid _ _ _ _ Hn Ho), Hl, (update_mid _ _ _ _ _ Hn Ho). done.
Qed.

Context {IT : IdemTotal I}.

Lemma lookup_none key (s : est) :
  recorded_output s key = None ->
  exists s1, on_idem (lookup_output key) s = (s1, Ok None) /\ runs_of s1 = runs_of s /\
    sys_world s1 = sys_world s /\ (forall k, recorded_output s1 k = recorded_output s k).
Proof.
  intros Hn. destruct (lookup_total key (es_idem (sys_store s))) as (i & v & E).
  unfold recorded_output in *.
  pose proof (lookup_val key (es_idem (sys_store s)) v) as Hv. rewrite E in Hv.
  specialize (Hv eq_refl). rewrite Hn in Hv. subst v.
  unfold on_idem, on_store, zoom. rewrite E. eexists. split; [done|]. do 2 (split; [done|]).
  intros k. pose proof (lookup_recorded key (es_idem (sys_store s)) k) as Hl. by rewrite E in Hl.
Qed.

Lemma record_both key output (s : est) :
  exists s1, (on_idem (reserve key) ;; on_idem (record_output key output)) s = (s1, Ok tt) /\
    runs_of s1 = runs_of s /\ sys_world s1 = sys_world s /\
    (forall k, k <> key -> recorded_output s1 k = recorded_output s k).
Proof.
  destruct (reserve_total key (es_idem (sys_store s))) as (i1 & b & E1).
  destruct (record_total key output i1) as (i2 & E2).
  unfold bind, on_idem, on_store, zoom, recorded_output, runs_of. cbn. rewrite E1. cbn. rewrite E2.
  eexists. split; [done|]. do 2 (split; [done|]). intros k Hk. cbn.
  destruct (record_recorded key output i1 i2 E2) as [_ Hr]. rewrite (Hr k Hk).
  pose proof (reserve_recorded key (es_idem (sys_store s)) k) as Hl. by rewrite E1 in Hl.
Qed.

(** What one handler call does, when it returns. *)
Lemma attempt_step_run defn st ctx (s : est) h w' ctx' o :
  dget (st_step st) (wd_handlers defn) = Some h ->
  h (sys_world s, ctx) = ((w', ctx'), Ok o) ->
  exists s1, attempt_step defn st ctx s =
      (s1, Ok (match o with Some o => o | None => [] end, ctx_compensations ctx')) /\
    runs_of s1 = runs_of s /\ sys_world s1 = w' /\
    (forall k, k <> st_idem_key st -> recorded_output s1 k = recorded_output s k).
Proof.
  intros Hh Hc. unfold attempt_step. rewrite Hh. unfold bind at 1. cbn [lift_res or_raise].
  unfold bind at 1, call_handler. rewrite Hc. cbn [fst snd].
  set (output := match o with Some o => o | None => [] end).
  destruct (record_both (st_idem_key st) output (set_world w' s)) as (s1 & E & Hr & Hw & Hrec).
  exists s1. split; [|done]. unfold bind in *. destruct (on_idem (reserve _) _) as [s2 [b|e]]; [|done].
  destruct (on_idem (record_output _ _) s2) as [s3 [[]|e]]; [|done]. by injection E as ->.
Qed.

(** The succeeded copy is stored, audited, and marked as current. *)
Lemma complete_step_run rid donel old rest st output (s : est) :
  dget rid (rs_steps (runs_of s)) = Some (donel ++ old :: rest) ->
  Forall (fun y => step_named (st_step old) y = false) donel ->
  st_run_id st = rid -> st_step st = st_step old ->
  is_legal_step_transition (st_status old) (st_status st) = true ->
  status_of rid (runs_of s) = Some RUNNING ->
  exists s1, complete_step clock audit_fn rid st output s = (s1, Ok tt) /\
    dget rid (rs_steps (runs_of s1)) = Some (donel ++ st :: rest) /\
    status_of rid (runs_of s1) = Some RUNNING /\
    (forall k, recorded_output s1 k = recorded_output s k) /\
    sys_world s1 = audited (mk_AuditEvent "workflow_engine" "step.succeeded"
        [("step", JStr (st_step st))] output (Some rid)) (sys_world s).
Proof.
  intros Hg Hn Hr Hs Hl Hst. unfold complete_step.
  rewrite (bind_on_runs _ _ _ _ _ (update_step_mid rid donel old rest st _ Hg Hn Hr Hs Hl)).
  rewrite (bind_ok_eq _ _ _ _ _ (engine_audit_run _ _ _ _ _)). unfold set_current.
  rewrite bind_get_now. unfold status_of in Hst.
  destruct (dget rid (rs_runs (runs_of s))) as [run|] eqn:Erun; [|done]. injection Hst as Hst.
  erewrite on_runs_run by (unfold set_current_step; cbn; by rewrite Erun).
  eexists. split; [done|]. cbn. split; [apply dget_dset_eq|].
  split; [|done]. unfold status_of. cbn. rewrite dget_dset_eq. cbn. by rewrite Hst.
Qed.

(** The end of the loop: every step is done. *)
Lemma loop_end again rid run defn outputs comps (s : est) :
  status_of rid (runs_of s) = Some RUNNING ->
  exists s' run', loop again rid run defn [] outputs comps s = (s', Ok run') /\
    run_status run' = SUCCEEDED /\ steps_of rid (runs_of s') = steps_of rid (runs_of s) /\
    dget rid (rs_runs (runs_of s')) = Some run' /\
    sys_world s' = audited (mk_AuditEvent "workflow_engine" "run.succeeded" [] [] (Some rid))
                     (sys_world s).
Proof.
  intros Hst. unfold status_of in Hst.
  destruct (dget rid (rs_runs (runs_of s))) as [r|] eqn:Er; [|done]. injection Hst as Hst.
  cbn [run_steps]. unfold update_status, bind at 1. rewrite bind_get_now.
  erewrite on_runs_run by (unfold update_run_status; change (runs_of (tick s)) with (runs_of s);
    by rewrite Er, Hst).
  rewrite (bind_ok_eq _ _ _ _ _ (engine_audit_run _ _ _ _ _)). unfold reload, bind. cbn.
  rewrite dget_dset_eq. cbn. eexists _, _. split; [done|]. split; [done|]. split; [done|].
  split; [apply dget_dset_eq|done].
Qed.

Lemma fresh_other rid (s s1 : est) st rest :
  ~ st_idem_key st ∈ map st_idem_key rest ->
  (forall k, k <> st_idem_key st -> recorded_output s1 k = recorded_output s k) ->
  Forall (fresh_step rid s) rest -> Forall (fresh_step rid s1) rest.
Proof.
  intros Hni Hrec Hf. apply List.Forall_forall. intros x Hx.
  destruct (proj1 (List.Forall_forall _ _) Hf x Hx) as (H1 & H2 & H3 & H4).
  do 3 (split; [done|]). rewrite Hrec; [done|]. intros Heq. apply Hni. rewrite <- Heq.
  by apply list_elem_of_In, in_map.
Qed.

(** One turn of the loop on a fresh step whose handler returns. *)
Lemma loop_turn again rid run defn donel st rest outputs comps (s : est) h w' ctx' o :
  loop_inv rid donel (st :: rest) s ->
  dget (st_step st) (wd_handlers defn) = Some h ->
  h (sys_world s, new_context rid (run_context run) outputs (st_idem_key st)) = ((w', ctx'), Ok o) ->
  let output := match o with Some o => o | None => [] end in
  exists s1 st1 comps1, loop again rid run defn (st :: rest) outputs comps s =
      loop again rid run defn rest (set_output (st_step st) output outputs) comps1 s1 /\
    loop_inv rid (donel ++ [st1]) rest s1 /\ step_result st st1 /\
    sys_world s1 = audited (mk_AuditEvent "workflow_engine" "step.succeeded"
        [("step", JStr (st_step st))] output (Some rid)) w'.
Proof.
  intros [Hsteps Hstat Hnames Hkeys Hfresh] Hh Hc output.
  apply Forall_cons in Hfresh as [(Hrid & Hpend & Hg & Hrec) Hfresh].
  pose proof (names_before _ _ _ Hnames) as Hb.
  cbn [run_steps]. rewrite Hpend, Hg. cbn [step_done].
  destruct (lookup_none (st_idem_key st) s Hrec) as (s1 & E1 & Hr1 & Hw1 & Hrec1).
  rewrite (bind_ok_eq _ _ _ _ _ E1), bind_get_now. set (now := clock (sys_ticks s1)).
  change (runs_of s1) with (runs_of (tick s1)) in Hr1. rewrite <- Hr1 in Hsteps.
  assert (is_legal_step_transition (st_status st) SRUNNING = true) as Hl1 by (by rewrite Hpend).
  rewrite (bind_on_runs _ _ _ _ _
    (update_step_mid rid donel st rest (step_running now st) _ Hsteps Hb Hrid eq_refl Hl1)).
  set (s2 := put_runs _ (tick s1)). rewrite <- Hw1 in Hc.
  destruct (attempt_step_run defn (step_running now st)
    (new_context rid (run_context run) outputs (st_idem_key st)) s2 h w' ctx' o Hh Hc)
    as (s3 & E3 & Hr3 & Hw3 & Hrec3).
  cbn [step_running st_idem_key] in E3 |- *. rewrite E3. cbn [get_now].
  set (now3 := clock (sys_ticks s3)). set (st1 := step_succeeded now3 _ _).
  assert (dget rid (rs_steps (runs_of (tick s3))) = Some (donel ++ step_running now st :: rest)) as Hs3.
  { change (runs_of (tick s3)) with (runs_of s3). rewrite Hr3. cbn. apply dget_dset_eq. }
  assert (status_of rid (runs_of (tick s3)) = Some RUNNING) as Hst3.
  { change (runs_of (tick s3)) with (runs_of s3). rewrite Hr3. unfold s2.
    change (status_of rid (runs_of (tick s1)) = Some RUNNING). by rewrite Hr1. }
  destruct (complete_step_run rid donel (step_running now st) rest st1 output (tick s3) Hs3 Hb Hrid
    eq_refl eq_refl Hst3) as (s4 & E4 & Hs4 & Hst4 & Hrec4 & Hw4).
  cbn [step_running st_idem_key] in E4. fold output. fold output in st1.
  rewrite E4. eexists s4, st1, _. split; [done|].
  apply NoDup_cons in Hkeys as [Hni Hkeys]. split; [split|].
  - by rewrite <- app_assoc.
  - done.
  - rewrite <- app_assoc. rewrite !map_app in *. done.
  - done.
  - eapply (fresh_other rid s s4 st); [done| |done]. intros k Hk.
    rewrite Hrec4. change (recorded_output (tick s3) k) with (recorded_output s3 k).
    rewrite Hrec3 by done. apply Hrec1.
  - split; [repeat split; by exists output|]. rewrite Hw4.
    change (sys_world (tick s3)) with (sys_world s3). by rewrite Hw3.
Qed.

Lemma loop_refines again rid run defn rest donel outputs comps (s : est) w' outputs' :
  loop_inv rid donel rest s ->
  spec_steps defn rid (run_context run) rest outputs (sys_world s) = Some (w', outputs') ->
  exists s' run' done', loop again rid run defn rest outputs comps s = (s', Ok run') /\
    run_status run' = SUCCEEDED /\ dget rid (rs_runs (runs_of s')) = Some run' /\
    steps_of rid (runs_of s') = donel ++ done' /\ Forall2 step_result rest done' /\
    sys_world s' = audited (mk_AuditEvent "workflow_engine" "run.succeeded" [] [] (Some rid)) w'.
Proof.
  revert donel outputs comps s. induction rest as [|st rest IH]; intros donel outputs comps s Hinv Hspec.
  - destruct Hinv as [Hs Hst _ _ _]. cbn in Hspec. injection Hspec as <- <-.
    destruct (loop_end again rid run defn outputs comps s Hst) as (s' & run' & E & H1 & H2 & H3 & H4).
    exists s', run', []. do 3 (split; [done|]). split; [|done].
    rewrite H2. unfold steps_of. by rewrite Hs.
  - cbn [spec_steps] in Hspec. destruct (dget (st_step st) (wd_handlers defn)) as [h|] eqn:Hh; [|done].
    destruct (h _) as [[w1 ctx1] [o|e]] eqn:Hc; [|done].
    destruct (loop_turn again rid run defn donel st rest outputs comps s h w1 ctx1 o Hinv Hh Hc)
      as (s1 & st1 & comps1 & E & Hinv1 & Hres & Hw1).
    rewrite <- Hw1 in Hspec.
    destruct (IH _ _ comps1 s1 Hinv1 Hspec) as (s' & run' & done' & E' & H1 & H2 & H3 & H4 & H5).
    exists s', run', (st1 :: done'). rewrite E. do 3 (split; [done|]).
    split; [by rewrite H3, <- app_assoc|]. split; [by constructor|done].
Qed.

Lemma start_queued_spec rid run (s : est) :
  dget rid (rs_runs (runs_of s)) = Some run -> run_status run = QUEUED ->
  exists now, let run' := with_status now RUNNING None None run in
    start_queued clock rid run s =
      (put_runs (set_runs (dset rid run' (rs_runs (runs_of s))) (runs_of s)) (tick s), Ok run').
Proof.
  intros Hr Hq. exists (clock (sys_ticks s)). unfold start_queued.
  rewrite bool_decide_true by done. unfold update_status, bind at 1. rewrite bind_get_now.
  erewrite on_runs_run by (unfold update_run_status; change (runs_of (tick s)) with (runs_of s);
    by rewrite Hr, Hq).
  unfold bind. cbn. by rewrite dget_dset_eq.
Qed.

(** C1: the engine refines its sequential specification.  On a queued run of
    fresh plain steps with distinct names and keys, in single-worker mode, when
    the specification runs all handlers of the latest definition to their end,
    [execute] (with any fuel) returns the run [SUCCEEDED]: the world is exactly
    what calling each handler once, in declaration order, each on the outputs
    of those before it, gives (with the audit records in between), and every
    step is stored as succeeded with an output. *)
Theorem engine_refines_spec fuel rid run steps defn (s : est) w' outputs' :
  lock_has_redis run_lock = false ->
  dget rid (rs_runs (runs_of s)) = Some run -> run_status run = QUEUED ->
  dget rid (rs_steps (runs_of s)) = Some steps ->
  Forall (fresh_step rid s) steps -> Forall (fun st => st_output st = None) steps ->
  NoDup (map st_step steps) -> NoDup (map st_idem_key steps) ->
  get_workflow_latest reg (run_workflow run) = Ok defn ->
  spec_steps defn rid (run_context run) steps [] (sys_world s) = Some (w', outputs') ->
  exists s' run', exec fuel rid s = (s', Ok run') /\ run_status run' = SUCCEEDED /\
    dget rid (rs_runs (runs_of s')) = Some run' /\
    Forall2 step_result steps (steps_of rid (runs_of s')) /\
    sys_world s' = audited (mk_AuditEvent "workflow_engine" "run.succeeded" [] [] (Some rid)) w'.
Proof.
  intros Hlock Hrun Hq Hsteps Hfresh Hout Hnames Hkeys Hdef Hspec.
  rewrite (execute_once _ _ _ _ _ _ _ _ _ _ fuel (raise AssertionError)).
  unfold execute_with, acquire, release. rewrite Hlock.
  rewrite (bind_ok_eq _ _ _ s true) by (unfold on_redis, on_store, zoom; by destruct s as [[] ? ? ?]).
  unfold try_finally, execute_locked.
  rewrite (bind_ok_eq _ _ s s run) by (unfold load_run, bind, on_runs, on_store, zoom, get_run, gets;
    destruct s as [[] ? ? ?]; cbn in *; by rewrite Hrun).
  destruct (start_queued_spec rid run s Hrun Hq) as (now & E). rewrite (bind_ok_eq _ _ _ _ _ E).
  set (run1 := with_status now RUNNING None None run) in *. set (s1 := put_runs _ (tick s)) in *.
  cbn [run1 with_status run_workflow]. rewrite Hdef. unfold bind at 1. cbn [lift_res].
  assert (steps_of rid (runs_of s1) = steps) as Hs1 by (unfold steps_of; cbn; by rewrite Hsteps).
  rewrite (bind_on_runs _ _ s1 (runs_of s1) steps) by (unfold get_steps, gets; by rewrite Hs1).
  assert (initial_outputs steps = []) as ->.
  { clear -Hout. unfold initial_outputs. induction Hout as [|st l Hst Hl IH]; cbn; [done|].
    by rewrite Hst. }
  set (s2 := put_runs (runs_of s1) s1).
  assert (loop_inv rid [] steps s2) as Hinv.
  { split; [exact Hsteps| |exact Hnames|exact Hkeys|exact Hfresh].
    unfold status_of. cbn. by rewrite dget_dset_eq. }
  destruct (loop_refines (raise AssertionError) rid run1 defn steps [] [] [] s2 w' outputs' Hinv Hspec)
    as (s' & run' & done' & E' & H1 & H2 & H3 & H4 & H5).
  fold s2. rewrite E'. cbn in H3. eexists (put_runs (runs_of s') s'), run'.
  split; [unfold on_redis, on_store, zoom; by destruct s' as [[] ? ? ?]|].
  cbn. rewrite H3. done.
Qed.
End EngineSpec.

(** ** A concrete engine

    The world is a log of handler calls.  Workflow [intake] has two plain steps,
    [gated] a step, a gate and another step; handler [flaky] fails with a
    transient error and [broken] with a fatal one. *)

Definition log_handler (name : string) : Handler (list string) := fun wc =>
  ((wc.1 ++ [name], compensate (modify (fun w => w ++ ["undo " +:+ name])) wc.2),
   Ok (Some [("by", JStr name)])).

Definition failing_handler (c : connector_class) : Handler (list string) := fun wc =>
  (wc, Err (ConnectorExn (mk_ConnectorError c "crm" "down" None))).

Definition ex_attr (step : string) : option (attribute (W := list string)) :=
  if String.eqb step "flaky" then Some (AsyncMethod (failing_handler TransientError))
  else if String.eqb step "broken" then Some (AsyncMethod (failing_handler FatalError))
  else Some (AsyncMethod (log_handler step)).

Definition ex_class (steps : list string) : WorkflowClass (list string) :=
  mk_WorkflowClass steps [] ex_attr.

Definition ex_register (name : string) (steps : list string) (r : registry (list string)) :=
  fst (workflow name 1 None (ex_class steps) r).

Definition ex_reg : registry (list string) :=
  ex_register "intake" ["parse"; "notify"]
    (ex_register "gated" ["parse"; "GATE:review"; "notify"]
       (ex_register "shaky" ["parse"; "flaky"] (ex_register "doomed" ["parse"; "broken"] []))).

Definition ex_step (rid name : string) (seq : Z) : StepState :=
  mk_StepState rid name seq SPENDING 0 (rid +:+ ":" +:+ name) None None None None None.

Definition ex_steps (rid : string) (names : list string) : list StepState :=
  map (fun n => ex_step rid n 0) names.

Definition ex_queued (rid workflow : string) : WorkflowRun :=
  mk_WorkflowRun rid workflow 1 QUEUED None (mk_TriggerRef "event" "webhook" None) []
    ex_now ex_now None.

Definition ex_engine_sys (wf : string) (names : list string)
    : sys (EngStore idem_mem redis_mem) (list string) :=
  mk_sys (mk_EngStore (exec_call (CCreateRun (ex_queued "r1" wf) (ex_steps "r1" names))
                         empty_run_store) [] []) [] 0 0.

Abbreviation ex_execute := (execute (I := idem_mem) (R := redis_mem) ex_clock ex_uuids ex_sign
  ex_hash ex_dumps exn_name ex_reg None tt (mk_RunLock true 300)).

Abbreviation ex_loop := (run_steps (I := idem_mem) (R := redis_mem) ex_clock ex_uuids ex_sign
  ex_hash ex_dumps exn_name None tt).

Definition ex_def (name : string) : WorkflowDef (list string) :=
  match get_workflow_latest ex_reg name with
  | Ok d => d
  | Err _ => mk_WorkflowDef "" 0 [] [] [] None
  end.

(** What a run of the engine leaves: result status or error, log, step statuses. *)
Definition ex_outcome (r : sys (EngStore idem_mem redis_mem) (list string) * res WorkflowRun) :=
  (match snd r with Ok run => inl (run_status run) | Err e => inr (exn_name e) end,
   sys_world (fst r), status_of "r1" (runs_of (fst r)),
   map st_status (steps_of "r1" (runs_of (fst r)))).

Example ex_intake_runs :
  ex_outcome (ex_execute 0 "r1" (ex_engine_sys "intake" ["parse"; "notify"])) =
  (inl SUCCEEDED, ["parse"; "notify"], Some SUCCEEDED, [SSUCCEEDED; SSUCCEEDED]).
Proof. vm_compute. reflexivity. Qed.

Example ex_gated_runs :
  ex_outcome (ex_execute 0 "r1" (ex_engine_sys "gated" ["parse"; "GATE:review"; "notify"])) =
  (inl AWAITING_APPROVAL, ["parse"], Some AWAITING_APPROVAL, [SSUCCEEDED; SPENDING; SPENDING]).
Proof. vm_compute. reflexivity. Qed.

Example ex_shaky_raises :
  ex_outcome (ex_execute 7 "r1" (ex_engine_sys "shaky" ["parse"; "flaky"])) =
  (inr "IllegalTransitionError", ["parse"], Some RUNNING, [SSUCCEEDED; SFAILED]).
Proof. vm_compute. reflexivity. Qed.

Example ex_doomed_parks :
  ex_outcome (ex_execute 0 "r1" (ex_engine_sys "doomed" ["parse"; "broken"])) =
  (inl PARKED, ["parse"; "undo parse"], Some PARKED, [SSUCCEEDED; SFAILED]).
Proof. vm_compute. reflexivity. Qed.

Lemma ex_engine_wf wf names : store_wf (runs_of (ex_engine_sys wf names)).
Proof. apply exec_call_wf, empty_store_wf. Qed.

Lemma engine_confined_witness :
  let s := ex_engine_sys "gated" ["parse"; "GATE:review"; "notify"] in
  gate_steps "r1" (runs_of (fst (ex_execute 0 "r1" s))) = gate_steps "r1" (runs_of s).
Proof.
  apply (engine_confined ex_clock ex_uuids ex_sign ex_hash ex_dumps exn_name ex_reg None tt
           (mk_RunLock true 300) 0 "r1"
           (ex_engine_sys "gated" ["parse"; "GATE:review"; "notify"])).
  apply ex_engine_wf.
Defined.

Lemma gate_barrier_witness :
  let s := ex_engine_sys "gated" ["parse"; "GATE:review"; "notify"] in
  ex_loop (raise AssertionError) "r1" (ex_queued "r1" "gated") (ex_def "gated")
    (ex_steps "r1" ["parse"; "GATE:review"; "notify"]) [] [] s =
  ex_loop (raise AssertionError) "r1" (ex_queued "r1" "gated") (ex_def "gated")
    (ex_steps "r1" ["parse"; "GATE:review"]) [] [] s.
Proof.
  apply (gate_barrier ex_clock ex_uuids ex_sign ex_hash ex_dumps exn_name None tt
           (raise AssertionError) "r1" (ex_queued "r1" "gated") (ex_def "gated")
           [ex_step "r1" "parse" 0] (ex_step "r1" "GATE:review" 0) [ex_step "r1" "notify" 0]);
    reflexivity.
Defined.

(** An idempotency store in which [parse] has been recorded. *)
Definition ex_recorded_sys : sys (EngStore idem_mem redis_mem) (list string) :=
  mk_sys (mk_EngStore (runs_of (ex_engine_sys "intake" ["parse"; "notify"]))
            [("r1:parse", [("by", JStr "earlier")])] []) [] 0 0.

Lemma recorded_step_not_reexecuted_witness :
  recorded_output ex_recorded_sys "r1:parse" = Some [("by", JStr "earlier")] /\
  exists s1, sys_world s1 = [] /\
    ex_loop (raise AssertionError) "r1" (ex_queued "r1" "intake") (ex_def "intake")
      [ex_step "r1" "parse" 0] [] [] ex_recorded_sys =
    bind (set_current ex_clock "r1" "parse") (fun _ =>
      ex_loop (raise AssertionError) "r1" (ex_queued "r1" "intake") (ex_def "intake") []
        (set_output "parse" [("by", JStr "earlier")] []) []) s1.
Proof.
  split; [reflexivity|].
  destruct (recorded_step_not_reexecuted ex_clock ex_uuids ex_sign ex_hash ex_dumps exn_name None tt
              (raise AssertionError) "r1" (ex_queued "r1" "intake") (ex_def "intake")
              (ex_step "r1" "parse" 0) [] [] [] ex_recorded_sys) as [_ H].
  destruct (H [("by", JStr "earlier")]) as (s1 & Hw & _ & _ & E); [reflexivity..|].
  exists s1. split; [exact Hw|exact E].
Defined.

(** The store while step [name] of run [r1] is running. *)
Definition ex_running_sys (name : string) : sys (EngStore idem_mem redis_mem) (list string) :=
  mk_sys (mk_EngStore (exec_calls [CCreateRun (ex_queued "r1" "shaky") [ex_step "r1" name 0];
                                   CUpdateStatus ex_now "r1" RUNNING None None;
                                   CUpdateStep (step_running ex_now (ex_step "r1" name 0))]
                         empty_run_store) [] []) [] 0 0.

Definition ex_error (c : connector_class) : exn := ConnectorExn (mk_ConnectorError c "crm" "down" None).

Definition ex_running_run : WorkflowRun := with_status ex_now RUNNING None None (ex_queued "r1" "shaky").

Lemma retry_raises_witness :
  exists s', fail_step ex_clock exn_name None (raise AssertionError) "r1" (ex_step "r1" "flaky" 0)
      (ex_error TransientError) [] (ex_running_sys "flaky") =
    (s', Err (IllegalTransitionError "Step flaky" "failed" "pending")).
Proof.
  destruct (retry_raises ex_clock exn_name None (raise AssertionError) "r1" (ex_step "r1" "flaky" 0)
    (ex_error TransientError) [] (ex_running_sys "flaky")) as (s' & E & _);
    [by eexists|reflexivity|]. exists s'. exact E.
Defined.

Lemma failure_parks_witness :
  exists s' run', fail_step ex_clock exn_name None (raise AssertionError) "r1"
      (ex_step "r1" "broken" 0) (ex_error FatalError) [] (ex_running_sys "broken") = (s', Ok run') /\
    run_status run' = PARKED.
Proof.
  destruct (failure_parks ex_clock exn_name None (raise AssertionError) "r1" (ex_step "r1" "broken" 0)
    (ex_error FatalError) [] (ex_running_sys "broken") ex_running_run)
    as (s' & run' & E & _ & Hp & _); [by eexists|reflexivity..|].
  exists s', run'. exact (conj E Hp).
Defined.

Lemma engine_refines_spec_witness :
  let s := mk_sys (sys_store (ex_engine_sys "intake" ["parse"; "notify"])) [] 0 0 in
  exists s' run', execute (R := redis_mem) ex_clock ex_uuids ex_sign ex_hash ex_dumps exn_name ex_reg
      None tt (mk_RunLock false 300) 0 "r1" s = (s', Ok run') /\ run_status run' = SUCCEEDED /\
    sys_world s' = ["parse"; "notify"].
Proof.
  destruct (engine_refines_spec ex_clock ex_uuids ex_sign ex_hash ex_dumps exn_name ex_reg None tt
    (mk_RunLock false 300) 0 "r1" (ex_queued "r1" "intake") (ex_steps "r1" ["parse"; "notify"])
    (ex_def "intake") (ex_engine_sys "intake" ["parse"; "notify"]) ["parse"; "notify"]
    [("parse", JDict [("by", JStr "parse")]); ("notify", JDict [("by", JStr "notify")])])
    as (s' & run' & E & Hs & _ & _ & Hw);
    [reflexivity | reflexivity | reflexivity | reflexivity | by repeat constructor
    | by repeat constructor | apply NoDup_ListNoDup; repeat constructor; simpl; intuition discriminate
    | apply NoDup_ListNoDup; repeat constructor; simpl; intuition discriminate
    | reflexivity | reflexivity |].
  exists s', run'. exact (conj E (conj Hs Hw)).
Defined.
