(* ===== verification/Triggers.v ===== *)
(** * Triggers: core/orchestrator/triggers.py and core/orchestrator/recovery.py

    [start_run], where every trigger path (webhook event, schedule, agent) ends:
    validate, pin the latest version, fan out one pending step per workflow step
    and create the run idempotently on its dedupe key.  [recovery_sweep]
    re-enqueues queued and running runs after a crash. *)

From Stdlib Require Import ZArith Lia Ascii String List Sorted.
From stdpp Require Import base list strings pretty.
From S2P Require Import Prelude PyTime ConnErrors Effects States RunStore Dsl Idem Gates Engine.

Open Scope string_scope.
Open Scope list_scope.
Open Scope Z_scope.
Open Scope cam_scope.

Definition make_event_trigger (event_id source : string) : TriggerRef :=
  mk_TriggerRef "event" source (Some event_id).

Definition make_schedule_trigger (schedule_id : string) : TriggerRef :=
  mk_TriggerRef "schedule" schedule_id None.

Definition make_agent_trigger (agent : string) (idem_key : option string) : TriggerRef :=
  mk_TriggerRef "agent" agent idem_key.

(** [if dedupe_key: trigger.model_copy(update={"dedupe_key": dedupe_key})] *)
Definition keyed_trigger (idem_key : option string) (t : TriggerRef) : TriggerRef :=
  let dedupe_key := opt_or idem_key (tr_dedupe_key t) in
  if opt_truthy dedupe_key then mk_TriggerRef (tr_kind t) (tr_source t) dedupe_key else t.

Definition step_key (rid step : string) : string := rid +:+ ":" +:+ step.

Definition pending_step (rid step : string) (idx : Z) : StepState :=
  mk_StepState rid step idx SPENDING 0 (step_key rid step) None None None None None.

(** [enumerate(defn.steps)] *)
Fixpoint fan_out (rid : string) (steps : list string) (idx : Z) : list StepState :=
  match steps with
  | [] => []
  | step :: steps' => pending_step rid step idx :: fan_out rid steps' (idx + 1)
  end.

Definition queued_run (rid name : string) (version : Z) (t : TriggerRef) (context : jdict)
    (now : datetime) : WorkflowRun :=
  mk_WorkflowRun rid name version QUEUED None t context now now None.

Section StartRun.
Context {W : Type} (clock : nat -> datetime) (uuids : nat -> string) (reg : registry W).

Definition start_run (name : string) (context : jdict) (trigger : TriggerRef)
    (idem_key run_id : option string) : M (sys RunStore W) WorkflowRun :=
  let! defn := lift_res (get_workflow_latest reg name) in
  lift_res (validate_context defn context) ;;
  let! now := get_now clock in
  let! rid := match run_id with
              | Some r => if str_truthy r then ret r else uuid4 uuids
              | None => uuid4 uuids
              end in
  on_store (create_run
    (queued_run rid name (wd_version defn) (keyed_trigger idem_key trigger) context now)
    (fan_out rid (wd_steps defn) 0)).

Lemma fan_out_names rid steps idx : map st_step (fan_out rid steps idx) = steps.
Proof. revert idx. induction steps as [|x l IH]; intros idx; cbn; [done|]. by rewrite IH. Qed.

(** The steps a run is created with are its own, in ascending order, as
    [PgRefine.new_run_ok] asks. *)
Lemma fan_out_ordered rid steps idx :
  Forall (fun st => st_run_id st = rid) (fan_out rid steps idx) /\
  StronglySorted (fun a b => st_seq a < st_seq b) (fan_out rid steps idx).
Proof.
  assert (Hge : forall steps idx, Forall (fun st => idx <= st_seq st) (fan_out rid steps idx)).
  { clear. induction steps as [|x steps IH]; intros idx; constructor; [done|].
    eapply Forall_impl; [apply IH|]. intros st Hst. cbn in Hst. lia. }
  revert idx. induction steps as [|x steps IH]; intros idx; [by repeat constructor|].
  destruct (IH (idx + 1)) as [H1 H2]. split; constructor; try done.
  eapply Forall_impl; [apply (Hge steps (idx + 1))|]. intros st Hst. cbn in *. lia.
Qed.

Lemma fan_out_length rid steps idx : length (fan_out rid steps idx) = length steps.
Proof. revert idx. induction steps as [|x l IH]; intros idx; cbn; [done|]. by rewrite IH. Qed.

Lemma fan_out_lookup rid steps idx i st :
  fan_out rid steps idx !! i = Some st ->
  exists name, steps !! i = Some name /\ st = pending_step rid name (idx + Z.of_nat i).
Proof.
  revert idx i. induction steps as [|x l IH]; intros idx i; cbn; [by destruct i|].
  destruct i as [|i]; cbn.
  - intros [= <-]. exists x. split; [done|]. f_equal. lia.
  - intros H. destruct (IH _ _ H) as (n & Hn & ->). exists n. split; [done|]. f_equal. lia.
Qed.

Lemma step_key_inj rid a b : step_key rid a = step_key rid b -> a = b.
Proof.
  unfold step_key. induction rid as [|c r IH]; simpl; intros H; [by simplify_eq|].
  apply IH. by simplify_eq.
Qed.

Lemma fan_out_keys rid steps idx : map st_idem_key (fan_out rid steps idx) = map (step_key rid) steps.
Proof. revert idx. induction steps as [|x l IH]; intros idx; cbn; [done|]. by rewrite IH. Qed.

(** The run a successful [start_run] asks the store to create. *)
Lemma start_run_create name context trigger idem_key run_id s s' r :
  start_run name context trigger idem_key run_id s = (s', Ok r) ->
  exists defn rid now, get_workflow_latest reg name = Ok defn /\
    validate_context defn context = Ok tt /\
    (match run_id with Some x => if str_truthy x then rid = x else exists n, rid = uuids n
                     | None => exists n, rid = uuids n end) /\
    create_run (queued_run rid name (wd_version defn) (keyed_trigger idem_key trigger) context now)
      (fan_out rid (wd_steps defn) 0) (sys_store s) = (sys_store s', Ok r).
Proof.
  unfold start_run. intros H. inv_bind H. inv_bind H. inv_bind H. inv_bind H.
  unfold lift_res in Hb, Hb0. injection Hb as <- Hd. injection Hb0 as <- Hv.
  injection Hb1 as <- <-. apply on_store_eq in H. rename a into defn, a2 into rid.
  exists defn, rid, (clock (sys_ticks s)). split; [done|]. split; [by destruct a0|].
  destruct run_id as [x|]; [destruct (str_truthy x)|]; injection Hb2 as <- <-; cbn in H; eauto.
Qed.

(** A first start: the key is new, so the run and its steps are stored. *)
Lemma create_run_fresh run steps s s' r :
  (match truthy_key run with Some k => dget k (rs_dedupe s) = None | None => True end) ->
  create_run run steps s = (s', Ok r) ->
  r = run /\ dget (run_id run) (rs_runs s') = Some run /\
  steps_of (run_id run) s' = steps.
Proof.
  unfold create_run. intros Hk H.
  assert (insert_run run steps s = s' /\ run = r) as [<- <-].
  { destruct (truthy_key run) as [k|]; [rewrite Hk in H|]; by injection H as -> ->. }
  split; [done|]. split; [apply insert_run_get|].
  unfold steps_of, insert_run. destruct (truthy_key run); cbn; by rewrite dget_dset_eq.
Qed.

Lemma truthy_queued rid name v trigger idem_key context now :
  truthy_key (queued_run rid name v (keyed_trigger idem_key trigger) context now) =
  let k := opt_or idem_key (tr_dedupe_key trigger) in if opt_truthy k then k else None.
Proof.
  unfold truthy_key, queued_run, keyed_trigger, opt_or. cbn.
  destruct (opt_truthy idem_key) eqn:E; cbn.
  - rewrite E. cbn. destruct idem_key as [k|]; cbn in *; [by rewrite E|done].
  - destruct (opt_truthy (tr_dedupe_key trigger)) eqn:E2; cbn;
      destruct (tr_dedupe_key trigger) as [k|]; cbn in *; rewrite ?E2; done.
Qed.
Lemma start_run_world name context trigger idem_key run_id w :
  keeps (world_sat (fun v => v = w)) (start_run name context trigger idem_key run_id).
Proof.
  unfold start_run. apply keeps_bind; [auto with cam|]. intros defn.
  apply keeps_bind; [auto with cam|]. intros _. apply keeps_bind; [auto with cam|]. intros now.
  apply keeps_bind; [|intros; auto with cam].
  destruct run_id as [x|]; [destruct (str_truthy x)|]; auto with cam.
Qed.

(** A start under a dedupe key: afterwards the key stands for the run returned,
    which is the run of the first start under that key. *)
Lemma start_run_keyed name context trigger idem_key rid0 s s' r k :
  store_wf (sys_store s) -> opt_or idem_key (tr_dedupe_key trigger) = Some k -> k <> EmptyString ->
  start_run name context trigger idem_key rid0 s = (s', Ok r) ->
  sys_world s' = sys_world s /\ store_wf (sys_store s') /\
  dget k (rs_dedupe (sys_store s')) = Some (run_id r) /\
  dget (run_id r) (rs_runs (sys_store s')) = Some r /\
  match dget k (rs_dedupe (sys_store s)) with
  | Some _ => sys_store s' = sys_store s
  | None => run_status r = QUEUED /\ run_workflow r = name /\ run_context r = context /\
      forall x, rid0 = Some x -> x <> EmptyString -> run_id r = x
  end.
Proof.
  intros Hwf Hk Hne H.
  pose proof (start_run_world name context trigger idem_key rid0 (sys_world s) s eq_refl) as Hw.
  rewrite H in Hw. split; [exact Hw|].
  apply start_run_create in H as (defn & rid & now & _ & _ & Hrid & H).
  pose proof (exec_call_wf (CCreateRun (queued_run rid name (wd_version defn) (keyed_trigger idem_key trigger)
    context now) (fan_out rid (wd_steps defn) 0)) (sys_store s) Hwf) as Hwf'.
  cbn [exec_call] in Hwf'. rewrite H in Hwf'. split; [exact Hwf'|]. clear Hwf'.
  unfold create_run in H. rewrite truthy_queued, Hk in H. cbn in H. unfold str_truthy in H.
  destruct (String.eqb_spec k EmptyString) as [|_]; [done|]. cbn in H.
  destruct (dget k (rs_dedupe (sys_store s))) as [id|] eqn:E.
  - destruct (dget id (rs_runs (sys_store s))) as [run|] eqn:Er; [|done]. cbn in H.
    injection H as <- <-. by rewrite E, (wf_run_id _ _ _ Hwf Er).
  - injection H as <- <-. unfold insert_run. rewrite truthy_queued, Hk. cbn. unfold str_truthy.
    destruct (String.eqb_spec k EmptyString) as [|_]; [done|]. cbn. rewrite !dget_dset_eq. repeat split.
    intros x -> Hx. unfold str_truthy in Hrid. by destruct (String.eqb_spec x EmptyString).
Qed.

Lemma agent_key name k :
  opt_or (Some k) (tr_dedupe_key (make_agent_trigger name (Some k))) = Some k.
Proof. unfold opt_or. by destruct (opt_truthy (Some k)). Qed.
End StartRun.

(** ** recovery.py *)

Section Recovery.
Context {W Key I R : Type} {IO : IdemOps I} {RO : RedisOps R}.
Context (execute : string -> EM (W := W) (I := I) (R := R) WorkflowRun).

(** [enqueue_fn] is an awaitable that may raise; without it the engine runs in
    process and its exceptions are logged and dropped. *)
Fixpoint recover_runs (enqueue_fn : option (string -> M W unit)) (ids re_enqueued : list string)
    : EM (W := W) (I := I) (R := R) (list string) :=
  match ids with
  | [] => ret re_enqueued
  | rid :: ids' =>
      let! run := on_runs (get_run rid) in
      match run with
      | None => recover_runs enqueue_fn ids' re_enqueued
      | Some run =>
          if bool_decide (run_status run = AWAITING_APPROVAL) then
            recover_runs enqueue_fn ids' re_enqueued
          else
            match enqueue_fn with
            | Some enqueue => on_world (enqueue rid)
            | None => try_pass (execute rid)
            end ;;
            recover_runs enqueue_fn ids' (re_enqueued ++ [rid])
      end
  end.

Definition recovery_sweep (enqueue_fn : option (string -> M W unit))
    : EM (W := W) (I := I) (R := R) (list string) :=
  let! recoverable := on_runs find_recoverable_runs in
  recover_runs enqueue_fn recoverable [].

(** With a queue: the runs that are not awaiting approval are enqueued in order. *)
Lemma recover_runs_enqueue enqueue ids acc (s s' : sys (EngStore I R) W) out :
  Forall (fun rid => exists run, dget rid (rs_runs (runs_of s)) = Some run /\
                                 run_status run <> AWAITING_APPROVAL) ids ->
  recover_runs (Some enqueue) ids acc s = (s', Ok out) ->
  out = acc ++ ids /\ runs_of s' = runs_of s /\
  sys_world s' = fold_left (fun w rid => fst (enqueue rid w)) ids (sys_world s).
Proof.
  intros Hf. revert acc s Hf. induction ids as [|rid ids IH]; intros acc s Hf; cbn [recover_runs].
  - intros [= <- <-]. by rewrite app_nil_r.
  - apply Forall_cons in Hf as [(run & Hrun & Hst) Hf].
    rewrite (bind_on_runs _ _ s (runs_of s) (Some run)) by (unfold get_run, gets; by rewrite Hrun).
    rewrite bool_decide_false by done. unfold bind at 1, on_world, zoom.
    destruct (enqueue rid _) as [w [u|e]] eqn:E; [|done]. intros H.
    apply IH in H as (-> & Hr & Hw); [|exact Hf]. rewrite <- app_assoc. split; [done|].
    split; [exact Hr|]. rewrite Hw. cbn in *. by rewrite E.
Qed.
End Recovery.

(** ** Properties *)

(** What a new run looks like.  A [start_run] whose dedupe key is new (or
    absent) stores and returns a queued run of the given workflow, pinned to
    the latest registered version, with the given context and the chosen key,
    and one pending step per workflow step, in order, numbered from 0, with
    pairwise distinct idempotency keys when the step names are distinct. *)
Lemma start_run_new {W} clock uuids (reg : registry W) name context trigger idem_key rid0 s s' r :
  start_run clock uuids reg name context trigger idem_key rid0 s = (s', Ok r) ->
  let key := opt_or idem_key (tr_dedupe_key trigger) in
  (opt_truthy key = true -> forall k, key = Some k -> dget k (rs_dedupe (sys_store s)) = None) ->
  exists defn, get_workflow_latest reg name = Ok defn /\ validate_context defn context = Ok tt /\
    run_status r = QUEUED /\ run_workflow r = name /\ run_workflow_version r = wd_version defn /\
    run_context r = context /\
    (opt_truthy key = true -> tr_dedupe_key (run_trigger r) = key) /\
    dget (run_id r) (rs_runs (sys_store s')) = Some r /\
    map st_step (steps_of (run_id r) (sys_store s')) = wd_steps defn /\
    (forall i st, steps_of (run_id r) (sys_store s') !! i = Some st ->
       st_status st = SPENDING /\ st_seq st = Z.of_nat i /\ st_run_id st = run_id r /\
       st_attempt st = 0) /\
    (NoDup (wd_steps defn) -> NoDup (map st_idem_key (steps_of (run_id r) (sys_store s')))).
Proof.
  intros H key Hnew. apply start_run_create in H as (defn & rid & now & Hd & Hv & _ & Hc).
  exists defn. do 2 (split; [done|]).
  apply create_run_fresh in Hc as (-> & Hr & Hs).
  2: { rewrite truthy_queued. fold key. cbn. destruct (opt_truthy key) eqn:E; [|done].
       destruct key as [k|]; [|done]. by apply Hnew. }
  cbn [queued_run run_id] in *. do 4 (split; [done|]).
  split; [unfold queued_run, keyed_trigger; cbn; fold key; by intros ->|].
  split; [done|]. rewrite Hs. split; [apply fan_out_names|]. split.
  - intros i st Hi. apply fan_out_lookup in Hi as (n & _ & ->). cbn. by rewrite Z.add_0_l.
  - intros Hn. rewrite fan_out_keys. apply (NoDup_fmap_2_strong (step_key rid)); [|done].
    intros a b _ _. apply step_key_inj.
Qed.

(** Triggers are idempotent.  Starting again with a key that has already
    started a run — the same event delivered twice, an explicit key reused,
    even for another workflow or context — changes nothing in the store and
    returns the run of the first start. *)
Lemma start_run_idempotent {W} clock uuids (reg : registry W) name context trigger idem_key rid0
    (s s' : sys RunStore W) r k id run :
  store_wf (sys_store s) ->
  opt_or idem_key (tr_dedupe_key trigger) = Some k -> k <> EmptyString ->
  dget k (rs_dedupe (sys_store s)) = Some id -> dget id (rs_runs (sys_store s)) = Some run ->
  start_run clock uuids reg name context trigger idem_key rid0 s = (s', Ok r) ->
  r = run /\ run_id r = id /\ sys_store s' = sys_store s.
Proof.
  intros Hwf Hk Hne Hid Hrun H. apply start_run_create in H as (defn & rid & now & _ & _ & _ & Hc).
  unfold create_run in Hc. rewrite truthy_queued, Hk in Hc. cbn in Hc. unfold str_truthy in Hc.
  destruct (String.eqb_spec k EmptyString); [done|]. cbn in Hc. rewrite Hid, Hrun in Hc. cbn in Hc.
  injection Hc as <- <-. split; [done|]. split; [by eapply wf_run_id|done].
Qed.

(** Recovery re-enqueues exactly the interrupted runs.  After a crash the
    sweep with a queue returns the ids of the runs that are queued or running,
    each exactly once; it enqueues them in that order and writes nothing to the
    store, and runs parked at a gate are left alone. *)
Lemma recovery_exact {W I R} {IO : IdemOps I} {RO : RedisOps R} execute enqueue
    (s s' : sys (EngStore I R) W) out :
  store_wf (runs_of s) ->
  recovery_sweep execute (Some enqueue) s = (s', Ok out) ->
  (forall rid, rid ∈ out <-> status_of rid (runs_of s) = Some QUEUED \/
                            status_of rid (runs_of s) = Some RUNNING) /\
  NoDup out /\ runs_of s' = runs_of s /\
  sys_world s' = fold_left (fun w rid => fst (enqueue rid w)) out (sys_world s).
Proof.
  intros Hwf H. unfold recovery_sweep in H.
  rewrite (bind_on_runs _ _ s (runs_of s) _ eq_refl) in H.
  set (ids := map run_id (bfilter recoverable (dvalues (rs_runs (runs_of s))))) in H.
  assert (forall rid, rid ∈ ids <-> exists x, dget rid (rs_runs (runs_of s)) = Some x /\
            recoverable x = true) as Hids by (intros; apply keyed_filter_ids; by apply wf_runs).
  apply recover_runs_enqueue in H as (-> & Hr & Hw).
  2: { apply List.Forall_forall. intros rid Hin. apply list_elem_of_In, Hids in Hin as (x & Hx & Hp).
       exists x. split; [done|]. apply recoverable_true in Hp as [-> | ->]; done. }
  cbn. split; [|split; [|done]].
  - intros rid. rewrite Hids. unfold status_of. split.
    + intros (x & -> & Hp). apply recoverable_true in Hp as [Hp|Hp]; cbn; rewrite Hp; auto.
    + destruct (dget rid _) as [x|]; cbn; [|by intros [|]]. intros Hx. exists x. split; [done|].
      apply recoverable_true. by destruct Hx as [[=]|[=]]; auto.
  - destruct (wf_runs _ Hwf) as [Hnd Hk]. unfold ids. clear -Hnd Hk.
    assert (forall k x, (k, x) ∈ rs_runs (runs_of s) -> run_id x = k) as Hk'
      by (intros k x Hin; by apply Hk, dget_in_Some). clear Hk.
    unfold dict_wf, dkeys, dvalues in *. induction (rs_runs (runs_of s)) as [|[k x] d IH]; cbn in *;
      [constructor|]. apply NoDup_cons in Hnd as [Hni Hnd].
    assert (NoDup (map run_id (bfilter recoverable d.*2))) as Hd
      by (apply IH; [done|]; intros; apply Hk'; by right).
    destruct (recoverable x); [|done]. cbn. apply NoDup_cons. split; [|done].
    rewrite (Hk' k x) by left. intros Hin. apply Hni. apply list_elem_of_fmap in Hin as (y & -> & Hy).
    apply elem_of_bfilter in Hy as [Hy _]. apply list_elem_of_fmap in Hy as ([k' y'] & -> & Hy).
    apply list_elem_of_fmap. exists (k', y'). split; [cbn; apply Hk'; by right|done].
Qed.

(** *** Witnesses *)

Definition ex_start (rid0 : option string) : M (sys RunStore unit) WorkflowRun :=
  start_run ex_clock ex_uuids example_registry "intake" [] (make_event_trigger "evt-9" "webhook")
    None rid0.

Definition ex_start_sys : sys RunStore unit := mk_sys empty_run_store tt 0 0.

Definition ex_started : sys RunStore unit := fst (ex_start (Some "r7") ex_start_sys).

Definition ex_started_run : WorkflowRun :=
  queued_run "r7" "intake" 1 (make_event_trigger "evt-9" "webhook") [] ex_now.

Lemma ex_started_wf : store_wf (sys_store ex_started).
Proof.
  assert (sys_store ex_started =
    exec_call (CCreateRun ex_started_run (fan_out "r7" ["parse"; "GATE:review"] 0)) empty_run_store)
    as -> by (vm_compute; reflexivity).
  apply exec_call_wf, empty_store_wf.
Qed.

Lemma start_run_new_witness :
  snd (ex_start (Some "r7") ex_start_sys) = Ok ex_started_run /\
  map st_step (steps_of "r7" (sys_store ex_started)) = ["parse"; "GATE:review"].
Proof.
  split; [vm_compute; reflexivity|].
  destruct (start_run_new ex_clock ex_uuids example_registry "intake" []
    (make_event_trigger "evt-9" "webhook") None (Some "r7") ex_start_sys ex_started ex_started_run)
    as (defn & Hd & _ & _ & _ & _ & _ & _ & _ & Hs & _); [vm_compute; reflexivity|done|].
  vm_compute in Hd. injection Hd as <-. exact Hs.
Defined.

Lemma start_run_idempotent_witness :
  sys_store (fst (ex_start None ex_started)) = sys_store ex_started /\
  snd (ex_start None ex_started) = Ok ex_started_run.
Proof.
  destruct (start_run_idempotent ex_clock ex_uuids example_registry "intake" []
    (make_event_trigger "evt-9" "webhook") None None ex_started (fst (ex_start None ex_started))
    ex_started_run "evt-9" "r7" ex_started_run) as (_ & _ & H);
    [|reflexivity|discriminate|reflexivity|reflexivity|vm_compute; reflexivity|].
  - exact ex_started_wf.
  - split; [exact H|vm_compute; reflexivity].
Defined.

Definition ex_crashed : sys (EngStore idem_mem redis_mem) (list string) :=
  mk_sys (mk_EngStore (sys_store ex_started) [] []) [] 0 0.

Lemma recovery_exact_witness :
  let sweep := recovery_sweep (I := idem_mem) (R := redis_mem) (fun _ => raise AssertionError)
                 (Some (fun rid => modify (fun w => w ++ [rid]))) in
  snd (sweep ex_crashed) = Ok ["r7"] /\ sys_world (fst (sweep ex_crashed)) = ["r7"].
Proof.
  intros sweep. split; [vm_compute; reflexivity|].
  destruct (recovery_exact (I := idem_mem) (R := redis_mem) (fun _ => raise AssertionError)
    (fun rid => modify (fun w => w ++ [rid])) ex_crashed (fst (sweep ex_crashed)) ["r7"])
    as (_ & _ & _ & H); [|vm_compute; reflexivity|exact H].
  exact ex_started_wf.
Defined.
