(* ===== verification/GateFlow.v ===== *)
(** * GateFlow: approval before effect

    The composition of triggers, engine and gates.  A sequence of operations
    (start a run, execute a run, resolve a gate) is applied to an empty store;
    proved, over every such sequence: a gate step is done only when an authorised
    actor approved it, and an execution never looks past a gate without such an
    approval.  The store is that of the in-memory implementation, which
    [PgRefine] shows the PostgreSQL one to follow. *)

From Stdlib Require Import ZArith Lia Ascii String List.
From stdpp Require Import base list strings.
From S2P Require Import Prelude PyTime ConnErrors Effects States RunStore Rbac Dsl Idem Gates Engine EngineSpec Triggers.

Open Scope string_scope.
Open Scope list_scope.
Open Scope Z_scope.
Open Scope cam_scope.

(** ** Approvals on record *)

(** The actor's role may approve gates. *)
Definition may_approve (actor : string) : bool :=
  match role_of actor with Some r => bool_decide (GATE_APPROVE ∈ GRANTS r) | None => false end.

(** The decisions hold an approval of the step of the run by such an actor. *)
Definition approved (ds : list ApprovalDecision) (rid step : string) : bool :=
  existsb (fun d => String.eqb (ad_run_id d) rid && String.eqb (ad_step d) step &&
                    bool_decide (ad_decision d = Approve) && may_approve (ad_actor d)) ds.

Lemma approved_app ds d rid step : approved ds rid step = true -> approved (ds ++ [d]) rid step = true.
Proof. unfold approved. rewrite existsb_app. by intros ->. Qed.

Lemma approved_last ds d :
  ad_decision d = Approve -> may_approve (ad_actor d) = true -> approved (ds ++ [d]) (ad_run_id d) (ad_step d) = true.
Proof.
  intros Hd Ha. unfold approved. rewrite existsb_app. cbn. rewrite !String.eqb_refl, Ha, bool_decide_eq_true_2 by done.
  apply orb_true_r.
Qed.

(** Every gate step that is done was approved. *)
Definition gates_approved (s : RunStore) : Prop :=
  forall rid st, st ∈ steps_of rid s -> is_gate (st_step st) = true -> step_done (st_status st) = true ->
    approved (rs_decisions s) rid (st_step st) = true.

Lemma gates_approved_same s s' :
  rs_steps s' = rs_steps s -> rs_decisions s' = rs_decisions s -> gates_approved s -> gates_approved s'.
Proof. intros Hs Hd H rid st. unfold steps_of. rewrite Hs, Hd. apply H. Qed.

(** ** Store calls that keep the invariant *)

Definition lawful (s : RunStore) (c : store_call) : Prop :=
  match c with
  | CCreateRun _ steps => Forall (fun st => step_done (st_status st) = false) steps
  | CUpdateStep st => is_gate (st_step st) = false
  | CAdvanceGate _ rid step => approved (rs_decisions s) rid step = true
  | _ => True
  end.

Lemma elem_of_update_first {A} (p : A -> bool) f l x :
  x ∈ update_first p f l -> x ∈ l \/ exists y, y ∈ l /\ p y = true /\ x = f y.
Proof.
  induction l as [|y l IH]; [by left|]. cbn [update_first]. destruct (p y) eqn:Hp.
  - intros [->|Hx]%elem_of_cons; [right; exists y; split; [by left|done]|left; by right].
  - intros [->|Hx]%elem_of_cons; [left; by left|]. destruct (IH Hx) as [?|(z & ? & ? & ?)]; [left; by right|].
    right. exists z. split; [by right|done].
Qed.

Lemma steps_of_insert rid run steps s :
  steps_of rid (insert_run run steps s) = if decide (rid = run_id run) then steps else steps_of rid s.
Proof. unfold steps_of, insert_run. destruct (truthy_key run); cbn; rewrite dget_dset; by case_decide. Qed.

Lemma decisions_insert run steps s : rs_decisions (insert_run run steps s) = rs_decisions s.
Proof. unfold insert_run. by destruct (truthy_key run). Qed.

Lemma decisions_put rid l s : rs_decisions (put_steps rid l s) = rs_decisions s.
Proof. unfold put_steps. by destruct (dget rid (rs_steps s)). Qed.

(** Replacing one step of a run keeps the invariant when the new one may be there. *)
Lemma put_first_approved rid p f s :
  gates_approved s ->
  (forall y, y ∈ steps_of rid s -> p y = true -> is_gate (st_step (f y)) = true ->
     approved (rs_decisions s) rid (st_step (f y)) = true) ->
  gates_approved (put_steps rid (update_first p f (steps_of rid s)) s).
Proof.
  intros H Hf r st. rewrite steps_of_put, decisions_put. case_decide as Hr; [subst r|apply H].
  destruct (dget rid (rs_steps s)) as [l|]; [|by intros ?%elem_of_nil].
  intros [Hin|(y & Hy & Hp & ->)]%elem_of_update_first; [by apply H|]. intros Hg _. by apply Hf.
Qed.

Lemma lawful_call s c : lawful s c -> gates_approved s -> gates_approved (exec_call c s).
Proof.
  intros Hl H. destruct c; cbn [exec_call lawful] in *; try (by apply (gates_approved_same s)).
  - unfold create_run. assert (gates_approved (insert_run run steps s)) as Hi.
    { intros rid st. rewrite steps_of_insert, decisions_insert. case_decide; [|apply H].
      intros Hin _ Hd. rewrite Forall_forall in Hl. by rewrite (Hl st Hin) in Hd. }
    destruct (truthy_key run) as [k|]; [|done]. by destruct (dget k (rs_dedupe s)).
  - unfold update_run_status. destruct (dget rid (rs_runs s)); [|done]. destruct (is_legal_run_transition _ _); [|done].
    by apply (gates_approved_same s).
  - unfold set_current_step. destruct (dget rid (rs_runs s)); [|done]. by apply (gates_approved_same s).
  - cbn. apply put_first_approved; [done|]. intros y _ Hy%String.eqb_eq _. cbn. by rewrite Hy.
  - unfold update_step. destruct (find_first _ _); [|done]. destruct (is_legal_step_transition _ _); [|done]. cbn.
    apply put_first_approved; [done|]. intros y _ _. by rewrite Hl.
  - unfold mark_token_used. destruct (dget token_id (rs_tokens s)); [|done]. destruct (tok_is_used _); [done|].
    by apply (gates_approved_same s).
  - intros rid st Hin Hg Hd. cbn. apply approved_app. by apply H.
Qed.

Lemma engine_calls_approved rid cs s :
  Forall (engine_call rid) cs -> gates_approved s -> gates_approved (exec_calls cs s).
Proof.
  intros Hcs. revert s. induction Hcs as [|c cs Hc _ IH]; intros s H; [done|]. cbn. apply IH, lawful_call; [|done].
  by destruct c; try done; cbn in *.
Qed.

(** ** Resolving a gate *)

(** What the invariant asks of a store. *)
Definition sound_store (s : RunStore) : Prop := store_wf s /\ gates_approved s.

Lemma sound_call s c : lawful s c -> sound_store s -> sound_store (exec_call c s).
Proof. intros Hl [Hw Ha]. split; [by apply exec_call_wf|by apply lawful_call]. Qed.

Lemma update_status_decisions now rid st cs le s : rs_decisions (fst (update_run_status now rid st cs le s)) = rs_decisions s.
Proof. unfold update_run_status. destruct (dget rid (rs_runs s)); [|done]. by destruct (is_legal_run_transition _ _). Qed.

Section Resolution.
Context {W Key : Type} (clock : nat -> datetime) (sign : Key -> string -> string) (json_loads : string -> option json).
Context (audit_fn : option (AuditEvent -> M W unit)).

Lemma authz_may_approve actor gate (s s' : sys RunStore W) u :
  check_authz audit_fn actor gate s = (s', Ok u) -> may_approve actor = true.
Proof.
  intros H. apply check_authz_ok in H as (r & Hr & _ & Hg). unfold may_approve. rewrite Hr. by apply bool_decide_eq_true_2.
Qed.

Lemma apply_decision_sound gate d (s s' : sys RunStore W) r :
  may_approve (ad_actor d) = true -> sound_store (sys_store s) ->
  apply_decision clock audit_fn gate d s = (s', r) -> sound_store (sys_store s').
Proof.
  intros Ha Hs H. apply apply_decision_spec in H as (now & now' & H). cbv zeta in H.
  assert (sound_store (decided_store gate d (sys_store s))) as Hd.
  { exact (sound_call _ (CUpdateGate (with_gate_status (gate_outcome (ad_decision d)) gate)) I
      (sound_call _ (CSaveDecision d) I Hs)). }
  set (st1 := decided_store gate d (sys_store s)) in *.
  pose proof (sound_call st1 (CUpdateStatus now (ad_run_id d) (run_outcome (ad_decision d)) None None) I Hd) as Hu.
  pose proof (update_status_decisions now (ad_run_id d) (run_outcome (ad_decision d)) None None st1) as Hdec.
  cbn [exec_call] in Hu. destruct (update_run_status _ _ _ _ _ st1) as [s2 [u|e]]; cbn [fst] in *.
  - destruct H as [_ ->]. destruct (ad_decision d) eqn:Ed; [|done].
    apply sound_call; [|done]. cbn [lawful]. rewrite Hdec. by apply approved_last.
  - by destruct H as [_ ->].
Qed.

Lemma resolve_gate_sound_store raw decision actor channel (key : Key) reason (s s' : sys RunStore W) r :
  sound_store (sys_store s) ->
  resolve_gate clock sign json_loads audit_fn raw decision actor channel key reason s = (s', r) ->
  sound_store (sys_store s').
Proof.
  intros Hs H. unfold resolve_gate, bind in H.
  destruct (verified_claims _ _ _ raw actor key s) as [s1 [c|e]] eqn:E1;
    pose proof (const_eq _ _ _ _ (verified_claims_const _ _ _ _ _ _) E1) as H1; [|injection H as <- _; by rewrite H1].
  rewrite <- H1 in Hs. destruct (consume_token _ _ actor c s1) as [s2 [tid|e]] eqn:E2;
    apply consume_token_spec in E2; [|injection H as <- _; by rewrite E2].
  destruct E2 as (tok & at_ & exp & _ & _ & _ & Hg & Hu & E2).
  assert (sound_store (sys_store s2)) as Hs2.
  { pose proof (sound_call _ (CMarkUsed tid at_) I Hs) as Hm. cbn [exec_call] in Hm. unfold mark_token_used in Hm.
    rewrite Hg, Hu in Hm. by rewrite E2. }
  destruct (load_gate c s2) as [s3 [gate|e]] eqn:E3;
    pose proof (const_eq _ _ _ _ (load_gate_const c) E3) as H3; [|injection H as <- _; by rewrite H3].
  rewrite <- H3 in Hs2. destruct (check_authz audit_fn actor gate s3) as [s4 [u|e]] eqn:E4;
    pose proof (const_eq _ _ _ _ (check_authz_const _ actor gate) E4) as H4; [|injection H as <- _; by rewrite H4].
  rewrite <- H4 in Hs2. cbn [get_now lift_res] in H.
  destruct (make_decision _ _ _ _ _ _ _) as [d|e] eqn:E5; [|by injection H as <- _].
  apply make_decision_ok in E5 as (_ & _ & _ & _ & Hact & _).
  destruct (apply_decision _ _ gate d _) as [s5 [u5|e]] eqn:E6;
    (apply apply_decision_sound in E6; [|rewrite Hact; by apply authz_may_approve in E4|done]); by injection H as <- _.
Qed.

End Resolution.

(** ** The system *)

Section System.
Context {W Key I R : Type} {IO : IdemOps I} {IL : IdemLaws I} {RO : RedisOps R}.
Context (clock : nat -> datetime) (uuids : nat -> string).
Context (sign : Key -> string -> string) (sha256_hex : string -> string).
Context (json_dumps_sorted : json -> string) (json_loads : string -> option json).
Context (str_of_exn : exn -> string).
Context (reg : registry W) (audit_fn : option (AuditEvent -> M W unit)).
Context (signing_key : Key) (run_lock : RunLock).

Abbreviation est := (sys (EngStore I R) W).
Abbreviation exec := (execute (I := I) (R := R) clock uuids sign sha256_hex json_dumps_sorted
                        str_of_exn reg audit_fn signing_key run_lock).
Abbreviation loop := (run_steps (I := I) (R := R) clock uuids sign sha256_hex json_dumps_sorted
                        str_of_exn audit_fn signing_key).

(** What reaches the orchestrator: a trigger, the worker, an approver. *)
Inductive operation :=
| OStart (name : string) (context : jdict) (trigger : TriggerRef) (idem_key run_id : option string)
| OExecute (fuel : nat) (rid : string)
| OResolve (raw : string) (decision : Decision) (actor channel : string) (reason : option string).

(** The state an operation leaves, whether it returns or raises. *)
Definition operate (o : operation) (s : est) : est :=
  match o with
  | OStart name context trigger idem_key run_id => fst (on_gate_sys (start_run clock uuids reg name context trigger idem_key run_id) s)
  | OExecute fuel rid => fst (exec fuel rid s)
  | OResolve raw decision actor channel reason =>
      fst (on_gate_sys (resolve_gate clock sign json_loads audit_fn raw decision actor channel signing_key reason) s)
  end.

Definition operate_all (l : list operation) (s : est) : est := fold_left (fun s o => operate o s) l s.

(** The steps up to the first gate that is not approved, which stays the last. *)
Fixpoint up_to_gate (ds : list ApprovalDecision) (rid : string) (l : list StepState) : list StepState :=
  match l with
  | [] => []
  | st :: l' => if is_gate (st_step st) && negb (approved ds rid (st_step st)) then [st] else st :: up_to_gate ds rid l'
  end.

(** [execute] of an engine that reads the decisions and is handed the steps up to
    that gate only. *)
Definition execute_approved (again : EM (R := R) WorkflowRun) (rid : string) : EM WorkflowRun :=
  let! locked := on_redis (acquire run_lock rid) in
  if locked then
    try_finally
      (let! run := load_run rid in
       let! run := start_queued clock rid run in
       let! defn := lift_res (get_workflow_latest reg (run_workflow run)) in
       let! steps := on_runs (get_steps rid) in
       let! ds := on_runs all_decisions in
       loop again rid run defn (up_to_gate ds rid steps) (initial_outputs steps) [])
      (on_redis (release run_lock rid))
  else load_run rid.

Lemma on_gate_sys_store {A} (m : M (sys RunStore W) A) (s : est) :
  runs_of (fst (on_gate_sys m s)) = sys_store (fst (m (mk_sys (runs_of s) (sys_world s) (sys_ticks s) (sys_uuids s)))).
Proof. unfold on_gate_sys, zoom, runs_of. by destruct (m _). Qed.

Lemma fan_out_pending rid steps idx : Forall (fun st => step_done (st_status st) = false) (fan_out rid steps idx).
Proof. revert idx. induction steps as [|x l IH]; intros idx; cbn; [constructor|]. by constructor. Qed.

Lemma start_run_sound name context trigger idem_key run_id (s : sys RunStore W) :
  sound_store (sys_store s) -> sound_store (sys_store (fst (start_run clock uuids reg name context trigger idem_key run_id s))).
Proof.
  unfold start_run. intros Hs.
  enough (keeps (fun s => sound_store (sys_store s)) (start_run clock uuids reg name context trigger idem_key run_id)) as Hk by exact (Hk s Hs).
  unfold start_run. apply keeps_bind; [auto with cam|]. intros defn. apply keeps_bind; [auto with cam|]. intros _.
  apply keeps_bind; [by intros st|]. intros now. apply keeps_bind.
  { destruct run_id as [x|]; [destruct (str_truthy x)|]; by intros st. }
  intros rid st Hst. unfold on_store, zoom.
  pose proof (sound_call (sys_store st)
    (CCreateRun (queued_run rid name (wd_version defn) (keyed_trigger idem_key trigger) context now) (fan_out rid (wd_steps defn) 0))
    (fan_out_pending rid (wd_steps defn) 0) Hst) as Hc. cbn [exec_call] in Hc.
  by destruct (create_run _ _ (sys_store st)).
Qed.

Lemma engine_calls_sound rid cs s : Forall (engine_call rid) cs -> sound_store s -> sound_store (exec_calls cs s).
Proof. intros Hc [Hw Ha]. split; [by apply exec_calls_wf|by apply (engine_calls_approved rid)]. Qed.

Lemma execute_sound fuel rid (s : est) : sound_store (runs_of s) -> sound_store (runs_of (fst (exec fuel rid s))).
Proof.
  intros Hs. rewrite (execute_once _ _ _ _ _ _ _ _ _ _ fuel (raise AssertionError)).
  match goal with |- context [execute_with ?a ?b ?c ?d ?e ?f ?g ?h ?i ?j ?k ?l ?m] =>
    destruct (execute_with_calls a b c d e f g h i j k rid s (proj1 Hs) ltac:(apply by_raise)) as (cs & Hcs & ->) end.
  by apply (engine_calls_sound rid).
Qed.

Lemma operate_sound o (s : est) : sound_store (runs_of s) -> sound_store (runs_of (operate o s)).
Proof.
  intros Hs. destruct o; cbn [operate].
  - rewrite on_gate_sys_store. by apply start_run_sound.
  - by apply execute_sound.
  - rewrite on_gate_sys_store. destruct (resolve_gate _ _ _ _ _ _ _ _ _ _ _) as [s' r] eqn:E. cbn.
    by eapply resolve_gate_sound_store in E.
Qed.

Lemma operate_all_sound l (s : est) : sound_store (runs_of s) -> sound_store (runs_of (operate_all l s)).
Proof. revert s. induction l as [|o l IH]; intros s Hs; [done|]. cbn. apply IH. by apply operate_sound. Qed.

(** The loop never looks past an unapproved gate. *)
Lemma loop_up_to again rid run defn ds l outputs comps (s : est) :
  (forall st, st ∈ l -> is_gate (st_step st) = true -> step_done (st_status st) = true -> approved ds rid (st_step st) = true) ->
  loop again rid run defn l outputs comps s = loop again rid run defn (up_to_gate ds rid l) outputs comps s.
Proof.
  intros Hl. enough (up_to_gate ds rid l = l \/ exists pre g post, l = pre ++ g :: post /\ up_to_gate ds rid l = pre ++ [g] /\
    is_gate (st_step g) = true /\ approved ds rid (st_step g) = false) as [->|(pre & g & post & -> & -> & Hg & Ha)]; [done| |].
  - apply gate_barrier; [done|]. destruct (step_done (st_status g)) eqn:Hd; [|done].
    rewrite (Hl g) in Ha; [done| |done|done]. apply elem_of_app. right. left.
  - clear Hl. induction l as [|st l IH]; [by left|]. cbn [up_to_gate].
    destruct (is_gate (st_step st)) eqn:Hg; [destruct (approved ds rid (st_step st)) eqn:Ha|]; cbn [andb negb];
      try (right; by exists [], st, l);
      (destruct IH as [->|(pre & g & post & -> & -> & ? & ?)]; [by left|right; by exists (st :: pre), g, post]).
Qed.

Lemma put_same (s : est) : put_runs (runs_of s) s = s.
Proof. by destruct s as [[]]. Qed.

(** One pass under the lock. *)
Lemma pass_up_to again rid (s : est) : sound_store (runs_of s) ->
  execute_locked clock uuids sign sha256_hex json_dumps_sorted str_of_exn reg audit_fn signing_key again rid s =
  (let! run := load_run rid in
   let! run := start_queued clock rid run in
   let! defn := lift_res (get_workflow_latest reg (run_workflow run)) in
   let! steps := on_runs (get_steps rid) in
   let! ds := on_runs all_decisions in
   loop again rid run defn (up_to_gate ds rid steps) (initial_outputs steps) []) s.
Proof.
  intros Hs. unfold execute_locked. apply bind_cong. intros s1 run E1. apply load_run_ok in E1 as [Hs1 _].
  apply bind_cong. intros s2 run2 E2. destruct (by_start_queued clock rid run s1) as (cs & Hcs & Hr). rewrite E2 in Hr.
  assert (sound_store (runs_of s2)) as Hs2.
  { cbn [fst] in Hr. rewrite Hr. apply (engine_calls_sound rid); [done|]. by rewrite Hs1. }
  apply bind_cong. intros s3 defn [= <- _]. apply bind_cong. intros s4 steps E4.
  apply on_runs_eq in E4. injection E4 as E4 Est.
  rewrite (bind_on_runs all_decisions _ s4 (runs_of s4) _ eq_refl), put_same. apply loop_up_to.
  rewrite <- Est, <- E4. apply Hs2.
Qed.

(** C2: Approval comes before effect.  Start with an empty store and let triggers,
    workers and approvers act in any order, any number of times, each operation
    returning or raising.  In the state reached, every gate step that is done has
    an approval on record by an actor whose role may approve gates; and executing
    any run is the same computation as executing it on its steps up to the first
    gate without such an approval: no handler after that gate is called, nothing
    after it is read or written. *)
Theorem approval_precedes_effects (l : list operation) (s0 : est) :
  runs_of s0 = empty_run_store ->
  let s := operate_all l s0 in
  (forall rid st, st ∈ steps_of rid (runs_of s) -> is_gate (st_step st) = true -> step_done (st_status st) = true ->
     exists d, d ∈ rs_decisions (runs_of s) /\ ad_run_id d = rid /\ ad_step d = st_step st /\
       ad_decision d = Approve /\ may_approve (ad_actor d) = true) /\
  (forall fuel again rid, exec fuel rid s = execute_approved again rid s).
Proof.
  intros H0 s. assert (sound_store (runs_of s)) as Hs.
  { apply operate_all_sound. rewrite H0. split; [apply empty_store_wf|]. by intros rid st ?%elem_of_nil. }
  split.
  - intros rid st Hin Hg Hd. destruct Hs as [_ Ha]. specialize (Ha rid st Hin Hg Hd). unfold approved in Ha.
    apply existsb_exists in Ha as (d & Hdin & Hd2). exists d. split; [by apply list_elem_of_In|].
    apply andb_true_iff in Hd2 as [Hd2 Hmay]. apply andb_true_iff in Hd2 as [Hd2 Hap].
    apply andb_true_iff in Hd2 as [Hr%String.eqb_eq Hst%String.eqb_eq]. by apply bool_decide_eq_true_1 in Hap.
  - intros fuel again rid. rewrite (execute_once _ _ _ _ _ _ _ _ _ _ fuel again).
    unfold execute_with, execute_approved. apply bind_cong. intros s1 [|] E1; [|done].
    assert (runs_of s1 = runs_of s) as E2.
    { pose proof (on_redis_runs (acquire run_lock rid) s) as E. by rewrite E1 in E. }
    unfold try_finally. by rewrite pass_up_to by by rewrite E2.
Qed.

End System.

(** ** A gated run *)

Definition flow_loads (s : string) : option json := Some (token_payload "t0" "t0" "r1" "GATE:review" (timestamp ex_exp)).

Definition flow_start : sys (EngStore idem_mem redis_mem) (list string) := mk_sys (mk_EngStore empty_run_store [] []) [] 0%nat 0%nat.

Abbreviation ex_flow l := (operate_all ex_clock ex_uuids ex_sign ex_hash ex_dumps flow_loads exn_name ex_reg None tt
  (mk_RunLock true 300) l flow_start).

Definition flow_begin : list operation :=
  [OStart "gated" [] (mk_TriggerRef "event" "webhook" None) None (Some "r1"); OExecute 0 "r1"].

Definition flow_answer (d : Decision) (actor : string) : list operation :=
  flow_begin ++ [OResolve ex_raw d actor "web" None; OExecute 0 "r1"].

(** The step after the gate runs for the attorney's approval only. *)
Example flow_outcomes :
  map (fun l => (sys_world (ex_flow l), status_of "r1" (runs_of (ex_flow l))))
    [flow_begin; flow_answer Approve "paralegal"; flow_answer Reject "attorney"; flow_answer Approve "attorney"] =
  [(["parse"], Some AWAITING_APPROVAL); (["parse"], Some AWAITING_APPROVAL); (["parse"], Some REJECTED);
   (["parse"; "notify"], Some SUCCEEDED)].
Proof. vm_compute. reflexivity. Qed.

Definition flow_gate : StepState := with_step_succeeded ex_now (pending_step "r1" "GATE:review" 1).

Lemma approval_precedes_effects_witness :
  flow_gate ∈ steps_of "r1" (runs_of (ex_flow (flow_answer Approve "attorney"))) /\
  exists d, d ∈ rs_decisions (runs_of (ex_flow (flow_answer Approve "attorney"))) /\ ad_run_id d = "r1" /\
    ad_step d = "GATE:review" /\ ad_decision d = Approve /\ may_approve (ad_actor d) = true.
Proof.
  assert (flow_gate ∈ steps_of "r1" (runs_of (ex_flow (flow_answer Approve "attorney")))) as Hin.
  { apply (list_elem_of_lookup_2 _ 1). vm_compute. reflexivity. }
  split; [exact Hin|].
  exact (proj1 (approval_precedes_effects ex_clock ex_uuids ex_sign ex_hash ex_dumps flow_loads exn_name ex_reg None tt
    (mk_RunLock true 300) (flow_answer Approve "attorney") flow_start eq_refl) "r1" flow_gate Hin eq_refl eq_refl).
Defined.
