(* ===== verification/McpTools.v ===== *)
(** * McpTools: mcp_server/workflow_tools.py

    The three tools an agent calls: start a run, inspect a run, decide a gate.
    Proved: [is_new] says whether the call created the run; what the status tool
    returns does not depend on contexts, step inputs or outputs, or the detail of
    errors; the agent's own identity cannot decide a gate. *)

From Stdlib Require Import ZArith Lia Ascii String List QArith.
From stdpp Require Import base list strings.
From S2P Require Import Prelude PyTime Effects States RunStore Rbac Dsl Idem Gates Engine Triggers.

Open Scope string_scope.
Open Scope list_scope.
Open Scope Z_scope.
Open Scope cam_scope.

Record WorkflowRunInput := mk_WorkflowRunInput {
  wi_workflow : string; wi_context : jdict; wi_idem_key : option string }.

Record WorkflowRunOutput := mk_WorkflowRunOutput {
  wo_run_id : string; wo_status : string; wo_current_step : option string; wo_is_new : bool }.

Record StepView := mk_StepView {
  sv_step : string; sv_seq : Z; sv_status : string; sv_attempt : Z;
  sv_started_at : option string; sv_ended_at : option string; sv_error_class : option string }.

Record WorkflowStatusOutput := mk_WorkflowStatusOutput {
  ws_run_id : string; ws_workflow : string; ws_status : string; ws_current_step : option string;
  ws_steps : list StepView; ws_gate_status : option string; ws_last_error : option string }.

Record ApprovalDecideInput := mk_ApprovalDecideInput {
  ai_token : string; ai_decision : Decision; ai_reason : option string }.

Record ApprovalDecideOutput := mk_ApprovalDecideOutput {
  ao_gate_request_id : string; ao_run_id : string; ao_decision : Decision; ao_actor : string;
  ao_channel : string }.

Section RunTool.
Context {W : Type} (clock : nat -> datetime) (uuids : nat -> string) (reg : registry W).

Definition tool_workflow_run (inp : WorkflowRunInput) (actor : string)
    : M (sys RunStore W) WorkflowRunOutput :=
  let trigger := make_agent_trigger actor (wi_idem_key inp) in
  let! candidate_id := uuid4 uuids in
  let! run := start_run clock uuids reg (wi_workflow inp) (wi_context inp) trigger (wi_idem_key inp)
                (Some candidate_id) in
  ret (mk_WorkflowRunOutput (run_id run) (run_status_value (run_status run)) (run_current_step run)
         (String.eqb (run_id run) candidate_id)).

End RunTool.

Section StatusTool.
Context {W : Type}.

Definition step_view (s : StepState) : StepView :=
  mk_StepView (st_step s) (st_seq s) (step_status_value (st_status s)) (st_attempt s)
    (option_map isoformat (st_started_at s)) (option_map isoformat (st_ended_at s))
    (option_map se_error_class (st_error s)).

(** [viewer_role] is accepted and not used. *)
Definition tool_workflow_status (run_id : string) (viewer_role : string)
    : M (sys RunStore W) WorkflowStatusOutput :=
  let! run := on_store (get_run run_id) in
  match run with
  | None => raise (run_not_found run_id)
  | Some run =>
      let! raw_steps := on_store (get_steps run_id) in
      ret (mk_WorkflowStatusOutput (States.run_id run) (run_workflow run)
             (run_status_value (run_status run)) (run_current_step run) (map step_view raw_steps)
             (if decide (run_status run = AWAITING_APPROVAL) then Some "awaiting_approval" else None)
             (option_map se_error_class (run_last_error run)))
  end.

End StatusTool.

Section DecideTool.
Context {W Key : Type}.
Context (clock : nat -> datetime) (sign : Key -> string -> string).
Context (json_loads : string -> option json) (audit_fn : option (AuditEvent -> M W unit)).

Definition tool_approval_decide (inp : ApprovalDecideInput) (key : Key) (actor : string)
    : M (sys RunStore W) ApprovalDecideOutput :=
  let! d := resolve_gate clock sign json_loads audit_fn (ai_token inp) (ai_decision inp) actor "mcp" key
              (ai_reason inp) in
  ret (mk_ApprovalDecideOutput (ad_gate_request_id d) (ad_run_id d) (ad_decision d) (ad_actor d) "mcp").

End DecideTool.

(** ** What the agent may see *)

(** What is left of a run and of a step without what may hold a client's data. *)
Definition redact_error (e : StepError) : StepError :=
  mk_StepError (se_error_class e) EmptyString 0 false.

Definition redact_run (r : WorkflowRun) : WorkflowRun :=
  mk_WorkflowRun (run_id r) (run_workflow r) 0 (run_status r) (run_current_step r)
    (mk_TriggerRef EmptyString EmptyString None) [] (utc_datetime 1 0) (utc_datetime 1 0)
    (option_map redact_error (run_last_error r)).

Definition redact_step (s : StepState) : StepState :=
  mk_StepState EmptyString (st_step s) (st_seq s) (st_status s) (st_attempt s) EmptyString None None
    (option_map redact_error (st_error s)) (st_started_at s) (st_ended_at s).

Definition redacted (s : RunStore) : dict string WorkflowRun * dict string (list StepState) :=
  (map (fun p => (p.1, redact_run p.2)) (rs_runs s),
   map (fun p => (p.1, map redact_step p.2)) (rs_steps s)).

Lemma error_class_redacted o o' :
  option_map redact_error o = option_map redact_error o' ->
  option_map se_error_class o = option_map se_error_class o'.
Proof. destruct o, o'; try done. intros [= H]. cbn. by rewrite H. Qed.

Lemma step_view_redacted l l' : map redact_step l = map redact_step l' -> map step_view l = map step_view l'.
Proof.
  revert l'. induction l as [|s l IH]; intros [|s' l']; try done. intros [= H1 H2 H3 H4 H5 H6 H7 H8].
  cbn. f_equal; [|by apply IH]. unfold step_view. rewrite H1, H2, H3, H4, H6, H7. f_equal.
  by apply error_class_redacted.
Qed.

Section Proofs.
Context {W : Type}.

(** The status tool shows nothing of what a run carries.  Its answer is a
    function of the redacted store: two stores that differ only in run contexts
    and triggers, in step inputs, outputs and keys, and in the details of errors
    give the same answer, and asking changes nothing. *)
Lemma status_redacted (rid role role' : string) (s s' : sys RunStore W) :
  redacted (sys_store s) = redacted (sys_store s') ->
  snd (tool_workflow_status rid role s) = snd (tool_workflow_status rid role' s') /\
  fst (tool_workflow_status rid role s) = s.
Proof.
  intros [= Hruns Hsteps].
  assert (option_map redact_run (dget rid (rs_runs (sys_store s)))
          = option_map redact_run (dget rid (rs_runs (sys_store s')))) as Hr.
  { by rewrite <- !dget_map, Hruns. }
  assert (map redact_step (steps_of rid (sys_store s)) = map redact_step (steps_of rid (sys_store s'))) as Hs.
  { assert (option_map (map redact_step) (dget rid (rs_steps (sys_store s)))
          = option_map (map redact_step) (dget rid (rs_steps (sys_store s')))) as H
      by by rewrite <- !dget_map, Hsteps.
    unfold steps_of. destruct (dget rid (rs_steps (sys_store s))), (dget rid (rs_steps (sys_store s')));
      cbn in H; congruence. }
  destruct s as [st w t u], s' as [st' w' t' u']. cbn in *.
  unfold tool_workflow_status, bind, on_store, zoom, get_run, get_steps, gets. cbn.
  destruct (dget rid (rs_runs st)) as [r|], (dget rid (rs_runs st')) as [r'|]; try done.
  cbn in *. injection Hr as H1 H2 H3 H4 H5. split; [|done]. do 2 f_equal; try congruence.
  - by apply step_view_redacted.
  - by rewrite H3.
  - by apply error_class_redacted.
Qed.

(** [workflow.run] starts a run or finds one.  With a fresh candidate id,
    [is_new] is true exactly when the call stored a new queued run of the
    workflow, under the candidate id and with the given context; otherwise the
    run returned is the one its key stands for and the store is as before. *)
Lemma run_tool_is_new (clock : nat -> datetime) (uuids : nat -> string) (reg : registry W)
    (inp : WorkflowRunInput) (actor : string) (s s' : sys RunStore W) (o : WorkflowRunOutput) :
  store_wf (sys_store s) ->
  uuids (sys_uuids s) <> EmptyString -> dget (uuids (sys_uuids s)) (rs_runs (sys_store s)) = None ->
  tool_workflow_run clock uuids reg inp actor s = (s', Ok o) ->
  if wo_is_new o then
    wo_run_id o = uuids (sys_uuids s) /\
    exists run, dget (wo_run_id o) (rs_runs (sys_store s')) = Some run /\ run_status run = QUEUED /\
      run_workflow run = wi_workflow inp /\ run_context run = wi_context inp
  else
    sys_store s' = sys_store s /\
    exists k, wi_idem_key inp = Some k /\ k <> EmptyString /\
      dget k (rs_dedupe (sys_store s)) = Some (wo_run_id o).
Proof.
  intros Hwf Hne Hfresh H. unfold tool_workflow_run in H. inv_bind H. inv_bind H.
  injection Hb as <- <-. injection H as <- <-. rename a0 into run. cbn [wo_run_id wo_is_new].
  destruct (opt_truthy (wi_idem_key inp)) eqn:Ek.
  - destruct (wi_idem_key inp) as [k|] eqn:Hk; [|done]. unfold opt_truthy, str_truthy in Ek.
    destruct (String.eqb_spec k EmptyString) as [|Hkne]; [done|].
    apply (start_run_keyed clock uuids reg) with (k := k) in Hb0; [|done|by rewrite agent_key|done].
    destruct Hb0 as (_ & _ & Hd & Hr & Hc). cbn [sys_store] in Hc.
    destruct (dget k (rs_dedupe (sys_store s))) as [id|] eqn:E.
    + rewrite Hc in Hd, Hr. destruct (String.eqb_spec (run_id run) (uuids (sys_uuids s))) as [Eq|_].
      * rewrite Eq in Hr. congruence.
      * split; [done|]. exists k. repeat split; congruence.
    + destruct Hc as (Hst & Hw & Hctx & Hid). rewrite (Hid _ eq_refl Hne), String.eqb_refl.
      split; [done|]. rewrite (Hid _ eq_refl Hne) in Hr. by exists run.
  - apply start_run_create in Hb0 as (defn & rid & now & _ & _ & Hrid & Hc). unfold str_truthy in Hrid.
    destruct (String.eqb_spec (uuids (sys_uuids s)) EmptyString) as [|_]; [done|]. cbn in Hrid. subst rid.
    apply create_run_fresh in Hc as (-> & Hr & _).
    + cbn in Hr |- *. rewrite String.eqb_refl. split; [done|]. eexists. split; [exact Hr|done].
    + rewrite truthy_queued. cbn. unfold opt_or. rewrite Ek. cbn. by rewrite Ek.
Qed.

Context {Key : Type} (clock : nat -> datetime) (sign : Key -> string -> string).
Context (json_loads : string -> option json) (audit_fn : option (AuditEvent -> M W unit)).

(** C31: The agent cannot approve its own gates: under the identity the tool is
    called with by default no token, whatever it says and whoever signed it,
    decides a gate; and a refusal changes at most the token's used mark. *)
Theorem agent_never_decides (inp : ApprovalDecideInput) (key : Key) (s s' : sys RunStore W) r :
  tool_approval_decide clock sign json_loads audit_fn inp key "agent_service" s = (s', r) ->
  (forall o, r <> Ok o) /\
  (forall reason code, r = Err (GateResolutionError reason code) ->
     only_token_burnt (sys_store s) (sys_store s')).
Proof.
  unfold tool_approval_decide. intros H. destruct r as [o|e].
  - inv_bind H. apply resolve_gate_ok in Hb. destruct (rv_gate _ _ _ _ _ _ _ _ _ _ Hb) as (g & r & _ & _ & Hr & _ & Hg & _).
    injection Hr as <-. by apply approver_roles in Hg as [|].
  - split; [done|]. intros reason code [= ->]. apply bind_err in H as [H|(s1 & a & _ & H)]; [|done].
    by apply resolve_gate_refused in H.
Qed.

End Proofs.

(** ** Concrete calls *)

Definition ex_run_input : WorkflowRunInput := mk_WorkflowRunInput "intake" [] (Some "k1").

Definition ex_candidates (n : nat) : string := if decide (n = 0%nat) then "r7" else "r8".

Definition ex_run_tool : M (sys RunStore unit) WorkflowRunOutput :=
  tool_workflow_run ex_clock ex_candidates example_registry ex_run_input "agent_service".

Definition ex_first_call : sys RunStore unit := fst (ex_run_tool ex_start_sys).

Lemma run_tool_is_new_witness :
  snd (ex_run_tool ex_start_sys) = Ok (mk_WorkflowRunOutput "r7" "queued" None true) /\
  exists run, dget "r7" (rs_runs (sys_store ex_first_call)) = Some run /\ run_status run = QUEUED /\
    run_workflow run = "intake" /\ run_context run = [].
Proof.
  assert (snd (ex_run_tool ex_start_sys) = Ok (mk_WorkflowRunOutput "r7" "queued" None true)) as E
    by (vm_compute; reflexivity).
  split; [exact E|].
  refine (proj2 (run_tool_is_new ex_clock ex_candidates example_registry ex_run_input "agent_service" ex_start_sys
    ex_first_call (mk_WorkflowRunOutput "r7" "queued" None true) empty_store_wf _ eq_refl _)).
  - discriminate.
  - vm_compute. reflexivity.
Defined.

(** The second call under the key finds the run of the first. *)
Example run_tool_finds :
  let '(s, r) := ex_run_tool ex_first_call in
  r = Ok (mk_WorkflowRunOutput "r7" "queued" None false) /\ sys_store s = sys_store ex_first_call.
Proof. vm_compute. by split. Qed.

Definition ex_private : sys RunStore unit :=
  mk_sys (mk_RunStore
    [("r1", mk_WorkflowRun "r1" "intake" 1 AWAITING_APPROVAL None (mk_TriggerRef "event" "webhook" None)
       [("name", JStr "Ada")] ex_now ex_now None)]
    [("r1", [mk_StepState "r1" "GATE:review" 0 SPENDING 0 "k" (Some [("a", JStr "b")]) None None None None])]
    [] [] [] []) tt 0 0.

Lemma status_redacted_witness :
  snd (tool_workflow_status "r1" "attorney" ex_gate_sys) = snd (tool_workflow_status "r1" "agent_service" ex_private) /\
  fst (tool_workflow_status "r1" "attorney" ex_gate_sys) = ex_gate_sys.
Proof. apply (status_redacted "r1" "attorney" "agent_service" ex_gate_sys ex_private). reflexivity. Defined.

Definition ex_decide (actor : string) : M (sys RunStore unit) ApprovalDecideOutput :=
  tool_approval_decide ex_clock ex_sign ex_loads None (mk_ApprovalDecideInput ex_raw Approve None) tt actor.

Lemma agent_never_decides_witness :
  snd (ex_decide "agent_service" ex_gate_sys) =
    Err (GateResolutionError "Insufficient role to approve this gate." 403) /\
  forall o, snd (ex_decide "agent_service" ex_gate_sys) <> Ok o.
Proof.
  split; [vm_compute; reflexivity|].
  exact (proj1 (agent_never_decides ex_clock ex_sign ex_loads None (mk_ApprovalDecideInput ex_raw Approve None) tt
    ex_gate_sys (fst (ex_decide "agent_service" ex_gate_sys)) (snd (ex_decide "agent_service" ex_gate_sys)) eq_refl)).
Defined.

(** The refusal has used the token up: the attorney it was meant for is
    refused as well. *)
Example agent_burns_the_token :
  snd (ex_decide "attorney" ex_gate_sys) =
    Ok (mk_ApprovalDecideOutput "g1" "r1" Approve "attorney" "mcp") /\
  snd (ex_decide "attorney" (fst (ex_decide "agent_service" ex_gate_sys))) =
    Err (GateResolutionError "Token has already been used." 409).
Proof. split; vm_compute; reflexivity. Qed.
