(* ===== verification/Calendar.v ===== *)
(** * Calendar: core/services/deadline/calendar.py

    Algorithmic US federal holidays, the supported-years window and the
    business-day walks.  The [while] loops take fuel: a missing holiday table
    raises on the first weekday outside 2020..2040, and inside the window no
    four consecutive days are all non-business days, so five units per business
    day are enough and the loops are shown never to run out. *)

From Stdlib Require Import ZArith Lia Ascii String List.
From stdpp Require Import base list strings pretty.
From S2P Require Import Prelude PyTime ConnErrors Effects.

Open Scope string_scope.
Open Scope list_scope.
Open Scope Z_scope.
Open Scope cam_scope.

Definition make_date (y m d : Z) : res date :=
  or_raise (ValueError "day is out of range for month") (mk_date y m d).

(** [d + timedelta(days=k)] *)
Definition add_days (d : date) (k : Z) : res date := or_raise OverflowError (date_add d k).

Definition nth_weekday_of_month (year month wd n : Z) : res date :=
  letr! first := make_date year month 1 in
  let delta := (wd - weekday first) mod 7 in
  letr! result := add_days first (delta + (n - 1) * 7) in
  if date_month result =? month then Ok result
  else Err (ValueError "No nth weekday in month").

Definition last_weekday_of_month (year month wd : Z) : res date :=
  letr! next_month := if month <? 12 then make_date year (month mod 12 + 1) 1
                      else make_date (year + 1) 1 1 in
  letr! last_day := add_days next_month (-1) in
  let delta := (weekday last_day - wd) mod 7 in
  add_days last_day (- delta).

Definition observed (d : date) : res date :=
  if weekday d =? 5 then add_days d (-1)
  else if weekday d =? 6 then add_days d 1
  else Ok d.

Definition fixed_holiday (year month day : Z) : res date :=
  letr! d := make_date year month day in observed d.

(** The eleven holidays in the order of the source list. *)
Definition us_federal_holidays (year : Z) : res (list date) :=
  map_res (fun h => h)
    [fixed_holiday year 1 1;
     nth_weekday_of_month year 1 0 3;
     nth_weekday_of_month year 2 0 3;
     last_weekday_of_month year 5 0;
     fixed_holiday year 6 19;
     fixed_holiday year 7 4;
     nth_weekday_of_month year 9 0 1;
     nth_weekday_of_month year 10 0 2;
     fixed_holiday year 11 11;
     nth_weekday_of_month year 11 3 4;
     fixed_holiday year 12 25].

(** ** Calendar *)

Record Calendar := mk_Calendar { cal_id : string }.

Definition SUPPORTED_CALENDAR_IDS : list string := ["us_federal"].

Definition supported_year (y : Z) : bool := (2020 <=? y) && (y <? 2041).

Definition new_calendar (calendar_id : string) : res Calendar :=
  if str_in calendar_id SUPPORTED_CALENDAR_IDS then Ok (mk_Calendar calendar_id)
  else Err (CalendarError ("Unknown calendar_id " +:+ calendar_id)).

Definition get_calendar (calendar_id : string) : res Calendar :=
  if String.eqb calendar_id "us_federal" then Ok (mk_Calendar "us_federal")
  else new_calendar calendar_id.

(** The cache of [_holidays] does not change its value. *)
Definition holidays (year : Z) : res (list date) :=
  if supported_year year then us_federal_holidays year
  else Err (CalendarError ("Holiday data for year " +:+ pretty year +:+ " not available")).

Definition is_business_day (d : date) : res bool :=
  if 5 <=? weekday d then Ok false
  else letr! h := holidays (date_year d) in Ok (negb (existsb (Z.eqb d) h)).

(** The [while not self.is_business_day(nxt)] loops, one day at a time. *)
Fixpoint walk (fuel : nat) (direction : Z) (d : date) : res date :=
  match fuel with
  | O => Err (OtherError "OutOfFuel" "")
  | S fuel' =>
      letr! nxt := add_days d direction in
      letr! b := is_business_day nxt in
      if b then Ok nxt else walk fuel' direction nxt
  end.

Definition WALK_FUEL : nat := 5.

Definition next_business_day (d : date) : res date := walk WALK_FUEL 1 d.

Definition previous_business_day (d : date) : res date := walk WALK_FUEL (-1) d.

Fixpoint add_loop (fuel : nat) (direction remaining : Z) (current : date) : res date :=
  if 0 <? remaining then
    match fuel with
    | O => Err (OtherError "OutOfFuel" "")
    | S fuel' =>
        letr! current := add_days current direction in
        letr! b := is_business_day current in
        add_loop fuel' direction (if b then remaining - 1 else remaining) current
    end
  else Ok current.

Definition add_business_days (d : date) (n : Z) : res date :=
  let direction := if 0 <=? n then 1 else -1 in
  add_loop (WALK_FUEL * Z.to_nat (Z.abs n)) direction (Z.abs n) d.

Definition adjust (d : date) (mode : string) : res date :=
  if String.eqb mode "next_business_day" then
    letr! b := is_business_day d in if b then Ok d else next_business_day d
  else if String.eqb mode "previous_business_day" then
    letr! b := is_business_day d in if b then Ok d else previous_business_day d
  else if String.eqb mode "none" then Ok d
  else Err (CalendarError ("Unknown adjust mode " +:+ mode)).

Section Version.
Context (sha256_hex : string -> string).

Fixpoint join (sep : string) (l : list string) : string :=
  match l with
  | [] => EmptyString
  | [s] => s
  | s :: l' => s +:+ sep +:+ join sep l'
  end.

(** A frozenset of dates has no duplicates; the 2026 table has none. *)
Definition calendar_version : res string :=
  letr! sample := holidays 2026 in
  let raw := join "," (map date_str (py_sorted Z.leb sample)) in
  Ok ("usfed_" +:+ take_chars 8 (sha256_hex raw)).
End Version.

(** ** The holiday tables are sparse *)

Definition far_apart (a b : Z) : bool := (a =? b) || (4 <=? Z.abs (a - b)).

(** Pairwise distance at least four, every holiday on a weekday, and the
    holidays that lie in their own year end by 26 December. *)
Definition table_check (y : Z) : bool :=
  match us_federal_holidays y with
  | Ok l => forallb (fun a => forallb (far_apart a) l && (weekday a <? 5) &&
              ((days_before_year (y + 1) <? a) || (a <=? days_before_year (y + 1) - 5))) l
  | Err _ => false
  end.

Lemma tables_checked : forallb table_check (zrange 2020 21) = true.
Proof. vm_compute. reflexivity. Qed.

Lemma supported_table y :
  supported_year y = true -> exists l, us_federal_holidays y = Ok l /\ table_check y = true.
Proof.
  unfold supported_year. intros H. simpl_bool.
  pose proof (forallb_zrange _ _ _ tables_checked y ltac:(lia)) as Hc.
  pose proof Hc as Hc'. unfold table_check in Hc'. destruct (us_federal_holidays y); eauto. done.
Qed.

Definition is_holiday (d : date) : Prop :=
  exists l, holidays (date_year d) = Ok l /\ In d l.

Lemma not_business_day d :
  is_business_day d = Ok false -> 5 <= weekday d \/ (weekday d < 5 /\ is_holiday d).
Proof.
  unfold is_business_day. destruct (Z.leb_spec 5 (weekday d)); [by left|].
  unfold res_bind. destruct (holidays (date_year d)) as [l|] eqn:E; [|done].
  intros [= H1%negb_false_iff%existsb_exists]. destruct H1 as (x & Hx & ->%Z.eqb_eq).
  right. split; [done|]. by exists l.
Qed.

Lemma days_of_year d : days_before_year (date_year d) + 1 <= d <= days_before_year (date_year d + 1).
Proof.
  unfold date_year, ord2ymd. destruct (ord2yd d) as [y n] eqn:E.
  apply ord2yd_spec in E as [? ?]. destruct (yd2md _ _). cbn. rewrite leap_year_days. lia.
Qed.

Lemma holidays_ok y l : holidays y = Ok l -> supported_year y = true /\ us_federal_holidays y = Ok l.
Proof. unfold holidays. by destruct (supported_year y). Qed.

Lemma table_facts y l a :
  us_federal_holidays y = Ok l -> table_check y = true -> In a l ->
  weekday a < 5 /\ (forall b, In b l -> a = b \/ 4 <= Z.abs (a - b)) /\
  (a <= days_before_year (y + 1) -> a <= days_before_year (y + 1) - 5).
Proof.
  intros E Hc Ha. unfold table_check in Hc. rewrite E in Hc.
  pose proof (proj1 (forallb_forall _ _) Hc a Ha) as H. cbn beta in H.
  assert (forallb (far_apart a) l = true -> forall b, In b l -> a = b \/ 4 <= Z.abs (a - b)) as Hf.
  { intros Hl b Hb. pose proof (proj1 (forallb_forall _ _) Hl b Hb) as Hab.
    unfold far_apart in Hab. apply orb_true_iff in Hab as [?%Z.eqb_eq|?%Z.leb_le]; auto. }
  apply andb_prop in H as [H Hy]. simpl_bool. split; [done|]. split; [by apply Hf|].
  apply orb_true_iff in Hy as [?%Z.ltb_lt|?%Z.leb_le]; lia.
Qed.

(** Two holidays are the same day or at least four days apart. *)
Lemma holidays_apart a b : is_holiday a -> is_holiday b -> a < b -> 4 <= b - a.
Proof.
  intros (la & Ea & Ha) (lb & Eb & Hb) Hlt.
  apply holidays_ok in Ea as [Sa Ea], Eb as [Sb Eb].
  destruct (supported_table _ Sa) as (la' & Ea' & Ca). rewrite Ea in Ea'. injection Ea' as <-.
  destruct (table_facts _ _ _ Ea Ca Ha) as (_ & Hp & He).
  pose proof (days_of_year a). pose proof (days_of_year b).
  destruct (Z.eq_dec (date_year a) (date_year b)) as [Hy|Hy].
  - rewrite <- Hy, Ea in Eb. injection Eb as <-. destruct (Hp b Hb); lia.
  - assert (date_year a < date_year b).
    { destruct (Z.lt_trichotomy (date_year a) (date_year b)) as [?|[?|?]]; [done|done|].
      pose proof (days_before_year_mono (date_year b + 1) (date_year a)). lia. }
    pose proof (days_before_year_mono (date_year a + 1) (date_year b)). lia.
Qed.

(** ** The walk ends within four days *)

Lemma add_days_ok d k d' : add_days d k = Ok d' -> d' = d + k.
Proof. unfold add_days, date_add. by destruct (date_ok _); intros [= <-]. Qed.

(** No four consecutive days are all non-business days. *)
Lemma no_four_off d :
  is_business_day (d + 1) = Ok false -> is_business_day (d + 2) = Ok false ->
  is_business_day (d + 3) = Ok false -> is_business_day (d + 4) = Ok false -> False.
Proof.
  intros H1%not_business_day H2%not_business_day H3%not_business_day H4%not_business_day.
  assert (forall a b, is_holiday a -> is_holiday b -> a < b -> b <= a + 3 -> False) as Hap.
  { intros a b Ha Hb Hlt Hle. pose proof (holidays_apart a b Ha Hb Hlt). lia. }
  destruct H1 as [H1|[_ H1]], H2 as [H2|[_ H2]]; try (eapply Hap; [exact H1|exact H2|lia|lia]);
    destruct H3 as [H3|[_ H3]]; try (eapply Hap; [exact H1|exact H3|lia|lia]);
    try (eapply Hap; [exact H2|exact H3|lia|lia]);
    destruct H4 as [H4|[_ H4]]; try (eapply Hap; [exact H1|exact H4|lia|lia]);
    try (eapply Hap; [exact H2|exact H4|lia|lia]); try (eapply Hap; [exact H3|exact H4|lia|lia]);
    unfold weekday in *; zdiv.
Qed.

Definition out_of_fuel {A} (r : res A) : Prop := r = Err (OtherError "OutOfFuel" "").

Lemma is_business_day_err d e : is_business_day d = Err e -> exists w, e = CalendarError w \/ e = ValueError w \/ e = OverflowError.
Proof.
  unfold is_business_day. destruct (5 <=? weekday d); [done|]. unfold res_bind, holidays.
  destruct (supported_year (date_year d)) eqn:E.
  - destruct (supported_table _ E) as (l & -> & _). done.
  - intros [= <-]. eauto.
Qed.

(** A business-day test raises only for a weekday outside the supported years. *)
Lemma is_business_day_total d :
  supported_year (date_year d) = true -> exists b, is_business_day d = Ok b.
Proof.
  intros E. unfold is_business_day. destruct (5 <=? weekday d); [by eexists|].
  unfold res_bind, holidays. rewrite E. destruct (supported_table _ E) as (l & -> & _). by eexists.
Qed.

(** The specification of a walk that returned. *)
Lemma walk_ok fuel dir d r :
  dir = 1 \/ dir = -1 -> walk fuel dir d = Ok r ->
  exists k, 1 <= k <= Z.of_nat fuel /\ r = d + k * dir /\ is_business_day r = Ok true /\
    forall i, 1 <= i < k -> is_business_day (d + i * dir) = Ok false.
Proof.
  intros Hdir. revert d. induction fuel as [|fuel IH]; intros d; cbn [walk]; [done|].
  unfold res_bind. destruct (add_days d dir) as [n|e] eqn:En; [|done].
  apply add_days_ok in En as ->.
  destruct (is_business_day (d + dir)) as [[|]|e] eqn:Eb; [| |done].
  - intros [= <-]. exists 1. split; [lia|]. split; [lia|]. split; [done|]. intros; lia.
  - intros H. destruct (IH _ H) as (k & Hk & -> & Hb & Hi). exists (k + 1).
    split; [lia|]. split; [lia|]. split; [done|]. intros i Hi'.
    destruct (Z.eq_dec i 1) as [->|]; [by rewrite Z.mul_1_l|].
    replace (d + i * dir) with (d + dir + (i - 1) * dir) by lia. apply Hi. lia.
Qed.

(** A walk that runs out of fuel saw only non-business days. *)
Lemma walk_out fuel dir d :
  out_of_fuel (walk fuel dir d) ->
  forall i, 1 <= i <= Z.of_nat fuel -> is_business_day (d + i * dir) = Ok false.
Proof.
  unfold out_of_fuel. revert d. induction fuel as [|fuel IH]; intros d H i Hi; [lia|].
  cbn [walk] in H. unfold res_bind in H. destruct (add_days d dir) as [n|e] eqn:En.
  - apply add_days_ok in En as ->.
    destruct (is_business_day (d + dir)) as [[|]|e] eqn:Eb; [done| |].
    + destruct (Z.eq_dec i 1) as [->|]; [by rewrite Z.mul_1_l|].
      replace (d + i * dir) with (d + dir + (i - 1) * dir) by lia. apply IH; [done|lia].
    + injection H as ->. apply is_business_day_err in Eb as (w & [|[|]]); done.
  - unfold add_days, date_add in En. destruct (date_ok _); [done|]. injection En as <-. done.
Qed.

Lemma walk_fuel_enough fuel dir d :
  (4 <= fuel)%nat -> dir = 1 \/ dir = -1 -> ~ out_of_fuel (walk fuel dir d).
Proof.
  intros Hf Hdir H. pose proof (walk_out fuel dir d H) as Hall.
  destruct Hdir as [-> | ->].
  - apply (no_four_off d); [rewrite <- (Z.mul_1_r 1)|rewrite <- (Z.mul_1_r 2)|
      rewrite <- (Z.mul_1_r 3)|rewrite <- (Z.mul_1_r 4)]; apply Hall; lia.
  - apply (no_four_off (d - 5));
      [replace (d - 5 + 1) with (d + 4 * -1) by lia|replace (d - 5 + 2) with (d + 3 * -1) by lia|
       replace (d - 5 + 3) with (d + 2 * -1) by lia|replace (d - 5 + 4) with (d + 1 * -1) by lia];
      apply Hall; lia.
Qed.

(** More fuel does not change a walk that ended. *)
Lemma walk_mono fuel fuel' dir d :
  (fuel <= fuel')%nat -> ~ out_of_fuel (walk fuel dir d) -> walk fuel' dir d = walk fuel dir d.
Proof.
  unfold out_of_fuel. revert fuel' d. induction fuel as [|fuel IH]; intros fuel' d Hle H; [done|].
  destruct fuel' as [|fuel']; [lia|]. cbn [walk] in *. unfold res_bind in *.
  destruct (add_days d dir); [|done]. destruct (is_business_day _) as [[]|]; [done| |done].
  apply IH; [lia|done].
Qed.

Lemma walk_four dir d : dir = 1 \/ dir = -1 -> walk WALK_FUEL dir d = walk 4 dir d.
Proof.
  intros H. apply walk_mono; [unfold WALK_FUEL; lia|]. apply walk_fuel_enough; [lia|done].
Qed.

(** ** Adding business days is iterating the walk *)

Fixpoint iterate_walk (dir : Z) (n : nat) (d : date) : res date :=
  match n with
  | O => Ok d
  | S n' => letr! d' := walk WALK_FUEL dir d in iterate_walk dir n' d'
  end.

Lemma add_loop_zero fuel dir d : add_loop fuel dir 0 d = Ok d.
Proof. by destruct fuel. Qed.

(** Part of the loop up to the first business day is a walk. *)
Lemma add_loop_walk w dir n d fuel :
  0 < n -> ~ out_of_fuel (walk w dir d) ->
  exists fuel', (fuel <= fuel')%nat /\ (fuel' <= fuel + w)%nat /\
    add_loop (fuel + w) dir n d =
      letr! d' := walk w dir d in add_loop fuel' dir (n - 1) d'.
Proof.
  unfold out_of_fuel. intros Hn. revert d. induction w as [|w IH]; intros d H; [done|].
  replace (fuel + S w)%nat with (S (fuel + w)) by lia. cbn [add_loop walk] in *.
  rewrite (proj2 (Z.ltb_lt 0 n) Hn). unfold res_bind in *.
  destruct (add_days d dir) as [d'|e]; [|exists fuel; split; [lia|split; [lia|done]]].
  destruct (is_business_day d') as [[]|e].
  - exists (fuel + w)%nat. split; [lia|split; [lia|done]].
  - destruct (IH d' H) as (f' & H1 & H2 & E). exists f'. split; [done|split; [lia|exact E]].
  - exists fuel. split; [lia|split; [lia|done]].
Qed.

Lemma add_loop_iterate n dir d fuel :
  dir = 1 \/ dir = -1 -> (WALK_FUEL * n <= fuel)%nat ->
  add_loop fuel dir (Z.of_nat n) d = iterate_walk dir n d.
Proof.
  intros Hdir. revert d fuel. induction n as [|n IH]; intros d fuel Hf; [apply add_loop_zero|].
  assert (~ out_of_fuel (walk WALK_FUEL dir d)) as Hw by (apply walk_fuel_enough; [unfold WALK_FUEL; lia|done]).
  destruct (add_loop_walk WALK_FUEL dir (Z.of_nat (S n)) d (fuel - WALK_FUEL) ltac:(lia) Hw)
    as (f' & H1 & H2 & E).
  replace (fuel - WALK_FUEL + WALK_FUEL)%nat with fuel in E by (unfold WALK_FUEL in *; lia).
  rewrite E. cbn [iterate_walk]. unfold res_bind. destruct (walk WALK_FUEL dir d) as [d'|e]; [|done].
  replace (Z.of_nat (S n) - 1) with (Z.of_nat n) by lia. apply IH. unfold WALK_FUEL in *. lia.
Qed.

Definition direction_of (n : Z) : Z := if 0 <=? n then 1 else -1.

Lemma direction_cases n : direction_of n = 1 \/ direction_of n = -1.
Proof. unfold direction_of. destruct (0 <=? n); auto. Qed.

Lemma add_business_days_iterate d n :
  add_business_days d n = iterate_walk (direction_of n) (Z.to_nat (Z.abs n)) d.
Proof.
  unfold add_business_days. fold (direction_of n).
  rewrite <- (add_loop_iterate _ (direction_of n) d (WALK_FUEL * Z.to_nat (Z.abs n)))
    by (lia || apply direction_cases).
  f_equal. lia.
Qed.

Lemma iterate_walk_fuel dir n d :
  dir = 1 \/ dir = -1 -> ~ out_of_fuel (iterate_walk dir n d).
Proof.
  intros Hdir. unfold out_of_fuel. revert d. induction n as [|n IH]; intros d; cbn [iterate_walk]; [done|].
  assert (~ out_of_fuel (walk WALK_FUEL dir d)) as Hw by (apply walk_fuel_enough; [unfold WALK_FUEL; lia|done]).
  unfold out_of_fuel, res_bind in *. destruct (walk WALK_FUEL dir d); [apply IH|done].
Qed.

(** How many of the [k] days from [d] on in direction [dir] are business days. *)
Fixpoint business_days (dir : Z) (k : nat) (d : date) : Z :=
  match k with
  | O => 0
  | S k' => (match is_business_day (d + dir) with Ok true => 1 | _ => 0 end) +
            business_days dir k' (d + dir)
  end.

Lemma business_days_app dir a b d :
  business_days dir (a + b) d = business_days dir a d + business_days dir b (d + Z.of_nat a * dir).
Proof.
  revert d. induction a as [|a IH]; intros d; cbn [business_days Nat.add].
  - replace (d + Z.of_nat 0 * dir) with d by lia. lia.
  - rewrite IH. replace (d + dir + Z.of_nat a * dir) with (d + Z.of_nat (S a) * dir) by lia. lia.
Qed.

(** A single walk crosses exactly one business day, its end. *)
Lemma walk_counts dir d k :
  0 <= k -> is_business_day (d + (k + 1) * dir) = Ok true ->
  (forall i, 1 <= i < k + 1 -> is_business_day (d + i * dir) = Ok false) ->
  business_days dir (Z.to_nat (k + 1)) d = 1.
Proof.
  intros Hk. revert d. replace k with (Z.of_nat (Z.to_nat k)) by lia.
  induction (Z.to_nat k) as [|n IH]; intros d He Hi.
  - change (Z.to_nat (Z.of_nat 0 + 1)) with 1%nat. cbn [business_days].
    replace (d + (Z.of_nat 0 + 1) * dir) with (d + dir) in He by lia. by rewrite He.
  - replace (Z.to_nat (Z.of_nat (S n) + 1)) with (S (Z.to_nat (Z.of_nat n + 1))) by lia.
    cbn [business_days]. replace (d + dir) with (d + 1 * dir) by lia. rewrite (Hi 1) by lia.
    rewrite IH; [lia| |].
    + by replace (d + 1 * dir + (Z.of_nat n + 1) * dir) with (d + (Z.of_nat (S n) + 1) * dir) by lia.
    + intros i Hi'. replace (d + 1 * dir + i * dir) with (d + (i + 1) * dir) by lia. apply Hi. lia.
Qed.

Lemma iterate_walk_counts dir n d r :
  dir = 1 \/ dir = -1 -> iterate_walk dir n d = Ok r ->
  exists k, r = d + Z.of_nat k * dir /\ business_days dir k d = Z.of_nat n /\
    (n <> 0%nat -> is_business_day r = Ok true) /\ (k <= 4 * n)%nat.
Proof.
  intros Hdir. revert d. induction n as [|n IH]; intros d; cbn [iterate_walk].
  - intros [= <-]. exists 0%nat. split; [lia|]. split; [done|]. split; [done|lia].
  - unfold res_bind. destruct (walk WALK_FUEL dir d) as [d'|e] eqn:E; [|done]. intros H.
    rewrite walk_four in E by done. apply walk_ok in E as (k & Hk & -> & Hb & Hi); [|done].
    destruct (IH _ H) as (j & -> & Hc & Hl & Hj).
    exists (Z.to_nat k + j)%nat. split; [lia|]. split; [|split; [|lia]].
    + rewrite business_days_app. replace (Z.of_nat (Z.to_nat k)) with k by lia. rewrite Hc.
      replace (Z.to_nat k) with (Z.to_nat (k - 1 + 1)) by lia.
      rewrite walk_counts; [lia|lia| |].
      * by replace (k - 1 + 1) with k by lia.
      * intros i Hi'. apply Hi. lia.
    + intros _. destruct n as [|n]; [|by apply Hl].
      cbn in H. injection H as H. rewrite <- H. exact Hb.
Qed.

(** ** Properties *)

Lemma date_year_mono a b : a <= b -> date_year a <= date_year b.
Proof.
  intros H. pose proof (days_of_year a). pose proof (days_of_year b).
  destruct (Z.le_gt_cases (date_year a) (date_year b)); [done|exfalso].
  pose proof (days_before_year_mono (date_year b + 1) (date_year a)). lia.
Qed.

Lemma supported_between a x b :
  a <= x <= b -> supported_year (date_year a) = true -> supported_year (date_year b) = true ->
  supported_year (date_year x) = true /\ date_ok x = true.
Proof.
  intros Hx Ha Hb. pose proof (date_year_mono a x). pose proof (date_year_mono x b).
  assert (supported_year (date_year x) = true) as Hs.
  { unfold supported_year in *. simpl_bool. apply andb_true_iff. split; [apply Z.leb_le|apply Z.ltb_lt]; lia. }
  split; [done|]. pose proof (days_of_year x). unfold supported_year in Hs. simpl_bool.
  pose proof (days_before_year_mono 2020 (date_year x)).
  pose proof (days_before_year_mono (date_year x + 1) 2041).
  assert (days_before_year 2020 = 737424) by reflexivity.
  assert (days_before_year 2041 = 745095) by reflexivity.
  unfold date_ok, MAXORDINAL. apply andb_true_iff. split; apply Z.leb_le; lia.
Qed.

Lemma walk_in_window fuel dir d :
  (forall i, 1 <= i <= Z.of_nat fuel -> supported_year (date_year (d + i * dir)) = true /\
     date_ok (d + i * dir) = true) ->
  (exists r, walk fuel dir d = Ok r) \/ out_of_fuel (walk fuel dir d).
Proof.
  revert d. induction fuel as [|fuel IH]; intros d H; [by right|]. cbn [walk].
  destruct (H 1 ltac:(lia)) as [Hy Hd]. rewrite Z.mul_1_l in Hy, Hd.
  unfold add_days, date_add, res_bind. rewrite Hd. cbn [or_raise].
  destruct (is_business_day_total _ Hy) as [[] ->]; [left; by eexists|].
  apply IH. intros i Hi. replace (d + dir + i * dir) with (d + (i + 1) * dir) by lia. apply H. lia.
Qed.

Lemma walk_exists dir d :
  dir = 1 \/ dir = -1 -> supported_year (date_year d) = true ->
  supported_year (date_year (d + 4 * dir)) = true -> exists r, walk WALK_FUEL dir d = Ok r.
Proof.
  intros Hdir Ha Hb.
  assert (~ out_of_fuel (walk 4 dir d)) as Hf by (apply walk_fuel_enough; [lia|done]).
  rewrite walk_four by done.
  destruct (walk_in_window 4 dir d) as [?|?]; [|done|done].
  intros i Hi. destruct Hdir as [-> | ->].
  - by apply (supported_between d _ (d + 4 * 1)); [lia|..].
  - by apply (supported_between (d + 4 * -1) _ d); [lia|..].
Qed.

Lemma walk_spec dir d r :
  dir = 1 \/ dir = -1 -> walk WALK_FUEL dir d = Ok r ->
  exists k, 1 <= k <= 4 /\ r = d + k * dir /\ is_business_day r = Ok true /\
    forall i, 1 <= i < k -> is_business_day (d + i * dir) = Ok false.
Proof.
  intros Hdir H. rewrite walk_four in H by done. by apply walk_ok in H.
Qed.

(** C19: the business-day walks.  [next_business_day] returns the first business
    day after its argument and [previous_business_day] the last one before it,
    at most four days away; both exist whenever the argument and the day four
    days on lie in the supported years.  [add_business_days] terminates for
    every argument (the fuel of the model is never exhausted, and no walk can
    loop for ever), and when it returns it has crossed exactly [n] business days
    in the direction of [n], ending on one unless [n] is 0. *)
Theorem business_day_walks :
  (forall d r, next_business_day d = Ok r ->
     d < r <= d + 4 /\ is_business_day r = Ok true /\
     forall x, d < x < r -> is_business_day x = Ok false) /\
  (forall d r, previous_business_day d = Ok r ->
     d - 4 <= r < d /\ is_business_day r = Ok true /\
     forall x, r < x < d -> is_business_day x = Ok false) /\
  (forall d, supported_year (date_year d) = true -> supported_year (date_year (d + 4)) = true ->
     (exists r, next_business_day d = Ok r) /\ (exists r, previous_business_day (d + 4) = Ok r)) /\
  (forall d n, ~ out_of_fuel (next_business_day d) /\ ~ out_of_fuel (previous_business_day d) /\
     ~ out_of_fuel (add_business_days d n)) /\
  (forall d n r, add_business_days d n = Ok r ->
     exists k, r = d + Z.of_nat k * direction_of n /\
       business_days (direction_of n) k d = Z.abs n /\
       (n <> 0 -> is_business_day r = Ok true) /\ (n = 0 -> r = d)).
Proof.
  split; [|split; [|split; [|split]]].
  - intros d r H. apply walk_spec in H as (k & Hk & -> & Hb & Hi); [|by left].
    split; [lia|]. split; [done|]. intros x Hx. replace x with (d + (x - d) * 1) by lia. apply Hi. lia.
  - intros d r H. apply walk_spec in H as (k & Hk & -> & Hb & Hi); [|by right].
    split; [lia|]. split; [done|]. intros x Hx. replace x with (d + (d - x) * -1) by lia. apply Hi. lia.
  - intros d Ha Hb. split; apply walk_exists; auto.
    by replace (d + 4 + 4 * -1) with d by lia.
  - intros d n. rewrite add_business_days_iterate. assert (4 <= WALK_FUEL)%nat by (unfold WALK_FUEL; lia).
    split; [apply walk_fuel_enough; [done|by left]|].
    split; [apply walk_fuel_enough; [done|by right]|]. apply iterate_walk_fuel, direction_cases.
  - intros d n r H. rewrite add_business_days_iterate in H.
    apply iterate_walk_counts in H as (k & -> & Hc & Hl & Hk); [|apply direction_cases].
    exists k. split; [done|]. split; [lia|]. split; [intros; apply Hl; lia|].
    intros ->. cbn in Hk. assert (k = 0%nat) as -> by lia. lia.
Qed.

Definition new_year_check (y : Z) : bool :=
  negb (weekday (ymd2ord y 1 1) =? 5) ||
  match us_federal_holidays y, is_business_day (ymd2ord (y - 1) 12 31) with
  | Ok l, Ok b => existsb (Z.eqb (ymd2ord (y - 1) 12 31)) l && b
  | _, _ => false
  end.

Lemma new_years_checked : forallb new_year_check (zrange 2021 20) = true.
Proof. vm_compute. reflexivity. Qed.

(** The observed New Year's Day is lost.  When 1 January of a supported year
    is a Saturday the table of that year lists its observed day, 31 December of
    the year before, but [is_business_day] consults the table of the day's own
    year and calls it a business day. *)
Theorem observed_new_year_is_business_day y :
  2021 <= y <= 2040 -> weekday (ymd2ord y 1 1) = 5 ->
  (exists l, holidays y = Ok l /\ In (ymd2ord (y - 1) 12 31) l) /\
  is_business_day (ymd2ord (y - 1) 12 31) = Ok true.
Proof.
  intros Hy Hw. pose proof (forallb_zrange _ _ _ new_years_checked y ltac:(lia)) as Hc.
  unfold new_year_check in Hc. rewrite Hw in Hc. cbn [Z.eqb Pos.eqb negb orb] in Hc.
  assert (supported_year y = true) as Hs.
  { unfold supported_year. apply andb_true_iff. split; [apply Z.leb_le|apply Z.ltb_lt]; lia. }
  unfold holidays at 1. rewrite Hs. destruct (us_federal_holidays y) as [l|]; [|done].
  destruct (is_business_day _) as [b|]; [|done]. apply andb_prop in Hc as [Hin ->].
  apply existsb_exists in Hin as (x & Hx & ->%Z.eqb_eq). split; [by exists l|done].
Qed.

Lemma observed_new_year_is_business_day_witness :
  is_business_day (ymd2ord 2021 12 31) = Ok true.
Proof. apply (observed_new_year_is_business_day 2022); [lia|reflexivity]. Defined.
