(* ===== verification/DeadlineTypes.v ===== *)
(** * DeadlineTypes: core/services/deadline/types.py

    The records of the deadline engine: rule references, rules with their
    offsets, reminders and escalation levels, computation traces, scheduled
    deadlines and reminders, drift findings. *)

From Stdlib Require Import ZArith Lia Ascii String List.
From stdpp Require Import base list strings pretty.
From S2P Require Import Prelude PyTime ConnErrors Effects.

Open Scope string_scope.
Open Scope list_scope.
Open Scope Z_scope.

Definition ENGINE_VERSION : string := "1.0.0".

Record RuleRef := mk_RuleRef {
  rr_rule_id : string;
  rr_rule_version : string;
  rr_jurisdiction : string;
  rr_practice_area : option string }.

Record Offset := mk_Offset {
  of_days : Z; of_business_days : Z; of_weeks : Z; of_months : Z; of_years : Z }.

Inductive ReminderUnit := UDays | UBusinessDays.

Definition unit_value (u : ReminderUnit) : string :=
  match u with UDays => "days" | UBusinessDays => "business_days" end.

Record ReminderOffset := mk_ReminderOffset {
  ro_amount : Z; ro_unit : ReminderUnit; ro_label : option string }.

Inductive EscalationTrigger := ReminderMissed | Approaching | AfterDue.

Record EscalationLevel := mk_EscalationLevel {
  el_trigger : EscalationTrigger;
  el_after : option ReminderOffset;
  el_recipients : list string }.

Record EscalationPolicy := mk_EscalationPolicy { ep_levels : list EscalationLevel }.

Record DeadlineRule := mk_DeadlineRule {
  dr_rule_id : string;
  dr_jurisdiction : string;
  dr_practice_area : option string;
  dr_trigger : string;
  dr_offset : Offset;
  dr_adjust : string;
  dr_calendar_id : string;
  dr_reminders : list ReminderOffset;
  dr_escalation : EscalationPolicy;
  dr_description : string;
  dr_assumption_unconfirmed : bool }.

Record ComputationTrace := mk_ComputationTrace {
  ct_rule_ref : RuleRef;
  ct_trigger_field : string;
  ct_trigger_value : datetime;
  ct_offset : Offset;
  ct_raw_due : datetime;
  ct_calendar_id : string;
  ct_calendar_version : string;
  ct_adjustment : string;
  ct_due_at : datetime;
  ct_computed_at : datetime;
  ct_engine_version : string }.

Inductive ReminderStatus := RArmed | RFired | RMissed | RSkippedPast.

#[export] Instance ReminderStatus_eq_dec : EqDecision ReminderStatus.
Proof. solve_decision. Defined.

Record ScheduledReminder := mk_ScheduledReminder {
  sr_id : string;
  sr_deadline_id : string;
  sr_fire_at : datetime;
  sr_offset : ReminderOffset;
  sr_status : ReminderStatus;
  sr_idempotency_key : string;
  sr_redundant_arm_ids : list string }.

Record ScheduledDeadline := mk_ScheduledDeadline {
  sd_deadline_id : string;
  sd_matter_id : string;
  sd_rule_ref : RuleRef;
  sd_trace : ComputationTrace;
  sd_reminders : list ScheduledReminder;
  sd_flagged_past_due_on_create : bool;
  sd_idempotency_key : string;
  sd_escalation_level : Z }.

Inductive DriftKind := MissingInEngine | MissingInCase | DivergentDueAt | DivergentStatus.

#[export] Instance DriftKind_eq_dec : EqDecision DriftKind.
Proof. solve_decision. Defined.

Definition drift_kind_value (k : DriftKind) : string :=
  match k with
  | MissingInEngine => "missing_in_engine"
  | MissingInCase => "missing_in_case"
  | DivergentDueAt => "divergent_due_at"
  | DivergentStatus => "divergent_status"
  end.

Record Drift := mk_Drift {
  df_matter_id : string;
  df_deadline_id : option string;
  df_kind : DriftKind;
  df_detail : string;
  df_detected_at : datetime }.

(** [rem.model_copy(update=...)] and [sd.model_copy(update=...)]. *)
Definition rem_with_status (st : ReminderStatus) (r : ScheduledReminder) : ScheduledReminder :=
  mk_ScheduledReminder (sr_id r) (sr_deadline_id r) (sr_fire_at r) (sr_offset r) st
    (sr_idempotency_key r) (sr_redundant_arm_ids r).

Definition rem_with_deadline (did : string) (r : ScheduledReminder) : ScheduledReminder :=
  mk_ScheduledReminder (sr_id r) did (sr_fire_at r) (sr_offset r) (sr_status r)
    (sr_idempotency_key r) (sr_redundant_arm_ids r).

Definition sd_with_reminders (rs : list ScheduledReminder) (d : ScheduledDeadline) : ScheduledDeadline :=
  mk_ScheduledDeadline (sd_deadline_id d) (sd_matter_id d) (sd_rule_ref d) (sd_trace d) rs
    (sd_flagged_past_due_on_create d) (sd_idempotency_key d) (sd_escalation_level d).

Definition sd_with_level (n : Z) (d : ScheduledDeadline) : ScheduledDeadline :=
  mk_ScheduledDeadline (sd_deadline_id d) (sd_matter_id d) (sd_rule_ref d) (sd_trace d)
    (sd_reminders d) (sd_flagged_past_due_on_create d) (sd_idempotency_key d) n.
