(* ===== verification/Compute.v ===== *)
(** * Compute: core/services/deadline/compute.py

    Applying a rule's offset to its trigger date, adjusting to a business day
    and recording the computation trace; reminder previews; the read-only
    [deadline.compute] tool.  Datetimes are aware with a fixed offset. *)

From Stdlib Require Import ZArith Lia Ascii String List.
From stdpp Require Import base list strings pretty.
From S2P Require Import Prelude PyTime ConnErrors Effects Calendar DeadlineTypes.

Open Scope string_scope.
Open Scope list_scope.
Open Scope Z_scope.
Open Scope cam_scope.

(** [t + timedelta(days=k)] *)
Definition plus_days (t : datetime) (k : Z) : res datetime :=
  or_raise OverflowError (dt_add t (k * US_PER_DAY)).

(** [t.replace(year=y, month=m)], and again with [day=28] on [ValueError]. *)
Definition replace_clamped (t : datetime) (y m : Z) : res datetime :=
  match dt_replace t y m (date_day (dt_date t)) with
  | Some t' => Ok t'
  | None => or_raise (ValueError "year or month out of range") (dt_replace t y m 28)
  end.

Definition apply_years (years : Z) (t : datetime) : res datetime :=
  if years =? 0 then Ok t
  else replace_clamped t (date_year (dt_date t) + years) (date_month (dt_date t)).

Definition apply_months (months : Z) (t : datetime) : res datetime :=
  if months =? 0 then Ok t
  else
    let month := date_month (dt_date t) + months in
    let year := date_year (dt_date t) + (month - 1) / 12 in
    replace_clamped t year ((month - 1) mod 12 + 1).

Definition apply_days (days : Z) (t : datetime) : res datetime :=
  if days =? 0 then Ok t else plus_days t days.

Definition apply_business_days (n : Z) (t : datetime) : res datetime :=
  if n =? 0 then Ok t
  else letr! d := add_business_days (dt_date t) n in Ok (dt_combine d t).

Definition apply_offset (base : datetime) (o : Offset) : res datetime :=
  letr! t := apply_years (of_years o) base in
  letr! t := apply_months (of_months o) t in
  letr! t := apply_days (7 * of_weeks o) t in
  letr! t := apply_days (of_days o) t in
  apply_business_days (of_business_days o) t.

Section Compute.
Context (sha256_hex : string -> string).

(** [now] is the clock reading used when [as_of] is not given. *)
Definition compute_due_date (now : datetime) (rule : DeadlineRule)
    (trigger_inputs : dict string datetime) (as_of : option datetime) (rule_ref : option RuleRef)
    : res ComputationTrace :=
  match dget (dr_trigger rule) trigger_inputs with
  | None => Err (MissingTriggerError (dr_trigger rule))
  | Some trigger_value =>
      letr! cal := get_calendar (dr_calendar_id rule) in
      letr! raw_due := apply_offset trigger_value (dr_offset rule) in
      letr! adjusted_date := adjust (dt_date raw_due) (dr_adjust rule) in
      let due_at := dt_combine adjusted_date raw_due in
      let rule_ref := match rule_ref with
                      | Some r => r
                      | None => mk_RuleRef (dr_rule_id rule) "unknown" (dr_jurisdiction rule) None
                      end in
      letr! version := calendar_version sha256_hex in
      Ok (mk_ComputationTrace rule_ref (dr_trigger rule) trigger_value (dr_offset rule) raw_due
            (dr_calendar_id rule) version (dr_adjust rule) due_at
            (match as_of with Some t => t | None => now end) ENGINE_VERSION)
  end.

(** The instant a reminder offset stands for, relative to the due date. *)
Definition reminder_fire_at (due_at : datetime) (rem : ReminderOffset) : res datetime :=
  letr! fire_date :=
    match ro_unit rem with
    | UBusinessDays => add_business_days (dt_date due_at) (ro_amount rem)
    | UDays => letr! t := plus_days due_at (ro_amount rem) in Ok (dt_date t)
    end in
  Ok (dt_combine fire_date due_at).

Record ReminderPreview := mk_ReminderPreview {
  rp_label : option string; rp_amount : Z; rp_unit : ReminderUnit; rp_fire_at : string;
  rp_before_due : bool }.

Definition preview_reminders (rule : DeadlineRule) (due_at : datetime) : res (list ReminderPreview) :=
  letr! cal := get_calendar (dr_calendar_id rule) in
  map_res (fun rem =>
    letr! fire_at := reminder_fire_at due_at rem in
    Ok (mk_ReminderPreview (ro_label rem) (ro_amount rem) (ro_unit rem) (isoformat fire_at)
          (dt_lt fire_at due_at))) (dr_reminders rule).

Record ComputeResult := mk_ComputeResult {
  cr_due_at : datetime; cr_trace : ComputationTrace; cr_reminders_preview : list ReminderPreview;
  cr_past_due_flag : bool }.

Context {W : Type} (audit_fn : option (AuditEvent -> M W unit)).

(** [deadline.compute]: reads only; the audit callback's failure is dropped. *)
Definition tool_deadline_compute (now : datetime) (rule : DeadlineRule)
    (trigger_inputs : dict string datetime) (rule_ref : option RuleRef) (as_of : option datetime)
    : M W ComputeResult :=
  let now := match as_of with Some t => t | None => now end in
  let! trace := lift_res (compute_due_date now rule trigger_inputs (Some now) rule_ref) in
  let past_due_flag := dt_lt (ct_due_at trace) now in
  let! preview := lift_res (preview_reminders rule (ct_due_at trace)) in
  match audit_fn with
  | None => ret tt
  | Some f => try_pass (f (mk_AuditEvent "deadline_engine" "deadline.compute"
      [("rule_id", JStr (dr_rule_id rule)); ("trigger_field", JStr (dr_trigger rule));
       ("jurisdiction", JStr (dr_jurisdiction rule))]
      [("due_at", JStr (isoformat (ct_due_at trace))); ("past_due_flag", JBool past_due_flag);
       ("engine_version", JStr ENGINE_VERSION)] None))
  end ;;
  ret (mk_ComputeResult (ct_due_at trace) trace preview past_due_flag).

(** ** Lemmas *)

Lemma plus_days_shape t k t' :
  plus_days t k = Ok t' -> 0 <= dt_us t < US_PER_DAY ->
  dt_us t' = dt_us t /\ dt_off t' = dt_off t /\ dt_date t' = dt_date t + k.
Proof.
  unfold plus_days. intros H Hb. destruct (dt_add t _) as [x|] eqn:E; [|done]. injection H as ->.
  pose proof (dt_add_off _ _ _ E). apply dt_add_days in E; tauto.
Qed.

Lemma replace_clamped_shape t y m t' :
  replace_clamped t y m = Ok t' ->
  dt_us t' = dt_us t /\ dt_off t' = dt_off t /\
  (ymd_ok y m (date_day (dt_date t)) = true -> dt_date t' = ymd2ord y m (date_day (dt_date t))) /\
  (ymd_ok y m (date_day (dt_date t)) = false -> dt_date t' = ymd2ord y m 28).
Proof.
  unfold replace_clamped, dt_replace, mk_date. destruct (ymd_ok y m (date_day _)) eqn:E.
  - intros [= <-]. do 2 (split; [done|]). split; [done|congruence].
  - destruct (ymd_ok y m 28) eqn:E2; cbn; [|done]. intros [= <-]. do 2 (split; [done|]). split; [congruence|done].
Qed.

(** Same time of day and time zone. *)
Definition same_clock (t t' : datetime) : Prop := dt_us t' = dt_us t /\ dt_off t' = dt_off t.

Lemma same_clock_trans a b c : same_clock a b -> same_clock b c -> same_clock a c.
Proof. unfold same_clock. intros [-> ->] [-> ->]. done. Qed.

Lemma res_bind_ok {A B} (r : res A) (f : A -> res B) b :
  res_bind r f = Ok b -> exists a, r = Ok a /\ f a = Ok b.
Proof. destruct r; cbn; [eauto|done]. Qed.

Lemma apply_years_clock n t t' : apply_years n t = Ok t' -> same_clock t t'.
Proof.
  unfold apply_years. destruct (n =? 0); [by intros [= <-]|].
  intros H. apply replace_clamped_shape in H as (? & ? & _). done.
Qed.

Lemma apply_months_clock n t t' : apply_months n t = Ok t' -> same_clock t t'.
Proof.
  unfold apply_months. destruct (n =? 0); [by intros [= <-]|].
  intros H. apply replace_clamped_shape in H as (? & ? & _). done.
Qed.

Lemma apply_days_clock n t t' :
  0 <= dt_us t < US_PER_DAY -> apply_days n t = Ok t' -> same_clock t t'.
Proof.
  unfold apply_days. intros Hb. destruct (n =? 0); [by intros [= <-]|].
  intros H. apply plus_days_shape in H as (? & ? & _); done.
Qed.

Lemma apply_business_days_clock n t t' : apply_business_days n t = Ok t' -> same_clock t t'.
Proof.
  unfold apply_business_days. destruct (n =? 0); [by intros [= <-]|].
  intros H. apply res_bind_ok in H as (d & _ & [= <-]). done.
Qed.

Lemma apply_offset_clock base o t :
  0 <= dt_us base < US_PER_DAY -> apply_offset base o = Ok t -> same_clock base t.
Proof.
  intros Hb H. unfold apply_offset in H.
  apply res_bind_ok in H as (t1 & E1 & H). apply res_bind_ok in H as (t2 & E2 & H).
  apply res_bind_ok in H as (t3 & E3 & H). apply res_bind_ok in H as (t4 & E4 & E5).
  apply apply_years_clock in E1. apply apply_months_clock in E2.
  pose proof (same_clock_trans _ _ _ E1 E2) as E12.
  apply apply_days_clock in E3; [|by destruct E12 as [-> _]].
  pose proof (same_clock_trans _ _ _ E12 E3) as E13.
  apply apply_days_clock in E4; [|by destruct E13 as [-> _]].
  apply apply_business_days_clock in E5. repeat (eapply same_clock_trans; [done|]). done.
Qed.

(** What the adjustment does to the raw date. *)
Definition adjusted (mode : string) (raw due : date) : Prop :=
  if String.eqb mode "next_business_day" then
    raw <= due <= raw + 4 /\ is_business_day due = Ok true /\
    forall x, raw <= x < due -> is_business_day x = Ok false
  else if String.eqb mode "previous_business_day" then
    raw - 4 <= due <= raw /\ is_business_day due = Ok true /\
    forall x, due < x <= raw -> is_business_day x = Ok false
  else due = raw.

Lemma adjust_ok mode d d' : adjust d mode = Ok d' -> adjusted mode d d'.
Proof.
  unfold adjust, adjusted. destruct (String.eqb mode "next_business_day").
  - intros H. apply res_bind_ok in H as ([] & Eb & H).
    + injection H as <-. split; [lia|]. split; [done|]. intros; lia.
    + apply walk_spec in H as (k & Hk & -> & Hb & Hi); [|by left].
      split; [lia|]. split; [done|]. intros x Hx.
      destruct (Z.eq_dec x d) as [->|]; [done|].
      replace x with (d + (x - d) * 1) by lia. apply Hi. lia.
  - destruct (String.eqb mode "previous_business_day").
    + intros H. apply res_bind_ok in H as ([] & Eb & H).
      * injection H as <-. split; [lia|]. split; [done|]. intros; lia.
      * apply walk_spec in H as (k & Hk & -> & Hb & Hi); [|by right].
        split; [lia|]. split; [done|]. intros x Hx.
        destruct (Z.eq_dec x d) as [->|]; [done|].
        replace x with (d + (d - x) * -1) by lia. apply Hi. lia.
    + destruct (String.eqb mode "none"); [by intros [= <-]|done].
Qed.

(** The due date recomputed from a trace's own fields. *)
Definition reconstruct (t : ComputationTrace) : res datetime :=
  letr! raw := apply_offset (ct_trigger_value t) (ct_offset t) in
  letr! d := adjust (dt_date raw) (ct_adjustment t) in
  Ok (dt_combine d raw).

Lemma compute_due_date_ok now rule inputs as_of rr tr :
  compute_due_date now rule inputs as_of rr = Ok tr ->
  dget (dr_trigger rule) inputs = Some (ct_trigger_value tr) /\
  ct_trigger_field tr = dr_trigger rule /\ ct_offset tr = dr_offset rule /\
  ct_adjustment tr = dr_adjust rule /\ ct_calendar_id tr = dr_calendar_id rule /\
  apply_offset (ct_trigger_value tr) (dr_offset rule) = Ok (ct_raw_due tr) /\
  exists d, adjust (dt_date (ct_raw_due tr)) (dr_adjust rule) = Ok d /\
    ct_due_at tr = dt_combine d (ct_raw_due tr).
Proof.
  unfold compute_due_date. destruct (dget _ inputs) as [v|] eqn:Ev; [|done]. intros H.
  apply res_bind_ok in H as (cal & _ & H). apply res_bind_ok in H as (raw & Er & H).
  apply res_bind_ok in H as (d & Ed & H). apply res_bind_ok in H as (ver & _ & H).
  injection H as <-. cbn. repeat (split; [done|]). by exists d.
Qed.

(** C18: the computed due date.  A successful computation found the rule's
    trigger among the inputs; the due date keeps the trigger's time of day and
    time zone; under [next_business_day] ([previous_business_day]) it is the
    first business day at or after (the last at or before) the raw date, at most
    four days away, and under [none] the raw date itself; and it can be
    recomputed from the fields of the trace alone. *)
Theorem compute_due_date_correct now rule inputs as_of rr tr :
  compute_due_date now rule inputs as_of rr = Ok tr ->
  0 <= dt_us (ct_trigger_value tr) < US_PER_DAY ->
  dget (dr_trigger rule) inputs = Some (ct_trigger_value tr) /\
  same_clock (ct_trigger_value tr) (ct_due_at tr) /\
  adjusted (dr_adjust rule) (dt_date (ct_raw_due tr)) (dt_date (ct_due_at tr)) /\
  reconstruct tr = Ok (ct_due_at tr).
Proof.
  intros H Hb. apply compute_due_date_ok in H as (Hv & _ & Ho & Ha & _ & Hraw & d & Hd & Hdue).
  split; [done|]. rewrite Hdue. split; [|split].
  - eapply same_clock_trans; [by eapply apply_offset_clock|]. done.
  - cbn. by apply adjust_ok.
  - unfold reconstruct. rewrite Ho, Ha, Hraw. cbn. by rewrite Hd.
Qed.

(** Month arithmetic clamps to the 28th.  When the day of month does not
    exist in the target month of a supported year, adding months gives the
    28th of that month, even when the month has 29 or 30 days. *)
Theorem months_clamp_to_28 months t t' :
  months <> 0 -> apply_months months t = Ok t' ->
  let month := date_month (dt_date t) + months in
  let y := date_year (dt_date t) + (month - 1) / 12 in
  let m := (month - 1) mod 12 + 1 in
  (date_day (dt_date t) <= days_in_month y m -> 1 <= y <= 9999 ->
     dt_date t' = ymd2ord y m (date_day (dt_date t))) /\
  (days_in_month y m < date_day (dt_date t) -> dt_date t' = ymd2ord y m 28).
Proof.
  intros Hm H month y m. unfold apply_months in H. apply Z.eqb_neq in Hm. rewrite Hm in H.
  fold month in H. fold y in H. fold m in H.
  apply replace_clamped_shape in H as (_ & _ & H1 & H2).
  destruct (ord2ymd (dt_date t)) as [[y0 m0] d0] eqn:E.
  pose proof (ord2ymd_spec _ _ _ _ E) as (_ & Hd0 & _).
  assert (date_day (dt_date t) = d0) as Hd by (unfold date_day; by rewrite E). rewrite Hd in *.
  assert (1 <= m <= 12) by (unfold m; zdiv). split.
  - intros Hle Hy. apply H1. unfold ymd_ok. repeat (apply andb_true_iff; split); apply Z.leb_le; lia.
  - intros Hlt. apply H2. unfold ymd_ok. apply andb_false_iff. right. apply Z.leb_gt. lia.
Qed.
End Compute.

(** *** Witnesses *)

Definition ex_rule : DeadlineRule :=
  mk_DeadlineRule "rfe" "US" None "receipt_date" (mk_Offset 0 0 0 1 0) "next_business_day" "us_federal"
    [mk_ReminderOffset (-3) UBusinessDays None; mk_ReminderOffset (-60) UDays (Some "early")]
    (mk_EscalationPolicy []) "" true.

Definition ex_receipt : datetime := utc_datetime (ymd2ord 2026 3 31) (9 * 3600 * US_PER_SECOND).

Definition ex_compute : res ComputationTrace :=
  compute_due_date (fun s => s) ex_receipt ex_rule [("receipt_date", ex_receipt)] None None.

Definition ex_trace : ComputationTrace :=
  mk_ComputationTrace (mk_RuleRef "rfe" "unknown" "US" None) "receipt_date" ex_receipt
    (mk_Offset 0 0 0 1 0) (utc_datetime (ymd2ord 2026 4 28) (9 * 3600 * US_PER_SECOND)) "us_federal"
    "usfed_2026-01-" "next_business_day"
    (utc_datetime (ymd2ord 2026 4 28) (9 * 3600 * US_PER_SECOND)) ex_receipt ENGINE_VERSION.

Lemma compute_due_date_correct_witness :
  ex_compute = Ok ex_trace /\ reconstruct ex_trace = Ok (ct_due_at ex_trace).
Proof.
  split; [vm_compute; reflexivity|].
  apply (compute_due_date_correct (fun s => s) ex_receipt ex_rule [("receipt_date", ex_receipt)]
           None None ex_trace); [vm_compute; reflexivity|vm_compute; split; [discriminate|reflexivity]].
Defined.

(** One month after 31 March is 28 April. *)
Lemma months_clamp_to_28_witness :
  dt_date (utc_datetime (ymd2ord 2026 4 28) (9 * 3600 * US_PER_SECOND)) = ymd2ord 2026 4 28.
Proof.
  apply (months_clamp_to_28 1 ex_receipt (utc_datetime (ymd2ord 2026 4 28) (9 * 3600 * US_PER_SECOND)));
    [discriminate|vm_compute; reflexivity|vm_compute; reflexivity].
Defined.
