(* ===== verification/Rules.v ===== *)
(** * Rules: core/services/deadline/rules.py

    The append-only rule registry with content-hash versions, and the YAML rule
    validator.  SHA-256, the YAML parser and the field coercions pydantic does
    are parameters; the order of the checks, which failures become
    [RuleValidationError] and which escape, and the registry itself are modelled. *)

From Stdlib Require Import ZArith Lia Ascii String List QArith.
From stdpp Require Import base list strings pretty.
From S2P Require Import Prelude PyTime ConnErrors Effects Calendar DeadlineTypes.

Open Scope string_scope.
Open Scope list_scope.
Open Scope Z_scope.
Open Scope cam_scope.

Definition SUPPORTED_CALENDARS : list string := ["us_federal"].

(** ** Reading a parsed YAML value *)

(** [raw.get(k, default)] *)
Definition json_get_or (k : string) (default : json) (raw : jdict) : json :=
  match dget k raw with Some v => v | None => default end.

(** [for x in v]: lists, the characters of a string, the keys of a dict. *)
Definition json_iter (v : json) : res (list json) :=
  match v with
  | JList l => Ok l
  | JStr s => Ok (map (fun c => JStr (String c EmptyString)) (list_ascii_of_string s))
  | JDict d => Ok (map JStr (dkeys d))
  | _ => Err (TypeError "object is not iterable")
  end.

(** [v in SUPPORTED_CALENDARS] *)
Definition supported_calendar (v : json) : res bool :=
  match v with
  | JStr s => Ok (str_in s SUPPORTED_CALENDARS)
  | JList _ | JDict _ => Err (TypeError "unhashable type")
  | _ => Ok false
  end.

(** pydantic's [str], [str | None] and [Literal] fields. *)
Definition field_str (v : json) : res string :=
  match v with JStr s => Ok s | _ => Err (ValidationError "Input should be a valid string") end.

Definition field_opt_str (v : json) : res (option string) :=
  match v with
  | JStr s => Ok (Some s)
  | JNull => Ok None
  | _ => Err (ValidationError "Input should be a valid string")
  end.

Definition ADJUST_MODES : list string := ["next_business_day"; "previous_business_day"; "none"].

Definition field_adjust (v : json) : res string :=
  match v with
  | JStr s => if str_in s ADJUST_MODES then Ok s else Err (ValidationError "literal_error")
  | _ => Err (ValidationError "literal_error")
  end.

(** [except Exception as exc: raise RuleValidationError(rule_id, ...)] *)
Definition rule_error {A} (rule_id : option json) (reason : string) (r : res A) : res A :=
  match r with Ok a => Ok a | Err _ => Err (RuleValidationError rule_id reason) end.

Section Parse.
Context (yaml_load : string -> res json).
Context (pydantic_offset : jdict -> res Offset).
Context (pydantic_reminder : jdict -> res ReminderOffset).
Context (pydantic_amount : json -> res Z).
Context (pydantic_level : json -> res EscalationLevel).
Context (pydantic_bool : json -> res bool).

Definition parse_offset (rule_id : json) (raw : jdict) : res Offset :=
  rule_error (Some rule_id) "Invalid offset"
    match json_get_or "offset" (JDict []) raw with
    | JDict d => pydantic_offset d
    | _ => Ok (mk_Offset 0 0 0 0 0)
    end.

Definition parse_reminder (rule_id v : json) : res ReminderOffset :=
  rule_error (Some rule_id) "Invalid reminder"
    match v with
    | JDict d => pydantic_reminder d
    | _ => letr! n := pydantic_amount v in Ok (mk_ReminderOffset n UDays None)
    end.

Definition parse_escalation (rule_id : json) (raw : jdict) : res EscalationPolicy :=
  rule_error (Some rule_id) "Invalid escalation"
    match json_get_or "escalation" (JDict []) raw with
    | JDict esc =>
        letr! lvls := json_iter (json_get_or "levels" (JList []) esc) in
        letr! levels := map_res pydantic_level lvls in
        Ok (mk_EscalationPolicy levels)
    | _ => Err (AttributeError "get")
    end.

(** The final [DeadlineRule(...)]: its validation errors are not wrapped. *)
Definition build_rule (rule_id trigger : json) (offset : Offset) (reminders : list ReminderOffset)
    (escalation : EscalationPolicy) (raw : jdict) : res DeadlineRule :=
  letr! rid := field_str rule_id in
  letr! jur := field_str (json_get_or "jurisdiction" (JStr "US") raw) in
  letr! area := field_opt_str (json_get_or "practice_area" JNull raw) in
  letr! trig := field_str trigger in
  letr! adj := field_adjust (json_get_or "adjust" (JStr "next_business_day") raw) in
  letr! cal := field_str (json_get_or "calendar_id" (JStr "us_federal") raw) in
  letr! desc := field_str (json_get_or "description" (JStr "") raw) in
  letr! unconfirmed := pydantic_bool (json_get_or "assumption_unconfirmed" (JBool true) raw) in
  Ok (mk_DeadlineRule rid jur area trig offset adj cal reminders escalation desc unconfirmed).

Definition parse_and_validate (content : string) : res DeadlineRule :=
  letr! raw := rule_error None "YAML parse error" (yaml_load content) in
  match raw with
  | JDict raw =>
      let rule_id := json_get_or "rule_id" JNull raw in
      if negb (json_truthy rule_id) then Err (RuleValidationError None "rule_id is required.")
      else
      let trigger := json_get_or "trigger" JNull raw in
      if negb (json_truthy trigger) then
        Err (RuleValidationError (Some rule_id) "trigger field is required.")
      else
      letr! known := supported_calendar (json_get_or "calendar_id" (JStr "us_federal") raw) in
      if negb known then Err (RuleValidationError (Some rule_id) "Unknown calendar_id")
      else
      letr! offset := parse_offset rule_id raw in
      letr! rems := json_iter (json_get_or "reminders" (JList []) raw) in
      letr! reminders := map_res (parse_reminder rule_id) rems in
      letr! escalation := parse_escalation rule_id raw in
      build_rule rule_id trigger offset reminders escalation raw
  | _ => Err (RuleValidationError None "Rule must be a YAML mapping.")
  end.

(** ** RuleStore *)

Definition RuleStore : Type := dict string (list (string * DeadlineRule)).

Context (sha256_hex : string -> string) (model_dump_json : DeadlineRule -> string).

Definition content_hash (content : string) : string := take_chars 16 (sha256_hex content).

Definition entries (rule_id : string) (st : RuleStore) : list (string * DeadlineRule) :=
  match dget rule_id st with Some l => l | None => [] end.

(** [setdefault], the version test and the append. *)
Definition append_version (version : string) (rule : DeadlineRule) (st : RuleStore) : RuleStore :=
  let existing := entries (dr_rule_id rule) st in
  if existsb (fun e => String.eqb e.1 version) existing then dset (dr_rule_id rule) existing st
  else dset (dr_rule_id rule) (existing ++ [(version, rule)]) st.

Definition load (content : string) : M RuleStore DeadlineRule := fun st =>
  match parse_and_validate content with
  | Ok rule => (append_version (content_hash content) rule st, Ok rule)
  | Err e => (st, Err e)
  end.

(** [version or _content_hash(rule.model_dump_json())] *)
Definition register_rule (rule : DeadlineRule) (version : option string) : M RuleStore DeadlineRule :=
  fun st =>
  let version := match version with
                 | Some v => if str_truthy v then v else content_hash (model_dump_json rule)
                 | None => content_hash (model_dump_json rule)
                 end in
  (append_version version rule st, Ok rule).

Definition matching (jurisdiction : string) (l : list (string * DeadlineRule))
    : list (string * DeadlineRule) :=
  bfilter (fun e => String.eqb (dr_jurisdiction e.2) jurisdiction) l.

(** [l[-1]] *)
Fixpoint last_entry {A} (l : list A) : option A :=
  match l with [] => None | [x] => Some x | _ :: l' => last_entry l' end.

Definition active_entry (rule_id jurisdiction : string) (st : RuleStore)
    : option (string * DeadlineRule) :=
  last_entry (matching jurisdiction (entries rule_id st)).

Definition active (rule_id jurisdiction : string) (st : RuleStore) : res DeadlineRule :=
  match active_entry rule_id jurisdiction st with
  | Some (_, r) => Ok r
  | None => Err (KeyError ("No active rule for " +:+ rule_id +:+ " / " +:+ jurisdiction))
  end.

Definition versions (rule_id : string) (st : RuleStore) : list RuleRef :=
  map (fun e => mk_RuleRef rule_id e.1 (dr_jurisdiction e.2) (dr_practice_area e.2))
    (entries rule_id st).

Definition rule_version (rule_id jurisdiction : string) (st : RuleStore) : res string :=
  letr! _ := active rule_id jurisdiction st in
  match find_first (fun e => String.eqb (dr_jurisdiction e.2) jurisdiction)
          (rev (entries rule_id st)) with
  | Some (v, _) => Ok v
  | None => Err (KeyError rule_id)
  end.

Definition all_rules (jurisdiction : string) (st : RuleStore) : list (string * string * DeadlineRule) :=
  flat_map (fun p => match last_entry (matching jurisdiction p.2) with
                     | Some (v, r) => [(p.1, v, r)]
                     | None => []
                     end) st.

(** ** resources.py: deadline-rules:// *)

Record RuleResource := mk_RuleResource {
  rs_rule_id : string; rs_rule_version : string; rs_description : string;
  rs_assumption_unconfirmed : bool; rs_trigger : string; rs_adjust : string;
  rs_calendar_id : string }.

Definition rule_resource (e : string * string * DeadlineRule) : RuleResource :=
  let '(rule_id, version, rule) := e in
  mk_RuleResource rule_id version (dr_description rule) (dr_assumption_unconfirmed rule)
    (dr_trigger rule) (dr_adjust rule) (dr_calendar_id rule).

Definition str_leb (a b : string) : bool := String.leb a b.

Definition aggregate_version (vs : list string) : string :=
  take_chars 12 (sha256_hex (join "," (py_sorted str_leb vs))).

Definition resource_deadline_rules (st : RuleStore) (jurisdiction : string)
    : string * list RuleResource * string :=
  let rules := all_rules jurisdiction st in
  (jurisdiction, map rule_resource rules, aggregate_version (map (fun e => e.1.2) rules)).

(** ** Lemmas *)

Inductive rule_call := CLoad (content : string) | CRegister (rule : DeadlineRule) (version : option string).

Definition exec_rule_call (c : rule_call) (st : RuleStore) : RuleStore :=
  match c with
  | CLoad content => fst (load content st)
  | CRegister rule version => fst (register_rule rule version st)
  end.

Definition exec_rule_calls (cs : list rule_call) (st : RuleStore) : RuleStore :=
  fold_left (fun s c => exec_rule_call c s) cs st.

(** Versions of one rule are distinct. *)
Definition versions_distinct (st : RuleStore) : Prop :=
  forall rid, NoDup (map fst (entries rid st)).

Lemma entries_append version rule st rid :
  entries rid (append_version version rule st) =
    if decide (rid = dr_rule_id rule) then
      if existsb (fun e => String.eqb e.1 version) (entries rid st) then entries rid st
      else entries rid st ++ [(version, rule)]
    else entries rid st.
Proof.
  unfold append_version. case_decide as D.
  - subst. destruct (existsb _ _); unfold entries at 1; by rewrite dget_dset_eq.
  - destruct (existsb _ _); unfold entries at 1; by rewrite dget_dset_ne.
Qed.

Lemma append_version_prefix version rule st rid :
  entries rid st `prefix_of` entries rid (append_version version rule st).
Proof.
  rewrite entries_append. case_decide; [|done]. destruct (existsb _ _); [done|]. by eexists.
Qed.

Lemma append_version_distinct version rule st :
  versions_distinct st -> versions_distinct (append_version version rule st).
Proof.
  intros H rid. rewrite entries_append. case_decide; [|done].
  destruct (existsb _ _) eqn:E; [done|]. rewrite map_app. apply NoDup_app.
  split; [done|]. split; [|apply NoDup_singleton]. intros v Hv Hv2.
  apply list_elem_of_singleton in Hv2. subst v.
  apply list_elem_of_In, in_map_iff in Hv as ([v r] & Hv & Hin). cbn in Hv. subst v.
  assert (existsb (fun e : string * DeadlineRule => String.eqb e.1 version) (entries rid st) = true);
    [|congruence].
  apply existsb_exists. exists (version, r). split; [done|]. apply String.eqb_refl.
Qed.

Lemma exec_rule_call_facts c st :
  (forall rid, entries rid st `prefix_of` entries rid (exec_rule_call c st)) /\
  (versions_distinct st -> versions_distinct (exec_rule_call c st)).
Proof.
  destruct c as [content|rule version]; cbn.
  - unfold load. destruct (parse_and_validate content); cbn; [|done].
    split; [intros; apply append_version_prefix|apply append_version_distinct].
  - split; [intros; apply append_version_prefix|apply append_version_distinct].
Qed.

Lemma last_entry_snoc {A} (l : list A) x : last_entry (l ++ [x]) = Some x.
Proof. induction l as [|y l IH]; cbn; [done|]. rewrite IH. by destruct l. Qed.

(** The active rule after a version has been appended. *)
Lemma active_after_append version rule st :
  active_entry (dr_rule_id rule) (dr_jurisdiction rule) (append_version version rule st) =
    if existsb (fun e => String.eqb e.1 version) (entries (dr_rule_id rule) st)
    then active_entry (dr_rule_id rule) (dr_jurisdiction rule) st
    else Some (version, rule).
Proof.
  unfold active_entry. rewrite entries_append, decide_True by done.
  destruct (existsb _ _); [done|]. unfold matching. rewrite bfilter_app. cbn.
  rewrite String.eqb_refl. apply last_entry_snoc.
Qed.

(** The registry is append-only, versioned and fail-closed.  Over any
    sequence of loads and registrations every rule's entry list only grows at
    its end and never holds the same version twice; a load that raises leaves
    the registry as it was; loading the same content again changes no rule's
    entries. *)
Lemma rule_store_append_only cs st :
  (forall rid, entries rid st `prefix_of` entries rid (exec_rule_calls cs st)) /\
  versions_distinct (exec_rule_calls cs []) /\
  (forall content st' e, load content st = (st', Err e) -> st' = st) /\
  (forall content st' rule, load content st = (st', Ok rule) ->
     forall rid, entries rid (fst (load content st')) = entries rid st').
Proof.
  split; [|split; [|split]].
  - intros rid. revert st. induction cs as [|c cs IH]; intros st; [done|].
    etransitivity; [|apply IH]. apply exec_rule_call_facts.
  - assert (versions_distinct []) as H0 by (intros rid; apply NoDup_nil_2).
    revert H0. generalize ([] : RuleStore) as s0. induction cs as [|c cs IH]; intros s0 H0; [done|].
    apply IH. by apply exec_rule_call_facts.
  - intros content st' e. unfold load. destruct (parse_and_validate content); by intros [= <-].
  - intros content st' rule. unfold load. destruct (parse_and_validate content) as [r|]; [|done].
    intros [= <- <-] rid. cbn. rewrite entries_append. case_decide; [|done]. subst rid.
    rewrite entries_append, decide_True by done.
    set (l := entries (dr_rule_id r) st). destruct (existsb _ l) eqn:E; [by rewrite E|].
    rewrite existsb_app. cbn. by rewrite String.eqb_refl, orb_true_r.
Qed.

(** Which version is active.  Loading content of a new version makes its
    rule the active one for its id and jurisdiction; loading content whose
    version was loaded before leaves the active rule as it was, so after A, B, A
    the active rule is B, not the most recently loaded A. *)
Lemma active_after_load content st st' rule :
  load content st = (st', Ok rule) ->
  let known := existsb (fun e => String.eqb e.1 (content_hash content)) (entries (dr_rule_id rule) st) in
  (known = false -> active (dr_rule_id rule) (dr_jurisdiction rule) st' = Ok rule) /\
  (known = true -> active (dr_rule_id rule) (dr_jurisdiction rule) st' =
                   active (dr_rule_id rule) (dr_jurisdiction rule) st).
Proof.
  unfold load. destruct (parse_and_validate content) as [r|]; [|done]. intros [= <- <-].
  unfold active. rewrite active_after_append. by destruct (existsb _ _).
Qed.
End Parse.

(** *** Witness: two versions of a rule, the first loaded again *)

Definition ex_yaml (adjust : string) : string := adjust.

Definition ex_yaml_load (s : string) : res json :=
  Ok (JDict [("rule_id", JStr "rfe"); ("trigger", JStr "receipt_date"); ("adjust", JStr s)]).

Abbreviation ex_load := (load ex_yaml_load (fun _ => Ok (mk_Offset 0 0 0 0 0))
  (fun _ => Err AssertionError) (fun _ => Err AssertionError) (fun _ => Err AssertionError)
  (fun _ => Ok true) (fun s => s)).

Definition ex_store_ab : RuleStore := fst (ex_load "previous_business_day" (fst (ex_load "none" []))).

Definition ex_rule_of (mode : string) : DeadlineRule :=
  mk_DeadlineRule "rfe" "US" None "receipt_date" (mk_Offset 0 0 0 0 0) mode "us_federal" []
    (mk_EscalationPolicy []) "" true.

Lemma active_after_load_witness :
  active "rfe" "US" (fst (ex_load "none" ex_store_ab)) = Ok (ex_rule_of "previous_business_day").
Proof.
  destruct (active_after_load ex_yaml_load (fun _ => Ok (mk_Offset 0 0 0 0 0))
    (fun _ => Err AssertionError) (fun _ => Err AssertionError) (fun _ => Err AssertionError)
    (fun _ => Ok true) (fun s => s) "none" ex_store_ab (fst (ex_load "none" ex_store_ab))
    (ex_rule_of "none")) as [_ H]; [vm_compute; reflexivity|].
  exact (H eq_refl).
Defined.
