(* ===== verification/Schedule.v ===== *)
(** * Schedule: core/services/deadline/schedule.py, deadman.py, resources.py

    The scheduler port (class [Scheduler]) with its in-memory implementation,
    the deadline store, the [deadline.schedule] tool, the dead-man's switch and
    the upcoming-calendar resource.  Tools run on a [DState]: the deadline store
    and the scheduler, next to the audit world [W]. *)

From Stdlib Require Import ZArith Lia Ascii String List.
From stdpp Require Import base list strings pretty sorting.
From S2P Require Import Prelude PyTime ConnErrors Effects Calendar DeadlineTypes Compute Rules.

Open Scope string_scope.
Open Scope list_scope.
Open Scope Z_scope.
Open Scope cam_scope.

(** ** Scheduler port *)

Class Scheduler (S W : Type) := {
  arm : datetime -> string -> string -> M (sys S W) string;
  cancel : string -> M (sys S W) unit;
  heartbeat : M (sys S W) datetime }.

(** What the engine relies on: an armed job stays armed until it is cancelled.
    [jobs] is ghost; [sched_inv] is the scheduler's own invariant, relative to
    the number of uuids drawn. *)
Class SchedulerLaws (S W : Type) `{Scheduler S W} := {
  jobs : S -> string -> option (datetime * string);
  sched_inv : S -> nat -> Prop;
  sched_inv_mono s n n' : sched_inv s n -> (n <= n')%nat -> sched_inv s n';
  arm_ok t ref key s s' a :
    sched_inv (sys_store s) (sys_uuids s) -> arm (W := W) t ref key s = (s', Ok a) ->
    sched_inv (sys_store s') (sys_uuids s') /\ jobs (sys_store s') a = Some (t, key) /\
    forall a' j, jobs (sys_store s) a' = Some j -> jobs (sys_store s') a' = Some j;
  cancel_ok a s s' :
    sched_inv (sys_store s) (sys_uuids s) -> cancel (W := W) a s = (s', Ok tt) ->
    sched_inv (sys_store s') (sys_uuids s') /\ jobs (sys_store s') a = None /\
    forall a', a' <> a -> jobs (sys_store s') a' = jobs (sys_store s) a';
  cancel_err a s s' e :
    sched_inv (sys_store s) (sys_uuids s) -> cancel (W := W) a s = (s', Err e) ->
    sched_inv (sys_store s') (sys_uuids s') /\
    forall a', jobs (sys_store s') a' = jobs (sys_store s) a' }.

Record ArmedJob := mk_ArmedJob { aj_fire_at : datetime; aj_job_ref : string; aj_idem_key : string }.

(** [InMemoryScheduler] *)
Record MemScheduler := mk_MemScheduler {
  ms_arms : dict string ArmedJob; ms_last_heartbeat : datetime; ms_stopped : bool }.

Section MemScheduler.
Context {W : Type} (clock : nat -> datetime) (uuids : nat -> string).

Definition mem_arm (fire_at : datetime) (job_ref idem_key : string) : M (sys MemScheduler W) string :=
  let! arm_id := uuid4 uuids in
  on_store (modify (fun m => mk_MemScheduler
    (dset arm_id (mk_ArmedJob fire_at job_ref idem_key) (ms_arms m)) (ms_last_heartbeat m)
    (ms_stopped m))) ;;
  ret arm_id.

Definition mem_cancel (arm_id : string) : M (sys MemScheduler W) unit :=
  on_store (modify (fun m => mk_MemScheduler (dpop arm_id (ms_arms m)) (ms_last_heartbeat m)
    (ms_stopped m))).

Definition mem_heartbeat : M (sys MemScheduler W) datetime :=
  let! m := on_store (gets (fun m => m)) in
  if ms_stopped m then ret (ms_last_heartbeat m)
  else
    let! now := get_now clock in
    on_store (modify (fun m => mk_MemScheduler (ms_arms m) now (ms_stopped m))) ;;
    ret now.

Definition mem_stop : M MemScheduler unit :=
  modify (fun m => mk_MemScheduler (ms_arms m) (ms_last_heartbeat m) true).

#[export] Instance mem_scheduler : Scheduler MemScheduler W := {
  arm := mem_arm; cancel := mem_cancel; heartbeat := mem_heartbeat }.

Context (uuids_inj : forall i j, uuids i = uuids j -> i = j).

(** Arm ids are drawn from the uuid supply. *)
Definition mem_inv (m : MemScheduler) (n : nat) : Prop :=
  dict_wf (ms_arms m) /\
  forall a, a ∈ dkeys (ms_arms m) -> exists i, (i < n)%nat /\ a = uuids i.

Lemma mem_inv_fresh m n : mem_inv m n -> dget (uuids n) (ms_arms m) = None.
Proof.
  intros [_ H]. apply dget_None_keys. intros Hin. apply H in Hin as (i & Hi & E).
  apply uuids_inj in E. lia.
Qed.

Lemma mem_inv_mono m n n' : mem_inv m n -> (n <= n')%nat -> mem_inv m n'.
Proof.
  intros [Hwf H] Hn. split; [done|]. intros a Ha. apply H in Ha as (i & Hi & ->). exists i. split; [lia|done].
Qed.

#[export] Instance mem_scheduler_laws : SchedulerLaws MemScheduler W.
Proof.
  refine {| jobs := fun m a => option_map (fun j => (aj_fire_at j, aj_idem_key j)) (dget a (ms_arms m));
            sched_inv := mem_inv |}.
  - apply mem_inv_mono.
  - intros t ref key [m w ti n] s' a Hi [= <- <-].
    cbn [sys_store sys_uuids ms_arms set_store fst snd] in *. destruct Hi as [Hwf H]. split; [split|split].
    + by apply dict_wf_dset.
    + intros a'. cbn [ms_arms]. rewrite dkeys_dset. intros Ha.
      assert (a' ∈ dkeys (ms_arms m) \/ a' = uuids n) as [Hin| ->]; [|apply H in Hin as (i & Hi & ->)|].
      * destruct (dmem _ _); [by left|]. apply elem_of_app in Ha as [?|?%list_elem_of_singleton]; auto.
      * exists i. split; [lia|done].
      * exists n. split; [lia|done].
    + by rewrite dget_dset_eq.
    + intros a' j. rewrite dget_dset. case_decide; [subst|done].
      by rewrite (mem_inv_fresh m n).
  - intros a [m w ti n] s' Hi [= <-].
    cbn [sys_store sys_uuids ms_arms set_store fst snd] in *. destruct Hi as [Hwf H]. split; [split|split].
    + by apply dict_wf_dpop.
    + intros a' Ha. apply H. eapply elem_of_submseteq; [exact Ha|]. apply sublist_submseteq, dpop_keys_sublist.
    + by rewrite dget_dpop_eq.
    + intros a' Ha. by rewrite dget_dpop_ne.
  - done.
Defined.
End MemScheduler.

(** ** Deadline store *)

Record DeadlineStore := mk_DeadlineStore {
  dl_deadlines : dict string ScheduledDeadline; dl_by_idem : dict string string }.

Definition empty_deadline_store : DeadlineStore := mk_DeadlineStore [] [].

Definition dl_save (sd : ScheduledDeadline) (st : DeadlineStore) : DeadlineStore :=
  mk_DeadlineStore (dset (sd_deadline_id sd) sd (dl_deadlines st))
    (if str_truthy (sd_idempotency_key sd)
     then dset (sd_idempotency_key sd) (sd_deadline_id sd) (dl_by_idem st) else dl_by_idem st).

Definition dl_get (did : string) (st : DeadlineStore) : option ScheduledDeadline :=
  dget did (dl_deadlines st).

Definition dl_get_by_idem (key : string) (st : DeadlineStore) : option ScheduledDeadline :=
  match dget key (dl_by_idem st) with
  | Some did => if str_truthy did then dl_get did st else None
  | None => None
  end.

Definition list_for_matter (matter_id : string) (st : DeadlineStore) : list ScheduledDeadline :=
  bfilter (fun d => String.eqb (sd_matter_id d) matter_id) (dvalues (dl_deadlines st)).

(** [matter_id and sd.matter_id != matter_id] is false. *)
Definition matter_selected (matter_id : option string) (sd : ScheduledDeadline) : bool :=
  match matter_id with
  | Some m => negb (str_truthy m) || String.eqb (sd_matter_id sd) m
  | None => true
  end.

Definition rem_le (a b : ScheduledReminder) : bool := dt_le (sr_fire_at a) (sr_fire_at b).

Definition is_armed (r : ScheduledReminder) : bool := bool_decide (sr_status r = RArmed).

Definition upcoming_reminders (now : datetime) (window_days : Z) (matter_id : option string)
    (st : DeadlineStore) : res (list ScheduledReminder) :=
  letr! cutoff := plus_days now window_days in
  Ok (py_sorted rem_le
    (flat_map (fun sd => bfilter (fun r => is_armed r && dt_le (sr_fire_at r) cutoff) (sd_reminders sd))
       (bfilter (matter_selected matter_id) (dvalues (dl_deadlines st))))).

(** ** The [deadline.schedule] tool *)

Record DState (S : Type) := mk_DState { ds_store : DeadlineStore; ds_sched : S }.
Arguments mk_DState {S}.
Arguments ds_store {S}.
Arguments ds_sched {S}.

Section Tool.
Context {S W : Type} {SCH : Scheduler S W}.
Context (clock : nat -> datetime) (uuids : nat -> string) (sha256_hex : string -> string).
Context (audit_fn : option (AuditEvent -> M W unit)).

Definition DM (A : Type) : Type := M (sys (DState S) W) A.

Definition on_deadlines {A} (m : M DeadlineStore A) : DM A :=
  on_store (zoom ds_store (fun x d => mk_DState x (ds_sched d)) m).

Definition on_sched {A} (m : M (sys S W) A) : DM A :=
  zoom_sys ds_sched (fun x d => mk_DState (ds_store d) x) m.

Definition save (sd : ScheduledDeadline) : DM unit := on_deadlines (modify (dl_save sd)).

(** [_audit] *)
Definition schedule_audit (action matter_id : string) (trace : ComputationTrace) (did : string) : DM unit :=
  match audit_fn with
  | None => ret tt
  | Some f => try_pass (on_world (f (mk_AuditEvent "deadline_engine" action
      [("matter_id", JStr matter_id); ("rule_id", JStr (rr_rule_id (ct_rule_ref trace)))]
      [("deadline_id", JStr did); ("due_at", JStr (isoformat (ct_due_at trace)))] None)))
  end.

Definition reminder_idem (key : string) (rem : ReminderOffset) : string :=
  key +:+ ":" +:+ pretty (ro_amount rem) +:+ ":" +:+ unit_value (ro_unit rem).

(** One iteration of the loop over [rule.reminders]. *)
Definition resolve_reminder (now : datetime) (key : string) (due_at : datetime) (rem : ReminderOffset)
    : DM ScheduledReminder :=
  let! fire_at := lift_res (reminder_fire_at due_at rem) in
  let idem := reminder_idem key rem in
  if dt_le now fire_at then
    let! arm1 := on_sched (arm fire_at ("deadline_reminder:" +:+ key) idem) in
    let! arm2 := on_sched (arm fire_at ("deadline_reminder_backup:" +:+ key) idem) in
    let! rid := uuid4 uuids in
    ret (mk_ScheduledReminder rid "" fire_at rem RArmed idem [arm1; arm2])
  else
    let! rid := uuid4 uuids in
    ret (mk_ScheduledReminder rid "" fire_at rem RSkippedPast idem []).

(** The flagged record of a deadline that is past due at creation. *)
Definition schedule_past_due (now : datetime) (matter_id key : string) (rule_ref : RuleRef)
    (trace : ComputationTrace) : DM ScheduledDeadline :=
  let! did := uuid4 uuids in
  save (mk_ScheduledDeadline did matter_id rule_ref trace [] true key 0) ;;
  (schedule_audit "deadline.past_due_on_create" matter_id trace did ;;
  raise (PastDueOnCreateError (ct_due_at trace) now)).

Definition schedule_new (now : datetime) (matter_id key : string) (rule : DeadlineRule)
    (rule_ref : RuleRef) (trace : ComputationTrace) : DM ScheduledDeadline :=
  let! _ := lift_res (get_calendar (dr_calendar_id rule)) in
  let! reminders := map_m (resolve_reminder now key (ct_due_at trace)) (dr_reminders rule) in
  let! did := uuid4 uuids in
  let reminders := map (rem_with_deadline did) reminders in
  let sd := mk_ScheduledDeadline did matter_id rule_ref trace (py_sorted rem_le reminders) false key 0 in
  save sd ;;
  (schedule_audit "deadline.scheduled" matter_id trace did ;;
  ret sd).

Definition tool_deadline_schedule (matter_id : string) (rule : DeadlineRule)
    (trigger_inputs : dict string datetime) (rule_ref : RuleRef) (key : string)
    (now : option datetime) : DM ScheduledDeadline :=
  let! now := match now with Some t => ret t | None => get_now clock end in
  let! existing := on_deadlines (gets (dl_get_by_idem key)) in
  match existing with
  | Some sd => ret sd
  | None =>
      let! trace := lift_res (compute_due_date sha256_hex now rule trigger_inputs (Some now)
                                (Some rule_ref)) in
      if dt_lt (ct_due_at trace) now then schedule_past_due now matter_id key rule_ref trace
      else schedule_new now matter_id key rule rule_ref trace
  end.

(** ** Dead-man's switch *)

Record DeadmanAlert := mk_DeadmanAlert { da_age_us : Z; da_threshold_us : Z }.

Context (alert_fn : option (DeadmanAlert -> M W unit)).

Definition fire_alert (age_us threshold_us : Z) : DM unit :=
  match alert_fn with
  | None => ret tt
  | Some f => try_pass (on_world (f (mk_DeadmanAlert age_us threshold_us)))
  end.

(** [check_once]: durations in microseconds; -1 second is the heartbeat error. *)
Definition check_once (threshold_us : Z) : DM bool :=
  try_except
    (let! last_beat := on_sched heartbeat in
     let! now := get_now clock in
     let age := instant now - instant last_beat in
     if threshold_us <? age then fire_alert age threshold_us ;; ret false else ret true)
    (fun _ => fire_alert (- US_PER_SECOND) threshold_us ;; ret false).
End Tool.

(** ** calendar://upcoming *)

Inductive UpcomingItem :=
| UpDeadline (deadline_id matter_id due_at rule_id : string)
| UpReminder (deadline_id matter_id fire_at label : string).

(** [x.get("due_at") or x.get("fire_at", "")] *)
Definition upcoming_key (i : UpcomingItem) : string :=
  match i with UpDeadline _ _ d _ => d | UpReminder _ _ f _ => f end.

Definition upcoming_items (now cutoff : datetime) (sd : ScheduledDeadline) : list UpcomingItem :=
  let due := ct_due_at (sd_trace sd) in
  (if dt_le now due && dt_le due cutoff
   then [UpDeadline (sd_deadline_id sd) (sd_matter_id sd) (isoformat due) (rr_rule_id (sd_rule_ref sd))]
   else []) ++
  map (fun r => UpReminder (sd_deadline_id sd) (sd_matter_id sd) (isoformat (sr_fire_at r))
                  (match ro_label (sr_offset r) with Some l => l | None => "" end))
    (bfilter (fun r => is_armed r && (dt_le now (sr_fire_at r) && dt_le (sr_fire_at r) cutoff))
       (sd_reminders sd)).

Definition resource_calendar_upcoming (now : datetime) (window_days : Z) (matter_id : option string)
    (st : DeadlineStore) : res (list UpcomingItem) :=
  letr! cutoff := plus_days now window_days in
  Ok (py_sorted (fun a b => String.leb (upcoming_key a) (upcoming_key b))
        (flat_map (upcoming_items now cutoff)
           (bfilter (matter_selected matter_id) (dvalues (dl_deadlines st))))).

(** ** Theorems *)

Lemma rem_le_total a b : rem_le a b = true \/ rem_le b a = true.
Proof. apply dt_le_total. Qed.

Lemma rem_le_trans a b c : rem_le a b = true -> rem_le b c = true -> rem_le a c = true.
Proof. apply dt_le_trans. Qed.

Lemma dl_get_by_idem_save sd st :
  str_truthy (sd_idempotency_key sd) = true -> str_truthy (sd_deadline_id sd) = true ->
  dl_get_by_idem (sd_idempotency_key sd) (dl_save sd st) = Some sd.
Proof.
  intros Hk Hd. unfold dl_get_by_idem, dl_save. rewrite Hk. cbn [dl_by_idem].
  rewrite dget_dset_eq, Hd. unfold dl_get. cbn [dl_deadlines]. apply dget_dset_eq.
Qed.

Lemma dl_get_save did sd st :
  dl_get did (dl_save sd st) = if decide (did = sd_deadline_id sd) then Some sd else dl_get did st.
Proof. unfold dl_get, dl_save. cbn [dl_deadlines]. apply dget_dset. Qed.

Section ToolProofs.
Context {S W : Type} {SCH : Scheduler S W} {SL : SchedulerLaws S W}.
Context (clock : nat -> datetime) (uuids : nat -> string) (sha256_hex : string -> string).
Context (audit_fn : option (AuditEvent -> M W unit)).

Abbreviation schedule := (tool_deadline_schedule clock uuids sha256_hex audit_fn).

(** The scheduler's invariant inside the tool's state. *)
Definition sched_good (s : sys (DState S) W) : Prop := sched_inv (ds_sched (sys_store s)) (sys_uuids s).

Definition armed_job (s : sys (DState S) W) (a : string) : option (datetime * string) :=
  jobs (ds_sched (sys_store s)) a.

(** [s'] keeps the store, the scheduler's invariant and every armed job of [s]. *)
Definition arms_grow (s s' : sys (DState S) W) : Prop :=
  ds_store (sys_store s') = ds_store (sys_store s) /\ (sched_good s -> sched_good s') /\
  (sched_good s -> forall a j, armed_job s a = Some j -> armed_job s' a = Some j).

Lemma arms_grow_trans s1 s2 s3 : arms_grow s1 s2 -> arms_grow s2 s3 -> arms_grow s1 s3.
Proof.
  intros (E1 & I1 & J1) (E2 & I2 & J2). split; [congruence|]. split; [auto|].
  intros H a j Hj. by apply J2, J1; auto.
Qed.

Lemma arms_grow_refl s : arms_grow s s.
Proof. by repeat split. Qed.

Lemma arms_grow_uuid s s' x : uuid4 uuids s = (s', Ok x) -> arms_grow s s' /\ x = uuids (sys_uuids s).
Proof.
  intros [= <- <-]. split; [|done]. split; [done|]. split; [|done].
  intros H. eapply sched_inv_mono; [exact H|]. cbn [sys_uuids]. lia.
Qed.

Lemma on_sched_arm t ref key s s' a :
  on_sched (arm t ref key) s = (s', Ok a) ->
  arms_grow s s' /\ (sched_good s -> armed_job s' a = Some (t, key)).
Proof.
  unfold on_sched, zoom_sys. destruct (arm t ref key _) as [u r] eqn:E. intros [= <- ->].
  split; [split; [done|]; split|].
  - intros H. by eapply arm_ok in E as (? & _).
  - intros H a' j Hj. eapply arm_ok in E as (_ & _ & Hm); [|exact H]. by apply Hm.
  - intros H. by eapply arm_ok in E as (_ & ? & _).
Qed.

(** The reminder built for one offset of the rule. *)
Record reminder_for (now : datetime) (key : string) (due_at : datetime) (s : sys (DState S) W)
    (rem : ReminderOffset) (r : ScheduledReminder) : Prop := mk_reminder_for {
  rf_fire : reminder_fire_at due_at rem = Ok (sr_fire_at r);
  rf_offset : sr_offset r = rem;
  rf_idem : sr_idempotency_key r = reminder_idem key rem;
  rf_armed : sr_status r = if dt_le now (sr_fire_at r) then RArmed else RSkippedPast;
  rf_arms : length (sr_redundant_arm_ids r) = if dt_le now (sr_fire_at r) then 2%nat else 0%nat;
  rf_jobs : forall a, a ∈ sr_redundant_arm_ids r ->
    armed_job s a = Some (sr_fire_at r, sr_idempotency_key r) }.

Lemma reminder_for_grow now key due s s' rem r :
  sched_good s -> arms_grow s s' ->
  reminder_for now key due s rem r -> reminder_for now key due s' rem r.
Proof. intros Hg (_ & _ & HJ) []. split; auto. Qed.

Lemma reminder_for_deadline now key due s did rem r :
  reminder_for now key due s rem r -> reminder_for now key due s rem (rem_with_deadline did r).
Proof. by intros []; split. Qed.

Lemma resolve_reminder_ok now key due rem s s' r :
  resolve_reminder uuids now key due rem s = (s', Ok r) ->
  arms_grow s s' /\ (sched_good s -> reminder_for now key due s' rem r).
Proof.
  intros H. unfold resolve_reminder in H. inv_bind H.
  rename a into fire. injection Hb as <- Hf. destruct (dt_le now fire) eqn:Et.
  - inv_bind H. rename a into a1. inv_bind H. rename a into a2. inv_bind H. injection H as <- <-.
    apply on_sched_arm in Hb as [G1 J1]. apply on_sched_arm in Hb0 as [G2 J2].
    apply arms_grow_uuid in Hb1 as [G3 _]. split; [by do 2 (eapply arms_grow_trans; [done|])|].
    intros Hg. destruct G2 as (E2 & I2 & M2), G3 as (E3 & I3 & M3). destruct G1 as (E1 & I1 & M1).
    split; cbn; try done; rewrite ?Et; try done.
    intros b. rewrite !elem_of_cons, elem_of_nil. intros [->|[->|[]]]; apply M3; auto.
  - inv_bind H. injection H as <- <-. apply arms_grow_uuid in Hb as [G _]. split; [done|].
    intros Hg. split; cbn; try done; rewrite ?Et; try done. intros b Hb0. by apply elem_of_nil in Hb0.
Qed.

Lemma resolve_reminders_ok now key due rems s s' rs :
  map_m (resolve_reminder uuids now key due) rems s = (s', Ok rs) ->
  arms_grow s s' /\ (sched_good s -> Forall2 (reminder_for now key due s') rems rs).
Proof.
  revert s rs. induction rems as [|rem rems IH]; cbn [map_m]; intros s rs H.
  - injection H as <- <-. split; [apply arms_grow_refl|]. intros _. constructor.
  - inv_bind H. inv_bind H. injection H as <- <-.
    apply resolve_reminder_ok in Hb as [G1 F1]. apply IH in Hb0 as [G2 F2].
    split; [by eapply arms_grow_trans|]. intros Hg. constructor; [|apply F2; by apply G1].
    eapply reminder_for_grow; [by apply G1|exact G2|auto].
Qed.

Lemma schedule_audit_ok action matter tr did s :
  exists s', schedule_audit (S := S) audit_fn action matter tr did s = (s', Ok tt) /\
    sys_store s' = sys_store s /\ sys_uuids s' = sys_uuids s.
Proof.
  unfold schedule_audit. destruct audit_fn as [f|]; [|by exists s].
  unfold try_pass, on_world, zoom. destruct (f _ _) as [w r]. by eexists.
Qed.

Lemma save_ok sd (s : sys (DState S) W) : save sd s =
  (set_store (mk_DState (dl_save sd (ds_store (sys_store s))) (ds_sched (sys_store s))) s, Ok tt).
Proof. reflexivity. Qed.

(** What [deadline.schedule] stores for a new key. *)
Record scheduled (now : datetime) (matter_id key : string) (rule : DeadlineRule) (rule_ref : RuleRef)
    (tr : ComputationTrace) (s : sys (DState S) W) (sd : ScheduledDeadline) : Prop := mk_scheduled {
  sc_head : sd_matter_id sd = matter_id /\ sd_idempotency_key sd = key /\ sd_rule_ref sd = rule_ref /\
    sd_trace sd = tr /\ sd_flagged_past_due_on_create sd = false /\ sd_escalation_level sd = 0;
  sc_due : dt_le now (ct_due_at tr) = true;
  sc_sorted : StronglySorted (fun a b => rem_le a b = true) (sd_reminders sd);
  sc_reminders : exists rs, Permutation (sd_reminders sd) rs /\
    Forall2 (fun rem r => reminder_for now key (ct_due_at tr) s rem r /\
               sr_deadline_id r = sd_deadline_id sd) (dr_reminders rule) rs }.

Lemma schedule_new_ok now matter key rule rr tr s s' sd :
  sched_good s -> dt_lt (ct_due_at tr) now = false ->
  schedule_new uuids audit_fn now matter key rule rr tr s = (s', Ok sd) ->
  ds_store (sys_store s') = dl_save sd (ds_store (sys_store s)) /\
  scheduled now matter key rule rr tr s' sd /\ exists n, sd_deadline_id sd = uuids n.
Proof.
  intros Hg Hdue H. unfold schedule_new in H. inv_bind H. injection Hb as <- _. inv_bind H.
  rename a0 into rs. apply resolve_reminders_ok in Hb as [G1 F1]. specialize (F1 Hg). inv_bind H.
  rename a0 into did. apply arms_grow_uuid in Hb as [G2 Hdid].
  inv_bind H. rewrite save_ok in Hb. injection Hb as <-. inv_bind H. injection H as <- <-.
  destruct (schedule_audit_ok "deadline.scheduled" matter tr did
    (set_store (mk_DState (dl_save (mk_ScheduledDeadline did matter rr tr
       (py_sorted rem_le (map (rem_with_deadline did) rs)) false key 0)
       (ds_store (sys_store s1))) (ds_sched (sys_store s1))) s1)) as (s9 & Es & Est & Eu).
  rewrite Es in Hb. injection Hb as <-.
  pose proof G1 as (E1 & I1 & _). pose proof G2 as (E2 & _ & M2).
  split; [by rewrite Est; cbn [sys_store set_store ds_store]; rewrite E2, E1|].
  split; [|by eexists]. split.
  - done.
  - unfold dt_lt, dt_le in *. apply Z.ltb_ge in Hdue. apply Z.leb_le. lia.
  - apply py_sorted_ok; [apply rem_le_total | apply rem_le_trans].
  - exists (map (rem_with_deadline did) rs). split; [apply py_sorted_perm|].
    apply Forall2_fmap_r. eapply Forall2_impl; [exact F1|]. intros rem r Hr. split; [|done].
    apply reminder_for_deadline. destruct Hr as [? ? ? ? ? Hj]. split; auto.
    intros b Hb. unfold armed_job. rewrite Est. cbn [sys_store set_store ds_sched].
    apply (M2 (I1 Hg)). auto.
Qed.

(** Scheduling a new deadline.  With a key not used before, a successful
    [deadline.schedule] has computed the trace, whose due date is not before
    [now]; it stores exactly the returned record, whose reminders are one per
    offset of the rule, sorted by firing time, each armed twice in the scheduler
    exactly when its firing time is not past; and from then on a call with the
    same key returns that record and changes neither store nor scheduler. *)
Lemma deadline_scheduled (matter : string) rule inputs rr key now s s' sd :
  sched_good s -> (forall n, str_truthy (uuids n) = true) -> str_truthy key = true ->
  dl_get_by_idem key (ds_store (sys_store s)) = None ->
  schedule matter rule inputs rr key (Some now) s = (s', Ok sd) ->
  exists tr, compute_due_date sha256_hex now rule inputs (Some now) (Some rr) = Ok tr /\
    ds_store (sys_store s') = dl_save sd (ds_store (sys_store s)) /\
    scheduled now matter key rule rr tr s' sd /\
    forall matter2 rule2 inputs2 rr2 now2 s2, ds_store (sys_store s2) = ds_store (sys_store s') ->
      schedule matter2 rule2 inputs2 rr2 key (Some now2) s2 = (s2, Ok sd).
Proof.
  intros Hg Hu Hk Hn H. unfold tool_deadline_schedule in H. inv_bind H. injection Hb as <- <-.
  inv_bind H. cbn in Hb. injection Hb as <- <-. rewrite Hn in H. inv_bind H.
  injection Hb as <- Htr. exists a. split; [done|].
  destruct (dt_lt (ct_due_at a) now) eqn:Ed.
  { exfalso. unfold schedule_past_due in H. inv_bind H. inv_bind H. inv_bind H. done. }
  apply schedule_new_ok in H as (Est & Hsc & n & Hdid); [|exact Hg|done].
  split; [exact Est|]. split; [done|]. intros matter2 rule2 inputs2 rr2 now2 [[st2 sc2] w2 t2 u2] E2.
  cbn in E2. subst st2. unfold tool_deadline_schedule, on_deadlines, on_store, bind, zoom, gets, ret.
  cbn. rewrite Est. destruct Hsc as [(_ & Hkey & _) _ _ _]. rewrite <- Hkey.
  rewrite dl_get_by_idem_save; [done|by rewrite Hkey|by rewrite Hdid].
Qed.

(** A deadline already past at creation.  With a new key and a due date
    before [now], [deadline.schedule] raises [PastDueOnCreateError] after storing
    a flagged record without reminders and without touching the scheduler; a
    retry with the same key then returns that record as an ordinary success. *)
Lemma past_due_flagged matter rule inputs rr key now tr (s : sys (DState S) W) :
  str_truthy (uuids (sys_uuids s)) = true -> str_truthy key = true ->
  dl_get_by_idem key (ds_store (sys_store s)) = None ->
  compute_due_date sha256_hex now rule inputs (Some now) (Some rr) = Ok tr ->
  dt_lt (ct_due_at tr) now = true ->
  let flagged := mk_ScheduledDeadline (uuids (sys_uuids s)) matter rr tr [] true key 0 in
  exists s', schedule matter rule inputs rr key (Some now) s =
      (s', Err (PastDueOnCreateError (ct_due_at tr) now)) /\
    sys_store s' = mk_DState (dl_save flagged (ds_store (sys_store s))) (ds_sched (sys_store s)) /\
    schedule matter rule inputs rr key (Some now) s' = (s', Ok flagged).
Proof.
  intros Hu Hk Hn Htr Hdue. destruct s as [[st sc] w t u].
  cbn [sys_uuids sys_store ds_store ds_sched] in *.
  set (flagged := mk_ScheduledDeadline (uuids u) matter rr tr [] true key 0).
  set (s0 := mk_sys (mk_DState (dl_save flagged st) sc) w t (Datatypes.S u)).
  destruct (schedule_audit_ok "deadline.past_due_on_create" matter tr (uuids u) s0)
    as (s1 & Es & Est & _).
  exists s1. split; [|split; [exact Est|]].
  - unfold tool_deadline_schedule, on_deadlines, on_store, zoom, gets, lift_res, ret, bind. cbn [sys_store ds_store ds_sched
      set_store sys_world sys_ticks sys_uuids].
    rewrite Hn, Htr, Hdue. unfold schedule_past_due, bind, uuid4. cbn [sys_store sys_world sys_ticks sys_uuids].
    rewrite save_ok. unfold set_store. cbn [sys_store
      ds_store ds_sched sys_world sys_ticks sys_uuids].
    subst s0 flagged. by rewrite Es.
  - destruct s1 as [[st1 sc1] w1 t1 u1]. injection Est as -> ->.
    unfold tool_deadline_schedule, on_deadlines, on_store, zoom, gets, ret, bind. cbn [sys_store ds_store ds_sched
      set_store sys_world sys_ticks sys_uuids].
    pose proof (dl_get_by_idem_save flagged st Hk Hu) as Hget. cbn [sd_idempotency_key flagged] in Hget.
    by rewrite Hget.
Qed.
End ToolProofs.

(** ** Witnesses *)

Definition ex_uuids (n : nat) : string := "u" +:+ pretty n.

Lemma ex_uuids_inj i j : ex_uuids i = ex_uuids j -> i = j.
Proof. unfold ex_uuids. intros H. simplify_eq. done. Qed.

Lemma ex_uuids_truthy n : str_truthy (ex_uuids n) = true.
Proof. reflexivity. Qed.

Definition ex_rr : RuleRef := mk_RuleRef "rfe" "v1" "US" None.

Definition ex_sys : sys (DState MemScheduler) unit :=
  mk_sys (mk_DState empty_deadline_store (mk_MemScheduler [] ex_receipt false)) tt 0 0.

Abbreviation ex_schedule now := (
  tool_deadline_schedule (SCH := mem_scheduler (fun _ => ex_receipt) ex_uuids) (fun _ => ex_receipt)
    ex_uuids (fun s => s) None "m1" ex_rule [("receipt_date", ex_receipt)] ex_rr "k1" (Some now) ex_sys).

Lemma ex_sys_good :
  sched_good (SL := mem_scheduler_laws (fun _ => ex_receipt) ex_uuids ex_uuids_inj) ex_sys.
Proof. split; [apply dict_wf_nil|]. intros a Ha. by apply elem_of_nil in Ha. Qed.

Lemma deadline_scheduled_witness :
  exists s' sd tr, ex_schedule ex_receipt = (s', Ok sd) /\
    map sr_status (sd_reminders sd) = [RSkippedPast; RArmed] /\
    ct_due_at tr = utc_datetime (ymd2ord 2026 4 28) (9 * 3600 * US_PER_SECOND) /\
    scheduled (SL := mem_scheduler_laws (fun _ => ex_receipt) ex_uuids ex_uuids_inj)
      ex_receipt "m1" "k1" ex_rule ex_rr tr s' sd.
Proof.
  destruct (ex_schedule ex_receipt) as [s' [sd|e]] eqn:E; [|vm_compute in E; discriminate].
  exists s', sd.
  destruct (deadline_scheduled (SL := mem_scheduler_laws (fun _ => ex_receipt) ex_uuids ex_uuids_inj)
    (fun _ => ex_receipt) ex_uuids (fun s => s) None "m1" ex_rule [("receipt_date", ex_receipt)] ex_rr "k1"
    ex_receipt ex_sys s' sd) as (tr & Htr & _ & Hsc & _).
  - exact ex_sys_good.
  - exact ex_uuids_truthy.
  - reflexivity.
  - reflexivity.
  - exact E.
  - exists tr. split; [reflexivity|]. split; [|split; [|exact Hsc]].
    + vm_compute in E. injection E as _ <-. reflexivity.
    + vm_compute in Htr. injection Htr as <-. reflexivity.
Defined.

Definition ex_late : datetime := utc_datetime (ymd2ord 2026 6 1) 0.

Lemma past_due_flagged_witness :
  exists s' sd, ex_schedule ex_late =
    (s', Err (PastDueOnCreateError (utc_datetime (ymd2ord 2026 4 28) (9 * 3600 * US_PER_SECOND)) ex_late)) /\
    sys_store s' = mk_DState (dl_save sd empty_deadline_store) (mk_MemScheduler [] ex_receipt false).
Proof.
  destruct (compute_due_date (fun s => s) ex_late ex_rule [("receipt_date", ex_receipt)] (Some ex_late)
              (Some ex_rr)) as [tr|e] eqn:Htr; [|vm_compute in Htr; discriminate].
  assert (ct_due_at tr = utc_datetime (ymd2ord 2026 4 28) (9 * 3600 * US_PER_SECOND)) as Hdue.
  { vm_compute in Htr. injection Htr as <-. reflexivity. }
  destruct (past_due_flagged (SCH := mem_scheduler (fun _ => ex_receipt) ex_uuids) (fun _ => ex_receipt)
    ex_uuids (fun s => s) None "m1" ex_rule [("receipt_date", ex_receipt)] ex_rr "k1" ex_late tr ex_sys)
    as (s' & Hs & Hst & _).
  - reflexivity.
  - reflexivity.
  - reflexivity.
  - exact Htr.
  - rewrite Hdue. vm_compute. reflexivity.
  - rewrite Hdue in Hs. eexists s', _. split; [exact Hs|exact Hst].
Defined.
