(* ===== verification/Monitor.v ===== *)
(** * Monitor: the loop of core/services/deadline/deadman.py

    [run_loop] checks, sleeps and checks again until [stop] is called; between
    two checks other code runs.  The monitor is a state machine over what the
    event loop delivers to it: the call of [run_loop], the end of a sleep, the
    call of [stop], and steps of other components.  A check is one step, since a
    [stop] during it takes effect where one after it does, at the next test. *)

From Stdlib Require Import ZArith Lia Ascii String List.
From stdpp Require Import base list strings.
From S2P Require Import Prelude PyTime ConnErrors Effects DeadlineTypes Schedule.

Open Scope string_scope.
Open Scope list_scope.
Open Scope Z_scope.
Open Scope cam_scope.

(** [mo_running] is the monitor's flag; [mo_looping] tells whether [run_loop] has
    been entered and has not returned; [mo_checks] are the results so far. *)
Record Monitor (S : Type) := mk_Monitor {
  mo_running : bool; mo_looping : bool; mo_checks : list bool; mo_state : DState S }.
Arguments mk_Monitor {S}.
Arguments mo_running {S}.
Arguments mo_looping {S}.
Arguments mo_checks {S}.
Arguments mo_state {S}.

(** What reaches the monitor: [MRun] the call of [run_loop], [MWake] the end of
    its sleep, [MStop] the call of [stop], [MOther] a step of other code. *)
Inductive monitor_event (S W : Type) :=
| MRun
| MWake
| MStop
| MOther (m : M (sys (DState S) W) unit).
Arguments MRun {S W}.
Arguments MWake {S W}.
Arguments MStop {S W}.
Arguments MOther {S W} m.

Section Monitor.
Context {S W : Type} {SCH : Scheduler S W}.
Context (clock : nat -> datetime) (alert_fn : option (DeadmanAlert -> M W unit)) (threshold_us : Z).

Definition MoM (A : Type) : Type := M (sys (Monitor S) W) A.

Definition set_state (d : DState S) (m : Monitor S) : Monitor S :=
  mk_Monitor (mo_running m) (mo_looping m) (mo_checks m) d.

Definition on_parts {A} (m : M (sys (DState S) W) A) : MoM A := zoom_sys mo_state set_state m.

(** [DeadmanMonitor.__init__] *)
Definition new_monitor (d : DState S) : Monitor S := mk_Monitor false false [] d.

Definition set_running (b : bool) (m : Monitor S) : Monitor S :=
  mk_Monitor b (mo_looping m) (mo_checks m) (mo_state m).
Definition set_looping (b : bool) (m : Monitor S) : Monitor S :=
  mk_Monitor (mo_running m) b (mo_checks m) (mo_state m).
Definition add_check (b : bool) (m : Monitor S) : Monitor S :=
  mk_Monitor (mo_running m) (mo_looping m) (mo_checks m ++ [b]) (mo_state m).

(** One round of the [while]: the test, then the check, then the sleep; a failed
    test ends [run_loop]. *)
Definition loop_round : MoM unit :=
  let! running := on_store (gets mo_running) in
  if running then
    let! healthy := on_parts (check_once clock alert_fn threshold_us) in
    on_store (modify (add_check healthy))
  else on_store (modify (set_looping false)).

Definition monitor_stop : MoM unit := on_store (modify (set_running false)).

(** [run_loop] up to its first sleep. *)
Definition run_loop : MoM unit :=
  on_store (modify (fun m => set_looping true (set_running true m))) ;; loop_round.

(** One monitor runs one loop: a second call while it loops is not made. *)
Definition monitor_step (ev : monitor_event S W) : MoM unit :=
  match ev with
  | MRun => let! looping := on_store (gets mo_looping) in if looping then ret tt else run_loop
  | MWake => let! looping := on_store (gets mo_looping) in if looping then loop_round else ret tt
  | MStop => monitor_stop
  | MOther m => try_pass (on_parts m)
  end.

Definition monitor_run (evs : list (monitor_event S W)) : MoM unit := for_each evs monitor_step.

Definition is_wake (ev : monitor_event S W) : bool := match ev with MWake => true | _ => false end.
Definition is_stop (ev : monitor_event S W) : bool := match ev with MStop => true | _ => false end.
Definition is_run (ev : monitor_event S W) : bool := match ev with MRun => true | _ => false end.

Definition wakes (evs : list (monitor_event S W)) : nat := length (bfilter is_wake evs).

(** ** A check *)

(** [check_once] always returns. *)
Lemma fire_alert_ok age th (s : sys (DState S) W) : exists s', fire_alert alert_fn age th s = (s', Ok tt).
Proof.
  unfold fire_alert. destruct alert_fn as [f|]; [|by exists s].
  unfold try_pass. destruct (on_world _ s) as [s' r]. by exists s'.
Qed.

Lemma check_once_total s : exists s' b, check_once clock alert_fn threshold_us s = (s', Ok b).
Proof.
  unfold check_once, try_except.
  match goal with |- context [match ?m s with _ => _ end] => destruct (m s) as [s1 [b|e]] end; [by eauto|].
  unfold bind. destruct (fire_alert_ok (- US_PER_SECOND) threshold_us s1) as [s2 ->]. by eauto.
Qed.

(** A round that finds the flag set adds one result; one that does not ends the loop. *)
Lemma loop_round_spec s :
  exists s', loop_round s = (s', Ok tt) /\ mo_running (sys_store s') = mo_running (sys_store s) /\
    if mo_running (sys_store s)
    then mo_looping (sys_store s') = mo_looping (sys_store s) /\
         exists b, mo_checks (sys_store s') = mo_checks (sys_store s) ++ [b]
    else mo_looping (sys_store s') = false /\ mo_checks (sys_store s') = mo_checks (sys_store s).
Proof.
  unfold loop_round, bind, on_store at 1, zoom, gets. cbn. destruct (mo_running (sys_store s)) eqn:E.
  - unfold on_parts, zoom_sys.
    match goal with |- context [check_once ?c ?a ?t ?st] => destruct (check_once_total st) as (u & b & ->) end.
    cbn. eexists. split; [reflexivity|]. cbn. eauto.
  - eexists. split; [reflexivity|]. done.
Qed.

Lemma set_running_spec b (s : sys (Monitor S) W) :
  exists s', on_store (modify (set_running b)) s = (s', Ok tt) /\ mo_running (sys_store s') = b /\
    mo_looping (sys_store s') = mo_looping (sys_store s) /\
    mo_checks (sys_store s') = mo_checks (sys_store s).
Proof. by eexists. Qed.

(** A step of another component does not touch the monitor's own fields. *)
Lemma other_spec m s :
  exists s', monitor_step (MOther m) s = (s', Ok tt) /\ mo_running (sys_store s') = mo_running (sys_store s) /\
    mo_looping (sys_store s') = mo_looping (sys_store s) /\
    mo_checks (sys_store s') = mo_checks (sys_store s).
Proof. cbn. unfold try_pass, on_parts, zoom_sys. destruct (m _) as [u r]. by eexists. Qed.

Lemma wake_looping s :
  mo_looping (sys_store s) = true -> monitor_step MWake s = loop_round s.
Proof. intros Hl. unfold monitor_step. rewrite (bind_ok_eq _ _ s s true); [done|]. destruct s. cbn in *. by rewrite <- Hl. Qed.

Lemma wake_idle s : mo_looping (sys_store s) = false -> monitor_step MWake s = (s, Ok tt).
Proof. intros Hl. unfold monitor_step. rewrite (bind_ok_eq _ _ s s false); [done|]. destruct s. cbn in *. by rewrite <- Hl. Qed.

Definition quiet_event (ev : monitor_event S W) : bool := negb (is_run ev) && negb (is_stop ev).

(** While it runs, every wake-up is one check. *)
Lemma running_counts evs s :
  mo_running (sys_store s) = true -> mo_looping (sys_store s) = true -> forallb quiet_event evs = true ->
  exists s', monitor_run evs s = (s', Ok tt) /\ mo_running (sys_store s') = true /\
    mo_looping (sys_store s') = true /\
    length (mo_checks (sys_store s')) = (length (mo_checks (sys_store s)) + wakes evs)%nat.
Proof.
  revert s. induction evs as [|ev evs IH]; intros s Hr Hl Hq.
  - exists s. split_and!; [done..|]. unfold wakes. cbn. lia.
  - cbn in Hq. apply andb_prop in Hq as [He Hq]. unfold monitor_run. cbn [for_each].
    destruct ev as [| | |m]; try done.
    + destruct (loop_round_spec s) as (s1 & H1 & Hr1 & H2). rewrite Hr in H2, Hr1.
      destruct H2 as (Hl1 & b & Hb).
      rewrite (bind_ok_eq _ _ s s1 tt) by (by rewrite (wake_looping s Hl)).
      destruct (IH s1) as (s' & H' & Hr' & Hl' & Hc'); [done|congruence|done|].
      exists s'. split_and!; [done..|]. rewrite Hc', Hb, length_app. unfold wakes. cbn. lia.
    + destruct (other_spec m s) as (s1 & H1 & Hr1 & Hl1 & Hc1).
      rewrite (bind_ok_eq _ _ s s1 tt) by exact H1.
      destruct (IH s1) as (s' & H' & Hr' & Hl' & Hc'); [congruence..|done|].
      exists s'. split_and!; [done..|]. by rewrite Hc', Hc1.
Qed.

(** Once stopped it checks no more, and its next wake-up is its last. *)
Lemma stopped_idle evs s :
  mo_running (sys_store s) = false -> forallb (fun ev => negb (is_run ev)) evs = true ->
  exists s', monitor_run evs s = (s', Ok tt) /\ mo_running (sys_store s') = false /\
    mo_checks (sys_store s') = mo_checks (sys_store s) /\
    mo_looping (sys_store s') = mo_looping (sys_store s) && (wakes evs =? 0)%nat.
Proof.
  revert s. induction evs as [|ev evs IH]; intros s Hr Hq.
  - exists s. split_and!; [done..|]. by rewrite andb_true_r.
  - cbn in Hq. apply andb_prop in Hq as [He Hq]. unfold monitor_run. cbn [for_each].
    destruct ev as [| | |m]; try done.
    + destruct (mo_looping (sys_store s)) eqn:El.
      * destruct (loop_round_spec s) as (s1 & H1 & Hr1 & H2). rewrite Hr in H2, Hr1. destruct H2 as [Hl1 Hc1].
        rewrite (bind_ok_eq _ _ s s1 tt) by (by rewrite (wake_looping s El)).
        destruct (IH s1) as (s' & H' & Hr' & Hc' & Hl'); [done..|].
        exists s'. split_and!; [done..|congruence|]. by rewrite Hl', Hl1.
      * rewrite (bind_ok_eq _ _ s s tt) by (by rewrite (wake_idle s El)).
        destruct (IH s) as (s' & H' & Hr' & Hc' & Hl'); [done..|].
        exists s'. split_and!; [done..|]. by rewrite Hl', El.
    + destruct (set_running_spec false s) as (s1 & H1 & Hr1 & Hl1 & Hc1).
      rewrite (bind_ok_eq _ _ s s1 tt) by exact H1.
      destruct (IH s1) as (s' & H' & Hr' & Hc' & Hl'); [done..|].
      exists s'. split_and!; [done..|congruence|]. by rewrite Hl', Hl1.
    + destruct (other_spec m s) as (s1 & H1 & Hr1 & Hl1 & Hc1).
      rewrite (bind_ok_eq _ _ s s1 tt) by exact H1.
      destruct (IH s1) as (s' & H' & Hr' & Hc' & Hl'); [congruence|done|].
      exists s'. split_and!; [done..|congruence|]. by rewrite Hl', Hl1.
Qed.

(** The call of [run_loop] checks at once. *)
Lemma run_spec s :
  mo_looping (sys_store s) = false ->
  exists s', monitor_step MRun s = (s', Ok tt) /\ mo_running (sys_store s') = true /\
    mo_looping (sys_store s') = true /\ exists b, mo_checks (sys_store s') = mo_checks (sys_store s) ++ [b].
Proof.
  intros Hl. unfold monitor_step. rewrite (bind_ok_eq _ _ s s false); [|destruct s; cbn in *; by rewrite <- Hl].
  unfold run_loop. set (s0 := set_store (set_looping true (set_running true (sys_store s))) s).
  rewrite (bind_ok_eq _ _ s s0 tt) by done.
  destruct (loop_round_spec s0) as (s1 & H1 & Hr1 & H2). change (mo_running (sys_store s0)) with true in *.
  destruct H2 as (Hl1 & b & Hb). exists s1. split_and!; [done|done|done|]. by exists b.
Qed.

Lemma monitor_run_app evs1 evs2 s s1 :
  monitor_run evs1 s = (s1, Ok tt) -> monitor_run (evs1 ++ evs2) s = monitor_run evs2 s1.
Proof.
  revert s. induction evs1 as [|ev evs1 IH]; intros s; [by intros [= <-]|].
  unfold monitor_run. cbn [for_each app]. intros H. inv_bind H. destruct a.
  rewrite (bind_ok_eq _ _ _ _ _ Hb). by apply IH.
Qed.

(** From the call of [run_loop] to the call of [stop] the monitor checks once per
    round, whatever the checks find and other code does; afterwards not at all. *)
Lemma monitor_rounds evs1 evs2 s :
  mo_looping (sys_store s) = false ->
  forallb quiet_event evs1 = true -> forallb (fun ev => negb (is_run ev)) evs2 = true ->
  exists s', monitor_run (MRun :: evs1 ++ MStop :: evs2) s = (s', Ok tt) /\
    length (mo_checks (sys_store s')) = (length (mo_checks (sys_store s)) + 1 + wakes evs1)%nat /\
    mo_looping (sys_store s') = (wakes evs2 =? 0)%nat.
Proof.
  intros Hl H1 H2. destruct (run_spec s Hl) as (s1 & E1 & Hr1 & Hl1 & b & Hc1).
  destruct (running_counts evs1 s1 Hr1 Hl1 H1) as (s2 & E2 & _ & Hl2 & Hc2).
  destruct (set_running_spec false s2) as (s3 & E3 & Hr3 & Hl3 & Hc3).
  destruct (stopped_idle evs2 s3 Hr3 H2) as (s4 & E4 & _ & Hc4 & Hl4).
  exists s4. split.
  - unfold monitor_run. cbn [for_each]. rewrite (bind_ok_eq _ _ _ _ _ E1).
    fold (monitor_run (evs1 ++ MStop :: evs2)). rewrite (monitor_run_app _ _ _ _ E2).
    unfold monitor_run. cbn [for_each]. by rewrite (bind_ok_eq (monitor_step MStop) _ _ _ _ E3).
  - split; [|by rewrite Hl4, Hl3, Hl2]. rewrite Hc4, Hc3, Hc2, Hc1, length_app. cbn. lia.
Qed.

End Monitor.

(** ** A stopped scheduler is noticed *)

Section Detection.
Context (clock : nat -> datetime) (uuids : nat -> string) (threshold_us : Z).

(** The alert callback, as a log. *)
Definition log_alert : option (DeadmanAlert -> M (list DeadmanAlert) unit) :=
  Some (fun a => modify (fun w => w ++ [a])).

#[local] Instance scheduler : Scheduler MemScheduler (list DeadmanAlert) := mem_scheduler clock uuids.

Abbreviation MSys := (sys (Monitor MemScheduler) (list DeadmanAlert)).
Abbreviation step := (monitor_step (SCH := scheduler) clock log_alert threshold_us).
Abbreviation rounds := (monitor_run (SCH := scheduler) clock log_alert threshold_us).

(** The scheduler stopped with its last beat at [h]. *)
Definition dead_since (h : datetime) (s : MSys) : Prop :=
  let m := ds_sched (mo_state (sys_store s)) in ms_stopped m = true /\ ms_last_heartbeat m = h.

(** Every later reading of the clock is past the threshold. *)
Definition overdue (h : datetime) (n : nat) : Prop :=
  forall k, (n <= k)%nat -> threshold_us < instant (clock k) - instant h.

Lemma dead_check (s : sys (DState MemScheduler) (list DeadmanAlert)) h :
  ms_stopped (ds_sched (sys_store s)) = true -> ms_last_heartbeat (ds_sched (sys_store s)) = h ->
  threshold_us < instant (clock (sys_ticks s)) - instant h ->
  check_once (SCH := scheduler) clock log_alert threshold_us s =
    (mk_sys (sys_store s)
       (sys_world s ++ [mk_DeadmanAlert (instant (clock (sys_ticks s)) - instant h) threshold_us])
       (S (sys_ticks s)) (sys_uuids s), Ok false).
Proof.
  intros Hs Hh Ht. destruct s as [[dl m] w t u]. cbn in *. unfold check_once, try_except, bind, on_sched, zoom_sys.
  cbn. unfold mem_heartbeat, bind, on_store, zoom, gets. cbn. rewrite Hs. cbn. rewrite Hh.
  rewrite (proj2 (Z.ltb_lt _ _) Ht). done.
Qed.

(** A round on a dead scheduler raises one alert and leaves it as dead as it was. *)
Lemma dead_round h (s : MSys) :
  dead_since h s -> overdue h (sys_ticks s) -> mo_running (sys_store s) = true ->
  exists s' a, loop_round (SCH := scheduler) clock log_alert threshold_us s = (s', Ok tt) /\
    dead_since h s' /\ overdue h (sys_ticks s') /\ sys_world s' = sys_world s ++ [a] /\
    mo_running (sys_store s') = true /\ mo_looping (sys_store s') = mo_looping (sys_store s) /\
    mo_checks (sys_store s') = mo_checks (sys_store s) ++ [false].
Proof.
  intros [Hst Hh] Ho Hr. unfold loop_round.
  rewrite (bind_ok_eq _ _ s s true) by (destruct s; cbn in *; by rewrite Hr).
  unfold bind, on_parts, zoom_sys.
  rewrite (dead_check (mk_sys (mo_state (sys_store s)) (sys_world s) (sys_ticks s) (sys_uuids s)) h);
    [|done|done|by apply Ho].
  cbn. eexists _, _. split; [reflexivity|]. cbn. split_and!; try done.
  intros k Hk. apply Ho. lia.
Qed.

Lemma dead_wakes h k (s : MSys) :
  dead_since h s -> overdue h (sys_ticks s) -> mo_running (sys_store s) = true ->
  mo_looping (sys_store s) = true ->
  exists s' alerts, rounds (replicate k MWake) s = (s', Ok tt) /\
    sys_world s' = sys_world s ++ alerts /\ length alerts = k /\
    mo_checks (sys_store s') = mo_checks (sys_store s) ++ replicate k false.
Proof.
  revert s. induction k as [|k IH]; intros s Hd Ho Hr Hl.
  - exists s, []. rewrite !app_nil_r. by split_and!.
  - destruct (dead_round h s Hd Ho Hr) as (s1 & a & E1 & Hd1 & Ho1 & Hw1 & Hr1 & Hl1 & Hc1).
    destruct (IH s1 Hd1 Ho1 Hr1) as (s2 & l & E2 & Hw2 & Hlen & Hc2); [congruence|].
    exists s2, (a :: l). unfold monitor_run. cbn [replicate for_each].
    rewrite (bind_ok_eq _ _ s s1 tt) by (by rewrite wake_looping).
    split; [exact E2|]. rewrite Hw2, Hw1, Hc2, Hc1, <- !app_assoc. cbn. by rewrite Hlen.
Qed.

(** C17: The monitor's loop never raises and never ends by itself.  From the call of
    [run_loop] to the call of [stop] it checks once at the start and once per
    wake-up, whatever other code does in between and whatever the checks find;
    after [stop] it checks no more, and its next wake-up ends it.  When the
    scheduler's last beat lies further back than the threshold, each of these
    checks is reported as stale and raises exactly one alert. *)
Theorem monitor_never_misses :
  (forall S W (SCH : Scheduler S W) (alert_fn : option (DeadmanAlert -> M W unit)) evs1 evs2
     (s : sys (Monitor S) W),
     mo_looping (sys_store s) = false ->
     forallb quiet_event evs1 = true -> forallb (fun ev => negb (is_run ev)) evs2 = true ->
     exists s', monitor_run clock alert_fn threshold_us (MRun :: evs1 ++ MStop :: evs2) s = (s', Ok tt) /\
       length (mo_checks (sys_store s')) = (length (mo_checks (sys_store s)) + 1 + wakes evs1)%nat /\
       mo_looping (sys_store s') = (wakes evs2 =? 0)%nat) /\
  (forall h k (s : MSys),
     dead_since h s -> overdue h (sys_ticks s) -> mo_looping (sys_store s) = false ->
     exists s' alerts, rounds (MRun :: replicate k MWake) s = (s', Ok tt) /\
       sys_world s' = sys_world s ++ alerts /\ length alerts = Datatypes.S k /\
       mo_checks (sys_store s') = mo_checks (sys_store s) ++ replicate (Datatypes.S k) false).
Proof.
  split; [intros; by apply monitor_rounds|]. intros h k s Hd Ho Hl.
  set (s0 := set_store (set_looping true (set_running true (sys_store s))) s).
  assert (Hd0 : dead_since h s0) by exact Hd. assert (Ho0 : overdue h (sys_ticks s0)) by exact Ho.
  destruct (dead_round h s0 Hd0 Ho0) as (s1 & a & E1 & Hd1 & Ho1 & Hw1 & Hr1 & Hl1 & Hc1); [done|].
  destruct (dead_wakes h k s1 Hd1 Ho1 Hr1) as (s2 & l & E2 & Hw2 & Hlen & Hc2); [by rewrite Hl1|].
  exists s2, (a :: l). split.
  - unfold monitor_run. cbn [for_each]. rewrite (bind_ok_eq _ _ s s1 tt); [exact E2|].
    unfold monitor_step. rewrite (bind_ok_eq _ _ s s false) by (destruct s; cbn in *; by rewrite Hl).
    unfold run_loop. by rewrite (bind_ok_eq _ _ s s0 tt).
  - rewrite Hw2, Hw1, Hc2, Hc1, <- !app_assoc. cbn. by rewrite Hlen.
Qed.

End Detection.

(** A [stop] before [run_loop] is forgotten: the loop sets the flag itself. *)
Lemma early_stop_lost {S W} `{Scheduler S W} clock alert_fn th (s : sys (Monitor S) W) :
  mo_looping (sys_store s) = false ->
  exists s', monitor_run clock alert_fn th [MStop; MRun] s = (s', Ok tt) /\
    mo_looping (sys_store s') = true /\ mo_running (sys_store s') = true.
Proof.
  intros Hl. destruct (set_running_spec false s) as (s1 & E1 & _ & Hl1 & _).
  destruct (run_spec clock alert_fn th s1) as (s2 & E2 & Hr2 & Hl2 & _); [congruence|].
  exists s2. unfold monitor_run. cbn [for_each].
  rewrite (bind_ok_eq (monitor_step clock alert_fn th MStop) _ _ _ _ E1).
  by rewrite (bind_ok_eq _ _ _ _ _ E2).
Qed.

(** ** A scheduler that stopped the day before *)

Definition ex_beat : datetime := utc_datetime (ymd2ord 2026 3 8) 0.
Definition ex_monitor_clock (n : nat) : datetime := utc_datetime (ymd2ord 2026 3 9) 0.
Definition ex_threshold : Z := 300 * US_PER_SECOND.
Definition ex_monitor : sys (Monitor MemScheduler) (list DeadmanAlert) :=
  mk_sys (new_monitor (mk_DState empty_deadline_store (mk_MemScheduler [] ex_beat true))) [] 0 0.

Lemma monitor_never_misses_witness :
  exists s' alerts,
    monitor_run (SCH := scheduler ex_monitor_clock (fun _ => "a")) ex_monitor_clock log_alert ex_threshold
      (MRun :: replicate 2 MWake) ex_monitor = (s', Ok tt) /\
    sys_world s' = alerts /\ length alerts = 3%nat.
Proof.
  destruct (proj2 (monitor_never_misses ex_monitor_clock (fun _ => "a") ex_threshold) ex_beat 2%nat ex_monitor)
    as (s' & alerts & H1 & H2 & H3 & _).
  - by split.
  - intros k _. vm_compute. reflexivity.
  - reflexivity.
  - exists s', alerts. split; [exact H1|]. split; [exact H2|exact H3].
Defined.
