(* ===== verification/Firing.v ===== *)
(** * Firing: core/services/deadline/firing.py

    Reminder delivery, escalation and completion.  The notification port is an
    interface of the outside world ([NotificationPort], with the repository's
    mock as an instance); the delivery marker lives in Redis.  [fire_reminder]
    is split at its [await] of the port into what it checks and what it then
    does, so that two overlapping calls can be interleaved. *)

From Stdlib Require Import ZArith Lia Ascii String List.
From stdpp Require Import base list strings pretty sorting.
From S2P Require Import Prelude PyTime ConnErrors Effects Idem DeadlineTypes Compute Schedule.

Open Scope string_scope.
Open Scope list_scope.
Open Scope Z_scope.
Open Scope cam_scope.

(** ** Notification port *)

Class NotificationPort (W : Type) := {
  notify : list string -> jdict -> string -> M W string }.

(** [MockNotificationPort] *)
Record PortCall := mk_PortCall { pc_recipients : list string; pc_payload : jdict; pc_idem_key : string }.

Record MockPort := mk_MockPort { mp_calls : list PortCall; mp_fail : bool; mp_fail_count : Z }.

Definition mock_set_fail (count : Z) : M MockPort unit :=
  modify (fun m => mk_MockPort (mp_calls m) true count).

Definition mock_notify (recipients : list string) (payload : jdict) (idem_key : string) : M MockPort string :=
  fun m =>
  if mp_fail m && (0 <? mp_fail_count m) then
    let n := mp_fail_count m - 1 in
    (mk_MockPort (mp_calls m) (if n =? 0 then false else mp_fail m) n,
     Err (OtherError "ConnectionError" "Notification delivery failed."))
  else (mk_MockPort (mp_calls m ++ [mk_PortCall recipients payload idem_key]) (mp_fail m) (mp_fail_count m),
        Ok ("notif-" +:+ idem_key)).

#[export] Instance mock_port : NotificationPort MockPort := { notify := mock_notify }.

(** ** The jobs *)

Record FState (S R : Type) := mk_FState { fs_ds : DState S; fs_redis : R }.
Arguments mk_FState {S R}.
Arguments fs_ds {S R}.
Arguments fs_redis {S R}.

Section Jobs.
Context {S R W : Type} {SCH : Scheduler S W} {RO : RedisOps R} {NP : NotificationPort W}.
Context (clock : nat -> datetime) (has_redis : bool) (audit_fn : option (AuditEvent -> M W unit)).

Definition FM (A : Type) : Type := M (sys (FState S R) W) A.

Definition on_ds {A} (m : M (sys (DState S) W) A) : FM A :=
  zoom_sys fs_ds (fun x f => mk_FState x (fs_redis f)) m.

Definition on_redis {A} (m : M R A) : FM A :=
  on_store (zoom fs_redis (fun x f => mk_FState (fs_ds f) x) m).

Definition get_deadline (did : string) : FM (option ScheduledDeadline) :=
  on_ds (on_deadlines (gets (dl_get did))).

Definition save_deadline (sd : ScheduledDeadline) : FM unit := on_ds (save sd).

(** [if audit_fn: try: await audit_fn(...) except Exception: pass] *)
Definition fire_audit (ev : AuditEvent) : FM unit :=
  match audit_fn with None => ret tt | Some f => try_pass (on_world (f ev)) end.

Definition dedup_key (k : string) : string := "cam:reminder_fired:" +:+ k.

Definition DEDUP_TTL : Z := 86400 * 7.

Definition resolve_recipients (sd : ScheduledDeadline) : list string :=
  ["case_manager:" +:+ sd_matter_id sd].

(** [fire_reminder] up to the notification: the record to notify about, if any. *)
Definition fire_check (deadline_id idem_key : string) : FM (option ScheduledDeadline) :=
  let! already := if has_redis then on_redis (redis_get (dedup_key idem_key)) else ret None in
  if has_redis && opt_truthy already then ret None
  else
    let! sd := get_deadline deadline_id in
    match sd with
    | None => ret None
    | Some sd =>
        match find_first (fun r => String.eqb (sr_idempotency_key r) idem_key) (sd_reminders sd) with
        | None => ret None
        | Some r => if is_armed r then ret (Some sd) else ret None
        end
    end.

Definition mark_fired (idem_key : string) (r : ScheduledReminder) : ScheduledReminder :=
  if String.eqb (sr_idempotency_key r) idem_key then rem_with_status RFired r else r.

(** [fire_reminder] from the notification on. *)
Definition fire_send (deadline_id idem_key : string) (sd : ScheduledDeadline) : FM bool :=
  on_world (notify (resolve_recipients sd)
    [("deadline_id", JStr deadline_id); ("matter_id", JStr (sd_matter_id sd));
     ("due_at", JStr (isoformat (ct_due_at (sd_trace sd))))] idem_key) ;;
  (save_deadline (sd_with_reminders (map (mark_fired idem_key) (sd_reminders sd)) sd) ;;
  ((if has_redis then on_redis (redis_set (dedup_key idem_key) "1" DEDUP_TTL) else ret tt) ;;
  (fire_audit (mk_AuditEvent "deadline_engine" "reminder.fired" [("idem_key", JStr idem_key)]
                [("deadline_id", JStr deadline_id)] None) ;;
  ret true))).

Definition fire_reminder (deadline_id idem_key : string) : FM bool :=
  let! plan := fire_check deadline_id idem_key in
  match plan with
  | None => ret false
  | Some sd => fire_send deadline_id idem_key sd
  end.

Definition esc_key (deadline_id : string) (level : Z) : string :=
  "esc:" +:+ deadline_id +:+ ":" +:+ pretty level.

(** The clock reading only chooses whether the miss is logged. *)
Definition escalate (deadline_id : string) : FM Z :=
  let! sd := get_deadline deadline_id in
  match sd with
  | None => ret 0
  | Some sd =>
      let new_level := sd_escalation_level sd + 1 in
      save_deadline (sd_with_level (Z.max (sd_escalation_level sd) new_level) sd) ;;
      (get_now clock ;;
      (on_world (notify ["supervisor:" +:+ sd_matter_id sd; "case_manager:" +:+ sd_matter_id sd]
        [("type", JStr "escalation"); ("level", JInt new_level); ("deadline_id", JStr deadline_id)]
        (esc_key deadline_id new_level)) ;;
      (fire_audit (mk_AuditEvent "deadline_engine" "deadline.escalated"
        [("deadline_id", JStr deadline_id); ("level", JInt new_level)] [] None) ;;
      ret new_level)))
  end.

Definition close_reminder (r : ScheduledReminder) : ScheduledReminder :=
  if is_armed r then rem_with_status RSkippedPast r else r.

(** Cancel every arm of the armed reminders, dropping the scheduler's errors. *)
Definition cancel_arms (rs : list ScheduledReminder) : FM unit :=
  for_each rs (fun r =>
    if is_armed r then for_each (sr_redundant_arm_ids r) (fun a => try_pass (on_ds (on_sched (cancel a))))
    else ret tt).

Definition mark_done (deadline_id : string) : FM unit :=
  let! sd := get_deadline deadline_id in
  match sd with
  | None => ret tt
  | Some sd =>
      cancel_arms (sd_reminders sd) ;;
      (save_deadline (sd_with_reminders (map close_reminder (sd_reminders sd)) sd) ;;
      fire_audit (mk_AuditEvent "deadline_engine" "deadline.done" [("deadline_id", JStr deadline_id)] [] None))
  end.

(** One job run by the scheduler's workers; an exception ends the job only. *)
Inductive FiringOp :=
| OpFire (deadline_id idem_key : string)
| OpEscalate (deadline_id : string)
| OpDone (deadline_id : string).

Definition run_firing_op (op : FiringOp) : FM unit :=
  match op with
  | OpFire d k => try_pass (fire_reminder d k)
  | OpEscalate d => try_pass (escalate d)
  | OpDone d => try_pass (mark_done d)
  end.

Definition run_firing (ops : list FiringOp) : FM unit := for_each ops run_firing_op.
End Jobs.

(** ** The calls made to the port

    What a port does with a call is its own business: one that raises may or may
    not have delivered.  The theorems count the calls themselves.  [traced W] is
    the outside world with a ghost record of the calls the jobs make to the port
    and of which of them returned; the scheduler and the audit sink act on the
    world below and cannot touch the record. *)

Record NotifyCall := mk_NotifyCall { nc_payload : jdict; nc_key : string; nc_returned : bool }.

Record traced (W : Type) := mk_traced { tw_world : W; tw_calls : list NotifyCall }.
Arguments mk_traced {W}.
Arguments tw_world {W}.
Arguments tw_calls {W}.

Definition is_ok {A} (r : res A) : bool := match r with Ok _ => true | Err _ => false end.

Definition lift_world {W A} (m : M W A) : M (traced W) A :=
  zoom tw_world (fun x t => mk_traced x (tw_calls t)) m.

Definition erase {T W} (s : sys T (traced W)) : sys T W :=
  mk_sys (sys_store s) (tw_world (sys_world s)) (sys_ticks s) (sys_uuids s).

Definition lift_sys {T W A} (m : M (sys T W) A) : M (sys T (traced W)) A := fun s =>
  let '(u, r) := m (erase s) in
  (mk_sys (sys_store u) (mk_traced (sys_world u) (tw_calls (sys_world s))) (sys_ticks u) (sys_uuids u), r).

#[export] Instance traced_port {W} {NP : NotificationPort W} : NotificationPort (traced W) := {
  notify rs p k := fun t =>
    let '(w, r) := notify rs p k (tw_world t) in
    (mk_traced w (tw_calls t ++ [mk_NotifyCall p k (is_ok r)]), r) }.

#[export] Instance traced_scheduler {S W} {SCH : Scheduler S W} : Scheduler S (traced W) := {
  arm t ref k := lift_sys (arm t ref k);
  cancel a := lift_sys (cancel a);
  heartbeat := lift_sys heartbeat }.

Definition traced_audit {W} (audit_fn : option (AuditEvent -> M W unit)) :
  option (AuditEvent -> M (traced W) unit) := option_map (fun f ev => lift_world (f ev)) audit_fn.

(** The calls that deliver the reminder [k] of deadline [did]. *)
Definition is_delivery (did k : string) (c : NotifyCall) : bool :=
  String.eqb (nc_key c) k &&
  match dget "deadline_id" (nc_payload c) with Some (JStr d) => String.eqb d did | _ => false end &&
  match dget "type" (nc_payload c) with Some _ => false | None => true end.

(** Their outcomes, in order: [true] for a call that returned. *)
Definition deliveries (did k : string) (cs : list NotifyCall) : list bool :=
  map nc_returned (bfilter (is_delivery did k) cs).

Lemma deliveries_app did k cs1 cs2 : deliveries did k (cs1 ++ cs2) = deliveries did k cs1 ++ deliveries did k cs2.
Proof. unfold deliveries. by rewrite bfilter_app, map_app. Qed.

Lemma deliveries_one did k p k' b :
  deliveries did k [mk_NotifyCall p k' b] = if is_delivery did k (mk_NotifyCall p k' b) then [b] else [].
Proof. unfold deliveries. cbn [bfilter]. by destruct (is_delivery _ _ _). Qed.

(** ** Progress of the store *)

(** A job may close a reminder but never re-arms it nor changes anything else. *)
Definition rem_step (r r' : ScheduledReminder) : Prop :=
  r' = rem_with_status (sr_status r') r /\ (is_armed r' = true -> is_armed r = true).

Definition deadline_step (d d' : ScheduledDeadline) : Prop :=
  sd_deadline_id d' = sd_deadline_id d /\ sd_idempotency_key d' = sd_idempotency_key d /\
  sd_trace d' = sd_trace d /\ sd_escalation_level d <= sd_escalation_level d' /\
  Forall2 rem_step (sd_reminders d) (sd_reminders d').

Definition store_step (st st' : DeadlineStore) : Prop :=
  forall did d, dl_get did st = Some d -> exists d', dl_get did st' = Some d' /\ deadline_step d d'.

(** Every record is filed under its own id. *)
Definition filed (st : DeadlineStore) : Prop :=
  forall did d, dl_get did st = Some d -> sd_deadline_id d = did.

Lemma rem_step_refl r : rem_step r r.
Proof. split; [by destruct r|done]. Qed.

Lemma rem_step_trans r1 r2 r3 : rem_step r1 r2 -> rem_step r2 r3 -> rem_step r1 r3.
Proof. intros [E1 A1] [E2 A2]. split; [|auto]. rewrite E2, E1. by destruct r1. Qed.

Lemma deadline_step_refl d : deadline_step d d.
Proof.
  repeat (split; [done||lia|]). induction (sd_reminders d); constructor; auto using rem_step_refl.
Qed.

Lemma Forall2_rem_step_trans l1 l2 l3 :
  Forall2 rem_step l1 l2 -> Forall2 rem_step l2 l3 -> Forall2 rem_step l1 l3.
Proof.
  intros H. revert l3. induction H as [|x y l1 l2 Hxy _ IH]; intros l3 H2; inversion H2; subst; constructor; eauto using rem_step_trans.
Qed.

Lemma deadline_step_trans d1 d2 d3 : deadline_step d1 d2 -> deadline_step d2 d3 -> deadline_step d1 d3.
Proof.
  intros (?&?&?&?&?) (?&?&?&?&?). repeat split; try congruence; [lia|].
  by eapply Forall2_rem_step_trans.
Qed.

Lemma store_step_refl st : store_step st st.
Proof. intros did d H. exists d. split; [done|apply deadline_step_refl]. Qed.

Lemma store_step_trans st1 st2 st3 : store_step st1 st2 -> store_step st2 st3 -> store_step st1 st3.
Proof.
  intros H1 H2 did d Hd. apply H1 in Hd as (d2 & Hd2 & S1). apply H2 in Hd2 as (d3 & Hd3 & S2).
  exists d3. split; [done|by eapply deadline_step_trans].
Qed.

#[export] Hint Resolve store_step_refl store_step_trans deadline_step_refl rem_step_refl : cam.

Lemma save_filed st sd : filed st -> filed (dl_save sd st).
Proof. intros H did d. rewrite dl_get_save. case_decide; [by intros [= <-]|apply H]. Qed.

Lemma save_step st sd sd' :
  dl_get (sd_deadline_id sd) st = Some sd -> deadline_step sd sd' -> store_step st (dl_save sd' st).
Proof.
  intros Hg Hs did d Hd. rewrite dl_get_save. pose proof Hs as (Hid & _). rewrite Hid.
  case_decide; [subst; simplify_eq; eauto|]. eauto using deadline_step_refl.
Qed.

Lemma map_rem_step f l :
  (forall r, rem_step r (f r)) -> Forall2 rem_step l (map f l).
Proof. intros H. induction l; constructor; auto. Qed.

Lemma with_reminders_step f sd :
  (forall r, rem_step r (f r)) -> deadline_step sd (sd_with_reminders (map f (sd_reminders sd)) sd).
Proof. intros H. repeat (split; [done||apply Z.le_refl|]). by apply map_rem_step. Qed.

Lemma mark_fired_step k r : rem_step r (mark_fired k r).
Proof. unfold mark_fired. destruct (String.eqb _ k); [by split|apply rem_step_refl]. Qed.

Lemma close_reminder_step r : rem_step r (close_reminder r).
Proof. unfold close_reminder. destruct (is_armed r) eqn:E; [by split|apply rem_step_refl]. Qed.

(** No reminder of the deadline under this key is armed any more. *)
Definition closed (did k : string) (st : DeadlineStore) : Prop :=
  forall d r, dl_get did st = Some d -> r ∈ sd_reminders d -> sr_idempotency_key r = k ->
    is_armed r = false.

Lemma closed_step did k st st' :
  (exists d, dl_get did st = Some d) -> closed did k st -> store_step st st' -> closed did k st'.
Proof.
  intros [d Hd] Hc Hs d' r' Hd' Hr' Hk. destruct (Hs _ _ Hd) as (d2 & Hd2 & _ & _ & _ & _ & HF).
  assert (d2 = d') as -> by congruence. apply list_elem_of_lookup in Hr' as [i Hi].
  destruct (Forall2_lookup_r _ _ _ _ _ HF Hi) as (r & Hri & E & Ha).
  destruct (is_armed r') eqn:Ea; [|done]. apply list_elem_of_lookup_2 in Hri.
  pose proof (Hc d r Hd Hri). rewrite E in Hk. cbn in Hk. intuition congruence.
Qed.

(** ** Theorems *)

Section JobProofs.
Context {S R W : Type} {SCH : Scheduler S W} {RO : RedisOps R} {NP : NotificationPort W}.
Context (clock : nat -> datetime) (has_redis : bool) (audit_fn : option (AuditEvent -> M W unit)).
Context (calls : W -> list NotifyCall).
Implicit Types (s : sys (FState S R) W).

Definition fs_store s : DeadlineStore := ds_store (fs_ds (sys_store s)).

Definition fs_calls s : list NotifyCall := calls (sys_world s).

(** The record of calls: [notify] adds its own, nothing else writes it. *)
Definition port_recorded : Prop := forall rs p k w w' r, notify rs p k w = (w', r) ->
  calls w' = calls w ++ [mk_NotifyCall p k (is_ok r)].

Definition audit_silent : Prop :=
  forall f ev w, audit_fn = Some f -> calls (fst (f ev w)) = calls w.

Definition sched_silent : Prop :=
  forall a (s : sys S W), calls (sys_world (fst (cancel a s))) = calls (sys_world s).

(** Nothing that concerns deadlines or notifications changed. *)
Definition quiet s s' : Prop := fs_store s' = fs_store s /\ fs_calls s' = fs_calls s.

Lemma quiet_refl s : quiet s s.
Proof. done. Qed.

Lemma quiet_trans s1 s2 s3 : quiet s1 s2 -> quiet s2 s3 -> quiet s1 s3.
Proof. intros [E1 F1] [E2 F2]. split; congruence. Qed.

Lemma quiet_on_redis {A} (m : M R A) s : quiet s (fst (on_redis (S := S) (W := W) m s)).
Proof. unfold on_redis, on_store, zoom, quiet, fs_store, fs_calls. by destruct (m _). Qed.

Lemma quiet_audit ev s : audit_silent -> quiet s (fst (fire_audit (S := S) (R := R) audit_fn ev s)).
Proof.
  unfold audit_silent, fire_audit. destruct audit_fn as [f|]; [|done]. intros H.
  unfold try_pass, on_world, zoom, quiet, fs_store, fs_calls. specialize (H f ev (sys_world s) eq_refl).
  by destruct (f ev _) as [w r].
Qed.

Lemma quiet_cancel a s :
  sched_silent -> quiet s (fst (try_pass (on_ds (R := R) (on_sched (cancel a))) s)).
Proof.
  intros H. unfold try_pass, on_ds, on_sched, zoom_sys, quiet, fs_store, fs_calls.
  specialize (H a). cbn.
  match goal with |- context [cancel a ?x] => specialize (H x); destruct (cancel a x) as [u r] end.
  by cbn in *.
Qed.

Lemma quiet_bind {A B} (m : M (sys (FState S R) W) A) (f : A -> M (sys (FState S R) W) B) s :
  quiet s (fst (m s)) -> (forall a s', quiet s' (fst (f a s'))) -> quiet s (fst (bind m f s)).
Proof.
  intros Hm Hf. unfold bind. destruct (m s) as [s' [a|e]]; [|done]. cbn in Hm.
  eapply quiet_trans; [exact Hm|apply Hf].
Qed.

Lemma quiet_for_each {A} (l : list A) (f : A -> M (sys (FState S R) W) unit) s :
  (forall a s', quiet s' (fst (f a s'))) -> quiet s (fst (for_each l f s)).
Proof.
  intros Hf. revert s. induction l as [|x l IH]; intros s; cbn [for_each]; [done|].
  apply quiet_bind; auto.
Qed.

Lemma get_deadline_eq did s :
  get_deadline (S := S) (R := R) (W := W) did s = (s, Ok (dl_get did (fs_store s))).
Proof. by destruct s as [[[st sc] r] w t u]. Qed.

Lemma save_deadline_eq sd s :
  save_deadline (S := S) (R := R) (W := W) sd s =
  (set_store (mk_FState (mk_DState (dl_save sd (fs_store s)) (ds_sched (fs_ds (sys_store s))))
     (fs_redis (sys_store s))) s, Ok tt).
Proof. by destruct s as [[[st sc] r] w t u]. Qed.

Lemma fire_check_quiet did k s : quiet s (fst (fire_check has_redis did k s)).
Proof.
  unfold fire_check. apply quiet_bind; [destruct has_redis; [apply quiet_on_redis|done]|].
  intros a s'. destruct (_ && _); [done|]. unfold bind. rewrite get_deadline_eq.
  destruct (dl_get _ _) as [sd|]; [|done]. destruct (find_first _ _) as [r|]; [|done].
  by destruct (is_armed r).
Qed.

Lemma fire_check_ok did k s s' sd :
  fire_check has_redis did k s = (s', Ok (Some sd)) ->
  quiet s s' /\ dl_get did (fs_store s) = Some sd /\
  exists r, r ∈ sd_reminders sd /\ sr_idempotency_key r = k /\ is_armed r = true.
Proof.
  intros H. pose proof (fire_check_quiet did k s) as Hq. rewrite H in Hq. split; [done|].
  unfold fire_check in H. inv_bind H.
  assert (fs_store s0 = fs_store s) as Est.
  { destruct has_redis; [|by injection Hb as <-].
    pose proof (quiet_on_redis (redis_get (dedup_key k)) s) as Hr. rewrite Hb in Hr. apply Hr. }
  destruct (_ && _); [done|]. inv_bind H. rewrite get_deadline_eq in Hb0. injection Hb0 as <- <-.
  rewrite Est in H. destruct (dl_get did _) as [d|]; [|done].
  destruct (find_first _ _) as [r|] eqn:Ef; [|done]. destruct (is_armed r) eqn:Ea; [|done].
  injection H as _ ->. split; [done|]. apply find_first_Some in Ef as [Hin Hk].
  apply String.eqb_eq in Hk. eauto.
Qed.

Definition fired (k : string) (sd : ScheduledDeadline) : ScheduledDeadline :=
  sd_with_reminders (map (mark_fired k) (sd_reminders sd)) sd.

Definition reminder_payload (did : string) (sd : ScheduledDeadline) : jdict :=
  [("deadline_id", JStr did); ("matter_id", JStr (sd_matter_id sd));
   ("due_at", JStr (isoformat (ct_due_at (sd_trace sd))))].

(** Sending calls the port once; the record is stored with the reminder marked
    when the call returned, and nothing changes when it raised. *)
Lemma fire_send_effect did k sd s s' r :
  port_recorded -> audit_silent -> fire_send has_redis audit_fn did k sd s = (s', r) ->
  exists b, fs_calls s' = fs_calls s ++ [mk_NotifyCall (reminder_payload did sd) k b] /\
    fs_store s' = if b : bool then dl_save (fired k sd) (fs_store s) else fs_store s.
Proof.
  intros Hp Ha H. unfold fire_send in H. fold (reminder_payload did sd) in H.
  unfold bind at 1 in H. unfold on_world, zoom in H.
  destruct (notify _ _ k (sys_world s)) as [w [id|e]] eqn:En; apply Hp in En.
  - exists true. unfold bind at 1 in H. rewrite save_deadline_eq in H. fold (fired k sd) in H.
    match type of H with bind _ _ ?x = _ => set (s1 := x) in * end.
    assert (quiet s1 s') as [Q1 Q2].
    { replace s' with (fst (s', r)) by done. rewrite <- H.
      apply quiet_bind; [destruct has_redis; [apply quiet_on_redis|done]|].
      intros ? ?. apply quiet_bind; [by apply quiet_audit|done]. }
    rewrite Q1, Q2. by split.
  - exists false. by injection H as <- _.
Qed.

Lemma delivery_reminder did k did' sd k' b :
  is_delivery did k (mk_NotifyCall (reminder_payload did' sd) k' b) = String.eqb k' k && String.eqb did' did.
Proof. unfold is_delivery. cbn. by rewrite andb_true_r. Qed.

Lemma fired_closed did k sd st :
  sd_deadline_id sd = did -> closed did k (dl_save (fired k sd) st).
Proof.
  intros <- d r. rewrite dl_get_save, decide_True by done. intros [= <-] Hr Hk.
  cbn in Hr. apply list_elem_of_fmap in Hr as (r0 & -> & _).
  unfold mark_fired in *. destruct (String.eqb_spec (sr_idempotency_key r0) k); [done|]. congruence.
Qed.

(** What one job does: store records only progress, and a delivery of [k] is
    attempted only when a matching reminder was armed; one that returned leaves
    it closed. *)
Record job_ok (did k : string) s s' : Prop := mk_job_ok {
  jo_filed : filed (fs_store s');
  jo_step : store_step (fs_store s) (fs_store s');
  jo_calls : deliveries did k (fs_calls s') = deliveries did k (fs_calls s) \/
    exists b, deliveries did k (fs_calls s') = deliveries did k (fs_calls s) ++ [b] /\
      ~ closed did k (fs_store s) /\
      (b = true -> closed did k (fs_store s') /\ exists d, dl_get did (fs_store s') = Some d) }.

Lemma quiet_job_ok did k s s' : filed (fs_store s) -> quiet s s' -> job_ok did k s s'.
Proof. intros Hf [E1 E2]. split; rewrite ?E1, ?E2; auto with cam. Qed.

Lemma fire_job_ok did k did' k' s :
  port_recorded -> audit_silent -> filed (fs_store s) ->
  job_ok did k s (fst (fire_reminder has_redis audit_fn did' k' s)).
Proof.
  intros Hp Ha Hf. unfold fire_reminder, bind.
  destruct (fire_check has_redis did' k' s) as [s1 [[sd|]|e]] eqn:E.
  - apply fire_check_ok in E as ([Q1 Q2] & Hg & r & Hr & Hrk & Harm).
    destruct (fire_send has_redis audit_fn did' k' sd s1) as [s2 x] eqn:Es; cbn [fst].
    apply fire_send_effect in Es as (b & Ec & Est); [|done..]. rewrite Q1 in Est. rewrite Q2 in Ec.
    pose proof (Hf _ _ Hg) as Hid. split.
    + rewrite Est. destruct b; [by apply save_filed|done].
    + rewrite Est. destruct b; [|auto with cam]. apply (save_step _ sd); [by rewrite Hid|].
      apply with_reminders_step, mark_fired_step.
    + rewrite Ec, deliveries_app, deliveries_one, delivery_reminder.
      destruct (String.eqb_spec k' k) as [->|]; [|left; by rewrite app_nil_r].
      destruct (String.eqb_spec did' did) as [->|]; [|left; by rewrite app_nil_r].
      right. exists b. split; [done|]. split.
      * intros Hc. by rewrite (Hc sd r Hg Hr Hrk) in Harm.
      * intros ->. rewrite Est. split; [by apply fired_closed|].
        rewrite dl_get_save, decide_True by done. eauto.
  - apply quiet_job_ok; [done|]. pose proof (fire_check_quiet did' k' s) as Hq. by rewrite E in Hq.
  - apply quiet_job_ok; [done|]. pose proof (fire_check_quiet did' k' s) as Hq. by rewrite E in Hq.
Qed.

(** A stored record that progressed, with nothing sent under [k] meanwhile. *)
Lemma saved_job_ok did k sd sd' s s' :
  filed (fs_store s) -> dl_get (sd_deadline_id sd) (fs_store s) = Some sd -> deadline_step sd sd' ->
  fs_store s' = dl_save sd' (fs_store s) ->
  deliveries did k (fs_calls s') = deliveries did k (fs_calls s) -> job_ok did k s s'.
Proof.
  intros Hf Hg Hs Est Hk. split; rewrite ?Est; [by apply save_filed|by eapply save_step|by left].
Qed.

Lemma level_step sd n :
  sd_escalation_level sd <= n -> deadline_step sd (sd_with_level n sd).
Proof. intros H. repeat (split; [done|]). apply (deadline_step_refl sd). Qed.

Lemma escalate_job_ok did k did' s :
  port_recorded -> audit_silent -> filed (fs_store s) ->
  job_ok did k s (fst (escalate clock audit_fn did' s)).
Proof.
  intros Hp Ha Hf. unfold escalate. unfold bind at 1. rewrite get_deadline_eq.
  destruct (dl_get did' (fs_store s)) as [sd|] eqn:Hg; [|by apply quiet_job_ok].
  cbv zeta. unfold bind at 1. rewrite save_deadline_eq. rewrite bind_get_now.
  set (sd' := sd_with_level _ sd).
  match goal with |- context [tick ?x] => set (s1 := x) end.
  unfold bind at 1. unfold on_world, zoom.
  destruct (notify _ _ _ (sys_world (tick s1))) as [w r] eqn:En. apply Hp in En.
  set (s2 := set_world w (tick s1)).
  assert (forall s3, quiet s2 s3 -> job_ok did k s s3) as Hok.
  { intros s3 [Q1 Q2]. eapply (saved_job_ok _ _ sd sd');
      [done|by rewrite (Hf _ _ Hg)|apply level_step; lia|by rewrite Q1|].
    rewrite Q2. unfold fs_calls at 1, s2. cbn [set_world sys_world].
    rewrite En, deliveries_app, deliveries_one. unfold is_delivery. cbn.
    by rewrite andb_false_r, app_nil_r. }
  destruct r as [id|e]; cbn [fst]; apply Hok; [|done].
  apply quiet_bind; [by apply quiet_audit|done].
Qed.

Lemma cancel_arms_quiet rs s : sched_silent -> quiet s (fst (cancel_arms (S := S) (R := R) rs s)).
Proof.
  intros H. apply quiet_for_each. intros r s'. destruct (is_armed r); [|done].
  apply quiet_for_each. intros a s2. by apply quiet_cancel.
Qed.

Lemma cancel_arms_total rs s : exists s', cancel_arms (S := S) (R := R) rs s = (s', Ok tt).
Proof.
  unfold cancel_arms. revert s. induction rs as [|r rs IH]; intros s; cbn [for_each]; [by eexists|].
  assert (forall s, exists s', (if is_armed r then for_each (sr_redundant_arm_ids r)
    (fun a => try_pass (on_ds (R := R) (on_sched (cancel a)))) else ret tt) s = (s', Ok tt)) as Hr.
  { destruct (is_armed r); [|by eexists]. induction (sr_redundant_arm_ids r) as [|a l IHl]; intros s'; [by eexists|].
    cbn [for_each]. unfold bind, try_pass at 1. destruct (on_ds _ s'). apply IHl. }
  destruct (Hr s) as [s1 E1]. unfold bind. rewrite E1. apply IH.
Qed.

Lemma done_job_ok did k did' s :
  audit_silent -> sched_silent -> filed (fs_store s) ->
  job_ok did k s (fst (mark_done (R := R) audit_fn did' s)).
Proof.
  intros Ha Hc Hf. unfold mark_done. unfold bind at 1. rewrite get_deadline_eq.
  destruct (dl_get did' (fs_store s)) as [sd|] eqn:Hg; [|by apply quiet_job_ok].
  destruct (cancel_arms_total (sd_reminders sd) s) as [s1 E1].
  pose proof (cancel_arms_quiet (sd_reminders sd) s Hc) as Q1. rewrite E1 in Q1.
  cbn [fst] in Q1. destruct Q1 as [Q1 Q2].
  unfold bind at 1. rewrite E1. unfold bind at 1. rewrite save_deadline_eq.
  match goal with |- context [fire_audit _ ?ev ?s2] =>
    pose proof (quiet_audit ev s2 Ha) as [Q3 Q4] end.
  eapply (saved_job_ok _ _ sd); [done|by rewrite (Hf _ _ Hg)| |rewrite Q3; unfold fs_store at 1; cbn; by rewrite Q1|].
  - apply with_reminders_step, close_reminder_step.
  - rewrite Q4. by rewrite <- Q2.
Qed.

Lemma fst_try_pass {A} (m : M (sys (FState S R) W) A) s : fst (try_pass m s) = fst (m s).
Proof. unfold try_pass. by destruct (m s). Qed.

Lemma run_op_ok did k op s :
  port_recorded -> audit_silent -> sched_silent -> filed (fs_store s) ->
  job_ok did k s (fst (run_firing_op clock has_redis audit_fn op s)).
Proof.
  intros Hp Ha Hc Hf. destruct op; cbn [run_firing_op]; rewrite fst_try_pass.
  - by apply fire_job_ok.
  - by apply escalate_job_ok.
  - by apply done_job_ok.
Qed.

Lemma run_firing_cons op ops s :
  run_firing clock has_redis audit_fn (op :: ops) s =
  run_firing clock has_redis audit_fn ops (fst (run_firing_op clock has_redis audit_fn op s)).
Proof.
  unfold run_firing at 1. cbn [for_each]. unfold bind.
  assert (exists s', run_firing_op clock has_redis audit_fn op s = (s', Ok tt)) as [s' E].
  { destruct op; cbn [run_firing_op]; unfold try_pass;
      [destruct (fire_reminder _ _ _ _ s)|destruct (escalate _ _ _ s)|destruct (mark_done _ _ s)]; by eexists. }
  by rewrite E.
Qed.

(** Once a reminder is closed, the port is not called for it again. *)
Lemma closed_run did k ops s :
  port_recorded -> audit_silent -> sched_silent ->
  filed (fs_store s) -> closed did k (fs_store s) -> (exists d, dl_get did (fs_store s) = Some d) ->
  let s' := fst (run_firing clock has_redis audit_fn ops s) in
  deliveries did k (fs_calls s') = deliveries did k (fs_calls s) /\ store_step (fs_store s) (fs_store s').
Proof.
  intros Hp Ha Hc. revert s. induction ops as [|op ops IH]; intros s Hf Hcl Hex; [by split; auto with cam|].
  rewrite run_firing_cons.
  destruct (run_op_ok did k op s Hp Ha Hc Hf) as [Hf1 Hs1 [E1|(b & _ & Hn & _)]]; [|done].
  destruct (IH _ Hf1) as [E2 Hs2].
  - by eapply closed_step.
  - destruct Hex as [d Hd]. apply Hs1 in Hd as (d' & ? & _). eauto.
  - split; [by rewrite E2|by eapply store_step_trans].
Qed.

Lemma run_deliveries did k ops s :
  port_recorded -> audit_silent -> sched_silent -> filed (fs_store s) ->
  let s' := fst (run_firing clock has_redis audit_fn ops s) in
  store_step (fs_store s) (fs_store s') /\
  exists n acc, deliveries did k (fs_calls s') = deliveries did k (fs_calls s) ++ replicate n false ++ acc /\
    (acc = [] \/ acc = [true]).
Proof.
  intros Hp Ha Hc. revert s. induction ops as [|op ops IH]; intros s Hf.
  { split; [auto with cam|]. exists 0%nat, []. rewrite app_nil_r. by split; [|left]. }
  rewrite run_firing_cons.
  destruct (run_op_ok did k op s Hp Ha Hc Hf) as [Hf1 Hs1 [E1|([|] & E1 & _ & Hcl)]].
  - destruct (IH _ Hf1) as [Hs2 (n & acc & E2 & Hacc)].
    split; [by eapply store_step_trans|]. exists n, acc. by rewrite E2, E1.
  - destruct (Hcl eq_refl) as [Hcl1 Hex].
    destruct (closed_run did k ops _ Hp Ha Hc Hf1 Hcl1 Hex) as [E2 Hs2].
    split; [by eapply store_step_trans|]. exists 0%nat, [true]. rewrite E2, E1. by split; [|right].
  - destruct (IH _ Hf1) as [Hs2 (n & acc & E2 & Hacc)].
    split; [by eapply store_step_trans|]. exists (Datatypes.S n), acc. split; [|done].
    by rewrite E2, E1, <- app_assoc.
Qed.
End JobProofs.

(** ** The recorded jobs *)

Section Traced.
Context {S R W : Type} {SCH : Scheduler S W} {RO : RedisOps R} {NP : NotificationPort W}.
Context (clock : nat -> datetime) (has_redis : bool) (audit_fn : option (AuditEvent -> M W unit)).
Implicit Types (s : sys (FState S R) (traced W)).

(** [m] does what [m0] does, and keeps the record of calls besides. *)
Definition erases {T A} (m : M (sys T (traced W)) A) (m0 : M (sys T W) A) : Prop :=
  forall t, m0 (erase t) = (erase (fst (m t)), snd (m t)).

Lemma erases_ret {T A} (a : A) : erases (T := T) (ret a) (ret a).
Proof. done. Qed.

Lemma erases_bind {T A B} (m : M (sys T (traced W)) A) m0 (f : A -> M (sys T (traced W)) B) f0 :
  erases m m0 -> (forall a, erases (f a) (f0 a)) -> erases (bind m f) (bind m0 f0).
Proof.
  intros Hm Hf s. unfold bind. rewrite (Hm s). destruct (m s) as [s1 [a|e]]; [apply Hf|done].
Qed.

Lemma erases_try_pass {T A} (m : M (sys T (traced W)) A) m0 : erases m m0 -> erases (try_pass m) (try_pass m0).
Proof. intros Hm s. unfold try_pass. rewrite (Hm s). by destruct (m s). Qed.

Lemma erases_for_each {T A} (l : list A) (f : A -> M (sys T (traced W)) unit) f0 :
  (forall a, erases (f a) (f0 a)) -> erases (for_each l f) (for_each l f0).
Proof. intros Hf. induction l as [|x l IH]; cbn [for_each]; [apply erases_ret|]. by apply erases_bind. Qed.

Lemma erases_on_redis {A} (m : M R A) : erases (on_redis (S := S) m) (on_redis m).
Proof. intros s. unfold on_redis, on_store, zoom. cbn. by destruct (m _). Qed.

Lemma erases_get_deadline did : erases (get_deadline (S := S) (R := R) did) (get_deadline did).
Proof. intros s. by rewrite !get_deadline_eq. Qed.

Lemma erases_save_deadline sd : erases (save_deadline (S := S) (R := R) sd) (save_deadline sd).
Proof. intros s. by rewrite !save_deadline_eq. Qed.

Lemma erases_notify {T} rs p k : erases (T := T) (on_world (notify rs p k)) (on_world (notify rs p k)).
Proof. intros s. unfold on_world, zoom. cbn. by destruct (notify _ _ _ _). Qed.

Lemma erases_get_now {T} : erases (T := T) (get_now clock) (get_now clock).
Proof. done. Qed.

Lemma erases_cancel a : erases (on_ds (S := S) (R := R) (on_sched (cancel a))) (on_ds (on_sched (cancel a))).
Proof.
  intros s. unfold on_ds, on_sched, zoom_sys, erase. cbn. unfold lift_sys, erase. cbn.
  by destruct (cancel a _).
Qed.

Lemma erases_audit ev :
  erases (fire_audit (S := S) (R := R) (traced_audit audit_fn) ev) (fire_audit audit_fn ev).
Proof.
  unfold fire_audit, traced_audit. destruct audit_fn as [f|]; cbn [option_map]; [|apply erases_ret].
  apply erases_try_pass. intros s. unfold on_world, lift_world, zoom, erase. cbn. by destruct (f ev _).
Qed.

Lemma erases_cancel_arms rs : erases (cancel_arms (S := S) (R := R) rs) (cancel_arms rs).
Proof.
  apply erases_for_each. intros r. destruct (is_armed r); [|apply erases_ret].
  apply erases_for_each. intros a. apply erases_try_pass, erases_cancel.
Qed.

Create HintDb erases.
#[local] Hint Resolve erases_ret erases_on_redis erases_get_deadline erases_save_deadline erases_notify
  erases_get_now erases_audit erases_cancel_arms : erases.

Ltac erases_step :=
  match goal with
  | |- erases (bind _ _) _ => apply erases_bind; [|intros ?]
  | |- erases (if ?b then _ else _) _ => destruct b
  | |- erases (match ?x with _ => _ end) _ => destruct x
  | |- erases _ _ => solve [auto with erases]
  end.

Lemma erases_run_op op :
  erases (run_firing_op clock has_redis (traced_audit audit_fn) op) (run_firing_op (SCH := SCH) clock has_redis audit_fn op).
Proof.
  destruct op; cbn [run_firing_op]; apply erases_try_pass.
  - unfold fire_reminder, fire_check, fire_send. repeat erases_step.
  - unfold escalate. repeat erases_step.
  - unfold mark_done. repeat erases_step.
Qed.

Lemma erases_run ops :
  erases (run_firing clock has_redis (traced_audit audit_fn) ops) (run_firing (SCH := SCH) clock has_redis audit_fn ops).
Proof. apply erases_for_each, erases_run_op. Qed.

Lemma traced_port_recorded : port_recorded (W := traced W) tw_calls.
Proof. intros rs p k t t' r H. cbn in H. destruct (notify rs p k (tw_world t)). by injection H as <- <-. Qed.

Lemma traced_audit_silent : audit_silent (traced_audit audit_fn) tw_calls.
Proof.
  unfold traced_audit. intros f ev t H. destruct audit_fn as [g|]; [|done]. injection H as <-.
  unfold lift_world, zoom. by destruct (g ev _).
Qed.

Lemma traced_sched_silent : sched_silent (S := S) (W := traced W) tw_calls.
Proof. intros a s. cbn. unfold lift_sys. by destruct (cancel a _). Qed.

(** C11: a reminder is delivered at most once.  Take any deadline id and
    reminder key, any scheduler, port, audit sink and Redis, and any sequence of
    firing, escalation and completion jobs, for any deadlines, run one after the
    other from a store whose records are filed under their own ids (as every
    save files them).  Among the calls the jobs make to the port to deliver that
    reminder, those that raise come first and at most one returns, after which
    the port is not called for it again; no reminder is ever re-armed, no record
    disappears or changes its trace, and no escalation level decreases.  The
    record of calls is ghost: without it the jobs do the same.  A port that
    raises after it has delivered is called again. *)
Theorem reminder_sent_at_most_once did k ops s :
  filed (fs_store s) ->
  let s' := fst (run_firing clock has_redis (traced_audit audit_fn) ops s) in
  (exists n acc,
     deliveries did k (tw_calls (sys_world s')) =
       deliveries did k (tw_calls (sys_world s)) ++ replicate n false ++ acc /\
     (acc = [] \/ acc = [true])) /\
  store_step (fs_store s) (fs_store s') /\
  fst (run_firing (SCH := SCH) clock has_redis audit_fn ops (erase s)) = erase s'.
Proof.
  intros Hf. cbv zeta.
  destruct (run_deliveries clock has_redis (traced_audit audit_fn) tw_calls did k ops s
    traced_port_recorded traced_audit_silent traced_sched_silent Hf) as [H1 H2].
  split; [exact H2|]. split; [exact H1|]. by rewrite erases_run.
Qed.
End Traced.

(** ** Overlapping calls *)

Section Race.
Context {S W : Type} {SCH : Scheduler S W} {NP : NotificationPort W}.

Lemma fire_check_again did k (s s1 : sys (FState S redis_mem) (traced W)) o :
  fire_check true did k s = (s1, Ok o) -> s1 = s.
Proof.
  intros H. unfold fire_check in H. inv_bind H.
  assert (s0 = s) as -> by (destruct s as [[ds r] w t u]; by injection Hb as <- _).
  destruct (_ && _); [by injection H|]. inv_bind H. rewrite get_deadline_eq in Hb0. injection Hb0 as <- _.
  destruct a0; [|by injection H]. destruct (find_first _ _) as [r|]; [|by injection H].
  destruct (is_armed r); by injection H.
Qed.

(** The delivery marker does not exclude overlapping calls.  When two jobs
    armed for the same reminder both reach the port before either has marked it,
    each of them delivers: the check of the second passes in the state the first
    check left, and a port that accepts both calls has been called twice. *)
Lemma overlapping_fires_send_twice did k sd (s s1 s3 s4 : sys (FState S redis_mem) (traced W)) :
  fire_check true did k s = (s1, Ok (Some sd)) ->
  fire_send true None did k sd s1 = (s3, Ok true) ->
  fire_send true None did k sd s3 = (s4, Ok true) ->
  fire_check true did k s1 = (s1, Ok (Some sd)) /\
  deliveries did k (tw_calls (sys_world s4)) = deliveries did k (tw_calls (sys_world s)) ++ [true; true].
Proof.
  intros Hc H1 H2. pose proof (fire_check_again _ _ _ _ _ Hc) as ->. split; [done|].
  assert (forall t t' : sys (FState S redis_mem) (traced W), fire_send true None did k sd t = (t', Ok true) ->
    deliveries did k (tw_calls (sys_world t')) = deliveries did k (tw_calls (sys_world t)) ++ [true]) as Hone.
  { intros t t' H. unfold fire_send in H. inv_bind H. unfold on_world, zoom in Hb.
    destruct (notify _ _ _ (sys_world t)) as [w r] eqn:En. injection Hb as <- ->.
    apply traced_port_recorded in En.
    inv_bind H. rewrite save_deadline_eq in Hb. injection Hb as <-. inv_bind H.
    injection Hb as <-. inv_bind H. injection Hb as <-. injection H as <-.
    cbn [sys_world set_world set_store]. rewrite En, deliveries_app, deliveries_one.
    fold (reminder_payload did sd). by rewrite delivery_reminder, !String.eqb_refl. }
  by rewrite (Hone _ _ H2), (Hone _ _ H1), <- app_assoc.
Qed.
End Race.

(** ** Completion *)

Section Done.
Context {S R W : Type} {SCH : Scheduler S W} {SL : SchedulerLaws S W} {RO : RedisOps R}.
Context (audit_fn : option (AuditEvent -> M W unit)).
Implicit Types (s : sys (FState S R) W).

Definition fs_good s : Prop := sched_inv (ds_sched (fs_ds (sys_store s))) (sys_uuids s).

Definition fs_job s (a : string) : option (datetime * string) :=
  jobs (ds_sched (fs_ds (sys_store s))) a.

(** A scheduler that accepts every cancellation. *)
Definition cancels : Prop := forall a (u : sys S W), exists u', cancel a u = (u', Ok tt).

(** [s'] differs from [s] by having cancelled some arms among [as_]. *)
Definition cancelled (as_ : list string) s s' : Prop :=
  ds_store (fs_ds (sys_store s')) = ds_store (fs_ds (sys_store s)) /\ fs_good s' /\
  (forall a, a ∈ as_ -> fs_job s' a = None) /\ (forall a, a ∉ as_ -> fs_job s' a = fs_job s a).

Lemma cancelled_app l1 l2 s1 s2 s3 :
  cancelled l1 s1 s2 -> cancelled l2 s2 s3 -> cancelled (l1 ++ l2) s1 s3.
Proof.
  intros (E1 & G1 & N1 & K1) (E2 & G2 & N2 & K2). split; [congruence|]. split; [done|]. split.
  - intros a Ha. destruct (decide (a ∈ l2)); [auto|]. rewrite K2 by done.
    apply N1. apply elem_of_app in Ha as [?|?]; done.
  - intros a [??]%not_elem_of_app. by rewrite K2, K1.
Qed.

Lemma cancel_one a s :
  cancels -> fs_good s ->
  exists s', try_pass (on_ds (R := R) (on_sched (cancel a))) s = (s', Ok tt) /\ cancelled [a] s s'.
Proof.
  intros Hc Hg. unfold try_pass, on_ds, on_sched, zoom_sys. cbn.
  match goal with |- context [cancel a ?x] => destruct (Hc a x) as [u E]; rewrite E end.
  eexists. split; [done|]. apply cancel_ok in E as (Hi & Hn & Hk); [|done].
  split; [done|]. split; [done|]. split.
  - intros a' Ha. apply list_elem_of_singleton in Ha as ->. done.
  - intros a' Ha. apply Hk. intros ->. apply Ha. by apply list_elem_of_singleton.
Qed.

Lemma cancel_list l s :
  cancels -> fs_good s -> exists s',
    for_each l (fun a => try_pass (on_ds (R := R) (on_sched (cancel a)))) s = (s', Ok tt) /\ cancelled l s s'.
Proof.
  intros Hc. revert s. induction l as [|a l IH]; intros s Hg; cbn [for_each].
  - exists s. split; [done|]. split; [done|]. split; [done|]. split; [|done].
    intros a Ha. by apply elem_of_nil in Ha.
  - destruct (cancel_one a s Hc Hg) as (s1 & E1 & C1). destruct (IH s1) as (s2 & E2 & C2); [apply C1|].
    exists s2. unfold bind. rewrite E1. split; [done|]. by apply (cancelled_app [a] l s s1 s2).
Qed.

Definition live_arms (rs : list ScheduledReminder) : list string :=
  flat_map (fun r => if is_armed r then sr_redundant_arm_ids r else []) rs.

Lemma cancel_arms_ok rs s :
  cancels -> fs_good s -> exists s',
    cancel_arms (R := R) rs s = (s', Ok tt) /\ cancelled (live_arms rs) s s'.
Proof.
  intros Hc. revert s. induction rs as [|r rs IH]; intros s Hg; unfold cancel_arms; cbn [for_each].
  - destruct (cancel_list [] s Hc Hg) as (s' & E & C). by exists s'.
  - destruct (cancel_list (if is_armed r then sr_redundant_arm_ids r else []) s Hc Hg) as (s1 & E1 & C1).
    destruct (IH s1) as (s2 & E2 & C2); [apply C1|]. exists s2. unfold bind.
    destruct (is_armed r) eqn:Ea; [rewrite E1|injection E1 as <-]; (split; [exact E2|]);
      unfold live_arms; cbn [flat_map]; rewrite Ea; by eapply cancelled_app.
Qed.

Lemma close_not_armed r : is_armed (close_reminder r) = false.
Proof. unfold close_reminder. by destruct (is_armed r) eqn:E. Qed.

Lemma fire_audit_total ev s :
  exists s', fire_audit (S := S) (R := R) audit_fn ev s = (s', Ok tt) /\ sys_store s' = sys_store s.
Proof.
  unfold fire_audit. destruct audit_fn as [f|]; [|by exists s]. unfold try_pass, on_world, zoom.
  destruct (f ev _) as [w r]. by eexists.
Qed.

(** Completing a deadline.  [mark_done] on a stored deadline returns; it
    closes the deadline's armed reminders, changes nothing else in the store,
    cancels every scheduler job of those reminders and no other job; and a
    reminder of it that fires afterwards is not delivered, or Redis failed. *)
Lemma mark_done_cancels {NP : NotificationPort W} did sd s has_redis k :
  cancels -> fs_good s -> dl_get did (fs_store s) = Some sd -> sd_deadline_id sd = did ->
  exists s', mark_done (R := R) audit_fn did s = (s', Ok tt) /\
    fs_store s' = dl_save (sd_with_reminders (map close_reminder (sd_reminders sd)) sd) (fs_store s) /\
    (forall a, fs_job s' a = if decide (a ∈ live_arms (sd_reminders sd)) then None else fs_job s a) /\
    forall b, snd (fire_reminder has_redis audit_fn did k s') = Ok b -> b = false.
Proof.
  intros Hc Hg Hd Hid. unfold mark_done. unfold bind at 1. rewrite get_deadline_eq, Hd.
  destruct (cancel_arms_ok (sd_reminders sd) s Hc Hg) as (s1 & E1 & Est & _ & Hn & Hk).
  unfold bind at 1. rewrite E1. unfold bind at 1. rewrite save_deadline_eq.
  match goal with |- context [fire_audit _ ?ev ?s2] =>
    destruct (fire_audit_total ev s2) as (s3 & E3 & Es3) end.
  exists s3. split; [exact E3|].
  assert (fs_store s3 = dl_save (sd_with_reminders (map close_reminder (sd_reminders sd)) sd) (fs_store s)) as E4.
  { unfold fs_store at 1. rewrite Es3. cbn. unfold fs_store. by rewrite Est. }
  split; [exact E4|]. split.
  - intros a. unfold fs_job at 1. rewrite Es3. case_decide; [by apply Hn|by apply Hk].
  - intros b Hb. unfold fire_reminder, bind in Hb.
    destruct (fire_check has_redis did k s3) as [s4 [[d|]|e]] eqn:Ef; [|by injection Hb|done].
    apply (fire_check_ok _ (fun _ => [])) in Ef as (_ & Hget & r & Hr & _ & Ha). rewrite E4, dl_get_save in Hget.
    rewrite decide_True in Hget by done. injection Hget as <-. cbn in Hr.
    apply list_elem_of_fmap in Hr as (r0 & -> & _). by rewrite close_not_armed in Ha.
Qed.
End Done.

(** ** Witnesses *)

Definition ex_rem (k : string) (arms : list string) : ScheduledReminder :=
  mk_ScheduledReminder "r1" "d1" ex_receipt (mk_ReminderOffset (-3) UDays None) RArmed k arms.

Definition ex_deadline : ScheduledDeadline :=
  mk_ScheduledDeadline "d1" "m1" ex_rr ex_trace [ex_rem "k1:-3:days" ["a1"; "a2"]] false "k1" 0.

Definition ex_fstate : sys (FState MemScheduler redis_mem) MockPort :=
  mk_sys (mk_FState (mk_DState (dl_save ex_deadline empty_deadline_store)
    (mk_MemScheduler [("u0", mk_ArmedJob ex_receipt "j" "k1:-3:days")] ex_receipt false)) [])
    (mk_MockPort [] true 1) 0 1.

Abbreviation ex_mem := (mem_scheduler (W := MockPort) (fun _ => ex_receipt) ex_uuids).

Lemma ex_filed : filed (fs_store ex_fstate).
Proof.
  intros did d. unfold ex_fstate, fs_store. cbn [sys_store fs_ds ds_store]. rewrite dl_get_save.
  case_decide; [by intros [= <-]|done].
Qed.

Definition ex_traced : sys (FState MemScheduler redis_mem) (traced MockPort) :=
  mk_sys (sys_store ex_fstate) (mk_traced (sys_world ex_fstate) []) 0 1.

Definition ex_jobs : list FiringOp :=
  [OpFire "d1" "k1:-3:days"; OpFire "d1" "k1:-3:days"; OpEscalate "d1"; OpFire "d1" "k1:-3:days"].

(** The port fails once, then delivers; the duplicate job is skipped. *)
Lemma reminder_sent_at_most_once_witness :
  let s' := fst (run_firing (SCH := traced_scheduler (SCH := ex_mem)) (fun _ => ex_receipt) true
                   (traced_audit None) ex_jobs ex_traced) in
  deliveries "d1" "k1:-3:days" (tw_calls (sys_world s')) = [false; true] /\
  store_step (fs_store ex_traced) (fs_store s').
Proof.
  split; [vm_compute; reflexivity|].
  refine (proj1 (proj2 (reminder_sent_at_most_once (SCH := ex_mem) (fun _ => ex_receipt) true None "d1"
    "k1:-3:days" ex_jobs ex_traced ex_filed))).
Defined.

Definition ex_ready : sys (FState MemScheduler redis_mem) (traced MockPort) :=
  set_world (mk_traced (mk_MockPort [] false 0) []) ex_traced.

Lemma overlapping_fires_send_twice_witness :
  let send := fire_send (S := MemScheduler) true None "d1" "k1:-3:days" ex_deadline in
  deliveries "d1" "k1:-3:days" (tw_calls (sys_world (fst (send (fst (send ex_ready)))))) = [true; true].
Proof.
  refine (proj2 (overlapping_fires_send_twice (S := MemScheduler) "d1" "k1:-3:days" ex_deadline ex_ready ex_ready
    (fst (fire_send (S := MemScheduler) true None "d1" "k1:-3:days" ex_deadline ex_ready))
    (fst (fire_send (S := MemScheduler) true None "d1" "k1:-3:days" ex_deadline
       (fst (fire_send (S := MemScheduler) true None "d1" "k1:-3:days" ex_deadline ex_ready)))) _ _ _));
    vm_compute; reflexivity.
Defined.

Lemma mark_done_cancels_witness :
  exists s', mark_done (SCH := ex_mem) None "d1" ex_fstate = (s', Ok tt) /\
    fs_job (SL := mem_scheduler_laws (fun _ => ex_receipt) ex_uuids ex_uuids_inj) s' "u0" <> None.
Proof.
  destruct (mark_done_cancels (SL := mem_scheduler_laws (fun _ => ex_receipt) ex_uuids ex_uuids_inj)
    None "d1" ex_deadline ex_fstate true "k1:-3:days") as (s' & E & _ & Hj & _).
  - intros a u. by eexists.
  - split; [apply (dict_wf_dset "u0" _ []), dict_wf_nil|]. intros a Ha. exists 0%nat. split; [repeat constructor|].
    by apply list_elem_of_singleton in Ha.
  - vm_compute. reflexivity.
  - reflexivity.
  - exists s'. split; [exact E|]. rewrite Hj. vm_compute. discriminate.
Defined.
