(* ===== verification/Domain.v ===== *)
(** * Domain: core/domain/models.py

    The canonical entities shared by every service: contacts, deadlines of the
    case system, matters, documents, communications, tasks, audit records,
    feature flags and access-control lists.  The engine never sees a vendor's
    own payload. *)

From Stdlib Require Import ZArith Lia Ascii String List.
From stdpp Require Import base list strings.
From S2P Require Import Prelude PyTime ConnErrors Effects.

Open Scope string_scope.
Open Scope list_scope.
Open Scope Z_scope.

Record Contact := mk_Contact {
  ct_id : string;
  ct_source : string;
  ct_name : string;
  ct_email : option string;
  ct_phone : option string;
  ct_role : option string;
  ct_external_ids : dict string string }.

Inductive DeadlineStatus := DPending | DReminded | DDone | DMissed.

(** A deadline as the case system reports it. *)
Record Deadline := mk_Deadline {
  d_id : string;
  d_matter_id : string;
  d_name : string;
  d_due_at : datetime;
  d_rule_id : option string;
  d_status : DeadlineStatus;
  d_escalation_level : Z }.

Record Matter := mk_Matter {
  mt_id : string;
  mt_source : string;
  mt_reference : string;
  mt_title : string;
  mt_status : string;
  mt_practice_area : option string;
  mt_client : Contact;
  mt_responsible : option string;
  mt_opened_at : datetime;
  mt_key_dates : list Deadline;
  mt_external_ids : dict string string }.

Record Document := mk_Document {
  doc_id : string;
  doc_matter_id : string;
  doc_name : string;
  doc_mime_type : string;
  doc_uri : string;
  doc_classification : option string;
  doc_version : Z;
  doc_privileged : bool;
  doc_checksum : string;
  doc_created_at : datetime }.

(** The property [restricted] and its setter. *)
Definition restricted (d : Document) : bool := doc_privileged d.

Definition set_restricted (b : bool) (d : Document) : Document :=
  mk_Document (doc_id d) (doc_matter_id d) (doc_name d) (doc_mime_type d) (doc_uri d)
    (doc_classification d) (doc_version d) b (doc_checksum d) (doc_created_at d).

Inductive Direction := DirIn | DirOut.

Record Communication := mk_Communication {
  cm_id : string;
  cm_matter_id : option string;
  cm_direction : Direction;
  cm_channel : string;
  cm_subject : option string;
  cm_body : string;
  cm_status : string;
  cm_participants : list Contact }.

Record Task := mk_Task {
  tk_id : string;
  tk_matter_id : string;
  tk_title : string;
  tk_assignee : option string;
  tk_due_at : option datetime;
  tk_status : string }.

Record AuditRecord := mk_AuditRecord {
  ar_id : Z;
  ar_actor : string;
  ar_action : string;
  ar_inputs : jdict;
  ar_outputs : jdict;
  ar_approval : option jdict;
  ar_timestamp : datetime;
  ar_run_id : option string;
  ar_prev_hash : string;
  ar_record_hash : string }.

Record FeatureFlag := mk_FeatureFlag { ff_key : string; ff_enabled : bool }.

Inductive ACLPermission := PermRead | PermWrite | PermNone.

Record ACL := mk_ACL {
  acl_principals : list string;
  acl_permission : ACLPermission;
  acl_external : bool }.
