(* ===== verification/PyFormat.v ===== *)
(** * PyFormat: parts of a text, and [str.format]

    When a text is a part of another, and the replacement fields of
    [s.format( ** kwargs)], which the QC prompt and the connector templates use. *)

From Stdlib Require Import ZArith Lia Ascii String List.
From stdpp Require Import base list strings.
From S2P Require Import Prelude PyTime Effects PyText.

Open Scope string_scope.
Open Scope list_scope.
Open Scope Z_scope.
Open Scope cam_scope.

(** ** Parts of a text *)

Lemma starts_with_app p s : starts_with p (p +:+ s) = true.
Proof.
  induction p as [|c p IH]; [by destruct s|]. rewrite str_app_cons. cbn. by destruct (ascii_dec c c).
Qed.

Lemma contains_app p a b : str_contains p (a +:+ p +:+ b) = true.
Proof.
  induction a as [|c a IH].
  - change (str_contains p (p +:+ b) = true). destruct (p +:+ b) eqn:E; cbn [str_contains]; rewrite <- E, starts_with_app; done.
  - rewrite str_app_cons. cbn [str_contains]. by rewrite IH, orb_true_r.
Qed.

(** A text is a part of another. *)
Definition part_of (p s : string) : Prop := exists a b, s = a +:+ p +:+ b.

Lemma part_contains p s : part_of p s -> str_contains p s = true.
Proof. intros (a & b & ->). apply contains_app. Qed.

Lemma part_refl p : part_of p p.
Proof. exists EmptyString, EmptyString. by rewrite str_app_nil. Qed.

Lemma part_trans p q s : part_of p q -> part_of q s -> part_of p s.
Proof. intros (a & b & ->) (c & d & ->). exists (c +:+ a), (b +:+ d). by rewrite !str_app_assoc. Qed.

Lemma part_app_l p s t : part_of p s -> part_of p (s +:+ t).
Proof. intros (a & b & ->). exists a, (b +:+ t). by rewrite !str_app_assoc. Qed.

Lemma part_app_r p s t : part_of p s -> part_of p (t +:+ s).
Proof. intros (a & b & ->). exists (t +:+ a), b. by rewrite !str_app_assoc. Qed.

Lemma part_join sep x l : x ∈ l -> part_of x (str_join sep l).
Proof.
  induction l as [|y l IH]; [by intros ?%elem_of_nil|]. intros [->|Hx]%elem_of_cons.
  - destruct l as [|z l]; [apply part_refl|]. cbn [str_join]. apply part_app_l, part_refl.
  - destruct l as [|z l]; [by apply elem_of_nil in Hx|].
    change (str_join sep (y :: z :: l)) with (y +:+ sep +:+ str_join sep (z :: l)).
    by apply part_app_r, part_app_r, IH.
Qed.

(** ** [str.format] *)

(** The span of a replacement field, up to the brace that closes it. *)
Fixpoint field_span (depth : nat) (s : string) : option (string * string) :=
  match s with
  | EmptyString => None
  | String c s' =>
      if Ascii.eqb c "}"%char then
        match depth with
        | O => Some (EmptyString, s')
        | S d => match field_span d s' with Some (b, r) => Some (String c b, r) | None => None end
        end
      else
        match field_span (if Ascii.eqb c "{"%char then S depth else depth) s' with
        | Some (b, r) => Some (String c b, r)
        | None => None
        end
  end.

(** The name that starts a field, and what follows it. *)
Fixpoint span_name (s : string) : string * string :=
  match s with
  | EmptyString => (EmptyString, EmptyString)
  | String c s' =>
      if existsb (Ascii.eqb c) ["."%char; "["%char; ":"%char; "!"%char] then (EmptyString, s)
      else let '(n, r) := span_name s' in (String c n, r)
  end.

Section Format.
(** The value of a field with an attribute, a conversion or a specification. *)
Context (format_field : string -> string -> res string).

Definition field_value (ctx : dict string string) (body : string) : res string :=
  let '(name, rest) := span_name body in
  match dget name ctx with
  | None => Err (KeyError name)
  | Some v => match rest with EmptyString => Ok v | _ => format_field v rest end
  end.

(** [s.format] of keyword arguments. *)
Fixpoint format_from (fuel : nat) (s : string) (ctx : dict string string) : res string :=
  match fuel with
  | O => Err (ValueError "unreachable")
  | S fuel =>
      match s with
      | EmptyString => Ok EmptyString
      | String c s' =>
          if Ascii.eqb c "{"%char then
            match s' with
            | EmptyString => Err (ValueError "Single '{' encountered in format string")
            | String c' s'' =>
                if Ascii.eqb c' "{"%char then letr! r := format_from fuel s'' ctx in Ok (String c r)
                else
                  match field_span 0 s' with
                  | None => Err (ValueError "expected '}' before end of string")
                  | Some (body, rest) =>
                      letr! v := field_value ctx body in
                      letr! r := format_from fuel rest ctx in
                      Ok (v +:+ r)
                  end
            end
          else if Ascii.eqb c "}"%char then
            match s' with
            | String c' s'' =>
                if Ascii.eqb c' "}"%char then letr! r := format_from fuel s'' ctx in Ok (String c r)
                else Err (ValueError "Single '}' encountered in format string")
            | EmptyString => Err (ValueError "Single '}' encountered in format string")
            end
          else letr! r := format_from fuel s' ctx in Ok (String c r)
      end
  end.

Definition str_format (s : string) (ctx : dict string string) : res string := format_from (S (String.length s)) s ctx.

End Format.

(** ** [str.format] is total: the length of the text is enough fuel *)

Lemma field_span_length d s b r : field_span d s = Some (b, r) -> (String.length r < String.length s)%nat.
Proof.
  revert d b r. induction s as [|c s IH]; intros d b r; cbn; [done|].
  destruct (Ascii.eqb c "}").
  - destruct d as [|d]; [intros [= <- <-]; lia|].
    destruct (field_span d s) as [[b' r']|] eqn:E; [|done]. intros [= <- <-]. apply IH in E. lia.
  - destruct (field_span _ s) as [[b' r']|] eqn:E; [|done]. intros [= <- <-]. apply IH in E. lia.
Qed.

Lemma format_fuel ff n s ctx : (String.length s < n)%nat ->
  format_from ff n s ctx = format_from ff (S (String.length s)) s ctx.
Proof.
  intros Hn. enough (forall n k s, (String.length s < n)%nat -> (String.length s < k)%nat ->
    format_from ff n s ctx = format_from ff k s ctx) as Hall by (apply Hall; lia).
  clear. induction n as [|n IH]; intros k s Hn Hk; [lia|]. destruct k as [|k]; [lia|].
  destruct s as [|c s]; [done|]. cbn in Hn, Hk. cbn [format_from].
  rewrite (IH k s) by lia. destruct (Ascii.eqb c "{"); [|destruct (Ascii.eqb c "}"); [|done]]; destruct s as [|c' s]; [done..| |done|].
  - destruct (Ascii.eqb c' "{"); [cbn in *; rewrite (IH k s) by lia; done|].
    destruct (field_span 0 (String c' s)) as [[b r]|] eqn:E; [|done]. apply field_span_length in E. cbn in E, Hn, Hk.
    by rewrite (IH k r) by lia.
  - destruct (Ascii.eqb c' "}"); [|done]. cbn in *. by rewrite (IH k s) by lia.
Qed.

