(* ===== verification/Settings.v ===== *)
(** * Settings, secrets and feature flags: config/settings.py

    [load_settings] is the validation of [Settings]: bounds of the pool, the
    allow-list of secret backends, and the requirements of a backend.  The
    source of raw values (environment over .env file, names without the CAM_
    prefix) and the readers of integers, booleans and JSON are pydantic's and
    parameters here.  The secret loaders follow: the SOPS loader decrypts once
    and serves the flattened file. *)

From Stdlib Require Import ZArith Lia Ascii String List QArith.
From stdpp Require Import base list strings pretty.
From S2P Require Import Prelude PyTime Effects PyText.

Open Scope string_scope.
Open Scope list_scope.
Open Scope Z_scope.
Open Scope cam_scope.

(** ** Settings *)

(** Attributes of type [SecretStr] are [st_database_url], [st_redis_url] and
    [st_vault_token]; the values here are the secret ones. *)
Record Settings := mk_Settings {
  st_database_url : string;
  st_database_pool_size : Z;
  st_database_max_overflow : Z;
  st_redis_url : string;
  st_secret_backend : string;
  st_vault_addr : option string;
  st_vault_token : option string;
  st_sops_file_path : option string;
  st_sops_age_key_file : option string;
  st_encryption_kek_secret_name : string;
  st_otel_exporter_endpoint : option string;
  st_log_level : string;
  st_service_name : string;
  st_residency_region : string;
  st_domain_pack : option string;
  st_feature_flags : dict string bool;
  st_refuse_on_pending_migrations : bool;
  st_extraction_allow_external_inference : bool;
  st_extraction_residency_allowlist : list string }.

Definition SECRET_BACKENDS : list string := ["env"; "sops"; "vault"; "kms"].

Definition or_default {A} (a : A) (o : option A) : A := match o with Some x => x | None => a end.

(** [Field(default, ge=lo, le=hi)] once the value is read. *)
Definition within (lo hi : Z) (z : Z) : option Z := if (lo <=? z) && (z <=? hi) then Some z else None.

(** [_valid_backend] *)
Definition valid_backend (v : string) : option string := if existsb (String.eqb v) SECRET_BACKENDS then Some v else None.

(** [_vault_requires_addr] *)
Definition vault_requires_addr (s : Settings) : res Settings :=
  if String.eqb (st_secret_backend s) "vault" && negb (opt_truthy (st_vault_addr s))
  then Err (ValidationError "vault_addr is required when secret_backend='vault'")
  else if String.eqb (st_secret_backend s) "sops" && negb (opt_truthy (st_sops_file_path s))
  then Err (ValidationError "sops_file_path is required when secret_backend='sops'")
  else Ok s.

Section Loading.
Context (int_of_str : string -> option Z) (bool_of_json : json -> option bool).
Context (json_loads : string -> option json).

(** A value that is given must be readable; one that is not has its default. *)
Definition given {A} (read : string -> option A) (default : A) (raw : option string) : option A :=
  match raw with Some v => read v | None => Some default end.

(** Values of container type are JSON texts. *)
Definition json_field (name : string) (raw : option string) : res (option json) :=
  match raw with
  | None => Ok None
  | Some v => match json_loads v with
              | Some j => Ok (Some j)
              | None => Err (OtherError "SettingsError" ("error parsing value for field " +:+ name))
              end
  end.

Fixpoint flags_of (d : jdict) : option (dict string bool) :=
  match d with
  | [] => Some []
  | (k, v) :: d' =>
      match bool_of_json v, flags_of d' with Some b, Some r => Some ((k, b) :: r) | _, _ => None end
  end.

Fixpoint texts_of (l : list json) : option (list string) :=
  match l with
  | [] => Some []
  | JStr s :: l' => option_map (cons s) (texts_of l')
  | _ => None
  end.

Definition feature_flags_of (j : option json) : option (dict string bool) :=
  match j with None => Some [] | Some (JDict d) => flags_of d | Some _ => None end.

Definition allowlist_of (j : option json) : option (list string) :=
  match j with None => Some [] | Some (JList l) => texts_of l | Some _ => None end.

(** [Settings.model_validate({})] over a source of raw values. *)
Definition load_settings (source : string -> option string) : res Settings :=
  letr! flags := json_field "feature_flags" (source "feature_flags") in
  letr! allow := json_field "extraction_residency_allowlist" (source "extraction_residency_allowlist") in
  let bounded lo hi v := match int_of_str v with Some z => within lo hi z | None => None end in
  match source "database_url",
        given (bounded 1 100) 10 (source "database_pool_size"),
        given (bounded 0 100) 20 (source "database_max_overflow"),
        source "redis_url",
        given valid_backend "env" (source "secret_backend"),
        feature_flags_of flags,
        given (fun v => bool_of_json (JStr v)) true (source "refuse_on_pending_migrations"),
        given (fun v => bool_of_json (JStr v)) false (source "extraction_allow_external_inference"),
        allowlist_of allow with
  | Some url, Some pool, Some overflow, Some redis, Some backend, Some ff, Some refuse, Some ext, Some al =>
      vault_requires_addr
        (mk_Settings url pool overflow redis backend (source "vault_addr") (source "vault_token")
           (source "sops_file_path") (source "sops_age_key_file")
           (or_default "CAM_ENCRYPTION_KEK" (source "encryption_kek_secret_name"))
           (source "otel_exporter_endpoint") (or_default "INFO" (source "log_level"))
           (or_default "case-automation-mcp" (source "service_name"))
           (or_default "us-east-1" (source "residency_region")) (source "domain_pack") ff refuse ext al)
  | _, _, _, _, _, _, _, _, _ => Err (ValidationError "Settings")
  end.

End Loading.

(** ** Secret loaders *)

Definition SecretNotFoundError (name : string) : exn :=
  OtherError "SecretNotFoundError" ("Secret not found: " +:+ py_repr name).

Definition NotImplementedError (what : string) : exn := OtherError "NotImplementedError" what.

Inductive SecretLoader :=
| EnvSecretLoader
| VaultSecretLoader (addr token : string)
| KMSSecretLoader
| SopsSecretLoader (file_path age_key_file : option string).

Definition build_secret_loader (s : Settings) : res SecretLoader :=
  if String.eqb (st_secret_backend s) "vault" then
    match st_vault_addr s, st_vault_token s with
    | Some addr, Some token =>
        if str_truthy addr && str_truthy token then Ok (VaultSecretLoader addr token)
        else Err (ValueError "vault_addr and vault_token are required for vault backend.")
    | _, _ => Err (ValueError "vault_addr and vault_token are required for vault backend.")
    end
  else if String.eqb (st_secret_backend s) "kms" then Ok KMSSecretLoader
  else if String.eqb (st_secret_backend s) "sops" then
    Ok (SopsSecretLoader (st_sops_file_path s) (st_sops_age_key_file s))
  else Ok EnvSecretLoader.

(** [d.update(e)] *)
Definition dupdate {V} (d e : dict string V) : dict string V := fold_left (fun d p => dset p.1 p.2 d) e d.

(** [s.endswith(p)] *)
Fixpoint ends_with (p s : string) : bool :=
  String.eqb p s || match s with EmptyString => false | String _ s' => ends_with p s' end.

Section Loaders.
Context (json_dumps : json -> string) (float_str : Q -> string).

(** [str(v)] of a leaf; a list is dumped, and null is empty. *)
Definition leaf_text (v : json) : string :=
  match v with
  | JList _ => json_dumps v
  | JNull => EmptyString
  | JStr s => s
  | JBool b => py_bool b
  | JInt z => pretty z
  | JFloat q => float_str q
  | JDict _ => EmptyString
  end.

Definition sub_key (prefix k : string) : string := if str_truthy prefix then prefix +:+ "." +:+ k else k.

(** What [_flatten] adds for the value found under [key]. *)
Fixpoint flatten_entry (key : string) (v : json) : dict string string :=
  match v with
  | JDict d => fold_left (fun out p => dupdate out (flatten_entry (sub_key key p.1) p.2)) d []
  | _ => [(key, leaf_text v)]
  end.

Definition flatten (d : jdict) (prefix : string) : dict string string := flatten_entry prefix (JDict d).

Context {W : Type} (environ : dict string string).
Context (run_sops : string -> option string -> M W (Z * string * string)).
Context (yaml_load json_load : string -> res json).

Definition parse_decrypted (file_path decrypted : string) : res json :=
  if ends_with ".yaml" file_path || ends_with ".yml" file_path then yaml_load decrypted
  else if ends_with ".json" file_path then json_load decrypted
  else match yaml_load decrypted with Ok d => Ok d | Err _ => json_load decrypted end.

(** [SopsSecretLoader._decrypt]; the identity file, when there is one, is put
    into the environment of the process. *)
Definition decrypt_file (file_path age_key_file : option string) : M W (dict string string) :=
  match file_path with
  | None => raise (TypeError "expected str, bytes or os.PathLike object, not NoneType")
  | Some path =>
      let! r := run_sops path (if opt_truthy age_key_file then age_key_file else None) in
      let '(code, stdout, stderr) := r in
      if negb (code =? 0) then
        raise (RuntimeError ("sops decrypt failed (exit " +:+ pretty code +:+ "): " +:+ str_strip stderr))
      else
        let! data := lift_res (parse_decrypted path stdout) in
        match data with
        | JDict d => ret (flatten d EmptyString)
        | _ => raise (RuntimeError ("SOPS file " +:+ py_repr path +:+ " did not decrypt to a dict"))
        end
  end.

(** The store is the cache of the SOPS loader. *)
Definition SM (A : Type) : Type := M (sys (option (dict string string)) W) A.

Definition lookup_cache (name : string) (d : dict string string) : res string :=
  or_raise (SecretNotFoundError name) (dget name d).

Definition get_secret (loader : SecretLoader) (name : string) : SM string :=
  match loader with
  | EnvSecretLoader => lift_res (or_raise (SecretNotFoundError name) (dget name environ))
  | VaultSecretLoader _ _ =>
      raise (NotImplementedError "VaultSecretLoader is a stub pending hosting confirmation (PTD §18 Q2).")
  | KMSSecretLoader =>
      raise (NotImplementedError "KMSSecretLoader is a stub pending hosting confirmation (PTD §18 Q2).")
  | SopsSecretLoader file key =>
      let! cache := on_store (gets id) in
      match cache with
      | Some d => lift_res (lookup_cache name d)
      | None =>
          let! d := on_world (decrypt_file file key) in
          on_store (modify (fun _ => Some d)) ;;
          lift_res (lookup_cache name d)
      end
  end.

End Loaders.

(** ** Feature flags *)

Record FeatureFlags := mk_FeatureFlags { ff_flags : dict string bool }.

Definition is_enabled (f : FeatureFlags) (workflow_key : string) : bool := or_default false (dget workflow_key (ff_flags f)).

Definition from_settings (s : Settings) : FeatureFlags := mk_FeatureFlags (st_feature_flags s).

(** [error_message_is_clean]: [rep] is [repr(self)]. *)
Definition error_message_is_clean (rep : Settings -> string) (s : Settings) : bool :=
  str_contains "**********" (rep s) || negb (str_contains (st_database_url s) (rep s)).

(** ** What validated settings promise *)

Record settings_ok (s : Settings) : Prop := {
  so_pool : 1 <= st_database_pool_size s <= 100;
  so_overflow : 0 <= st_database_max_overflow s <= 100;
  so_backend : st_secret_backend s ∈ SECRET_BACKENDS;
  so_vault : st_secret_backend s = "vault" -> opt_truthy (st_vault_addr s) = true;
  so_sops : st_secret_backend s = "sops" -> opt_truthy (st_sops_file_path s) = true }.

(** The loader the backend names. *)
Definition loader_of (s : Settings) (l : SecretLoader) : Prop :=
  match l with
  | EnvSecretLoader => st_secret_backend s = "env"
  | VaultSecretLoader addr token =>
      st_secret_backend s = "vault" /\ st_vault_addr s = Some addr /\ st_vault_token s = Some token
  | KMSSecretLoader => st_secret_backend s = "kms"
  | SopsSecretLoader file key =>
      st_secret_backend s = "sops" /\ file = st_sops_file_path s /\ opt_truthy file = true /\ key = st_sops_age_key_file s
  end.

Lemma within_spec lo hi z z' : within lo hi z = Some z' -> z' = z /\ lo <= z <= hi.
Proof.
  unfold within. destruct (Z.leb_spec lo z), (Z.leb_spec z hi); cbn; try done. by intros [= <-].
Qed.

Lemma valid_backend_spec v b : valid_backend v = Some b -> b = v /\ v ∈ SECRET_BACKENDS.
Proof.
  unfold valid_backend. destruct (existsb _ _) eqn:E; [|done]. intros [= <-]. split; [done|].
  apply existsb_exists in E as (x & Hx & ->%String.eqb_eq). by apply list_elem_of_In.
Qed.

Lemma given_spec {A} (read : string -> option A) (P : A -> Prop) default raw a :
  P default -> (forall v x, read v = Some x -> P x) -> given read default raw = Some a -> P a.
Proof. intros Hd Hr. unfold given. destruct raw; [apply Hr|by intros [= <-]]. Qed.

Section Checked.
Context (int_of_str : string -> option Z) (bool_of_json : json -> option bool).
Context (json_loads : string -> option json).

Abbreviation load := (load_settings int_of_str bool_of_json json_loads).

Lemma bounded_given lo hi d raw z :
  lo <= d <= hi ->
  given (fun v => match int_of_str v with Some z => within lo hi z | None => None end) d raw = Some z ->
  lo <= z <= hi.
Proof.
  intros Hd. apply (given_spec _ (fun z => lo <= z <= hi)); [done|]. intros v x.
  destruct (int_of_str v); [|done]. by intros [-> ?]%within_spec.
Qed.

Lemma load_ok source s : load source = Ok s -> settings_ok s.
Proof.
  unfold load_settings. intros H.
  destruct (json_field _ "feature_flags" _) as [flags|]; [cbn [res_bind] in H|done].
  destruct (json_field _ "extraction_residency_allowlist" _) as [allow|]; [cbn [res_bind] in H|done].
  destruct (source "database_url"); [|done].
  destruct (given _ 10 _) as [pool|] eqn:Hp; [|done]. destruct (given _ 20 _) as [over|] eqn:Ho; [|done].
  destruct (source "redis_url"); [|done].
  destruct (given valid_backend _ _) as [b|] eqn:Hb; [|done].
  destruct (feature_flags_of _ flags); [|done]. destruct (given _ true _); [|done].
  destruct (given _ false _); [|done]. destruct (allowlist_of allow); [|done].
  apply bounded_given in Hp; [|lia]. apply bounded_given in Ho; [|lia].
  apply (given_spec _ (fun b => b ∈ SECRET_BACKENDS)) in Hb; [|by left|by intros ? ? [-> ?]%valid_backend_spec].
  unfold vault_requires_addr in H. cbn [st_secret_backend st_vault_addr st_sops_file_path] in H.
  destruct (String.eqb_spec b "vault") as [Ev|Ev], (opt_truthy (source "vault_addr")) eqn:Ea;
    cbn in H; try done;
    destruct (String.eqb_spec b "sops") as [Es|Es], (opt_truthy (source "sops_file_path")) eqn:Ef;
    cbn in H; try done; injection H as <-; by split.
Qed.

Lemma build_loader_spec s :
  settings_ok s ->
  match build_secret_loader s with
  | Ok l => loader_of s l
  | Err e => e = ValueError "vault_addr and vault_token are required for vault backend." /\
             st_secret_backend s = "vault" /\ opt_truthy (st_vault_token s) = false
  end.
Proof.
  intros [_ _ Hb Hv Hs]. unfold build_secret_loader.
  destruct (String.eqb_spec (st_secret_backend s) "vault") as [E|E].
  - specialize (Hv E). destruct (st_vault_addr s) as [a|] eqn:Ea; [|done].
    destruct (st_vault_token s) as [t|] eqn:Et; [|done]. unfold opt_truthy in Hv. rewrite Hv. cbn.
    by destruct (str_truthy t) eqn:Etr.
  - destruct (String.eqb_spec (st_secret_backend s) "kms") as [E'|E']; [done|].
    destruct (String.eqb_spec (st_secret_backend s) "sops") as [E''|E'']; [by repeat split; auto|].
    cbn. unfold SECRET_BACKENDS in Hb. rewrite !elem_of_cons, elem_of_nil in Hb. naive_solver.
Qed.

(** C39: Settings that load are safe to use: the pool sizes are within their bounds,
    the secret backend is a known one and has what it needs, so the secret
    loader that is built is the one the backend names; the one thing that can
    still be missing is the token of a vault.  Values out of bounds, an unknown
    backend, an unreadable value and a missing database or Redis address are
    refused. *)
Theorem settings_checked (source : string -> option string) :
  (forall s, load source = Ok s ->
     settings_ok s /\ source "database_url" = Some (st_database_url s) /\ source "redis_url" = Some (st_redis_url s) /\
     match build_secret_loader s with
     | Ok l => loader_of s l
     | Err e => e = ValueError "vault_addr and vault_token are required for vault backend." /\
                st_secret_backend s = "vault" /\ opt_truthy (st_vault_token s) = false
     end) /\
  (source "database_url" = None \/ source "redis_url" = None \/
   (exists v, source "database_pool_size" = Some v /\
      forall z, int_of_str v = Some z -> ~ 1 <= z <= 100) \/
   (exists v, source "database_max_overflow" = Some v /\
      forall z, int_of_str v = Some z -> ~ 0 <= z <= 100) \/
   (exists v, source "secret_backend" = Some v /\ v ∉ SECRET_BACKENDS) ->
   exists e, load source = Err e).
Proof.
  split.
  - intros s H. pose proof (load_ok _ _ H) as Hok. split; [done|].
    pose proof (build_loader_spec s Hok) as Hl.
    unfold load_settings in H. destruct (json_field _ _ _); [cbn [res_bind] in H|done].
    destruct (json_field _ _ _); [cbn [res_bind] in H|done].
    repeat (case_match; [|done]). unfold vault_requires_addr in H. repeat case_match; try done; by injection H as <-.
  - intros Hbad. destruct (load source) as [s|e] eqn:H; [|by exists e]. exfalso.
    unfold load_settings in H. destruct (json_field _ _ _); [cbn [res_bind] in H|done].
    destruct (json_field _ _ _); [cbn [res_bind] in H|done].
    destruct Hbad as [E|[E|[(v & E & Hv)|[(v & E & Hv)|(v & E & Hv)]]]]; rewrite E in H; cbn [given] in H.
    + done.
    + repeat (case_match; [|done]); done.
    + destruct (int_of_str v) as [z|]; [|by repeat case_match].
      destruct (within 1 100 z) eqn:Ew; [|by repeat case_match]. apply within_spec in Ew as [_ ?]. by eapply Hv.
    + destruct (int_of_str v) as [z|]; [|by repeat case_match].
      destruct (within 0 100 z) eqn:Ew; [|by repeat case_match]. apply within_spec in Ew as [_ ?]. by eapply Hv.
    + destruct (valid_backend v) eqn:Eb; [|by repeat case_match]. by apply valid_backend_spec in Eb as [_ ?].
Qed.

End Checked.

(** ** Flattened files

    A key of a nested file is a path; its segments are what stands between the
    dots of a secret's name. *)

Definition segment (k : string) : bool := str_truthy k && negb (str_has "."%char k).

(** Keys are distinct, not empty and without dots, at every depth. *)
Fixpoint keys_ok (v : json) : Prop :=
  match v with
  | JDict d => dict_wf d /\ Forall (fun k => segment k = true) (dkeys d) /\
               (fix all (l : jdict) : Prop := match l with [] => True | p :: l' => keys_ok p.2 /\ all l' end) d
  | _ => True
  end.

(** The leaf at the end of a path. *)
Fixpoint leaf_at (path : list string) (v : json) : option json :=
  match path with
  | [] => match v with JDict _ => None | _ => Some v end
  | k :: path' => match v with
                  | JDict d => match dget k d with Some x => leaf_at path' x | None => None end
                  | _ => None
                  end
  end.

(** The key [_flatten] builds for a path below [key]. *)
Fixpoint put_path (key : string) (path : list string) : string :=
  match path with [] => key | k :: path' => put_path (sub_key key k) path' end.

Lemma segment_spec k : segment k = true <-> k <> EmptyString /\ str_has "."%char k = false.
Proof.
  unfold segment, str_truthy. rewrite andb_true_iff, !negb_true_iff. by rewrite String.eqb_neq.
Qed.

Lemma split_dotless k : str_has "."%char k = false -> split_on "."%char k = [k].
Proof.
  induction k as [|c k IH]; [done|]. cbn [str_has split_on].
  rewrite (Ascii.eqb_sym "."%char c). destruct (Ascii.eqb c "."%char); [done|]. cbn. intros H. by rewrite IH.
Qed.

Lemma split_snoc a k : str_has "."%char k = false ->
  split_on "."%char (a +:+ "." +:+ k) = split_on "."%char a ++ [k].
Proof.
  intros Hk. induction a as [|c a IH].
  - change (EmptyString :: split_on "."%char k = [EmptyString; k]). by rewrite split_dotless.
  - change (String c a +:+ "." +:+ k) with (String c (a +:+ "." +:+ k)). cbn [split_on]. rewrite IH. destruct (Ascii.eqb c "."%char); [done|].
    destruct (split_on "."%char a) eqn:E; [|done].
    by destruct a as [|c' a]; cbn in E; [|destruct (Ascii.eqb c' "."%char), (split_on "."%char a)].
Qed.

Lemma sub_key_ne key k : segment k = true -> sub_key key k <> EmptyString.
Proof.
  intros [Hk _]%segment_spec. unfold sub_key, str_truthy. destruct (String.eqb_spec key EmptyString); [done|].
  by destruct key.
Qed.

Lemma split_extend_ne key path : key <> EmptyString -> Forall (fun k => segment k = true) path ->
  split_on "."%char (put_path key path) = split_on "."%char key ++ path.
Proof.
  intros Hne Hp. revert key Hne. induction Hp as [|k path Hk _ IH]; intros key Hne; [by rewrite app_nil_r|].
  cbn [put_path]. rewrite IH by by apply sub_key_ne. apply segment_spec in Hk as [_ Hk].
  unfold sub_key, str_truthy. destruct (String.eqb_spec key EmptyString); [done|]. cbn [negb].
  rewrite split_snoc by done. by rewrite <- app_assoc.
Qed.

Lemma split_extend k path : Forall (fun k => segment k = true) (k :: path) ->
  split_on "."%char (put_path EmptyString (k :: path)) = k :: path.
Proof.
  intros [Hk Hp]%Forall_cons. cbn [put_path]. apply segment_spec in Hk as Hk'. destruct Hk' as [Hne Hd].
  change (sub_key EmptyString k) with k. by rewrite split_extend_ne, split_dotless.
Qed.

Lemma extend_inj key p q : Forall (fun k => segment k = true) p -> Forall (fun k => segment k = true) q ->
  put_path key p = put_path key q -> p = q.
Proof.
  intros Hp Hq E. destruct (decide (key = EmptyString)) as [->|Hne].
  - assert (forall k l, Forall (fun k => segment k = true) (k :: l) -> EmptyString <> put_path EmptyString (k :: l)) as Hno.
    { intros k l Hl E'. pose proof (split_extend k l Hl) as Hs. rewrite <- E' in Hs. cbn in Hs. injection Hs as <- _.
      apply Forall_cons in Hl as [Hl _]. done. }
    destruct p as [|k p], q as [|k' q]; [done|by destruct (Hno k' q Hq)|by destruct (Hno k p Hp)|].
    by rewrite <- (split_extend k p), <- (split_extend k' q), E.
  - apply (app_inv_head (split_on "."%char key)). by rewrite <- !split_extend_ne, E.
Qed.

(** The other way round: a name is what its own segments put_path to. *)
Fixpoint dots (path : list string) : string :=
  match path with [] => EmptyString | k :: path' => "." +:+ k +:+ dots path' end.

Lemma extend_dots key path : key <> EmptyString -> Forall (fun k => segment k = true) path ->
  put_path key path = key +:+ dots path.
Proof.
  intros Hne Hp. revert key Hne. induction Hp as [|k path Hk _ IH]; intros key Hne; [by rewrite str_app_nil|].
  cbn [put_path dots]. rewrite IH by by apply sub_key_ne. unfold sub_key, str_truthy.
  destruct (String.eqb_spec key EmptyString); [done|]. cbn [negb]. by rewrite !str_app_assoc.
Qed.

Lemma split_dots s k path : split_on "."%char s = k :: path -> s = k +:+ dots path.
Proof.
  revert k path. induction s as [|c s IH]; intros k path; cbn [split_on]; [by intros [= <- <-]|].
  destruct (split_on "."%char s) as [|k' path'] eqn:E.
  - by destruct s as [|c' s]; cbn in E; [|destruct (Ascii.eqb c' "."%char), (split_on "."%char s)].
  - destruct (Ascii.eqb_spec c "."%char) as [->|_]; intros [= <- <-]; rewrite (IH _ _ eq_refl); [done|].
    by rewrite str_app_cons.
Qed.

Lemma extend_split s : Forall (fun k => segment k = true) (split_on "."%char s) ->
  put_path EmptyString (split_on "."%char s) = s.
Proof.
  destruct (split_on "."%char s) as [|k path] eqn:E; intros H.
  - destruct s as [|c s]; [done|]. cbn in E. by destruct (Ascii.eqb c "."%char), (split_on "."%char s).
  - apply Forall_cons in H as [[Hk _]%segment_spec Hp]. cbn [put_path]. change (sub_key EmptyString k) with k.
    rewrite extend_dots by done. symmetry. by apply split_dots.
Qed.

(** *** What the flattened dictionary holds *)

Lemma dupdate_get {V} (d e : dict string V) k : dict_wf e ->
  dget k (dupdate d e) = match dget k e with Some v => Some v | None => dget k d end.
Proof.
  unfold dupdate. revert d. induction e as [|[k' v] e IH]; intros d Hwf; [done|].
  apply NoDup_cons in Hwf as [Hni Hwf]. cbn [fold_left fst snd]. rewrite IH by done. rewrite dget_dset. cbn [dget].
  destruct (decide (k = k')) as [->|Hne].
  - by apply (dget_None_keys k' e) in Hni as ->.
  - done.
Qed.

Lemma dupdate_wf {V} (d e : dict string V) : dict_wf d -> dict_wf (dupdate d e).
Proof. unfold dupdate. revert d. induction e as [|p e IH]; intros d H; [done|]. by apply IH, dict_wf_dset. Qed.

Section Flattened.
Context (json_dumps : json -> string) (float_str : Q -> string).
Abbreviation entry := (flatten_entry json_dumps float_str).

Lemma json_dict_ind (P : json -> Prop) :
  (forall d, Forall (fun p => P p.2) d -> P (JDict d)) -> (forall v, (forall d, v <> JDict d) -> P v) -> forall v, P v.
Proof.
  intros Hd Hl. fix IH 1. intros v. destruct v as [| | | | | |d]; try by apply Hl.
  apply Hd. induction d as [|[k x] d IHd]; [done|]. constructor; [apply IH | exact IHd].
Qed.

Lemma entry_wf v key : dict_wf (entry key v).
Proof.
  destruct v as [| | | | | |d]; try apply NoDup_singleton.
  cbn [flatten_entry]. generalize (dict_wf_nil (K := string) (V := string)). generalize ([] : dict string string).
  induction d as [|p d IH]; intros out H; [done|]. cbn [fold_left]. by apply IH, dupdate_wf.
Qed.

Lemma keys_ok_dict d : keys_ok (JDict d) <->
  dict_wf d /\ Forall (fun k => segment k = true) (dkeys d) /\ Forall (fun p => keys_ok p.2) d.
Proof.
  cbn [keys_ok]. assert (forall l : jdict, (fix all (l : jdict) : Prop :=
    match l with [] => True | p :: l' => keys_ok p.2 /\ all l' end) l <-> Forall (fun p => keys_ok p.2) l) as ->; [|done].
  induction l as [|p l IH]; [done|]. by rewrite Forall_cons, IH.
Qed.

(** In a fold of updates, the parts of which at most one has the name. *)
Lemma fold_update_get {X} (f : X -> dict string string) l out name :
  (forall x, dict_wf (f x)) ->
  (forall x y, x ∈ l -> y ∈ l -> dget name (f x) <> None -> dget name (f y) <> None -> x = y) ->
  forall t, dget name (fold_left (fun o x => dupdate o (f x)) l out) = Some t <->
    (exists x, x ∈ l /\ dget name (f x) = Some t) \/ ((forall x, x ∈ l -> dget name (f x) = None) /\ dget name out = Some t).
Proof.
  intros Hwf. revert out. induction l as [|x l IH]; intros out Hdis t; cbn [fold_left].
  - split; [intros H; right; split; [|done]; by intros x ?%elem_of_nil|]. intros [(x & ?%elem_of_nil & _)|[_ H]]; done.
  - rewrite IH by (intros; apply Hdis; [by right|by right|done|done]). rewrite dupdate_get by apply Hwf. split.
    + intros [(y & Hy & H)|[Hn H]]; [left; exists y; split; [by right|done]|].
      destruct (dget name (f x)) as [v|] eqn:E.
      * left. exists x. split; [by left|congruence].
      * right. split; [|done]. intros y [->|Hy]%elem_of_cons; [done|by apply Hn].
    + intros [(y & [->|Hy]%elem_of_cons & H)|[Hn H]].
      * destruct (decide (Exists (fun y => dget name (f y) <> None) l)) as [[y [Hy Hy']]%Exists_exists|Hno].
        { left. exists y. split; [done|]. replace y with x; [done|]. apply Hdis; [by left|by right|congruence|done]. }
        right. rewrite H. split; [|done]. intros y Hy. destruct (dget name (f y)) eqn:E; [|done].
        destruct Hno. apply Exists_exists. exists y. split; [done|congruence].
      * left. by exists y.
      * right. rewrite (Hn x) by by left. split; [|done]. intros y Hy. apply Hn. by right.
Qed.

Lemma entry_leaf key v : (forall d, v <> JDict d) -> entry key v = [(key, leaf_text json_dumps float_str v)].
Proof. destruct v; try done. intros H. by destruct (H d). Qed.

Lemma leaf_at_leaf path v : (forall d, v <> JDict d) -> leaf_at path v = match path with [] => Some v | _ => None end.
Proof. destruct v, path; try done; intros H; by destruct (H d). Qed.

(** The names below [key] are its extensions by the paths to the leaves. *)
Lemma entry_get v : keys_ok v -> forall key name t,
  dget name (entry key v) = Some t <->
  exists path l, Forall (fun k => segment k = true) path /\ name = put_path key path /\ leaf_at path v = Some l /\
    t = leaf_text json_dumps float_str l.
Proof.
  induction v as [d IH|v Hleaf] using json_dict_ind; intros Hok key name t.
  - apply keys_ok_dict in Hok as (Hwf & Hseg & Hall). rewrite Forall_forall in IH, Hall. rewrite Forall_forall in Hseg.
    assert (forall p, p ∈ d -> segment p.1 = true /\ dget p.1 d = Some p.2) as Hp.
    { intros [k x] Hin. split; [|by apply dget_in_Some]. apply Hseg. apply list_elem_of_fmap. by exists (k, x). }
    cbn [flatten_entry]. rewrite (fold_update_get (fun p => entry (sub_key key p.1) p.2)).
    + split.
      * intros [(p & Hin & H)|[_ H]]; [|done]. destruct (Hp p Hin) as [Hs Hg].
        apply (IH p Hin (Hall p Hin)) in H as (path & l & Hpath & -> & Hl & ->).
        exists (p.1 :: path), l. split; [by constructor|]. split; [done|]. split; [|done]. cbn [leaf_at]. by rewrite Hg.
      * intros (path & l & Hpath & -> & Hl & ->). left. destruct path as [|k path]; [done|]. cbn [leaf_at] in Hl.
        destruct (dget k d) as [x|] eqn:E; [|done]. apply dget_Some_in in E. exists (k, x). split; [done|].
        apply Forall_cons in Hpath as [_ Hpath]. apply (IH _ E (Hall _ E)). by exists path, l.
    + intros p. apply entry_wf.
    + intros p q Hin Hin' H H'. destruct (dget name (entry _ p.2)) as [u|] eqn:E; [|done].
      destruct (dget name (entry _ q.2)) as [u'|] eqn:E'; [|done].
      apply (IH p Hin (Hall p Hin)) in E as (path & l & Hpath & -> & _).
      apply (IH q Hin' (Hall q Hin')) in E' as (path' & l' & Hpath' & Heq & _).
      destruct (Hp p Hin) as [Hs Hg], (Hp q Hin') as [Hs' Hg'].
      assert (p.1 :: path = q.1 :: path') as [= Hk _] by by apply (extend_inj key); [constructor|constructor|].
      destruct p as [k x], q as [k' x']. cbn in *. subst. congruence.
  - rewrite entry_leaf by done. cbn [dget]. split.
    + destruct (decide (name = key)) as [->|]; [|done]. intros [= <-]. exists [], v. by rewrite leaf_at_leaf.
    + intros (path & l & _ & -> & Hl & ->). rewrite leaf_at_leaf in Hl by done. destruct path; [|done].
      injection Hl as <-. by rewrite decide_True.
Qed.

Lemma leaf_at_segments v path l : keys_ok v -> leaf_at path v = Some l -> Forall (fun k => segment k = true) path.
Proof.
  revert v. induction path as [|k path IH]; intros v Hok Hl; [done|]. destruct v as [| | | | | |d]; try done.
  apply keys_ok_dict in Hok as (_ & Hseg & Hall). cbn [leaf_at] in Hl.
  destruct (dget k d) as [x|] eqn:E; [|done]. apply dget_Some_in in E. rewrite Forall_forall in Hall.
  rewrite Forall_forall in Hseg.
  constructor; [|by apply (IH x); [apply (Hall _ E)|]]. apply Hseg. apply list_elem_of_fmap. by exists (k, x).
Qed.

(** A secret's name is the path to it. *)
Lemma flatten_get d name : keys_ok (JDict d) ->
  dget name (flatten json_dumps float_str d EmptyString) =
    option_map (leaf_text json_dumps float_str) (leaf_at (split_on "."%char name) (JDict d)).
Proof.
  intros Hok. pose proof (entry_get (JDict d) Hok EmptyString name) as Hiff. unfold flatten.
  destruct (leaf_at (split_on "."%char name) (JDict d)) as [l|] eqn:E.
  - apply Hiff. pose proof (leaf_at_segments _ _ _ Hok E) as Hs. exists (split_on "."%char name), l.
    by rewrite extend_split.
  - destruct (dget name _) as [t|]; [|done].
    destruct (proj1 (Hiff t) eq_refl) as (path & l & Hs & -> & Hl & _).
    destruct path as [|k path]; [done|]. rewrite split_extend in E by done. congruence.
Qed.

End Flattened.

(** ** Secrets *)

Section Secrets.
Context (json_dumps : json -> string) (float_str : Q -> string) {W : Type} (environ : dict string string).
Context (run_sops : string -> option string -> M W (Z * string * string)).
Context (yaml_load json_load : string -> res json).

Abbreviation get := (get_secret json_dumps float_str environ run_sops yaml_load json_load).
Abbreviation decrypt := (decrypt_file json_dumps float_str run_sops yaml_load json_load).

(** What the file says of a name. *)
Definition secret_at (d : jdict) (name : string) : res string :=
  or_raise (SecretNotFoundError name)
    (option_map (leaf_text json_dumps float_str) (leaf_at (split_on "."%char name) (JDict d))).

Lemma cached_lookup d name : keys_ok (JDict d) ->
  lookup_cache name (flatten json_dumps float_str d EmptyString) = secret_at d name.
Proof. intros Hok. unfold lookup_cache, secret_at. by rewrite flatten_get. Qed.

(** The SOPS loader serves the decrypted file.  A secret is the text of the leaf
    its dotted name leads to, and an unknown name is [SecretNotFoundError]; the
    file is decrypted by the first call, and no call after it runs anything.
    When decryption fails in any way the call raises and nothing is cached, so
    the next call tries again. *)
Lemma sops_serves_file (path : string) (key : option string) (name : string)
    (s : sys (option (dict string string)) W) :
  sys_store s = None ->
  (forall w' stdout stderr d,
     run_sops path (if opt_truthy key then key else None) (sys_world s) = (w', Ok (0, stdout, stderr)) ->
     parse_decrypted yaml_load json_load path stdout = Ok (JDict d) -> keys_ok (JDict d) ->
     exists s', get (SopsSecretLoader (Some path) key) name s = (s', secret_at d name) /\ sys_world s' = w' /\
       forall name', get (SopsSecretLoader (Some path) key) name' s' = (s', secret_at d name')) /\
  (forall w' e, decrypt (Some path) key (sys_world s) = (w', Err e) ->
     get (SopsSecretLoader (Some path) key) name s = (set_world w' s, Err e)) /\
  (forall w' code stdout stderr,
     run_sops path (if opt_truthy key then key else None) (sys_world s) = (w', Ok (code, stdout, stderr)) ->
     (code <> 0 \/ forall d, parse_decrypted yaml_load json_load path stdout <> Ok (JDict d)) ->
     exists e, decrypt (Some path) key (sys_world s) = (w', Err e)).
Proof.
  destruct s as [cache w ti u]. cbn [sys_store sys_world]. intros ->. split; [|split].
  - intros w' out err d Hrun Hparse Hok.
    exists (mk_sys (Some (flatten json_dumps float_str d EmptyString)) w' ti u).
    unfold get_secret, on_store, on_world, decrypt_file, zoom, bind, gets, lift_res, ret, modify.
    cbn -[flatten lookup_cache]. rewrite Hrun. cbn -[flatten lookup_cache]. rewrite Hparse.
    cbn -[flatten lookup_cache]. rewrite (cached_lookup d name Hok). split; [done|]. split; [done|].
    intros name'. by rewrite (cached_lookup d name' Hok).
  - intros w' e H. unfold get_secret, on_store, on_world, zoom, bind, gets. cbn -[decrypt_file]. by rewrite H.
  - intros w' code out err Hrun Hbad. unfold decrypt_file, bind. rewrite Hrun.
    destruct (Z.eqb_spec code 0) as [->|Hc]; cbn [negb]; [|by eexists].
    destruct Hbad as [?|Hbad]; [done|]. unfold lift_res.
    destruct (parse_decrypted _ _ path out) as [j|e]; [|by eexists].
    destruct j; try by eexists. by destruct (Hbad d).
Qed.

End Secrets.

(** A workflow whose flag nobody set, or set to false, is off. *)
Lemma flags_default_off s key :
  is_enabled (from_settings s) key = true <-> dget key (st_feature_flags s) = Some true.
Proof. unfold is_enabled, from_settings, or_default. cbn. destruct (dget key _) as [[]|]; naive_solver. Qed.

(** ** Concrete settings *)

Definition ex_bool (j : json) : option bool :=
  match j with JBool b => Some b | JStr "true" => Some true | JStr "false" => Some false | _ => None end.

Definition ex_json (s : string) : option json := if String.eqb s "flags" then Some (JDict [("intake", JBool true)]) else None.

Definition ex_source (over : dict string string) (name : string) : option string :=
  dget name (over ++ [("database_url", "postgresql+asyncpg://db"); ("redis_url", "redis://r"); ("secret_backend", "sops");
                      ("sops_file_path", "/etc/s.yaml"); ("database_pool_size", "50"); ("feature_flags", "flags")]).

Definition ex_settings : Settings :=
  mk_Settings "postgresql+asyncpg://db" 50 20 "redis://r" "sops" None None (Some "/etc/s.yaml") None "CAM_ENCRYPTION_KEK"
    None "INFO" "case-automation-mcp" "us-east-1" None [("intake", true)] true false [].

Lemma settings_checked_witness :
  load_settings py_int ex_bool ex_json (ex_source []) = Ok ex_settings /\ settings_ok ex_settings /\
  exists e, load_settings py_int ex_bool ex_json (ex_source [("database_pool_size", "101")]) = Err e.
Proof.
  assert (load_settings py_int ex_bool ex_json (ex_source []) = Ok ex_settings) as H by (vm_compute; reflexivity).
  split; [exact H|]. split.
  - exact (proj1 (proj1 (settings_checked py_int ex_bool ex_json (ex_source [])) ex_settings H)).
  - apply (proj2 (settings_checked py_int ex_bool ex_json (ex_source [("database_pool_size", "101")]))).
    right. right. left. exists "101". split; [reflexivity|]. intros z Hz.
    assert (z = 101) as -> by (vm_compute in Hz; congruence). lia.
Defined.

(** A vault without its token passes validation; building the loader fails. *)
Example vault_without_token :
  match load_settings py_int ex_bool ex_json (ex_source [("secret_backend", "vault"); ("vault_addr", "https://v")]) with
  | Ok s => build_secret_loader s = Err (ValueError "vault_addr and vault_token are required for vault backend.")
  | Err _ => False
  end.
Proof. vm_compute. reflexivity. Qed.

(** The check that no secret shows in the representation of the settings is
    satisfied by the stars of any other secret. *)
Example clean_check_vacuous :
  error_message_is_clean (fun s => "redis_url=SecretStr('**********') database_url=" +:+ st_database_url s) ex_settings = true.
Proof. vm_compute. reflexivity. Qed.

Definition ex_sops (path : string) (key : option string) : M nat (Z * string * string) :=
  fun n => (S n, Ok (0, "yaml", EmptyString)).

Definition ex_file : jdict :=
  [("db", JDict [("password", JStr "p"); ("ro", JDict [("password", JStr "q")])]); ("tls", JBool true); ("none", JNull)].

Definition ex_get (file : jdict) (name : string) : SM (W := nat) string :=
  get_secret (fun _ => EmptyString) (fun _ => EmptyString) [] ex_sops (fun _ => Ok (JDict file)) (fun _ => Err AssertionError)
    (SopsSecretLoader (Some "/etc/s.yaml") None) name.

Definition ex_loader : sys (option (dict string string)) nat := mk_sys None 0%nat 0%nat 0%nat.

Lemma ex_file_ok : keys_ok (JDict ex_file).
Proof.
  assert (forall l : list string, bool_decide (NoDup l) = true -> NoDup l) as Hnd by (intros l; apply bool_decide_eq_true_1).
  unfold ex_file.
  repeat match goal with
    | |- keys_ok (JDict _) => apply keys_ok_dict; split; [apply Hnd; vm_compute; reflexivity|]; split; [by repeat constructor|]
    | |- Forall _ [] => constructor
    | |- Forall _ (_ :: _) => constructor; cbn [snd]
    | |- keys_ok _ => exact I
    end.
Qed.

Lemma sops_serves_file_witness :
  exists s', ex_get ex_file "db.ro.password" ex_loader = (s', Ok "q") /\ sys_world s' = 1%nat /\
    forall name', ex_get ex_file name' s' = (s', secret_at (fun _ => EmptyString) (fun _ => EmptyString) ex_file name').
Proof.
  apply (proj1 (sops_serves_file (fun _ => EmptyString) (fun _ => EmptyString) [] ex_sops (fun _ => Ok (JDict ex_file))
    (fun _ => Err AssertionError) "/etc/s.yaml" None "db.ro.password" ex_loader eq_refl) 1%nat "yaml" EmptyString ex_file).
  - reflexivity.
  - reflexivity.
  - exact ex_file_ok.
Defined.

(** Keys with dots, and empty ones, break the correspondence: a key may shadow a
    path, and the level of an empty key disappears. *)
Example dotted_key_shadows :
  snd (ex_get [("db", JDict [("password", JStr "p")]); ("db.password", JStr "other")] "db.password" ex_loader) = Ok "other".
Proof. vm_compute. reflexivity. Qed.

Example empty_key_lost : snd (ex_get [("", JDict [("token", JStr "t")])] "token" ex_loader) = Ok "t".
Proof. vm_compute. reflexivity. Qed.
