(* ===== verification/Crypto.v ===== *)
(** * Crypto: envelope encryption and the agent's identity

    security/crypto.py: [CryptoService] (a key-encryption key, a data-encryption
    key made on first use), its operations, the module's singleton and the
    encrypted column type; security/identity.py.  AES-GCM is the class [Aead]
    with the documented laws of the library; [os.urandom] is a supply.  The data
    key in force after any sequence of operations is the last one loaded, or the
    first; while it is the one a token was sealed under the token stays readable,
    key rotations included, and across a restart with the wrapped key; everything
    [decrypt] accepts was sealed under the current data key. *)

From Stdlib Require Import ZArith Lia Ascii String List.
From stdpp Require Import base list strings.
From S2P Require Import Prelude PyTime Effects PyText Base64 Utf8 Rbac.

Open Scope string_scope.
Open Scope list_scope.
Open Scope Z_scope.
Open Scope cam_scope.

(** ** The library: [AESGCM(key).encrypt] and [.decrypt] without associated data

    [seal] and [open] may raise; the laws speak of keys of 256 bits and nonces
    of 96, and of data below the library's limit of 2^31 - 1 bytes. *)

Class Aead := {
  seal : string -> string -> string -> res string;
  unseal : string -> string -> string -> res string }.

Definition _NONCE_SIZE : nat := 12.
Definition _KEY_SIZE : nat := 32.

Definition data_limit : nat -> Prop := fun n => Z.of_nat n < 2 ^ 31.

Class AeadLaws `{Aead} := {
  seal_defined key nonce data :
    String.length key = _KEY_SIZE -> String.length nonce = _NONCE_SIZE ->
    data_limit (String.length data) ->
    exists ct, seal key nonce data = Ok ct;
  unseal_seal key nonce data ct :
    seal key nonce data = Ok ct -> unseal key nonce ct = Ok data;
  unseal_authentic key nonce ct data :
    unseal key nonce ct = Ok data -> seal key nonce data = Ok ct }.

(** ** The service *)

Record CryptoService := mk_CryptoService { cs_kek : string; cs_dek : option string }.

Definition DecryptionError (msg : string) : exn := OtherError "DecryptionError" msg.
Definition binascii_Error : exn := OtherError "Error" "Invalid base64-encoded string".

(** [raw[:n]] and [raw[n:]] of a byte string. *)
Definition head_bytes (n : nat) (s : string) : string := String.substring 0 n s.
Definition tail_bytes (n : nat) (s : string) : string :=
  String.substring n (String.length s - n) s.

Definition new_service (kek : string) : res CryptoService :=
  if Nat.eqb (String.length kek) _KEY_SIZE then Ok (mk_CryptoService kek None)
  else Err (ValueError "KEK must be exactly 32 bytes").

Section Service.
Context `{Aead} (urandom : nat -> nat -> string).

(** The object and the number of times [os.urandom] was read. *)
Record CState := mk_CState { c_svc : CryptoService; c_draws : nat }.

Definition set_dek (d : string) (s : CState) : CState :=
  mk_CState (mk_CryptoService (cs_kek (c_svc s)) (Some d)) (c_draws s).

Definition set_kek (k : string) (s : CState) : CState :=
  mk_CState (mk_CryptoService k (cs_dek (c_svc s))) (c_draws s).

Definition draw (size : nat) : M CState string := fun s =>
  (mk_CState (c_svc s) (S (c_draws s)), Ok (urandom size (c_draws s))).

Definition get_dek : M CState string :=
  let! d := gets (fun s => cs_dek (c_svc s)) in
  match d with
  | Some d => ret d
  | None => let! d := draw _KEY_SIZE in modify (set_dek d) ;; ret d
  end.

Definition wrap_dek : M CState string :=
  let! dek := get_dek in
  let! nonce := draw _NONCE_SIZE in
  let! kek := gets (fun s => cs_kek (c_svc s)) in
  let! ciphertext := lift_res (seal kek nonce dek) in
  ret (b64encode (nonce +:+ ciphertext)).

Definition load_wrapped_dek (wrapped : string) : M CState unit :=
  let! raw := lift_res (or_raise binascii_Error (b64decode wrapped)) in
  let! kek := gets (fun s => cs_kek (c_svc s)) in
  match unseal kek (head_bytes _NONCE_SIZE raw) (tail_bytes _NONCE_SIZE raw) with
  | Ok d => modify (set_dek d)
  | Err _ => raise (DecryptionError "Failed to unwrap DEK - wrong KEK or tampered blob.")
  end.

Definition rotate_kek (new_kek : string) : M CState string :=
  if Nat.eqb (String.length new_kek) _KEY_SIZE then
    let! _ := get_dek in
    let! old_kek := gets (fun s => cs_kek (c_svc s)) in
    modify (set_kek new_kek) ;;
    try_except wrap_dek (fun e => modify (set_kek old_kek) ;; raise e)
  else raise (ValueError "New KEK must be 32 bytes.").

Definition encrypt (plaintext : string) : M CState string :=
  let! dek := get_dek in
  let! nonce := draw _NONCE_SIZE in
  let! ct := lift_res (seal dek nonce plaintext) in
  ret (b64encode (nonce +:+ ct)).

Definition decrypt (token : string) : M CState string :=
  try_except
    (let! raw := lift_res (or_raise binascii_Error (b64decode token)) in
     let! dek := get_dek in
     lift_res (unseal dek (head_bytes _NONCE_SIZE raw) (tail_bytes _NONCE_SIZE raw)))
    (fun _ => raise (DecryptionError "Decryption failed - wrong key or tampered ciphertext.")).

(** ** The module's singleton *)

Record CryptoModule := mk_CryptoModule { cm_service : option CryptoService; cm_draws : nat }.

Definition with_service (svc : CryptoService) {A} (m : M CState A) : M CryptoModule A := fun s =>
  let '(s', r) := m (mk_CState svc (cm_draws s)) in
  (mk_CryptoModule (Some (c_svc s')) (c_draws s'), r).

(** A new service replaces the old one only when everything succeeded. *)
Definition configure_crypto (kek : string) (wrapped_dek : option string) : M CryptoModule unit := fun s =>
  match new_service kek with
  | Err e => (s, Err e)
  | Ok svc =>
      match wrapped_dek with
      | Some w =>
          if str_truthy w then
            match load_wrapped_dek w (mk_CState svc (cm_draws s)) with
            | (s', Ok tt) => (mk_CryptoModule (Some (c_svc s')) (c_draws s'), Ok tt)
            | (s', Err e) => (mk_CryptoModule (cm_service s) (c_draws s'), Err e)
            end
          else (mk_CryptoModule (Some svc) (cm_draws s), Ok tt)
      | None => (mk_CryptoModule (Some svc) (cm_draws s), Ok tt)
      end
  end.

Definition get_crypto_service : M CryptoModule CryptoService :=
  let! o := gets cm_service in
  lift_res (or_raise (RuntimeError "CryptoService is not initialised.") o).

Definition module_encrypt (plaintext : string) : M CryptoModule string :=
  let! svc := get_crypto_service in with_service svc (encrypt plaintext).

Definition module_decrypt (token : string) : M CryptoModule string :=
  let! svc := get_crypto_service in with_service svc (decrypt token).

(** ** [EncryptedStr], with strings as their UTF-8 bytes *)

Definition decode_utf8 (s : string) : res string :=
  if is_text s then Ok s else Err (OtherError "UnicodeDecodeError" "invalid utf-8").

Definition process_bind_param (value : option string) : M CryptoModule (option string) :=
  match value with
  | None => ret None
  | Some v =>
      let! t := module_encrypt v in
      let! t := lift_res (decode_utf8 t) in
      ret (Some t)
  end.

Definition process_result_value (value : option string) : M CryptoModule (option string) :=
  match value with
  | None => ret None
  | Some v =>
      let! p := module_decrypt v in
      let! p := lift_res (decode_utf8 p) in
      ret (Some p)
  end.

End Service.

(** ** identity.py *)

Definition AGENT_SERVICE_PRINCIPAL : Principal := mk_Principal "agent_service" [AGENT_SERVICE].

Definition AGENT_GRANTS : list Permission :=
  [MATTER_READ; CONTACT_READ; DOCUMENT_READ; DEADLINE_READ; EMAIL_DRAFT; WORKFLOW_RUN;
   WORKFLOW_STATUS].

Definition agent_can (p : Permission) : bool := authorize AGENT_SERVICE_PRINCIPAL p None None.

(** The documented grants are those of the matrix. *)
Lemma agent_can_spec p : agent_can p = bool_decide (p ∈ AGENT_GRANTS).
Proof. by destruct p. Qed.

(** ** Byte strings *)

Lemma substring_all s n : (String.length s <= n)%nat -> String.substring 0 n s = s.
Proof.
  revert n. induction s as [|c s IH]; intros [|n] Hn; simpl in *; try done; [lia|].
  by rewrite IH by lia.
Qed.

Lemma head_app n a b : String.length a = n -> head_bytes n (a +:+ b) = a.
Proof.
  unfold head_bytes. revert n. induction a as [|c a IH]; intros n <-; simpl; [by destruct b|].
  by rewrite IH.
Qed.

Lemma tail_app n a b : String.length a = n -> tail_bytes n (a +:+ b) = b.
Proof.
  unfold tail_bytes. intros <-. rewrite str_len_app, Nat.add_sub_swap, Nat.sub_diag by lia. simpl.
  induction a as [|c a IH]; simpl; [|done]. by apply substring_all.
Qed.

Lemma head_tail n s : head_bytes n s +:+ tail_bytes n s = s.
Proof.
  unfold head_bytes, tail_bytes. revert n. induction s as [|c s IH]; intros n; [by destruct n|].
  destruct n as [|n]; simpl; [by rewrite substring_all|].
  change (String c (String.substring 0 n s +:+ String.substring n (String.length s - n) s) = String c s).
  by rewrite IH.
Qed.

(** ** Sequences of operations *)

Inductive CryptoOp :=
| OpEncrypt (plaintext : string)
| OpDecrypt (token : string)
| OpWrap
| OpRotate (new_kek : string)
| OpLoad (wrapped : string).

Section Proofs.
Context `{AL : AeadLaws} (urandom : nat -> nat -> string).
Hypothesis urandom_size : forall size i, String.length (urandom size i) = size.

Definition run_crypto_op (op : CryptoOp) : M CState unit :=
  match op with
  | OpEncrypt p => encrypt urandom p ;; ret tt
  | OpDecrypt t => decrypt urandom t ;; ret tt
  | OpWrap => wrap_dek urandom ;; ret tt
  | OpRotate k => rotate_kek urandom k ;; ret tt
  | OpLoad w => load_wrapped_dek w
  end.

(** A client calls on after an exception. *)
Definition run_crypto (ops : list CryptoOp) : M CState unit :=
  for_each ops (fun op => try_pass (run_crypto_op op)).

(** The data keys a sequence of operations loads: those of the calls of
    [load_wrapped_dek] that return, in order. *)
Fixpoint loaded (ops : list CryptoOp) (s : CState) : list string :=
  match ops with
  | [] => []
  | op :: ops' =>
      let s' := fst (run_crypto_op op s) in
      match op, snd (run_crypto_op op s), cs_dek (c_svc s') with
      | OpLoad _, Ok _, Some d => d :: loaded ops' s'
      | _, _, _ => loaded ops' s'
      end
  end.

(** The key-encryption keys of the rotations that return, in order. *)
Fixpoint rotated (ops : list CryptoOp) (s : CState) : list string :=
  match ops with
  | [] => []
  | op :: ops' =>
      let s' := fst (run_crypto_op op s) in
      match op, snd (run_crypto_op op s) with
      | OpRotate k, Ok _ => k :: rotated ops' s'
      | _, _ => rotated ops' s'
      end
  end.

Definition service_ok (svc : CryptoService) : Prop :=
  String.length (cs_kek svc) = _KEY_SIZE /\
  forall d, cs_dek svc = Some d -> String.length d = _KEY_SIZE.

(** The data key in force is [d], whatever its length. *)
Definition holds (d : string) (s : CState) : Prop :=
  cs_dek (c_svc s) = Some d /\ String.length (cs_kek (c_svc s)) = _KEY_SIZE.

(** The service holds the data key [d]. *)
Definition keyed (d : string) (s : CState) : Prop :=
  cs_dek (c_svc s) = Some d /\ service_ok (c_svc s).

Lemma keyed_holds d s : keyed d s <-> holds d s /\ String.length d = _KEY_SIZE.
Proof.
  unfold keyed, holds, service_ok. split.
  - intros (Hd & Hk & Hl). auto.
  - intros ((Hd & Hk) & Hl). repeat split; [done..|]. rewrite Hd. by intros ? [= <-].
Qed.

Lemma get_dek_holds d s : holds d s -> get_dek urandom s = (s, Ok d).
Proof. intros [Hd _]. unfold get_dek, bind, gets. by rewrite Hd. Qed.

Lemma get_dek_keyed d s : keyed d s -> get_dek urandom s = (s, Ok d).
Proof. intros [Hs _]%keyed_holds. by apply get_dek_holds. Qed.

Lemma get_dek_ok s :
  service_ok (c_svc s) ->
  exists d s', get_dek urandom s = (s', Ok d) /\ keyed d s' /\ cs_kek (c_svc s') = cs_kek (c_svc s).
Proof.
  intros [Hk Hd]. unfold get_dek, bind, gets. destruct (cs_dek (c_svc s)) as [d|] eqn:E.
  - exists d, s. repeat split; auto. by rewrite E; intros ? [= <-]; auto.
  - eexists _, _. split; [done|]. repeat split; [done|]. simpl. by intros ? [= <-].
Qed.

Lemma wrap_keyed d s :
  keyed d s ->
  exists s' nonce ct, wrap_dek urandom s = (s', Ok (b64encode (nonce +:+ ct))) /\
    c_svc s' = c_svc s /\ String.length nonce = _NONCE_SIZE /\ seal (cs_kek (c_svc s)) nonce d = Ok ct.
Proof.
  intros Hs. unfold wrap_dek. rewrite (bind_ok_eq _ _ _ _ _ (get_dek_keyed d s Hs)).
  destruct Hs as [Hd [Hk Hl]]. unfold bind, draw, gets, lift_res, ret. simpl.
  destruct (seal_defined (cs_kek (c_svc s)) (urandom _NONCE_SIZE (c_draws s)) d) as [ct Hct].
  - done.
  - apply urandom_size.
  - rewrite (Hl d Hd). done.
  - rewrite Hct. eexists _, _, ct. repeat split; [by rewrite urandom_size|done].
Qed.

Lemma encrypt_keyed d s p :
  keyed d s -> data_limit (String.length p) ->
  exists s' nonce ct, encrypt urandom p s = (s', Ok (b64encode (nonce +:+ ct))) /\
    c_svc s' = c_svc s /\ String.length nonce = _NONCE_SIZE /\ seal d nonce p = Ok ct.
Proof.
  intros Hs Hp. unfold encrypt. rewrite (bind_ok_eq _ _ _ _ _ (get_dek_keyed d s Hs)).
  destruct Hs as [Hd [Hk Hl]]. unfold bind, draw, lift_res, ret. simpl.
  destruct (seal_defined d (urandom _NONCE_SIZE (c_draws s)) p) as [ct Hct];
    [by apply Hl | apply urandom_size | done|].
  rewrite Hct. eexists _, _, ct. repeat split; [by rewrite urandom_size|done].
Qed.

Lemma decrypt_keyed d s p nonce ct :
  keyed d s -> String.length nonce = _NONCE_SIZE -> seal d nonce p = Ok ct ->
  decrypt urandom (b64encode (nonce +:+ ct)) s = (s, Ok p).
Proof.
  intros Hs Hn Hct. unfold decrypt, try_except, bind, lift_res. rewrite b64decode_encode. simpl.
  rewrite (get_dek_keyed d s Hs), head_app, tail_app by done. by rewrite (unseal_seal _ _ _ _ Hct).
Qed.

(** ** What was encrypted stays readable *)

Lemma holds_step d s s' : holds d s -> c_svc s' = c_svc s -> holds d s'.
Proof. unfold holds. by intros Hs ->. Qed.

Lemma decrypt_frame d t s : holds d s -> c_svc (fst (decrypt urandom t s)) = c_svc s.
Proof.
  intros Hs. unfold decrypt, try_except, bind, lift_res.
  destruct (b64decode t) as [raw|]; [|done]. simpl. rewrite (get_dek_holds d s Hs).
  by destruct (unseal _ _ _).
Qed.

Lemma encrypt_frame d p s : holds d s -> c_svc (fst (encrypt urandom p s)) = c_svc s.
Proof.
  intros Hs. unfold encrypt. rewrite (bind_ok_eq _ _ _ _ _ (get_dek_holds d s Hs)).
  unfold bind, draw, lift_res. by destruct (seal d _ p).
Qed.

Lemma wrap_frame d s : holds d s -> c_svc (fst (wrap_dek urandom s)) = c_svc s.
Proof.
  intros Hs. unfold wrap_dek. rewrite (bind_ok_eq _ _ _ _ _ (get_dek_holds d s Hs)).
  unfold bind, draw, gets, lift_res. cbn. by destruct (seal _ _ d).
Qed.

(** A rotation that fails restores the key-encryption key. *)
Lemma rotate_holds d k s : holds d s -> holds d (fst (rotate_kek urandom k s)).
Proof.
  intros Hs. unfold rotate_kek. destruct (Nat.eqb_spec (String.length k) _KEY_SIZE) as [Hk|Hk]; [|done].
  rewrite (bind_ok_eq _ _ _ _ _ (get_dek_holds d s Hs)).
  assert (holds d (set_kek k s)) as Hs1 by (by destruct Hs).
  pose proof (wrap_frame d _ Hs1) as Hw.
  unfold bind, gets, modify, try_except. destruct (wrap_dek urandom (set_kek k s)) as [s2 [w|e]]; cbn in Hw |- *.
  - by apply (holds_step d (set_kek k s)).
  - destruct Hs as [Hd Hl]. unfold set_kek, holds. cbn. by rewrite Hw.
Qed.

(** Only a rotation that returns changes the key-encryption key. *)
Lemma rotate_kek_of d k s s' r : holds d s -> rotate_kek urandom k s = (s', r) ->
  cs_kek (c_svc s') = match r with Ok _ => k | Err _ => cs_kek (c_svc s) end.
Proof.
  intros Hs. unfold rotate_kek. destruct (Nat.eqb_spec (String.length k) _KEY_SIZE) as [Hk|Hk]; [|by intros [= <- <-]].
  rewrite (bind_ok_eq _ _ _ _ _ (get_dek_holds d s Hs)).
  assert (holds d (set_kek k s)) as Hs1 by (by destruct Hs).
  pose proof (wrap_frame d _ Hs1) as Hw.
  unfold bind, gets, modify, try_except. destruct (wrap_dek urandom (set_kek k s)) as [s2 [w|e]]; cbn in Hw |- *;
    intros [= <- <-]; [by rewrite Hw|done].
Qed.

Lemma load_kek_of w s : cs_kek (c_svc (fst (load_wrapped_dek w s))) = cs_kek (c_svc s).
Proof.
  unfold load_wrapped_dek, bind, gets, lift_res. destruct (or_raise _ _); [|done]. by destruct (unseal _ _ _).
Qed.

Lemma load_holds d w s s' r :
  holds d s -> load_wrapped_dek w s = (s', r) ->
  match r with Ok _ => exists d', holds d' s' | Err _ => s' = s end.
Proof.
  intros [Hd Hk]. unfold load_wrapped_dek, bind, gets, lift_res.
  destruct (or_raise _ _) as [raw|e]; [|by intros [= <- <-]].
  destruct (unseal _ _ _) as [d'|e]; intros [= <- <-]; [|done]. by exists d'.
Qed.

Lemma fst_seq {S A} (m : M S A) s : fst ((m ;; ret tt) s) = fst (m s).
Proof. unfold bind. by destruct (m s) as [? []]. Qed.

Lemma run_crypto_cons op ops s :
  fst (run_crypto (op :: ops) s) = fst (run_crypto ops (fst (run_crypto_op op s))).
Proof.
  unfold run_crypto at 1. cbn [for_each]. unfold bind, try_pass. by destruct (run_crypto_op op s).
Qed.

(** The operations that are neither loads nor rotations leave the service alone. *)
Lemma crypto_op_frame d op s :
  holds d s -> match op with OpLoad _ | OpRotate _ => False | _ => True end ->
  c_svc (fst (run_crypto_op op s)) = c_svc s.
Proof.
  destruct op as [p|t| |k|w]; intros Hs H'; cbn [run_crypto_op]; try done; rewrite fst_seq.
  - by eapply encrypt_frame.
  - by eapply decrypt_frame.
  - by eapply wrap_frame.
Qed.

Lemma last_default {A} (l : list A) d d' : l <> [] -> List.last l d = List.last l d'.
Proof. induction l as [|x [|y l] IH]; cbn; intros Hl; [done|done|]. by apply IH. Qed.

Lemma last_cons_default {A} (x : A) l d : List.last (x :: l) d = List.last l x.
Proof. destruct l as [|y l]; [done|]. by apply (last_default (y :: l)). Qed.

(** What holds of a state one operation further. *)
Lemma crypto_op_holds d op s :
  holds d s ->
  let s' := fst (run_crypto_op op s) in
  (exists d', holds d' s' /\ forall ops, List.last (loaded (op :: ops) s) d = List.last (loaded ops s') d') /\
  forall ops, List.last (rotated (op :: ops) s) (cs_kek (c_svc s)) = List.last (rotated ops s') (cs_kek (c_svc s')).
Proof.
  intros Hs s'. subst s'.
  assert (c_svc (fst (run_crypto_op op s)) = c_svc s -> holds d (fst (run_crypto_op op s)) /\
    cs_kek (c_svc (fst (run_crypto_op op s))) = cs_kek (c_svc s)) as Hsame.
  { intros E. split; [by eapply holds_step|by rewrite E]. }
  pose proof (crypto_op_frame d op s Hs) as Hf.
  destruct op as [p|t| |k|w];
    try (destruct (Hsame (Hf I)) as [Hs' Hk']; split;
      [exists d; by split | intros ops; cbn [rotated]; by rewrite Hk']).
  all: clear Hsame Hf.
  - cbn [run_crypto_op loaded rotated]. rewrite fst_seq. split; [exists d; split; [by apply rotate_holds|done]|].
    intros ops. destruct (rotate_kek urandom k s) as [s' [w|e]] eqn:E;
      pose proof (rotate_kek_of d k s s' _ Hs E) as Hk; unfold bind; rewrite E; cbn [fst snd ret]; rewrite Hk;
      [apply last_cons_default|done].
  - cbn [run_crypto_op loaded rotated]. pose proof (load_kek_of w s) as Hk.
    destruct (load_wrapped_dek w s) as [s' r] eqn:E. cbn [fst snd] in *. rewrite Hk.
    pose proof (load_holds d w s s' r Hs E) as Hl. split; [|by destruct r].
    destruct r as [u|e]; [|subst; by exists d].
    destruct Hl as [d' Hs']. exists d'. split; [done|]. intros ops. pose proof Hs' as [Hd' _]. rewrite Hd'.
    apply last_cons_default.
Qed.

Lemma ops_holds d ops s :
  holds d s ->
  holds (List.last (loaded ops s) d) (fst (run_crypto ops s)) /\
  cs_kek (c_svc (fst (run_crypto ops s))) = List.last (rotated ops s) (cs_kek (c_svc s)).
Proof.
  revert d s. induction ops as [|op ops IH]; intros d s Hs; [done|].
  rewrite run_crypto_cons. destruct (crypto_op_holds d op s Hs) as [(d' & Hs' & Hl) Hr]. rewrite Hl, Hr. by apply IH.
Qed.

(** A service started from the wrapped key has the data key it wraps. *)
Lemma restart_keyed d kek nonce ct n :
  String.length kek = _KEY_SIZE -> String.length d = _KEY_SIZE -> String.length nonce = _NONCE_SIZE ->
  seal kek nonce d = Ok ct ->
  configure_crypto kek (Some (b64encode (nonce +:+ ct))) (mk_CryptoModule None n)
    = (mk_CryptoModule (Some (mk_CryptoService kek (Some d))) n, Ok tt).
Proof.
  intros Hk Hd Hn Hct. unfold configure_crypto, new_service. rewrite Hk. simpl.
  assert (str_truthy (b64encode (nonce +:+ ct)) = true) as ->.
  { unfold str_truthy. destruct (String.eqb_spec (b64encode (nonce +:+ ct)) EmptyString) as [E|]; [|done].
    pose proof (b64decode_encode (nonce +:+ ct)) as H1. rewrite E in H1. cbv in H1.
    injection H1 as H1. destruct nonce; [done|discriminate H1]. }
  unfold load_wrapped_dek, bind, lift_res. rewrite b64decode_encode. simpl.
  rewrite head_app, tail_app by done. by rewrite (unseal_seal _ _ _ _ Hct).
Qed.

(** C28: What was encrypted stays readable under its data key.  [encrypt] on a
    plaintext below the cipher's limit of 2^31 bytes returns a token, and the
    service then holds some data key [d].  After any sequence of encryptions,
    decryptions, wrappings, key rotations and loads of wrapped keys, failed ones
    included, the data key in force is the one the last load that returned gave,
    or [d] if none did, and the key-encryption key the one of the last rotation
    that returned, or the first: failures change neither.  When the data key is [d],
    the token decrypts to its plaintext, and the key [wrap_dek] gives then lets a
    service started with the key-encryption key of that moment decrypt it, so the
    wrapped key carries the data across restarts and rotations. *)
Theorem envelope_survives (p : string) (s : CState) :
  service_ok (c_svc s) -> data_limit (String.length p) ->
  exists t s1 d, encrypt urandom p s = (s1, Ok t) /\ cs_dek (c_svc s1) = Some d /\
    forall ops, let s2 := fst (run_crypto ops s1) in
    cs_dek (c_svc s2) = Some (List.last (loaded ops s1) d) /\
    cs_kek (c_svc s2) = List.last (rotated ops s1) (cs_kek (c_svc s)) /\
    (List.last (loaded ops s1) d = d ->
     snd (decrypt urandom t s2) = Ok p /\
     exists w s3, wrap_dek urandom s2 = (s3, Ok w) /\
       forall n, exists m, configure_crypto (cs_kek (c_svc s2)) (Some w) (mk_CryptoModule None n) = (m, Ok tt) /\
         snd (module_decrypt urandom t m) = Ok p).
Proof.
  intros Hs Hp. destruct (get_dek_ok s Hs) as (d & s0 & Hget & Hk & Hk0).
  assert (encrypt urandom p s = encrypt urandom p s0) as Henc.
  { unfold encrypt. by rewrite (bind_ok_eq _ _ _ _ _ Hget), (bind_ok_eq _ _ _ _ _ (get_dek_keyed d s0 Hk)). }
  destruct (encrypt_keyed d s0 p Hk Hp) as (s1 & nonce & ct & E & Hsvc & Hn & Hct).
  apply keyed_holds in Hk as [Hh Hlen]. pose proof (holds_step d s0 s1 Hh Hsvc) as Hh1.
  exists (b64encode (nonce +:+ ct)), s1, d. split; [congruence|]. split; [apply Hh1|].
  intros ops s2. destruct (ops_holds d ops s1 Hh1) as [Hh2 Hkek]. fold s2 in Hh2, Hkek. split; [apply Hh2|].
  split; [by rewrite Hkek, Hsvc, Hk0|].
  intros Hd2. rewrite Hd2 in Hh2. assert (keyed d s2) as Hs2 by (by apply keyed_holds).
  split; [by rewrite (decrypt_keyed d s2 p nonce ct)|].
  destruct (wrap_keyed d s2 Hs2) as (s3 & wn & wct & Hw & _ & Hwn & Hwct).
  exists (b64encode (wn +:+ wct)), s3. split; [done|]. intros n.
  destruct Hs2 as [Hd [Hlk Hld]].
  eexists. split; [apply (restart_keyed d); auto|]. unfold module_decrypt, get_crypto_service, bind, gets.
  simpl. unfold with_service. rewrite (decrypt_keyed d _ p nonce ct); [done| |done|done].
  repeat split; [done|]. by intros ? [= <-]; auto.
Qed.

(** [decrypt] accepts only what was sealed under the service's data key, and
    every failure, of the encoding or of the cipher, is the one exception
    [DecryptionError]. *)
Lemma decrypt_authentic (t : string) (s s' : CState) (r : res string) :
  decrypt urandom t s = (s', r) ->
  match r with
  | Ok p => exists raw d, b64decode t = Some raw /\ cs_dek (c_svc s') = Some d /\
      seal d (head_bytes _NONCE_SIZE raw) p = Ok (tail_bytes _NONCE_SIZE raw)
  | Err e => e = DecryptionError "Decryption failed - wrong key or tampered ciphertext."
  end.
Proof.
  unfold decrypt, try_except, bind at 1, lift_res at 1. destruct (b64decode t) as [raw|]; simpl.
  - destruct (get_dek urandom s) as [s1 r1] eqn:Hget. unfold bind. rewrite Hget.
    assert (forall d, r1 = Ok d -> cs_dek (c_svc s1) = Some d) as Hd.
    { intros d ->. revert Hget. unfold get_dek, bind, gets.
      destruct (cs_dek (c_svc s)) eqn:E; simpl; by intros [= <- <-]. }
    destruct r1 as [d|e]; [|by intros [= <- <-]]. unfold lift_res.
    destruct (unseal d _ _) as [p|e] eqn:Hu; intros [= <- <-]; [|done].
    exists raw, d. repeat split; [by apply Hd|]. by apply unseal_authentic.
  - by intros [= <- <-].
Qed.

End Proofs.

(** ** An instance of the laws, and concrete runs

    The tag of this cipher is the key itself: enough to tell keys apart. *)

Definition toy_valid (key nonce : string) : bool :=
  existsb (Nat.eqb (String.length key)) [16; 24; 32]%nat
  && (8 <=? String.length nonce)%nat && (String.length nonce <=? 128)%nat.

Definition toy_seal (key nonce data : string) : res string :=
  if toy_valid key nonce then Ok (data +:+ key) else Err (ValueError "AESGCM").

Definition toy_unseal (key nonce ct : string) : res string :=
  if toy_valid key nonce then
    let m := (String.length ct - String.length key)%nat in
    if String.eqb (tail_bytes m ct) key then Ok (head_bytes m ct) else Err (OtherError "InvalidTag" "")
  else Err (ValueError "AESGCM").

#[export] Instance toy_aead : Aead := { seal := toy_seal; unseal := toy_unseal }.

#[export] Instance toy_laws : AeadLaws.
Proof.
  split; simpl; unfold toy_seal, toy_unseal; intros key nonce.
  - intros data Hk Hn _. assert (toy_valid key nonce = true) as ->; [|by eexists].
    unfold toy_valid. by rewrite Hk, Hn.
  - intros data ct. destruct (toy_valid key nonce); [|done]. intros [= <-].
    rewrite str_len_app, Nat.add_sub, head_app, tail_app by done. by rewrite String.eqb_refl.
  - intros ct data. destruct (toy_valid key nonce); [|done].
    destruct (String.eqb_spec (tail_bytes (String.length ct - String.length key) ct) key) as [E|]; [|done].
    intros [= <-]. f_equal.
    etransitivity; [|apply (head_tail (String.length ct - String.length key))]. by rewrite E.
Qed.

(** A [urandom] whose draws differ. *)
Definition ex_byte (i : nat) : ascii := ascii_of_nat (65 + i).
Definition ex_urandom (size i : nat) : string := string_of_list_ascii (repeat (ex_byte i) size).

Lemma ex_urandom_size size i : String.length (ex_urandom size i) = size.
Proof. unfold ex_urandom. by rewrite length_string_of_list, repeat_length. Qed.

Definition ex_kek : string := ex_urandom 32 50.
Definition ex_new_kek : string := ex_urandom 32 51.
Definition ex_service : CState := mk_CState (mk_CryptoService ex_kek None) 0.
Definition ex_sealed : CState * res string := encrypt ex_urandom "secret" ex_service.

(** The key wrapped now, to load later, and another one wrapped under the same
    key-encryption key. *)
Definition ex_wrapped (d : string) : string :=
  match toy_seal ex_kek (ex_urandom 12 0) d with Ok c => b64encode (ex_urandom 12 0 +:+ c) | Err _ => EmptyString end.
Definition ex_dek : string := match cs_dek (c_svc (fst ex_sealed)) with Some d => d | None => EmptyString end.

(** Another key is loaded, then the first one again, and a load fails. *)
Definition ex_crypto_ops : list CryptoOp :=
  [OpLoad (ex_wrapped (ex_urandom 32 40)); OpLoad (ex_wrapped ex_dek); OpEncrypt "other"; OpRotate ex_new_kek;
   OpLoad (ex_wrapped ex_dek); OpRotate "short"; OpDecrypt "garbage"; OpWrap].

Lemma envelope_survives_witness :
  service_ok (c_svc ex_service) /\ loaded ex_urandom ex_crypto_ops (fst ex_sealed) = [ex_urandom 32 40; ex_dek] /\
  exists t s1, encrypt ex_urandom "secret" ex_service = (s1, Ok t) /\
    let s2 := fst (run_crypto ex_urandom ex_crypto_ops s1) in
    snd (decrypt ex_urandom t s2) = Ok "secret" /\
    exists w s3, wrap_dek ex_urandom s2 = (s3, Ok w) /\
      forall n, exists m, configure_crypto (cs_kek (c_svc s2)) (Some w) (mk_CryptoModule None n) = (m, Ok tt) /\
        snd (module_decrypt ex_urandom t m) = Ok "secret".
Proof.
  assert (service_ok (c_svc ex_service)) as Hs by (split; [reflexivity | discriminate]).
  split; [exact Hs|]. split; [vm_compute; reflexivity|].
  destruct (envelope_survives ex_urandom ex_urandom_size "secret" ex_service Hs ltac:(reflexivity))
    as (t & s1 & d & He & Hd & Hops).
  exists t, s1. split; [exact He|]. apply (proj2 (proj2 (Hops ex_crypto_ops))).
  assert (s1 = fst ex_sealed) as -> by (unfold ex_sealed; rewrite He; reflexivity).
  assert (d = ex_dek) as -> by (unfold ex_dek; rewrite Hd; reflexivity). vm_compute. reflexivity.
Defined.

(** With another data key loaded, the token is not readable. *)
Example other_dek_unreadable :
  let s2 := fst (load_wrapped_dek (ex_wrapped (ex_urandom 32 40)) (fst ex_sealed)) in
  match snd ex_sealed with
  | Ok t => snd (decrypt ex_urandom t s2) = Err (DecryptionError "Decryption failed - wrong key or tampered ciphertext.")
  | Err _ => False
  end.
Proof. vm_compute. reflexivity. Qed.

Definition ex_token : string := match snd ex_sealed with Ok t => t | Err _ => EmptyString end.

Lemma decrypt_authentic_witness :
  decrypt ex_urandom ex_token (fst ex_sealed) = (fst ex_sealed, Ok "secret") /\
  exists raw d, b64decode ex_token = Some raw /\ cs_dek (c_svc (fst ex_sealed)) = Some d /\
      seal d (head_bytes _NONCE_SIZE raw) "secret" = Ok (tail_bytes _NONCE_SIZE raw).
Proof.
  assert (decrypt ex_urandom ex_token (fst ex_sealed) = (fst ex_sealed, Ok "secret")) as E
    by (vm_compute; reflexivity).
  split; [exact E|].
  exact (decrypt_authentic ex_urandom ex_token (fst ex_sealed) (fst ex_sealed) (Ok "secret") E).
Defined.

(** The sidecar configures the service without a wrapped key at each start: the
    data key of the first process is gone, and its tokens do not decrypt. *)
Definition ex_process (draws : nat) : CryptoModule :=
  fst (configure_crypto ex_kek None (mk_CryptoModule None draws)).

Definition ex_stored : CryptoModule * res (option string) :=
  process_bind_param ex_urandom (Some "secret") (ex_process 0).

Definition ex_column : option string :=
  match snd ex_stored with Ok o => o | Err _ => None end.

Example restart_loses_data :
  is_Some ex_column /\
  snd (process_result_value ex_urandom ex_column (fst ex_stored)) = Ok (Some "secret") /\
  snd (process_result_value ex_urandom ex_column (ex_process 2)) =
    Err (DecryptionError "Decryption failed - wrong key or tampered ciphertext.").
Proof. split; [by eexists | split; vm_compute; reflexivity]. Qed.

(** Loading accepts a data key of any length; using it then fails. *)
Definition ex_short_dek : CState * res unit :=
  match toy_seal ex_kek (ex_urandom 12 0) "tiny" with
  | Ok w => load_wrapped_dek (b64encode (ex_urandom 12 0 +:+ w)) ex_service
  | Err e => (ex_service, Err e)
  end.

Example short_dek_accepted :
  snd ex_short_dek = Ok tt /\
  snd (encrypt ex_urandom "secret" (fst ex_short_dek)) = Err (ValueError "AESGCM").
Proof. split; vm_compute; reflexivity. Qed.

(** A wrapped key that is not base64 raises the codec's error, not [DecryptionError]. *)
Example load_raises_codec_error :
  snd (load_wrapped_dek "A" ex_service) = Err binascii_Error.
Proof. reflexivity. Qed.
