(* ===== verification/Regex.v ===== *)
(** * Regex: Python's re, for the expressions the program uses

    Character classes, sequences, greedy options, greedy repetition of a class
    and word boundaries.  [run] is the backtracking matcher, with the caller's
    continuation; [accepts] is what an expression means, in context: the
    character before and the text after decide a word boundary.  The matcher is
    sound and complete for it.  [re_sub] is [pattern.sub]; [sub_clean] states
    when no expression of a kind matches anything in its result. *)

From Stdlib Require Import ZArith Lia Ascii String List.
From stdpp Require Import base list strings.
From S2P Require Import Prelude PyText.

Open Scope string_scope.
Open Scope list_scope.
Open Scope nat_scope.

Inductive re :=
| RSet (f : ascii -> bool)
| RBound
| RSeq (a b : re)
| ROpt (a : re)
| RRep (f : ascii -> bool) (lo : nat) (hi : option nat).

(** [\w] *)
Definition is_word (c : ascii) : bool :=
  is_digit c || ((65 <=? code c)%Z && (code c <=? 90)%Z) || ((97 <=? code c)%Z && (code c <=? 122)%Z)
  || Ascii.eqb c "_"%char.

Definition opt_word (o : option ascii) : bool := match o with Some c => is_word c | None => false end.

(** [\b] between the character [p] and the text [l]. *)
Definition boundary (p : option ascii) (l : list ascii) : bool := xorb (opt_word p) (opt_word (head l)).

(** The character before what follows [u]. *)
Definition last_of (p : option ascii) (u : list ascii) : option ascii :=
  match last u with Some c => Some c | None => p end.

Section Run.
Context {A : Type}.

(** Up to [hi] characters of the class, as many as possible first. *)
Fixpoint run_rep (f : ascii -> bool) (lo : nat) (hi : option nat) (p : option ascii) (l : list ascii)
    (k : option ascii -> list ascii -> option A) : option A :=
  let stop := if decide (lo = 0) then k p l else None in
  match l with
  | c :: l' =>
      if f c && negb (bool_decide (hi = Some 0)) then
        match run_rep f (pred lo) (option_map pred hi) (Some c) l' k with
        | Some x => Some x
        | None => stop
        end
      else stop
  | [] => stop
  end.

Fixpoint run (r : re) (p : option ascii) (l : list ascii) (k : option ascii -> list ascii -> option A) : option A :=
  match r with
  | RSet f => match l with c :: l' => if f c then k (Some c) l' else None | [] => None end
  | RBound => if boundary p l then k p l else None
  | RSeq a b => run a p l (fun p' l' => run b p' l' k)
  | ROpt a => match run a p l k with Some x => Some x | None => k p l end
  | RRep f lo hi => run_rep f lo hi p l k
  end.

End Run.

(** [pattern.match] at a position: what is left after the match. *)
Definition re_match (r : re) (p : option ascii) (l : list ascii) : option (option ascii * list ascii) :=
  run r p l (fun p' l' => Some (p', l')).

(** [pattern.sub(repl, text)], from left to right.  No expression of the program
    matches the empty text; a match that consumes nothing is passed over. *)
Fixpoint sub_from (fuel : nat) (r : re) (repl : list ascii) (p : option ascii) (l : list ascii) : list ascii :=
  match fuel, l with
  | S n, c :: l' =>
      match re_match r p l with
      | Some (p', rest) =>
          if decide (length rest < length l) then repl ++ sub_from n r repl p' rest
          else c :: sub_from n r repl (Some c) l'
      | None => c :: sub_from n r repl (Some c) l'
      end
  | _, _ => []
  end.

Definition re_sub (r : re) (repl s : string) : string :=
  let l := list_ascii_of_string s in
  string_of_list_ascii (sub_from (length l) r (list_ascii_of_string repl) None l).

(** ** What an expression matches *)

Fixpoint accepts (r : re) (p : option ascii) (u n : list ascii) : Prop :=
  match r with
  | RSet f => exists c, u = [c] /\ f c = true
  | RBound => u = [] /\ boundary p n = true
  | RSeq a b => exists u1 u2, u = u1 ++ u2 /\ accepts a p u1 (u2 ++ n) /\ accepts b (last_of p u1) u2 n
  | ROpt a => u = [] \/ accepts a p u n
  | RRep f lo hi => Forall (fun c => f c = true) u /\ lo <= length u /\
      match hi with Some h => length u <= h | None => True end
  end.

Lemma last_of_app p u v : last_of (last_of p u) v = last_of p (u ++ v).
Proof. unfold last_of. rewrite last_app. by destruct (last v). Qed.

Lemma last_of_cons p c u : last_of p (c :: u) = last_of (Some c) u.
Proof. change (c :: u) with ([c] ++ u). by rewrite <- last_of_app. Qed.

Section Correct.
Context {A : Type}.
Implicit Type k : option ascii -> list ascii -> option A.

Lemma rep_nil f hi p n : accepts (RRep f 0 hi) p [] n.
Proof. split; [constructor|]. split; [cbn; lia|]. by destruct hi; cbn; [lia|]. Qed.

Lemma run_rep_sound f lo hi p l k x :
  run_rep f lo hi p l k = Some x ->
  exists u n, l = u ++ n /\ accepts (RRep f lo hi) p u n /\ k (last_of p u) n = Some x.
Proof.
  revert lo hi p. induction l as [|c l IH]; intros lo hi p.
  - cbn. case_decide; [|done]. intros Hk. exists [], []. subst. split; [done|]. split; [exact (rep_nil f hi p [])|done].
  - assert ((if decide (lo = 0) then k p (c :: l) else None) = Some x ->
      exists u n, c :: l = u ++ n /\ accepts (RRep f lo hi) p u n /\ k (last_of p u) n = Some x) as Hstop.
    { case_decide; [|done]. intros Hk. exists [], (c :: l). subst. split; [done|]. split; [exact (rep_nil f hi p (c :: l))|done]. }
    cbn [run_rep]. destruct (f c && _) eqn:Ec; [|exact Hstop]. simpl_bool.
    destruct (run_rep f (pred lo) (option_map pred hi) (Some c) l k) as [y|] eqn:E; [|exact Hstop].
    intros [= <-]. apply IH in E as (u & n & -> & (Hf & Hlo & Hhi) & Hk).
    exists (c :: u), n. rewrite last_of_cons. split; [done|]. split; [|done]. split; [by constructor|].
    cbn [length]. split; [lia|]. destruct hi as [h|]; [|done]. cbn in Hhi. destruct h; [done|]. cbn in Hhi. lia.
Qed.

Lemma run_rep_complete f lo hi p u n k :
  accepts (RRep f lo hi) p u n -> k (last_of p u) n <> None -> run_rep f lo hi p (u ++ n) k <> None.
Proof.
  revert lo hi p. induction u as [|c u IH]; intros lo hi p (Hf & Hlo & Hhi) Hk.
  - cbn in *. assert (lo = 0) as -> by lia. destruct n as [|c n]; cbn; [done|].
    destruct (f c && _); [|done]. by destruct (run_rep _ _ _ _ n k).
  - apply Forall_cons in Hf as [Hc Hf]. cbn [app run_rep]. rewrite Hc. cbn [length] in *.
    assert (bool_decide (hi = Some 0) = false) as ->. { apply bool_decide_eq_false. intros ->. lia. }
    cbn. specialize (IH (pred lo) (option_map pred hi) (Some c)). rewrite last_of_cons in Hk.
    destruct (run_rep _ _ _ _ (u ++ n) k); [done|]. exfalso. apply IH; [|done|done].
    split; [done|]. split; [lia|]. destruct hi as [h|]; [|done]. cbn. lia.
Qed.

Lemma run_sound r p l k x :
  run r p l k = Some x -> exists u n, l = u ++ n /\ accepts r p u n /\ k (last_of p u) n = Some x.
Proof.
  revert p l k. induction r as [f| |a IHa b IHb|a IHa|f lo hi]; intros p l k; cbn [run].
  - destruct l as [|c l]; [done|]. destruct (f c) eqn:E; [|done]. intros H. exists [c], l. cbn. eauto.
  - destruct (boundary p l) eqn:E; [|done]. intros H. by exists [], l.
  - intros H. apply IHa in H as (u1 & n1 & -> & H1 & H). apply IHb in H as (u2 & n & -> & H2 & H).
    exists (u1 ++ u2), n. rewrite <- last_of_app, <- app_assoc. split; [done|]. split; [|done]. by exists u1, u2.
  - destruct (run a p l k) eqn:E.
    + intros [= ->]. apply IHa in E as (u & n & -> & H & Hk). exists u, n. cbn. auto.
    + intros H. exists [], l. cbn. auto.
  - apply run_rep_sound.
Qed.

Lemma run_complete r p u n k : accepts r p u n -> k (last_of p u) n <> None -> run r p (u ++ n) k <> None.
Proof.
  revert p u n k. induction r as [f| |a IHa b IHb|a IHa|f lo hi]; intros p u n k; cbn [accepts run].
  - intros (c & -> & Hc) Hk. cbn. by rewrite Hc.
  - intros [-> Hb] Hk. cbn. by rewrite Hb.
  - intros (u1 & u2 & -> & H1 & H2) Hk. rewrite <- app_assoc. apply IHa; [done|].
    apply IHb; [done|]. by rewrite last_of_app.
  - intros [->|H] Hk.
    + cbn in *. by destruct (run a p n k).
    + specialize (IHa p u n k H Hk). by destruct (run a p (u ++ n) k).
  - apply run_rep_complete.
Qed.

End Correct.

(** The expression matches at the beginning of [l]. *)
Definition found (r : re) (p : option ascii) (l : list ascii) : Prop :=
  exists u n, l = u ++ n /\ accepts r p u n.

Lemma re_match_some r p l p' rest :
  re_match r p l = Some (p', rest) -> exists u, l = u ++ rest /\ accepts r p u rest /\ p' = last_of p u.
Proof.
  intros H. apply run_sound in H as (u & n & -> & H & Hk). injection Hk as <- <-. by exists u.
Qed.

Lemma re_match_none r p l : re_match r p l = None -> ~ found r p l.
Proof. intros H (u & n & -> & Ha). revert H. by apply run_complete. Qed.

(** ** Kinds of expressions *)

(** No word boundary inside. *)
Fixpoint plain (r : re) : bool :=
  match r with
  | RBound => false
  | RSeq a b => plain a && plain b
  | ROpt a => plain a
  | RSet _ | RRep _ _ _ => true
  end.

Definition refuses (cs : list ascii) (f : ascii -> bool) : bool := forallb (fun c => negb (f c)) cs.

(** Matches contain none of the characters. *)
Fixpoint avoids (cs : list ascii) (r : re) : bool :=
  match r with
  | RSet f | RRep f _ _ => refuses cs f
  | RBound => true
  | RSeq a b => avoids cs a && avoids cs b
  | ROpt a => avoids cs a
  end.

(** Every match contains some character that is none of these. *)
Fixpoint needs_other (cs : list ascii) (r : re) : bool :=
  match r with
  | RSet f => refuses cs f
  | RRep f lo _ => (1 <=? lo) && refuses cs f
  | RSeq a b => needs_other cs a || needs_other cs b
  | RBound | ROpt _ => false
  end.

(** [\b] around an expression without [\b]. *)
Definition bounded (body : re) : re := RSeq RBound (RSeq body RBound).

Lemma refuses_spec cs f c : refuses cs f = true -> f c = true -> c ∉ cs.
Proof.
  intros Hr Hf Hin. unfold refuses in Hr. rewrite forallb_forall in Hr.
  apply list_elem_of_In in Hin. specialize (Hr c Hin). by rewrite Hf in Hr.
Qed.

Lemma avoids_spec cs r p u n : avoids cs r = true -> accepts r p u n -> forall c, c ∈ u -> c ∉ cs.
Proof.
  revert p u n. induction r as [f| |a IHa b IHb|a IHa|f lo hi]; intros p u n Hav; cbn in Hav |- *.
  - intros (c & -> & Hc) x ->%list_elem_of_singleton. by eapply refuses_spec.
  - intros [-> _] x Hx. by apply elem_of_nil in Hx.
  - simpl_bool. intros (u1 & u2 & -> & H1 & H2) x [Hx|Hx]%elem_of_app; eauto.
  - intros [->|Ha] x Hx; [by apply elem_of_nil in Hx|]. by eapply IHa.
  - intros (Hf & _) x Hx. rewrite list.Forall_forall in Hf. eapply refuses_spec; eauto.
Qed.

Lemma needs_other_spec cs r p u n : needs_other cs r = true -> accepts r p u n -> exists c, c ∈ u /\ c ∉ cs.
Proof.
  revert p u n. induction r as [f| |a IHa b IHb|a IHa|f lo hi]; intros p u n Hn; cbn in Hn |- *; try done.
  - intros (c & -> & Hc). exists c. split; [left|by eapply refuses_spec].
  - intros (u1 & u2 & -> & H1 & H2). apply orb_prop in Hn as [Hn|Hn].
    + destruct (IHa _ _ _ Hn H1) as (c & Hc & Ho). exists c. split; [apply elem_of_app; by left|done].
    + destruct (IHb _ _ _ Hn H2) as (c & Hc & Ho). exists c. split; [apply elem_of_app; by right|done].
  - simpl_bool. intros (Hf & Hlo & _). destruct u as [|c u]; [cbn in Hlo; destruct lo; [done|lia]|].
    apply Forall_cons in Hf as [Hc _]. exists c. split; [left|by eapply refuses_spec].
Qed.

(** An expression without boundaries does not look at its context. *)
Lemma plain_context r p p' u n n' : plain r = true -> accepts r p u n -> accepts r p' u n'.
Proof.
  revert p p' u n n'. induction r as [f| |a IHa b IHb|a IHa|f lo hi]; intros p p' u n n' Hp; cbn in Hp |- *; try done.
  - simpl_bool. intros (u1 & u2 & -> & H1 & H2). exists u1, u2. eauto.
  - intros [->|Ha]; [by left|right; eauto].
Qed.

Lemma bounded_accepts body p u n :
  accepts (bounded body) p u n <->
  boundary p (u ++ n) = true /\ accepts body p u n /\ boundary (last_of p u) n = true.
Proof.
  unfold bounded. cbn [accepts]. split.
  - intros (u1 & u2 & -> & [-> Hb] & u3 & u4 & -> & Ha & -> & Hb'). cbn in *. rewrite !app_nil_r in *. auto.
  - intros (Hb & Ha & Hb'). exists [], u. split; [done|]. split; [done|].
    exists u, []. rewrite app_nil_r. auto.
Qed.

(** ** What is left after a substitution *)

(** The expression matches nowhere in the text. *)
Definition free (r : re) (p : option ascii) (l : list ascii) : Prop :=
  forall u v, l = u ++ v -> ~ found r (last_of p u) v.

Lemma free_suffix r p u v : free r p (u ++ v) -> free r (last_of p u) v.
Proof. intros H x y -> Hf. apply (H (u ++ x) y); [by rewrite app_assoc|]. by rewrite <- last_of_app. Qed.

(** A substitution of what is not there changes nothing. *)
Lemma sub_free n r repl p l : length l <= n -> free r p l -> sub_from n r repl p l = l.
Proof.
  revert p l. induction n as [|n IH]; intros p [|c l] Hn Hf; try done; [cbn in Hn; lia|].
  cbn [sub_from]. destruct (re_match r p (c :: l)) as [[p' rest]|] eqn:E.
  - apply re_match_some in E as (u & Hl & Ha & _). exfalso. apply (Hf [] (c :: l)); [done|]. by exists u, rest.
  - f_equal. apply IH; [cbn in Hn; lia|]. apply (free_suffix r p [c] l Hf).
Qed.

Section Clean.
(** The replacement: a word between two brackets. *)
Context (opening closing : ascii) (inner : list ascii).

Definition replacement : list ascii := opening :: inner ++ [closing].

(** What an expression must satisfy: it matches words only, no bracket, and
    nothing of the replacement. *)
Definition clean (body : re) : bool :=
  plain body && avoids [opening; closing] body && needs_other inner body.

Lemma clean_word body p u n :
  clean body = true -> accepts (bounded body) p u n ->
  u <> [] /\ (forall c, c ∈ u -> c <> opening /\ c <> closing) /\ exists c, c ∈ u /\ c ∉ inner.
Proof.
  intros Hc Ha. unfold clean in Hc. simpl_bool. apply bounded_accepts in Ha as (_ & Ha & _).
  destruct (needs_other_spec _ _ _ _ _ H0 Ha) as (c & Hcu & Hci). split; [|split; [|by exists c]].
  - intros ->. by apply elem_of_nil in Hcu.
  - intros x Hx. pose proof (avoids_spec _ _ _ _ _ H1 Ha x Hx) as Hn. split; intros ->; apply Hn; in_list.
Qed.

Context (b : re).

Lemma sub_head n p l :
  length l <= n ->
  let o := sub_from n (bounded b) replacement p l in
  (o = [] /\ l = []) \/ (exists c, head o = Some c /\ head l = Some c) \/
  (head o = Some opening /\ boundary p l = true).
Proof.
  intros Hn o. unfold o. destruct n as [|n], l as [|c l]; cbn [sub_from]; auto; [cbn in Hn; lia|].
  destruct (re_match (bounded b) p (c :: l)) as [[p' rest]|] eqn:E; [|right; left; by exists c].
  case_decide; [|right; left; by exists c]. right. right. split; [done|].
  apply re_match_some in E as (u & -> & Ha & _). by apply bounded_accepts in Ha as (Hb & _).
Qed.

(** A stretch of the result without the opening bracket was copied. *)
Lemma sub_copied n p l u v :
  length l <= n -> sub_from n (bounded b) replacement p l = u ++ v -> u <> [] -> opening ∉ u ->
  exists v', l = u ++ v' /\
    ((v = [] /\ v' = []) \/ (exists c, head v = Some c /\ head v' = Some c) \/
     (boundary (last_of p u) v' = true)).
Proof.
  revert p l u. induction n as [|n IH]; intros p l u Hn E Hu Ho.
  { destruct l; [|cbn in Hn; lia]. destruct u; done. }
  destruct l as [|c l]; [by destruct u|]. destruct u as [|c' u]; [done|].
  apply not_elem_of_cons in Ho as [Hoc Ho].
  assert (exists p1, c = c' /\ p1 = Some c /\ sub_from n (bounded b) replacement p1 l = u ++ v) as (p1 & <- & -> & E').
  { cbn [sub_from] in E. destruct (re_match (bounded b) p (c :: l)) as [[p' rest]|].
    - case_decide; [by injection E as -> |]. injection E as -> E. by eexists.
    - injection E as -> E. by eexists. }
  cbn in Hn. destruct u as [|c2 u].
  - exists l. split; [done|]. rewrite last_of_cons. cbn in E'. subst v.
    destruct (sub_head n (Some c) l) as [H|[H|[_ H]]]; [lia|auto..].
  - destruct (IH (Some c) l (c2 :: u)) as (v' & -> & Hv); [lia|done|done|done|].
    exists v'. split; [done|]. by rewrite last_of_cons.
Qed.

(** A match in the result was a match in the text. *)
Lemma sub_found n body p po l :
  length l <= n -> clean body = true -> (po = p \/ boundary p l = true) ->
  found (bounded body) po (sub_from n (bounded b) replacement p l) -> found (bounded body) p l.
Proof.
  intros Hn Hc Hp (u & v & E & Ha). destruct (clean_word _ _ _ _ Hc Ha) as (Hu & Hbr & _).
  destruct (sub_copied n p l u v Hn E Hu) as (v' & -> & Hv); [by intros [? _]%Hbr|].
  exists u, v'. split; [done|]. apply bounded_accepts in Ha as (H1 & H2 & H3). apply bounded_accepts.
  assert (forall q, last_of q u = last u) as Hl. { intros q. unfold last_of. destruct u; [done|]. by rewrite last_cons; destruct (last u). }
  split; [|split].
  - destruct Hp as [->|Hp]; [|done]. by destruct u.
  - unfold clean in Hc. simpl_bool. by eapply plain_context.
  - rewrite !Hl in *. destruct Hv as [[-> ->]|[(c & Hc1 & Hc2)|Hb]]; [done| |done].
    unfold boundary in *. by rewrite Hc2, <- Hc1.
Qed.

(** Nothing matches inside the replacement. *)
Lemma repl_not_found body x y o p :
  clean body = true -> replacement = x ++ y -> y <> [] -> ~ found (bounded body) p (y ++ o).
Proof.
  intros Hc Hr Hy (u & n & E & Ha). destruct (clean_word _ _ _ _ Hc Ha) as (Hu & Hbr & c & Hcu & Hci).
  unfold replacement in Hr. destruct x as [|c0 x].
  - cbn in Hr. subst y. destruct u as [|c1 u]; [done|]. injection E as <- _. by destruct (Hbr opening) as [[] _]; [left|].
  - injection Hr as <- Hr. destruct (exists_last Hy) as (k & z & ->).
    rewrite app_assoc in Hr. apply app_inj_tail in Hr as [-> <-].
    rewrite <- app_assoc in E. cbn in E.
    assert (forall w, w ∈ u -> w ∈ k) as Hin.
    { clear -E Hbr. revert k E. induction u as [|a u IH]; intros k E w Hw; [by apply elem_of_nil in Hw|].
      destruct k as [|d k]; cbn in E; injection E as <- E.
      - by destruct (Hbr closing) as [_ []]; [left|].
      - apply elem_of_cons in Hw as [->|Hw]; [left|right]. apply IH; [|done|done].
        intros y Hy. apply Hbr. by right. }
    apply Hci. apply elem_of_app. right. by apply Hin.
Qed.

(** After the substitution of a bounded expression, a clean expression that
    matched nowhere before matches nowhere. *)
Lemma sub_keeps_free n body p po l :
  length l <= n -> clean body = true -> (po = p \/ boundary p l = true) ->
  free (bounded body) p l -> free (bounded body) po (sub_from n (bounded b) replacement p l).
Proof.
  revert p po l. induction n as [|n IH]; intros p po l Hn Hc Hp Hf x y E Hfd.
  { destruct l; [|cbn in Hn; lia]. cbn in E. apply eq_sym, app_eq_nil in E as [-> ->].
    destruct Hfd as (u & v & Huv & Ha). destruct (clean_word _ _ _ _ Hc Ha) as (Hu & _). by destruct u. }
  destruct x as [|c' x].
  { cbn [app] in E. subst y. apply (Hf [] l); [done|]. by eapply sub_found. }
  destruct l as [|c l]; [done|]. cbn in Hn.
  assert (sub_from (S n) (bounded b) replacement p (c :: l) = c :: sub_from n (bounded b) replacement (Some c) l ->
          False) as Hcopy.
  { intros E'. rewrite E' in E. injection E as <- E. rewrite last_of_cons in Hfd.
    apply (IH (Some c) (Some c) l) in E; [done|lia|done|by left|]. apply (free_suffix _ p [c] l Hf). }
  cbn [sub_from] in E, Hcopy. destruct (re_match (bounded b) p (c :: l)) as [[p' rest]|] eqn:Em; [|by apply Hcopy].
  case_decide as Hlt; [|by apply Hcopy]. cbn in Hlt. clear Hcopy.
  apply re_match_some in Em as (w & Hl & Ha & ->). apply bounded_accepts in Ha as (_ & _ & Hb).
  assert (free (bounded body) (last_of p w) rest) as Hf'. { apply free_suffix. by rewrite <- Hl. }
  assert (forall q, free (bounded body) q (sub_from n (bounded b) replacement (last_of p w) rest)) as Hf2.
  { intros q. apply IH; [lia|done|by right|done]. }
  apply app_eq_app in E as (k & [[E1 E2]|[E1 E2]]).
  - destruct k as [|z k].
    + cbn in E2. subst y. by apply (Hf2 (last_of po (c' :: x)) [] _ eq_refl).
    + rewrite E2 in Hfd. by apply (repl_not_found body (c' :: x) (z :: k) _ _ Hc E1) in Hfd.
  - rewrite E1, <- last_of_app in Hfd. by apply (Hf2 (last_of po replacement) k y E2).
Qed.

(** After the substitution of a clean expression it matches nowhere itself. *)
Lemma sub_frees n p po l :
  length l <= n -> clean b = true -> (po = p \/ boundary p l = true) ->
  free (bounded b) po (sub_from n (bounded b) replacement p l).
Proof.
  revert p po l. induction n as [|n IH]; intros p po l Hn Hc Hp x y E Hfd.
  { destruct l; [|cbn in Hn; lia]. cbn in E. apply eq_sym, app_eq_nil in E as [-> ->].
    destruct Hfd as (u & v & Huv & Ha). destruct (clean_word _ _ _ _ Hc Ha) as (Hu & _). by destruct u. }
  destruct l as [|c l].
  { cbn in E. apply eq_sym, app_eq_nil in E as [-> ->].
    destruct Hfd as (u & v & Huv & Ha). destruct (clean_word _ _ _ _ Hc Ha) as (Hu & _). by destruct u. }
  pose proof (sub_found (S n) b p po (c :: l) Hn Hc Hp) as Hhead. cbn in Hn.
  destruct (re_match (bounded b) p (c :: l)) as [[p' rest]|] eqn:Em.
  - pose proof Em as Em'. apply re_match_some in Em' as (w & Hl & Ha & ->).
    destruct (clean_word _ _ _ _ Hc Ha) as (Hw & _). apply bounded_accepts in Ha as (_ & _ & Hb).
    assert (length rest < length (c :: l)) as Hlt.
    { rewrite Hl, length_app. destruct w; [done|]. cbn. lia. }
    cbn [sub_from] in E. rewrite Em, decide_True in E by done. cbn in Hlt.
    assert (forall q, free (bounded b) q (sub_from n (bounded b) replacement (last_of p w) rest)) as Hf'.
    { intros q. apply IH; [lia|done|by right]. }
    apply app_eq_app in E as (k & [[E1 E2]|[E1 E2]]).
    + destruct k as [|z k].
      * cbn in E2. subst y. by apply (Hf' (last_of po x) []  _ eq_refl).
      * rewrite E2 in Hfd. by apply (repl_not_found b x (z :: k) _ _ Hc E1) in Hfd.
    + rewrite E1, <- last_of_app in Hfd. by apply (Hf' (last_of po replacement) k y E2).
  - destruct x as [|c' x].
    { cbn [app] in E. rewrite E in Hhead. apply re_match_none in Em. apply Em, Hhead. exact Hfd. }
    cbn [sub_from] in E. rewrite Em in E. injection E as <- E. rewrite last_of_cons in Hfd.
    apply (IH (Some c) (Some c) l) in E; [done|lia|done|by left].
Qed.

End Clean.
