(* ===== verification/Reference.v ===== *)
(** * Reference: connectors/ports.py and connectors/reference/

    The in-memory adapters of the four connector ports, with their fault
    injection.  Each adapter's dictionaries are its store; [uuid4] is the supply
    of [Effects], SHA-256 of a byte string is a parameter.  Stored models are
    values: no caller in the repository mutates one it got from an adapter. *)

From Stdlib Require Import ZArith Lia Ascii String List.
From stdpp Require Import base list strings.
From S2P Require Import Prelude PyTime PyText ConnErrors Effects Domain.

Open Scope string_scope.
Open Scope list_scope.
Open Scope cam_scope.

(** ** ports.py *)

Record MatterDraft := mk_MatterDraft {
  md_reference : string;
  md_title : string;
  md_status : string;
  md_practice_area : option string;
  md_client : Contact;
  md_responsible : option string;
  md_opened_at : datetime;
  md_external_ids : dict string string }.

(** An adapter: its data and the error the next call raises. *)
Record Adapter (T : Type) := mk_Adapter {
  ad_data : T;
  ad_inject_error : option ConnectorError }.
Arguments mk_Adapter {T}.
Arguments ad_data {T}.
Arguments ad_inject_error {T}.

Section Adapter.
Context {T W : Type}.

Definition AM (A : Type) : Type := M (sys (Adapter T) W) A.

Definition inject_error (e : ConnectorError) : AM unit :=
  on_store (modify (fun a => mk_Adapter (ad_data a) (Some e))).

(** [_maybe_raise] *)
Definition maybe_raise : AM unit :=
  on_store (fun a =>
    match ad_inject_error a with
    | Some e => (mk_Adapter (ad_data a) None, Err (ConnectorExn e))
    | None => (a, Ok tt)
    end).

Definition on_data {A} (m : M T A) : AM A :=
  on_store (zoom ad_data (fun t a => mk_Adapter t (ad_inject_error a)) m).

Definition data_of (s : sys (Adapter T) W) : T := ad_data (sys_store s).

(** A call after an injected fault raises it once and changes no data. *)
Lemma injected_fault {A} (m : AM A) e s :
  let s1 := fst (inject_error e s) in
  exists s2, (maybe_raise ;; m) s1 = (s2, Err (ConnectorExn e)) /\
    data_of s2 = data_of s /\ ad_inject_error (sys_store s2) = None.
Proof. by eexists. Qed.

(** Without one, [_maybe_raise] does nothing. *)
Lemma no_fault {A} (m : AM A) s :
  ad_inject_error (sys_store s) = None -> (maybe_raise ;; m) s = m s.
Proof.
  unfold maybe_raise, bind, on_store, zoom. intros ->.
  destruct s as [[d i] w t u]. reflexivity.
Qed.

End Adapter.
Arguments AM : clear implicits.

Section Reference.
Context {W : Type} (uuids : nat -> string) (sha256_hex : string -> string).

(** ** case.py *)

Record CaseData := mk_CaseData {
  ca_matters : dict string Matter;
  ca_deadlines : dict string (list Deadline) }.

Definition case_not_found (id : string) : exn :=
  ConnectorExn (simple_error NotFoundError "reference_case" ("Matter " +:+ py_repr id +:+ " not found.")).

Definition get_matter (id : string) : AM CaseData W Matter :=
  maybe_raise ;;
  (let! m := on_data (gets (fun t => dget id (ca_matters t))) in
   match m with Some m => ret m | None => raise (case_not_found id) end).

Definition put_matter (m : Matter) (deadlines : list Deadline) (t : CaseData) : CaseData :=
  mk_CaseData (dset (mt_id m) m (ca_matters t)) (dset (mt_id m) deadlines (ca_deadlines t)).

Definition create_matter (data : MatterDraft) : AM CaseData W Matter :=
  maybe_raise ;;
  (let! matter_id := uuid4 uuids in
   let matter := mk_Matter matter_id "reference" (md_reference data) (md_title data) (md_status data)
     (md_practice_area data) (md_client data) (md_responsible data) (md_opened_at data) []
     (dset "reference" matter_id (md_external_ids data)) in
   on_data (modify (put_matter matter [])) ;; ret matter).

Definition list_deadlines (matter_id : string) : AM CaseData W (list Deadline) :=
  maybe_raise ;;
  (let! known := on_data (gets (fun t => dmem matter_id (ca_matters t))) in
   if known then
     on_data (gets (fun t => match dget matter_id (ca_deadlines t) with Some l => l | None => [] end))
   else raise (case_not_found matter_id)).

Definition seed_matter (m : Matter) : AM CaseData W unit :=
  on_data (modify (fun t =>
    mk_CaseData (dset (mt_id m) m (ca_matters t))
      (if dmem (mt_id m) (ca_deadlines t) then ca_deadlines t
       else dset (mt_id m) [] (ca_deadlines t)))).

Definition seed_deadline (d : Deadline) : AM CaseData W unit :=
  on_data (modify (fun t =>
    mk_CaseData (ca_matters t)
      (dset (d_matter_id d)
         ((match dget (d_matter_id d) (ca_deadlines t) with Some l => l | None => [] end) ++ [d])
         (ca_deadlines t)))).

(** ** crm.py *)

Definition CrmData : Type := dict string Contact.

Definition contact_with_id (id : string) (c : Contact) : Contact :=
  mk_Contact id (ct_source c) (ct_name c) (ct_email c) (ct_phone c) (ct_role c) (ct_external_ids c).

Definition upsert_contact (c : Contact) : AM CrmData W Contact :=
  maybe_raise ;;
  (let! c := if str_truthy (ct_id c) then ret c
             else let! id := uuid4 uuids in ret (contact_with_id id c) in
   on_data (modify (dset (ct_id c) c)) ;; ret c).

Definition contact_matches (q_lower : string) (c : Contact) : bool :=
  str_contains q_lower (str_lower (ct_name c)) ||
  str_contains q_lower (str_lower (match ct_email c with Some e => e | None => EmptyString end)).

Definition find_contact (q : string) : AM CrmData W (list Contact) :=
  maybe_raise ;; on_data (gets (fun t => bfilter (contact_matches (str_lower q)) (dvalues t))).

(** ** email.py *)

Record EmailData := mk_EmailData {
  em_drafts : dict string Communication;
  em_sent : dict string string }.

Definition comm_as (id status : string) (c : Communication) : Communication :=
  mk_Communication id (cm_matter_id c) (cm_direction c) (cm_channel c) (cm_subject c) (cm_body c)
    status (cm_participants c).

Definition create_draft (c : Communication) : AM EmailData W string :=
  maybe_raise ;;
  (let! draft_id := uuid4 uuids in
   on_data (modify (fun t =>
     mk_EmailData (dset draft_id (comm_as draft_id "draft" c) (em_drafts t)) (em_sent t))) ;;
   ret draft_id).

Definition record_sent (draft_id idem_key message_id : string) (t : EmailData) : EmailData :=
  mk_EmailData
    (match dget draft_id (em_drafts t) with
     | Some c => dset draft_id (comm_as (cm_id c) "sent" c) (em_drafts t)
     | None => em_drafts t
     end)
    (dset idem_key message_id (em_sent t)).

Definition send (draft_id idem_key : string) : AM EmailData W string :=
  maybe_raise ;;
  (let! already := on_data (gets (fun t => dget idem_key (em_sent t))) in
   match already with
   | Some message_id => ret message_id
   | None =>
       let! known := on_data (gets (fun t => dmem draft_id (em_drafts t))) in
       if known then
         let! message_id := uuid4 uuids in
         on_data (modify (record_sent draft_id idem_key message_id)) ;; ret message_id
       else raise (ConnectorExn (simple_error NotFoundError "reference_email"
                                   ("Draft " +:+ py_repr draft_id +:+ " not found.")))
   end).

Definition get_draft (draft_id : string) : AM EmailData W (option Communication) :=
  on_data (gets (fun t => dget draft_id (em_drafts t))).

Definition was_sent (idem_key : string) : AM EmailData W bool :=
  on_data (gets (fun t => dmem idem_key (em_sent t))).

(** ** docstore.py *)

Record DocData := mk_DocData {
  dd_docs : dict string Document;
  dd_blobs : dict string string }.

Definition stored_as (id checksum uri : string) (d : Document) : Document :=
  mk_Document id (doc_matter_id d) (doc_name d) (doc_mime_type d) uri (doc_classification d)
    (doc_version d) (doc_privileged d) checksum (doc_created_at d).

Definition put_doc (doc : Document) (content : string) : AM DocData W Document :=
  maybe_raise ;;
  (let! id := if str_truthy (doc_id doc) then ret (doc_id doc) else uuid4 uuids in
   let stored := stored_as id (sha256_hex content)
     ("reference://docs/" +:+ (if str_truthy (doc_id doc) then doc_id doc else "new")) doc in
   on_data (modify (fun t => mk_DocData (dset id stored (dd_docs t)) (dset id content (dd_blobs t)))) ;;
   ret stored).

Definition doc_not_found (id : string) : exn :=
  ConnectorExn (simple_error NotFoundError "reference_docstore" ("Document " +:+ py_repr id +:+ " not found.")).

Definition get_doc (id : string) : AM DocData W (Document * string) :=
  maybe_raise ;;
  (let! doc := on_data (gets (fun t => dget id (dd_docs t))) in
   let! blob := on_data (gets (fun t => dget id (dd_blobs t))) in
   match doc, blob with
   | Some d, Some b => ret (d, b)
   | _, _ => raise (doc_not_found id)
   end).

Definition move_doc (id folder : string) (acl : ACL) : AM DocData W Document :=
  maybe_raise ;;
  (let! doc := on_data (gets (fun t => dget id (dd_docs t))) in
   match doc with
   | None => raise (doc_not_found id)
   | Some d =>
       let moved := stored_as (doc_id d) (doc_checksum d)
         ("reference://docs/" +:+ folder +:+ "/" +:+ id) d in
       on_data (modify (fun t => mk_DocData (dset id moved (dd_docs t)) (dd_blobs t))) ;; ret moved
   end).

(** ** What the adapters promise *)

Definition healthy {T} (s : sys (Adapter T) W) : Prop := ad_inject_error (sys_store s) = None.

Lemma create_get_matter data s s' m :
  healthy s -> create_matter data s = (s', Ok m) ->
  healthy s' /\ get_matter (mt_id m) s' = (s', Ok m) /\ list_deadlines (mt_id m) s' = (s', Ok []) /\
  dget "reference" (mt_external_ids m) = Some (mt_id m).
Proof.
  unfold healthy, create_matter. intros Hh. rewrite no_fault by done.
  destruct s as [[[ms ds] i] w t u]. simpl in Hh. subst. intros [= <- <-]. simpl.
  split; [done|]. unfold get_matter, list_deadlines. rewrite !no_fault by done. cbn.
  unfold dmem. rewrite !dget_dset_eq. split; [reflexivity|]. split; [|done]. cbn. by rewrite dget_dset_eq.
Qed.

Lemma upsert_contact_idempotent c s s' c' :
  healthy s -> ct_id c <> EmptyString -> upsert_contact c s = (s', Ok c') ->
  c' = c /\ upsert_contact c s' = (s', Ok c).
Proof.
  unfold healthy, upsert_contact. intros Hh Hid. rewrite no_fault by done.
  unfold str_truthy. destruct (String.eqb_spec (ct_id c) EmptyString) as [|_]; [done|].
  destruct s as [[cs i] w t u]. simpl in Hh. subst. intros [= <- <-]. split; [done|].
  rewrite no_fault by done. cbn. by rewrite dset_dset_same.
Qed.

(** Sending under a key a second time returns the first message id and sends
    nothing, whatever draft is named. *)
Lemma send_idempotent draft_id draft_id' key s s1 mid :
  healthy s -> send draft_id key s = (s1, Ok mid) -> send draft_id' key s1 = (s1, Ok mid).
Proof.
  unfold healthy, send. intros Hh. rewrite no_fault by done.
  destruct s as [[[dr se] i] w t u]. simpl in Hh. subst. cbn.
  destruct (dget key se) as [m|] eqn:E; cbn.
  - intros [= <- <-]. cbn. by rewrite E.
  - destruct (dmem draft_id dr); cbn; [|done]. intros [= <- <-]. cbn. by rewrite dget_dset_eq.
Qed.

(** A stored document is found with its bytes and their checksum, and stays so
    when it is moved. *)
Lemma put_get_doc doc content s s1 d :
  healthy s -> put_doc doc content s = (s1, Ok d) ->
  get_doc (doc_id d) s1 = (s1, Ok (d, content)) /\ doc_checksum d = sha256_hex content /\
  forall folder acl, exists s2 d2, move_doc (doc_id d) folder acl s1 = (s2, Ok d2) /\
    get_doc (doc_id d) s2 = (s2, Ok (d2, content)) /\ doc_checksum d2 = doc_checksum d /\
    doc_uri d2 = "reference://docs/" +:+ folder +:+ "/" +:+ doc_id d.
Proof.
  unfold healthy, put_doc. intros Hh. rewrite no_fault by done.
  destruct s as [[[ds bs] i] w t u]. simpl in Hh. subst.
  destruct (str_truthy (doc_id doc)); cbn; intros [= <- <-]; cbn;
    rewrite !dget_dset_eq; (split; [done|]); (split; [done|]); intros folder acl;
    cbn; rewrite ?dget_dset_eq; eexists _, _; (split; [reflexivity|]); cbn;
    rewrite !dget_dset_eq; done.
Qed.

(** The uri of a document that came without an id ends in [new], not in the id
    the store gave it, so that two of them share a uri. *)
Lemma new_documents_share_uri doc content doc' content' s s1 s2 d d' :
  healthy s -> doc_id doc = EmptyString -> doc_id doc' = EmptyString ->
  put_doc doc content s = (s1, Ok d) -> put_doc doc' content' s1 = (s2, Ok d') ->
  doc_uri d = doc_uri d' /\ doc_id d = uuids (sys_uuids s) /\ doc_id d' = uuids (S (sys_uuids s)).
Proof.
  unfold healthy, put_doc. intros Hh E E'. rewrite no_fault by done.
  destruct s as [[[ds bs] i] w t u]. simpl in Hh. subst. rewrite E. cbn.
  intros [= <- <-]. rewrite no_fault by done. rewrite E'. cbn. by intros [= <- <-].
Qed.

End Reference.
