(* ===== verification/Ports.v ===== *)
(** * Ports: connectors/ports.py

    The connector ports as interfaces over the outside world [V]: one class per
    protocol.  [EmailLaws] is what the email port documents of [send]: it is
    idempotent on its key.  [RefWorld] is a world of the four reference adapters
    and an audit log; it implements every port and satisfies the law. *)

From Stdlib Require Import ZArith Lia Ascii String List.
From stdpp Require Import base list strings.
From S2P Require Import Prelude PyTime ConnErrors Effects Domain Reference.

Open Scope string_scope.
Open Scope list_scope.
Open Scope Z_scope.
Open Scope cam_scope.

Class CaseConnector (V : Type) := {
  cc_get_matter : string -> M V Matter;
  cc_create_matter : MatterDraft -> M V Matter;
  cc_list_deadlines : string -> M V (list Deadline) }.

Class CRMConnector (V : Type) := {
  crm_upsert_contact : Contact -> M V Contact;
  crm_find_contact : string -> M V (list Contact) }.

Class EmailConnector (V : Type) := {
  ec_create_draft : Communication -> M V string;
  ec_send : string -> string -> M V string }.

Class DocStoreConnector (V : Type) := {
  ds_put : Document -> string -> M V Document;
  ds_get : string -> M V (Document * string);
  ds_move : string -> string -> ACL -> M V Document }.

(** The messages a mail system has sent, by idempotency key.  A draft sends
    nothing; a send touches its own key only, what is recorded under a key never
    changes, and a send that returns has recorded what it returns. *)
Class EmailLaws (V : Type) `{EmailConnector V} := {
  ec_sent : V -> dict string string;
  draft_sends_nothing c v : ec_sent (fst (ec_create_draft c v)) = ec_sent v;
  send_other_keys d k k' v : k' <> k -> dget k' (ec_sent (fst (ec_send d k v))) = dget k' (ec_sent v);
  send_keeps d k v m : dget k (ec_sent v) = Some m -> dget k (ec_sent (fst (ec_send d k v))) = Some m;
  send_records d k v v' m : ec_send d k v = (v', Ok m) -> dget k (ec_sent v') = Some m }.

Section Unsent.
Context {V : Type} {EC : EmailConnector V} {EL : EmailLaws V}.

(** A call of the outside world that leaves the sent messages as they are. *)
Definition sends_nothing {A} (m : M V A) : Prop := forall v, ec_sent (fst (m v)) = ec_sent v.

Definition unsent {T} (L : dict string string) : sys T V -> Prop := world_sat (fun v => ec_sent v = L).

Lemma unsent_on_world {T A} L (m : M V A) : sends_nothing m -> keeps (unsent (T := T) L) (on_world m).
Proof. intros Hm. apply world_on_world. intros v <-. apply Hm. Qed.

Lemma unsent_on_store {T A} L (m : M T A) : keeps (unsent L) (on_store m).
Proof. apply world_on_store. Qed.

Lemma unsent_get_now {T} L clock : keeps (unsent (T := T) L) (get_now clock).
Proof. apply world_get_now. Qed.

Lemma unsent_uuid4 {T} L uuids : keeps (unsent (T := T) L) (uuid4 uuids).
Proof. apply world_uuid4. Qed.

Lemma draft_unsent c : sends_nothing (ec_create_draft c).
Proof. intros v. apply draft_sends_nothing. Qed.
End Unsent.

#[export] Hint Resolve unsent_on_world unsent_on_store unsent_get_now unsent_uuid4 draft_unsent : cam.

(** Step through a handler: what each call keeps, the handler keeps. *)
Ltac keep_going := repeat first
  [ apply keeps_ret | apply keeps_bind; [solve [auto with cam] | intros ?] | case_match ].

(** ** The reference adapters as one world *)

Record RefWorld := mk_RefWorld {
  rw_case : Adapter CaseData;
  rw_crm : Adapter CrmData;
  rw_email : Adapter EmailData;
  rw_docs : Adapter DocData;
  rw_audit : list AuditEvent;
  rw_uuids : nat }.

Definition set_case (a : Adapter CaseData) (w : RefWorld) : RefWorld :=
  mk_RefWorld a (rw_crm w) (rw_email w) (rw_docs w) (rw_audit w) (rw_uuids w).
Definition set_crm (a : Adapter CrmData) (w : RefWorld) : RefWorld :=
  mk_RefWorld (rw_case w) a (rw_email w) (rw_docs w) (rw_audit w) (rw_uuids w).
Definition set_email (a : Adapter EmailData) (w : RefWorld) : RefWorld :=
  mk_RefWorld (rw_case w) (rw_crm w) a (rw_docs w) (rw_audit w) (rw_uuids w).
Definition set_docs (a : Adapter DocData) (w : RefWorld) : RefWorld :=
  mk_RefWorld (rw_case w) (rw_crm w) (rw_email w) a (rw_audit w) (rw_uuids w).
Definition set_rw_uuids (n : nat) (w : RefWorld) : RefWorld :=
  mk_RefWorld (rw_case w) (rw_crm w) (rw_email w) (rw_docs w) (rw_audit w) n.

(** An adapter's computation in this world; all draw on one supply of uuids. *)
Definition on_adapter {T A} (g : RefWorld -> Adapter T) (p : Adapter T -> RefWorld -> RefWorld)
    (m : AM T unit A) : M RefWorld A := fun w =>
  let '(s, r) := m (mk_sys (g w) tt 0 (rw_uuids w)) in
  (set_rw_uuids (sys_uuids s) (p (sys_store s) w), r).

(** The audit service as a callback that appends. *)
Definition ref_audit (ev : AuditEvent) : M RefWorld unit :=
  modify (fun w => mk_RefWorld (rw_case w) (rw_crm w) (rw_email w) (rw_docs w)
                     (rw_audit w ++ [ev]) (rw_uuids w)).

Definition empty_ref_world : RefWorld :=
  mk_RefWorld (mk_Adapter (mk_CaseData [] []) None) (mk_Adapter [] None)
    (mk_Adapter (mk_EmailData [] []) None) (mk_Adapter (mk_DocData [] []) None) [] 0.

Section RefPorts.
Context (uuids : nat -> string) (sha256_hex : string -> string).

Definition ref_case : CaseConnector RefWorld := {|
  cc_get_matter id := on_adapter rw_case set_case (get_matter id);
  cc_create_matter d := on_adapter rw_case set_case (create_matter uuids d);
  cc_list_deadlines id := on_adapter rw_case set_case (list_deadlines id) |}.

Definition ref_crm : CRMConnector RefWorld := {|
  crm_upsert_contact c := on_adapter rw_crm set_crm (upsert_contact uuids c);
  crm_find_contact q := on_adapter rw_crm set_crm (find_contact q) |}.

Definition ref_email : EmailConnector RefWorld := {|
  ec_create_draft c := on_adapter rw_email set_email (create_draft uuids c);
  ec_send d k := on_adapter rw_email set_email (send uuids d k) |}.

Definition ref_docs : DocStoreConnector RefWorld := {|
  ds_put d b := on_adapter rw_docs set_docs (put_doc uuids sha256_hex d b);
  ds_get id := on_adapter rw_docs set_docs (get_doc id);
  ds_move id folder acl := on_adapter rw_docs set_docs (move_doc id folder acl) |}.

Definition ref_sent (w : RefWorld) : dict string string := em_sent (ad_data (rw_email w)).

(** What one call of [send] does to the record of sent messages. *)
Lemma ref_send_sent d k w :
  let r := ec_send (EmailConnector := ref_email) d k w in
  match dget k (ref_sent w) with
  | Some m => ref_sent (fst r) = ref_sent w /\ (forall m', snd r = Ok m' -> m' = m)
  | None => (exists m, snd r = Ok m /\ ref_sent (fst r) = dset k m (ref_sent w)) \/
            (ref_sent (fst r) = ref_sent w /\ exists e, snd r = Err e)
  end.
Proof.
  unfold ref_sent. destruct w as [ca cr [[dr se] inj] dc au n]. cbn.
  unfold on_adapter, send, maybe_raise, bind, on_data, on_store, zoom, gets. cbn.
  destruct inj as [e|]; cbn; [destruct (dget k se); cbn; eauto; by split|].
  destruct (dget k se) as [m|] eqn:E; cbn; [split; [done|]; by intros m' [= <-]|].
  destruct (dmem d dr); cbn; eauto.
Qed.

Lemma ref_email_laws : EmailLaws RefWorld (H := ref_email).
Proof.
  refine (Build_EmailLaws _ ref_email ref_sent _ _ _ _).
  - intros c [ca cr [[dr se] inj] dc au n]. by destruct inj.
  - intros d k k' v Hne. pose proof (ref_send_sent d k v) as H. cbn in H |- *.
    destruct (dget k (ref_sent v)); [by destruct H as [-> _]|].
    destruct H as [(m & _ & ->)|[-> _]]; [by apply dget_dset_ne|done].
  - intros d k v m Hm. pose proof (ref_send_sent d k v) as H. cbn in H |- *. rewrite Hm in H.
    by destruct H as [-> _].
  - intros d k v v' m E. pose proof (ref_send_sent d k v) as H. cbn in H, E. rewrite E in H.
    cbn in H. destruct (dget k (ref_sent v)) as [m0|] eqn:E0.
    + destruct H as [-> H]. by rewrite (H m eq_refl).
    + destruct H as [(m1 & [= ->] & ->)|[_ (e & ?)]]; [apply dget_dset_eq|done].
Defined.
End RefPorts.
