(* ===== verification/Repos.v ===== *)
(** * Repos: the domain repositories of persistence/

    persistence/models.py (the six entity tables), _repositories_legacy.py (the
    mapping between rows and domain entities and the six repositories) and
    uow.py.  The code of the six repositories differs in the table, the mapping
    and the columns [update] assigns only, so the operations are written once
    over a [Mapping].  The database is the interface [RepoOps] of a SQLAlchemy
    session with the documented laws.  Proved: what each operation does to what
    later reads return, for every repository; how a matter is assembled from
    three tables; a unit of work stores everything or nothing. *)

From Stdlib Require Import ZArith Lia Ascii String List.
From stdpp Require Import base list strings.
From S2P Require Import Prelude PyTime Effects Domain PgStore.

Open Scope string_scope.
Open Scope list_scope.
Open Scope Z_scope.
Open Scope cam_scope.

(** ** Rows *)

Record ContactORM := mk_ContactORM {
  oc_id : string; oc_source : string; oc_name : string; oc_email : option string;
  oc_phone : option string; oc_role : option string; oc_external_ids : jdict }.

Record MatterORM := mk_MatterORM {
  om_id : string; om_source : string; om_reference : string; om_title : string;
  om_status : string; om_practice_area : option string; om_client_id : string;
  om_responsible : option string; om_opened_at : datetime; om_external_ids : jdict }.

Record DocumentORM := mk_DocumentORM {
  oo_id : string; oo_matter_id : string; oo_name : string; oo_mime_type : string; oo_uri : string;
  oo_classification : option string; oo_version : Z; oo_privileged : bool; oo_checksum : string;
  oo_created_at : datetime }.

Record DeadlineORM := mk_DeadlineORM {
  oe_id : string; oe_matter_id : string; oe_name : string; oe_due_at : datetime;
  oe_rule_id : option string; oe_status : string; oe_escalation_level : Z }.

Record CommunicationORM := mk_CommunicationORM {
  ou_id : string; ou_matter_id : option string; ou_direction : string; ou_channel : string;
  ou_subject : option string; ou_body : string; ou_status : string; ou_participants : list jdict }.

Record TaskORM := mk_TaskORM {
  ok_id : string; ok_matter_id : string; ok_title : string; ok_assignee : option string;
  ok_due_at : option datetime; ok_status : string }.

Record RepoDb := mk_RepoDb {
  rd_contacts : list ContactORM;
  rd_matters : list MatterORM;
  rd_documents : list DocumentORM;
  rd_deadlines : list DeadlineORM;
  rd_communications : list CommunicationORM;
  rd_tasks : list TaskORM }.

(** A table: its primary key, its place in the database, the foreign keys a new
    row must satisfy, and what deleting a row does to the rows that refer to it:
    SQLAlchemy sets their foreign key to NULL, which a NOT NULL column refuses. *)
Class Table (R : Type) := {
  t_id : R -> string;
  t_rows : RepoDb -> list R;
  t_put : list R -> RepoDb -> RepoDb;
  t_refs : R -> RepoDb -> bool;
  t_detach : string -> RepoDb -> option RepoDb }.

Definition has_id {R} `{Table R} (id : string) (r : R) : bool := String.eqb (t_id r) id.

Definition with_contacts l d :=
  mk_RepoDb l (rd_matters d) (rd_documents d) (rd_deadlines d) (rd_communications d) (rd_tasks d).
Definition with_matters l d :=
  mk_RepoDb (rd_contacts d) l (rd_documents d) (rd_deadlines d) (rd_communications d) (rd_tasks d).
Definition with_documents l d :=
  mk_RepoDb (rd_contacts d) (rd_matters d) l (rd_deadlines d) (rd_communications d) (rd_tasks d).
Definition with_deadlines l d :=
  mk_RepoDb (rd_contacts d) (rd_matters d) (rd_documents d) l (rd_communications d) (rd_tasks d).
Definition with_communications l d :=
  mk_RepoDb (rd_contacts d) (rd_matters d) (rd_documents d) (rd_deadlines d) l (rd_tasks d).
Definition with_tasks l d :=
  mk_RepoDb (rd_contacts d) (rd_matters d) (rd_documents d) (rd_deadlines d) (rd_communications d) l.

Definition matter_exists (id : string) (d : RepoDb) : bool :=
  existsb (fun m => String.eqb (om_id m) id) (rd_matters d).

#[export] Instance contact_table : Table ContactORM := {
  t_id := oc_id; t_rows := rd_contacts; t_put := with_contacts;
  t_refs _ _ := true;
  t_detach id d :=
    if existsb (fun m => String.eqb (om_client_id m) id) (rd_matters d) then None else Some d }.

Definition orphan (id : string) (u : CommunicationORM) : CommunicationORM :=
  mk_CommunicationORM (ou_id u)
    (match ou_matter_id u with Some m => if String.eqb m id then None else Some m | None => None end)
    (ou_direction u) (ou_channel u) (ou_subject u) (ou_body u) (ou_status u) (ou_participants u).

#[export] Instance matter_table : Table MatterORM := {
  t_id := om_id; t_rows := rd_matters; t_put := with_matters;
  t_refs m d := existsb (fun c => String.eqb (oc_id c) (om_client_id m)) (rd_contacts d);
  t_detach id d :=
    if existsb (fun o => String.eqb (oo_matter_id o) id) (rd_documents d)
       || existsb (fun e => String.eqb (oe_matter_id e) id) (rd_deadlines d)
       || existsb (fun k => String.eqb (ok_matter_id k) id) (rd_tasks d)
    then None
    else Some (with_communications (map (orphan id) (rd_communications d)) d) }.

#[export] Instance document_table : Table DocumentORM := {
  t_id := oo_id; t_rows := rd_documents; t_put := with_documents;
  t_refs o d := matter_exists (oo_matter_id o) d; t_detach _ d := Some d }.

#[export] Instance deadline_table : Table DeadlineORM := {
  t_id := oe_id; t_rows := rd_deadlines; t_put := with_deadlines;
  t_refs e d := matter_exists (oe_matter_id e) d; t_detach _ d := Some d }.

#[export] Instance communication_table : Table CommunicationORM := {
  t_id := ou_id; t_rows := rd_communications; t_put := with_communications;
  t_refs u d := match ou_matter_id u with Some m => matter_exists m d | None => true end;
  t_detach _ d := Some d }.

#[export] Instance task_table : Table TaskORM := {
  t_id := ok_id; t_rows := rd_tasks; t_put := with_tasks;
  t_refs k d := matter_exists (ok_matter_id k) d; t_detach _ d := Some d }.

(** ** The session *)

Inductive rstmt :=
| RIns {R} `{Table R} (r : R)
| RUpd {R} `{Table R} (id : string) (f : R -> R)
| RDel {R} `{Table R} (id : string).

Definition apply_rstmt (st : rstmt) (d : RepoDb) : option RepoDb :=
  match st with
  | RIns r =>
      if t_refs r d && negb (existsb (has_id (t_id r)) (t_rows d))
      then Some (t_put (t_rows d ++ [r]) d) else None
  | RUpd id f => option_map (fun l => t_put l d) (update_where (has_id id) f (t_rows d))
  | @RDel R _ id =>
      option_map (fun d' => t_put (bfilter (fun r : R => negb (has_id id r)) (t_rows d')) d')
        (t_detach (R := R) id d)
  end.

Class RepoOps (D : Type) := {
  rp_select : forall {A : Type}, (RepoDb -> list A) -> M D (list A);
  rp_flush : rstmt -> M D unit;
  rp_rows : D -> RepoDb;
  rp_up : D -> Prop }.

(** ** Rows and entities *)

Definition deadline_status_value (s : DeadlineStatus) : string :=
  match s with DPending => "pending" | DReminded => "reminded" | DDone => "done" | DMissed => "missed" end.

Definition deadline_status_of (v : string) : res DeadlineStatus :=
  or_raise (ValidationError "status")
    (dget v [("pending", DPending); ("reminded", DReminded); ("done", DDone); ("missed", DMissed)]).

Definition direction_value (d : Direction) : string := match d with DirIn => "in" | DirOut => "out" end.

Definition direction_of (v : string) : res Direction :=
  or_raise (ValidationError "direction") (dget v [("in", DirIn); ("out", DirOut)]).

(** A field of type [dict[str, str]]. *)
Definition ids_of_json (d : jdict) : res (dict string string) :=
  map_res (fun p => match p.2 with JStr s => Ok (p.1, s) | _ => Err (ValidationError "external_ids") end) d.

Definition dump_ids_map (d : dict string string) : jdict := map (fun p => (p.1, JStr p.2)) d.

#[global] Arguments ids_of_json d : simpl never.
#[global] Arguments dump_ids_map d : simpl never.

Section Mapping.
(** The validator behind [EmailStr]. *)
Context (email_validate : string -> res string).

Definition validated_email (o : option string) : res (option string) :=
  match o with Some e => letr! e := email_validate e in Ok (Some e) | None => Ok None end.

Definition contact_to_domain (r : ContactORM) : res Contact :=
  letr! email := validated_email (oc_email r) in
  letr! ids := ids_of_json (oc_external_ids r) in
  Ok (mk_Contact (oc_id r) (oc_source r) (oc_name r) email (oc_phone r) (oc_role r) ids).

(** [str(domain.email) if domain.email else None] *)
Definition some_email (o : option string) : option string := if opt_truthy o then o else None.

Definition contact_from_domain (c : Contact) : ContactORM :=
  mk_ContactORM (ct_id c) (ct_source c) (ct_name c) (some_email (ct_email c)) (ct_phone c) (ct_role c)
    (dump_ids_map (ct_external_ids c)).

Definition deadline_to_domain (r : DeadlineORM) : res Deadline :=
  letr! status := deadline_status_of (oe_status r) in
  Ok (mk_Deadline (oe_id r) (oe_matter_id r) (oe_name r) (oe_due_at r) (oe_rule_id r) status
        (oe_escalation_level r)).

(** A loaded matter: its row, [client_rel] and [deadlines]. *)
Record LoadedMatter := mk_LoadedMatter {
  lm_row : MatterORM; lm_client : option ContactORM; lm_deadlines : list DeadlineORM }.

Definition matter_to_domain (l : LoadedMatter) : res Matter :=
  let r := lm_row l in
  letr! client_row := or_raise (AttributeError "id") (lm_client l) in
  letr! client := contact_to_domain client_row in
  letr! key_dates := map_res deadline_to_domain (lm_deadlines l) in
  letr! ids := ids_of_json (om_external_ids r) in
  Ok (mk_Matter (om_id r) (om_source r) (om_reference r) (om_title r) (om_status r)
        (om_practice_area r) client (om_responsible r) (om_opened_at r) key_dates ids).

Definition document_to_domain (r : DocumentORM) : res Document :=
  Ok (mk_Document (oo_id r) (oo_matter_id r) (oo_name r) (oo_mime_type r) (oo_uri r)
        (oo_classification r) (oo_version r) (oo_privileged r) (oo_checksum r) (oo_created_at r)).

(** [Contact.model_dump()] and [Contact.model_validate]. *)
Definition dump_participant (c : Contact) : jdict :=
  [("id", JStr (ct_id c)); ("source", JStr (ct_source c)); ("name", JStr (ct_name c));
   ("email", jopt (ct_email c)); ("phone", jopt (ct_phone c)); ("role", jopt (ct_role c));
   ("external_ids", JDict (dump_ids_map (ct_external_ids c)))].

Definition validate_participant (d : jdict) : res Contact :=
  letr! id := str_field "id" d in
  letr! source := str_field "source" d in
  letr! name := str_field "name" d in
  letr! email := opt_str_field "email" d in
  letr! email := validated_email email in
  letr! phone := opt_str_field "phone" d in
  letr! role := opt_str_field "role" d in
  letr! ids := match dget "external_ids" d with
               | None => Ok []
               | Some (JDict x) => ids_of_json x
               | Some _ => Err (ValidationError "external_ids")
               end in
  Ok (mk_Contact id source name email phone role ids).

Definition communication_to_domain (r : CommunicationORM) : res Communication :=
  letr! participants := map_res validate_participant (ou_participants r) in
  letr! direction := direction_of (ou_direction r) in
  Ok (mk_Communication (ou_id r) (ou_matter_id r) direction (ou_channel r) (ou_subject r) (ou_body r)
        (ou_status r) participants).

Definition task_to_domain (r : TaskORM) : res Task :=
  Ok (mk_Task (ok_id r) (ok_matter_id r) (ok_title r) (ok_assignee r) (ok_due_at r) (ok_status r)).

End Mapping.

(** ** The repositories *)

Record Repository (D E : Type) := mk_Repository {
  r_get : string -> M D (option E);
  r_list : jdict -> M D (list E);
  r_add : E -> M D E;
  r_update : E -> M D E;
  r_delete : string -> M D unit }.
Arguments mk_Repository {D E}.
Arguments r_get {D E}.
Arguments r_list {D E}.
Arguments r_add {D E}.
Arguments r_update {D E}.
Arguments r_delete {D E}.

(** What the classes differ in: the name of the entity, its key, the row made of
    a new entity, what a read loads with the row, the entity made of it, and the
    columns [update] assigns.  The methods are the same five over it. *)
Record Mapping (D E R L : Type) := mk_Mapping {
  mp_label : string;
  mp_id : E -> string;
  mp_from : E -> R;
  mp_load : R -> M D L;
  mp_to : L -> res E;
  mp_assign : E -> R -> R }.
Arguments mk_Mapping {D E R L}.
Arguments mp_label {D E R L}.
Arguments mp_id {D E R L}.
Arguments mp_from {D E R L}.
Arguments mp_load {D E R L}.
Arguments mp_to {D E R L}.
Arguments mp_assign {D E R L}.

Section Repository.
Context {D : Type} {RO : RepoOps D} {E R L : Type} {T : Table R} (m : Mapping D E R L).

(** [session.get(ORM, id)] *)
Definition session_get (id : string) : M D (option R) :=
  let! rows := rp_select (fun d => bfilter (has_id id) (t_rows d)) in ret (head rows).

Definition repo_get (id : string) : M D (option E) :=
  let! row := session_get id in
  match row with
  | Some r =>
      let! l := mp_load m r in
      let! e := lift_res (mp_to m l) in
      ret (Some e)
  | None => ret None
  end.

(** The filters are accepted and not used. *)
Definition repo_list (filters : jdict) : M D (list E) :=
  let! rows := rp_select t_rows in
  let! ls := map_m (mp_load m) rows in
  lift_res (map_res (mp_to m) ls).

Definition repo_add (e : E) : M D E :=
  rp_flush (RIns (mp_from m e)) ;; ret e.

Definition repo_update (e : E) : M D E :=
  let! existing := session_get (mp_id m e) in
  match existing with
  | None => raise (ValueError (mp_label m +:+ " not found."))
  | Some _ => rp_flush (RUpd (mp_id m e) (mp_assign m e)) ;; ret e
  end.

Definition repo_delete (id : string) : M D unit :=
  let! existing := session_get id in
  match existing with
  | Some _ => rp_flush (RDel (R := R) id)
  | None => ret tt
  end.

Definition repository_of : Repository D E :=
  mk_Repository repo_get repo_list repo_add repo_update repo_delete.

End Repository.

Section Repositories.
Context {D : Type} {RO : RepoOps D} (email_validate : string -> res string).

Definition assign_contact (c : Contact) (r : ContactORM) : ContactORM :=
  mk_ContactORM (oc_id r) (ct_source c) (ct_name c) (some_email (ct_email c)) (ct_phone c) (ct_role c)
    (dump_ids_map (ct_external_ids c)).

Definition contact_mapping : Mapping D Contact ContactORM ContactORM :=
  mk_Mapping "Contact" ct_id contact_from_domain ret (contact_to_domain email_validate) assign_contact.

Definition ContactRepository : Repository D Contact := repository_of contact_mapping.

Definition matter_from_domain (e : Matter) : MatterORM :=
  mk_MatterORM (mt_id e) (mt_source e) (mt_reference e) (mt_title e) (mt_status e)
    (mt_practice_area e) (ct_id (mt_client e)) (mt_responsible e) (mt_opened_at e)
    (dump_ids_map (mt_external_ids e)).

(** [selectinload(client_rel)] and [selectinload(deadlines)] *)
Definition load_matter (r : MatterORM) : M D LoadedMatter :=
  let! client := rp_select (fun d => bfilter (has_id (om_client_id r)) (rd_contacts d)) in
  let! deadlines := rp_select
    (fun d => bfilter (fun e => String.eqb (oe_matter_id e) (om_id r)) (rd_deadlines d)) in
  ret (mk_LoadedMatter r (head client) deadlines).

Definition assign_matter (e : Matter) (r : MatterORM) : MatterORM :=
  mk_MatterORM (om_id r) (om_source r) (om_reference r) (om_title r) (mt_status e)
    (mt_practice_area e) (om_client_id r) (mt_responsible e) (om_opened_at r)
    (dump_ids_map (mt_external_ids e)).

Definition matter_mapping : Mapping D Matter MatterORM LoadedMatter :=
  mk_Mapping "Matter" mt_id matter_from_domain load_matter (matter_to_domain email_validate)
    assign_matter.

Definition MatterRepository : Repository D Matter := repository_of matter_mapping.

Definition document_from_domain (e : Document) : DocumentORM :=
  mk_DocumentORM (doc_id e) (doc_matter_id e) (doc_name e) (doc_mime_type e) (doc_uri e)
    (doc_classification e) (doc_version e) (doc_privileged e) (doc_checksum e) (doc_created_at e).

Definition assign_document (e : Document) (r : DocumentORM) : DocumentORM :=
  mk_DocumentORM (oo_id r) (oo_matter_id r) (oo_name r) (oo_mime_type r) (oo_uri r)
    (doc_classification e) (doc_version e) (doc_privileged e) (doc_checksum e) (oo_created_at r).

Definition document_mapping : Mapping D Document DocumentORM DocumentORM :=
  mk_Mapping "Document" doc_id document_from_domain ret document_to_domain assign_document.

Definition DocumentRepository : Repository D Document := repository_of document_mapping.

Definition deadline_from_domain (e : Deadline) : DeadlineORM :=
  mk_DeadlineORM (d_id e) (d_matter_id e) (d_name e) (d_due_at e) (d_rule_id e)
    (deadline_status_value (d_status e)) (d_escalation_level e).

Definition assign_deadline (e : Deadline) (r : DeadlineORM) : DeadlineORM :=
  mk_DeadlineORM (oe_id r) (oe_matter_id r) (oe_name r) (oe_due_at r) (oe_rule_id r)
    (deadline_status_value (d_status e)) (d_escalation_level e).

Definition deadline_mapping : Mapping D Deadline DeadlineORM DeadlineORM :=
  mk_Mapping "Deadline" d_id deadline_from_domain ret deadline_to_domain assign_deadline.

Definition DeadlineRepository : Repository D Deadline := repository_of deadline_mapping.

Definition communication_from_domain (e : Communication) : CommunicationORM :=
  mk_CommunicationORM (cm_id e) (cm_matter_id e) (direction_value (cm_direction e)) (cm_channel e)
    (cm_subject e) (cm_body e) (cm_status e) (map dump_participant (cm_participants e)).

Definition assign_communication (e : Communication) (r : CommunicationORM) : CommunicationORM :=
  mk_CommunicationORM (ou_id r) (ou_matter_id r) (ou_direction r) (ou_channel r) (ou_subject r)
    (ou_body r) (cm_status e) (map dump_participant (cm_participants e)).

Definition communication_mapping : Mapping D Communication CommunicationORM CommunicationORM :=
  mk_Mapping "Communication" cm_id communication_from_domain ret
    (communication_to_domain email_validate) assign_communication.

Definition CommunicationRepository : Repository D Communication := repository_of communication_mapping.

Definition task_from_domain (e : Task) : TaskORM :=
  mk_TaskORM (tk_id e) (tk_matter_id e) (tk_title e) (tk_assignee e) (tk_due_at e) (tk_status e).

Definition assign_task (e : Task) (r : TaskORM) : TaskORM :=
  mk_TaskORM (ok_id r) (ok_matter_id r) (tk_title e) (tk_assignee e) (tk_due_at e) (tk_status e).

Definition task_mapping : Mapping D Task TaskORM TaskORM :=
  mk_Mapping "Task" tk_id task_from_domain ret task_to_domain assign_task.

Definition TaskRepository : Repository D Task := repository_of task_mapping.

End Repositories.

(** ** uow.py: one transaction per unit of work *)

Class TxOps (D : Type) `{RepoOps D} := {
  tx_begin : M D unit;
  tx_commit : M D unit;
  tx_rollback : D -> D }.

Section UnitOfWork.
Context {D : Type} `{TxOps D}.

(** [session.begin()]: commit when the block ends, roll back when it or the
    commit raises. *)
Definition in_transaction {A} (body : M D A) : M D A := fun d =>
  match tx_begin d with
  | (d0, Err e) => (d0, Err e)
  | (d0, Ok tt) =>
      match body d0 with
      | (d1, Ok a) =>
          match tx_commit d1 with
          | (d2, Ok tt) => (d2, Ok a)
          | (d2, Err e) => (tx_rollback d2, Err e)
          end
      | (d1, Err e) => (tx_rollback d1, Err e)
      end
  end.

(** [_session_factory] is set by [configure_db]. *)
Definition unit_of_work {A} (factory : option D) (body : M D A) : option D * res A :=
  match factory with
  | None => (None, Err (RuntimeError "Database not configured.  Call configure_db() at startup."))
  | Some d => let '(d', r) := in_transaction body d in (Some d', r)
  end.

End UnitOfWork.

(** ** The tables' laws *)

Definition keys {R} `{Table R} (d : RepoDb) : list string := map t_id (t_rows d).

(** Primary keys are unique in every table. *)
Definition keys_unique (d : RepoDb) : Prop :=
  NoDup (keys (R := ContactORM) d) /\ NoDup (keys (R := MatterORM) d) /\
  NoDup (keys (R := DocumentORM) d) /\ NoDup (keys (R := DeadlineORM) d) /\
  NoDup (keys (R := CommunicationORM) d) /\ NoDup (keys (R := TaskORM) d).

Class TableLaws (R : Type) `{Table R} := {
  rows_put l d : t_rows (t_put l d) = l;
  put_unique l d : keys_unique d -> NoDup (map t_id l) -> keys_unique (t_put l d);
  unique_rows d : keys_unique d -> NoDup (keys (R := R) d);
  detach_rows id d d' : t_detach (R := R) id d = Some d' -> t_rows (R := R) d' = t_rows d;
  detach_unique id d d' : t_detach (R := R) id d = Some d' -> keys_unique d -> keys_unique d' }.

Ltac table_laws :=
  split; [done | intros ?? (? & ? & ? & ? & ? & ?) ?; by repeat split
         | intros ? (? & ? & ? & ? & ? & ?); done
         | intros ???; cbn; try (case_match; [done|]); by intros [= <-]
         | intros ???; cbn; try (case_match; [done|]); by intros [= <-] ].

#[export] Instance contact_table_laws : TableLaws ContactORM.
Proof. table_laws. Qed.
#[export] Instance document_table_laws : TableLaws DocumentORM.
Proof. table_laws. Qed.
#[export] Instance deadline_table_laws : TableLaws DeadlineORM.
Proof. table_laws. Qed.
#[export] Instance communication_table_laws : TableLaws CommunicationORM.
Proof. table_laws. Qed.
#[export] Instance task_table_laws : TableLaws TaskORM.
Proof. table_laws. Qed.

#[export] Instance matter_table_laws : TableLaws MatterORM.
Proof.
  split; [done | intros ?? (? & ? & ? & ? & ? & ?) ?; by repeat split
         | intros ? (? & ? & ? & ? & ? & ?); done
         | intros id d d'; cbn; case_match; [done|]; by intros [= <-] |].
  intros id d d'. cbn. case_match; [done|]. intros [= <-] (? & ? & ? & ? & Hu & ?).
  repeat split; try done. unfold keys in *. cbn in *. by rewrite map_map.
Qed.

(** The row with a given primary key. *)
Definition row_of {R} `{Table R} (id : string) (d : RepoDb) : option R :=
  head (bfilter (has_id id) (t_rows d)).

Section Rows.
Context {R : Type} `{TL : TableLaws R}.

Lemma has_id_true id (r : R) : has_id id r = true <-> t_id r = id.
Proof. apply String.eqb_eq. Qed.

Lemma has_id_false id (r : R) : has_id id r = false <-> t_id r <> id.
Proof. apply String.eqb_neq. Qed.

Lemma unique_row id (l : list R) :
  NoDup (map t_id l) -> bfilter (has_id id) l = [] \/ exists r, bfilter (has_id id) l = [r] /\ t_id r = id.
Proof.
  induction l as [|r l IH]; [by left|]. intros [Hni Hnd]%NoDup_cons. rewrite bfilter_cons.
  destruct (has_id id r) eqn:E; [|by apply IH]. right. exists r. apply has_id_true in E.
  split; [|done]. f_equal. apply bfilter_none. intros x Hx. apply has_id_false. intros Hxi.
  apply Hni. apply list_elem_of_fmap. exists x. split; [congruence|done].
Qed.

Lemma row_of_id id d r : row_of id d = Some r -> t_id r = id.
Proof.
  unfold row_of. induction (t_rows d) as [|x l IH]; [done|]. rewrite bfilter_cons.
  destruct (has_id id x) eqn:E; [|done]. intros [= <-]. by apply has_id_true.
Qed.

Lemma exists_row id (d : RepoDb) :
  existsb (has_id id) (t_rows (R := R) d) = match row_of (R := R) id d with Some _ => true | None => false end.
Proof.
  unfold row_of. induction (t_rows d) as [|x l IH]; [done|]. rewrite bfilter_cons. simpl.
  by destruct (has_id id x).
Qed.

Lemma row_put id l d : row_of (R := R) id (t_put l d) = head (bfilter (has_id id) l).
Proof. unfold row_of. by rewrite rows_put. Qed.

Lemma ins_row (r : R) d rows :
  apply_rstmt (RIns r) d = Some rows ->
  forall id, row_of id rows = if String.eqb id (t_id r) then Some r else row_of id d.
Proof.
  cbn. destruct (t_refs r d && _) eqn:E; [|done]. intros [= <-] id. simpl_bool.
  rewrite exists_row in *. rewrite row_put, bfilter_app. destruct (String.eqb_spec id (t_id r)) as [->|Hne].
  - unfold row_of in *. destruct (bfilter (has_id (t_id r)) (t_rows d)); [|done]. rewrite bfilter_cons.
    assert (has_id (t_id r) r = true) as -> by by apply has_id_true. done.
  - rewrite bfilter_cons. assert (has_id id r = false) as -> by (apply has_id_false; congruence).
    unfold row_of. by rewrite app_nil_r.
Qed.

Lemma ins_unique (r : R) d rows :
  keys_unique d -> apply_rstmt (RIns r) d = Some rows -> keys_unique rows.
Proof.
  intros Hu. cbn. destruct (t_refs r d && _) eqn:E; [|done]. intros [= <-]. simpl_bool.
  apply put_unique; [done|]. rewrite map_app. apply NoDup_app. split; [by apply unique_rows|].
  split; [|apply NoDup_singleton]. intros x Hx ->%list_elem_of_singleton.
  apply list_elem_of_fmap in Hx as (r' & Hid & Hr').
  assert (existsb (has_id (t_id r)) (t_rows d) = true); [|congruence].
  apply existsb_exists. exists r'. split; [by apply list_elem_of_In | by apply has_id_true].
Qed.

Lemma map_keys (f : R -> R) (p : R -> bool) l :
  (forall r, t_id (f r) = t_id r) -> map t_id (map (fun x => if p x then f x else x) l) = map t_id l.
Proof. intros Hf. rewrite map_map. apply map_ext. intros r. by destruct (p r). Qed.

Lemma upd_some id (f : R -> R) d :
  row_of (R := R) id d <> None -> exists rows, apply_rstmt (RUpd id f) d = Some rows.
Proof.
  intros Hr. cbn. unfold update_where. rewrite exists_row. destruct (row_of id d); [by eexists|done].
Qed.

Lemma upd_row id (f : R -> R) d rows :
  (forall r, t_id (f r) = t_id r) -> apply_rstmt (RUpd id f) d = Some rows ->
  forall id', row_of id' rows = if String.eqb id' id then option_map f (row_of id d) else row_of id' d.
Proof.
  intros Hf. cbn. unfold update_where. destruct (existsb _ _); [|done]. intros [= <-] id'.
  rewrite row_put. unfold row_of. induction (t_rows d) as [|x l IH]; [by destruct (String.eqb id' id)|].
  cbn [map]. rewrite !bfilter_cons. destruct (has_id id x) eqn:E; [rewrite has_id_true in E | rewrite has_id_false in E].
  - destruct (String.eqb_spec id' id) as [->|Hne].
    + assert (has_id id (f x) = true) as -> by (apply has_id_true; by rewrite Hf). done.
    + assert (has_id id' (f x) = false) as -> by (apply has_id_false; rewrite Hf; congruence).
      assert (has_id id' x = false) as -> by (apply has_id_false; congruence). exact IH.
  - destruct (has_id id' x) eqn:E'; [|exact IH]. apply has_id_true in E'.
    destruct (String.eqb_spec id' id); [congruence|done].
Qed.

Lemma upd_unique id (f : R -> R) d rows :
  (forall r, t_id (f r) = t_id r) -> keys_unique d -> apply_rstmt (RUpd id f) d = Some rows ->
  keys_unique rows.
Proof.
  intros Hf Hu. cbn. unfold update_where. destruct (existsb _ _); [|done]. intros [= <-].
  apply put_unique; [done|]. rewrite map_keys by done. by apply unique_rows.
Qed.

Lemma del_row id d rows :
  apply_rstmt (RDel (R := R) id) d = Some rows ->
  forall id', row_of (R := R) id' rows = if String.eqb id' id then None else row_of id' d.
Proof.
  cbn. destruct (t_detach id d) as [d'|] eqn:E; [|done]. intros [= <-] id'.
  rewrite row_put, (detach_rows _ _ _ E). unfold row_of.
  induction (t_rows d) as [|x l IH]; [by destruct (String.eqb id' id)|].
  rewrite !bfilter_cons. destruct (has_id id x) eqn:Ex; cbn [negb].
  - rewrite IH. destruct (String.eqb_spec id' id) as [|Hne]; [done|].
    apply has_id_true in Ex. assert (has_id id' x = false) as -> by (apply has_id_false; congruence). done.
  - rewrite bfilter_cons. destruct (has_id id' x) eqn:E'; [|exact IH].
    apply has_id_true in E'. apply has_id_false in Ex. destruct (String.eqb_spec id' id); [congruence|done].
Qed.

Lemma del_unique id d rows :
  keys_unique d -> apply_rstmt (RDel (R := R) id) d = Some rows -> keys_unique rows.
Proof.
  intros Hu. cbn. destruct (t_detach id d) as [d'|] eqn:E; [|done]. intros [= <-].
  pose proof (detach_unique _ _ _ E Hu) as Hu'. apply put_unique; [done|].
  apply NoDup_map_bfilter. by apply unique_rows.
Qed.

End Rows.

(** ** What a repository promises *)

(** The session: a select gives its rows in any order; a flush applies its
    statement or, when a constraint refuses it, raises, after which the session
    must not be used. *)
Class RepoLaws (D : Type) `{RepoOps D} := {
  rp_select_ok {A} (q : RepoDb -> list A) d : rp_up d ->
    exists d' l, rp_select q d = (d', Ok l) /\ Permutation l (q (rp_rows d)) /\
      rp_rows d' = rp_rows d /\ rp_up d';
  rp_unique d : rp_up d -> keys_unique (rp_rows d);
  rp_flush_ok st d rows : rp_up d -> apply_rstmt st (rp_rows d) = Some rows -> keys_unique rows ->
    exists d', rp_flush st d = (d', Ok tt) /\ rp_rows d' = rows /\ rp_up d';
  rp_flush_bad st d : rp_up d -> apply_rstmt st (rp_rows d) = None ->
    exists d' e, rp_flush st d = (d', Err e) }.

Section Contract.
Context {D : Type} `{RL : RepoLaws D}.

Definition same (d d' : D) : Prop := rp_rows d' = rp_rows d /\ rp_up d'.

(** A client sees the repository as a partial map from ids to entities. *)
Definition view {E R} `{Table R} (m : Mapping D E R R) (id : string) (d : D) : option (res E) :=
  option_map (mp_to m) (row_of id (rp_rows d)).

Definition seen {E} (v : option (res E)) : res (option E) :=
  match v with Some r => letr! e := r in Ok (Some e) | None => Ok None end.

(** The contract: reads change nothing and return what the map holds; [add]
    defines an id, or raises when it is defined or refers to nothing; [update]
    replaces a defined entity by [merged old new] and raises [ValueError]
    otherwise; [delete] undefines an id; [list] gives every entity, whatever
    the filters. *)
Record repo_contract {E R} `{Table R} (rp : Repository D E) (m : Mapping D E R R) (valid : E -> Prop)
    (merged : E -> E -> E) : Prop := mk_contract {
  rc_get d id : rp_up d -> exists d', r_get rp id d = (d', seen (view m id d)) /\ same d d';
  rc_list d filters : rp_up d -> (forall r, r ∈ t_rows (rp_rows d) -> exists e, mp_to m r = Ok e) ->
    exists d' l, r_list rp filters d = (d', Ok l) /\ same d d' /\
      Permutation (map Ok l) (map (mp_to m) (t_rows (rp_rows d)));
  rc_add d e : rp_up d -> valid e -> view m (mp_id m e) d = None ->
    t_refs (mp_from m e) (rp_rows d) = true ->
    exists d', r_add rp e d = (d', Ok e) /\ rp_up d' /\
      forall id, view m id d' = if String.eqb id (mp_id m e) then Some (Ok e) else view m id d;
  rc_add_refused d e : rp_up d ->
    view m (mp_id m e) d <> None \/ t_refs (mp_from m e) (rp_rows d) = false ->
    exists d' x, r_add rp e d = (d', Err x);
  rc_update d e e0 : rp_up d -> valid e -> view m (mp_id m e) d = Some (Ok e0) ->
    exists d', r_update rp e d = (d', Ok e) /\ rp_up d' /\
      forall id, view m id d' = if String.eqb id (mp_id m e) then Some (Ok (merged e0 e)) else view m id d;
  rc_update_missing d e : rp_up d -> view m (mp_id m e) d = None ->
    exists d', r_update rp e d = (d', Err (ValueError (mp_label m +:+ " not found."))) /\ same d d';
  rc_delete d id : rp_up d -> t_detach (R := R) id (rp_rows d) <> None ->
    exists d', r_delete rp id d = (d', Ok tt) /\ rp_up d' /\
      forall id', view m id' d' = if String.eqb id' id then None else view m id' d }.

Lemma session_get_ok {R} `{TableLaws R} id d :
  rp_up d -> exists d', session_get (R := R) id d = (d', Ok (row_of id (rp_rows d))) /\ same d d'.
Proof.
  intros Hup. unfold session_get, bind.
  destruct (rp_select_ok (fun d => bfilter (has_id (R := R) id) (t_rows d)) d Hup) as (d' & l & -> & Hp & Hr & Hu).
  exists d'. split; [|by split]. unfold ret, row_of. do 2 f_equal.
  destruct (unique_row id (t_rows (R := R) (rp_rows d))) as [E|(r & E & _)];
    [by apply unique_rows, rp_unique| |]; rewrite E in *.
  - by apply Permutation_sym, Permutation_nil in Hp as ->.
  - by apply Permutation_sym, Permutation_length_1_inv in Hp as ->.
Qed.

Lemma map_m_ret {A S} (l : list A) (s : S) : map_m ret l s = (s, Ok l).
Proof. induction l as [|x l IH]; [done|]. simpl. unfold bind, ret at 1. by rewrite IH. Qed.

Lemma map_res_total {A B} (f : A -> res B) l :
  (forall x, x ∈ l -> exists y, f x = Ok y) -> exists ys, map_res f l = Ok ys /\ map Ok ys = map f l.
Proof.
  induction l as [|x l IH]; intros Hf; [by exists []|].
  destruct (Hf x) as [y Hy]; [by left|]. destruct IH as (ys & Hys & Hm); [intros z Hz; apply Hf; by right|].
  exists (y :: ys). cbn. rewrite Hy, Hys. cbn. by rewrite Hm.
Qed.

Lemma map_Ok_inj {A} (l l' : list A) : map Ok l = map Ok l' -> l = l'.
Proof.
  revert l'. induction l as [|x l IH]; intros [|y l']; try done. intros [= -> E]. f_equal. by apply IH.
Qed.

Lemma perm_of_oks {A} (l l' : list A) : Permutation (map Ok l) (map Ok l') -> Permutation l l'.
Proof. intros (l3 & E & Hp)%Permutation_map_inv. by rewrite (map_Ok_inj _ _ E). Qed.

(** The contract follows from what the mapping does to a row. *)
Lemma contract_of {E R} `{TableLaws R} (m : Mapping D E R R) (valid : E -> Prop) (merged : E -> E -> E) :
  (forall r, mp_load m r = ret r) ->
  (forall e, t_id (mp_from m e) = mp_id m e) ->
  (forall e r, t_id (mp_assign m e r) = t_id r) ->
  (forall e, valid e -> mp_to m (mp_from m e) = Ok e) ->
  (forall e e0 r, valid e -> mp_to m r = Ok e0 -> mp_to m (mp_assign m e r) = Ok (merged e0 e)) ->
  repo_contract (repository_of m) m valid merged.
Proof.
  intros Hload Hfrom Hassign Hto Hmerge.
  split; cbn [r_get r_list r_add r_update r_delete repository_of].
  - intros d id Hup. destruct (session_get_ok (R := R) id d Hup) as (d' & Hg & Hs). exists d'. split; [|done].
    unfold repo_get, bind, view. rewrite Hg. destruct (row_of id (rp_rows d)) as [r|]; [|done].
    rewrite Hload. cbn. unfold lift_res. by destruct (mp_to m r).
  - intros d filters Hup Hok. unfold repo_list, bind.
    destruct (rp_select_ok t_rows d Hup) as (d' & l & -> & Hp & Hr & Hu).
    assert (map_m (mp_load m) l d' = (d', Ok l)) as ->.
    { clear -Hload. induction l as [|x l IH]; [done|]. cbn [map_m]. unfold bind. rewrite Hload. unfold ret at 1. by rewrite IH. }
    destruct (map_res_total (mp_to m) l) as (ys & Hys & Hm); [intros r Hr'; apply Hok; by rewrite <- Hp|].
    exists d', ys. unfold lift_res. rewrite Hys, Hm. repeat split; try done. by apply Permutation_map.
  - intros d e Hup Hv Hnone Hrefs. unfold view in Hnone.
    assert (exists rows, apply_rstmt (RIns (mp_from m e)) (rp_rows d) = Some rows) as [rows Hrows].
    { cbn. rewrite Hrefs, exists_row, Hfrom. destruct (row_of (mp_id m e) (rp_rows d)); [done|by eexists]. }
    destruct (rp_flush_ok _ _ _ Hup Hrows) as (d' & Hf & Hr & Hu); [by eapply ins_unique; [apply rp_unique|]|].
    exists d'. unfold repo_add, bind. rewrite Hf. repeat split; [done|]. intros id. unfold view.
    rewrite Hr, (ins_row _ _ _ Hrows), Hfrom. destruct (String.eqb id (mp_id m e)); [|done]. simpl. by rewrite Hto.
  - intros d e Hup Hbad. unfold repo_add, bind.
    destruct (rp_flush_bad (RIns (mp_from m e)) d Hup) as (d' & x & ->); [|by eexists _, _].
    cbn. rewrite exists_row, Hfrom. unfold view in Hbad. destruct Hbad as [Hv| ->]; [|done].
    destruct (row_of (mp_id m e) (rp_rows d)); [|done]. by rewrite andb_false_r.
  - intros d e e0 Hup Hv He0. unfold repo_update, bind.
    destruct (session_get_ok (R := R) (mp_id m e) d Hup) as (d1 & -> & Hs1 & Hu1). unfold view in He0.
    destruct (row_of (mp_id m e) (rp_rows d)) as [r|] eqn:Er; [|done]. injection He0 as He0.
    destruct (upd_some (mp_id m e) (mp_assign m e) (rp_rows d1)) as [rows Hrows]; [by rewrite Hs1, Er|].
    destruct (rp_flush_ok _ _ _ Hu1 Hrows) as (d2 & Hf & Hr & Hu2); [apply (upd_unique (mp_id m e) (mp_assign m e) (rp_rows d1)); [apply Hassign|by apply rp_unique|done]|].
    exists d2. rewrite Hf. repeat split; [done|]. intros id. unfold view.
    rewrite Hr, (upd_row _ _ _ _ (Hassign e) Hrows), Hs1, Er. destruct (String.eqb id (mp_id m e)); [|done].
    cbn. by rewrite (Hmerge e e0 r).
  - intros d e Hup Hnone. unfold repo_update, bind.
    destruct (session_get_ok (R := R) (mp_id m e) d Hup) as (d1 & -> & Hs). unfold view in Hnone.
    destruct (row_of (mp_id m e) (rp_rows d)); [done|]. by exists d1.
  - intros d id Hup Hdet. unfold repo_delete, bind.
    destruct (session_get_ok (R := R) id d Hup) as (d1 & -> & Hs1 & Hu1).
    destruct (row_of id (rp_rows d)) as [r|] eqn:Er.
    + assert (exists rows, apply_rstmt (RDel (R := R) id) (rp_rows d1) = Some rows) as [rows Hrows].
      { cbn. rewrite Hs1. destruct (t_detach id (rp_rows d)); [by eexists|done]. }
      destruct (rp_flush_ok _ _ _ Hu1 Hrows) as (d2 & Hf & Hr & Hu2); [apply (del_unique id (rp_rows d1)); [by apply rp_unique|done]|].
      exists d2. rewrite Hf. repeat split; [done|]. intros id'. unfold view.
      rewrite Hr, (del_row _ _ _ Hrows), Hs1. by destruct (String.eqb id' id).
    + exists d1. repeat split; [done|]. intros id'. unfold view. rewrite Hs1.
      destruct (String.eqb_spec id' id) as [->|]; [|done]. by rewrite Er.
Qed.

End Contract.

(** ** The five one-table repositories

    What [update] saves of the new entity: everything of a contact and of a
    task but the keys, and a few fields of the others. *)

Definition merged_contact (old new : Contact) : Contact :=
  mk_Contact (ct_id old) (ct_source new) (ct_name new) (ct_email new) (ct_phone new) (ct_role new)
    (ct_external_ids new).

Definition merged_document (old new : Document) : Document :=
  mk_Document (doc_id old) (doc_matter_id old) (doc_name old) (doc_mime_type old) (doc_uri old)
    (doc_classification new) (doc_version new) (doc_privileged new) (doc_checksum new)
    (doc_created_at old).

Definition merged_deadline (old new : Deadline) : Deadline :=
  mk_Deadline (d_id old) (d_matter_id old) (d_name old) (d_due_at old) (d_rule_id old) (d_status new)
    (d_escalation_level new).

Definition merged_communication (old new : Communication) : Communication :=
  mk_Communication (cm_id old) (cm_matter_id old) (cm_direction old) (cm_channel old) (cm_subject old)
    (cm_body old) (cm_status new) (cm_participants new).

Definition merged_task (old new : Task) : Task :=
  mk_Task (tk_id old) (tk_matter_id old) (tk_title new) (tk_assignee new) (tk_due_at new) (tk_status new).

Section Codecs.
Context (email_validate : string -> res string).

(** Addresses are validated when the entity is made: the validator accepts its
    own results unchanged. *)
Definition valid_contact (c : Contact) : Prop :=
  forall e, ct_email c = Some e -> e <> EmptyString /\ email_validate e = Ok e.

Definition valid_communication (c : Communication) : Prop := Forall valid_contact (cm_participants c).

Lemma ids_of_json_dump d : ids_of_json (dump_ids_map d) = Ok d.
Proof.
  unfold ids_of_json, dump_ids_map. induction d as [|[k v] d IH]; [done|]. cbn [map map_res snd fst res_bind].
  by rewrite IH.
Qed.

Lemma validated_some c : valid_contact c -> validated_email email_validate (some_email (ct_email c)) = Ok (ct_email c).
Proof.
  intros Hv. unfold some_email. destruct (ct_email c) as [e|] eqn:E; [|done].
  destruct (Hv e E) as [Hne He]. unfold opt_truthy, str_truthy.
  destruct (String.eqb_spec e EmptyString); [done|]. cbn. by rewrite He.
Qed.

Lemma validated_own c : valid_contact c -> validated_email email_validate (ct_email c) = Ok (ct_email c).
Proof. intros Hv. destruct (ct_email c) as [e|] eqn:E; [|done]. destruct (Hv e E) as [_ He]. cbn. by rewrite He. Qed.

Lemma contact_codec c :
  valid_contact c -> contact_to_domain email_validate (contact_from_domain c) = Ok c.
Proof.
  intros Hv. unfold contact_to_domain. cbn. rewrite validated_some by done. cbn. rewrite ids_of_json_dump.
  by destruct c.
Qed.

Lemma deadline_status_codec s : deadline_status_of (deadline_status_value s) = Ok s.
Proof. by destruct s. Qed.

Lemma direction_codec d : direction_of (direction_value d) = Ok d.
Proof. by destruct d. Qed.

Lemma opt_str_jopt k (o : option string) (d : jdict) : dget k d = Some (jopt o) -> opt_str_field k d = Ok o.
Proof. unfold opt_str_field. intros ->. by destruct o. Qed.

Lemma participant_codec c :
  valid_contact c -> validate_participant email_validate (dump_participant c) = Ok c.
Proof.
  intros Hv. unfold validate_participant.
  change (str_field "id" (dump_participant c)) with (Ok (ct_id c)).
  change (str_field "source" (dump_participant c)) with (Ok (ct_source c)).
  change (str_field "name" (dump_participant c)) with (Ok (ct_name c)).
  change (dget "external_ids" (dump_participant c)) with (Some (JDict (dump_ids_map (ct_external_ids c)))).
  rewrite (opt_str_jopt "email" (ct_email c)), (opt_str_jopt "phone" (ct_phone c)),
    (opt_str_jopt "role" (ct_role c)) by reflexivity.
  cbn [res_bind]. rewrite validated_own by done. cbn [res_bind]. rewrite ids_of_json_dump. by destruct c.
Qed.

Lemma participants_codec l :
  Forall valid_contact l -> map_res (validate_participant email_validate) (map dump_participant l) = Ok l.
Proof. induction 1 as [|c l Hc _ IH]; [done|]. cbn. rewrite participant_codec by done. cbn. by rewrite IH. Qed.

End Codecs.

Section Contracts.
Context {D : Type} `{RL : RepoLaws D} (email_validate : string -> res string).

(** C27: Each one-table repository keeps its contract: between its operations and
    the rows there is exactly the partial map of ids to entities, [add] stores
    the entity it is given and a later [get] returns it unchanged, and [update]
    stores the fields named by [merged_contact] and its likes, and no others. *)
Theorem repositories_keep_contract :
  repo_contract (ContactRepository email_validate) (contact_mapping email_validate)
    (valid_contact email_validate) merged_contact /\
  repo_contract (D := D) DocumentRepository document_mapping (fun _ => True) merged_document /\
  repo_contract (D := D) DeadlineRepository deadline_mapping (fun _ => True) merged_deadline /\
  repo_contract (CommunicationRepository email_validate) (communication_mapping email_validate)
    (valid_communication email_validate) merged_communication /\
  repo_contract (D := D) TaskRepository task_mapping (fun _ => True) merged_task.
Proof.
  repeat match goal with |- _ /\ _ => split end; (apply contract_of; [done | done | done | |]).
  - apply contact_codec.
  - intros e e0 r Hv. cbn. unfold contact_to_domain. cbn. rewrite validated_some, ids_of_json_dump by done.
    unfold res_bind. destruct (validated_email _ (oc_email r)); [|done].
    destruct (ids_of_json _); [|done]. by intros [= <-].
  - by intros [].
  - by intros e e0 r _ [= <-].
  - intros e _. cbn. unfold deadline_to_domain. cbn. rewrite deadline_status_codec. by destruct e.
  - intros e e0 r _. cbn. unfold deadline_to_domain. cbn. rewrite deadline_status_codec.
    unfold res_bind. destruct (deadline_status_of (oe_status r)); [|done]. by intros [= <-].
  - intros e Hv. cbn. unfold communication_to_domain. cbn. rewrite participants_codec by done. cbn.
    rewrite direction_codec. by destruct e.
  - intros e e0 r Hv. cbn. unfold communication_to_domain. cbn. rewrite participants_codec by done.
    unfold res_bind. destruct (map_res _ (ou_participants r)); [|done].
    destruct (direction_of _); [|done]. by intros [= <-].
  - by intros [].
  - by intros e e0 r _ [= <-].
Qed.

(** ** The matter repository *)

Lemma select_ok_row {R} `{TableLaws R} id d :
  rp_up d ->
  exists d' l, rp_select (fun d => bfilter (has_id (R := R) id) (t_rows d)) d = (d', Ok l) /\
    head l = row_of id (rp_rows d) /\ same d d'.
Proof.
  intros Hup. destruct (session_get_ok (R := R) id d Hup) as (d' & Hg & Hs). unfold session_get, bind in Hg.
  destruct (rp_select _ d) as [d1 [l|e]] eqn:E; [|done]. injection Hg as <- Hl. by exists d1, l.
Qed.

Definition deadlines_of (id : string) (d : RepoDb) : list DeadlineORM :=
  bfilter (fun e => String.eqb (oe_matter_id e) id) (rd_deadlines d).

Lemma load_matter_ok r d :
  rp_up d ->
  exists d' kds, load_matter r d = (d', Ok (mk_LoadedMatter r (row_of (om_client_id r) (rp_rows d)) kds)) /\
    Permutation kds (deadlines_of (om_id r) (rp_rows d)) /\ same d d'.
Proof.
  intros Hup. unfold load_matter, bind.
  destruct (select_ok_row (R := ContactORM) (om_client_id r) d Hup) as (d1 & l & E & Hl & Hr1 & Hu1).
  cbn [t_rows contact_table] in E. rewrite E.
  destruct (rp_select_ok (deadlines_of (om_id r)) d1 Hu1) as (d2 & kds & E2 & Hp & Hr2 & Hu2).
  unfold deadlines_of in E2 at 1. rewrite E2. exists d2, kds. rewrite <- Hl, <- Hr1. repeat split; try done.
  by rewrite Hr2, Hr1.
Qed.

Lemma matter_get_ok id d r c ct kds ids :
  rp_up d -> row_of id (rp_rows d) = Some r -> row_of (om_client_id r) (rp_rows d) = Some c ->
  contact_to_domain email_validate c = Ok ct -> ids_of_json (om_external_ids r) = Ok ids ->
  map deadline_to_domain (deadlines_of id (rp_rows d)) = map Ok kds ->
  exists d' key_dates, Permutation key_dates kds /\ same d d' /\
    r_get (MatterRepository email_validate) id d =
      (d', Ok (Some (mk_Matter id (om_source r) (om_reference r) (om_title r) (om_status r)
         (om_practice_area r) ct (om_responsible r) (om_opened_at r) key_dates ids))).
Proof.
  intros Hup Hr Hc Hct Hids Hk. cbn [r_get MatterRepository repository_of]. unfold repo_get, bind.
  destruct (session_get_ok (R := MatterORM) id d Hup) as (d1 & -> & Hr1 & Hu1). rewrite Hr.
  assert (om_id r = id) as Hid by (exact (row_of_id id _ r Hr)).
  cbn [mp_load matter_mapping].
  destruct (load_matter_ok r d1 Hu1) as (d2 & l & -> & Hp & Hr2 & Hu2).
  rewrite Hr1, Hc. cbn [mp_to matter_mapping]. unfold lift_res, matter_to_domain. cbn.
  rewrite Hct, Hids. cbn. rewrite Hr1, Hid in Hp.
  assert (exists key_dates, map_res deadline_to_domain l = Ok key_dates /\
            map Ok key_dates = map deadline_to_domain l) as (key_dates & Hl & Hm).
  { apply map_res_total. intros x Hx.
    assert (deadline_to_domain x ∈ map Ok kds) as Hin.
    { rewrite <- Hk. apply list_elem_of_fmap. exists x. split; [done|]. by rewrite <- Hp. }
    apply list_elem_of_fmap in Hin as (y & Hy & _). by exists y. }
  rewrite Hl. cbn. rewrite Hid. exists d2, key_dates. split; [|split; [split; [congruence|done]|done]].
  apply perm_of_oks. rewrite Hm, <- Hk. by apply Permutation_map.
Qed.

(** A matter is stored in parts.  [add] stores the matter's own columns and the
    key of its client: [get] then returns these with the client as the contacts
    table has it and exactly the deadlines the deadlines table has for the
    matter as key dates, whatever the entity said of either; a matter whose
    client is not stored is refused. *)
Lemma matter_stored_in_parts (d : D) (e : Matter) :
  rp_up d -> row_of (R := MatterORM) (mt_id e) (rp_rows d) = None ->
  (forall c ct kds,
     row_of (ct_id (mt_client e)) (rp_rows d) = Some c -> contact_to_domain email_validate c = Ok ct ->
     map deadline_to_domain (deadlines_of (mt_id e) (rp_rows d)) = map Ok kds ->
     exists d1, r_add (MatterRepository email_validate) e d = (d1, Ok e) /\
     exists d2 key_dates, Permutation key_dates kds /\
       r_get (MatterRepository email_validate) (mt_id e) d1 =
         (d2, Ok (Some (mk_Matter (mt_id e) (mt_source e) (mt_reference e) (mt_title e) (mt_status e)
            (mt_practice_area e) ct (mt_responsible e) (mt_opened_at e) key_dates (mt_external_ids e))))) /\
  (row_of (R := ContactORM) (ct_id (mt_client e)) (rp_rows d) = None ->
     exists d1 x, r_add (MatterRepository email_validate) e d = (d1, Err x)).
Proof.
  intros Hup Hnone. assert (t_refs (matter_from_domain e) (rp_rows d) =
    match row_of (R := ContactORM) (ct_id (mt_client e)) (rp_rows d) with Some _ => true | None => false end) as Hrefs
    by exact (exists_row (R := ContactORM) (ct_id (mt_client e)) (rp_rows d)).
  split.
  - intros c ct kds Hc Hct Hk. rewrite Hc in Hrefs.
    assert (apply_rstmt (RIns (matter_from_domain e)) (rp_rows d)
            = Some (with_matters (rd_matters (rp_rows d) ++ [matter_from_domain e]) (rp_rows d))) as Hrows.
    { cbn [apply_rstmt]. rewrite Hrefs, exists_row. cbn [t_id matter_table matter_from_domain om_id].
      by rewrite Hnone. }
    destruct (rp_flush_ok _ _ _ Hup Hrows) as (d1 & Hf & Hr & Hu).
    { apply (ins_unique (matter_from_domain e) (rp_rows d)); [by apply rp_unique|done]. }
    exists d1. cbn [r_add MatterRepository repository_of]. split; [unfold repo_add, bind; cbv [mp_from matter_mapping]; by rewrite Hf|].
    destruct (matter_get_ok (mt_id e) d1 (matter_from_domain e) c ct kds (mt_external_ids e)) as (d2 & kd & Hp & _ & Hg).
    + done.
    + rewrite Hr, (ins_row _ _ _ Hrows). cbn. by rewrite String.eqb_refl.
    + by rewrite Hr.
    + done.
    + apply ids_of_json_dump.
    + by rewrite Hr.
    + by exists d2, kd.
  - intros Hc. rewrite Hc in Hrefs. cbn [r_add MatterRepository repository_of]. unfold repo_add, bind.
    destruct (rp_flush_bad (RIns (matter_from_domain e)) d Hup) as (d1 & x & Hf).
    { cbn [apply_rstmt]. by rewrite Hrefs. }
    unfold repo_add, bind. cbv [mp_from matter_mapping]. rewrite Hf. by eexists _, _.
Qed.

End Contracts.

(** ** Units of work

    [tx_start]: the rows at the start of the running transaction, which a
    rollback restores. *)

Class TxLaws (D : Type) `{TxOps D} := {
  tx_start : D -> RepoDb;
  begin_ok d d' : tx_begin d = (d', Ok tt) -> rp_rows d' = rp_rows d /\ tx_start d' = rp_rows d;
  begin_err d d' e : tx_begin d = (d', Err e) -> rp_rows d' = rp_rows d;
  commit_ok d d' : tx_commit d = (d', Ok tt) -> rp_rows d' = rp_rows d;
  commit_start d : tx_start (fst (tx_commit d)) = tx_start d;
  select_start {A} (q : RepoDb -> list A) d : tx_start (fst (rp_select q d)) = tx_start d;
  flush_start st d : tx_start (fst (rp_flush st d)) = tx_start d;
  rollback_rows d : rp_rows (tx_rollback d) = tx_start d }.

Section Atomic.
Context {D : Type} `{TL : TxLaws D}.

(** What a block may do: read, write and raise, but not end the transaction. *)
Definition inside {A} (m : M D A) : Prop := forall start, keeps (fun d => tx_start d = start) m.

Lemma inside_bind {A B} (m : M D A) (f : A -> M D B) :
  inside m -> (forall a, inside (f a)) -> inside (bind m f).
Proof. intros Hm Hf start. apply keeps_bind; [apply Hm|]. intros a. apply Hf. Qed.

Lemma inside_ret {A} (a : A) : inside (ret (S := D) a).
Proof. by intros start d. Qed.

Lemma inside_select {A} (q : RepoDb -> list A) : inside (rp_select q).
Proof. intros start d <-. apply select_start. Qed.

Lemma inside_flush st : inside (rp_flush st).
Proof. intros start d <-. apply flush_start. Qed.

(** A unit of work is atomic: when it raises, in the block or in the commit,
    the stored rows are those before it; when it returns, they are those the
    block left.  So an action whose audit record cannot be written is undone. *)
Lemma unit_of_work_atomic {A} (body : M D A) d d' r :
  inside body -> in_transaction body d = (d', r) ->
  match r with
  | Ok a => exists d0 d1, tx_begin d = (d0, Ok tt) /\ body d0 = (d1, Ok a) /\ rp_rows d' = rp_rows d1
  | Err _ => rp_rows d' = rp_rows d
  end.
Proof.
  intros Hin. unfold in_transaction. destruct (tx_begin d) as [d0 [[]|e]] eqn:Eb; [|intros [= <- <-]; by eapply begin_err].
  destruct (begin_ok _ _ Eb) as [_ Hst]. specialize (Hin _ d0 Hst).
  destruct (body d0) as [d1 [a|e]] eqn:E; [|intros [= <- <-]; by rewrite rollback_rows].
  pose proof (commit_start d1) as Hc. destruct (tx_commit d1) as [d2 [[]|e]] eqn:Ec; intros [= <- <-].
  - exists d0, d1. repeat split; [done..|]. by apply commit_ok.
  - rewrite rollback_rows. simpl in *. congruence.
Qed.

End Atomic.

(** ** A session over rows in memory *)

Record MemRepo := mk_MemRepo { mr_rows : RepoDb; mr_up : bool; mr_start : RepoDb }.

#[export] Instance mem_repo_ops : RepoOps MemRepo := {
  rp_select _ q := gets (fun d => q (mr_rows d));
  rp_flush st := fun d =>
    match apply_rstmt st (mr_rows d) with
    | Some rows => (mk_MemRepo rows (mr_up d) (mr_start d), Ok tt)
    | None => (mk_MemRepo (mr_rows d) false (mr_start d), Err IntegrityError)
    end;
  rp_rows := mr_rows;
  rp_up d := mr_up d = true /\ keys_unique (mr_rows d) }.

#[export] Instance mem_repo_laws : RepoLaws MemRepo.
Proof.
  split; simpl.
  - intros A q d Hup. by exists d, (q (mr_rows d)).
  - by intros d [_ Hu].
  - intros st d rows [Hup _] -> Hu. by eexists.
  - intros st d _ ->. by eexists _, _.
Qed.

#[export] Instance mem_repo_tx : TxOps MemRepo := {
  tx_begin := fun d => (mk_MemRepo (mr_rows d) (mr_up d) (mr_rows d), Ok tt);
  tx_commit := fun d => if mr_up d then (d, Ok tt) else (d, Err (OtherError "PendingRollbackError" "flush failed"));
  tx_rollback d := mk_MemRepo (mr_start d) true (mr_start d) }.

#[export] Instance mem_repo_tx_laws : TxLaws MemRepo.
Proof.
  refine {| tx_start := mr_start |}; simpl.
  - by intros d d' [= <-].
  - done.
  - intros d d'. by destruct (mr_up d); intros [= <-].
  - intros d. by destruct (mr_up d).
  - done.
  - intros st d. by destruct (apply_rstmt st (mr_rows d)).
  - done.
Qed.

(** ** Concrete stores *)

Definition ex_validate (s : string) : res string := Ok s.

Definition ex_day : datetime := utc_datetime (ymd2ord 2026 3 9) 0.
Definition ex_later : datetime := utc_datetime (ymd2ord 2026 4 9) 0.

Definition ex_contact : Contact := mk_Contact "c1" "crm" "Ada" (Some "ada@x.org") None None [("crm", "77")].
Definition ex_key_date : Deadline := mk_Deadline "d1" "m1" "RFE" ex_day None DPending 0.
Definition ex_matter : Matter :=
  mk_Matter "m1" "case" "R-1" "Petition" "open" None ex_contact None ex_day [ex_key_date] [].

Definition ex_repo : MemRepo :=
  mk_MemRepo (mk_RepoDb [contact_from_domain ex_contact] [] [] [] [] []) true
    (mk_RepoDb [] [] [] [] [] []).

Lemma ex_repo_up : rp_up ex_repo.
Proof. split; [done|]. repeat split; try apply NoDup_nil_2. apply NoDup_singleton. Qed.

Lemma matter_stored_in_parts_witness :
  rp_up ex_repo /\
  exists d1, r_add (MatterRepository ex_validate) ex_matter ex_repo = (d1, Ok ex_matter) /\
  exists d2 key_dates, Permutation key_dates [] /\
    r_get (MatterRepository ex_validate) "m1" d1 =
      (d2, Ok (Some (mk_Matter "m1" "case" "R-1" "Petition" "open" None ex_contact None ex_day key_dates []))).
Proof.
  split; [exact ex_repo_up|].
  exact (proj1 (matter_stored_in_parts ex_validate ex_repo ex_matter ex_repo_up eq_refl)
           (contact_from_domain ex_contact) ex_contact [] eq_refl eq_refl eq_refl).
Defined.

Lemma repositories_keep_contract_witness :
  repo_contract (D := MemRepo) DeadlineRepository deadline_mapping (fun _ => True) merged_deadline.
Proof. exact (proj1 (proj2 (proj2 (repositories_keep_contract ex_validate)))). Defined.

(** The key dates of a new matter are not stored. *)
Example key_dates_not_saved :
  let d := fst (r_add (MatterRepository ex_validate) ex_matter ex_repo) in
  snd (r_get (MatterRepository ex_validate) "m1" d) =
    Ok (Some (mk_Matter "m1" "case" "R-1" "Petition" "open" None ex_contact None ex_day [] [])).
Proof. reflexivity. Qed.

(** Moving a deadline: [update] answers with the moved deadline and stores the
    old due date. *)
Definition ex_with_deadline : MemRepo :=
  fst ((r_add (MatterRepository ex_validate) ex_matter ;; r_add DeadlineRepository ex_key_date) ex_repo).

Definition ex_moved : Deadline := mk_Deadline "d1" "m1" "RFE" ex_later None DPending 0.

Example moved_deadline_not_saved :
  snd (r_update DeadlineRepository ex_moved ex_with_deadline) = Ok ex_moved /\
  snd (r_get DeadlineRepository "d1" (fst (r_update DeadlineRepository ex_moved ex_with_deadline)))
    = Ok (Some ex_key_date).
Proof. split; reflexivity. Qed.

(** Filters are ignored: every deadline is listed for another matter. *)
Example filters_ignored :
  snd (r_list DeadlineRepository [("matter_id", JStr "m2")] ex_with_deadline) = Ok [ex_key_date].
Proof. reflexivity. Qed.

(** A matter with a deadline cannot be deleted: SQLAlchemy would clear the
    deadline's key of its matter, which is NOT NULL. *)
Example matter_with_deadline_undeletable :
  snd (repo_delete (R := MatterORM) "m1" ex_with_deadline) = Err IntegrityError.
Proof. reflexivity. Qed.

(** A unit of work whose second write fails stores neither. *)
Example failed_unit_rolls_back :
  let '(d, r) := in_transaction (r_add (MatterRepository ex_validate) ex_matter ;;
                                 r_add (ContactRepository ex_validate) ex_contact) ex_repo in
  r = Err IntegrityError /\ mr_rows d = mr_rows ex_repo.
Proof. split; reflexivity. Qed.
