(* ===== verification/Approvals.v ===== *)
(** * Approvals: how approvers are told, and how they answer

    core/orchestrator/channels.py (the three channels and the fan-out) and
    sidecar/approvals.py (the pages of the web channel).  The store of a channel
    is the log it writes, one entry per line; an e-mail draft goes to the port
    [Ports.EmailConnector].  Proved: the fan-out never raises and emits every
    token whose channel is configured, in order; nothing put into a page can
    add markup to it; a confirmation page is shown only for a resolved gate, and
    a request without an identity never gets one. *)

From Stdlib Require Import ZArith Lia Ascii String List QArith.
From stdpp Require Import base list strings pretty.
From S2P Require Import Prelude PyTime Effects PyText Base64 Domain States RunStore Rbac Gates Ports.

Open Scope string_scope.
Open Scope list_scope.
Open Scope Z_scope.
Open Scope cam_scope.

(** ** channels.py *)

Inductive ApprovalChannel :=
| MCPApprovalChannel
| WebApprovalChannel (base_url : string)
| EmailApprovalChannel (connected : bool) (base_url : string).

Definition channel_name (c : ApprovalChannel) : string :=
  match c with
  | MCPApprovalChannel => "mcp"
  | WebApprovalChannel _ => "web"
  | EmailApprovalChannel _ _ => "email"
  end.

(** One structured log line: the event and its fields. *)
Record LogEntry := mk_LogEntry { le_event : string; le_fields : dict string string }.

Definition approval_url (base_url raw_token : string) : string :=
  Base64.rstrip "/"%char base_url +:+ "/approvals/" +:+ raw_token.

Definition LF : ascii := chr 10.
Definition nl : string := String LF EmptyString.

Definition approval_mail (id : string) (gate : GateRequest) (approve_url reject_url : string) : Communication :=
  mk_Communication id None DirOut "email"
    (Some ("Action required: " +:+ py_repr (gr_step gate) +:+ " approval"))
    ("A workflow is awaiting your approval." +:+ nl +:+ nl +:+
     "Approve: " +:+ approve_url +:+ nl +:+
     "Reject:  " +:+ reject_url +:+ nl +:+ nl +:+
     "This link expires at " +:+ isoformat (gr_expires_at gate) +:+ ".")
    "draft" [].

Section Channels.
Context {V : Type} {EC : EmailConnector V} (uuids : nat -> string).

Definition CM (A : Type) : Type := M (sys (list LogEntry) V) A.

Definition log_info (e : LogEntry) : CM unit := on_store (modify (fun l => l ++ [e])).

Definition gate_fields (gate : GateRequest) : dict string string :=
  [("run_id", gr_run_id gate); ("step", gr_step gate); ("gate_id", gr_id gate)].

Definition expiry_field (gate : GateRequest) : dict string string :=
  [("expires_at", isoformat (gr_expires_at gate))].

(** [str(exc)] of a failed draft is not modelled: the entry has no fields. *)
Definition emit (c : ApprovalChannel) (gate : GateRequest) (token : ApprovalToken) (raw_token : string) : CM unit :=
  match c with
  | MCPApprovalChannel =>
      log_info (mk_LogEntry "gate.mcp_token_ready"
        (gate_fields gate ++ [("token_id", tok_id token)] ++ expiry_field gate))
  | WebApprovalChannel base =>
      log_info (mk_LogEntry "gate.web_approval_url"
        (gate_fields gate ++ [("approval_url", approval_url base raw_token)] ++ expiry_field gate))
  | EmailApprovalChannel connected base =>
      let approve_url := approval_url base raw_token +:+ "?decision=approve" in
      let reject_url := approval_url base raw_token +:+ "?decision=reject" in
      log_info (mk_LogEntry "gate.email_approval_links"
        (gate_fields gate ++ [("approve_url", approve_url); ("reject_url", reject_url)] ++ expiry_field gate)) ;;
      if connected then
        try_except
          (let! id := uuid4 uuids in
           on_world (ec_create_draft (approval_mail id gate approve_url reject_url)) ;; ret tt)
          (fun _ => log_info (mk_LogEntry "gate.email_draft_failed" []))
      else ret tt
  end.

(** [{ch.name: ch for ch in channels}]: the last channel of a name wins. *)
Definition channel_map (channels : list ApprovalChannel) : dict string ApprovalChannel :=
  fold_left (fun d c => dset (channel_name c) c d) channels [].

Definition emit_gate (gate : GateRequest) (tokens : dict string (string * ApprovalToken))
    (channels : list ApprovalChannel) : CM unit :=
  for_each tokens (fun '(name, (raw_token, record)) =>
    match dget name (channel_map channels) with
    | Some c =>
        try_except (emit c gate record raw_token)
          (fun _ => log_info (mk_LogEntry "gate.channel_emit_error" [("channel", name)]))
    | None => ret tt
    end).

End Channels.

(** ** HTML *)

(** [html.escape(s)] with [quote=True] *)
Definition html_char (c : ascii) : string :=
  if Ascii.eqb c "&"%char then "&amp;"
  else if Ascii.eqb c "<"%char then "&lt;"
  else if Ascii.eqb c ">"%char then "&gt;"
  else if Ascii.eqb c DQUOTE then "&quot;"
  else if Ascii.eqb c SQUOTE then "&#x27;"
  else String c EmptyString.

Fixpoint html_escape (s : string) : string :=
  match s with EmptyString => EmptyString | String c s' => html_char c +:+ html_escape s' end.

(** The literals of the templates, with a back quote for each double quote. *)
Definition tpl (s : string) : string := PyText.str_map (fun c => if Ascii.eqb c "`"%char then DQUOTE else c) s.

Record HTMLResponse := mk_HTMLResponse { hr_status : Z; hr_body : string }.

Definition PAGE_STYLE : string :=
"body{font-family:sans-serif;max-width:600px;margin:4rem auto;padding:0 1rem}
.card{background:#f8f9fa;border-radius:8px;padding:1.5rem;margin-bottom:1.5rem}
.approve{background:#198754;color:#fff;border:none;padding:.75rem 2rem;
  border-radius:4px;cursor:pointer;font-size:1rem;margin-right:1rem}
.reject{background:#dc3545;color:#fff;border:none;padding:.75rem 2rem;
  border-radius:4px;cursor:pointer;font-size:1rem}
textarea{width:100%;box-sizing:border-box;margin:1rem 0;padding:.5rem;
  border:1px solid #ccc;border-radius:4px;font-family:inherit}
.ok{color:#198754}.err{color:#dc3545}".

Definition page (title body : string) (status_code : Z) : HTMLResponse :=
  mk_HTMLResponse status_code
    (tpl "<!DOCTYPE html>
<html lang=`en`>
<head><meta charset=`UTF-8`><title>" +:+ html_escape title +:+ "</title>
<style>" +:+ PAGE_STYLE +:+ "</style></head>
<body>
" +:+ body +:+ "
</body></html>").

Definition error_page (reason : string) (status_code : Z) : HTMLResponse :=
  page "Approval not recorded"
    (tpl "<h1 class=`err`>Approval not recorded</h1>
<div class=`card`><p>" +:+ html_escape reason +:+ "</p>
<p>This link is single-use and expires 24 hours after it was issued.
Ask the requester to re-trigger the approval if you still need to act on it.</p></div>") status_code.

(** What the approver is shown. *)
Record PageData := mk_PageData {
  pd_workflow : string; pd_run : string; pd_step : string; pd_expires : string; pd_token : string }.

Definition approval_body (d : PageData) : string :=
  let workflow_line :=
    if str_truthy (pd_workflow d)
    then "<p><strong>Workflow:</strong> " +:+ html_escape (pd_workflow d) +:+ "</p>" else EmptyString in
  tpl "<h1>Workflow approval required</h1>
<div class=`card`>
  " +:+ workflow_line +:+ "
  <p><strong>Run:</strong> " +:+ html_escape (pd_run d) +:+ "</p>
  <p><strong>Step:</strong> " +:+ html_escape (pd_step d) +:+ "</p>
  <p><strong>Expires:</strong> " +:+ html_escape (pd_expires d) +:+ "</p>
</div>
" +:+ tpl "<form method=`POST` action=`/approvals/" +:+ html_escape (pd_token d) +:+ tpl "`>
  <label for=`reason`>Reason (optional, recorded with your decision):</label>
  <textarea id=`reason` name=`reason` rows=`3`
    placeholder=`e.g. Reviewed the draft; ready to send`></textarea>
  <button class=`approve` name=`decision` value=`approve` type=`submit`>Approve</button>
  <button class=`reject` name=`decision` value=`reject` type=`submit`>Reject</button>
</form>".

Definition decision_body (outcome run gate : string) (reason : option string) : string :=
  let reason_line :=
    match reason with
    | Some r => if str_truthy r
                then "<p><strong>Reason recorded:</strong> " +:+ html_escape r +:+ "</p>" else EmptyString
    | None => EmptyString
    end in
  tpl "<h1 class=`ok`>Decision recorded</h1>
<div class=`card`>
  <p>The workflow step was <strong>" +:+ html_escape outcome +:+ "</strong>.</p>
  <p><strong>Run:</strong> " +:+ html_escape run +:+ "</p>
  <p><strong>Gate:</strong> " +:+ html_escape gate +:+ "</p>
  " +:+ reason_line +:+ "
</div>
<p>You can close this window — the workflow continues automatically.</p>".

(** ** The routes *)

(** [payload.get(k, default)]: only a dictionary has it. *)
Definition json_get_default (payload : json) (k : string) (default : json) : res json :=
  match payload with
  | JDict d => Ok (match dget k d with Some v => v | None => default end)
  | _ => Err (AttributeError "get")
  end.

(** [datetime.fromtimestamp(exp, tz=UTC).strftime("%Y-%m-%d %H:%M UTC")] *)
Definition expiry_text (exp : json) : res string :=
  letr! q := as_number exp in
  let us := round_half_even (Qnum q * 1000000) (Zpos (Qden q)) in
  letr! t := or_raise (ValueError "year is out of range") (dt_add (utc_datetime EPOCH_ORD 0) us) in
  Ok (date_str (dt_date t) +:+ " " +:+ pad 2 (dt_us t / US_PER_SECOND / 3600) +:+ ":" +:+
      pad 2 (dt_us t / US_PER_SECOND / 60 mod 60) +:+ " UTC").

Definition HTTPException (status_code : Z) (detail : string) : exn :=
  OtherError "HTTPException" (pretty status_code +:+ ": " +:+ detail).

(** A form field is text or an uploaded file. *)
Inductive FormValue := FText (s : string) | FFile.

(** What the handlers read of a request; [rq_identity] is
    [request.state.user_identity], when something has set it. *)
Record Request := mk_Request {
  rq_query_decision : option string;
  rq_form : dict string FormValue;
  rq_identity : option string }.

Section Routes.
Context {W Key : Type}.
Context (clock : nat -> datetime) (sign : Key -> string -> string) (json_loads : string -> option json).
(** [str()] of the values [json.loads] gives other than text. *)
Context (str_other : json -> string).

Definition py_str (j : json) : string := match j with JStr s => s | _ => str_other j end.

(** [app.state.signing_key], and whether a run store is wired. *)
Record AppState (Key : Type) := mk_AppState { as_signing_key : Key; as_run_store : bool }.

(** The store failing while the page is enriched is swallowed. *)
Definition workflow_name (app : AppState Key) (rid : string) : M (sys RunStore W) string :=
  if as_run_store _ app && str_truthy rid then
    try_except
      (let! run := on_store (get_run rid) in
       ret (match run with Some r => run_workflow r | None => EmptyString end))
      (fun _ => ret EmptyString)
  else ret EmptyString.

Definition approval_page (app : AppState Key) (raw_token : string) : M (sys RunStore W) HTMLResponse :=
  let! v := lift_res (verify_token sign json_loads raw_token (as_signing_key _ app)) in
  match v with
  | inr err => ret (error_page ("This approval link is not valid (" +:+ err +:+ ").") 401)
  | inl payload =>
      let! rid := lift_res (json_get_default payload "rid" (JStr EmptyString)) in
      let! step := lift_res (json_get_default payload "step" (JStr EmptyString)) in
      let! exp := lift_res (json_get_default payload "exp" (JInt 0)) in
      let! expires_at := lift_res (expiry_text exp) in
      let! name := workflow_name app (py_str rid) in
      ret (page "Approval required"
             (approval_body (mk_PageData name (py_str rid) (py_str step) expires_at raw_token)) 200)
  end.

(** The decision: the query parameter, else the form field. *)
Definition read_decision (rq : Request) : res Decision :=
  let value := match rq_query_decision rq with
               | Some d => Some d
               | None => match dget "decision" (rq_form rq) with Some (FText s) => Some s | _ => None end
               end in
  match value with
  | Some "approve" => Ok Approve
  | Some "reject" => Ok Reject
  | _ => Err (HTTPException 400 "decision must be 'approve' or 'reject'.")
  end.

Definition read_reason (rq : Request) : option string :=
  match dget "reason" (rq_form rq) with
  | Some (FText s) => let s := str_strip s in if str_truthy s then Some s else None
  | _ => None
  end.

Definition web_actor (rq : Request) : string :=
  match rq_identity rq with Some i => i | None => "web_anonymous" end.

Definition outcome_text (d : Decision) : string :=
  match d with Approve => "approved" | Reject => "rejected" end.

Definition submit_approval (app : AppState Key) (raw_token : string) (rq : Request)
    : M (sys RunStore W) HTMLResponse :=
  if negb (as_run_store _ app) then raise (HTTPException 503 "Run store unavailable.")
  else
    let! decision := lift_res (read_decision rq) in
    let reason := read_reason rq in
    fun s =>
      match resolve_gate clock sign json_loads None raw_token decision (web_actor rq) "web"
              (as_signing_key _ app) reason s with
      | (s', Ok d) =>
          (s', Ok (page "Decision recorded"
                     (decision_body (outcome_text (ad_decision d)) (ad_run_id d) (ad_gate_request_id d) reason) 200))
      | (s', Err (GateResolutionError why code)) => (s', Ok (error_page why code))
      | (s', Err e) => (s', Err e)
      end.

End Routes.

(** ** The fan-out *)

Section FanOut.
Context {V : Type} {EC : EmailConnector V} (uuids : nat -> string).

(** The line a channel announces a gate with. *)
Definition announcement (c : ApprovalChannel) (gate : GateRequest) (token : ApprovalToken)
    (raw : string) : LogEntry :=
  match c with
  | MCPApprovalChannel =>
      mk_LogEntry "gate.mcp_token_ready" (gate_fields gate ++ [("token_id", tok_id token)] ++ expiry_field gate)
  | WebApprovalChannel base =>
      mk_LogEntry "gate.web_approval_url"
        (gate_fields gate ++ [("approval_url", approval_url base raw)] ++ expiry_field gate)
  | EmailApprovalChannel _ base =>
      mk_LogEntry "gate.email_approval_links"
        (gate_fields gate ++ [("approve_url", approval_url base raw +:+ "?decision=approve");
           ("reject_url", approval_url base raw +:+ "?decision=reject")] ++ expiry_field gate)
  end.

Definition is_announcement (e : LogEntry) : bool := negb (String.eqb (le_event e) "gate.email_draft_failed").

Lemma emit_announces c gate token raw (s : sys (list LogEntry) V) :
  exists s' more, emit uuids c gate token raw s = (s', Ok tt) /\
    sys_store s' = sys_store s ++ announcement c gate token raw :: more /\ bfilter is_announcement more = [].
Proof.
  destruct c as [|base|connected base]; cbn.
  - by eexists _, [].
  - by eexists _, [].
  - unfold bind, log_info, on_store, zoom, modify. cbn. destruct connected; [|by eexists _, []].
    unfold try_except, bind, uuid4, on_world, zoom. cbn.
    match goal with |- context [ec_create_draft ?m ?v] => destruct (ec_create_draft m v) as [v' [a|e]] end; cbn.
    + by eexists _, [].
    + eexists _, [mk_LogEntry "gate.email_draft_failed" []]. split; [done|]. cbn. by rewrite <- app_assoc.
Qed.

Lemma emit_unsent `{EL : !EmailLaws V} c gate token raw L :
  keeps (unsent L) (emit uuids c gate token raw).
Proof.
  destruct c as [|base|connected base]; cbn; unfold log_info; auto with cam.
  apply keeps_bind; [auto with cam|]. intros _. destruct connected; [|auto with cam].
  apply keeps_try_except; [|auto with cam]. apply keeps_bind; [auto with cam|]. intros id.
  apply keeps_bind; [auto with cam|]. auto with cam.
Qed.

(** What the approvers of a gate are to be told. *)
Definition announcements (gate : GateRequest) (tokens : dict string (string * ApprovalToken))
    (channels : list ApprovalChannel) : list LogEntry :=
  flat_map (fun '(name, (raw, record)) =>
    match dget name (channel_map channels) with Some c => [announcement c gate record raw] | None => [] end) tokens.

(** The fan-out never raises.  Whatever the mail system does, every token whose
    channel is configured is announced on that channel, once and in order, a
    token of another channel is passed over, and no mail is sent: the mail
    channel drafts. *)
Lemma emit_gate_announces `{EL : !EmailLaws V} (gate : GateRequest) tokens channels (s : sys (list LogEntry) V) :
  exists s' new, emit_gate uuids gate tokens channels s = (s', Ok tt) /\
    sys_store s' = sys_store s ++ new /\
    bfilter is_announcement new = announcements gate tokens channels /\
    ec_sent (sys_world s') = ec_sent (sys_world s).
Proof.
  unfold emit_gate. revert s. induction tokens as [|[name [raw record]] tokens IH]; intros s.
  { exists s, []. by rewrite app_nil_r. }
  cbn [for_each announcements flat_map].
  destruct (dget name (channel_map channels)) as [c|].
  - destruct (emit_announces c gate record raw s) as (s1 & more & E & Hs1 & Hm).
    assert (ec_sent (sys_world s1) = ec_sent (sys_world s)) as Hw.
    { pose proof (emit_unsent c gate record raw (ec_sent (sys_world s)) s eq_refl) as H. by rewrite E in H. }
    destruct (IH s1) as (s2 & new & E2 & Hs2 & Hf & Hw2).
    exists s2, (announcement c gate record raw :: more ++ new).
    rewrite (bind_ok_eq _ _ s s1 tt), E2 by (unfold try_except; by rewrite E).
    split; [done|]. split. { rewrite Hs2, Hs1, <- app_assoc. done. }
    split; [|congruence]. rewrite bfilter_cons.
    assert (is_announcement (announcement c gate record raw) = true) as -> by by destruct c.
    rewrite bfilter_app, Hm. cbn. f_equal. exact Hf.
  - destruct (IH s) as (s2 & new & E2 & Hs2 & Hf & Hw2). by exists s2, new.
Qed.

End FanOut.

(** ** Pages *)

(** The characters that can begin or end markup or an attribute. *)
Definition markup_char (c : ascii) : bool :=
  Ascii.eqb c "<"%char || Ascii.eqb c ">"%char || Ascii.eqb c DQUOTE || Ascii.eqb c SQUOTE.

Definition markup (s : string) : list ascii := bfilter markup_char (list_ascii_of_string s).

Lemma markup_app a b : markup (a +:+ b) = markup a ++ markup b.
Proof. unfold markup. by rewrite list_ascii_app, bfilter_app. Qed.

Lemma markup_escape s : markup (html_escape s) = [].
Proof.
  induction s as [|c s IH]; [done|]. cbn [html_escape]. rewrite markup_app, IH, app_nil_r.
  unfold html_char. repeat (case_match; [done|]). unfold markup. cbn [list_ascii_of_string].
  rewrite bfilter_cons. unfold markup_char. by repeat match goal with H : Ascii.eqb _ _ = false |- _ => rewrite H; clear H end.
Qed.

(** Escaping loses nothing: no character's code is a prefix of another's. *)
Lemma html_char_inj c c' a b : html_char c +:+ a = html_char c' +:+ b -> c = c' /\ a = b.
Proof.
  unfold html_char. intros H.
  repeat match type of H with context [Ascii.eqb ?x ?y] => destruct (Ascii.eqb_spec x y); subst end;
    cbn in H; simplify_eq; try done; by injection H.
Qed.

Lemma html_escape_inj s s' : html_escape s = html_escape s' -> s = s'.
Proof.
  revert s'. induction s as [|c s IH]; intros [|c' s'] H; [done| | |].
  - exfalso. cbn in H. unfold html_char in H. repeat case_match; discriminate.
  - exfalso. cbn in H. unfold html_char in H. repeat case_match; discriminate.
  - apply html_char_inj in H as [-> H]. f_equal. by apply IH.
Qed.

Lemma markup_page title title' body body' code code' :
  markup body = markup body' -> markup (hr_body (page title body code)) = markup (hr_body (page title' body' code')).
Proof. intros H. unfold page. cbn [hr_body]. by rewrite !markup_app, !markup_escape, H. Qed.

(** Nothing that is put into a page changes its markup.  The tags, attributes
    and quotes of an error page, of a request page and of a confirmation page
    are the same whatever reason, run, step, workflow, gate or token they show
    (up to the presence of the optional line), so none of them can smuggle in
    markup or a script; and the text is shown faithfully: escaping is injective. *)
Lemma pages_carry_no_markup :
  (forall why why' code code', markup (hr_body (error_page why code)) = markup (hr_body (error_page why' code'))) /\
  (forall d d' title code, str_truthy (pd_workflow d) = str_truthy (pd_workflow d') ->
     markup (hr_body (page title (approval_body d) code)) = markup (hr_body (page title (approval_body d') code))) /\
  (forall o o' r r' g g' why why' title code, opt_truthy why = opt_truthy why' ->
     markup (hr_body (page title (decision_body o r g why) code))
     = markup (hr_body (page title (decision_body o' r' g' why') code))) /\
  (forall x y, html_escape x = html_escape y -> x = y).
Proof.
  split; [|split; [|split]].
  - intros why why' code code'. apply markup_page. by rewrite !markup_app, !markup_escape.
  - intros d d' title code Hw. apply markup_page. unfold approval_body. rewrite Hw.
    destruct (str_truthy (pd_workflow d')); by rewrite !markup_app, !markup_escape.
  - intros o o' r r' g g' why why' title code Hw. apply markup_page. unfold decision_body.
    assert (forall w, (match w with Some x => if str_truthy x then
              "<p><strong>Reason recorded:</strong> " +:+ html_escape x +:+ "</p>" else EmptyString
              | None => EmptyString end)
            = if opt_truthy w then "<p><strong>Reason recorded:</strong> " +:+
                html_escape (match w with Some x => x | None => EmptyString end) +:+ "</p>" else EmptyString) as E
      by by intros [].
    rewrite !E, Hw. destruct (opt_truthy why'); by rewrite !markup_app, !markup_escape.
  - apply html_escape_inj.
Qed.

(** ** Submissions *)

Section Submit.
Context {W Key : Type}.
Context (clock : nat -> datetime) (sign : Key -> string -> string) (json_loads : string -> option json).

Lemma submission_cases (app : AppState Key) (raw : string) (rq : Request) (s s' : sys RunStore W)
    (resp : HTMLResponse) :
  submit_approval clock sign json_loads app raw rq s = (s', Ok resp) ->
  (exists decision d, read_decision rq = Ok decision /\
     resp = page "Decision recorded"
              (decision_body (outcome_text decision) (ad_run_id d) (ad_gate_request_id d) (read_reason rq)) 200 /\
     resolved clock sign json_loads raw decision (web_actor rq) (as_signing_key _ app) s s' d /\
     exists i r, rq_identity rq = Some i /\ role_of i = Some r /\ GATE_APPROVE ∈ GRANTS r) \/
  (exists why code, resp = error_page why code /\ only_token_burnt (sys_store s) (sys_store s')).
Proof.
  unfold submit_approval. destruct (as_run_store _ app); [|done]. cbn [negb].
  unfold bind, lift_res. destruct (read_decision rq) as [decision|e]; [|done].
  destruct (resolve_gate _ _ _ _ _ _ _ _ _ _ s) as [s1 r] eqn:E. destruct r as [d|e].
  - intros [= <- <-]. left. exists decision, d. apply resolve_gate_ok in E.
    destruct (rv_decision _ _ _ _ _ _ _ _ _ _ E) as [Hd Ha].
    destruct (rv_gate _ _ _ _ _ _ _ _ _ _ E) as (g & r & _ & _ & Hr & _ & Hg & _).
    split; [done|]. split; [by rewrite Hd|]. split; [done|]. unfold web_actor in Hr.
    destruct (rq_identity rq) as [i|]; [|done]. by exists i, r.
  - destruct e; try done. intros [= <- <-]. right. do 2 eexists. split; [done|].
    by apply resolve_gate_refused in E.
Qed.

(** C30: Every answer to a submission is true.  A confirmation is shown exactly for a
    gate that was resolved as asked, with a valid token and by an identified
    actor whose role is the required one and may approve; any other page is an
    error page, and then nothing has changed but, at most, the token's mark. *)
Theorem submission_truthful (app : AppState Key) (raw : string) (rq : Request) (s s' : sys RunStore W)
    (resp : HTMLResponse) :
  submit_approval clock sign json_loads app raw rq s = (s', Ok resp) ->
  (exists decision d, read_decision rq = Ok decision /\
     resp = page "Decision recorded"
              (decision_body (outcome_text decision) (ad_run_id d) (ad_gate_request_id d) (read_reason rq)) 200 /\
     resolved clock sign json_loads raw decision (web_actor rq) (as_signing_key _ app) s s' d /\
     exists i r, rq_identity rq = Some i /\ role_of i = Some r /\ GATE_APPROVE ∈ GRANTS r) \/
  (exists why code, resp = error_page why code /\ only_token_burnt (sys_store s) (sys_store s')).
Proof. apply submission_cases. Qed.

(** A request nobody has identified never gets a confirmation. *)
Lemma anonymous_never_decides (app : AppState Key) raw rq (s s' : sys RunStore W) resp :
  rq_identity rq = None ->
  submit_approval clock sign json_loads app raw rq s = (s', Ok resp) ->
  exists why code, resp = error_page why code /\ only_token_burnt (sys_store s) (sys_store s').
Proof.
  intros Hi H. apply submission_cases in H as [(decision & d & _ & _ & _ & i & r & Hi' & _)|H]; [congruence|done].
Qed.

End Submit.

(** ** Concrete requests *)

Definition ex_app : AppState unit := mk_AppState unit tt true.

Definition ex_post (identity : option string) : Request :=
  mk_Request None [("decision", FText "approve"); ("reason", FText " <b>ok</b> ")] identity.

Definition ex_submit (identity : option string) : M (sys RunStore unit) HTMLResponse :=
  submit_approval ex_clock ex_sign ex_loads ex_app ex_raw (ex_post identity).

Definition ex_confirmation : HTMLResponse :=
  page "Decision recorded" (decision_body "approved" "r1" "g1" (Some "<b>ok</b>")) 200.

Lemma submission_truthful_witness :
  snd (ex_submit (Some "attorney") ex_gate_sys) = Ok ex_confirmation /\
  ((exists decision d, read_decision (ex_post (Some "attorney")) = Ok decision /\
     ex_confirmation = page "Decision recorded"
       (decision_body (outcome_text decision) (ad_run_id d) (ad_gate_request_id d)
          (read_reason (ex_post (Some "attorney")))) 200 /\
     resolved ex_clock ex_sign ex_loads ex_raw decision "attorney" tt ex_gate_sys
       (fst (ex_submit (Some "attorney") ex_gate_sys)) d /\
     exists i r, Some "attorney" = Some i /\ role_of i = Some r /\ GATE_APPROVE ∈ GRANTS r) \/
   (exists why code, ex_confirmation = error_page why code /\
      only_token_burnt ex_gate_store (sys_store (fst (ex_submit (Some "attorney") ex_gate_sys))))).
Proof.
  assert (ex_submit (Some "attorney") ex_gate_sys
          = (fst (ex_submit (Some "attorney") ex_gate_sys), Ok ex_confirmation)) as E
    by (vm_compute; reflexivity).
  split; [by rewrite E|].
  exact (submission_truthful ex_clock ex_sign ex_loads ex_app ex_raw (ex_post (Some "attorney")) ex_gate_sys
    (fst (ex_submit (Some "attorney") ex_gate_sys)) ex_confirmation E).
Defined.

(** As nothing in the program sets the identity of a request, the web channel
    refuses every approver, and uses the token up while doing so. *)
Example web_refuses_everyone :
  snd (ex_submit None ex_gate_sys) = Ok (error_page "Insufficient role to approve this gate." 403) /\
  snd (ex_submit (Some "attorney") (fst (ex_submit None ex_gate_sys))) =
    Ok (error_page "Token has already been used." 409).
Proof. split; vm_compute; reflexivity. Qed.

Definition ex_channels : list ApprovalChannel :=
  [MCPApprovalChannel; WebApprovalChannel "https://firm.example/"; EmailApprovalChannel true "https://firm.example"].

Definition ex_tokens : dict string (string * ApprovalToken) :=
  [("web", ("RAW", ex_token)); ("email", ("RAW2", ex_token)); ("sms", ("RAW3", ex_token))].

Definition ex_channel_sys : sys (list LogEntry) RefWorld := mk_sys [] empty_ref_world 0 0.

Definition ex_emit : CM (V := RefWorld) unit :=
  emit_gate (EC := ref_email ex_uuids) ex_uuids ex_gate ex_tokens ex_channels.

(** The raw token, whose holder may decide, is written to the log in full. *)
Example raw_token_logged :
  map (fun e => dget "approval_url" (le_fields e)) (sys_store (fst (ex_emit ex_channel_sys))) =
    [Some "https://firm.example/approvals/RAW"; None].
Proof. vm_compute. reflexivity. Qed.

Lemma emit_gate_announces_witness :
  exists s' new, ex_emit ex_channel_sys = (s', Ok tt) /\ sys_store s' = [] ++ new /\
    bfilter is_announcement new = announcements ex_gate ex_tokens ex_channels /\
    ref_sent (sys_world s') = ref_sent empty_ref_world.
Proof.
  exact (emit_gate_announces (EC := ref_email ex_uuids) (EL := ref_email_laws ex_uuids) ex_uuids ex_gate ex_tokens
    ex_channels ex_channel_sys).
Defined.
