(* ===== verification/Flow.v ===== *)
(** * Flow: what the built-in workflows share

    The workflows of core/workflows/ are classes whose methods read the outputs
    of earlier steps from their context and return a dictionary.  [method] makes
    a handler of such a method; [call_steps] calls the handlers of a workflow
    one after the other, each on the outputs of those before it, which is what
    the engine does between two gates ([EngineSpec.engine_refines_spec]). *)

From Stdlib Require Import ZArith Lia Ascii String List.
From stdpp Require Import base list strings.
From S2P Require Import Prelude PyTime ConnErrors Effects States RunStore Dsl Idem Gates Engine Triggers.

Open Scope string_scope.
Open Scope list_scope.
Open Scope Z_scope.
Open Scope cam_scope.

Definition NL : string := String (ascii_of_N 10) EmptyString.

Section Flow.
Context {W : Type}.

(** An [async] method that leaves its context object alone. *)
Definition method (f : StepContext W -> M W jdict) : Handler W := fun wc =>
  let '(w, r) := f (snd wc) (fst wc) in
  ((w, snd wc), letr! o := r in Ok (Some o)).

(** [ctx.output(step) or {}], of which [.get] is then taken. *)
Definition prior_output (step : string) (ctx : StepContext W) : res jdict :=
  match ctx_output step ctx with
  | Some (JDict d) => Ok d
  | None => Ok []
  | Some j => if json_truthy j then Err (AttributeError "get") else Ok []
  end.

(** [d.get(k, default)] *)
Definition dget_or (k : string) (default : json) (d : jdict) : json :=
  match dget k d with Some j => j | None => default end.

(** One step: the handler on the outputs so far. *)
Definition call_step (hs : dict string (Handler W)) (rid : string) (context : jdict) (step : string)
    (outputs : jdict) : M W jdict :=
  let! h := lift_res (or_raise (KeyError step) (dget step hs)) in
  fun w =>
    let '((w, _), r) := h (w, new_context rid context outputs (step_key rid step)) in
    (w, letr! o := r in
        Ok (set_output step (match o with Some o => o | None => [] end) outputs)).

Fixpoint call_steps (hs : dict string (Handler W)) (rid : string) (context : jdict)
    (steps : list string) (outputs : jdict) : M W jdict :=
  match steps with
  | [] => ret outputs
  | step :: steps' =>
      let! outputs := call_step hs rid context step outputs in
      call_steps hs rid context steps' outputs
  end.

Lemma call_step_method hs rid context step outputs f w :
  dget step hs = Some (method f) ->
  call_step hs rid context step outputs w =
    let '(w', r) := f (new_context rid context outputs (step_key rid step)) w in
    (w', letr! o := r in Ok (set_output step o outputs)).
Proof.
  intros E. unfold call_step, bind, lift_res. rewrite E. cbn.
  unfold method. cbn. by destruct (f _ w) as [w' [o|e]].
Qed.

Lemma call_steps_app hs rid context l1 l2 outputs w :
  call_steps hs rid context (l1 ++ l2) outputs w =
    (let! o := call_steps hs rid context l1 outputs in call_steps hs rid context l2 o) w.
Proof.
  revert outputs w. induction l1 as [|x l1 IH]; intros outputs w; cbn [app call_steps]; [done|].
  unfold bind in *. destruct (call_step _ _ _ _ _ w) as [w' [o|e]]; [|done]. apply IH.
Qed.

(** What every handler keeps, a sequence of them keeps. *)
Lemma keeps_call_steps P hs rid context steps outputs :
  (forall step, step ∈ steps -> exists f, dget step hs = Some (method f) /\ forall ctx, keeps P (f ctx)) ->
  keeps P (call_steps hs rid context steps outputs).
Proof.
  revert outputs. induction steps as [|x l IH]; intros outputs Hf; cbn [call_steps]; [apply keeps_ret|].
  apply keeps_bind.
  - destruct (Hf x) as (f & Hx & Hk); [by left|]. intros w Hw.
    rewrite (call_step_method _ _ _ _ _ _ w Hx). specialize (Hk (new_context rid context outputs (step_key rid x)) w Hw).
    by destruct (f _ w).
  - intros o. apply IH. intros step Hs. apply Hf. by right.
Qed.

Lemma prior_output_set step step' o outputs rid context key :
  prior_output step (new_context rid context (set_output step' o outputs) key) =
    if decide (step = step') then Ok o else prior_output step (new_context rid context outputs key).
Proof.
  unfold prior_output, ctx_output, set_output. cbn. rewrite dget_dset. by case_decide.
Qed.
End Flow.
