(* ===== verification/Reconcile.v ===== *)
(** * Reconcile: core/services/deadline/reconcile.py

    Comparing the engine's deadlines with the case system's and reporting drift.
    The case connector is a parameter of the model (a port whose adapters call a
    vendor), as are the alert and audit callbacks. *)

From Stdlib Require Import ZArith Lia Ascii String List.
From stdpp Require Import base list strings pretty sorting.
From S2P Require Import Prelude PyTime ConnErrors Effects Domain DeadlineTypes Compute Schedule.

Open Scope string_scope.
Open Scope list_scope.
Open Scope Z_scope.
Open Scope cam_scope.

Section Reconcile.
Context {W : Type} (clock : nat -> datetime).
(** [CaseConnector.list_deadlines]; [None]: no connector configured. *)
Context (case_list : option (string -> M W (list Deadline))).
Context (alert_fn : option (string -> jdict -> M W unit)).
Context (audit_fn : option (AuditEvent -> M W unit)).
(** [str(exc)] and the quoting of [{x!r}] in messages. *)
Context (exn_str : exn -> string) (quote : string -> string).

Definition RM (A : Type) : Type := M (sys DeadlineStore W) A.

Definition maybe_alert (event : string) (payload : jdict) : RM unit :=
  match alert_fn with
  | None => ret tt
  | Some f => try_pass (on_world (f event payload))
  end.

Definition reconcile_audit (action matter_id : string) (outputs : jdict) : RM unit :=
  match audit_fn with
  | None => ret tt
  | Some f => try_pass (on_world (f (mk_AuditEvent "deadline_reconciler" action
      [("matter_id", JStr matter_id)] outputs None)))
  end.

(** [{sd.deadline_id: sd for sd in list_for_matter(matter_id)}] *)
Definition engine_deadlines (matter_id : string) (st : DeadlineStore) : dict string ScheduledDeadline :=
  fold_left (fun d sd => dset (sd_deadline_id sd) sd d) (list_for_matter matter_id st) [].

Definition case_match (rule_id : string) (case_deadlines : list Deadline) : option Deadline :=
  find_first (fun d => bool_decide (d_rule_id d = Some rule_id)) case_deadlines.

(** More than a day apart. *)
Definition diverges (case_due engine_due : datetime) : bool :=
  US_PER_DAY <? Z.abs (instant case_due - instant engine_due).

Definition engine_finding (now : datetime) (matter_id : string) (case_deadlines : list Deadline)
    (did : string) (sd : ScheduledDeadline) : list Drift :=
  let rule_id := rr_rule_id (sd_rule_ref sd) in
  match case_match rule_id case_deadlines with
  | None => [mk_Drift matter_id (Some did) MissingInCase
      ("Rule " +:+ quote rule_id +:+ " scheduled in engine but not found in case system.") now]
  | Some d =>
      if diverges (d_due_at d) (ct_due_at (sd_trace sd)) then
        [mk_Drift matter_id (Some did) DivergentDueAt
          ("Engine due_at=" +:+ isoformat (ct_due_at (sd_trace sd)) +:+ ", case due_at="
             +:+ isoformat (d_due_at d)) now]
      else []
  end.

Definition case_finding (now : datetime) (matter_id : string) (engine : dict string ScheduledDeadline)
    (case_d : Deadline) : list Drift :=
  match d_rule_id case_d with
  | Some rule_id =>
      if negb (existsb (fun sd => String.eqb (rr_rule_id (sd_rule_ref sd)) rule_id) (dvalues engine))
           && str_truthy rule_id
      then [mk_Drift matter_id None MissingInEngine
        ("Case system has deadline with rule_id=" +:+ quote rule_id +:+ " not in engine.") now]
      else []
  | None => []
  end.

Definition drift_findings (now : datetime) (matter_id : string) (engine : dict string ScheduledDeadline)
    (case_deadlines : list Deadline) : list Drift :=
  flat_map (fun p => engine_finding now matter_id case_deadlines p.1 p.2) engine ++
  flat_map (case_finding now matter_id engine) case_deadlines.

Definition fetch_case (matter_id : string) : RM (list Deadline) :=
  match case_list with
  | None => ret []
  | Some f => on_world (f matter_id)
  end.

(** What happens once the case system's list is known. *)
Definition report_drift (now : datetime) (matter_id : string) (engine : dict string ScheduledDeadline)
    (case_deadlines : list Deadline) : RM (list Drift) :=
  let findings := drift_findings now matter_id engine case_deadlines in
  for_each findings (fun f => maybe_alert "reconciliation_drift"
    [("kind", JStr (drift_kind_value (df_kind f))); ("matter_id", JStr matter_id)]) ;;
  (reconcile_audit "reconcile.complete" matter_id [("drift_count", JInt (Z.of_nat (length findings)))] ;;
  ret findings).

(** [except Exception]: park, alert and return no findings. *)
Definition park_reconcile (matter_id : string) (e : exn) : RM (list Drift) :=
  maybe_alert "reconciliation_connector_error"
    [("matter_id", JStr matter_id); ("error", JStr (exn_str e))] ;;
  (reconcile_audit "reconcile.connector_error" matter_id [] ;;
  ret []).

Definition reconcile (matter_id : string) : RM (list Drift) :=
  let! now := get_now clock in
  let! engine := on_store (gets (engine_deadlines matter_id)) in
  fun s =>
  match fetch_case matter_id s with
  | (s', Ok case_deadlines) => report_drift now matter_id engine case_deadlines s'
  | (s', Err e) => park_reconcile matter_id e s'
  end.
End Reconcile.

(** ** Lemmas *)

Section EngineIndex.
Context (matter_id : string) (st : DeadlineStore).

Abbreviation index l d := (fold_left (fun d sd => dset (sd_deadline_id sd) sd d) l d).

Lemma index_in l (d : dict string ScheduledDeadline) did sd :
  (did, sd) ∈ index l d -> (did, sd) ∈ d \/ (sd ∈ l /\ did = sd_deadline_id sd).
Proof.
  revert d. induction l as [|x l IH]; cbn [fold_left]; intros d H; [by left|].
  apply IH in H as [H|[H ->]]; [|right; split; [by right|done]].
  apply in_dset in H as [[= -> ->]|H]; [right; split; [left|done]|by left].
Qed.

Lemma index_other l d k :
  (forall x, x ∈ l -> sd_deadline_id x <> k) -> dget k (index l d) = dget k d.
Proof.
  revert d. induction l as [|x l IH]; cbn [fold_left]; intros d H; [done|].
  rewrite IH by (intros y Hy; apply H; by right). rewrite dget_dset_ne; [done|].
  intros E. apply (H x); [left|congruence].
Qed.

Lemma index_get l d sd :
  sd ∈ l -> (forall x, x ∈ l -> sd_deadline_id x = sd_deadline_id sd -> x = sd) ->
  dget (sd_deadline_id sd) (index l d) = Some sd.
Proof.
  revert d. induction l as [|x l IH]; cbn [fold_left]; intros d Hin Hu; [by apply elem_of_nil in Hin|].
  destruct (decide (Exists (fun y => sd_deadline_id y = sd_deadline_id sd) l)) as [He|He].
  - apply Exists_exists in He as (y & Hy & Ey). apply IH; [|intros z Hz; apply Hu; by right].
    rewrite <- (Hu y); [done|by right|done].
  - assert (forall y, y ∈ l -> sd_deadline_id y <> sd_deadline_id sd) as Hno.
    { intros y Hy Ey. apply He, Exists_exists. eauto. }
    rewrite index_other by done. apply elem_of_cons in Hin as [->|Hin]; [apply dget_dset_eq|].
    by apply Hno in Hin.
Qed.

(** Every record is filed under its own id, once. *)
Definition store_indexed : Prop :=
  dict_wf (dl_deadlines st) /\ forall did d, dl_get did st = Some d -> sd_deadline_id d = did.

Lemma engine_deadlines_spec did sd :
  store_indexed ->
  (did, sd) ∈ engine_deadlines matter_id st <-> dl_get did st = Some sd /\ sd_matter_id sd = matter_id.
Proof.
  intros [Hwf Hid]. unfold engine_deadlines.
  assert (forall x, x ∈ list_for_matter matter_id st ->
    dl_get (sd_deadline_id x) st = Some x /\ sd_matter_id x = matter_id) as Hl.
  { intros x Hx. apply elem_of_bfilter in Hx as [Hx Hm]. apply String.eqb_eq in Hm.
    destruct (dvalues_in_dget _ _ Hwf Hx) as [k Hk]. split; [|done]. rewrite (Hid k x Hk). exact Hk. }
  split.
  - intros [Hn|[Hx ->]]%index_in; [by apply elem_of_nil in Hn|by apply Hl].
  - intros [Hd Hm]. rewrite <- (Hid _ _ Hd). apply dget_Some_in, index_get.
    + apply elem_of_bfilter. split; [|by apply String.eqb_eq].
      unfold dl_get in Hd. apply dget_Some_in in Hd. unfold dvalues. apply list_elem_of_fmap.
      by exists (did, sd).
    + intros x Hx E. apply Hl in Hx as [Hx _]. rewrite E, (Hid _ _ Hd), Hd in Hx. congruence.
Qed.
End EngineIndex.

Lemma find_first_is_Some {A} (p : A -> bool) l x :
  x ∈ l -> p x = true -> exists y, find_first p l = Some y.
Proof.
  intros Hin Hp. destruct (find_first p l) as [y|] eqn:E; [eauto|].
  rewrite find_first_None in E. rewrite E in Hp by done. done.
Qed.

Lemma case_match_None rid l : case_match rid l = None <-> forall d, d ∈ l -> d_rule_id d <> Some rid.
Proof.
  unfold case_match. rewrite find_first_None. split; intros H d Hd.
  - specialize (H d Hd). by apply bool_decide_eq_false in H.
  - apply bool_decide_eq_false. auto.
Qed.

(** What a correct report says about a matter. *)
Record drift_report (quote : string -> string) (now : datetime) (matter_id : string)
    (st : DeadlineStore) (case : list Deadline) (fs : list Drift) : Prop := mk_drift_report {
  dr_all : forall f, f ∈ fs -> df_matter_id f = matter_id /\ df_detected_at f = now /\ df_kind f <> DivergentStatus;
  dr_missing_case : forall did, (exists f, f ∈ fs /\ df_kind f = MissingInCase /\ df_deadline_id f = Some did) <->
    exists sd, dl_get did st = Some sd /\ sd_matter_id sd = matter_id /\
      forall d, d ∈ case -> d_rule_id d <> Some (rr_rule_id (sd_rule_ref sd));
  dr_divergent : forall did, (exists f, f ∈ fs /\ df_kind f = DivergentDueAt /\ df_deadline_id f = Some did) <->
    exists sd d, dl_get did st = Some sd /\ sd_matter_id sd = matter_id /\
      case_match (rr_rule_id (sd_rule_ref sd)) case = Some d /\
      US_PER_DAY < Z.abs (instant (d_due_at d) - instant (ct_due_at (sd_trace sd)));
  dr_missing_engine : forall f, (f ∈ fs /\ df_kind f = MissingInEngine) <->
    exists d rid, d ∈ case /\ d_rule_id d = Some rid /\ rid <> "" /\
      (forall did sd, dl_get did st = Some sd -> sd_matter_id sd = matter_id ->
         rr_rule_id (sd_rule_ref sd) <> rid) /\
      f = mk_Drift matter_id None MissingInEngine
        ("Case system has deadline with rule_id=" +:+ quote rid +:+ " not in engine.") now }.

Section Correct.
Context (quote : string -> string) (now : datetime) (matter_id : string) (st : DeadlineStore).
Context (case : list Deadline) (Hst : store_indexed st).

Abbreviation engine := (engine_deadlines matter_id st).
Abbreviation findings := (drift_findings quote now matter_id engine case).

Lemma findings_in f :
  f ∈ findings <->
  (exists did sd, dl_get did st = Some sd /\ sd_matter_id sd = matter_id /\
     f ∈ engine_finding quote now matter_id case did sd) \/
  (exists d, d ∈ case /\ f ∈ case_finding quote now matter_id engine d).
Proof.
  unfold drift_findings. rewrite elem_of_app, !list_elem_of_In, !in_flat_map.
  setoid_rewrite <- list_elem_of_In. split.
  - intros [([did sd] & Hp & Hf)|(d & Hd & Hf)]; [left|right; eauto].
    apply engine_deadlines_spec in Hp as [? ?]; [|done]. exists did, sd. eauto.
  - intros [(did & sd & Hg & Hm & Hf)|(d & Hd & Hf)]; [left|right; eauto].
    exists (did, sd). split; [by apply engine_deadlines_spec|done].
Qed.

Lemma engine_finding_in did sd f :
  f ∈ engine_finding quote now matter_id case did sd ->
  df_matter_id f = matter_id /\ df_detected_at f = now /\ df_deadline_id f = Some did /\
  ((df_kind f = MissingInCase /\ case_match (rr_rule_id (sd_rule_ref sd)) case = None) \/
   (df_kind f = DivergentDueAt /\ exists d, case_match (rr_rule_id (sd_rule_ref sd)) case = Some d /\
      diverges (d_due_at d) (ct_due_at (sd_trace sd)) = true)).
Proof.
  unfold engine_finding. destruct (case_match _ case) as [d|] eqn:Em.
  - destruct (diverges _ _) eqn:Ed; [|by intros Hn%elem_of_nil]. intros ->%list_elem_of_singleton.
    do 3 (split; [done|]). right. eauto.
  - intros ->%list_elem_of_singleton. do 3 (split; [done|]). by left.
Qed.

Lemma case_finding_in d f :
  f ∈ case_finding quote now matter_id engine d <->
  exists rid, d_rule_id d = Some rid /\ rid <> "" /\
    (forall did sd, dl_get did st = Some sd -> sd_matter_id sd = matter_id ->
       rr_rule_id (sd_rule_ref sd) <> rid) /\
    f = mk_Drift matter_id None MissingInEngine
      ("Case system has deadline with rule_id=" +:+ quote rid +:+ " not in engine.") now.
Proof.
  unfold case_finding. destruct (d_rule_id d) as [rid|]; [|split; [by intros Hn%elem_of_nil|naive_solver]].
  assert (existsb (fun sd => String.eqb (rr_rule_id (sd_rule_ref sd)) rid) (dvalues engine) = false <->
    forall did sd, dl_get did st = Some sd -> sd_matter_id sd = matter_id ->
      rr_rule_id (sd_rule_ref sd) <> rid) as Hex.
  { rewrite <- not_true_iff_false, existsb_exists. split.
    - intros Hn did sd Hg Hm E. apply Hn. exists sd. rewrite String.eqb_eq. split; [|done].
      apply list_elem_of_In, list_elem_of_fmap. exists (did, sd). split; [done|].
      by apply engine_deadlines_spec.
    - intros Hn (sd & Hin & E). apply String.eqb_eq in E. apply list_elem_of_In in Hin.
      apply list_elem_of_fmap in Hin as ([did sd'] & -> & Hin). cbn in E.
      apply engine_deadlines_spec in Hin as [Hg Hm]; [|done]. by apply (Hn did sd' Hg Hm). }
  unfold str_truthy. destruct (String.eqb_spec rid "") as [->|Hr].
  - rewrite andb_false_r. split; [by intros Hn%elem_of_nil|naive_solver].
  - rewrite andb_true_r. destruct (existsb _ _) eqn:Ee; cbn [negb].
    + split; [by intros Hn%elem_of_nil|]. intros (rid' & [= <-] & _ & Hn & _). apply Hex in Hn. done.
    + rewrite list_elem_of_singleton. split; [|naive_solver]. intros ->. exists rid.
      split; [done|]. split; [done|]. split; [by apply Hex|done].
Qed.

Lemma findings_report : drift_report quote now matter_id st case findings.
Proof.
  split.
  - intros f. rewrite findings_in. intros [(did & sd & _ & _ & Hf)|(d & _ & Hf)].
    + apply engine_finding_in in Hf as (? & ? & _ & [[-> _]|[-> _]]); done.
    + apply case_finding_in in Hf as (rid & _ & _ & _ & ->). done.
  - intros did. split.
    + intros (f & Hf & Hk & Hd). apply findings_in in Hf as [(did' & sd & Hg & Hm & Hf)|(d & _ & Hf)].
      * apply engine_finding_in in Hf as (_ & _ & Hd' & [[_ Hc]|[Hk' _]]); [|congruence].
        assert (did' = did) as -> by congruence. exists sd. split; [done|]. split; [done|].
        by apply case_match_None.
      * apply case_finding_in in Hf as (rid & _ & _ & _ & ->). done.
    + intros (sd & Hg & Hm & Hc). apply case_match_None in Hc.
      eexists. rewrite findings_in. split; [left; exists did, sd; split; [done|split; [done|]]|].
      * unfold engine_finding. rewrite Hc. left.
      * done.
  - intros did. split.
    + intros (f & Hf & Hk & Hd). apply findings_in in Hf as [(did' & sd & Hg & Hm & Hf)|(d & _ & Hf)].
      * apply engine_finding_in in Hf as (_ & _ & Hd' & [[Hk' _]|[_ (d & Hc & Hv)]]); [congruence|].
        assert (did' = did) as -> by congruence. exists sd, d. split; [done|]. split; [done|].
        split; [done|]. by apply Z.ltb_lt.
      * apply case_finding_in in Hf as (rid & _ & _ & _ & ->). done.
    + intros (sd & d & Hg & Hm & Hc & Hv). apply Z.ltb_lt in Hv.
      eexists. rewrite findings_in. split; [left; exists did, sd; split; [done|split; [done|]]|].
      * unfold engine_finding, diverges. rewrite Hc, Hv. left.
      * done.
  - intros f. split.
    + intros [Hf Hk]. apply findings_in in Hf as [(did' & sd & Hg & Hm & Hf)|(d & Hd & Hf)].
      * apply engine_finding_in in Hf as (_ & _ & _ & [[? _]|[? _]]); congruence.
      * apply case_finding_in in Hf as (rid & Hr & Hne & Hn & ->). exists d, rid. done.
    + intros (d & rid & Hd & Hr & Hne & Hn & ->). split; [|done]. apply findings_in. right.
      exists d. split; [done|]. apply case_finding_in. eauto.
Qed.
End Correct.

Section Reconciler.
Context {W : Type} (clock : nat -> datetime).
Context (case_list : option (string -> M W (list Deadline))).
Context (alert_fn : option (string -> jdict -> M W unit)) (audit_fn : option (AuditEvent -> M W unit)).
Context (exn_str : exn -> string) (quote : string -> string).

Lemma alert_total ev p (s : sys DeadlineStore W) :
  exists s', maybe_alert alert_fn ev p s = (s', Ok tt) /\ sys_store s' = sys_store s.
Proof.
  unfold maybe_alert. destruct alert_fn as [f|]; [|by exists s].
  unfold try_pass, on_world, zoom. destruct (f ev p _). by eexists.
Qed.

Lemma reconcile_audit_total a m o (s : sys DeadlineStore W) :
  exists s', reconcile_audit audit_fn a m o s = (s', Ok tt) /\ sys_store s' = sys_store s.
Proof.
  unfold reconcile_audit. destruct audit_fn as [f|]; [|by exists s].
  unfold try_pass, on_world, zoom. destruct (f _ _). by eexists.
Qed.

Lemma report_drift_total now m engine case (s : sys DeadlineStore W) :
  exists s', report_drift alert_fn audit_fn quote now m engine case s =
    (s', Ok (drift_findings quote now m engine case)) /\ sys_store s' = sys_store s.
Proof.
  unfold report_drift. generalize (drift_findings quote now m engine case) as fs. intros fs. cbv zeta.
  assert (forall l (s0 : sys DeadlineStore W), exists s1, for_each l (fun f => maybe_alert alert_fn
    "reconciliation_drift" [("kind", JStr (drift_kind_value (df_kind f))); ("matter_id", JStr m)]) s0 =
    (s1, Ok tt) /\ sys_store s1 = sys_store s0) as Hl.
  { induction l as [|f l IH]; intros s0; cbn [for_each]; [by exists s0|].
    match goal with |- context [maybe_alert alert_fn ?e ?p] => destruct (alert_total e p s0) as (s1 & E1 & Es1) end.
    destruct (IH s1) as (s2 & E2 & Es2). exists s2. unfold bind. rewrite E1. split; [done|congruence]. }
  destruct (Hl fs s) as (s1 & E1 & Es1). unfold bind at 1. rewrite E1.
  match goal with |- context [reconcile_audit audit_fn ?a ?b ?o] =>
    destruct (reconcile_audit_total a b o s1) as (s2 & E2 & Es2) end.
  exists s2. unfold bind. rewrite E2. split; [done|congruence].
Qed.

(** Reconciliation.  It never raises and never changes the engine's store.
    When the case system answers (or no connector is configured, which reads as
    an empty list), the findings are exactly the drift between the matter's
    engine records and the case system's deadlines, by rule id: missing in the
    case system, missing in the engine, or more than a day apart.  When the case
    system fails, the result is the empty list, as if there were no drift. *)
Lemma reconcile_exact matter_id (s : sys DeadlineStore W) :
  store_indexed (sys_store s) ->
  exists s' fs, reconcile clock case_list alert_fn audit_fn exn_str quote matter_id s = (s', Ok fs) /\
    sys_store s' = sys_store s /\
    match snd (fetch_case case_list matter_id (tick s)) with
    | Ok case => drift_report quote (clock (sys_ticks s)) matter_id (sys_store s) case fs
    | Err _ => fs = []
    end.
Proof.
  intros Hst. unfold reconcile. rewrite bind_get_now.
  unfold bind at 1. unfold on_store at 1, zoom at 1, gets.
  set (s1 := set_store _ _). replace s1 with (tick s) by (destruct s; done). clear s1. cbn [tick sys_store].
  assert (sys_store (fst (fetch_case case_list matter_id (tick s))) = sys_store s) as Ef.
  { unfold fetch_case. destruct case_list as [f|]; [|done]. by rewrite on_world_store. }
  fold (tick s).
  destruct (fetch_case case_list matter_id (tick s)) as [s2 [case|e]] eqn:E; cbn [fst] in Ef.
  - destruct (report_drift_total (clock (sys_ticks s)) matter_id (engine_deadlines matter_id (sys_store s)) case s2)
      as (s3 & E3 & Es3).
    exists s3. eexists. split; [exact E3|]. split; [congruence|]. cbn [snd]. by apply findings_report.
  - unfold park_reconcile. unfold bind at 1.
    match goal with |- context [maybe_alert alert_fn ?a ?p] => destruct (alert_total a p s2) as (s3 & E3 & Es3) end.
    rewrite E3. destruct (reconcile_audit_total "reconcile.connector_error" matter_id [] s3) as (s4 & E4 & Es4).
    exists s4, []. unfold bind. rewrite E4. split; [done|]. split; [congruence|done].
Qed.
End Reconciler.

(** ** Witness *)

Lemma reconcile_exact_witness :
  let sd := mk_ScheduledDeadline "d1" "m1" ex_rr ex_trace [] false "k1" 0 in
  exists s' fs, reconcile (W := unit) (fun _ => ex_receipt)
      (Some (fun _ => ret [mk_Deadline "c1" "m1" "n" ex_receipt (Some "visa") DPending 0]))
      None None (fun _ => "") (fun x => x) "m1" (mk_sys (dl_save sd empty_deadline_store) tt 0 0) = (s', Ok fs) /\
    map df_kind fs = [MissingInCase; MissingInEngine].
Proof.
  intros sd.
  destruct (reconcile_exact (W := unit) (fun _ => ex_receipt)
      (Some (fun _ => ret [mk_Deadline "c1" "m1" "n" ex_receipt (Some "visa") DPending 0]))
      None None (fun _ => "") (fun x => x) "m1" (mk_sys (dl_save sd empty_deadline_store) tt 0 0))
    as (s' & fs & E & _ & _).
  - split; [apply (dict_wf_dset "d1" _ []), dict_wf_nil|]. intros did d. cbn [sys_store]. rewrite dl_get_save.
    case_decide; [by intros [= <-]|done].
  - exists s', fs. split; [exact E|]. vm_compute in E. injection E as _ <-. reflexivity.
Defined.
