(* ===== verification/Celery.v ===== *)
(** * Celery: the deadline engine's workers

    sidecar/celery_app.py (the four tasks, the dependencies they build) and
    sidecar/scheduler_celery.py (the production implementation of
    [Schedule.Scheduler]).  The queue is the interface [Broker].  A task is
    started with what the environment gives it and the shared state a worker
    has: the Redis server.  Proved: over a broker that does not fail the
    scheduler keeps the contract of its interface; what it arms names no
    deadline; the tasks, which build a new deadline store each time, never
    remind, escalate or find drift; the dead-man's check of a scheduler that
    answers with the current time cannot fail. *)

From Stdlib Require Import ZArith Lia Ascii String List.
From stdpp Require Import base list strings.
From S2P Require Import Prelude PyTime Effects PyText Idem DeadlineTypes Schedule Firing Reconcile.

Open Scope string_scope.
Open Scope list_scope.
Open Scope Z_scope.
Open Scope cam_scope.

(** ** scheduler_celery.py *)

(** A published [task_fire_reminder]: its id, keyword arguments and ETA. *)
Record TaskMsg := mk_TaskMsg {
  tm_task_id : string; tm_deadline_id : string; tm_idem_key : string; tm_eta : datetime }.

Class Broker (B : Type) := {
  bk_publish : TaskMsg -> M B unit;
  bk_revoke : string -> M B unit;
  bk_pending : B -> dict string TaskMsg }.

Class BrokerLaws (B : Type) `{Broker B} := {
  publish_ok m b b' : bk_publish m b = (b', Ok tt) -> bk_pending b' = dset (tm_task_id m) m (bk_pending b);
  publish_err m b b' e : bk_publish m b = (b', Err e) -> bk_pending b' = bk_pending b;
  revoke_ok a b b' : bk_revoke a b = (b', Ok tt) ->
    forall a', dget a' (bk_pending b') = if decide (a' = a) then None else dget a' (bk_pending b);
  revoke_err a b b' e : bk_revoke a b = (b', Err e) -> bk_pending b' = bk_pending b }.

(** [job_ref.split(":", 1)]: what follows the first colon. *)
Fixpoint after_colon (s : string) : option string :=
  match s with
  | EmptyString => None
  | String c s' => if Ascii.eqb c ":"%char then Some s' else after_colon s'
  end.

Section CeleryScheduler.
Context {B W : Type} {BK : Broker B} (clock : nat -> datetime) (uuids : nat -> string).

Definition celery_arm (fire_at : datetime) (job_ref idem_key : string) : M (sys B W) string :=
  let deadline_id := match after_colon job_ref with Some id => id | None => idem_key end in
  let! task_id := uuid4 uuids in
  on_store (bk_publish (mk_TaskMsg task_id deadline_id idem_key fire_at)) ;;
  ret task_id.

Definition celery_cancel (arm_id : string) : M (sys B W) unit :=
  try_except (on_store (bk_revoke arm_id)) (fun _ => ret tt).

Definition celery_heartbeat : M (sys B W) datetime := get_now clock.

#[export] Instance celery_scheduler : Scheduler B W := {
  arm := celery_arm; cancel := celery_cancel; heartbeat := celery_heartbeat }.

End CeleryScheduler.

(** ** celery_app.py: dependencies *)

(** The environment of a worker process: the variables read, what building the
    settings and the session factory gives, whether the Redis client is
    installed and what connecting to a URL gives. *)
Record TaskEnv := mk_TaskEnv {
  te_database_url : option string;
  te_settings : res unit;
  te_redis_url : option string;
  te_redis_installed : bool;
  te_from_url : string -> res unit }.

(** The store, the notification port, and whether there is a Redis client. *)
Record TaskDeps := mk_TaskDeps { td_store : DeadlineStore; td_notif : MockPort; td_redis : bool }.

Definition empty_mock_port : MockPort := mk_MockPort [] false 0.

Definition make_in_memory_deps : TaskDeps := mk_TaskDeps empty_deadline_store empty_mock_port false.

Definition make_production_deps (env : TaskEnv) : TaskDeps :=
  match te_settings env with
  | Err _ => make_in_memory_deps
  | Ok _ =>
      match te_redis_url env with
      | Some url =>
          if str_truthy url && te_redis_installed env then
            match te_from_url env url with
            | Ok _ => mk_TaskDeps empty_deadline_store empty_mock_port true
            | Err _ => make_in_memory_deps
            end
          else mk_TaskDeps empty_deadline_store empty_mock_port false
      | None => mk_TaskDeps empty_deadline_store empty_mock_port false
      end
  end.

Definition make_deps (env : TaskEnv) : TaskDeps :=
  if opt_truthy (te_database_url env) then make_production_deps env else make_in_memory_deps.

(** ** celery_app.py: tasks *)

(** How a task ends: with a value, with [self.retry], or with an exception. *)
Inductive TaskOutcome (A : Type) :=
| TaskDone (a : A)
| TaskRetry (e : exn)
| TaskFailed (e : exn).
Arguments TaskDone {A} a.
Arguments TaskRetry {A} e.
Arguments TaskFailed {A} e.

(** [raise self.retry(exc=exc)] of a task that was retried [retries] times. *)
Definition retry_task {A} (max_retries retries : Z) (e : exn) : TaskOutcome A :=
  if retries <? max_retries then TaskRetry e else TaskFailed e.

Definition outcome_of {A} (max_retries retries : Z) (r : res A) : TaskOutcome A :=
  match r with Ok a => TaskDone a | Err e => retry_task max_retries retries e end.

(** What outlives a task: the Redis server, and every notification a task's
    port has taken; with the supplies of time and ids. *)
Record Worker (R : Type) := mk_Worker {
  wk_redis : R; wk_notified : list PortCall; wk_ticks : nat; wk_uuids : nat }.
Arguments mk_Worker {R}.
Arguments wk_redis {R}.
Arguments wk_notified {R}.
Arguments wk_ticks {R}.
Arguments wk_uuids {R}.

Section Tasks.
Context {R : Type} {RO : RedisOps R} (clock : nat -> datetime) (env : TaskEnv).

(** [_run(coro)] with the dependencies just built. *)
Definition run_coro {A} (deps : TaskDeps) (coro : M (sys (FState unit R) MockPort) A) (w : Worker R)
    : Worker R * res A :=
  let '(s, r) := coro (mk_sys (mk_FState (mk_DState (td_store deps) tt) (wk_redis w)) (td_notif deps)
                         (wk_ticks w) (wk_uuids w)) in
  (mk_Worker (fs_redis (sys_store s)) (wk_notified w ++ mp_calls (sys_world s)) (sys_ticks s) (sys_uuids s), r).

Definition task_fire_reminder (retries : Z) (deadline_id reminder_idem_key : string) (w : Worker R)
    : Worker R * TaskOutcome (bool * string) :=
  let deps := make_deps env in
  let '(w', r) := run_coro deps (fire_reminder (td_redis deps) None deadline_id reminder_idem_key) w in
  (w', outcome_of 5 retries (letr! fired := r in Ok (fired, deadline_id))).

Definition task_escalate (retries : Z) (deadline_id : string) (w : Worker R)
    : Worker R * TaskOutcome (bool * Z * string) :=
  let deps := make_deps env in
  let '(w', r) := run_coro deps (escalate clock None deadline_id) w in
  (w', outcome_of 3 retries (letr! new_level := r in Ok (0 <? new_level, new_level, deadline_id))).

Context (exn_str : exn -> string) (quote : string -> string).

Fixpoint sweep_reconcile (matter_ids : list string) : M (sys DeadlineStore MockPort) Z :=
  match matter_ids with
  | [] => ret 0
  | mid :: rest =>
      let! findings := reconcile clock None None None exn_str quote mid in
      let! total := sweep_reconcile rest in
      ret (Z.of_nat (length findings) + total)
  end.

Definition task_sweep_reconcile (retries : Z) (matter_ids : list string) (w : Worker R)
    : Worker R * TaskOutcome (Z * Z) :=
  let deps := make_deps env in
  let '(s, r) := sweep_reconcile matter_ids
                   (mk_sys (td_store deps) (td_notif deps) (wk_ticks w) (wk_uuids w)) in
  (mk_Worker (wk_redis w) (wk_notified w ++ mp_calls (sys_world s)) (sys_ticks s) (sys_uuids s),
   outcome_of 2 retries (letr! drift := r in Ok (Z.of_nat (length matter_ids), drift))).

End Tasks.

(** [DEFAULT_STALENESS_THRESHOLD_SECONDS], in microseconds *)
Definition STALENESS_THRESHOLD : Z := 300 * US_PER_SECOND.

Section Deadman.
Context {B W : Type} {BK : Broker B} (clock : nat -> datetime) (uuids : nat -> string).

(** Health and age of the last beat, in microseconds; the monitor has no alert
    callback. *)
Definition deadman_check : DM (S := B) (W := W) (bool * Z) :=
  let! last_beat := on_sched (celery_heartbeat clock) in
  let! now := get_now clock in
  let age := instant now - instant last_beat in
  let! healthy := check_once (SCH := celery_scheduler clock uuids) clock None STALENESS_THRESHOLD in
  ret (healthy, age).

End Deadman.

(** ** The scheduler's contract *)

Section Contract.
Context {B W : Type} {BK : Broker B} {BL : BrokerLaws B} (clock : nat -> datetime) (uuids : nat -> string).
Hypothesis uuids_inj : forall i j, uuids i = uuids j -> i = j.

(** Task ids are drawn from the uuid supply. *)
Definition celery_inv (b : B) (n : nat) : Prop :=
  forall a m, dget a (bk_pending b) = Some m -> exists i, (i < n)%nat /\ a = uuids i.

Lemma celery_inv_fresh b n : celery_inv b n -> dget (uuids n) (bk_pending b) = None.
Proof.
  intros H. destruct (dget (uuids n) (bk_pending b)) as [m|] eqn:E; [|done].
  destruct (H _ _ E) as (i & Hi & Hu). apply uuids_inj in Hu. lia.
Qed.

(** What one [arm] publishes. *)
Lemma celery_arm_ok t ref key (s s' : sys B W) a :
  celery_inv (sys_store s) (sys_uuids s) -> celery_arm uuids t ref key s = (s', Ok a) ->
  celery_inv (sys_store s') (sys_uuids s') /\ dget a (bk_pending (sys_store s)) = None /\
  forall a', dget a' (bk_pending (sys_store s')) =
    if decide (a' = a) then Some (mk_TaskMsg a (match after_colon ref with Some id => id | None => key end) key t)
    else dget a' (bk_pending (sys_store s)).
Proof.
  intros Hi H. unfold celery_arm in H. inv_bind H. injection Hb as <- <-.
  apply bind_ok in H as (s1 & [] & Hb & H). injection H as <- <-.
  apply on_store_eq in Hb as Hp. pose proof (publish_ok _ _ _ Hp) as Hpend. cbn in Hpend.
  assert (sys_uuids s1 = S (sys_uuids s)) as Hu.
  { unfold on_store, zoom in Hb. cbn in Hb. destruct (bk_publish _ _). by injection Hb as <- _. }
  split; [|split].
  - intros a' m. rewrite Hpend, dget_dset, Hu. case_decide; [intros _; exists (sys_uuids s); split; [lia|done]|].
    intros Hm. destruct (Hi _ _ Hm) as (i & Hlt & ->). exists i. split; [lia|done].
  - by apply celery_inv_fresh.
  - intros a'. rewrite Hpend, dget_dset. done.
Qed.

(** A broker whose revocations do not fail. *)
Hypothesis revoke_total : forall a b, exists b', bk_revoke a b = (b', Ok tt).

Lemma celery_cancel_eq a (s s' : sys B W) r :
  celery_cancel a s = (s', r) ->
  r = Ok tt /\ sys_uuids s' = sys_uuids s /\
  forall a', dget a' (bk_pending (sys_store s')) = if decide (a' = a) then None else dget a' (bk_pending (sys_store s)).
Proof.
  unfold celery_cancel, try_except, on_store, zoom. destruct (revoke_total a (sys_store s)) as [b' E].
  rewrite E. intros [= <- <-]. split; [done|]. split; [done|]. by apply (revoke_ok a (sys_store s)).
Qed.

#[export] Instance celery_scheduler_laws : SchedulerLaws B W (H := celery_scheduler clock uuids).
Proof.
  refine (Build_SchedulerLaws B W (celery_scheduler clock uuids)
    (fun b a => option_map (fun m => (tm_eta m, tm_idem_key m)) (dget a (bk_pending b))) celery_inv _ _ _ _).
  - intros b n n' H Hn a m Hm. destruct (H a m Hm) as (i & Hi & ->). exists i. split; [lia|done].
  - intros t ref key s s' a Hi H. destruct (celery_arm_ok t ref key s s' a Hi H) as (Hi' & Hn & Hp).
    split; [done|]. split; [rewrite Hp, decide_True by done; done|]. intros a' j Hj. rewrite Hp.
    case_decide; [|done]. subst. by rewrite Hn in Hj.
  - intros a s s' Hi H. apply celery_cancel_eq in H as (_ & Hu & Hp). split; [|split].
    + intros a' m. rewrite Hp, Hu. case_decide; [done|]. apply Hi.
    + by rewrite Hp, decide_True.
    + intros a' Hne. by rewrite Hp, decide_False.
  - intros a s s' e _ H. by apply celery_cancel_eq in H as [? _].
Defined.

End Contract.

(** ** What the tasks do *)

Lemma make_deps_empty env : td_store (make_deps env) = empty_deadline_store /\ td_notif (make_deps env) = empty_mock_port.
Proof.
  unfold make_deps, make_production_deps. destruct (opt_truthy _); [|done]. destruct (te_settings env); [|done].
  destruct (te_redis_url env) as [u|]; [|done]. destruct (_ && _); [|done]. by destruct (te_from_url env u).
Qed.

Section Idle.
Context {R : Type} {RO : RedisOps R} (clock : nat -> datetime) (env : TaskEnv).
Context (exn_str : exn -> string) (quote : string -> string).

Lemma sweep_empty ids (s : sys DeadlineStore MockPort) :
  sys_store s = empty_deadline_store ->
  exists s', sweep_reconcile clock exn_str quote ids s = (s', Ok 0) /\ sys_world s' = sys_world s.
Proof.
  revert s. induction ids as [|mid ids IH]; intros s Hs; [by exists s|].
  assert (reconcile clock None None None exn_str quote mid s = (tick s, Ok [])) as E.
  { destruct s as [st wd ti u]. cbn in Hs. by subst st. }
  destruct (IH (tick s) Hs) as (s' & E' & Hw). exists s'. split; [|done].
  cbn [sweep_reconcile]. by rewrite (bind_ok_eq _ _ _ _ _ E), (bind_ok_eq _ _ _ _ _ E').
Qed.

(** The workers are idle.  As each task builds a deadline store of its own, no
    reminder task ever notifies anybody: it answers that nothing was fired, or
    is retried because Redis failed; escalating gives level 0 and reconciling
    any list of matters no drift.  This holds in every environment, whatever
    was scheduled and whatever the queue holds. *)
Lemma celery_tasks_idle (retries : Z) (deadline_id key : string) (ids : list string) (w : Worker R) :
  (forall w' o, task_fire_reminder env retries deadline_id key w = (w', o) ->
     wk_notified w' = wk_notified w /\
     (o = TaskDone (false, deadline_id) \/ exists e, o = retry_task 5 retries e)) /\
  (forall w' o, task_escalate clock env retries deadline_id w = (w', o) ->
     wk_notified w' = wk_notified w /\ o = TaskDone (false, 0, deadline_id)) /\
  (forall w' o, task_sweep_reconcile clock env exn_str quote retries ids w = (w', o) ->
     wk_notified w' = wk_notified w /\ o = TaskDone (Z.of_nat (length ids), 0)).
Proof.
  destruct (make_deps_empty env) as [Hst Hno]. split; [|split]; intros w' o.
  - unfold task_fire_reminder, run_coro, fire_reminder, fire_check. rewrite Hst, Hno.
    destruct (td_redis (make_deps env)).
    + unfold bind at 1 2, on_redis, on_store, zoom. cbn.
      destruct (redis_get (dedup_key key) (wk_redis w)) as [r' [v|e]]; cbn.
      * destruct (opt_truthy v); cbn; intros [= <- <-]; cbn; rewrite app_nil_r; auto.
      * intros [= <- <-]. cbn. rewrite app_nil_r. eauto.
    + cbn. intros [= <- <-]. cbn. rewrite app_nil_r. auto.
  - unfold task_escalate, run_coro. rewrite Hst, Hno. cbn. intros [= <- <-]. cbn. by rewrite app_nil_r.
  - unfold task_sweep_reconcile. rewrite Hst, Hno.
    destruct (sweep_empty ids (mk_sys empty_deadline_store empty_mock_port (wk_ticks w) (wk_uuids w)) eq_refl)
      as (s' & E & Hw). rewrite E, Hw. cbn. intros [= <- <-]. cbn. by rewrite app_nil_r.
Qed.

End Idle.

Section Reminders.
Context {B W : Type} {BK : Broker B} {BL : BrokerLaws B} (clock : nat -> datetime) (uuids : nat -> string).
Hypothesis uuids_inj : forall i j, uuids i = uuids j -> i = j.

(** The reference the engine arms a reminder with carries the idempotency key of
    the deadline, and that key is what the job names as its deadline: run
    against any store that has no deadline of that id, it fires nothing. *)
Lemma celery_jobs_name_no_deadline (t : datetime) (key idem prefix : string) (s s' : sys B W) (a : string) :
  prefix = "deadline_reminder:" \/ prefix = "deadline_reminder_backup:" ->
  celery_inv uuids (sys_store s) (sys_uuids s) ->
  celery_arm uuids t (prefix +:+ key) idem s = (s', Ok a) ->
  dget a (bk_pending (sys_store s')) = Some (mk_TaskMsg a key idem t) /\
  forall (st : sys (FState unit redis_mem) MockPort),
    dl_get key (ds_store (fs_ds (sys_store st))) = None ->
    fire_reminder false None key idem st = (st, Ok false).
Proof.
  intros Hpre Hi H. destruct (celery_arm_ok (W := W) uuids uuids_inj t _ idem s s' a Hi H) as (_ & _ & Hp).
  split.
  - rewrite Hp, decide_True by done. by destruct Hpre as [-> | ->].
  - intros st Hn. destruct st as [[[store sch] r] w ti u]. cbn in Hn.
    unfold fire_reminder, fire_check, get_deadline, on_ds, on_deadlines, zoom_sys, on_store, zoom, gets, bind, ret. cbn.
    by rewrite Hn.
Qed.

(** The dead-man's check cannot fail.  The scheduler answers with the current
    time, so however long the queue has been dead the check finds it healthy,
    as long as the clock does not jump by five minutes between two readings. *)
Lemma deadman_never_alarms (s : sys (DState B) W) :
  (forall n, instant (clock (S n)) - instant (clock n) <= STALENESS_THRESHOLD) ->
  exists s' age, deadman_check clock uuids s = (s', Ok (true, age)).
Proof.
  intros Hc. destruct s as [[store sch] w ti u].
  unfold deadman_check, on_sched, zoom_sys, celery_heartbeat, get_now, bind. cbn.
  unfold check_once, try_except, on_sched, zoom_sys, bind, get_now, celery_heartbeat, ret. cbn.
  destruct (Z.ltb_spec STALENESS_THRESHOLD (instant (clock (S (S (S ti)))) - instant (clock (S (S ti))))) as [Hlt|Hle].
  - specialize (Hc (S (S ti))). lia.
  - by eexists _, _.
Qed.

End Reminders.

(** ** A queue in memory *)

Record MemBroker := mk_MemBroker { mb_tasks : dict string TaskMsg; mb_up : bool }.

Definition broker_down : exn := OtherError "OperationalError" "broker unreachable".

#[export] Instance mem_broker : Broker MemBroker := {
  bk_publish m := fun b =>
    if mb_up b then (mk_MemBroker (dset (tm_task_id m) m (mb_tasks b)) true, Ok tt) else (b, Err broker_down);
  bk_revoke a := fun b =>
    if mb_up b then (mk_MemBroker (bfilter (fun p => negb (String.eqb p.1 a)) (mb_tasks b)) true, Ok tt)
    else (b, Err broker_down);
  bk_pending := mb_tasks }.

#[export] Instance mem_broker_laws : BrokerLaws MemBroker.
Proof.
  split; cbn.
  - intros m b b'. by destruct (mb_up b); intros [= <-].
  - intros m b b' e. by destruct (mb_up b); intros [= <- _].
  - intros a b b'. destruct (mb_up b); [|done]. intros [= <-] a'. apply dget_bfilter_key.
  - intros a b b' e. by destruct (mb_up b); intros [= <- _].
Qed.

(** ** Concrete runs *)

Definition ex_ids (n : nat) : string := string_of_list_ascii (repeat "i"%char n).

Lemma ex_ids_inj i j : ex_ids i = ex_ids j -> i = j.
Proof.
  intros H. apply (f_equal String.length) in H. unfold ex_ids in H.
  revert j H. induction i as [|i IH]; intros [|j]; cbn; try done. intros [= H]. f_equal. by apply IH.
Qed.

Definition ex_eta : datetime := utc_datetime (ymd2ord 2026 3 9) 0.
Definition ex_celery_clock (n : nat) : datetime := ex_eta.
Definition ex_queue : sys MemBroker unit := mk_sys (mk_MemBroker [] true) tt 0 1.
Definition ex_queued : sys MemBroker unit := fst (celery_arm ex_ids ex_eta "deadline_reminder:K" "K:7:days" ex_queue).
Definition ex_message : TaskMsg := mk_TaskMsg "i" "K" "K:7:days" ex_eta.

Lemma celery_jobs_name_no_deadline_witness :
  dget "i" (bk_pending (sys_store ex_queued)) = Some ex_message /\
  forall (st : sys (FState unit redis_mem) MockPort),
    dl_get "K" (ds_store (fs_ds (sys_store st))) = None ->
    fire_reminder false None "K" "K:7:days" st = (st, Ok false).
Proof.
  apply (celery_jobs_name_no_deadline (W := unit) ex_ids ex_ids_inj ex_eta "K" "K:7:days" "deadline_reminder:"
           ex_queue ex_queued "i").
  - left. reflexivity.
  - discriminate.
  - reflexivity.
Defined.

Definition ex_env : TaskEnv := mk_TaskEnv (Some "postgres://db") (Ok tt) (Some "redis://cache") true (fun _ => Ok tt).
Definition ex_worker : Worker redis_mem := mk_Worker [] [] 0 0.

Lemma celery_tasks_idle_witness :
  snd (task_fire_reminder ex_env 0 "d1" "K:7:days" ex_worker) = TaskDone (false, "d1") /\
  wk_notified (fst (task_fire_reminder ex_env 0 "d1" "K:7:days" ex_worker)) = [].
Proof.
  split; [reflexivity|].
  exact (proj1 (proj1 (celery_tasks_idle ex_celery_clock ex_env (fun _ => EmptyString) (fun x => x) 0 "d1" "K:7:days" []
    ex_worker) (fst (task_fire_reminder ex_env 0 "d1" "K:7:days" ex_worker))
    (snd (task_fire_reminder ex_env 0 "d1" "K:7:days" ex_worker)) eq_refl)).
Defined.

Definition ex_dead : sys (DState MemBroker) unit := mk_sys (mk_DState empty_deadline_store (mk_MemBroker [] false)) tt 0 0.

Lemma deadman_never_alarms_witness :
  (forall n, instant (ex_celery_clock (S n)) - instant (ex_celery_clock n) <= STALENESS_THRESHOLD) /\
  exists s' age, deadman_check ex_celery_clock ex_ids ex_dead = (s', Ok (true, age)).
Proof.
  assert (forall n, instant (ex_celery_clock (S n)) - instant (ex_celery_clock n) <= STALENESS_THRESHOLD) as Hc
    by (intros n; unfold ex_celery_clock; rewrite Z.sub_diag; discriminate).
  split; [exact Hc | exact (deadman_never_alarms ex_celery_clock ex_ids ex_dead Hc)].
Defined.

(** When the broker cannot be reached, [cancel] returns all the same and the
    job stays armed: the interface promises that a returning cancel has
    cancelled, which holds of reliable brokers only. *)
Definition ex_unreachable : sys MemBroker unit := mk_sys (mk_MemBroker [("i", ex_message)] false) tt 0 1.

Example failed_revoke_swallowed :
  let '(s, r) := celery_cancel "i" ex_unreachable in
  r = Ok tt /\ dget "i" (bk_pending (sys_store s)) = Some ex_message.
Proof. split; reflexivity. Qed.
