(* ===== verification/CeleryConfig.v ===== *)
(** * CeleryConfig: sidecar/celery_config.py

    The worker's settings, read from the environment when the module is imported,
    and the two periodic tasks of the beat schedule; with what the tasks of
    [Celery] do when the beat sends them. *)

From Stdlib Require Import ZArith Lia Ascii String List.
From stdpp Require Import base list strings.
From S2P Require Import Prelude PyTime Effects PyText Idem DeadlineTypes Schedule Firing Reconcile Celery.

Open Scope string_scope.
Open Scope list_scope.
Open Scope Z_scope.
Open Scope cam_scope.

(** An entry of [beat_schedule]: the task, its period in seconds, its arguments
    (lists of ids) and the age at which a message not yet taken is dropped. *)
Record BeatEntry := mk_BeatEntry {
  be_task : string; be_schedule : Z; be_args : list (list string); be_expires : Z }.

Record WorkerConfig := mk_WorkerConfig {
  cg_broker_url : string;
  cg_result_backend : string;
  cg_task_serializer : string;
  cg_result_serializer : string;
  cg_accept_content : list string;
  cg_timezone : string;
  cg_enable_utc : bool;
  cg_result_expires : Z;
  cg_task_soft_time_limit : Z;
  cg_task_time_limit : Z;
  cg_task_acks_late : bool;
  cg_task_reject_on_worker_lost : bool;
  cg_worker_prefetch_multiplier : Z;
  cg_beat_schedule : dict string BeatEntry;
  cg_task_routes : dict string string }.

(** [os.environ.get(name, default)] *)
Definition env_or (env : dict string string) (name default : string) : string :=
  match dget name env with Some v => v | None => default end.

(** [int(os.environ.get(name, default))] *)
Definition env_number (env : dict string string) (name default : string) : res Z :=
  or_raise (ValueError ("invalid literal for int() with base 10: " +:+ py_repr (env_or env name default)))
    (py_int (env_or env name default)).

Definition REDIS_URL (env : dict string string) : string := env_or env "CAM_REDIS_URL" "redis://localhost:6379/0".

Definition DEADMAN_CHECK_INTERVAL (env : dict string string) : res Z := env_number env "CAM_DEADMAN_INTERVAL" "60".
Definition SWEEP_RECONCILE_INTERVAL (env : dict string string) : res Z := env_number env "CAM_SWEEP_RECONCILE_INTERVAL" "300".

Definition beat_schedule (deadman sweep : Z) : dict string BeatEntry :=
  [("cam.deadline.deadman_check-periodic", mk_BeatEntry "cam.deadline.deadman_check" deadman [] (deadman - 5));
   ("cam.deadline.sweep_reconcile-periodic", mk_BeatEntry "cam.deadline.sweep_reconcile" sweep [[]] (sweep - 5))].

(** Importing the module: the conversions in their order. *)
Definition celery_config (env : dict string string) : res WorkerConfig :=
  let url := REDIS_URL env in
  letr! soft := env_number env "CAM_TASK_SOFT_TIMEOUT" "55" in
  letr! hard := env_number env "CAM_TASK_HARD_TIMEOUT" "120" in
  letr! deadman := DEADMAN_CHECK_INTERVAL env in
  letr! sweep := SWEEP_RECONCILE_INTERVAL env in
  Ok (mk_WorkerConfig url url "json" "json" ["json"] "UTC" true 86400 soft hard true true 1
        (beat_schedule deadman sweep) [("cam.deadline.*", "cam_deadline")]).

(** The numbers an environment sets, all of them readable. *)
Definition INT_VARS : list (string * string) :=
  [("CAM_TASK_SOFT_TIMEOUT", "55"); ("CAM_TASK_HARD_TIMEOUT", "120"); ("CAM_DEADMAN_INTERVAL", "60");
   ("CAM_SWEEP_RECONCILE_INTERVAL", "300")].

Definition readable (env : dict string string) : bool :=
  forallb (fun '(name, default) => is_ok (env_number env name default)) INT_VARS.

(** The configuration loads exactly when every number can be read. *)
Lemma config_loads env : is_ok (celery_config env) = readable env.
Proof.
  unfold celery_config, readable, DEADMAN_CHECK_INTERVAL, SWEEP_RECONCILE_INTERVAL. cbn [forallb INT_VARS].
  destruct (env_number env "CAM_TASK_SOFT_TIMEOUT" "55"); [|done]. cbn [res_bind is_ok andb].
  destruct (env_number env "CAM_TASK_HARD_TIMEOUT" "120"); [|done]. cbn [res_bind is_ok andb].
  destruct (env_number env "CAM_DEADMAN_INTERVAL" "60"); [|done]. cbn [res_bind is_ok andb].
  by destruct (env_number env "CAM_SWEEP_RECONCILE_INTERVAL" "300").
Qed.

(** What a configuration that loads is made of. *)
Lemma config_inv env c : celery_config env = Ok c ->
  exists soft hard deadman sweep, c = mk_WorkerConfig (REDIS_URL env) (REDIS_URL env) "json" "json" ["json"] "UTC" true 86400
    soft hard true true 1 (beat_schedule deadman sweep) [("cam.deadline.*", "cam_deadline")].
Proof.
  unfold celery_config. destruct (env_number env "CAM_TASK_SOFT_TIMEOUT" "55"); [|done]. cbn [res_bind].
  destruct (env_number env "CAM_TASK_HARD_TIMEOUT" "120"); [|done]. cbn [res_bind].
  destruct (DEADMAN_CHECK_INTERVAL env); [|done]. cbn [res_bind].
  destruct (SWEEP_RECONCILE_INTERVAL env); [|done]. intros [= <-]. by do 4 eexists.
Qed.

(** Only JSON is accepted from the queue, and broker and backend are one server. *)
Lemma config_json_only env c : celery_config env = Ok c ->
  cg_accept_content c = ["json"] /\ cg_task_serializer c = "json" /\ cg_result_backend c = cg_broker_url c.
Proof. by intros (soft & hard & deadman & sweep & ->)%config_inv. Qed.

Section Beat.
Context {R : Type} {RO : RedisOps R} (clock : nat -> datetime) (tenv : TaskEnv) (exn_str : exn -> string) (quote : string -> string).

(** The sweep as the beat sends it, once per list of ids in its arguments. *)
Definition beat_sweep (retries : Z) (e : BeatEntry) (w : Worker R) : Worker R * list (TaskOutcome (Z * Z)) :=
  fold_left (fun acc ids => let '(w', o) := task_sweep_reconcile clock tenv exn_str quote retries ids (fst acc) in (w', snd acc ++ [o]))
    (be_args e) (w, []).

(** The periodic sweep has no matter to look at: it is done at once, finds no
    drift and changes nothing. *)
Lemma periodic_sweep_idle env c e retries w :
  celery_config env = Ok c -> dget "cam.deadline.sweep_reconcile-periodic" (cg_beat_schedule c) = Some e ->
  beat_sweep retries e w = (mk_Worker (wk_redis w) (wk_notified w ++ mp_calls (td_notif (make_deps tenv))) (wk_ticks w) (wk_uuids w),
                            [TaskDone (0, 0)]).
Proof. intros (soft & hard & deadman & sweep & ->)%config_inv [= <-]. reflexivity. Qed.

End Beat.

(** The defaults. *)
Example default_beat :
  match celery_config [] with
  | Ok c => map (fun '(n, e) => (be_schedule e, be_expires e)) (cg_beat_schedule c) = [(60, 55); (300, 295)]
  | Err _ => False
  end.
Proof. vm_compute. reflexivity. Qed.

(** A period of five seconds or less makes messages that have expired when they
    are sent; a soft limit above the hard one is accepted. *)
Example stale_on_arrival :
  match celery_config [("CAM_DEADMAN_INTERVAL", "5"); ("CAM_TASK_SOFT_TIMEOUT", "600")] with
  | Ok c => option_map be_expires (dget "cam.deadline.deadman_check-periodic" (cg_beat_schedule c)) = Some 0 /\
            cg_task_time_limit c < cg_task_soft_time_limit c
  | Err _ => False
  end.
Proof. vm_compute. split; reflexivity. Qed.

Example bad_number_refused :
  celery_config [("CAM_DEADMAN_INTERVAL", "1m")] = Err (ValueError "invalid literal for int() with base 10: '1m'").
Proof. vm_compute. reflexivity. Qed.
