(* ===== verification/Qc.v ===== *)
(** * Qc: core/services/qc/types.py, packet.py, registry.py, tool.py

    Verdicts, severity policies, packets and reports of the quality checks; the
    check registry and its runner, which runs each selected check under a
    timeout, fails closed and aggregates; the [qc.verify] tool.  A check is a
    record of its attributes and its [run] method, which may raise; whether the
    [n]-th check of a run overran its timeout and how long it took are inputs of
    the model ([late], [elapsed]). *)

From Stdlib Require Import ZArith Lia Ascii String List QArith.
From stdpp Require Import base list strings pretty sorting.
From S2P Require Import Prelude PyTime ConnErrors Effects Domain PyText.

Open Scope string_scope.
Open Scope list_scope.
Open Scope Z_scope.
Open Scope cam_scope.

(** ** Types *)

Inductive Verdict := VPass | VWarn | VFail | VSkipped.

#[export] Instance Verdict_eq_dec : EqDecision Verdict.
Proof. solve_decision. Defined.

Definition verdict_value (v : Verdict) : string :=
  match v with VPass => "pass" | VWarn => "warn" | VFail => "fail" | VSkipped => "skipped" end.

(** [repr] of a [StrEnum] member *)
Definition verdict_repr (v : Verdict) : string :=
  match v with
  | VPass => "<Verdict.PASS: 'pass'>" | VWarn => "<Verdict.WARN: 'warn'>"
  | VFail => "<Verdict.FAIL: 'fail'>" | VSkipped => "<Verdict.SKIPPED: 'skipped'>"
  end.

Inductive Aggregate := APass | APassWithWarnings | ABlock.

#[export] Instance Aggregate_eq_dec : EqDecision Aggregate.
Proof. solve_decision. Defined.

Definition aggregate_value (a : Aggregate) : string :=
  match a with APass => "pass" | APassWithWarnings => "pass_with_warnings" | ABlock => "block" end.

Inductive SkipReason := NotApplicable | FieldAbsent | SkipDisabled | UnsupportedPacketKind.

#[export] Instance SkipReason_eq_dec : EqDecision SkipReason.
Proof. solve_decision. Defined.

(** [SeverityPolicy.allowed] *)
Record SeverityPolicy := mk_SeverityPolicy { sp_allowed : list Verdict }.

Definition allows (p : SeverityPolicy) (v : Verdict) : bool :=
  bool_decide (v ∈ sp_allowed p) || bool_decide (v = VSkipped).

Definition FAIL_OR_PASS : SeverityPolicy := mk_SeverityPolicy [VPass; VFail; VSkipped].
Definition WARN_OR_FAIL_OR_PASS : SeverityPolicy := mk_SeverityPolicy [VPass; VWarn; VFail; VSkipped].

Record CheckResult := mk_CheckResult {
  cr_check_id : string;
  cr_check_version : string;
  cr_verdict : Verdict;
  cr_reason : string;
  cr_evidence : jdict;
  cr_severity_applied : string;
  cr_duration_ms : Q;
  cr_skip_reason : option SkipReason }.

Record CheckDescriptor := mk_CheckDescriptor {
  cd_check_id : string;
  cd_version : string;
  cd_description : string;
  cd_applies_to : list string;
  cd_required_inputs : list string;
  cd_severity_policy : string }.

Record QCConfig := mk_QCConfig {
  qc_extraction_warn_threshold : Q;
  qc_extraction_fail_floor : Q;
  qc_deadline_horizon_days : Z;
  qc_deadline_tight_window_days : Z;
  qc_enabled_checks : dict string bool;
  qc_check_timeout_ms : Q }.

Definition default_qc_config : QCConfig := mk_QCConfig (8 # 10) (5 # 10) 3650 7 [] (500 # 1).

(** [config.model_dump()] *)
Definition dump_config (c : QCConfig) : jdict :=
  [("extraction_warn_threshold", JFloat (qc_extraction_warn_threshold c));
   ("extraction_fail_floor", JFloat (qc_extraction_fail_floor c));
   ("deadline_horizon_days", JInt (qc_deadline_horizon_days c));
   ("deadline_tight_window_days", JInt (qc_deadline_tight_window_days c));
   ("enabled_checks", JDict (map (fun p => (p.1, JBool p.2)) (qc_enabled_checks c)));
   ("check_timeout_ms", JFloat (qc_check_timeout_ms c))].

Record QCReport := mk_QCReport {
  rep_packet_id : string;
  rep_run_id : option string;
  rep_results : list CheckResult;
  rep_aggregate : Aggregate;
  rep_checks_selected : list string;
  rep_checks_skipped : dict string SkipReason;
  rep_created_at : datetime;
  rep_config_fingerprint : string }.

(** ** Packets *)

Inductive PacketKind := EmailSend | DocumentGenerate | DocumentRoute | IntakeFinalize | Generic.

Definition kind_value (k : PacketKind) : string :=
  match k with
  | EmailSend => "email_send" | DocumentGenerate => "document_generate"
  | DocumentRoute => "document_route" | IntakeFinalize => "intake_finalize" | Generic => "generic"
  end.

Record QCExtractedField := mk_QCExtractedField {
  ef_id : string; ef_name : string; ef_value : json; ef_confidence : Q; ef_source_doc_id : option string }.

Record TemplateBinding := mk_TemplateBinding {
  tb_template_name : string; tb_required_vars : list string;
  tb_resolved_vars : dict string (option string) }.

Record AttachmentRef := mk_AttachmentRef {
  at_referenced_name : string; at_expected_checksum : option string; at_expected_version : option Z }.

Record VerificationPacket := mk_VerificationPacket {
  vp_packet_id : string;
  vp_run_id : option string;
  vp_kind : PacketKind;
  vp_matter : Matter;
  vp_documents : list Document;
  vp_communications : list Communication;
  vp_deadlines : list Deadline;
  vp_extracted_fields : list QCExtractedField;
  vp_intended_recipients : list Contact;
  vp_template_bindings : list TemplateBinding;
  vp_attachment_refs : list AttachmentRef;
  vp_external_bound : bool;
  vp_now : datetime;
  vp_config_snapshot : QCConfig }.

(** ** Registry *)

(** The protocol [Check]; [ck_applies_to = None] means every packet kind. *)
Record Check := mk_Check {
  ck_id : string;
  ck_version : string;
  ck_applies_to : option (list string);
  ck_policy : SeverityPolicy;
  ck_required_inputs : list string;
  ck_describe : CheckDescriptor;
  ck_run : VerificationPacket -> QCConfig -> res (option CheckResult) }.

Definition CheckRegistry : Type := dict string Check.

Definition register_check (c : Check) (reg : CheckRegistry) : res CheckRegistry :=
  if dmem (ck_id c) reg then
    Err (RuntimeError ("Check " +:+ py_repr (ck_id c) +:+
      " is already registered. Duplicate ids are not allowed (spec §6)."))
  else Ok (dset (ck_id c) c reg).

Definition get_check (id : string) (reg : CheckRegistry) : res Check :=
  or_raise (KeyError ("No check registered for id " +:+ py_repr id +:+ ".")) (dget id reg).

Definition check_le (a b : Check) : bool := String.leb (ck_id a) (ck_id b).

Definition applies (kind : string) (c : Check) : bool :=
  match ck_applies_to c with None => true | Some l => str_in kind l end.

Definition applicable_checks (kind : string) (reg : CheckRegistry) : list Check :=
  py_sorted check_le (bfilter (applies kind) (dvalues reg)).

(** ** Runner *)

Section Runner.
Context (late : nat -> bool) (elapsed : nat -> Q).
Context (float_repr : Q -> string) (sha256_hex : string -> string) (json_canonical : jdict -> string).

Definition compute_config_fingerprint (c : QCConfig) : string :=
  take_chars 16 (sha256_hex (json_canonical (dump_config c))).

(** [_run_with_timeout]: (result, None) or (None, exc). *)
Definition run_with_timeout (overran : bool) (r : res (option CheckResult)) (timeout_ms : Q)
    : option CheckResult * option exn :=
  if overran then
    (None, Some (OtherError "TimeoutError" ("Check timed out after " +:+ float_repr timeout_ms +:+ "ms.")))
  else match r with Ok v => (v, None) | Err e => (None, Some e) end.

Definition errored (c : Check) (e : exn) : CheckResult :=
  mk_CheckResult (ck_id c) (ck_version c) VFail "check errored"
    [("error_type", JStr (exn_name e))] "" 0 None.

Definition policy_violation (c : Check) (v : Verdict) : CheckResult :=
  mk_CheckResult (ck_id c) (ck_version c) VFail
    ("Check emitted " +:+ verdict_repr v +:+ " outside its declared severity policy.") [] "" 0 None.

(** The body of the runner's loop, before the duration is filled in. *)
Definition run_one (overran : bool) (p : VerificationPacket) (cfg : QCConfig) (c : Check) : CheckResult :=
  match run_with_timeout overran (ck_run c p cfg) (qc_check_timeout_ms cfg) with
  | (_, Some e) => errored c e
  | (None, None) => errored c AssertionError
  | (Some r, None) =>
      if negb (bool_decide (cr_verdict r = VSkipped)) && negb (allows (ck_policy c) (cr_verdict r))
      then policy_violation c (cr_verdict r) else r
  end.

Definition with_duration (q : Q) (r : CheckResult) : CheckResult :=
  mk_CheckResult (cr_check_id r) (cr_check_version r) (cr_verdict r) (cr_reason r) (cr_evidence r)
    (cr_severity_applied r) q (cr_skip_reason r).

(** Split the requested ids into the checks to run and the skipped ids. *)
Definition select_checks (applicable : list Check) (requested : option (list string))
    : list Check * dict string SkipReason :=
  match requested with
  | None => (applicable, [])
  | Some ids =>
      fold_left (fun acc cid =>
        match find_first (fun c => String.eqb (ck_id c) cid) applicable with
        | Some c => (acc.1 ++ [c], acc.2)
        | None => (acc.1, dset cid UnsupportedPacketKind acc.2)
        end) ids ([], [])
  end.

(** The loop over the selected checks; [n] numbers the executions. *)
Fixpoint run_selected (n : nat) (p : VerificationPacket) (cfg : QCConfig) (cs : list Check)
    (skipped : dict string SkipReason) : list CheckResult * dict string SkipReason :=
  match cs with
  | [] => ([], skipped)
  | c :: cs' =>
      let r := run_one (late n) p cfg c in
      let skipped := match cr_skip_reason r with
                     | Some why => dset (ck_id c) why skipped
                     | None => skipped
                     end in
      let '(rs, skipped) := run_selected (S n) p cfg cs' skipped in
      (with_duration (elapsed n) r :: rs, skipped)
  end.

Definition has_verdict (v : Verdict) (rs : list CheckResult) : bool :=
  existsb (fun r => bool_decide (cr_verdict r = v)) rs.

(** [_aggregate] *)
Definition aggregate (rs : list CheckResult) : Aggregate :=
  if has_verdict VFail rs then ABlock
  else if has_verdict VWarn rs then APassWithWarnings
  else APass.

Definition run_checks (reg : CheckRegistry) (created_at : datetime) (p : VerificationPacket)
    (requested : option (list string)) (cfg : QCConfig) : QCReport :=
  let all_applicable := applicable_checks (kind_value (vp_kind p)) reg in
  let '(selected, skipped) := select_checks all_applicable requested in
  let '(results, skipped) := run_selected 0 p cfg selected skipped in
  mk_QCReport (vp_packet_id p) (vp_run_id p) results (aggregate results) (map ck_id selected) skipped
    created_at (compute_config_fingerprint cfg).

(** ** The [qc.verify] tool *)

Context {W : Type} (audit_fn : option (AuditEvent -> M W unit)).
(** [run_store.attach_qc_report], when there is a run store that has it. *)
Context (attach : option (string -> QCReport -> M W unit)).

Definition count_verdict (v : Verdict) (rs : list CheckResult) : Z :=
  Z.of_nat (length (bfilter (fun r => bool_decide (cr_verdict r = v)) rs)).

Definition check_verdicts (rs : list CheckResult) : jdict :=
  fold_left (fun d r => dset (cr_check_id r) (JStr (verdict_value (cr_verdict r))) d) rs [].

Definition write_audit (p : VerificationPacket) (rep : QCReport) : M W unit :=
  match audit_fn with
  | None => ret tt
  | Some f => try_pass (f (mk_AuditEvent "qc_verification_service" "qc.verify"
      [("packet_id", JStr (vp_packet_id p)); ("packet_kind", JStr (kind_value (vp_kind p)));
       ("checks_selected", JList (map JStr (rep_checks_selected rep)));
       ("config_fingerprint", JStr (compute_config_fingerprint (vp_config_snapshot p)))]
      [("aggregate", JStr (aggregate_value (rep_aggregate rep)));
       ("fail_count", JInt (count_verdict VFail (rep_results rep)));
       ("warn_count", JInt (count_verdict VWarn (rep_results rep)));
       ("skip_count", JInt (Z.of_nat (length (rep_checks_skipped rep))));
       ("check_verdicts", JDict (check_verdicts (rep_results rep)))] (vp_run_id p)))
  end.

Definition attach_to_run (run_id : option string) (rep : QCReport) : M W unit :=
  match run_id, attach with
  | Some rid, Some f => f rid rep
  | _, _ => ret tt
  end.

Definition tool_qc_verify (reg : CheckRegistry) (created_at : datetime) (p : VerificationPacket)
    (checks : option (list string)) : M W QCReport :=
  let rep := run_checks reg created_at p checks (vp_config_snapshot p) in
  write_audit p rep ;;
  (try_pass (attach_to_run (vp_run_id p) rep) ;;
  ret rep).
End Runner.

(** ** Lemmas *)

Definition registry_ok (reg : CheckRegistry) : Prop :=
  dict_wf reg /\ forall k c, (k, c) ∈ reg -> ck_id c = k.

Lemma registry_ok_nil : registry_ok [].
Proof. split; [apply dict_wf_nil|]. intros k c H. by apply elem_of_nil in H. Qed.

Lemma register_check_ok c reg reg' : registry_ok reg -> register_check c reg = Ok reg' -> registry_ok reg'.
Proof.
  unfold register_check. intros [Hwf Hk]. destruct (dmem _ _); [done|]. intros [= <-].
  split; [by apply dict_wf_dset|]. intros k x Hx. apply in_dset in Hx as [[= -> ->]|Hx]; auto.
Qed.

(** Registering a list of checks one by one. *)
Fixpoint register_list (cs : list Check) (reg : CheckRegistry) : res CheckRegistry :=
  match cs with
  | [] => Ok reg
  | c :: cs' => letr! reg := register_check c reg in register_list cs' reg
  end.

Lemma register_list_spec cs reg :
  NoDup (dkeys reg ++ map ck_id cs) ->
  register_list cs reg = Ok (reg ++ map (fun c => (ck_id c, c)) cs).
Proof.
  revert reg. induction cs as [|c cs IH]; intros reg Hnd; cbn [register_list map].
  - by rewrite app_nil_r.
  - unfold register_check. assert (dmem (ck_id c) reg = false) as Hm.
    { apply not_true_iff_false. rewrite dmem_true. intros Hin.
      apply NoDup_app in Hnd as (_ & Hd & _). apply (Hd _ Hin). cbn [map]. left. }
    rewrite Hm, dset_new by (by rewrite <- dmem_true, Hm). cbn [res_bind]. rewrite IH.
    + by rewrite <- app_assoc.
    + unfold dkeys. rewrite fmap_app, <- app_assoc. exact Hnd.
Qed.

Lemma dup_not_registered cs reg :
  ~ NoDup (map ck_id cs) -> exists e, register_list cs reg = Err e.
Proof.
  intros Hnd. destruct (register_list cs reg) as [reg'|e] eqn:E; [|eauto]. exfalso. apply Hnd. clear Hnd.
  assert (NoDup (map ck_id cs) /\ forall k, k ∈ dkeys reg -> k ∉ map ck_id cs) as [? _]; [|done].
  revert reg E. induction cs as [|c cs IH]; intros reg E; cbn [register_list map] in *.
  - split; [apply NoDup_nil_2|]. intros k _. apply not_elem_of_nil.
  - unfold register_check in E. destruct (dmem (ck_id c) reg) eqn:Em; [done|]. cbn [res_bind] in E.
    apply IH in E as [Hn Hd]. assert (dkeys (dset (ck_id c) c reg) = dkeys reg ++ [ck_id c]) as Ek.
    { rewrite dkeys_dset. by rewrite Em. }
    rewrite Ek in Hd. split.
    + apply NoDup_cons. split; [|done]. apply Hd. apply elem_of_app. right. by apply list_elem_of_singleton.
    + intros k Hk. apply not_elem_of_cons. split; [|apply Hd, elem_of_app; by left].
      intros ->. apply dmem_true in Hk. congruence.
Qed.

Lemma check_sorted l : StronglySorted (fun a b => check_le a b = true) (py_sorted check_le l).
Proof.
  apply py_sorted_ok; unfold check_le; [intros; apply string_leb_total|intros; by eapply string_leb_trans].
Qed.

(** Sorting by id does not depend on the order of checks with distinct ids. *)
Lemma sorted_by_id_perm l l' :
  Permutation l l' -> NoDup (map ck_id l) -> py_sorted check_le l = py_sorted check_le l'.
Proof.
  intros Hp Hnd. eapply (StronglySorted_unique_strong (fun a b => check_le a b = true)).
  - intros a b Ha Hb Hab Hba. rewrite py_sorted_perm in Ha. rewrite py_sorted_perm, <- Hp in Hb.
    pose proof (string_leb_antisym _ _ Hab Hba) as E.
    apply list_elem_of_lookup in Ha as [i Hi]. apply list_elem_of_lookup in Hb as [j Hj].
    assert (i = j) as <-; [|congruence].
    eapply NoDup_lookup; [exact Hnd| |]; rewrite list_lookup_fmap; [rewrite Hi|rewrite Hj]; [done|].
    cbn. by rewrite E.
  - apply check_sorted.
  - apply check_sorted.
  - by rewrite !py_sorted_perm.
Qed.

Lemma applicable_in kind reg c :
  c ∈ applicable_checks kind reg <-> c ∈ dvalues reg /\ applies kind c = true.
Proof. unfold applicable_checks. by rewrite py_sorted_perm, elem_of_bfilter. Qed.

(** The registry does not depend on the order of registration.  Checks
    with distinct ids register in any order, a repeated id is refused, and every
    verification gives the same report whatever the order was. *)
Lemma registration_order_irrelevant cs cs' :
  Permutation cs cs' ->
  (NoDup (map ck_id cs) -> exists reg reg', register_list cs [] = Ok reg /\ register_list cs' [] = Ok reg' /\
     forall late elapsed fr sha js t p requested cfg,
       run_checks late elapsed fr sha js reg t p requested cfg =
       run_checks late elapsed fr sha js reg' t p requested cfg) /\
  (~ NoDup (map ck_id cs) -> exists e, register_list cs' [] = Err e).
Proof.
  intros Hp. split.
  - intros Hnd. assert (NoDup (map ck_id cs')) as Hnd' by (by rewrite <- Hp).
    exists (map (fun c => (ck_id c, c)) cs), (map (fun c => (ck_id c, c)) cs').
    split; [by apply (register_list_spec cs [])|]. split; [by apply (register_list_spec cs' [])|].
    intros. unfold run_checks. assert (forall l, dvalues (map (fun c => (ck_id c, c)) l) = l) as Hv.
    { intros l. unfold dvalues. induction l as [|x l IH]; [done|]. cbn. by f_equal. }
    assert (applicable_checks (kind_value (vp_kind p)) (map (fun c => (ck_id c, c)) cs) =
            applicable_checks (kind_value (vp_kind p)) (map (fun c => (ck_id c, c)) cs')) as ->; [|done].
    unfold applicable_checks. rewrite !Hv. apply sorted_by_id_perm; [by apply bfilter_perm|].
    by apply NoDup_map_bfilter.
  - intros Hnd. apply dup_not_registered. by rewrite <- Hp.
Qed.

Section RunnerProofs.
Context (late : nat -> bool) (elapsed : nat -> Q).
Context (float_repr : Q -> string) (sha256_hex : string -> string) (json_canonical : jdict -> string).

(** A selected check counts as failed: it overran, raised, returned nothing,
    failed, or emitted a verdict its policy does not allow. *)
Definition check_fails (overran : bool) (p : VerificationPacket) (cfg : QCConfig) (c : Check) : Prop :=
  overran = true \/ (exists e, ck_run c p cfg = Err e) \/ ck_run c p cfg = Ok None \/
  exists r, ck_run c p cfg = Ok (Some r) /\ (cr_verdict r = VFail \/ allows (ck_policy c) (cr_verdict r) = false).

Lemma run_one_fails overran p cfg c :
  cr_verdict (run_one float_repr overran p cfg c) = VFail <-> check_fails overran p cfg c.
Proof.
  unfold run_one, run_with_timeout, check_fails. destruct overran; [by split; [left|]|].
  destruct (ck_run c p cfg) as [[r|]|e].
  - assert (allows (ck_policy c) VSkipped = true) as Hs.
    { unfold allows. rewrite (bool_decide_true (VSkipped = VSkipped)) by done. by rewrite orb_true_r. }
    destruct (bool_decide_reflect (cr_verdict r = VSkipped)) as [E|E]; cbn [negb andb].
    + split; [congruence|]. intros Hfl. exfalso. destruct Hfl as [Hfl|[[e Hfl]|[Hfl|(r' & Hr & Hfl)]]]; try done.
      injection Hr as <-. destruct Hfl as [Hfl|Ha]; [congruence|].
      rewrite E, Hs in Ha. done.
    + destruct (allows (ck_policy c) (cr_verdict r)) eqn:Ea; cbn [negb].
      * split; [intros Hv; do 3 right; eauto|].
        intros [?|[(? & ?)|[?|(r' & [= <-] & [?|Ha])]]]; try done; congruence.
      * split; [intros _; do 3 right; eauto|done].
  - split; [intros _; by do 2 right; left|done].
  - split; [intros _; right; left; eauto|done].
Qed.

Lemma run_selected_lookup n p cfg cs sk i :
  fst (run_selected late elapsed float_repr n p cfg cs sk) !! i =
  option_map (fun c => with_duration (elapsed (n + i)%nat) (run_one float_repr (late (n + i)%nat) p cfg c)) (cs !! i).
Proof.
  revert n sk i. induction cs as [|c cs IH]; intros n sk i; cbn [run_selected]; [done|].
  match goal with |- context [run_selected _ _ _ _ _ _ _ ?sk'] => specialize (IH (S n) sk') end.
  destruct (run_selected _ _ _ (S n) _ _ _ _) as [rs sk2]. cbn [fst] in IH |- *.
  destruct i as [|i]; cbn [lookup list_lookup option_map].
  - by rewrite Nat.add_0_r.
  - setoid_rewrite IH. by rewrite Nat.add_succ_comm.
Qed.

Lemma run_selected_skipped n p cfg cs sk id :
  id ∉ map ck_id cs -> dget id (snd (run_selected late elapsed float_repr n p cfg cs sk)) = dget id sk.
Proof.
  revert n sk. induction cs as [|c cs IH]; intros n sk Hid; cbn [run_selected map] in *; [done|].
  apply not_elem_of_cons in Hid as [Hne Hid].
  match goal with |- context [run_selected _ _ _ _ _ _ _ ?sk'] => specialize (IH (S n) sk' Hid) end.
  destruct (run_selected _ _ _ (S n) _ _ _ _) as [rs sk2]. cbn [snd] in IH |- *. rewrite IH.
  destruct (cr_skip_reason _); [|done]. by rewrite dget_dset_ne.
Qed.

Abbreviation by_id cid applicable := (find_first (fun c => String.eqb (ck_id c) cid) applicable).

Lemma select_checks_spec applicable ids :
  fst (select_checks applicable (Some ids)) =
    flat_map (fun cid => match by_id cid applicable with Some c => [c] | None => [] end) ids /\
  forall id, id ∈ ids -> by_id id applicable = None ->
    dget id (snd (select_checks applicable (Some ids))) = Some UnsupportedPacketKind.
Proof.
  unfold select_checks.
  assert (forall acc, let r := fold_left (fun acc cid =>
      match by_id cid applicable with
      | Some c => (acc.1 ++ [c], acc.2)
      | None => (acc.1, dset cid UnsupportedPacketKind acc.2) end) ids acc in
    fst r = acc.1 ++ flat_map (fun cid => match by_id cid applicable with Some c => [c] | None => [] end) ids /\
    forall id, (by_id id applicable = None /\ (id ∈ ids \/ dget id acc.2 = Some UnsupportedPacketKind)) ->
      dget id (snd r) = Some UnsupportedPacketKind) as Hf.
  { induction ids as [|cid ids IH]; intros acc; cbn [fold_left flat_map].
    - rewrite app_nil_r. split; [done|]. intros id [_ [Hn%elem_of_nil|?]]; done.
    - destruct (by_id cid applicable) as [c|] eqn:E.
      + destruct (IH (acc.1 ++ [c], acc.2)) as [I1 I2]. split; [rewrite I1; cbn; by rewrite <- app_assoc|].
        intros id [Hn [[->|Hin]%elem_of_cons|Hg]]; [congruence|apply I2; auto|apply I2; auto].
      + destruct (IH (acc.1, dset cid UnsupportedPacketKind acc.2)) as [I1 I2]. split; [by rewrite I1|].
        intros id [Hn Hi]. apply I2. split; [done|]. cbn [snd]. rewrite dget_dset.
        case_decide as Ed; [by right|]. destruct Hi as [[->|Hin]%elem_of_cons|Hg]; [done|by left|by right]. }
  destruct (Hf ([], [])) as [H1 H2]. split; [exact H1|]. intros id Hin Hn. apply H2. auto.
Qed.

Lemma has_verdict_spec v rs : has_verdict v rs = true <-> exists r, r ∈ rs /\ cr_verdict r = v.
Proof.
  unfold has_verdict. rewrite existsb_exists. setoid_rewrite <- list_elem_of_In.
  split; intros (r & Hr & E); exists r; (split; [done|]);
    [by apply bool_decide_eq_true in E|by apply bool_decide_eq_true].
Qed.

Lemma aggregate_block rs : aggregate rs = ABlock <-> exists r, r ∈ rs /\ cr_verdict r = VFail.
Proof.
  unfold aggregate. rewrite <- has_verdict_spec. destruct (has_verdict VFail rs); [done|].
  by destruct (has_verdict VWarn rs).
Qed.

Lemma aggregate_pass rs :
  aggregate rs = APass <-> forall r, r ∈ rs -> cr_verdict r = VPass \/ cr_verdict r = VSkipped.
Proof.
  unfold aggregate. pose proof (has_verdict_spec VFail rs) as Hf. pose proof (has_verdict_spec VWarn rs) as Hw.
  destruct (has_verdict VFail rs), (has_verdict VWarn rs); (split; [|intros Ha]); try done.
  - destruct (proj1 Hf eq_refl) as (r & Hr & E). destruct (Ha r Hr); congruence.
  - destruct (proj1 Hf eq_refl) as (r & Hr & E). destruct (Ha r Hr); congruence.
  - destruct (proj1 Hw eq_refl) as (r & Hr & E). destruct (Ha r Hr); congruence.
  - intros _ r Hr. destruct (cr_verdict r) eqn:E; auto; exfalso;
      [assert (false = true) by (apply Hw; eauto)|assert (false = true) by (apply Hf; eauto)]; done.
Qed.

(** The checks a call selects. *)
Definition selected_checks (reg : CheckRegistry) (p : VerificationPacket) (requested : option (list string))
    : list Check :=
  fst (select_checks (applicable_checks (kind_value (vp_kind p)) reg) requested).

Lemma by_id_applicable reg p id :
  registry_ok reg ->
  by_id id (applicable_checks (kind_value (vp_kind p)) reg) =
  match dget id reg with
  | Some c => if applies (kind_value (vp_kind p)) c then Some c else None
  | None => None
  end.
Proof.
  intros [Hwf Hk].
  assert (forall c, c ∈ dvalues reg -> ck_id c = id -> dget id reg = Some c) as Hget.
  { intros c Hc E. unfold dvalues in Hc. apply list_elem_of_fmap in Hc as ([k c'] & -> & Hc).
    cbn in E. rewrite <- E, (Hk k c' Hc). by apply dget_in_Some. }
  destruct (by_id id _) as [c|] eqn:E.
  - apply find_first_Some in E as [Hin E]. apply String.eqb_eq in E. apply applicable_in in Hin as [Hin Ha].
    by rewrite (Hget c Hin E), Ha.
  - destruct (dget id reg) as [c|] eqn:Eg; [|done]. destruct (applies _ c) eqn:Ea; [|done].
    rewrite find_first_None in E. apply dget_Some_in in Eg.
    assert (String.eqb (ck_id c) id = false) as Hf.
    { apply E, applicable_in. split; [|done]. unfold dvalues. apply list_elem_of_fmap. by exists (id, c). }
    rewrite (Hk id c Eg), String.eqb_refl in Hf. done.
Qed.

(** The report in terms of the selected checks. *)
Lemma run_checks_results reg t p requested cfg :
  let rep := run_checks late elapsed float_repr sha256_hex json_canonical reg t p requested cfg in
  let sel := selected_checks reg p requested in
  rep_checks_selected rep = map ck_id sel /\ rep_aggregate rep = aggregate (rep_results rep) /\
  (forall i, rep_results rep !! i =
     option_map (fun c => with_duration (elapsed i) (run_one float_repr (late i) p cfg c)) (sel !! i)) /\
  forall id, id ∉ map ck_id sel -> dget id (rep_checks_skipped rep) =
    dget id (snd (select_checks (applicable_checks (kind_value (vp_kind p)) reg) requested)).
Proof.
  unfold run_checks, selected_checks. destruct (select_checks _ requested) as [cs sk].
  pose proof (run_selected_lookup 0 p cfg cs sk) as Hl.
  pose proof (run_selected_skipped 0 p cfg cs sk) as Hsk.
  by destruct (run_selected late elapsed float_repr 0 p cfg cs sk) as [rs sk2].
Qed.

Lemma run_checks_length reg t p requested cfg :
  length (rep_results (run_checks late elapsed float_repr sha256_hex json_canonical reg t p requested cfg)) =
  length (selected_checks reg p requested).
Proof.
  destruct (run_checks_results reg t p requested cfg) as (_ & _ & Hl & _).
  apply Nat.le_antisymm; apply Nat.nlt_ge; intros [x Hx]%lookup_lt_is_Some.
  - rewrite Hl, lookup_ge_None_2 in Hx by done. done.
  - specialize (Hl (length (rep_results
      (run_checks late elapsed float_repr sha256_hex json_canonical reg t p requested cfg)))).
    rewrite Hx, lookup_ge_None_2 in Hl by done. done.
Qed.

Lemma run_checks_block reg t p requested cfg :
  rep_aggregate (run_checks late elapsed float_repr sha256_hex json_canonical reg t p requested cfg) = ABlock <->
  exists n c, selected_checks reg p requested !! n = Some c /\ check_fails (late n) p cfg c.
Proof.
  destruct (run_checks_results reg t p requested cfg) as (_ & -> & Hl & _). rewrite aggregate_block. split.
  - intros (r & [i Hi]%list_elem_of_lookup & Hv). rewrite Hl in Hi.
    destruct (_ !! i) as [c|] eqn:Ec; [|done]. injection Hi as <-. exists i, c. split; [done|].
    by apply run_one_fails.
  - intros (n & c & Hc & Hf). specialize (Hl n). rewrite Hc in Hl. eexists.
    split; [apply list_elem_of_lookup; by exists n|]. by apply run_one_fails.
Qed.

Lemma selected_requested reg p ids id c :
  registry_ok reg -> id ∈ ids -> dget id reg = Some c -> applies (kind_value (vp_kind p)) c = true ->
  c ∈ selected_checks reg p (Some ids).
Proof.
  intros Hreg Hid Hg Ha. unfold selected_checks. rewrite (proj1 (select_checks_spec _ ids)).
  apply list_elem_of_In, in_flat_map. exists id. split; [by apply list_elem_of_In|].
  rewrite by_id_applicable, Hg, Ha by done. by left.
Qed.

Lemma not_selected_skipped reg p ids id t cfg :
  id ∈ ids -> by_id id (applicable_checks (kind_value (vp_kind p)) reg) = None ->
  dget id (rep_checks_skipped (run_checks late elapsed float_repr sha256_hex json_canonical reg t p (Some ids) cfg))
    = Some UnsupportedPacketKind.
Proof.
  intros Hid Hn. destruct (run_checks_results reg t p (Some ids) cfg) as (_ & _ & _ & Hsk).
  rewrite Hsk; [by apply select_checks_spec|]. unfold selected_checks.
  rewrite (proj1 (select_checks_spec _ ids)). intros (c & E & Hc)%list_elem_of_fmap.
  apply list_elem_of_In, in_flat_map in Hc as (cid & _ & Hc).
  destruct (by_id cid _) as [c'|] eqn:Ec; [|done]. destruct Hc as [->|[]].
  apply find_first_Some in Ec as [Hin _]. rewrite find_first_None in Hn. specialize (Hn c Hin).
  by rewrite <- E, String.eqb_refl in Hn.
Qed.

(** The verdict of a verification.  There is one result per selected check,
    in order; without a request every applicable check of the registry is
    selected, and with one every requested id is either selected or reported as
    skipped for this packet kind.  The aggregate blocks exactly when some
    selected check overran its timeout, raised, returned nothing, failed or
    emitted a verdict outside its policy, and passes without warnings exactly
    when every result is a pass or a skip. *)
Lemma run_checks_sound reg t p requested cfg :
  registry_ok reg ->
  let rep := run_checks late elapsed float_repr sha256_hex json_canonical reg t p requested cfg in
  let sel := selected_checks reg p requested in
  rep_checks_selected rep = map ck_id sel /\ length (rep_results rep) = length sel /\
  match requested with
  | None => forall c, c ∈ sel <-> c ∈ dvalues reg /\ applies (kind_value (vp_kind p)) c = true
  | Some ids => forall id, id ∈ ids ->
      match dget id reg with
      | Some c => if applies (kind_value (vp_kind p)) c then c ∈ sel
                  else dget id (rep_checks_skipped rep) = Some UnsupportedPacketKind
      | None => dget id (rep_checks_skipped rep) = Some UnsupportedPacketKind
      end
  end /\
  (rep_aggregate rep = ABlock <-> exists n c, sel !! n = Some c /\ check_fails (late n) p cfg c) /\
  (rep_aggregate rep = APass <->
     forall r, r ∈ rep_results rep -> cr_verdict r = VPass \/ cr_verdict r = VSkipped).
Proof.
  intros Hreg rep sel. destruct (run_checks_results reg t p requested cfg) as (Hs & Hag & _ & _).
  split; [exact Hs|]. split; [apply run_checks_length|]. split; [|split].
  - unfold sel. destruct requested as [ids|]; [|intros c; apply applicable_in].
    intros id Hid. pose proof (by_id_applicable reg p id Hreg) as Hb.
    destruct (dget id reg) as [c|] eqn:Eg; [|by apply not_selected_skipped].
    destruct (applies _ c) eqn:Ea; [by eapply selected_requested|by apply not_selected_skipped].
  - apply run_checks_block.
  - unfold rep. rewrite Hag. apply aggregate_pass.
Qed.
End RunnerProofs.

(** ** Witnesses *)

Definition ex_verdict_check (id : string) (v : Verdict) : Check :=
  mk_Check id "1.0" None FAIL_OR_PASS [] (mk_CheckDescriptor id "1.0" "" [] [] "")
    (fun _ _ => Ok (Some (mk_CheckResult id "1.0" v "" [] "" 0 None))).

Definition ex_contact : Contact := mk_Contact "c1" "crm" "Ada Lovelace" None None (Some "client") [].

Definition ex_matter : Matter :=
  mk_Matter "m1" "case" "R-1" "Visa" "open" None ex_contact None (utc_datetime 739000 0) [] [].

Definition ex_packet : VerificationPacket :=
  mk_VerificationPacket "p1" None Generic ex_matter [] [] [] [] [] [] [] false (utc_datetime 739000 0)
    default_qc_config.

Definition ex_checks : list Check := [ex_verdict_check "b" VPass; ex_verdict_check "a" VWarn].

Abbreviation ex_run reg requested :=
  (run_checks (fun _ => false) (fun _ => 0%Q) (fun _ => "") (fun s => s) (fun _ => "") reg
     (utc_datetime 739000 0) ex_packet requested default_qc_config).

Lemma registration_order_irrelevant_witness :
  exists reg reg', register_list ex_checks [] = Ok reg /\ register_list (rev ex_checks) [] = Ok reg' /\
    ex_run reg None = ex_run reg' None.
Proof.
  destruct (registration_order_irrelevant ex_checks (rev ex_checks)) as [H _].
  - apply Permutation_rev.
  - destruct H as (reg & reg' & E & E' & Hr).
    + vm_compute. repeat constructor; intros Hin; repeat (apply elem_of_cons in Hin as [Hin|Hin]; [discriminate|]);
        by apply elem_of_nil in Hin.
    + exists reg, reg'. split; [exact E|]. split; [exact E'|]. apply Hr.
Defined.

(** A check that warns outside its policy blocks. *)
Lemma run_checks_sound_witness :
  let reg := map (fun c => (ck_id c, c)) ex_checks in
  rep_aggregate (ex_run reg (Some ["a"; "zzz"])) = ABlock /\
  dget "zzz" (rep_checks_skipped (ex_run reg (Some ["a"; "zzz"]))) = Some UnsupportedPacketKind.
Proof.
  destruct (run_checks_sound (fun _ => false) (fun _ => 0%Q) (fun _ => "") (fun s => s) (fun _ => "")
    (map (fun c => (ck_id c, c)) ex_checks) (utc_datetime 739000 0) ex_packet (Some ["a"; "zzz"])
    default_qc_config) as (_ & _ & Hs & Hb & _).
  - split.
    + vm_compute. repeat constructor; intros Hin; repeat (apply elem_of_cons in Hin as [Hin|Hin]; [discriminate|]);
        by apply elem_of_nil in Hin.
    + intros k c Hin. repeat (apply elem_of_cons in Hin as [[= -> ->]|Hin]; [reflexivity|]).
      by apply elem_of_nil in Hin.
  - split; [|apply (Hs "zzz"); by in_list].
    apply Hb. exists 0%nat, (ex_verdict_check "a" VWarn). split; [reflexivity|].
    do 3 right. eexists. split; [reflexivity|]. right. reflexivity.
Defined.
