(* ===== verification/QcPrompts.v ===== *)
(** * QcPrompts: core/services/qc/prompts.py

    The checklist prompt: a fixed text with the packet's kind and a line for each
    check that applies, taken from the registry of [Qc]. *)

From Stdlib Require Import ZArith Lia Ascii String List.
From stdpp Require Import base list strings.
From S2P Require Import Prelude PyTime Effects PyText PyFormat Qc.

Open Scope string_scope.
Open Scope list_scope.
Open Scope Z_scope.
Open Scope cam_scope.

Definition PROMPT_VERSION : string := "v1".

(** [_TEMPLATE] *)
Definition QC_TEMPLATE : string :=
"# QC Checklist — {packet_kind} (prompt {version})

You are reviewing a verification packet of kind **{packet_kind}** before it proceeds.

## Rule
**Any single FAIL verdict blocks the packet.** The packet cannot proceed until all
FAIL verdicts are resolved.  WARN verdicts are informational.

## Applicable checks for this packet kind

{check_lines}

## How to use this checklist
1. For each check, review the evidence in the QCReport.
2. If a check FAILED, describe the specific issue to the approver.
3. PASS_WITH_WARNINGS means the packet can proceed but the approver should note the warnings.
4. BLOCK means the packet cannot proceed — identify which check(s) failed and why.

## No client data in this prompt
This is a structural reasoning scaffold.  Do not include any client names,
case references, document contents, or PII in your response.
".

(** [_CHECK_LINE] *)
Definition CHECK_LINE : string := "- **{check_id}** (v{version}): {description}".

Section Prompt.
Context (format_field : string -> string -> res string).

Definition check_line (c : Check) : res string :=
  str_format format_field CHECK_LINE
    [("check_id", ck_id c); ("version", ck_version c); ("description", cd_description (ck_describe c))].

Definition render_qc_checklist (packet_kind : string) (reg : CheckRegistry) : res string :=
  letr! check_lines :=
    match applicable_checks packet_kind reg with
    | [] => Ok "(No checks registered for this packet kind.)"
    | checks => letr! lines := map_res check_line checks in Ok (str_join (String (chr 10) EmptyString) lines)
    end in
  str_format format_field QC_TEMPLATE
    [("packet_kind", packet_kind); ("version", PROMPT_VERSION); ("check_lines", check_lines)].

(** The line of a check, whatever its texts hold: they are not formatted again. *)
Definition line_of (c : Check) : string :=
  "- **" +:+ ck_id c +:+ "** (v" +:+ ck_version c +:+ "): " +:+ cd_description (ck_describe c).

Lemma check_line_ok c : check_line c = Ok (line_of c).
Proof.
  unfold check_line, line_of, str_format. lazy -[String.append ck_id ck_version cd_description ck_describe].
  by rewrite str_app_nil.
Qed.

Lemma part_cons p c s : part_of p s -> part_of p (String c s).
Proof. apply (part_app_r p s (String c EmptyString)). Qed.

(** The text of the prompt, with its two inputs in place. *)
Lemma template_renders kind version lines :
  exists text, str_format format_field QC_TEMPLATE [("packet_kind", kind); ("version", version); ("check_lines", lines)] = Ok text /\
    part_of lines text /\ part_of kind text.
Proof.
  eexists. split; [unfold str_format; lazy -[String.append]; reflexivity|].
  split; repeat first [apply part_app_l, part_refl | apply part_cons | apply part_app_r].
Qed.

Lemma check_lines_ok l : map_res check_line l = Ok (map line_of l).
Proof. induction l as [|c l IH]; [done|]. cbn [map_res map]. by rewrite check_line_ok, IH. Qed.

(** The prompt is always rendered and lists every check that applies.  For
    any registry, packet kind and check texts, with braces or not, rendering
    succeeds; the prompt names the kind and holds, for each check that the runner
    would select for the kind, the line with its id, version and description; and
    without any it says so. *)
Lemma checklist_complete (packet_kind : string) (reg : CheckRegistry) :
  exists text, render_qc_checklist packet_kind reg = Ok text /\
    str_contains packet_kind text = true /\
    (forall c, c ∈ applicable_checks packet_kind reg -> str_contains (line_of c) text = true) /\
    (applicable_checks packet_kind reg = [] -> str_contains "(No checks registered for this packet kind.)" text = true).
Proof.
  unfold render_qc_checklist. destruct (applicable_checks packet_kind reg) as [|c0 l] eqn:E.
  - destruct (template_renders packet_kind PROMPT_VERSION "(No checks registered for this packet kind.)") as (text & Ht & Hl & Hk).
    exists text. cbn [res_bind]. split; [done|]. split; [by apply part_contains|]. split; [by intros c ?%elem_of_nil|].
    intros _. by apply part_contains.
  - rewrite check_lines_ok. cbn [res_bind]. rewrite <- E.
    destruct (template_renders packet_kind PROMPT_VERSION (str_join (String (chr 10) EmptyString) (map line_of (c0 :: l)))) as (text & Ht & Hl & Hk).
    rewrite E in *. exists text. split; [done|]. split; [by apply part_contains|]. split; [|done].
    intros c Hc. apply part_contains. eapply part_trans; [|exact Hl]. apply part_join, list_elem_of_fmap. by exists c.
Qed.

End Prompt.

Definition ex_check : Check :=
  mk_Check "c1" "2" None (mk_SeverityPolicy []) [] (mk_CheckDescriptor "c1" "2" "fields {x} match" [] [] "FAIL") (fun _ _ => Ok None).

(** A description with braces reaches the prompt as it is. *)
Example braces_kept : check_line (fun _ _ => Ok EmptyString) ex_check = Ok "- **c1** (v2): fields {x} match".
Proof. vm_compute. reflexivity. Qed.

Lemma checklist_complete_witness :
  exists text, render_qc_checklist (fun _ _ => Ok EmptyString) "intake" [("c1", ex_check)] = Ok text /\
    str_contains "- **c1** (v2): fields {x} match" text = true.
Proof.
  destruct (checklist_complete (fun _ _ => Ok EmptyString) "intake" [("c1", ex_check)]) as (text & Ht & _ & Hc & _).
  exists text. split; [exact Ht|]. apply (Hc ex_check). vm_compute. left.
Defined.
