(* ===== verification/QcChecks.v ===== *)
(** * QcChecks: core/services/qc/checks/

    The seven registered checks, one Section each, as values of the registry's
    record [Check]; the confidentiality policy of the active domain pack
    (packs/base.py, class [RestrictionPolicy]) that the privilege check
    consults; registration of all checks. *)

From Stdlib Require Import ZArith Lia Ascii String List QArith.
From stdpp Require Import base list strings pretty sorting.
From S2P Require Import Prelude PyTime ConnErrors Effects Domain Compute PyText Qc.

Open Scope string_scope.
Open Scope list_scope.
Open Scope Z_scope.
Open Scope cam_scope.

(** A result with the constructor's defaults for the remaining fields. *)
Definition result (id : string) (v : Verdict) (reason : string) (evidence : jdict) : CheckResult :=
  mk_CheckResult id "1.0" v reason evidence "" 0 None.

Definition skip (id reason : string) : CheckResult :=
  mk_CheckResult id "1.0" VSkipped reason [] "" 0 (Some FieldAbsent).

Definition descriptor (id description : string) (applies required : list string) (policy : string)
    : CheckDescriptor := mk_CheckDescriptor id "1.0" description applies required policy.

Definition jstrs (l : list string) : json := JList (map JStr l).

(** ** attachment_integrity *)

Definition docs_by_name (docs : list Document) : dict string Document :=
  fold_left (fun d doc => dset (doc_name doc) doc d) docs [].

(** Failures and warnings about one reference. *)
Definition attachment_issues (by_name : dict string Document) (ref : AttachmentRef)
    : list string * list string :=
  let name := py_repr (at_referenced_name ref) in
  match dget (at_referenced_name ref) by_name with
  | None => (["Attachment " +:+ name +:+ " not found in packet."], [])
  | Some doc =>
      let checksum := match at_expected_checksum ref with
        | Some c => if str_truthy c && negb (String.eqb (doc_checksum doc) c)
                    then ["Attachment " +:+ name +:+ " checksum mismatch."] else []
        | None => []
        end in
      match at_expected_version ref with
      | None => (checksum, [])
      | Some v =>
          if v <? doc_version doc then
            (checksum, ["Attachment " +:+ name +:+ " version " +:+ pretty (doc_version doc) +:+
                        " newer than referenced " +:+ pretty v +:+ "."])
          else if negb (doc_version doc =? v) then
            (checksum ++ ["Attachment " +:+ name +:+ " version mismatch: expected " +:+ pretty v +:+
                          ", got " +:+ pretty (doc_version doc) +:+ "."], [])
          else (checksum, [])
      end
  end.

Definition attachment_run (p : VerificationPacket) (cfg : QCConfig) : res (option CheckResult) :=
  let id := "attachment_integrity" in
  match vp_attachment_refs p with
  | [] => Ok (Some (skip id "No attachment references in packet."))
  | refs =>
      let issues := map (attachment_issues (docs_by_name (vp_documents p))) refs in
      let failures := flat_map fst issues in
      let warnings := flat_map snd issues in
      Ok (Some (match failures, warnings with
        | _ :: _, _ => result id VFail ("Attachment failures: " +:+ py_repr_list failures)
                         [("failures", jstrs failures); ("warnings", jstrs warnings)]
        | [], _ :: _ => result id VWarn ("Attachment warnings: " +:+ py_repr_list warnings)
                          [("warnings", jstrs warnings)]
        | [], [] => result id VPass "All attachments present and verified." []
        end))
  end.

Definition attachment_check : Check :=
  mk_Check "attachment_integrity" "1.0" None WARN_OR_FAIL_OR_PASS ["attachment_refs"; "documents"]
    (descriptor "attachment_integrity" "Referenced attachments present with correct checksum and version."
       ["all"] ["attachment_refs"; "documents"] "") attachment_run.

(** ** completeness *)

(** The required variables of a binding that are unresolved or blank. *)
Definition binding_missing (b : TemplateBinding) : list string :=
  flat_map (fun var =>
    match dget var (tb_resolved_vars b) with
    | Some (Some v) => if is_blank v then [tb_template_name b +:+ "." +:+ var] else []
    | _ => [tb_template_name b +:+ "." +:+ var]
    end) (tb_required_vars b).

Definition matter_missing (m : Matter) : list string :=
  flat_map (fun p : string * string => if str_truthy p.2 then [] else ["matter." +:+ p.1])
    [("id", mt_id m); ("reference", mt_reference m); ("title", mt_title m); ("status", mt_status m)] ++
  (if str_truthy (ct_id (mt_client m)) then [] else ["matter.client"]).

Definition completeness_run (p : VerificationPacket) (cfg : QCConfig) : res (option CheckResult) :=
  let id := "completeness" in
  match vp_template_bindings p with
  | [] => Ok (Some (skip id "No template bindings in packet."))
  | bs =>
      let missing_vars := flat_map binding_missing bs in
      let missing_fields := matter_missing (vp_matter p) in
      Ok (Some (match missing_vars ++ missing_fields with
        | _ :: _ => result id VFail
            ("Missing required vars: " +:+ py_repr_list missing_vars +:+ "; missing matter fields: "
               +:+ py_repr_list missing_fields)
            [("missing_vars", jstrs missing_vars); ("missing_matter_fields", jstrs missing_fields)]
        | [] => result id VPass "All required vars and matter fields present." []
        end))
  end.

Definition completeness_check : Check :=
  mk_Check "completeness" "1.0" None WARN_OR_FAIL_OR_PASS ["template_bindings"; "matter"]
    (descriptor "completeness" "Required template variables resolved; required matter fields present."
       ["all"] ["template_bindings"; "matter"] "warn_or_fail_or_pass") completeness_run.

(** ** extraction_confidence *)

Definition Qltb (a b : Q) : bool := negb (Qle_bool b a).

Section Confidence.
Context (float_repr : Q -> string).

Definition below_floor (cfg : QCConfig) (f : QCExtractedField) : bool :=
  Qltb (ef_confidence f) (qc_extraction_fail_floor cfg).

Definition below_threshold (cfg : QCConfig) (f : QCExtractedField) : bool :=
  negb (below_floor cfg f) && Qltb (ef_confidence f) (qc_extraction_warn_threshold cfg).

Definition field_label (f : QCExtractedField) : string :=
  ef_name f +:+ " (" +:+ fmt2 (ef_confidence f) +:+ ")".

Definition confidence_run (p : VerificationPacket) (cfg : QCConfig) : res (option CheckResult) :=
  let id := "extraction_confidence" in
  match vp_extracted_fields p with
  | [] => Ok (Some (skip id "No extracted fields in packet."))
  | fields =>
      let failed := map field_label (bfilter (below_floor cfg) fields) in
      let warned := map field_label (bfilter (below_threshold cfg) fields) in
      Ok (Some (match failed, warned with
        | _ :: _, _ => result id VFail
            ("Fields below fail_floor (" +:+ float_repr (qc_extraction_fail_floor cfg) +:+ "): "
               +:+ py_repr_list failed) [("failed_fields", jstrs failed)]
        | [], _ :: _ => result id VWarn
            ("Fields below warn_threshold (" +:+ float_repr (qc_extraction_warn_threshold cfg) +:+ "): "
               +:+ py_repr_list warned) [("warned_fields", jstrs warned)]
        | [], [] => result id VPass "All extracted fields meet confidence thresholds." []
        end))
  end.

Definition confidence_check : Check :=
  mk_Check "extraction_confidence" "1.0" None WARN_OR_FAIL_OR_PASS ["extracted_fields"]
    (descriptor "extraction_confidence"
       "Extracted fields above fail_floor (fail if below), above warn_threshold (warn if between floor and threshold)."
       ["all"] ["extracted_fields"] "") confidence_run.
End Confidence.

(** ** consistency *)

Definition normalise (s : string) : string := str_join " " (str_split (str_lower s)).

Definition doc_mismatches (p : VerificationPacket) : list string :=
  flat_map (fun doc =>
    if String.eqb (doc_matter_id doc) (mt_id (vp_matter p)) then []
    else ["Document " +:+ py_repr (doc_id doc) +:+ " matter_id=" +:+ py_repr (doc_matter_id doc) +:+ " != "
            +:+ py_repr (mt_id (vp_matter p))]) (vp_documents p).

(** Mismatches and near matches of one participant's name. *)
Definition name_issues (client : Contact) (comm : Communication) (participant : Contact)
    : list string * list string :=
  if String.eqb (ct_id participant) (ct_id client) && negb (String.eqb (ct_name participant) (ct_name client)) then
    if String.eqb (normalise (ct_name participant)) (normalise (ct_name client)) then
      ([], ["Near-match in comm " +:+ py_repr (cm_id comm) +:+ ": " +:+ py_repr (ct_name participant) +:+
            " normalised to " +:+ py_repr (ct_name client)])
    else (["Name mismatch in comm " +:+ py_repr (cm_id comm) +:+ ": " +:+ py_repr (ct_name participant) +:+
           " vs " +:+ py_repr (ct_name client)], [])
  else ([], []).

Definition comm_issues (p : VerificationPacket) : list (list string * list string) :=
  let client := mt_client (vp_matter p) in
  if str_truthy (ct_name client) then
    flat_map (fun comm => map (name_issues client comm) (cm_participants comm)) (vp_communications p)
  else [].

Definition consistency_run (p : VerificationPacket) (cfg : QCConfig) : res (option CheckResult) :=
  let id := "consistency" in
  let mismatches := doc_mismatches p ++ flat_map fst (comm_issues p) in
  let normalised_diffs := flat_map snd (comm_issues p) in
  Ok (Some (match mismatches, normalised_diffs with
    | _ :: _, _ => result id VFail ("Consistency failures: " +:+ py_repr_list mismatches)
                     [("mismatches", jstrs mismatches)]
    | [], _ :: _ => result id VWarn ("Near-match differences normalised: " +:+ py_repr_list normalised_diffs)
                      [("normalised_diffs", jstrs normalised_diffs)]
    | [], [] => result id VPass "All artefacts consistent." []
    end)).

Definition consistency_check : Check :=
  mk_Check "consistency" "1.0" None WARN_OR_FAIL_OR_PASS ["matter"; "documents"; "communications"]
    (descriptor "consistency" "Client name and matter ref consistent across packet artefacts."
       ["all"] ["matter"; "documents"; "communications"] "") consistency_run.

(** ** deadline_sanity *)

Inductive DeadlineClass := PastDue | BeyondHorizon | Tight | Plausible.

#[export] Instance DeadlineClass_eq_dec : EqDecision DeadlineClass.
Proof. solve_decision. Defined.

Definition classify_deadline (now horizon tight_window : datetime) (d : Deadline) : DeadlineClass :=
  if dt_lt (d_due_at d) now then PastDue
  else if dt_lt horizon (d_due_at d) then BeyondHorizon
  else if dt_le (d_due_at d) tight_window then Tight
  else Plausible.

Definition deadline_label (d : Deadline) : string :=
  d_id d +:+ " (due=" +:+ isoformat (d_due_at d) +:+ ")".

Definition deadline_run (p : VerificationPacket) (cfg : QCConfig) : res (option CheckResult) :=
  let id := "deadline_sanity" in
  match vp_deadlines p with
  | [] => Ok (Some (skip id "No deadlines in packet."))
  | dls =>
      letr! horizon := plus_days (vp_now p) (qc_deadline_horizon_days cfg) in
      letr! tight_window := plus_days (vp_now p) (qc_deadline_tight_window_days cfg) in
      let labels := fun c => map deadline_label
        (bfilter (fun d => bool_decide (classify_deadline (vp_now p) horizon tight_window d = c)) dls) in
      let past_due := labels PastDue in
      let beyond_horizon := labels BeyondHorizon in
      let tight := labels Tight in
      Ok (Some (match past_due ++ beyond_horizon, tight with
        | _ :: _, _ => result id VFail
            ("Past-due: " +:+ py_repr_list past_due +:+ "; beyond horizon: " +:+ py_repr_list beyond_horizon)
            [("past_due", jstrs past_due); ("beyond_horizon", jstrs beyond_horizon)]
        | [], _ :: _ => result id VWarn ("Deadlines approaching tight window: " +:+ py_repr_list tight)
            [("tight", jstrs tight)]
        | [], [] => result id VPass "All deadlines within plausible range." []
        end))
  end.

Definition deadline_check : Check :=
  mk_Check "deadline_sanity" "1.0" None WARN_OR_FAIL_OR_PASS ["deadlines"; "now"]
    (descriptor "deadline_sanity" "Deadlines are plausible: not past-due and within configured horizon."
       ["all"] ["deadlines"; "now"] "") deadline_run.

(** ** privilege *)

(** [RestrictionPolicy] of a domain pack. *)
Record RestrictionPolicy := mk_RestrictionPolicy {
  rp_label : string;
  rp_default_restricted : bool;
  rp_extra_predicates : list (VerificationPacket -> res bool) }.

(** [any(bool(pred(ctx)) for pred in self.extra_predicates)] *)
Fixpoint any_pred (preds : list (VerificationPacket -> res bool)) (p : VerificationPacket) : res bool :=
  match preds with
  | [] => Ok false
  | f :: fs => letr! b := f p in if b then Ok true else any_pred fs p
  end.

Definition extra_block (r : RestrictionPolicy) (p : VerificationPacket) : res bool :=
  any_pred (rp_extra_predicates r) p.

(** Some recipient is not the matter's client. *)
Definition has_unknown_recipient (p : VerificationPacket) : bool :=
  existsb (fun r => negb (String.eqb (ct_id r) (ct_id (mt_client (vp_matter p))))) (vp_intended_recipients p).

Definition effective_external (p : VerificationPacket) : bool :=
  vp_external_bound p || has_unknown_recipient p.

Section Privilege.
(** The active pack's policy; [None]: no pack is active. *)
Context (restriction : option RestrictionPolicy).

Definition label : string := match restriction with Some r => rp_label r | None => "Privileged" end.

Definition pack_block (p : VerificationPacket) : res bool :=
  match restriction with Some r => extra_block r p | None => Ok false end.

Definition privilege_run (p : VerificationPacket) (cfg : QCConfig) : res (option CheckResult) :=
  let id := "privilege" in
  match bfilter restricted (vp_documents p) with
  | [] => Ok (Some (result id VPass ("No " +:+ str_lower label +:+ " documents in packet.") []))
  | docs =>
      letr! extra := pack_block p in
      Ok (Some (
        if effective_external p || extra then
          result id VFail
            (label +:+ " document(s) cannot be routed to external recipients. effective_external="
               +:+ py_bool (effective_external p) +:+ " (caller_claim=" +:+ py_bool (vp_external_bound p)
               +:+ ", re_derived=" +:+ py_bool (has_unknown_recipient p) +:+ ").")
            [("restricted_doc_count", JInt (Z.of_nat (length docs)));
             ("effective_external", JBool (effective_external p))]
        else result id VPass (label +:+ " documents are internal only.") []))
  end.

Definition privilege_check : Check :=
  mk_Check "privilege" "1.0" None FAIL_OR_PASS ["documents"; "intended_recipients"; "matter"]
    (descriptor "privilege"
       "No privileged document reaches an external recipient. Fail-closed: ambiguous external_bound treated as external. Never emits warn."
       ["all"] ["documents"; "intended_recipients"; "matter"] "fail_or_pass (never warn)") privilege_run.
End Privilege.

(** ** recipient_integrity *)

Definition EXPECTED_ROLES : list string := ["client"; "attorney"; "representative"].

Definition role_mismatch (r : Contact) : list string :=
  match ct_role r with
  | Some role =>
      if str_truthy role && negb (str_in role EXPECTED_ROLES)
      then [py_repr (ct_id r) +:+ " has unexpected role " +:+ py_repr role] else []
  | None => []
  end.

Definition is_participant (p : VerificationPacket) (r : Contact) : bool :=
  String.eqb (ct_id r) (ct_id (mt_client (vp_matter p))).

Definition recipient_run (p : VerificationPacket) (cfg : QCConfig) : res (option CheckResult) :=
  let id := "recipient_integrity" in
  match vp_intended_recipients p with
  | [] => Ok (Some (result id VFail "No intended recipients found on a send-type packet."
                      [("packet_kind", JStr (kind_value (vp_kind p)))]))
  | rs =>
      let unknown := map ct_id (bfilter (fun r => negb (is_participant p r)) rs) in
      let role_mismatches := flat_map role_mismatch (bfilter (is_participant p) rs) in
      Ok (Some (match unknown, role_mismatches with
        | _ :: _, _ => result id VFail ("Recipients not in matter participants: " +:+ py_repr_list unknown)
            [("unknown_recipient_ids", jstrs unknown)]
        | [], _ :: _ => result id VWarn ("Role mismatches: " +:+ py_repr_list role_mismatches)
            [("role_mismatches", jstrs role_mismatches)]
        | [], [] => result id VPass "All recipients are matter participants." []
        end))
  end.

Definition recipient_check : Check :=
  mk_Check "recipient_integrity" "1.0" (Some ["email_send"; "document_route"]) WARN_OR_FAIL_OR_PASS
    ["intended_recipients"; "matter"]
    (descriptor "recipient_integrity" "Every intended recipient is a matter participant with correct role."
       ["email_send"; "document_route"] ["intended_recipients"; "matter"] "") recipient_run.

(** ** Registration *)

Section AllChecks.
Context (float_repr : Q -> string) (restriction : option RestrictionPolicy).

Definition ALL_CHECKS : list Check :=
  [attachment_check; completeness_check; confidence_check float_repr; consistency_check; deadline_check;
   privilege_check restriction; recipient_check].

(** [register_all]: an already registered check is passed over. *)
Definition register_all (clear : bool) (reg : CheckRegistry) : CheckRegistry :=
  fold_left (fun reg c => match register_check c reg with Ok reg' => reg' | Err _ => reg end)
    ALL_CHECKS (if clear then [] else reg).
End AllChecks.

(** ** Theorems *)

Lemma register_fold_ok (cs : list Check) (reg : CheckRegistry) :
  registry_ok reg ->
  registry_ok (fold_left (fun reg c => match register_check c reg with Ok reg' => reg' | Err _ => reg end) cs reg).
Proof.
  revert reg. induction cs as [|c cs IH]; intros reg Hr; cbn [fold_left]; [done|].
  apply IH. destruct (register_check c reg) as [r'|e] eqn:E; [by eapply register_check_ok|done].
Qed.

Lemma register_all_ok fr restriction clear reg :
  registry_ok reg -> registry_ok (register_all fr restriction clear reg).
Proof. intros Hreg. apply register_fold_ok. destruct clear; [apply registry_ok_nil|done]. Qed.

(** A restricted document in the packet. *)
Definition has_restricted (p : VerificationPacket) : Prop :=
  exists d, d ∈ vp_documents p /\ restricted d = true.

Lemma restricted_docs p :
  match bfilter restricted (vp_documents p) with [] => ~ has_restricted p | _ :: _ => has_restricted p end.
Proof.
  destruct (bfilter restricted (vp_documents p)) as [|d ds] eqn:E.
  - intros (d & Hd & Hr). assert (d ∈ bfilter restricted (vp_documents p)) as Hin by (by apply elem_of_bfilter).
    rewrite E in Hin. by apply elem_of_nil in Hin.
  - exists d. apply elem_of_bfilter. rewrite E. left.
Qed.

Lemma effective_external_spec p :
  effective_external p = true <->
  vp_external_bound p = true \/
  exists r, r ∈ vp_intended_recipients p /\ ct_id r <> ct_id (mt_client (vp_matter p)).
Proof.
  unfold effective_external, has_unknown_recipient. rewrite orb_true_iff, existsb_exists.
  setoid_rewrite <- list_elem_of_In. setoid_rewrite negb_true_iff. by setoid_rewrite String.eqb_neq.
Qed.

(** The verdict of the privilege check when it is run. *)
Lemma privilege_verdict fr restriction overran p cfg :
  cr_verdict (run_one fr overran p cfg (privilege_check restriction)) =
  if overran then VFail
  else match bfilter restricted (vp_documents p) with
       | [] => VPass
       | _ :: _ => match pack_block restriction p with
                   | Ok extra => if effective_external p || extra then VFail else VPass
                   | Err _ => VFail
                   end
       end.
Proof.
  unfold run_one, run_with_timeout, privilege_check. cbn [ck_run]. unfold privilege_run.
  destruct overran; [done|]. destruct (bfilter _ _) as [|d ds]; [done|].
  destruct (pack_block restriction p) as [extra|e]; [|done]. cbn [res_bind].
  by destruct (effective_external p || extra).
Qed.

(** C12: confidentiality fails closed.  When the packet holds a restricted
    document and is bound outside - the caller says so, or some recipient is not
    the matter's client - every verification that runs the privilege check
    blocks, whatever the active pack's policy, the other checks and the timing;
    an error or timeout of the check blocks as well.  The check never warns or
    skips, and a pack can only turn its passes into failures. *)
Theorem privilege_fail_closed fr restriction late elapsed sha js t p requested cfg :
  let reg := register_all fr restriction true [] in
  let verdict restriction overran := cr_verdict (run_one fr overran p cfg (privilege_check restriction)) in
  (has_restricted p -> vp_external_bound p = true \/
     (exists r, r ∈ vp_intended_recipients p /\ ct_id r <> ct_id (mt_client (vp_matter p))) ->
   match requested with Some ids => "privilege" ∈ ids | None => True end ->
   rep_aggregate (run_checks late elapsed fr sha js reg t p requested cfg) = ABlock) /\
  (forall overran, verdict restriction overran = VPass \/ verdict restriction overran = VFail) /\
  (forall overran, verdict None overran = VFail -> verdict restriction overran = VFail) /\
  (forall overran, verdict restriction overran = VPass <-> overran = false /\
     (has_restricted p -> effective_external p = false /\ pack_block restriction p = Ok false)).
Proof.
  intros reg verdict. split; [|split; [|split]].
  - intros Hr Hext Hreq. apply run_checks_block.
    assert (registry_ok reg) as Hreg by (apply register_all_ok, registry_ok_nil).
    assert (dget "privilege" reg = Some (privilege_check restriction)) as Hg by reflexivity.
    assert (privilege_check restriction ∈ selected_checks reg p requested) as Hin.
    { destruct requested as [ids|]; [by eapply selected_requested|].
      apply applicable_in. split; [|done]. apply dget_Some_in in Hg. apply list_elem_of_fmap.
      by exists ("privilege", privilege_check restriction). }
    apply list_elem_of_lookup in Hin as [n Hn]. exists n, (privilege_check restriction). split; [done|].
    apply (run_one_fails fr). rewrite privilege_verdict. destruct (late n); [done|].
    pose proof (restricted_docs p) as Hd. destruct (bfilter _ _) as [|d ds]; [done|].
    apply effective_external_spec in Hext. rewrite Hext. by destruct (pack_block restriction p).
  - intros overran. unfold verdict. rewrite privilege_verdict. destruct overran; [by right|].
    destruct (bfilter _ _); [by left|]. destruct (pack_block restriction p) as [b|]; [|by right].
    destruct (_ || b); auto.
  - intros overran. unfold verdict. rewrite !privilege_verdict. destruct overran; [done|].
    destruct (bfilter _ _); [done|]. cbn [pack_block]. rewrite orb_false_r.
    destruct (effective_external p); [|done]. by destruct (pack_block restriction p).
  - intros overran. unfold verdict. rewrite privilege_verdict. pose proof (restricted_docs p) as Hd.
    destruct overran; [by split; [|intros [? _]]|]. destruct (bfilter _ _) as [|d ds]; [by split|].
    destruct (pack_block restriction p) as [b|e]; [|split; [done|intros [_ H]; by destruct (H Hd)]].
    destruct (effective_external p), b; cbn [orb]; [| | |by split];
      (split; [done|]); intros [_ H]; by destruct (H Hd).
Qed.

(** ** Witness *)

Definition ex_privileged_doc : Document :=
  mk_Document "d1" "m1" "memo.pdf" "application/pdf" "u" None 1 true "" (utc_datetime 739000 0).

Definition ex_stranger : Contact := mk_Contact "x9" "crm" "Opposing Counsel" None None None [].

Definition ex_route_packet : VerificationPacket :=
  mk_VerificationPacket "p1" None DocumentRoute ex_matter [ex_privileged_doc] [] [] [] [ex_stranger] [] []
    false (utc_datetime 739000 0) default_qc_config.

Lemma privilege_fail_closed_witness :
  rep_aggregate (run_checks (fun _ => false) (fun _ => 0%Q) (fun _ => "") (fun s => s) (fun _ => "")
    (register_all (fun _ => "") None true []) (utc_datetime 739000 0) ex_route_packet None default_qc_config)
  = ABlock.
Proof.
  apply (privilege_fail_closed (fun _ => "") None (fun _ => false) (fun _ => 0%Q) (fun s => s) (fun _ => "")
    (utc_datetime 739000 0) ex_route_packet None default_qc_config).
  - exists ex_privileged_doc. split; [left|reflexivity].
  - right. exists ex_stranger. split; [left|discriminate].
  - exact I.
Defined.
