(* ===== verification/StatusUpdate.v ===== *)
(** * StatusUpdate: core/workflows/status_update/

    The status-update-emails workflow: change ids, the last-known-status store,
    recipients and drafts, the recipient quality check, the eight-step workflow
    with its one-send seal, and the two triggers (webhook event and sweep).
    Handlers act on [sys LastKnownStatusStore V]: the feature's own store and the
    outside world [V], reached through the ports of [Ports].  Logs are left out. *)

From Stdlib Require Import ZArith Lia Ascii String List QArith.
From stdpp Require Import base list strings pretty.
From S2P Require Import Prelude PyTime ConnErrors Effects States RunStore Dsl Engine Triggers Domain.
From S2P Require Import PyText Reference Ports Qc QcChecks Flow.

Open Scope string_scope.
Open Scope list_scope.
Open Scope Z_scope.
Open Scope cam_scope.

(** ** types.py *)

Record MatterStatusDelta := mk_MatterStatusDelta {
  df_matter_id : string;
  df_from_status : string;
  df_to_status : string;
  df_change_id : string;
  df_source : string;
  df_detected_at : datetime;
  df_context : jdict }.

Section StatusUpdate.
(** pydantic's text form of a datetime, and how it reads one. *)
Context (dt_dump : datetime -> json) (dt_parse : json -> res datetime).
Context (sha256_hex : string -> string).

(** [delta.model_dump(mode="json")] and [MatterStatusDelta(...)]. *)
Definition dump_delta (d : MatterStatusDelta) : jdict :=
  [("matter_id", JStr (df_matter_id d)); ("from_status", JStr (df_from_status d));
   ("to_status", JStr (df_to_status d)); ("change_id", JStr (df_change_id d));
   ("source", JStr (df_source d)); ("detected_at", dt_dump (df_detected_at d));
   ("context", JDict (df_context d))].

Definition validate_delta (d : jdict) : res MatterStatusDelta :=
  letr! matter_id := str_field "matter_id" d in
  letr! from_status := str_field "from_status" d in
  letr! to_status := str_field "to_status" d in
  letr! change_id := str_field "change_id" d in
  letr! source := match dget "source" d with
                  | None => Ok "webhook"
                  | Some (JStr s) => if str_in s ["webhook"; "sweep"; "manual"] then Ok s
                                     else Err (ValidationError "source")
                  | Some _ => Err (ValidationError "source")
                  end in
  letr! detected_at := match dget "detected_at" d with
                       | Some j => dt_parse j
                       | None => Err (ValidationError "detected_at")
                       end in
  letr! context := match dget "context" d with
                   | None => Ok []
                   | Some (JDict c) => Ok c
                   | Some _ => Err (ValidationError "context")
                   end in
  Ok (mk_MatterStatusDelta matter_id from_status to_status change_id source detected_at context).

(** ** change_id.py *)

Definition derive_change_id (matter_id from_status to_status discriminator : string) : string :=
  take_chars 16 (sha256_hex
    (matter_id +:+ ":" +:+ from_status +:+ ":" +:+ to_status +:+ ":" +:+ discriminator)).

Definition webhook_change_id (matter_id from_status to_status provider_event_id : string) : string :=
  derive_change_id matter_id from_status to_status provider_event_id.

Definition sweep_change_id (matter_id from_status to_status : string) (transition_counter : Z) : string :=
  derive_change_id matter_id from_status to_status (pretty transition_counter).

(** ** store.py *)

Record StatusUpdateConfig := mk_StatusUpdateConfig {
  su_trigger_allow_list : list string;
  su_suppress_reverts : bool }.

Record LastKnownStatusStore := mk_LastKnownStatusStore {
  ls_last_status : dict string string;
  ls_transition_counters : dict string Z;
  ls_delivered : dict string string }.

Definition get_last_status (matter_id : string) (s : LastKnownStatusStore) : option string :=
  dget matter_id (ls_last_status s).

Definition update_last_status (matter_id status : string) : M LastKnownStatusStore unit :=
  modify (fun s => mk_LastKnownStatusStore (dset matter_id status (ls_last_status s))
                     (ls_transition_counters s) (ls_delivered s)).

Definition next_transition_counter (matter_id : string) : M LastKnownStatusStore Z := fun s =>
  let n := (match dget matter_id (ls_transition_counters s) with Some n => n | None => 0 end) + 1 in
  (mk_LastKnownStatusStore (ls_last_status s) (dset matter_id n (ls_transition_counters s))
     (ls_delivered s), Ok n).

Definition is_delivered (change_id : string) (s : LastKnownStatusStore) : bool :=
  dmem change_id (ls_delivered s).

Definition mark_delivered (change_id run_id : string) : M LastKnownStatusStore unit :=
  modify (fun s => mk_LastKnownStatusStore (ls_last_status s) (ls_transition_counters s)
                     (dset change_id run_id (ls_delivered s))).

Definition get_run_for_change (change_id : string) (s : LastKnownStatusStore) : option string :=
  dget change_id (ls_delivered s).

Definition should_trigger (to_status : string) (config : StatusUpdateConfig) : bool :=
  match su_trigger_allow_list config with
  | [] => false
  | l => str_in to_status l
  end.

(** ** draft.py *)

Definition PROMPT_VERSION : string := "v1".

(** The client, or a gap when the client has no address. *)
Definition resolve_matter_recipients (m : Matter) : list Contact * list string :=
  let client := mt_client m in
  if opt_truthy (ct_email client) then ([client], [])
  else ([], ["Client " +:+ py_repr (ct_id client) +:+ " has no email address."]).

Definition render_status_update_body (d : MatterStatusDelta) (m : Matter) : string :=
  "Dear " +:+ ct_name (mt_client m) +:+ "," +:+ NL +:+ NL +:+
  "We are writing to inform you of a status update on your matter " +:+
  "(reference: " +:+ mt_reference m +:+ ")." +:+ NL +:+ NL +:+
  "Status changed from '" +:+ df_from_status d +:+ "' to '" +:+ df_to_status d +:+ "'." +:+ NL +:+ NL +:+
  "Please contact our office if you have any questions." +:+ NL +:+ NL +:+
  "Best regards," +:+ NL +:+ "The Immigration Team".

Definition status_update_comm (id : string) (d : MatterStatusDelta) (m : Matter)
    (recipients : list Contact) : Communication :=
  mk_Communication id (Some (mt_id m)) DirOut "email" (Some ("Status update — " +:+ mt_reference m))
    (render_status_update_body d m) "draft" recipients.

(** ** The workflow *)

Context {V : Type} {CC : CaseConnector V} {EC : EmailConnector V}.
Context (clock : nat -> datetime) (uuids : nat -> string).
Context (late : nat -> bool) (elapsed : nat -> Q) (float_repr : Q -> string).
Context (json_canonical : jdict -> string) (checks : CheckRegistry).
Context (config : StatusUpdateConfig) (audit_fn : option (AuditEvent -> M V unit)).

Abbreviation world := (sys LastKnownStatusStore V).

Definition create_status_update_draft (d : MatterStatusDelta) (m : Matter) (recipients : list Contact)
    : M world (string * string) :=
  let! id := uuid4 uuids in
  let! draft_id := on_world (ec_create_draft (status_update_comm id d m recipients)) in
  ret (draft_id, PROMPT_VERSION).

(** qc.py *)
Definition recipient_packet (m : Matter) (recipients : list Contact) (run_id : string) (now : datetime)
    : VerificationPacket :=
  mk_VerificationPacket ("qc-" +:+ run_id) (Some run_id) EmailSend m [] [] [] [] recipients [] [] true now
    default_qc_config.

Definition run_recipient_integrity_qc (m : Matter) (recipients : list Contact) (run_id : string)
    : M world string :=
  let! now := get_now clock in
  try_except
    (let! created_at := get_now clock in
     let! report := on_world (tool_qc_verify late elapsed float_repr sha256_hex json_canonical audit_fn
       None checks created_at (recipient_packet m recipients run_id now) (Some ["recipient_integrity"])) in
     ret (match rep_aggregate report with
          | ABlock => "fail"
          | APassWithWarnings => "warn"
          | APass => "pass"
          end))
    (fun _ => ret "fail").

(** [if svc.audit_fn: try: await svc.audit_fn(...) except Exception: pass] *)
Definition su_audit (action : string) (inputs outputs : jdict) (run_id : string) : M world unit :=
  match audit_fn with
  | None => ret tt
  | Some f => try_pass (on_world (f (mk_AuditEvent "status_update_workflow" action inputs outputs (Some run_id))))
  end.

(** [MatterStatusDelta] of [ctx.context.get("delta", dict())] *)
Definition delta_of (context : jdict) : res MatterStatusDelta :=
  match dget "delta" context with
  | None => validate_delta []
  | Some (JDict d) => validate_delta d
  | Some _ => Err (TypeError "argument after ** must be a mapping")
  end.

Definition fetch_matter (d : MatterStatusDelta) : M world Matter :=
  on_world (cc_get_matter (df_matter_id d)).

Definition detect_change (ctx : StepContext world) : M world jdict :=
  let! d := lift_res (delta_of (ctx_context ctx)) in
  ret [("triggered", JBool (should_trigger (df_to_status d) config));
       ("change_id", JStr (df_change_id d)); ("to_status", JStr (df_to_status d))].

Definition compute_delta (ctx : StepContext world) : M world jdict :=
  let! d := lift_res (delta_of (ctx_context ctx)) in
  on_store (update_last_status (df_matter_id d) (df_to_status d)) ;;
  ret [("matter_id", JStr (df_matter_id d)); ("from_status", JStr (df_from_status d));
       ("to_status", JStr (df_to_status d))].

Definition resolve_recipients_step (ctx : StepContext world) : M world jdict :=
  let! d := lift_res (delta_of (ctx_context ctx)) in
  let! m := fetch_matter d in
  let '(recipients, gaps) := resolve_matter_recipients m in
  ret [("recipient_ids", jstrs (map ct_id recipients));
       ("recipient_emails", jstrs (flat_map (fun r =>
          match ct_email r with Some e => if str_truthy e then [e] else [] | None => [] end) recipients));
       ("gaps", jstrs gaps); ("matter_ref", JStr (mt_reference m))].

Definition draft_email (ctx : StepContext world) : M world jdict :=
  let! d := lift_res (delta_of (ctx_context ctx)) in
  let! m := fetch_matter d in
  let! resolved := lift_res (prior_output "resolve_recipients" ctx) in
  let gaps := dget_or "gaps" (JList []) resolved in
  if json_truthy gaps then
    ret [("draft_id", JStr EmptyString); ("gaps", gaps); ("blocked", JBool true)]
  else
    let recipients := fst (resolve_matter_recipients m) in
    let! (draft_id, prompt_ver) := create_status_update_draft d m recipients in
    su_audit "draft_created" [("run_id", JStr (ctx_run_id ctx))] [("draft_id", JStr draft_id)]
      (ctx_run_id ctx) ;;
    ret [("draft_id", JStr draft_id); ("prompt_version", JStr prompt_ver); ("blocked", JBool false)].

Definition qc_recipient_integrity (ctx : StepContext world) : M world jdict :=
  let! d := lift_res (delta_of (ctx_context ctx)) in
  let! m := fetch_matter d in
  let! draft := lift_res (prior_output "draft_email" ctx) in
  if json_truthy (dget_or "blocked" JNull draft) then
    ret [("qc_result", JStr "fail"); ("reason", JStr "No valid recipients")]
  else
    let recipients := fst (resolve_matter_recipients m) in
    let! result := run_recipient_integrity_qc m recipients (ctx_run_id ctx) in
    su_audit "qc_result" [("run_id", JStr (ctx_run_id ctx))] [("result", JStr result)] (ctx_run_id ctx) ;;
    ret [("qc_result", JStr result)].

Definition send_key (change_id : string) : string := "status_update:" +:+ change_id.

(** Why [send_email] does not send, if it does not. *)
Definition no_send_reason (qc_out draft_out : jdict) : option string :=
  match dget_or "qc_result" JNull qc_out with
  | JStr "fail" => Some "QC failed — no send"
  | _ => if json_truthy (dget_or "draft_id" JNull draft_out) then None
         else Some "No draft id — no send"
  end.

(** [svc.email.send] takes a string: the draft ids this workflow records are. *)
Definition send_email (ctx : StepContext world) : M world jdict :=
  let! draft_out := lift_res (prior_output "draft_email" ctx) in
  let! qc_out := lift_res (prior_output "qc_recipient_integrity" ctx) in
  let! d := lift_res (delta_of (ctx_context ctx)) in
  match no_send_reason qc_out draft_out with
  | Some reason => ret [("sent", JBool false); ("reason", JStr reason)]
  | None =>
      let idem_key := send_key (df_change_id d) in
      let! draft_id := lift_res (str_field "draft_id" draft_out) in
      let! message_id := on_world (ec_send draft_id idem_key) in
      su_audit "email_sent" [("idem_key", JStr idem_key)] [("message_id", JStr message_id)]
        (ctx_run_id ctx) ;;
      ret [("sent", JBool true); ("message_id", JStr message_id)]
  end.

Definition record_outcome (ctx : StepContext world) : M world jdict :=
  let! send_out := lift_res (prior_output "send_email" ctx) in
  let! d := lift_res (delta_of (ctx_context ctx)) in
  let sent := dget_or "sent" (JBool false) send_out in
  (if json_truthy sent then on_store (mark_delivered (df_change_id d) (ctx_run_id ctx)) else ret tt) ;;
  ret [("delivered", sent)].

Definition STATUS_UPDATE_STEPS : list string :=
  ["detect_change"; "compute_delta"; "resolve_recipients"; "draft_email"; "qc_recipient_integrity";
   "GATE:human_review"; "send_email"; "record_outcome"].

Definition status_update_gates : dict string GateConfig :=
  [("human_review", mk_GateConfig "attorney" 1 ["mcp"; "web"; "email"] 86400)].

Definition status_update_handlers : dict string (Handler world) :=
  [("detect_change", method detect_change); ("compute_delta", method compute_delta);
   ("resolve_recipients", method resolve_recipients_step); ("draft_email", method draft_email);
   ("qc_recipient_integrity", method qc_recipient_integrity); ("send_email", method send_email);
   ("record_outcome", method record_outcome)].

Definition status_update_class : WorkflowClass world :=
  mk_WorkflowClass STATUS_UPDATE_STEPS status_update_gates
    (fun name => option_map AsyncMethod (dget name status_update_handlers)).

Definition register_status_update_workflow : M (registry world) unit :=
  workflow "status_update_email" 1 None status_update_class.

(** ** Triggers *)

Context (o_clock : nat -> datetime) (o_uuids : nat -> string) (reg : registry world).

(** The orchestrator's store and clock around the services' own. *)
Abbreviation osys := (sys RunStore world).

Definition on_status {A} (m : M LastKnownStatusStore A) : M osys A := on_world (on_store m).

Definition handle_status_change_event (matter_id from_status to_status provider_event_id : string)
    : M osys (option jdict) :=
  if should_trigger to_status config then
    let change_id := webhook_change_id matter_id from_status to_status provider_event_id in
    let! delivered := on_status (gets (is_delivered change_id)) in
    if delivered then ret (Some [("noop", JBool true); ("change_id", JStr change_id)])
    else
      let! now := get_now o_clock in
      let delta := mk_MatterStatusDelta matter_id from_status to_status change_id "webhook" now [] in
      let! run := start_run o_clock o_uuids reg "status_update_email"
        [("delta", JDict (dump_delta delta))]
        (make_agent_trigger "status_update_webhook" (Some change_id)) (Some change_id) None in
      ret (Some [("run_id", JStr (run_id run)); ("status", JStr (run_status_value (run_status run)));
                 ("change_id", JStr change_id)])
  else ret None.

(** The body of the sweep's loop; [None] where the code continues. *)
Definition sweep_matter (matter_id : string) : M osys (option jdict) :=
  let! m := on_world (on_world (cc_get_matter matter_id)) in
  let! last := on_status (gets (get_last_status matter_id)) in
  match last with
  | None => ret None
  | Some last =>
      if String.eqb last (mt_status m) then ret None
      else
        let! counter := on_status (next_transition_counter matter_id) in
        let change_id := sweep_change_id matter_id last (mt_status m) counter in
        let! delivered := on_status (gets (is_delivered change_id)) in
        if delivered then ret None
        else
          let! result := handle_status_change_event matter_id last (mt_status m) ("sweep-" +:+ change_id) in
          match result with
          | Some r => on_status (update_last_status matter_id (mt_status m)) ;; ret (Some r)
          | None => ret None
          end
  end.

Fixpoint sweep_loop (matter_ids : list string) (results : list jdict) : M osys (list jdict) :=
  match matter_ids with
  | [] => ret results
  | matter_id :: rest =>
      let! r := try_except (sweep_matter matter_id) (fun _ => ret None) in
      sweep_loop rest (match r with Some r => results ++ [r] | None => results end)
  end.

Definition sweep_matters (matter_ids : list string) : M osys (list jdict) := sweep_loop matter_ids [].
End StatusUpdate.

(** ** Lemmas *)

(** A request for one check: the verdict of that check, and a clean pass when no
    check of that id applies. *)
Lemma run_checks_single late elapsed fr sha js reg t p id cfg :
  registry_ok reg ->
  rep_aggregate (run_checks late elapsed fr sha js reg t p (Some [id]) cfg) =
    match dget id reg with
    | Some c => if applies (kind_value (vp_kind p)) c
                then aggregate [with_duration (elapsed 0%nat) (run_one fr (late 0%nat) p cfg c)] else APass
    | None => APass
    end.
Proof.
  intros Hreg. destruct (run_checks_results late elapsed fr sha js reg t p (Some [id]) cfg)
    as (_ & Hagg & Hres & _). rewrite Hagg. clear Hagg.
  unfold selected_checks in Hres. rewrite (proj1 (select_checks_spec _ _)) in Hres.
  cbn [flat_map] in Hres. rewrite by_id_applicable in Hres by done.
  match type of Hres with forall i, ?rs !! i = _ => assert (rs = match dget id reg with
    | Some c => if applies (kind_value (vp_kind p)) c
                then [with_duration (elapsed 0%nat) (run_one fr (late 0%nat) p cfg c)] else []
    | None => [] end) as -> end.
  { apply list_eq. intros i. rewrite Hres.
    destruct (dget id reg) as [c|]; [destruct (applies _ c)|]; by destruct i. }
  destruct (dget id reg) as [c|]; [destruct (applies _ c)|]; done.
Qed.

Section StatusUpdateProps.
Context (dt_dump : datetime -> json) (dt_parse : json -> res datetime).
Context (sha256_hex : string -> string).
Context {V : Type} {CC : CaseConnector V} {EC : EmailConnector V} {EL : EmailLaws V}.
Context (clock : nat -> datetime) (uuids : nat -> string).
Context (late : nat -> bool) (elapsed : nat -> Q) (float_repr : Q -> string).
Context (json_canonical : jdict -> string) (checks : CheckRegistry).
Context (config : StatusUpdateConfig) (audit_fn : option (AuditEvent -> M V unit)).

Abbreviation world := (sys LastKnownStatusStore V).
Abbreviation handlers := (status_update_handlers dt_parse sha256_hex clock uuids late elapsed float_repr
                            json_canonical checks config audit_fn).
Abbreviation call := (call_steps handlers).

(** ** Quality check of the recipients *)

Abbreviation qc := (run_recipient_integrity_qc sha256_hex clock late elapsed float_repr json_canonical
                      checks audit_fn).

(** What the check says of the recipients this workflow derives. *)
Definition recipient_verdict (m : Matter) : string :=
  if opt_truthy (ct_email (mt_client m)) then
    match role_mismatch (mt_client m) with [] => "pass" | _ => "warn" end
  else "fail".

Lemma qc_result m recipients rid (w : world) :
  registry_ok checks ->
  snd (qc m recipients rid w) = Ok
    match dget "recipient_integrity" checks with
    | Some c =>
        if applies "email_send" c then
          match cr_verdict (run_one float_repr (late 0%nat)
                  (recipient_packet m recipients rid (clock (sys_ticks w))) default_qc_config c) with
          | VFail => "fail" | VWarn => "warn" | _ => "pass" end
        else "pass"
    | None => "pass"
    end.
Proof.
  intros Hreg. unfold run_recipient_integrity_qc. rewrite bind_get_now.
  unfold try_except. rewrite bind_get_now. set (p := recipient_packet _ _ _ _).
  unfold bind at 1, on_world, zoom. unfold tool_qc_verify.
  assert (forall v rep, exists v', ((write_audit sha256_hex json_canonical audit_fn p rep ;;
            (try_pass (attach_to_run None (vp_run_id p) rep) ;; ret rep)) v) = (v', Ok rep)) as Hv.
  { intros v rep. unfold write_audit, bind, try_pass. destruct audit_fn as [f|]; cbn; [|eauto].
    destruct (f _ v) as [v1 r]. eauto. }
  destruct (Hv (sys_world (tick (tick w))) (run_checks late elapsed float_repr sha256_hex json_canonical checks
    (clock (sys_ticks (tick w))) p (Some ["recipient_integrity"]) (vp_config_snapshot p))) as [v' ->].
  cbn [snd]. f_equal. rewrite run_checks_single by done. change (kind_value (vp_kind p)) with "email_send".
  destruct (dget _ checks) as [c|]; [|done]. destruct (applies _ c); [|done].
  unfold aggregate, has_verdict. cbn [existsb with_duration cr_verdict].
  change (vp_config_snapshot p) with default_qc_config. by destruct (cr_verdict _).
Qed.
Lemma recipient_qc_derived m rid (w : world) :
  registry_ok checks -> dget "recipient_integrity" checks = Some recipient_check -> late 0%nat = false ->
  snd (qc m (fst (resolve_matter_recipients m)) rid w) = Ok (recipient_verdict m).
Proof.
  intros Hreg Hc Hl. rewrite qc_result by done. rewrite Hc, Hl. change (applies _ _) with true. cbv iota.
  unfold recipient_verdict, resolve_matter_recipients.
  destruct (opt_truthy (ct_email (mt_client m))); cbn; [|done].
  unfold is_participant. cbn. rewrite String.eqb_refl. cbn. rewrite app_nil_r.
  by destruct (role_mismatch (mt_client m)).
Qed.

(** ** What sends mail *)

Context (Hcase : forall id, sends_nothing (cc_get_matter id)).
Context (Haudit : forall f ev, audit_fn = Some f -> sends_nothing (f ev)).

Lemma unsent_audit L action inputs outputs rid : keeps (unsent L) (su_audit audit_fn action inputs outputs rid).
Proof.
  unfold su_audit. destruct audit_fn as [f|] eqn:E; [|apply keeps_ret].
  apply keeps_try_pass, unsent_on_world. by apply Haudit.
Qed.

Lemma unsent_fetch L d : keeps (unsent L) (fetch_matter d).
Proof. by apply unsent_on_world. Qed.

Lemma unsent_draft L d m rs : keeps (unsent L) (create_status_update_draft uuids d m rs).
Proof.
  unfold create_status_update_draft. apply keeps_bind; [apply world_uuid4|]. intros id.
  apply keeps_bind; [|intros; apply keeps_ret]. apply unsent_on_world. intros v. apply draft_sends_nothing.
Qed.

Lemma unsent_qc L m rs rid : keeps (unsent L) (qc m rs rid).
Proof.
  unfold run_recipient_integrity_qc. apply keeps_bind; [apply world_get_now|]. intros now.
  apply keeps_try_except; [|intros; apply keeps_ret].
  apply keeps_bind; [apply world_get_now|]. intros t.
  apply keeps_bind; [|intros; apply keeps_ret]. apply unsent_on_world.
  intros v. unfold tool_qc_verify, write_audit, bind, try_pass.
  destruct audit_fn as [f|] eqn:E; cbn; [|done].
  match goal with |- context [f ?ev v] => pose proof (Haudit f ev eq_refl v) as H; destruct (f ev v) end. done.
Qed.

Hint Resolve unsent_audit unsent_fetch unsent_draft unsent_qc : cam.

(** The handlers before the gate send nothing, whatever they find. *)
Lemma before_gate_unsent L rid context outputs :
  keeps (unsent L) (call rid context (take 5 STATUS_UPDATE_STEPS) outputs).
Proof.
  apply keeps_call_steps. intros step Hs.
  cbn [take STATUS_UPDATE_STEPS] in Hs. rewrite !elem_of_cons, elem_of_nil in Hs. destruct Hs as [->|[->|[->|[->|[->|[]]]]]];
    (eexists; split; [reflexivity|]; intros ctx; unfold detect_change, compute_delta,
       resolve_recipients_step, draft_email, qc_recipient_integrity; cbv zeta); keep_going.
Qed.

(** ** After the gate *)

Lemma su_audit_run action inputs outputs rid (w : world) :
  exists v, su_audit audit_fn action inputs outputs rid w = (set_world v w, Ok tt) /\
    ec_sent v = ec_sent (sys_world w).
Proof.
  unfold su_audit. destruct audit_fn as [f|] eqn:E.
  - unfold try_pass, on_world, zoom. set (ev := mk_AuditEvent _ _ _ _ _).
    pose proof (Haudit f ev eq_refl (sys_world w)) as H. destruct (f ev (sys_world w)) as [v r]. by exists v.
  - exists (sys_world w). by destruct w.
Qed.

(** How a call of [send_email] can end: refused before anything happened, not
    sent, or sent (or tried) once under the change's key. *)
Inductive send_outcome (d : MatterStatusDelta) (ctx : StepContext world) (w w' : world) (r : res jdict) : Prop :=
| so_refused e : w' = w -> r = Err e -> send_outcome d ctx w w' r
| so_blocked draft_out qc_out reason :
    prior_output "draft_email" ctx = Ok draft_out ->
    prior_output "qc_recipient_integrity" ctx = Ok qc_out ->
    no_send_reason qc_out draft_out = Some reason -> w' = w ->
    r = Ok [("sent", JBool false); ("reason", JStr reason)] -> send_outcome d ctx w w' r
| so_tried draft_out qc_out draft_id v :
    prior_output "draft_email" ctx = Ok draft_out ->
    prior_output "qc_recipient_integrity" ctx = Ok qc_out ->
    no_send_reason qc_out draft_out = None -> str_field "draft_id" draft_out = Ok draft_id ->
    v = fst (ec_send draft_id (send_key (df_change_id d)) (sys_world w)) ->
    sys_store w' = sys_store w -> ec_sent (sys_world w') = ec_sent v ->
    match snd (ec_send draft_id (send_key (df_change_id d)) (sys_world w)) with
    | Ok m => r = Ok [("sent", JBool true); ("message_id", JStr m)]
    | Err e => r = Err e
    end -> send_outcome d ctx w w' r.

Lemma send_email_outcome ctx d (w w' : world) r :
  delta_of dt_parse (ctx_context ctx) = Ok d ->
  send_email dt_parse audit_fn ctx w = (w', r) -> send_outcome d ctx w w' r.
Proof.
  intros Hd. unfold send_email, lift_res. unfold bind at 1.
  destruct (prior_output "draft_email" ctx) as [draft_out|e] eqn:E1; [|intros [= <- <-]; by eapply so_refused].
  unfold bind at 1.
  destruct (prior_output "qc_recipient_integrity" ctx) as [qc_out|e] eqn:E2;
    [|intros [= <- <-]; by eapply so_refused].
  unfold bind at 1. rewrite Hd. destruct (no_send_reason qc_out draft_out) as [reason|] eqn:E3.
  - intros [= <- <-]. by eapply so_blocked.
  - cbv zeta. unfold bind at 1.
    destruct (str_field "draft_id" draft_out) as [draft_id|e] eqn:E4; [|intros [= <- <-]; by eapply so_refused].
    unfold bind at 1, on_world at 1, zoom.
    destruct (ec_send draft_id (send_key (df_change_id d)) (sys_world w)) as [v [m|e]] eqn:Es; cbn.
    + unfold bind. match goal with |- context [su_audit audit_fn ?a ?i ?o ?x ?w0] =>
        destruct (su_audit_run a i o x w0) as (v' & -> & Hv) end.
      intros [= <- <-]. eapply (so_tried d ctx _ _ _ draft_out qc_out draft_id _ E1 E2 E3 E4 eq_refl);
        rewrite ?Es; done.
    + intros [= <- <-]. eapply (so_tried d ctx _ _ _ draft_out qc_out draft_id _ E1 E2 E3 E4 eq_refl);
        rewrite ?Es; done.
Qed.

Lemma record_outcome_run ctx d o (w : world) :
  delta_of dt_parse (ctx_context ctx) = Ok d -> prior_output "send_email" ctx = Ok o ->
  let sent := dget_or "sent" (JBool false) o in
  record_outcome dt_parse ctx w =
    ((if json_truthy sent then
        fst (on_store (mark_delivered (df_change_id d) (ctx_run_id ctx)) w) else w),
     Ok [("delivered", sent)]).
Proof.
  intros Hd Ho sent. unfold record_outcome, lift_res, bind. rewrite Ho, Hd. fold sent.
  by destruct (json_truthy sent).
Qed.

(** C26: one message per status change, and only for a change that may be sent.
    Up to the gate the workflow sends no mail, whatever its context, the outputs
    it finds and the faults of the connectors.  After the gate, of a run for the
    change [d], at most the message under the key of [d.change_id] appears and
    every other message stays; if the quality check failed or there is no draft,
    nothing is sent and nothing is marked delivered; and when both steps return,
    the change is marked delivered for this run exactly when the message of its
    key is recorded as sent by it. *)
Theorem status_update_sends_once rid context d :
  delta_of dt_parse context = Ok d ->
  let key := send_key (df_change_id d) in
  (forall outputs w,
     ec_sent (sys_world (fst (call rid context (take 5 STATUS_UPDATE_STEPS) outputs w))) =
     ec_sent (sys_world w)) /\
  (forall outputs (w w' : world) r, call rid context ["send_email"; "record_outcome"] outputs w = (w', r) ->
     (forall k, k <> key -> dget k (ec_sent (sys_world w')) = dget k (ec_sent (sys_world w))) /\
     match r with
     | Err _ => sys_store w' = sys_store w
     | Ok outs =>
         exists draft_out qc_out, let ctx := new_context (W := world) rid context outputs (step_key rid "send_email") in
           prior_output "draft_email" ctx = Ok draft_out /\ prior_output "qc_recipient_integrity" ctx = Ok qc_out /\
           if no_send_reason qc_out draft_out is Some _ then
             dget "record_outcome" outs = Some (JDict [("delivered", JBool false)]) /\ w' = w
           else
             dget "record_outcome" outs = Some (JDict [("delivered", JBool true)]) /\
             dget (df_change_id d) (ls_delivered (sys_store w')) = Some rid /\
             exists m, dget key (ec_sent (sys_world w')) = Some m /\
               dget "send_email" outs = Some (JDict [("sent", JBool true); ("message_id", JStr m)])
     end).
Proof.
  intros Hd key. split; [intros outputs w; exact (before_gate_unsent _ rid context outputs w eq_refl)|].
  intros outputs w w' r. cbn [call_steps]. unfold bind at 1.
  rewrite (call_step_method handlers rid context "send_email" outputs _ w eq_refl).
  set (ctx := new_context rid context outputs (step_key rid "send_email")).
  destruct (send_email dt_parse audit_fn ctx w) as [w1 r1] eqn:E.
  assert (forall o, r1 = Ok o ->
    call_step handlers rid context "record_outcome" (set_output "send_email" o outputs) w1 =
    ((if json_truthy (dget_or "sent" (JBool false) o) then
        fst (on_store (mark_delivered (df_change_id d) rid) w1) else w1),
     Ok (set_output "record_outcome" [("delivered", dget_or "sent" (JBool false) o)]
           (set_output "send_email" o outputs)))) as Hrec.
  { intros o ->. rewrite (call_step_method handlers rid context "record_outcome" _ _ w1 eq_refl).
    rewrite (record_outcome_run _ d o w1); [done|exact Hd|].
    rewrite prior_output_set. by rewrite decide_True. }
  unfold bind. destruct (send_email_outcome ctx d w w1 r1 Hd E) as
    [e -> ->|dr qc reason E1 E2 E3 -> ->|dr qc did v E1 E2 E3 E4 -> Hst Hsent Hr].
  - intros [= <- <-]. done.
  - cbn [res_bind]. rewrite (Hrec _ eq_refl). intros [= <- <-]. split; [done|].
    exists dr, qc. do 2 (split; [done|]). rewrite E3. split; [|done]. unfold set_output. by rewrite dget_dset_eq.
  - assert (forall k, k <> key -> dget k (ec_sent (sys_world w1)) = dget k (ec_sent (sys_world w))) as Hk
      by (intros k Hne; rewrite Hsent; by apply send_other_keys).
    destruct (snd (ec_send did _ _)) as [m|e] eqn:Es; subst r1; cbn [res_bind].
    + rewrite (Hrec _ eq_refl). intros [= <- <-]. split; [exact Hk|].
      exists dr, qc. do 2 (split; [done|]). rewrite E3. cbn. unfold set_output.
      split; [by rewrite dget_dset_eq|]. split; [by rewrite dget_dset_eq|]. exists m. split.
      * rewrite Hsent. eapply send_records. rewrite <- Es. apply surjective_pairing.
      * rewrite dget_dset_ne by done. by rewrite dget_dset_eq.
    + intros [= <- <-]. split; [exact Hk|done].
Qed.

(** ** A client without an address *)

Lemma call_steps_cons step rest rid context outputs f (w w1 : world) o :
  dget step handlers = Some (method f) ->
  f (new_context rid context outputs (step_key rid step)) w = (w1, Ok o) ->
  call rid context (step :: rest) outputs w = call rid context rest (set_output step o outputs) w1.
Proof.
  intros Hs Hf. cbn [call_steps]. unfold bind.
  rewrite (call_step_method handlers rid context step outputs f w Hs), Hf. done.
Qed.

Lemma fetch_pure d m (w : world) :
  (forall v, cc_get_matter (df_matter_id d) v = (v, Ok m)) -> fetch_matter d w = (w, Ok m).
Proof. intros Hm. unfold fetch_matter, on_world, zoom. rewrite Hm. by destruct w. Qed.

(** The gap found when the recipients are resolved blocks the draft, the missing
    draft fails the check, and the failed check stops the send: the run ends
    without a mail, and only the last known status of the matter has changed. *)
Lemma no_address_run rid context d m (w : world) :
  delta_of dt_parse context = Ok d ->
  (forall v, cc_get_matter (df_matter_id d) v = (v, Ok m)) -> opt_truthy (ct_email (mt_client m)) = false ->
  exists outs,
    call rid context (bfilter (fun x => negb (is_gate x)) STATUS_UPDATE_STEPS) [] w =
      (fst (on_store (update_last_status (df_matter_id d) (df_to_status d)) w), Ok outs) /\
    dget "send_email" outs = Some (JDict [("sent", JBool false); ("reason", JStr "QC failed — no send")]) /\
    dget "record_outcome" outs = Some (JDict [("delivered", JBool false)]).
Proof.
  intros Hd Hm He.
  assert (resolve_matter_recipients m =
    ([], ["Client " +:+ py_repr (ct_id (mt_client m)) +:+ " has no email address."])) as Hr
    by (unfold resolve_matter_recipients; by rewrite He).
  change (bfilter _ STATUS_UPDATE_STEPS) with ["detect_change"; "compute_delta"; "resolve_recipients";
    "draft_email"; "qc_recipient_integrity"; "send_email"; "record_outcome"].
  set (w1 := fst (on_store (update_last_status (df_matter_id d) (df_to_status d)) w)).
  assert (forall w, fetch_matter d w = (w, Ok m)) as Hf by (intros; by apply fetch_pure).
  eexists. split.
  { erewrite (call_steps_cons "detect_change" _ rid context [] (detect_change dt_parse config) w w);
      [|reflexivity|unfold detect_change, bind, lift_res; cbn; rewrite Hd; reflexivity].
    erewrite (call_steps_cons "compute_delta" _ rid context _ (compute_delta dt_parse) w w1);
      [|reflexivity|unfold compute_delta, bind, lift_res; cbn; rewrite Hd; reflexivity].
    erewrite (call_steps_cons "resolve_recipients" _ rid context _ (resolve_recipients_step dt_parse) w1 w1);
      [|reflexivity|unfold resolve_recipients_step, bind, lift_res; cbn [ctx_context new_context];
        rewrite Hd, Hf, Hr; reflexivity].
    erewrite (call_steps_cons "draft_email" _ rid context _ (draft_email dt_parse uuids audit_fn) w1 w1);
      [|reflexivity|unfold draft_email, bind, lift_res; cbn [ctx_context new_context];
        rewrite Hd, Hf, prior_output_set; reflexivity].
    erewrite (call_steps_cons "qc_recipient_integrity" _ rid context _
        (qc_recipient_integrity dt_parse sha256_hex clock late elapsed float_repr json_canonical checks audit_fn) w1 w1);
      [|reflexivity|unfold qc_recipient_integrity, bind, lift_res; cbn [ctx_context new_context];
        rewrite Hd, Hf, prior_output_set; reflexivity].
    erewrite (call_steps_cons "send_email" _ rid context _ (send_email dt_parse audit_fn) w1 w1);
      [|reflexivity|unfold send_email, bind, lift_res; cbn [ctx_context new_context];
        rewrite Hd, !prior_output_set; reflexivity].
    erewrite (call_steps_cons "record_outcome" _ rid context _ (record_outcome dt_parse) w1 w1);
      [|reflexivity|unfold record_outcome, bind, lift_res; cbn [ctx_context new_context];
        rewrite Hd, !prior_output_set; reflexivity].
    reflexivity. }
  split; reflexivity.
Qed.
(** No address, no mail.  When the matter's client has no address, the run
    ends without any call of the mail system: only the matter's last known status
    has changed, and the outcome recorded is that nothing was delivered.  When the
    client has one, the registered check, given the recipients the workflow
    derives, never fails: they are the client of the very matter it checks them
    against; and when the check is not registered, it passes anything. *)
Lemma recipients_checked rid context d m (w : world) :
  delta_of dt_parse context = Ok d ->
  (forall v, cc_get_matter (df_matter_id d) v = (v, Ok m)) -> registry_ok checks ->
  (opt_truthy (ct_email (mt_client m)) = false -> exists outs,
     call rid context (bfilter (fun x => negb (is_gate x)) STATUS_UPDATE_STEPS) [] w =
       (fst (on_store (update_last_status (df_matter_id d) (df_to_status d)) w), Ok outs) /\
     dget "send_email" outs = Some (JDict [("sent", JBool false); ("reason", JStr "QC failed — no send")]) /\
     dget "record_outcome" outs = Some (JDict [("delivered", JBool false)])) /\
  (opt_truthy (ct_email (mt_client m)) = true -> dget "recipient_integrity" checks = Some recipient_check ->
     late 0%nat = false ->
     snd (qc m (fst (resolve_matter_recipients m)) rid w) =
       Ok (match role_mismatch (mt_client m) with [] => "pass" | _ => "warn" end)) /\
  (dget "recipient_integrity" checks = None -> forall recipients, snd (qc m recipients rid w) = Ok "pass").
Proof.
  intros Hd Hm Hreg. split; [intros He; by apply (no_address_run rid context d m w)|].
  split; [intros He Hc Hl|intros Hn rs; by rewrite qc_result, Hn].
  rewrite recipient_qc_derived by done. unfold recipient_verdict. by rewrite He.
Qed.

(** ** Triggers *)

Context (o_clock : nat -> datetime) (o_uuids : nat -> string) (reg : registry world).

Abbreviation osys := (sys RunStore world).
Abbreviation on_event := (handle_status_change_event dt_dump sha256_hex config o_clock o_uuids reg).

(** The body of a webhook trigger, once the status is listed and not delivered. *)
Lemma on_event_start matter_id from to ev (s s' : osys) out :
  let cid := webhook_change_id sha256_hex matter_id from to ev in
  should_trigger to config = true -> is_delivered cid (sys_store (sys_world s)) = false ->
  on_event matter_id from to ev s = (s', Ok out) ->
  exists r delta, df_change_id delta = cid /\ df_matter_id delta = matter_id /\ df_to_status delta = to /\
    df_from_status delta = from /\
    out = Some [("run_id", JStr (run_id r)); ("status", JStr (run_status_value (run_status r)));
                ("change_id", JStr cid)] /\
    start_run o_clock o_uuids reg "status_update_email" [("delta", JDict (dump_delta dt_dump delta))]
      (make_agent_trigger "status_update_webhook" (Some cid)) (Some cid) None (tick s) = (s', Ok r).
Proof.
  intros cid Hs Hd. unfold handle_status_change_event. rewrite Hs.
  cbv beta iota zeta. fold cid. clearbody cid. unfold bind at 1, on_status, on_world, on_store, zoom, gets. cbn. rewrite Hd.
  assert (set_world (set_store (sys_store (sys_world s)) (sys_world s)) s = s) as -> by (by destruct s as [? [] ? ?]).
  rewrite bind_get_now. intros H. apply bind_ok in H as (s1 & r & Hr & H). injection H as <- <-.
  eexists r, _. repeat split; [..|exact Hr]; done.
Qed.

(** A webhook starts one run per change.  An event whose status is not in
    the allow-list starts nothing and changes nothing; one whose change is
    marked delivered is answered with a no-op; any other event that is answered
    stands, under its change id, for one run, queued with the change as its
    context if it is new, and the same event again (however often the provider
    repeats it) gets the same run and leaves the store as it was. *)
Lemma status_event_starts_one_run matter_id from to ev (s : osys) :
  let cid := webhook_change_id sha256_hex matter_id from to ev in
  (should_trigger to config = false -> on_event matter_id from to ev s = (s, Ok None)) /\
  (should_trigger to config = true -> is_delivered cid (sys_store (sys_world s)) = true ->
     on_event matter_id from to ev s = (s, Ok (Some [("noop", JBool true); ("change_id", JStr cid)]))) /\
  (should_trigger to config = true -> is_delivered cid (sys_store (sys_world s)) = false ->
     store_wf (sys_store s) -> cid <> EmptyString ->
     forall s1 out1, on_event matter_id from to ev s = (s1, Ok out1) ->
     sys_world s1 = sys_world s /\
     exists r, dget cid (rs_dedupe (sys_store s1)) = Some (run_id r) /\
       dget (run_id r) (rs_runs (sys_store s1)) = Some r /\
       out1 = Some [("run_id", JStr (run_id r)); ("status", JStr (run_status_value (run_status r)));
                    ("change_id", JStr cid)] /\
       (dget cid (rs_dedupe (sys_store s)) = None -> run_status r = QUEUED /\
          exists d, run_context r = [("delta", JDict (dump_delta dt_dump d))] /\ df_change_id d = cid /\
            df_matter_id d = matter_id /\ df_to_status d = to) /\
       forall s2 out2, on_event matter_id from to ev s1 = (s2, Ok out2) ->
         out2 = out1 /\ sys_store s2 = sys_store s1).
Proof.
  intros cid. split_and!.
  - intros Hs. unfold handle_status_change_event. by rewrite Hs.
  - intros Hs Hd. unfold handle_status_change_event. rewrite Hs.
    cbv beta iota zeta. fold cid. clearbody cid. unfold bind at 1, on_status, on_world, on_store, zoom, gets. cbn. rewrite Hd.
    by destruct s as [? [] ? ?].
  - intros Hs Hd Hwf Hne s1 out1 H.
    apply (on_event_start _ _ _ _ _ _ _ Hs Hd) in H as (r & d & Hc & Hm & Ht & _ & -> & H).
    destruct (start_run_keyed _ _ _ _ _ _ _ _ _ _ _ cid (Hwf : store_wf (sys_store (tick s))) (agent_key _ _) Hne H) as (Hw & Hwf1 & Hk & Hg & Hnew).
    split; [exact Hw|]. exists r. do 3 (split; [done|]). split.
    + intros E. change (sys_store (tick s)) with (sys_store s) in Hnew. rewrite E in Hnew. destruct Hnew as (Hq & _ & Hctx & _). split; [done|]. by exists d.
    + intros s2 out2 H2. change (sys_world (tick s)) with (sys_world s) in Hw.
      apply (on_event_start _ _ _ _ _ _ _ Hs) in H2 as (r2 & d2 & _ & _ & _ & _ & -> & H2); [|by rewrite Hw].
      destruct (start_run_keyed _ _ _ _ _ _ _ _ _ _ _ cid (Hwf1 : store_wf (sys_store (tick s1))) (agent_key _ _) Hne H2) as (_ & _ & Hk2 & Hg2 & Hst).
      change (sys_store (tick s1)) with (sys_store s1) in Hst. rewrite Hk in Hst. rewrite Hst in Hk2, Hg2. rewrite Hk in Hk2.
      assert (run_id r2 = run_id r) as E by congruence. rewrite E in Hg2.
      rewrite E. split; [|done]. assert (r2 = r) as -> by congruence. done.
Qed.

End StatusUpdateProps.

(** ** A concrete firm

    The reference adapters with one matter, an audit log, the registered checks,
    and the identity in place of SHA-256. *)

Definition su_client (email : option string) : Contact :=
  mk_Contact "c1" "reference" "Ada" email None (Some "client") [].

Definition su_matter (status : string) (email : option string) : Matter :=
  mk_Matter "m1" "reference" "REF-1" "Title" status None (su_client email) None example_time [] [].

Definition su_world (status : string) (email : option string) : sys LastKnownStatusStore RefWorld :=
  mk_sys (mk_LastKnownStatusStore [("m1", "open")] [] [])
    (set_case (mk_Adapter (mk_CaseData [("m1", su_matter status email)] []) None) empty_ref_world) 0 0.

Definition su_supply (n : nat) : string := "u" +:+ pretty (Z.of_nat n).
Definition su_config : StatusUpdateConfig := mk_StatusUpdateConfig ["closed"] false.
Definition su_dump (t : datetime) : json := JStr (isoformat t).
Definition su_parse (j : json) : res datetime := Ok example_time.

#[local] Instance su_case : CaseConnector RefWorld := ref_case su_supply.
#[local] Instance su_email : EmailConnector RefWorld := ref_email su_supply.
#[local] Instance su_email_laws : EmailLaws RefWorld := ref_email_laws su_supply.

Definition su_checks : CheckRegistry := [("recipient_integrity", recipient_check)].

Abbreviation su_handlers :=
  (status_update_handlers su_parse (fun s => s) (fun _ => example_time) su_supply (fun _ => false)
    (fun _ => 0%Q) (fun _ => "") (fun _ => "") su_checks su_config (Some ref_audit)).

Definition su_delta : MatterStatusDelta :=
  mk_MatterStatusDelta "m1" "open" "closed" "chg1" "webhook" example_time [].

Definition su_context : jdict := [("delta", JDict (dump_delta su_dump su_delta))].

Lemma su_case_sends_nothing id : sends_nothing (cc_get_matter (V := RefWorld) id).
Proof.
  intros v. cbn. unfold on_adapter. by destruct (get_matter id _) as [s r].
Qed.

Lemma su_audit_sends_nothing f ev : Some ref_audit = Some f -> sends_nothing (f ev).
Proof. by intros [= <-] v. Qed.

(** The run up to the gate, and from it. *)
Abbreviation su_before :=
  (call_steps su_handlers "r1" su_context (take 5 STATUS_UPDATE_STEPS) [] (su_world "closed" (Some "ada@x.org"))).

Definition su_outputs : jdict := match snd su_before with Ok o => o | Err _ => [] end.

Abbreviation su_after :=
  (call_steps su_handlers "r1" su_context ["send_email"; "record_outcome"] su_outputs (fst su_before)).

Lemma status_update_sends_once_witness :
  ec_sent (sys_world (fst su_before)) = ec_sent (sys_world (su_world "closed" (Some "ada@x.org"))) /\
  dget "status_update:chg1" (ec_sent (sys_world (fst su_after))) = Some "u1" /\
  (forall k, k <> send_key "chg1" ->
     dget k (ec_sent (sys_world (fst su_after))) = dget k (ec_sent (sys_world (fst su_before)))).
Proof.
  destruct (status_update_sends_once su_parse (fun s => s) (fun _ => example_time) su_supply (fun _ => false)
    (fun _ => 0%Q) (fun _ => "") (fun _ => "") su_checks su_config (Some ref_audit)
    su_case_sends_nothing su_audit_sends_nothing "r1" su_context su_delta eq_refl) as [H1 H2].
  split; [apply H1|]. split; [vm_compute; reflexivity|].
  exact (proj1 (H2 su_outputs (fst su_before) (fst su_after) (snd su_after) (surjective_pairing _))).
Defined.

(** A case system that always answers with one matter, and a mail system that
    nobody may call. *)
Definition fixed_case (m : Matter) : CaseConnector unit := {|
  cc_get_matter _ := ret m; cc_create_matter _ := raise AssertionError; cc_list_deadlines _ := ret [] |}.

Definition no_mail : EmailConnector unit := {|
  ec_create_draft _ := raise AssertionError; ec_send _ _ := raise AssertionError |}.

Definition quiet_world : sys LastKnownStatusStore unit := mk_sys (mk_LastKnownStatusStore [] [] []) tt 0 0.

Lemma su_checks_ok : registry_ok su_checks.
Proof.
  split; [repeat constructor; by intros ?%elem_of_nil|].
  intros k c [[= -> ->]|?%elem_of_nil]%elem_of_cons; done.
Qed.

Lemma recipients_checked_witness :
  exists outs,
    call_steps (status_update_handlers (CC := fixed_case (su_matter "closed" None)) (EC := no_mail) su_parse
        (fun s => s) (fun _ => example_time) su_supply (fun _ => false) (fun _ => 0%Q) (fun _ => "") (fun _ => "")
        su_checks su_config None)
      "r1" su_context (bfilter (fun x => negb (is_gate x)) STATUS_UPDATE_STEPS) [] quiet_world =
      (fst (on_store (update_last_status "m1" "closed") quiet_world), Ok outs) /\
    dget "send_email" outs = Some (JDict [("sent", JBool false); ("reason", JStr "QC failed — no send")]) /\
    dget "record_outcome" outs = Some (JDict [("delivered", JBool false)]).
Proof.
  exact (proj1 (recipients_checked (CC := fixed_case (su_matter "closed" None)) (EC := no_mail) su_parse
    (fun s => s) (fun _ => example_time) su_supply (fun _ => false)
    (fun _ => 0%Q) (fun _ => "") (fun _ => "") su_checks su_config None "r1" su_context su_delta
    (su_matter "closed" None) quiet_world eq_refl (fun v => eq_refl) su_checks_ok) eq_refl).
Defined.

(** ** Triggers *)

Abbreviation su_world_t := (sys LastKnownStatusStore RefWorld).

Definition su_registry : registry su_world_t :=
  fst (register_status_update_workflow su_parse (fun s => s) (fun _ => example_time) su_supply (fun _ => false)
         (fun _ => 0%Q) (fun _ => "") (fun _ => "") su_checks su_config (Some ref_audit) []).

Definition o_supply (n : nat) : string := "run" +:+ pretty (Z.of_nat n).

Abbreviation su_event := (handle_status_change_event su_dump (fun s => s) su_config (fun _ => example_time)
                            o_supply su_registry "m1" "open" "closed" "e1").

Definition su_osys : sys RunStore su_world_t :=
  mk_sys empty_run_store (su_world "closed" (Some "ada@x.org")) 0 0.

(** The registered workflow has the eight steps, and a handler for each that is
    not the gate. *)
Lemma status_update_registered :
  exists d, get_workflow_latest su_registry "status_update_email" = Ok d /\ wd_steps d = STATUS_UPDATE_STEPS /\
    wd_gate_configs d = status_update_gates /\ wd_handlers d = su_handlers.
Proof. eexists. split; [reflexivity|]. split; [reflexivity|]. split; reflexivity. Qed.

Lemma status_event_starts_one_run_witness :
  exists r out, dget "m1:open:closed:e" (rs_dedupe (sys_store (fst (su_event su_osys)))) = Some (run_id r) /\
    snd (su_event su_osys) = Ok out /\
    forall s2 out2, su_event (fst (su_event su_osys)) = (s2, Ok out2) ->
      out2 = out /\ sys_store s2 = sys_store (fst (su_event su_osys)).
Proof.
  destruct (proj2 (proj2 (status_event_starts_one_run su_dump (fun s => s) su_config
    (fun _ => example_time) o_supply su_registry "m1" "open" "closed" "e1" su_osys))
    eq_refl eq_refl empty_store_wf ltac:(discriminate) (fst (su_event su_osys))
    (Some [("run_id", JStr "run0"); ("status", JStr "queued"); ("change_id", JStr "m1:open:closed:e")]))
    as (_ & r & H1 & _ & H2 & _ & H3); [vm_compute; reflexivity|].
  eexists r, _. split; [exact H1|]. split; [|exact H3]. vm_compute. reflexivity.
Defined.

(** A change of status that the webhook reports is a new change to a sweep that
    runs before the run it started: its id has another discriminator, so a second
    run starts and the client gets two messages. *)
Abbreviation su_sweep := (sweep_matters su_dump (fun s => s) su_config (fun _ => example_time)
                            o_supply su_registry ["m1"]).

Definition run_all_steps (rid : string) (s : sys RunStore su_world_t) (w : su_world_t) : su_world_t :=
  match dget rid (rs_runs (sys_store s)) with
  | Some run => fst (call_steps su_handlers rid (run_context run)
                       (bfilter (fun x => negb (is_gate x)) STATUS_UPDATE_STEPS) [] w)
  | None => w
  end.

Example webhook_and_sweep_notify_twice :
  let s := fst (su_sweep (fst (su_event su_osys))) in
  dkeys (rs_runs (sys_store s)) = ["run0"; "run1"] /\
  dkeys (ec_sent (sys_world (run_all_steps "run1" s (run_all_steps "run0" s (sys_world s))))) =
    ["status_update:m1:open:closed:e"; "status_update:m1:open:closed:s"].
Proof. split; vm_compute; reflexivity. Qed.

(** A sweep takes a transition number even for a status nobody is notified of. *)
Example sweep_spends_counters :
  let sweep := sweep_matters su_dump (fun s => s) (mk_StatusUpdateConfig [] false) (fun _ => example_time)
                 o_supply su_registry ["m1"] in
  let s := fst (sweep (fst (sweep su_osys))) in
  snd (sweep su_osys) = Ok [] /\ ls_transition_counters (sys_store (sys_world s)) = [("m1", 2)].
Proof. split; vm_compute; reflexivity. Qed.

(** The parts of a change id are joined without escaping: a colon inside one
    makes different changes share an id, whatever the hash. *)
Lemma change_id_ambiguous sha m a b c ev :
  derive_change_id sha (m +:+ ":" +:+ a) b c ev = derive_change_id sha m (a +:+ ":" +:+ b) c ev.
Proof.
  unfold derive_change_id. rewrite !str_app_assoc. done.
Qed.
