(* ===== verification/Extraction.v ===== *)
(** * Extraction: core/services/extraction/

    The document.extract pipeline: input guards, the text layer, OCR of the pages
    without one, page coverage, structuring by a language model behind the
    residency guard, mapping to domain keys, the confidence threshold and the
    audit record.  pdfplumber, PyMuPDF, Tesseract and the language model are
    parameters; page numbers are [Z], confidences rationals, sets of pages
    stdpp's [gset Z]. *)

From Stdlib Require Import ZArith Lia Ascii String List QArith.
From stdpp Require Import base list strings pretty gmap sets.
From S2P Require Import Prelude PyTime ConnErrors Effects Domain PyText Flow.

Open Scope string_scope.
Open Scope list_scope.
Open Scope Z_scope.
Open Scope cam_scope.

(** ** types.py *)

Record ExtractionSource := mk_ExtractionSource {
  src_page : option Z;
  src_method : string;
  src_span : option string }.

Record FieldMapping := mk_FieldMapping {
  fm_source_key : string;
  fm_domain_key : string;
  fm_target_type : string;
  fm_sensitive : bool }.

Record MappingProfile := mk_MappingProfile {
  mp_name : string;
  mp_version : string;
  mp_fields : list FieldMapping;
  mp_confidence_threshold : Q }.

(** A later mapping of the same source key wins. *)
Definition mapping_by_source (p : MappingProfile) : dict string FieldMapping :=
  fold_left (fun d m => dset (fm_source_key m) m d) (mp_fields p) [].

Record ExtractedField := mk_ExtractedField {
  xf_key : string;
  xf_target_type : string;
  xf_value : json;
  xf_raw_text : option string;
  xf_confidence : Q;
  xf_requires_verification : bool;
  xf_sources : list ExtractionSource }.

(** A confidence as a provider gives it: what [float()] makes of it. *)
Inductive conf_value := ConfFloat (f : pyfloat) | ConfNotNumeric.

(** [max(0.0, min(1.0, f))] *)
Definition clamp01 (q : Q) : Q :=
  let m := if Qle_bool q 1 then q else 1%Q in if Qle_bool 0 m then m else 0%Q.

Definition clamp_confidence (v : conf_value) : Q :=
  match v with
  | ConfFloat (FFinite q) => clamp01 q
  | ConfFloat FNan | ConfFloat FInfinite => 0%Q
  | ConfNotNumeric => 0%Q
  end.

Record PageCoverage := mk_PageCoverage {
  pc_total_pages : Z;
  pc_text_pages : list Z;
  pc_ocr_pages : list Z;
  pc_skipped_pages : list Z }.

Definition page_set (l : list Z) : gset Z := list_to_set l.

(** [set(range(1, n + 1))] *)
Definition all_pages (n : Z) : gset Z := list_to_set (seqZ 1 n).

Definition coverage_union (c : PageCoverage) : gset Z :=
  page_set (pc_text_pages c) ∪ page_set (pc_ocr_pages c) ∪ page_set (pc_skipped_pages c).

Definition is_complete (c : PageCoverage) : bool :=
  if pc_total_pages c =? 0 then true
  else bool_decide (coverage_union c = all_pages (pc_total_pages c)).

Definition is_disjoint (c : PageCoverage) : bool :=
  let t := page_set (pc_text_pages c) in
  let o := page_set (pc_ocr_pages c) in
  let s := page_set (pc_skipped_pages c) in
  bool_decide (t ∩ o = ∅) && bool_decide (t ∩ s = ∅) && bool_decide (o ∩ s = ∅).

Record ExtractionProposal := mk_ExtractionProposal {
  xp_run_id : string;
  xp_input_ref : string;
  xp_input_checksum : string;
  xp_fields : list ExtractedField;
  xp_page_coverage : PageCoverage;
  xp_structuring_status : string;
  xp_provider : option string;
  xp_deterministic : bool;
  xp_warnings : list string }.

Record ExtractInput := mk_ExtractInput {
  xi_input_ref : string;
  xi_content_kind : string;
  xi_mapping_profile : option string;
  xi_threshold : option Q;
  xi_structuring : bool;
  xi_async_ok : bool }.

(** ** errors.py *)

Definition ResidencyError (endpoint : string) : exn :=
  OtherError "ResidencyError"
    ("Inference endpoint " +:+ py_repr endpoint +:+ " is not permitted by residency policy. ").

Definition UnsupportedInputError (msg : string) : exn := OtherError "UnsupportedInputError" msg.

Definition ProviderUnavailableError (provider : string) : exn :=
  OtherError "ProviderUnavailableError" ("Provider " +:+ py_repr provider +:+ " unavailable.").

Definition InputLimitError (limit_kind : string) (limit actual : Z) : exn :=
  OtherError "InputLimitError"
    ("Input exceeds " +:+ limit_kind +:+ " limit: max=" +:+ pretty limit +:+ ", got=" +:+ pretty actual +:+ ".").

Definition is_residency_error (e : exn) : bool := String.eqb (exn_name e) "ResidencyError".
Definition is_provider_unavailable (e : exn) : bool := String.eqb (exn_name e) "ProviderUnavailableError".

(** ** config.py *)

Definition DEFAULT_MAX_PAGES : Z := 500.
Definition DEFAULT_MAX_BYTES : Z := 50 * 1024 * 1024.

Section Config.
Context (environ : string -> option string).

Definition env_int (name : string) (default : Z) : Z :=
  match environ name with
  | Some s => match py_int s with Some n => n | None => default end
  | None => default
  end.

Definition get_max_pages : Z := env_int "CAM_EXTRACTION_MAX_PAGES" DEFAULT_MAX_PAGES.
Definition get_max_bytes : Z := env_int "CAM_EXTRACTION_MAX_BYTES" DEFAULT_MAX_BYTES.

Definition allow_external_inference : bool :=
  str_in (str_lower (match environ "CAM_EXTRACTION_ALLOW_EXTERNAL_INFERENCE" with
                     | Some v => v | None => "false" end)) ["true"; "1"; "yes"].

Definition get_residency_allowlist : list string :=
  bfilter str_truthy (map str_strip (split_on ","
    (match environ "CAM_EXTRACTION_RESIDENCY_ALLOWLIST" with Some v => v | None => "" end))).
End Config.

(** ** text.py *)

Definition MIN_TEXT_CHARS : Z := 10.

Definition str_len (s : string) : Z := Z.of_nat (String.length s).

(** The loop over the pages of a document, of which a library gives the texts
    ([None] where the page has none): page texts, pages with usable text, pages
    that need OCR. *)
Definition page_layers : Type := dict Z string * list Z * list Z.

Fixpoint sort_pages (idx : Z) (texts : list (option string)) : page_layers :=
  match texts with
  | [] => ([], [], [])
  | t :: texts' =>
      let text := match t with Some s => s | None => EmptyString end in
      let '(page_texts, text_pages, ocr_pages) := sort_pages (idx + 1) texts' in
      if MIN_TEXT_CHARS <=? str_len (str_strip text)
      then ((idx, text) :: page_texts, idx :: text_pages, ocr_pages)
      else ((idx, text) :: page_texts, text_pages, idx :: ocr_pages)
  end.

Section TextExtractor.
(** The two PDF libraries: the text of each page, or an exception. *)
Context (pdfplumber pymupdf : string -> res (list (option string))) (str_of_exn : exn -> string).

Definition extract_pdf (content : string) : res page_layers :=
  match pdfplumber content with
  | Ok texts => Ok (sort_pages 1 texts)
  | Err _ =>
      match pymupdf content with
      | Ok texts => Ok (sort_pages 1 texts)
      | Err e => Err (UnsupportedInputError ("Could not parse PDF: " +:+ str_of_exn e))
      end
  end.

Definition extract_text (content kind : string) : res page_layers :=
  if String.eqb kind "email_body" then Ok ([], [], [])
  else if str_in kind ["pdf"; "image"] then extract_pdf content
  else Err (UnsupportedInputError ("Content kind " +:+ py_repr kind +:+ " is not supported.")).
End TextExtractor.

(** ** ocr.py *)

Section Ocr.
(** Tesseract: is it installed, can the document be opened, and what a page
    gives: its text and the [conf] column as strings; [float_of] is [float()]. *)
Context (available : bool) (openable : string -> bool).
Context (ocr_page : string -> Z -> res (string * list string)) (float_of : string -> option Q).

Fixpoint read_confs (cs : list string) : option (list Q) :=
  match cs with
  | [] => Some []
  | c :: cs' =>
      if String.eqb c "-1" then read_confs cs'
      else match float_of c, read_confs cs' with
           | Some q, Some qs => Some (q :: qs)
           | _, _ => None
           end
  end.

Definition mean_confidence (confs : list Q) : Q :=
  match confs with
  | [] => 0%Q
  | _ => (fold_left Qplus confs 0 / inject_Z (Z.of_nat (length confs)) / 100)%Q
  end.

Definition page_result (content : string) (page : Z) : string * Q :=
  match ocr_page content page with
  | Ok (text, conf) =>
      match read_confs conf with
      | Some confs => (text, clamp01 (mean_confidence confs))
      | None => (EmptyString, 0%Q)
      end
  | Err _ => (EmptyString, 0%Q)
  end.

(** [dict.fromkeys(pages, ("", 0.0))] *)
Definition blank_results (pages : list Z) : dict Z (string * Q) :=
  fold_left (fun d p => dset p (EmptyString, 0%Q) d) pages [].

Definition ocr_run (content : string) (pages : list Z) : dict Z (string * Q) :=
  if openable content then fold_left (fun d p => dset p (page_result content p) d) pages []
  else blank_results pages.

Definition ocr (content : string) (pages : list Z) : dict Z (string * Q) :=
  if negb available || match pages with [] => true | _ => false end then blank_results pages
  else ocr_run content pages.
End Ocr.

(** ** coverage.py *)

(** [sorted(set)] *)
Definition sorted_pages (X : gset Z) : list Z := py_sorted Z.leb (elements X).

Definition build_coverage (total_pages : Z) (text_pages : list Z) (ocr_results : dict Z (string * Q))
    (attempted_ocr_pages : list Z) : PageCoverage * list string :=
  let text_set := page_set text_pages in
  let ocr_set := page_set (dkeys ocr_results) in
  let skipped_from_ocr := page_set attempted_ocr_pages ∖ ocr_set in
  let remaining := all_pages total_pages ∖ text_set ∖ ocr_set ∖ skipped_from_ocr in
  let skipped_set := skipped_from_ocr ∪ remaining in
  (mk_PageCoverage total_pages (sorted_pages text_set) (sorted_pages ocr_set) (sorted_pages skipped_set),
   map (fun p => "Page " +:+ pretty p +:+ " could not be processed and was skipped.") (sorted_pages skipped_set)).

Definition build_email_coverage : PageCoverage := mk_PageCoverage 0 [] [] [].

(** ** prompts.py *)

Definition EXTRACTION_PROMPT_VERSION : string := "v1".

Definition DQ : string := String DQUOTE EmptyString.

Fixpoint lines (l : list string) : string :=
  match l with [] => EmptyString | x :: l' => x +:+ NL +:+ lines l' end.

Definition field_line (m : FieldMapping) : string :=
  "- key=" +:+ py_repr (fm_source_key m) +:+ "  target_type=" +:+ fm_target_type m +:+
  "  sensitive=" +:+ py_bool (fm_sensitive m).

Definition render_extraction_schema (p : MappingProfile) : string :=
  let field_lines := str_join NL (map field_line (mp_fields p)) in
  lines ["# Extraction Task — " +:+ mp_name p +:+ " v" +:+ mp_version p +:+ " (prompt " +:+
           EXTRACTION_PROMPT_VERSION +:+ ")";
         "";
         "You are a structured-data extraction assistant for a US immigration law firm.";
         "Extract fields from the provided document text and return them as a JSON array.";
         "";
         "## Output format";
         "Return ONLY a JSON array of objects with this exact shape:";
         "  [";
         "    {";
         "      " +:+ DQ +:+ "key" +:+ DQ +:+ ": " +:+ DQ +:+ "<source_key>" +:+ DQ +:+ ",";
         "      " +:+ DQ +:+ "value" +:+ DQ +:+ ": <extracted_value_or_null>,";
         "      " +:+ DQ +:+ "raw_text" +:+ DQ +:+ ": " +:+ DQ +:+ "<verbatim_text_you_read>" +:+ DQ +:+ ",";
         "      " +:+ DQ +:+ "confidence" +:+ DQ +:+ ": <float_0_to_1>";
         "    },";
         "    ...";
         "  ]";
         "";
         "## Rules";
         "1. confidence MUST be a float in [0.0, 1.0].";
         "2. If a field is not present in the text,";
         "    OMIT it from the array entirely (do NOT include it with null).";
         "3. Never fabricate values. If uncertain, lower the confidence; do not guess.";
         "4. raw_text must be the verbatim text you extracted the value from.";
         "5. Return ONLY the JSON array — no preamble, no explanation.";
         "";
         "## Fields to extract";
         if str_truthy field_lines then field_lines else "(no fields defined in profile)";
         "";
         "## Document text";
         "{{DOCUMENT_TEXT}}"].

(** ** mapper.py *)

(** The mapped fields and the warnings of [to_domain]. *)
Fixpoint to_domain (fields : list ExtractedField) (p : MappingProfile)
    : list ExtractedField * list string :=
  match fields with
  | [] => ([], [])
  | f :: fields' =>
      let '(result, warnings) := to_domain fields' p in
      match dget (xf_key f) (mapping_by_source p) with
      | None => (result, ("Unmapped key " +:+ py_repr (xf_key f) +:+ " dropped (not in profile " +:+
                          py_repr (mp_name p) +:+ ").") :: warnings)
      | Some rule =>
          (mk_ExtractedField (fm_domain_key rule) (fm_target_type rule) (xf_value f) (xf_raw_text f)
             (xf_confidence f) (xf_requires_verification f) (xf_sources f) :: result, warnings)
      end
  end.

Definition below (f : ExtractedField) (threshold : Q) : bool := negb (Qle_bool threshold (xf_confidence f)).

Definition flagged (f : ExtractedField) : ExtractedField :=
  mk_ExtractedField (xf_key f) (xf_target_type f) (xf_value f) (xf_raw_text f) (xf_confidence f) true
    (xf_sources f).

Definition apply_threshold (fields : list ExtractedField) (threshold : Q) : list ExtractedField :=
  map (fun f => if below f threshold && negb (xf_requires_verification f) then flagged f else f) fields.

(** ** llm.py *)

(** The port, over the world [V] the provider belongs to. *)
Record LLMClient (V : Type) := mk_LLMClient {
  lc_provider_id : string;
  lc_endpoint : string;
  lc_structure : string -> MappingProfile -> string -> M V (list ExtractedField) }.
Arguments mk_LLMClient {V}.
Arguments lc_provider_id {V}.
Arguments lc_endpoint {V}.
Arguments lc_structure {V}.

(** The confidence and the warning, if any. *)
Definition normalise_confidence (repr : string) (v : conf_value) : Q * list string :=
  match v with
  | ConfFloat (FFinite q) => (clamp01 q, [])
  | ConfFloat _ => (0%Q, ["Provider returned non-finite confidence " +:+ repr +:+ "; clamped to 0."])
  | ConfNotNumeric => (0%Q, ["Provider returned non-numeric confidence " +:+ repr +:+ "; clamped to 0."])
  end.

(** The confidences of [ExtractedField]s are numbers. *)
Definition normalise_field (f : ExtractedField) : ExtractedField :=
  let clamped := fst (normalise_confidence EmptyString (ConfFloat (FFinite (xf_confidence f)))) in
  if Qeq_bool clamped (xf_confidence f) then f
  else mk_ExtractedField (xf_key f) (xf_target_type f) (xf_value f) (xf_raw_text f) clamped true (xf_sources f).

Definition normalise_fields (fields : list ExtractedField) : list ExtractedField := map normalise_field fields.

Section Guard.
Context {V : Type} (allowlist : list string) (allow_external : bool).

Definition is_allowed (endpoint : string) : bool :=
  allow_external || existsb (fun allowed => starts_with allowed endpoint) allowlist.

(** [ResidencyGuard(client, allowlist, allow_external)] *)
Definition guarded_structure (c : LLMClient V) (text : string) (p : MappingProfile) (prompt : string)
    : M V (list ExtractedField) :=
  if is_allowed (lc_endpoint c) then
    try_except (lc_structure c text p prompt) (fun e =>
      if is_residency_error e then raise e else raise (ProviderUnavailableError (lc_provider_id c)))
  else raise (ResidencyError (lc_endpoint c)).

Definition ResidencyGuard (c : LLMClient V) : LLMClient V :=
  mk_LLMClient (lc_provider_id c) (lc_endpoint c) (guarded_structure c).
End Guard.

(** ** pipeline.py *)

Section Pipeline.
Context {T V : Type} (uuids : nat -> string) (sha256_hex decode_utf8 : string -> string).
Context (environ : string -> option string).
Context (text_extract : string -> string -> res page_layers).
Context (ocr_engine : string -> list Z -> res (dict Z (string * Q))).
Context (llm : option (LLMClient V)) (profiles : dict string MappingProfile).
Context (audit_fn : option (AuditEvent -> M V unit)).

Definition DEFAULT_PROFILE : MappingProfile := mk_MappingProfile "default" "1.0" [] (8 # 10).

(** The profile a call uses and its threshold. *)
Definition profile_of (inp : ExtractInput) : MappingProfile :=
  let name := match xi_mapping_profile inp with
              | Some n => if str_truthy n then n else "default"
              | None => "default" end in
  match dget name profiles with Some p => p | None => DEFAULT_PROFILE end.

Definition threshold_of (inp : ExtractInput) : Q :=
  match xi_threshold inp with Some q => q | None => mp_confidence_threshold (profile_of inp) end.

(** The texts of the pages in order, and of the OCR pages that have none. *)
Definition combine_text (page_texts : dict Z string) (ocr_results : dict Z (string * Q)) : string :=
  str_join NL
    (map (fun p => match dget p page_texts with Some t => t | None => EmptyString end)
       (py_sorted Z.leb (dkeys page_texts)) ++
     map (fun p => match dget p ocr_results with Some (t, _) => t | None => EmptyString end)
       (bfilter (fun p => negb (dmem p page_texts)) (py_sorted Z.leb (dkeys ocr_results)))).

Definition ocr_warnings (ocr_results : dict Z (string * Q)) : list string :=
  flat_map (fun r : Z * (string * Q) => if is_blank (fst r.2) then
    ["OCR returned empty text for page " +:+ pretty r.1 +:+ "."] else []) ocr_results.

(** Steps 2 to 4: coverage, all text and the warnings. *)
Definition read_content (inp : ExtractInput) (content : string) : res (PageCoverage * string * list string) :=
  if String.eqb (xi_content_kind inp) "email_body" then
    Ok (build_email_coverage, decode_utf8 content, [])
  else
    letr! (page_texts, text_pages, ocr_needed) := text_extract content (xi_content_kind inp) in
    let total_pages := Z.of_nat (length page_texts) in
    let max_pages := get_max_pages environ in
    if max_pages <? total_pages then Err (InputLimitError "pages" max_pages total_pages)
    else
      letr! ocr_results := match ocr_needed with [] => Ok [] | _ => ocr_engine content ocr_needed end in
      let '(coverage, cov_warnings) := build_coverage total_pages text_pages ocr_results ocr_needed in
      Ok (coverage, combine_text page_texts ocr_results, ocr_warnings ocr_results ++ cov_warnings).

Record structured := mk_structured {
  sd_fields : list ExtractedField;
  sd_status : string;
  sd_provider : option string;
  sd_deterministic : bool;
  sd_warnings : list string }.

Definition unstructured : structured := mk_structured [] "skipped" None true [].

(** Step 5. *)
Definition structure_stage (inp : ExtractInput) (all_text : string) : M V structured :=
  match llm with
  | Some c =>
      if xi_structuring inp && negb (is_blank all_text) then
        try_except
          (let! raw := lc_structure c all_text (profile_of inp) (render_extraction_schema (profile_of inp)) in
           ret (mk_structured (normalise_fields raw) "ok" (Some (lc_provider_id c)) false []))
          (fun e =>
             if is_provider_unavailable e then
               ret (mk_structured [] "unavailable" None true ["LLM provider unavailable; structuring skipped."])
             else raise e)
      else ret unstructured
  | None => ret unstructured
  end.

(** A coroutine handed to a running loop is taken to run at once. *)
Definition extraction_audit (run_id : string) (inp : ExtractInput) (checksum : string) (field_count : Z)
    (status : string) : M V unit :=
  match audit_fn with
  | None => ret tt
  | Some f => try_pass (f (mk_AuditEvent "extraction_service" "document.extract"
      [("input_ref", JStr (xi_input_ref inp)); ("input_checksum", JStr checksum);
       ("content_kind", JStr (xi_content_kind inp)); ("mapping_profile", jopt (xi_mapping_profile inp));
       ("structuring", JBool (xi_structuring inp))]
      [("field_count", JInt field_count); ("structuring_status", JStr status)] (Some run_id)))
  end.

Definition extract (inp : ExtractInput) (content : string) : M (sys T V) ExtractionProposal :=
  let! run_id := uuid4 uuids in
  if str_len content =? 0 then raise (ValueError "Empty input content.")
  else if get_max_bytes environ <? str_len content then
    raise (InputLimitError "bytes" (get_max_bytes environ) (str_len content))
  else
    let profile := profile_of inp in
    let threshold := threshold_of inp in
    let input_checksum := sha256_hex content in
    let! (coverage, all_text, warnings) := lift_res (read_content inp content) in
    let! st := on_world (structure_stage inp all_text) in
    let '(fields, map_warnings) := to_domain (sd_fields st) profile in
    let fields := apply_threshold fields threshold in
    on_world (extraction_audit run_id inp input_checksum (Z.of_nat (length fields)) (sd_status st)) ;;
    ret (mk_ExtractionProposal run_id (xi_input_ref inp) input_checksum fields coverage (sd_status st)
           (sd_provider st) (sd_deterministic st) (warnings ++ sd_warnings st ++ map_warnings)).

Definition tool_document_extract (inp : ExtractInput) (content : string) : M (sys T V) ExtractionProposal :=
  if str_in (xi_content_kind inp) ["pdf"; "image"; "email_body"] then extract inp content
  else raise (UnsupportedInputError ("Unknown content_kind " +:+ py_repr (xi_content_kind inp) +:+ ".")).
End Pipeline.

(** ** Page coverage *)

Lemma page_set_sorted X : page_set (sorted_pages X) = X.
Proof.
  apply set_eq. intros p. unfold page_set, sorted_pages.
  by rewrite elem_of_list_to_set, py_sorted_perm, elem_of_elements.
Qed.

(** What the coverage builder guarantees: it accounts for every page, and the
    result is complete exactly when nothing outside the document was reported,
    disjoint exactly when no text page was sent to or returned by OCR. *)
Lemma build_coverage_exact n text results attempted c ws :
  build_coverage n text results attempted = (c, ws) ->
  all_pages n ⊆ coverage_union c /\
  (is_complete c = true <->
     n = 0 \/ page_set text ∪ page_set (dkeys results) ∪ page_set attempted ⊆ all_pages n) /\
  (is_disjoint c = true <-> page_set text ## page_set (dkeys results) ∪ page_set attempted) /\
  length ws = length (pc_skipped_pages c).
Proof.
  unfold build_coverage. intros [= <- <-]. unfold is_complete, is_disjoint, coverage_union. cbn.
  rewrite !page_set_sorted, length_map.
  set (t := page_set text). set (o := page_set (dkeys results)). set (a := page_set attempted).
  set (al := all_pages n). split; [|split; [|split; [|done]]].
  - intros p Hp. destruct (decide (p ∈ t)), (decide (p ∈ o)), (decide (p ∈ a)); set_solver.
  - destruct (Z.eqb_spec n 0) as [->|Hn]; [split; [by left|done]|].
    rewrite bool_decide_eq_true. split.
    + intros E. right. rewrite <- E. intros p Hp. destruct (decide (p ∈ o)); set_solver.
    + intros [?|Hs]; [done|]. apply set_eq. intros p.
      destruct (decide (p ∈ t)), (decide (p ∈ o)), (decide (p ∈ a)); set_solver.
  - rewrite !andb_true_iff, !bool_decide_eq_true. split.
    + intros [[E1 E2] E3] p Ht Hp. destruct (decide (p ∈ o)); set_solver.
    + intros Hd. split_and!; apply set_eq; intros p; set_solver.
Qed.

Lemma sort_pages_spec idx texts pt tp op :
  sort_pages idx texts = (pt, tp, op) ->
  dkeys pt = seqZ idx (Z.of_nat (length texts)) /\
  page_set tp ∪ page_set op = list_to_set (seqZ idx (Z.of_nat (length texts))) /\
  page_set tp ## page_set op /\ length pt = length texts.
Proof.
  revert idx pt tp op. induction texts as [|x texts IH]; intros idx pt tp op; cbn [sort_pages].
  - intros [= <- <- <-]. done.
  - destruct (sort_pages (idx + 1) texts) as [[pt' tp'] op'] eqn:E.
    destruct (IH _ _ _ _ E) as (H1 & H2 & H3 & H4).
    assert (seqZ idx (Z.of_nat (length (x :: texts))) = idx :: seqZ (idx + 1) (Z.of_nat (length texts))) as Hseq.
    { cbn [length]. rewrite seqZ_cons by lia. f_equal; f_equal; lia. }
    assert (idx ∉ page_set tp' ∪ page_set op') as Hni
      by (rewrite H2, elem_of_list_to_set, elem_of_seqZ; lia).
    rewrite Hseq. destruct (_ <=? _); intros [= <- <- <-]; unfold page_set in *;
      cbn [list_to_set dkeys fmap list_fmap length]; rewrite <- H2;
      (split; [f_equal; exact H1|]); (split; [set_solver|]); (split; [set_solver|by rewrite H4]).
Qed.

Lemma dset_keys_set {A} (k : Z) (v : A) (d : dict Z A) : page_set (dkeys (dset k v d)) = {[k]} ∪ page_set (dkeys d).
Proof.
  rewrite dkeys_dset. unfold page_set. destruct (dmem k d) eqn:E.
  - apply dmem_true in E. apply set_eq. intros p. rewrite elem_of_union, elem_of_list_to_set, elem_of_singleton.
    split; [by right|]. by intros [->|].
  - rewrite list_to_set_app_L. set_solver.
Qed.

Lemma fold_dset_keys {A} (f : Z -> A) pages d :
  page_set (dkeys (fold_left (fun d p => dset p (f p) d) pages d)) = page_set pages ∪ page_set (dkeys d).
Proof.
  revert d. induction pages as [|p pages IH]; intros d; cbn [fold_left].
  - unfold page_set at 2. set_solver.
  - rewrite IH, dset_keys_set. unfold page_set at 3. cbn. fold (page_set pages). set_solver.
Qed.

(** OCR answers for exactly the pages it is asked for. *)
Lemma ocr_keys available openable ocr_page float_of content pages :
  page_set (dkeys (ocr available openable ocr_page float_of content pages)) = page_set pages.
Proof.
  assert (forall f : Z -> string * Q, page_set (dkeys (fold_left (fun d p => dset p (f p) d) pages [])) = page_set pages)
    as Hf by (intros f; rewrite fold_dset_keys; unfold page_set at 2; set_solver).
  unfold ocr, ocr_run, blank_results. destruct (negb available || _); [apply Hf|].
  destruct (openable content); apply Hf.
Qed.

(** ** Fields *)

Definition conf_ok (q : Q) : Prop := (0 <= q)%Q /\ (q <= 1)%Q.

Lemma clamp01_ok q : conf_ok (clamp01 q).
Proof.
  unfold conf_ok, clamp01. destruct (Qle_bool q 1) eqn:E1.
  - destruct (Qle_bool 0 q) eqn:E2.
    + by apply Qle_bool_iff in E1, E2.
    + split; discriminate.
  - split; discriminate.
Qed.

Lemma clamp01_id q : conf_ok q -> clamp01 q = q.
Proof.
  intros [H1 H2]. unfold clamp01. apply Qle_bool_iff in H1, H2. by rewrite H2, H1.
Qed.

Lemma clamp_confidence_ok v : conf_ok (clamp_confidence v).
Proof. destruct v as [[q| |]|]; cbn; [apply clamp01_ok|split; discriminate..]. Qed.

(** Fields as pydantic builds them are not changed by the normalisation. *)
Lemma normalise_fields_id fields :
  Forall (fun f => conf_ok (xf_confidence f)) fields -> normalise_fields fields = fields.
Proof.
  induction 1 as [|f fields Hf Hfs IH]; cbn; [done|]. unfold normalise_fields in IH. rewrite IH. f_equal.
  unfold normalise_field. cbn. rewrite clamp01_id by done.
  by rewrite (proj2 (Qeq_bool_iff _ _) (Qeq_refl _)).
Qed.

Lemma normalise_fields_ok fields : Forall (fun f => conf_ok (xf_confidence f)) (normalise_fields fields).
Proof.
  apply Forall_map, List.Forall_forall. intros f _. unfold normalise_field. cbn.
  destruct (Qeq_bool _ _) eqn:E; [|apply clamp01_ok]. apply Qeq_bool_iff in E.
  pose proof (clamp01_ok (xf_confidence f)) as [H1 H2]. split; by rewrite <- E.
Qed.

Lemma mapping_in k p m : dget k (mapping_by_source p) = Some m -> m ∈ mp_fields p /\ fm_source_key m = k.
Proof.
  unfold mapping_by_source.
  assert (forall l d, dget k (fold_left (fun d m => dset (fm_source_key m) m d) l d) = Some m ->
    (m ∈ l /\ fm_source_key m = k) \/ dget k d = Some m) as Hf.
  { induction l as [|x l IH]; intros d; cbn [fold_left]; [by right|]. intros H.
    apply IH in H as [[Hin Hk]|H]; [left; split; [by right|done]|].
    rewrite dget_dset in H. case_decide; [|by right]. injection H as <-. left. split; [left|done]. }
  intros H. apply Hf in H as [?|?]; done.
Qed.

(** A mapped field is an incoming one under the domain key of its mapping. *)
Definition mapped_by (p : MappingProfile) (f f' : ExtractedField) : Prop :=
  exists m, m ∈ mp_fields p /\ fm_source_key m = xf_key f /\ xf_key f' = fm_domain_key m /\
    xf_target_type f' = fm_target_type m /\ xf_confidence f' = xf_confidence f /\
    xf_requires_verification f' = xf_requires_verification f /\ xf_value f' = xf_value f.

Lemma to_domain_spec fields p :
  Forall (fun f' => exists f, f ∈ fields /\ mapped_by p f f') (fst (to_domain fields p)).
Proof.
  induction fields as [|f fields IH]; cbn [to_domain]; [constructor|].
  destruct (to_domain fields p) as [result ws]. cbn in IH.
  assert (Forall (fun f' => exists f0, f0 ∈ f :: fields /\ mapped_by p f0 f') result) as IH'.
  { eapply List.Forall_impl; [|exact IH]. intros f' (f0 & Hin & Hm). exists f0. split; [by right|done]. }
  destruct (dget (xf_key f) (mapping_by_source p)) as [m|] eqn:E; [|exact IH'].
  cbn. constructor; [|exact IH']. exists f. split; [left|]. apply mapping_in in E as [Hin Hk]. by exists m.
Qed.

Lemma apply_threshold_in fields t f' :
  f' ∈ apply_threshold fields t -> exists f, f ∈ fields /\ xf_key f' = xf_key f /\
    xf_target_type f' = xf_target_type f /\ xf_value f' = xf_value f /\ xf_confidence f' = xf_confidence f /\
    xf_requires_verification f' = below f t || xf_requires_verification f.
Proof.
  unfold apply_threshold. intros Hin. apply list_elem_of_fmap in Hin as (f & -> & Hf). exists f. split; [done|].
  destruct (below f t), (xf_requires_verification f) eqn:E; cbn; rewrite ?E; done.
Qed.

Section PipelineProps.
Context {T V : Type} (uuids : nat -> string) (sha256_hex decode_utf8 : string -> string).
Context (environ : string -> option string).
Context (pdfplumber pymupdf : string -> res (list (option string))) (str_of_exn : exn -> string).
Context (available : bool) (openable : string -> bool).
Context (ocr_page : string -> Z -> res (string * list string)) (float_of : string -> option Q).
Context (profiles : dict string MappingProfile) (audit_fn : option (AuditEvent -> M V unit)).

Abbreviation texts := (extract_text pdfplumber pymupdf str_of_exn).
Abbreviation tesseract := (fun content pages => Ok (ocr available openable ocr_page float_of content pages)).
Abbreviation run llm := (extract (T := T) uuids sha256_hex decode_utf8 environ texts tesseract llm profiles audit_fn).

Lemma read_content_coverage inp content c all ws :
  read_content decode_utf8 environ texts tesseract inp content = Ok (c, all, ws) ->
  is_complete c = true /\ is_disjoint c = true /\ pc_total_pages c <= Z.max 0 (get_max_pages environ).
Proof.
  unfold read_content. destruct (String.eqb (xi_content_kind inp) "email_body") eqn:Ek.
  - intros [= <- <- <-]. split; [done|]. split; [done|]. cbn. lia.
  - unfold extract_text. rewrite Ek.
    destruct (str_in _ _); [|done].
    assert (forall r, extract_pdf pdfplumber pymupdf str_of_exn content = Ok r ->
      exists ps, r = sort_pages 1 ps) as Hp.
    { unfold extract_pdf. intros r. destruct (pdfplumber content); [by intros [= <-]; eauto|].
      destruct (pymupdf content); [by intros [= <-]; eauto|done]. }
    destruct (extract_pdf _ _ _ _) as [[[pt tp] op]|e] eqn:E; [|done]. cbn.
    destruct (Hp _ eq_refl) as [ps Hs]. symmetry in Hs.
    destruct (sort_pages_spec _ _ _ _ _ Hs) as (_ & Hu & Hd & Hl). rewrite Hl.
    destruct (Z.ltb_spec (get_max_pages environ) (Z.of_nat (length ps))); [done|].
    assert (forall rs, page_set (dkeys rs) = page_set op ->
      (let '(coverage, cov_warnings) := build_coverage (Z.of_nat (length ps)) tp rs op in
       Ok (coverage, combine_text pt rs, ocr_warnings rs ++ cov_warnings)) = Ok (c, all, ws) ->
      is_complete c = true /\ is_disjoint c = true /\ pc_total_pages c <= Z.max 0 (get_max_pages environ)) as Hfin.
    { intros rs Hk. destruct (build_coverage _ tp rs op) as [cov cws] eqn:Ec.
      destruct (build_coverage_exact _ _ _ _ _ _ Ec) as (_ & H1 & H2 & _).
      intros [= <- <- <-]. split; [apply H1; right; unfold all_pages; rewrite <- Hu, Hk; set_solver|].
      split; [apply H2; rewrite Hk; set_solver|].
      assert (pc_total_pages cov = Z.of_nat (length ps)) as -> by (by injection Ec as <- _). lia. }
    destruct op as [|p op]; cbn [res_bind]; apply Hfin; [done|apply ocr_keys].
Qed.

Lemma structure_stage_fields (llm : option (LLMClient V)) inp all v v' st :
  structure_stage llm profiles inp all v = (v', Ok st) ->
  Forall (fun f => conf_ok (xf_confidence f)) (sd_fields st) /\
  (sd_deterministic st = true <-> sd_status st <> "ok") /\ sd_status st ∈ ["ok"; "unavailable"; "skipped"] /\
  (sd_status st <> "ok" -> sd_fields st = [] /\ sd_provider st = None).
Proof.
  assert (forall x, unstructured = x -> Forall (fun f => conf_ok (xf_confidence f)) (sd_fields x) /\
    (sd_deterministic x = true <-> sd_status x <> "ok") /\ sd_status x ∈ ["ok"; "unavailable"; "skipped"] /\
    (sd_status x <> "ok" -> sd_fields x = [] /\ sd_provider x = None)) as Hu.
  { intros x <-. split; [constructor|]. split; [done|]. split; [in_list|done]. }
  unfold structure_stage. destruct llm as [c|]; [|intros [= _ E]; by apply Hu].
  destruct (xi_structuring inp && _); [|intros [= _ E]; by apply Hu].
  unfold try_except, bind. destruct (lc_structure c _ _ _ v) as [v1 [raw|e]]; cbn.
  - intros [= _ <-]. cbn. split; [apply normalise_fields_ok|]. split; [done|]. split; [in_list|done].
  - destruct (is_provider_unavailable e); [|done]. intros [= _ <-]. cbn.
    split; [constructor|]. split; [done|]. split; [in_list|done].
Qed.
(** C35: what a proposal promises.  Of an extraction that returns, with the
    built-in text and OCR stages and any language model: every page of the
    document is in exactly one of the three page lists, the input was not empty
    and within the limits; every field is one a mapping of the profile names,
    has a confidence between 0 and 1 and is flagged for verification when that
    is below the threshold; the proposal calls itself deterministic exactly when
    no model structured it, and then it has no field. *)
Theorem proposal_sound (llm : option (LLMClient V)) inp content s s' x :
  run llm inp content s = (s', Ok x) ->
  is_complete (xp_page_coverage x) = true /\ is_disjoint (xp_page_coverage x) = true /\
  pc_total_pages (xp_page_coverage x) <= Z.max 0 (get_max_pages environ) /\
  0 < str_len content <= get_max_bytes environ /\
  Forall (fun f => (exists m, m ∈ mp_fields (profile_of profiles inp) /\ fm_domain_key m = xf_key f /\
                      fm_target_type m = xf_target_type f) /\
            (0 <= xf_confidence f <= 1)%Q /\
            ((xf_confidence f < threshold_of profiles inp)%Q -> xf_requires_verification f = true))
    (xp_fields x) /\
  (xp_deterministic x = true <-> xp_structuring_status x <> "ok") /\
  (xp_deterministic x = true -> xp_fields x = []).
Proof.
  unfold extract. intros H. inv_bind H. destruct (Z.eqb_spec (str_len content) 0) as [|Hne]; [done|].
  destruct (Z.ltb_spec (get_max_bytes environ) (str_len content)) as [|Hmax]; [done|].
  inv_bind H. destruct a0 as [[c all] ws]. unfold lift_res in Hb0. injection Hb0 as <- Hr.
  inv_bind H. unfold on_world, zoom in Hb0.
  destruct (structure_stage llm profiles inp all (sys_world s0)) as [v rst] eqn:Es. injection Hb0 as <- ->.
  destruct (structure_stage_fields _ _ _ _ _ _ Es) as (Hc & Hdet & _ & Hno).
  pose proof (to_domain_spec (sd_fields a0) (profile_of profiles inp)) as Hm.
  destruct (to_domain (sd_fields a0) (profile_of profiles inp)) as [fields mws] eqn:Em. cbn [fst] in Hm.
  inv_bind H. injection H as <- <-. cbn.
  destruct (read_content_coverage _ _ _ _ _ Hr) as (H1 & H2 & H3).
  do 3 (split; [done|]). split; [unfold str_len in *; lia|]. split; [|split; [done|]].
  - apply List.Forall_forall. intros f' Hin%list_elem_of_In.
    apply apply_threshold_in in Hin as (f & Hf & Hk & Hty & _ & Hcf & Hv).
    rewrite List.Forall_forall in Hm, Hc.
    destruct (Hm f (proj1 (list_elem_of_In _ _) Hf)) as (f0 & Hf0 & m & Hmp & _ & Hdk & Hdt & Hcm & _).
    split; [exists m; rewrite Hk, Hty; done|].
    specialize (Hc f0 (proj1 (list_elem_of_In _ _) Hf0)). rewrite Hcf, Hcm. split; [exact Hc|].
    intros Hlt. rewrite Hv. unfold below. rewrite Hcm. apply orb_true_intro. left. apply negb_true_iff.
    apply not_true_is_false. rewrite Qle_bool_iff. by apply Qlt_not_le.
  - intros Hd. apply Hdet in Hd. destruct (Hno Hd) as [Hn _]. rewrite Hn in Em. cbn in Em.
    by injection Em as <- _.
Qed.
(** ** Residency *)

Context (allowlist : list string) (allow_external : bool).

Abbreviation guard c := (ResidencyGuard allowlist allow_external c).

Lemma denied_stage (c : LLMClient V) inp all v :
  is_allowed allowlist allow_external (lc_endpoint c) = false ->
  structure_stage (Some (guard c)) profiles inp all v =
    (v, if xi_structuring inp && negb (is_blank all) then Err (ResidencyError (lc_endpoint c)) else Ok unstructured).
Proof.
  intros Hd. unfold structure_stage. destruct (xi_structuring inp && _); [|done].
  unfold try_except, bind. cbn [lc_structure ResidencyGuard]. unfold guarded_structure. rewrite Hd. done.
Qed.

(** C33: the residency guard fails closed.  When the endpoint of the model is not
    allowed, an extraction never calls the model: it is the same whatever the
    model would do.  It raises the residency error when it would have to call
    it, leaving the outside world as it was, and returns a proposal without any
    field only when there was nothing to structure. *)
Theorem residency_fails_closed (c : LLMClient V) inp content s :
  is_allowed allowlist allow_external (lc_endpoint c) = false ->
  (forall f, let c' := mk_LLMClient (lc_provider_id c) (lc_endpoint c) f in
     run (Some (guard c')) inp content s = run (Some (guard c)) inp content s) /\
  (forall s' e, run (Some (guard c)) inp content s = (s', Err e) -> sys_world s' = sys_world s) /\
  (forall s' x, run (Some (guard c)) inp content s = (s', Ok x) ->
     xp_structuring_status x = "skipped" /\ xp_fields x = [] /\
     forall cov all ws, read_content decode_utf8 environ texts tesseract inp content = Ok (cov, all, ws) ->
       xi_structuring inp && negb (is_blank all) = false).
Proof.
  intros Hd. split_and!.
  - intros f c'. unfold extract. apply bind_cong. intros s1 rid _.
    destruct (_ =? 0); [done|]. destruct (_ <? _); [done|]. apply bind_cong. intros s2 [[cov all] ws] _.
    unfold bind at 1 3, on_world, zoom. rewrite !denied_stage by done. done.
  - intros s' e. unfold extract, bind at 1, uuid4. cbv beta iota zeta.
    destruct (_ =? 0); [by intros [= <- _]|]. destruct (_ <? _); [by intros [= <- _]|].
    unfold bind at 1, lift_res. destruct (read_content _ _ _ _ _ _) as [[[cov all] ws]|e']; [|by intros [= <- _]].
    unfold bind at 1, on_world at 1, zoom. rewrite denied_stage by done.
    destruct (xi_structuring inp && _); [by intros [= <- _]|]. cbv beta iota zeta.
    destruct (to_domain (sd_fields unstructured) (profile_of profiles inp)) as [fields mws].
    unfold bind. match goal with |- context [on_world ?m ?s0] => destruct (on_world m s0) as [s3 [u|e']] eqn:E end;
      [done|].
    unfold on_world, zoom, extraction_audit in E. destruct audit_fn as [f|]; [|done].
    unfold try_pass in E. destruct (f _ _) in E. done.
  - intros s' x H. unfold extract in H. inv_bind H. destruct (_ =? 0); [done|]. destruct (_ <? _); [done|].
    inv_bind H. destruct a0 as [[cov all] ws]. unfold lift_res in Hb0. injection Hb0 as <- Hr.
    inv_bind H. unfold on_world, zoom in Hb0. rewrite denied_stage in Hb0 by done.
    destruct (xi_structuring inp && negb (is_blank all)) eqn:Eb; [done|]. injection Hb0 as <- <-.
    inv_bind H. injection H as <- <-. cbn. do 2 (split; [done|]).
    intros cov' all' ws' Hr'. rewrite Hr in Hr'. by injection Hr' as <- <- <-.
Qed.
End PipelineProps.

(** ** What the pipeline does not do *)

(** A profile with no sensitive key. *)
Definition no_sensitive (p : MappingProfile) : MappingProfile :=
  mk_MappingProfile (mp_name p) (mp_version p)
    (map (fun m => mk_FieldMapping (fm_source_key m) (fm_domain_key m) (fm_target_type m) false) (mp_fields p))
    (mp_confidence_threshold p).

Lemma mapping_no_sensitive k p :
  match dget k (mapping_by_source (no_sensitive p)), dget k (mapping_by_source p) with
  | Some m', Some m => fm_domain_key m' = fm_domain_key m /\ fm_target_type m' = fm_target_type m
  | None, None => True
  | _, _ => False
  end.
Proof.
  unfold mapping_by_source, no_sensitive. cbn [mp_fields].
  assert (forall l (d d' : dict string FieldMapping),
    (match dget k d', dget k d with
     | Some m', Some m => fm_domain_key m' = fm_domain_key m /\ fm_target_type m' = fm_target_type m
     | None, None => True | _, _ => False end) ->
    match dget k (fold_left (fun d m => dset (fm_source_key m) m d)
             (map (fun m => mk_FieldMapping (fm_source_key m) (fm_domain_key m) (fm_target_type m) false) l) d'),
          dget k (fold_left (fun d m => dset (fm_source_key m) m d) l d) with
    | Some m', Some m => fm_domain_key m' = fm_domain_key m /\ fm_target_type m' = fm_target_type m
    | None, None => True | _, _ => False end) as Hf.
  { induction l as [|x l IH]; intros d d' Hd; cbn [fold_left map]; [exact Hd|]. apply IH.
    rewrite !dget_dset. cbn. by case_decide. }
  by apply Hf.
Qed.

(** The sensitive flag has no effect on the fields: neither the mapping nor the
    threshold forces their verification. *)
Lemma sensitive_flag_ignored fields p t :
  apply_threshold (fst (to_domain fields (no_sensitive p))) t = apply_threshold (fst (to_domain fields p)) t.
Proof.
  f_equal. induction fields as [|f fields IH]; cbn [to_domain]; [done|].
  destruct (to_domain fields (no_sensitive p)) as [r' w']. destruct (to_domain fields p) as [r w]. cbn in IH. subst r'.
  pose proof (mapping_no_sensitive (xf_key f) p) as H.
  destruct (dget (xf_key f) (mapping_by_source (no_sensitive p))) as [m'|],
    (dget (xf_key f) (mapping_by_source p)) as [m|]; try done. destruct H as [H1 H2]. cbn. by rewrite H1, H2.
Qed.

(** The text OCR reads never reaches the model: the text stage records a text,
    however empty, for every page, and OCR text is only added for pages without
    one. *)
Lemma ocr_text_unused ps pt tp op rs :
  sort_pages 1 ps = (pt, tp, op) -> page_set (dkeys rs) ⊆ page_set op ->
  combine_text pt rs = combine_text pt [].
Proof.
  intros Hs Hk. destruct (sort_pages_spec _ _ _ _ _ Hs) as (H1 & H2 & _ & _).
  unfold combine_text. do 2 f_equal. cbn [dkeys fmap list_fmap py_sorted bfilter map].
  assert (bfilter (fun p => negb (dmem p pt)) (py_sorted Z.leb (dkeys rs)) = []) as ->; [|done].
  assert (forall p, p ∈ py_sorted Z.leb (dkeys rs) -> dmem p pt = true) as Hall.
  { intros p. rewrite py_sorted_perm. intros Hp. apply dmem_true. rewrite H1.
    assert (p ∈ page_set tp ∪ page_set op) as Hin.
    { apply elem_of_union_r, Hk. unfold page_set. by apply elem_of_list_to_set. }
    rewrite H2, elem_of_list_to_set in Hin. exact Hin. }
  revert Hall. induction (py_sorted Z.leb (dkeys rs)) as [|p l IH]; intros Hall; cbn; [done|].
  rewrite (Hall p) by left. cbn. apply IH. intros q Hq. apply Hall. by right.
Qed.

(** The allow-list is matched by prefix, so a longer host name passes. *)
Example allowlist_is_a_prefix :
  is_allowed ["https://llm.firm.internal"] false "https://llm.firm.internal.attacker.example/v1" = true.
Proof. reflexivity. Qed.

(** Pages an uninstalled OCR engine could not read count as read by OCR. *)
Example unavailable_ocr_not_skipped :
  pc_ocr_pages (fst (build_coverage 1 [] (ocr false (fun _ => true) (fun _ _ => Err AssertionError)
    (fun _ => None) "pdf" [1]) [1])) = [1].
Proof. reflexivity. Qed.

(** ** A concrete extraction *)

Definition ex_model (fields : list ExtractedField) : LLMClient nat :=
  mk_LLMClient "mock" "http://localhost:9999/v1" (fun _ _ _ n => (S n, Ok fields)).

Definition ex_profile : MappingProfile :=
  mk_MappingProfile "default" "1.0" [mk_FieldMapping "email" "contact.email" "Contact" true] (8 # 10).

Definition ex_field (q : Q) : ExtractedField := mk_ExtractedField "email" "Contact" (JStr "a@b.c") None q false [].

Definition ex_input : ExtractInput := mk_ExtractInput "doc1" "pdf" None None true true.

Abbreviation ex_extract llm :=
  (extract (T := unit) (V := nat) (fun n => "x" +:+ pretty (Z.of_nat n)) (fun s => s) (fun s => s) (fun _ => None)
     (extract_text (fun _ => Ok [Some "A page with enough text"; None]) (fun _ => Err AssertionError) exn_name)
     (fun content pages => Ok (ocr true (fun _ => true) (fun _ _ => Ok ("scan", ["90"])) (fun _ => Some 90%Q) content pages))
     llm [("default", ex_profile)] None ex_input "%PDF").

Definition ex_xsys : sys unit nat := mk_sys tt 0%nat 0 0.

Definition ex_proposal : ExtractionProposal :=
  match snd (ex_extract (Some (ex_model [ex_field (7 # 10); ex_field 3])) ex_xsys) with
  | Ok x => x
  | Err _ => mk_ExtractionProposal "" "" "" [] build_email_coverage "" None true []
  end.

Lemma proposal_sound_witness :
  is_complete (xp_page_coverage ex_proposal) = true /\ pc_ocr_pages (xp_page_coverage ex_proposal) = [2] /\
  map xf_confidence (xp_fields ex_proposal) = [7 # 10; 1]%Q /\
  map xf_requires_verification (xp_fields ex_proposal) = [true; true].
Proof.
  split; [|vm_compute; repeat split].
  eapply (proposal_sound (T := unit) (V := nat) (fun n => "x" +:+ pretty (Z.of_nat n)) (fun s => s) (fun s => s)
    (fun _ => None) (fun _ => Ok [Some "A page with enough text"; None]) (fun _ => Err AssertionError) exn_name
    true (fun _ => true) (fun _ _ => Ok ("scan", ["90"])) (fun _ => Some 90%Q) [("default", ex_profile)] None
    (Some (ex_model [ex_field (7 # 10); ex_field 3])) ex_input "%PDF" ex_xsys).
  vm_compute. reflexivity.
Defined.

Lemma residency_fails_closed_witness :
  is_allowed ["https://eu."] false "http://localhost:9999/v1" = false /\
  snd (ex_extract (Some (ResidencyGuard ["https://eu."] false (ex_model []))) ex_xsys) =
    Err (ResidencyError "http://localhost:9999/v1") /\
  sys_world (fst (ex_extract (Some (ResidencyGuard ["https://eu."] false (ex_model []))) ex_xsys)) = 0%nat.
Proof.
  split; [reflexivity|]. split; [vm_compute; reflexivity|].
  eapply (proj1 (proj2 (residency_fails_closed (T := unit) (V := nat) (fun n => "x" +:+ pretty (Z.of_nat n))
    (fun s => s) (fun s => s) (fun _ => None) (fun _ => Ok [Some "A page with enough text"; None])
    (fun _ => Err AssertionError) exn_name true (fun _ => true) (fun _ _ => Ok ("scan", ["90"])) (fun _ => Some 90%Q)
    [("default", ex_profile)] None ["https://eu."] false (ex_model []) ex_input "%PDF" ex_xsys eq_refl))).
  vm_compute. reflexivity.
Defined.
