(* ===== verification/Intake.v ===== *)
(** * Intake: core/workflows/intake/

    Client intake: the lead and its normalised fields, parsing with its gaps,
    contact deduplication, creation of contact and matter, deadlines, opening
    tasks, the welcome draft and its sending, the nine-step workflow and the
    intake.run tool.  Handlers act on [sys (DState S) V]: the deadline store and
    scheduler of [Schedule], and the outside world [V] behind the ports; the rule
    store is given.  pydantic's [model_dump] and validation are the class
    [PyModel]; the e-mail validator, the active pack's identifier pattern, uuid5
    and [str] of an arbitrary value are parameters.  Logs are left out. *)

From Stdlib Require Import ZArith Lia Ascii String List QArith.
From stdpp Require Import base list strings pretty.
From S2P Require Import Prelude PyTime ConnErrors Effects States RunStore Dsl Engine Triggers DeadlineTypes.
From S2P Require Import Compute Rules Schedule Domain PyText Reference Ports Qc QcChecks Flow Extraction.

Open Scope string_scope.
Open Scope list_scope.
Open Scope Z_scope.
Open Scope cam_scope.

(** A pydantic model: what [model_dump()] gives and what [Model( ** d)] makes of
    it. *)
Class PyModel (A : Type) := {
  model_dump : A -> jdict;
  model_validate : jdict -> res A }.

(** ** types.py *)

Record LeadPayload := mk_LeadPayload {
  ld_source_channel : string;
  ld_received_at : datetime;
  ld_raw : jdict;
  ld_attachments : list (dict string string);
  ld_provider_event_id : option string }.

Record IntakeFields := mk_IntakeFields {
  if_full_name : option string;
  if_dob : option string;
  if_preferred_language : option string;
  if_email : option string;
  if_phone : option string;
  if_address : option string;
  if_country_of_origin : option string;
  if_a_number : option string;
  if_current_status : option string;
  if_case_type : option string;
  if_prior_filings : list string;
  if_lead_source : option string;
  if_description : option string;
  if_field_confidence : dict string Q }.

Record IntakeGap := mk_IntakeGap { ig_field : string; ig_reason : string; ig_severity : string }.

Record MatchRef := mk_MatchRef { mr_contact_id : string; mr_source : string; mr_score : Q }.

Inductive DedupeDecision := ReuseContact | NewContact | Ambiguous.

Record DedupeResult := mk_DedupeResult {
  dd_contact_match : option MatchRef;
  dd_matter_match : option MatchRef;
  dd_decision : DedupeDecision;
  dd_score : Q }.

Record TaskTemplate := mk_TaskTemplate {
  tt_title : string;
  tt_assignee_role : string;
  tt_due_offset_days : option Z;
  tt_sort : Z }.

Record CaseTypeConfig := mk_CaseTypeConfig {
  cc_case_type : string;
  cc_required_fields : list string;
  cc_opening_tasks : list TaskTemplate;
  cc_deadline_rule_ids : list string;
  cc_welcome_template_id : string }.

(** ** config.py *)

Record DedupeConfig := mk_DedupeConfig {
  dc_email_exact_threshold : Q;
  dc_name_dob_threshold : Q;
  dc_a_number_threshold : Q;
  dc_ambiguity_threshold : Q }.

Record IntakeConfig := mk_IntakeConfig {
  ic_case_type_configs : dict string CaseTypeConfig;
  ic_dedupe : DedupeConfig;
  ic_default_case_type : string;
  ic_confidence_threshold : Q }.

Definition NEUTRAL_CASE_TYPE : string := "default".

Definition DEFAULT_CASE_TYPE_CONFIGS : dict string CaseTypeConfig :=
  [(NEUTRAL_CASE_TYPE, mk_CaseTypeConfig NEUTRAL_CASE_TYPE ["full_name"; "email"]
     [mk_TaskTemplate "Open matter in case system" "staff" None 1] [] "default_welcome")].

Definition default_intake_config : IntakeConfig :=
  mk_IntakeConfig DEFAULT_CASE_TYPE_CONFIGS (mk_DedupeConfig 1 (9 # 10) 1 (7 # 10)) NEUTRAL_CASE_TYPE (8 # 10).

(** The default case type is looked up first, whether it is needed or not. *)
Definition get_case_type (cfg : IntakeConfig) (case_type : option string) : res CaseTypeConfig :=
  letr! default := or_raise (KeyError (ic_default_case_type cfg))
                     (dget (ic_default_case_type cfg) (ic_case_type_configs cfg)) in
  let key := match case_type with
             | Some t => if str_truthy t then t else ic_default_case_type cfg
             | None => ic_default_case_type cfg end in
  Ok (match dget key (ic_case_type_configs cfg) with Some c => c | None => default end).

(** ** parse.py *)

Definition MODEL_FIELDS : list string :=
  ["full_name"; "dob"; "preferred_language"; "email"; "phone"; "address"; "country_of_origin"; "a_number";
   "current_status"; "case_type"; "prior_filings"; "lead_source"; "description"; "field_confidence"].

(** The attributes by name, as [str] shows their values; a list is never blank. *)
Definition intake_attrs (f : IntakeFields) : list (string * option string) :=
  [("full_name", if_full_name f); ("dob", if_dob f); ("preferred_language", if_preferred_language f);
   ("email", if_email f); ("phone", if_phone f); ("address", if_address f);
   ("country_of_origin", if_country_of_origin f); ("a_number", if_a_number f);
   ("current_status", if_current_status f); ("case_type", if_case_type f);
   ("prior_filings", Some (py_repr_list (if_prior_filings f))); ("lead_source", if_lead_source f);
   ("description", if_description f)].

(** [value is None or str(value).strip() == ""] for [getattr(fields, name, None)]. *)
Definition attr_missing (name : string) (f : IntakeFields) : bool :=
  match dget name (intake_attrs f) with
  | Some (Some s) => is_blank s
  | Some None => true
  | None => negb (String.eqb name "field_confidence")
  end.

(** [raw.get(k)] and Python's [or] on arbitrary values. *)
Definition jget (k : string) (d : jdict) : json := match dget k d with Some j => j | None => JNull end.
Definition jor (a b : json) : json := if json_truthy a then a else b.

(** [key.split(".")[-1]] *)
Fixpoint last_part (l : list string) : string :=
  match l with [] => EmptyString | [x] => x | _ :: l' => last_part l' end.

Definition simple_key (key : string) : string := last_part (split_on "." key).

(** The loop over the proposal's fields: confidences, and values for keys the
    lead does not have. *)
Definition take_field (acc : jdict * dict string Q) (f : ExtractedField) : jdict * dict string Q :=
  let '(raw, confidence) := acc in
  let key := simple_key (xf_key f) in
  let confidence := dset (xf_key f) (xf_confidence f) confidence in
  match str_in key MODEL_FIELDS, jget key raw with
  | true, JNull => (dset key (xf_value f) raw, confidence)
  | _, _ => (raw, confidence)
  end.

Definition take_proposal (raw : jdict) (p : option ExtractionProposal) : jdict * dict string Q :=
  match p with
  | Some p => fold_left take_field (xp_fields p) (raw, [])
  | None => (raw, [])
  end.

Section Parse.
(** The validator of e-mail addresses, which may normalise, and the pattern the
    active pack has for the field [a_number], if any. *)
Context (email_validate : string -> res string) (a_number_pattern : option (string -> bool)).

(** A pydantic field of type [str | None]. *)
Definition opt_str_value (j : json) : res (option string) :=
  match j with
  | JNull => Ok None
  | JStr s => Ok (Some s)
  | _ => Err (ValidationError "Input should be a valid string")
  end.

Definition email_value (j : json) : res (option string) :=
  letr! s := opt_str_value j in
  match s with
  | Some s => letr! e := email_validate s in Ok (Some e)
  | None => Ok None
  end.

Definition validate_a_number (j : json) : res (option string) :=
  letr! s := opt_str_value j in
  match s, a_number_pattern with
  | Some v, Some pattern => if pattern v then Ok (Some v) else Err (ValidationError "a_number")
  | _, _ => Ok s
  end.

Definition str_list_value (j : json) : res (list string) :=
  match j with
  | JList l => map_res (fun x => match x with JStr s => Ok s | _ => Err (ValidationError "prior_filings") end) l
  | _ => Err (ValidationError "prior_filings")
  end.

(** [IntakeFields(...)] of the raw values. *)
Definition make_fields (raw : jdict) (case_type_hint : json) (confidence : dict string Q) : res IntakeFields :=
  let get := fun k => jget k raw in
  letr! full_name := opt_str_value (jor (get "full_name") (get "name")) in
  letr! dob := opt_str_value (jor (get "dob") (get "date_of_birth")) in
  letr! preferred_language := opt_str_value (get "preferred_language") in
  letr! email := email_value (get "email") in
  letr! phone := opt_str_value (get "phone") in
  letr! address := opt_str_value (get "address") in
  letr! country_of_origin := opt_str_value (get "country_of_origin") in
  letr! a_number := validate_a_number (get "a_number") in
  letr! current_status := opt_str_value (get "current_status") in
  letr! case_type := opt_str_value (jor (get "case_type") case_type_hint) in
  letr! prior_filings := str_list_value (jor (get "prior_filings") (JList [])) in
  letr! lead_source := opt_str_value (get "lead_source") in
  letr! description := opt_str_value (get "description") in
  Ok (mk_IntakeFields full_name dob preferred_language email phone address country_of_origin a_number
        current_status case_type prior_filings lead_source description confidence).

Definition with_case_type (t : string) (f : IntakeFields) : IntakeFields :=
  mk_IntakeFields (if_full_name f) (if_dob f) (if_preferred_language f) (if_email f) (if_phone f) (if_address f)
    (if_country_of_origin f) (if_a_number f) (if_current_status f) (Some t) (if_prior_filings f)
    (if_lead_source f) (if_description f) (if_field_confidence f).

(** The gap a required field gives, if any. *)
Definition required_gap (cfg : IntakeConfig) (f : IntakeFields) (confidence : dict string Q) (req : string)
    : list IntakeGap :=
  let field_conf := match dget req confidence with Some q => q | None => 1%Q end in
  if attr_missing req f then
    [mk_IntakeGap req ("Required field " +:+ py_repr req +:+ " is missing.") "block"]
  else if negb (Qle_bool (ic_confidence_threshold cfg) field_conf) then
    [mk_IntakeGap req ("Field " +:+ py_repr req +:+ " confidence " +:+ fmt2 field_conf +:+ " below threshold.") "warn"]
  else [].

Definition no_case_type : IntakeGap :=
  mk_IntakeGap "case_type" "Case type could not be determined from lead data." "warn".

(** [case_type_hint] comes from the run's context as it is. *)
Definition parse_lead (lead : LeadPayload) (proposal : option ExtractionProposal) (case_type_hint : json)
    (cfg : IntakeConfig) : res (IntakeFields * list IntakeGap) :=
  let '(raw, confidence) := take_proposal (ld_raw lead) proposal in
  letr! fields := make_fields raw case_type_hint confidence in
  let known := opt_truthy (if_case_type fields) in
  let resolved := match if_case_type fields with
                  | Some t => if str_truthy t then t else ic_default_case_type cfg
                  | None => ic_default_case_type cfg end in
  let fields := if known then fields else with_case_type resolved fields in
  let type_gaps := if known then []
                   else match case_type_hint with JNull => [no_case_type] | _ => [] end in
  letr! case_cfg := get_case_type cfg (Some resolved) in
  Ok (fields, type_gaps ++ flat_map (required_gap cfg fields confidence) (cc_required_fields case_cfg)).
End Parse.

(** ** The steps *)

Section Steps.
Context {S V : Type} {SCH : Scheduler S V} {CRM : CRMConnector V} {CC : CaseConnector V} {EC : EmailConnector V}.
Context (clock : nat -> datetime) (uuids : nat -> string) (sha256_hex uuid5 : string -> string).
Context (rules : RuleStore).

Abbreviation world := (sys (DState S) V).

(** dedupe.py: a search that fails finds nobody. *)
Definition search_contacts (q : string) : M world (list Contact) :=
  try_except (on_world (crm_find_contact q)) (fun _ => ret []).

Definition find_candidates (f : IntakeFields) : M world (list Contact) :=
  let! by_email := match if_email f with
                   | Some e => if str_truthy e then search_contacts e else ret []
                   | None => ret [] end in
  match by_email, if_full_name f with
  | [], Some n => if str_truthy n then search_contacts n else ret []
  | _, _ => ret by_email
  end.

Definition match_ref (score : Q) (c : Contact) : MatchRef := mk_MatchRef (ct_id c) (ct_source c) score.

Definition email_matches (f : IntakeFields) (cs : list Contact) : list Contact :=
  match if_email f with
  | Some e => if str_truthy e
              then bfilter (fun c => String.eqb (match ct_email c with Some x => x | None => EmptyString end) e) cs
              else []
  | None => []
  end.

Definition a_number_matches (f : IntakeFields) (cs : list Contact) : list Contact :=
  match if_a_number f with
  | Some a => if str_truthy a
              then bfilter (fun c => bool_decide (dget "a_number" (ct_external_ids c) = Some a)) cs else []
  | None => []
  end.

Definition reuse (c : Contact) : DedupeResult := mk_DedupeResult (Some (match_ref 1 c)) None ReuseContact 1.

(** The decision on the candidates found. *)
Definition decide_duplicate (f : IntakeFields) (candidates : list Contact) : DedupeResult * list IntakeGap :=
  match candidates with
  | [] => (mk_DedupeResult None None NewContact 0, [])
  | first :: others =>
      match email_matches f candidates, a_number_matches f candidates with
      | [c], _ => (reuse c, [])
      | _, [c] => (reuse c, [])
      | _, _ =>
          match others with
          | _ :: _ =>
              (mk_DedupeResult None None Ambiguous (5 # 10),
               [mk_IntakeGap "contact_id"
                  ("Found " +:+ pretty (Z.of_nat (length candidates)) +:+
                   " possible matching contacts — requires human disambiguation.") "block"])
          | [] =>
              (mk_DedupeResult (Some (match_ref (6 # 10) first)) None Ambiguous (6 # 10),
               [mk_IntakeGap "contact_id"
                  "Found a possible matching contact but confidence is insufficient for automatic merge." "block"])
          end
      end
  end.

Definition dedupe_contact (f : IntakeFields) : M world (DedupeResult * list IntakeGap) :=
  let! candidates := find_candidates f in ret (decide_duplicate f candidates).

(** create.py *)
Definition name_or_unknown (f : IntakeFields) : string :=
  match if_full_name f with Some n => if str_truthy n then n else "Unknown" | None => "Unknown" end.

Definition create_contact (f : IntakeFields) (dedupe : DedupeResult) (run_id : string) : M world Contact :=
  match dd_decision dedupe, dd_contact_match dedupe with
  | ReuseContact, Some m =>
      ret (mk_Contact (mr_contact_id m) (mr_source m) (name_or_unknown f) (if_email f) (if_phone f)
             (Some "client") [("run_id", run_id)])
  | _, _ =>
      let! id := uuid4 uuids in
      on_world (crm_upsert_contact
        (mk_Contact id "intake" (name_or_unknown f) (if_email f) (if_phone f) (Some "client")
           (("run_id", run_id) ::
            match if_a_number f with
            | Some a => if str_truthy a then [("a_number", a)] else []
            | None => [] end)))
  end.

Definition create_matter_step (f : IntakeFields) (contact : Contact) (case_cfg : CaseTypeConfig) (run_id : string)
    : M world Matter :=
  let! now := get_now clock in
  on_world (cc_create_matter
    (mk_MatterDraft ("INTAKE-" +:+ str_upper (take_chars 8 run_id))
       (ct_name contact +:+ " — " +:+ cc_case_type case_cfg) "open" (Some (cc_case_type case_cfg)) contact None now
       [("run_id", run_id);
        ("source_channel", match if_lead_source f with
                           | Some s => if str_truthy s then s else "intake" | None => "intake" end)])).

(** deadlines.py: one rule of the case type; [None] where the loop continues
    without a deadline. *)
Definition schedule_rule (matter : Matter) (run_id rule_id : string) (now : datetime)
    : M world (option Deadline) :=
  try_except
    (let! rule := lift_res (active rule_id "US" rules) in
     let! version := lift_res (rule_version rule_id "US" rules) in
     let! sd := tool_deadline_schedule clock uuids sha256_hex None (mt_id matter) rule [("trigger_date", now)]
                  (mk_RuleRef rule_id version "US" None) (run_id +:+ ":deadline:" +:+ rule_id) (Some now) in
     ret (Some (mk_Deadline (sd_deadline_id sd) (mt_id matter)
                  (if str_truthy (dr_description rule) then dr_description rule else rule_id)
                  (ct_due_at (sd_trace sd)) (Some rule_id) DPending 0)))
    (fun e => match e with
              | PastDueOnCreateError _ _ => ret None
              | KeyError _ => ret None
              | _ => raise e
              end).

Fixpoint schedule_rules (matter : Matter) (run_id : string) (now : datetime) (rule_ids : list string)
    : M world (list Deadline) :=
  match rule_ids with
  | [] => ret []
  | rule_id :: rest =>
      let! d := schedule_rule matter run_id rule_id now in
      let! ds := schedule_rules matter run_id now rest in
      ret (match d with Some d => d :: ds | None => ds end)
  end.

Definition compute_deadlines (matter : Matter) (case_cfg : CaseTypeConfig) (run_id : string)
    : M world (list Deadline) :=
  let! now := get_now clock in
  schedule_rules matter run_id now (cc_deadline_rule_ids case_cfg).

(** tasks.py *)
Definition ROLE_ASSIGNEE_MAP : dict string string :=
  [("paralegal", "paralegal_default"); ("attorney", "attorney_default");
   ("intake_coordinator", "intake_coordinator_default")].

Definition stable_task_id (run_id matter_id title : string) : string :=
  uuid5 (run_id +:+ ":" +:+ matter_id +:+ ":" +:+ title).

Definition template_le (a b : TaskTemplate) : bool := tt_sort a <=? tt_sort b.

Definition render_task (matter_id run_id : string) (now : datetime) (t : TaskTemplate) : res Task :=
  letr! due_at := match tt_due_offset_days t with
                  | Some n => letr! d := plus_days now n in Ok (Some d)
                  | None => Ok None end in
  Ok (mk_Task (stable_task_id run_id matter_id (tt_title t)) matter_id (tt_title t)
        (Some (match dget (tt_assignee_role t) ROLE_ASSIGNEE_MAP with
               | Some a => a | None => tt_assignee_role t end)) due_at "open").

Definition render_tasks (matter_id : string) (case_cfg : CaseTypeConfig) (run_id : string) (now : datetime)
    : res (list Task) :=
  map_res (render_task matter_id run_id now) (py_sorted template_le (cc_opening_tasks case_cfg)).

(** welcome.py *)
Definition no_address_gap : IntakeGap :=
  mk_IntakeGap "email" "Client contact has no email address — cannot draft welcome." "block".

Definition welcome_body (m : Matter) (c : Contact) (f : IntakeFields) : string :=
  "Dear " +:+ (if str_truthy (ct_name c) then ct_name c else "Client") +:+ "," +:+ NL +:+ NL +:+
  "Thank you for reaching out to us regarding your " +:+
  (match if_case_type f with Some t => if str_truthy t then t else "immigration" | None => "immigration" end) +:+
  " matter." +:+ NL +:+ NL +:+
  "We have opened a matter for you (reference: " +:+ mt_reference m +:+ ") and " +:+
  "our team will be in touch shortly." +:+ NL +:+ NL +:+
  "Best regards," +:+ NL +:+ "The Immigration Team".

Definition draft_welcome (m : Matter) (c : Contact) (f : IntakeFields) : M world (string * list IntakeGap) :=
  if opt_truthy (ct_email c) then
    let! id := uuid4 uuids in
    let! draft_id := on_world (ec_create_draft
      (mk_Communication id (Some (mt_id m)) DirOut "email" (Some ("Welcome — " +:+ mt_reference m))
         (welcome_body m c f) "draft" [c])) in
    ret (draft_id, [])
  else ret (EmptyString, [no_address_gap]).

Definition welcome_key (run_id : string) : string := run_id +:+ ":send_welcome".

Definition send_welcome (draft_id run_id : string) : M world string :=
  on_world (ec_send draft_id (welcome_key run_id)).
End Steps.

(** ** prompt.py *)

Definition INTERVIEW_PROMPT_VERSION : string := "v1".

Definition gap_line (g : IntakeGap) : string :=
  "- **" +:+ ig_field g +:+ "** (" +:+ ig_severity g +:+ "): " +:+ ig_reason g.

Definition ordered_gaps (gaps : list IntakeGap) : list IntakeGap :=
  bfilter (fun g => String.eqb (ig_severity g) "block") gaps ++
  bfilter (fun g => String.eqb (ig_severity g) "warn") gaps.

Definition collected (f : IntakeFields) (gap_fields : list string) : list string :=
  flat_map (fun a : string * option string =>
    match a.2 with
    | Some v => if str_in a.1 gap_fields then [] else ["- " +:+ a.1 +:+ ": " +:+ v]
    | None => []
    end) (intake_attrs f).

Definition render_intake_interview (f : IntakeFields) (gaps : list IntakeGap) (case_cfg : CaseTypeConfig) : string :=
  match ordered_gaps gaps with
  | [] => "# Intake Interview — " +:+ cc_case_type case_cfg +:+ " (prompt " +:+ INTERVIEW_PROMPT_VERSION +:+ ")" +:+
          NL +:+ NL +:+ "All required fields have been collected. No questions needed."
  | ordered =>
      let lines_collected := collected f (map ig_field ordered) in
      lines ["# Intake Interview — " +:+ cc_case_type case_cfg +:+ " (prompt " +:+ INTERVIEW_PROMPT_VERSION +:+ ")";
             "";
             "You are completing an intake interview for a new US immigration client.";
             "Ask ONLY for the fields listed below — do not ask for information already provided.";
             "";
             "## Fields still needed (gaps)";
             "";
             str_join NL (map gap_line ordered);
             "";
             "## Rules";
             "1. Ask one logical group at a time (bio info, then immigration info).";
             "2. Never invent values.  If the client is unsure, record it as uncertain.";
             "3. Emit answers as a JSON object mapping field names to values, e.g.:";
             "   {" +:+ DQ +:+ "full_name" +:+ DQ +:+ ": " +:+ DQ +:+ "Ana Garcia" +:+ DQ +:+ ", " +:+ DQ +:+ "dob" +:+
               DQ +:+ ": " +:+ DQ +:+ "1990-03-15" +:+ DQ +:+ "}";
             "4. If all gaps are resolved, respond with an empty JSON object: {}";
             "";
             "## Already collected (do not re-ask)";
             "";
             match lines_collected with [] => "(nothing collected yet)" | l => str_join NL l end]
  end.

(** ** The workflow *)

Section Workflow.
Context {S V : Type} {SCH : Scheduler S V} {CRM : CRMConnector V} {CC : CaseConnector V} {EC : EmailConnector V}.
Context {PL : PyModel LeadPayload} {PF : PyModel IntakeFields} {PG : PyModel IntakeGap} {PD : PyModel DedupeResult}.
Context {PC : PyModel Contact} {PM : PyModel Matter}.
Context (clock : nat -> datetime) (uuids : nat -> string) (sha256_hex uuid5 : string -> string).
Context (email_validate : string -> res string) (a_number_pattern : option (string -> bool)).
Context (rules : RuleStore) (cfg : IntakeConfig).

Abbreviation world := (sys (DState S) V).

(** [svc.extraction.extract], when there is an extraction service. *)
Context (extraction : option (ExtractInput -> string -> M world ExtractionProposal)).

Definition dump_gaps (gaps : list IntakeGap) : json := JList (map (fun g => JDict (model_dump g)) gaps).

(** [Model( ** value)] *)
Definition validate_of {A} {P : PyModel A} (j : json) : res A :=
  match j with
  | JDict d => model_validate d
  | _ => Err (TypeError "argument after ** must be a mapping")
  end.

(** The proposal for the lead's body; any failure of the service is passed over. *)
Definition propose (ctx : StepContext world) (lead : LeadPayload) : M world (option ExtractionProposal) :=
  let body := jget "body" (ld_raw lead) in
  match extraction with
  | Some ex =>
      if json_truthy body then
        try_except
          (let! b := lift_res (match body with JStr b => Ok b | _ => Err (AttributeError "encode") end) in
           let! p := ex (mk_ExtractInput (ctx_run_id ctx) "email_body" None None false true) b in
           ret (Some p))
          (fun _ => ret None)
      else ret None
  | None => ret None
  end.

Definition parse_lead_step (ctx : StepContext world) : M world jdict :=
  let hint := jget "case_type_hint" (ctx_context ctx) in
  let! lead := lift_res (match dget_or "lead" (JDict []) (ctx_context ctx) with
                         | JDict d => model_validate d
                         | _ => Err (AttributeError "raw") end) in
  let! proposal := propose ctx lead in
  let! (fields, gaps) := lift_res (parse_lead email_validate a_number_pattern lead proposal hint cfg) in
  ret [("fields", JDict (model_dump fields)); ("gaps", dump_gaps gaps)].

(** The fields the parse step recorded. *)
Definition prior_fields (ctx : StepContext world) : res IntakeFields :=
  letr! out := prior_output "parse_lead" ctx in validate_of (dget_or "fields" (JDict []) out).

(** [step_out[key]], validated. *)
Definition prior_model {A} {P : PyModel A} (step key : string) (ctx : StepContext world) : res A :=
  letr! out := prior_output step ctx in
  letr! j := or_raise (KeyError key) (dget key out) in validate_of j.

Definition dedupe_contact_step (ctx : StepContext world) : M world jdict :=
  let! fields := lift_res (prior_fields ctx) in
  let! (result, gaps) := dedupe_contact fields in
  ret [("dedupe", JDict (model_dump result)); ("gaps", dump_gaps gaps)].

Definition create_contact_step (ctx : StepContext world) : M world jdict :=
  let! dedupe_out := lift_res (prior_output "dedupe_contact" ctx) in
  let! fields := lift_res (prior_fields ctx) in
  let! dedupe := lift_res (validate_of (P := PD)
    (dget_or "dedupe" (JDict [("decision", JStr "new_contact")]) dedupe_out)) in
  let! contact := create_contact uuids fields dedupe (ctx_run_id ctx) in
  ret [("contact", JDict (model_dump contact))].

Definition case_config (f : IntakeFields) : res CaseTypeConfig := get_case_type cfg (if_case_type f).

Definition create_matter_handler (ctx : StepContext world) : M world jdict :=
  let! fields := lift_res (prior_fields ctx) in
  let! contact := lift_res (prior_model (P := PC) "create_contact" "contact" ctx) in
  let! case_cfg := lift_res (case_config fields) in
  let! matter := create_matter_step clock fields contact case_cfg (ctx_run_id ctx) in
  ret [("matter", JDict (model_dump matter))].

Definition compute_deadlines_step (ctx : StepContext world) : M world jdict :=
  let! fields := lift_res (prior_fields ctx) in
  let! matter := lift_res (prior_model (P := PM) "create_matter" "matter" ctx) in
  let! case_cfg := lift_res (case_config fields) in
  let! deadlines := compute_deadlines clock uuids sha256_hex rules matter case_cfg (ctx_run_id ctx) in
  ret [("deadline_ids", jstrs (map d_id deadlines))].

Definition open_tasks_step (ctx : StepContext world) : M world jdict :=
  let! fields := lift_res (prior_fields ctx) in
  let! matter := lift_res (prior_model (P := PM) "create_matter" "matter" ctx) in
  let! case_cfg := lift_res (case_config fields) in
  let! now := get_now clock in
  let! tasks := lift_res (render_tasks uuid5 (mt_id matter) case_cfg (ctx_run_id ctx) now) in
  ret [("task_ids", jstrs (map tk_id tasks)); ("task_count", JInt (Z.of_nat (length tasks)))].

Definition draft_welcome_step (ctx : StepContext world) : M world jdict :=
  let! fields := lift_res (prior_fields ctx) in
  let! matter := lift_res (prior_model (P := PM) "create_matter" "matter" ctx) in
  let! contact := lift_res (prior_model (P := PC) "create_contact" "contact" ctx) in
  let! _ := lift_res (case_config fields) in
  let! (draft_id, gaps) := draft_welcome uuids matter contact fields in
  ret [("draft_id", JStr draft_id); ("gaps", dump_gaps gaps)].

(** [send] takes a string: the draft ids this workflow records are. *)
Definition send_welcome_step (ctx : StepContext world) : M world jdict :=
  let! out := lift_res (prior_output "draft_welcome" ctx) in
  let! draft_id := lift_res (match dget_or "draft_id" (JStr EmptyString) out with
                             | JStr s => Ok s | _ => Err (TypeError "draft_id") end) in
  let! message_id := send_welcome draft_id (ctx_run_id ctx) in
  ret [("message_id", JStr message_id)].

Definition INTAKE_STEPS : list string :=
  ["parse_lead"; "dedupe_contact"; "create_contact"; "create_matter"; "compute_deadlines"; "open_tasks";
   "draft_welcome"; "GATE:human_review"; "send_welcome"].

Definition intake_handlers : dict string (Handler world) :=
  [("parse_lead", method parse_lead_step); ("dedupe_contact", method dedupe_contact_step);
   ("create_contact", method create_contact_step); ("create_matter", method create_matter_handler);
   ("compute_deadlines", method compute_deadlines_step); ("open_tasks", method open_tasks_step);
   ("draft_welcome", method draft_welcome_step); ("send_welcome", method send_welcome_step)].

Definition intake_class : WorkflowClass world :=
  mk_WorkflowClass INTAKE_STEPS
    [("human_review", mk_GateConfig "attorney" 1 ["mcp"; "web"; "email"] 86400)]
    (fun name => option_map AsyncMethod (dget name intake_handlers)).

Definition register_intake_workflow : M (registry world) unit := workflow "intake" 1 None intake_class.

(** ** intake.run *)

Context (py_str : json -> string) (o_clock : nat -> datetime) (o_uuids : nat -> string) (reg : registry world).

Definition lead_key (lead : LeadPayload) : string :=
  let base :=
    if opt_truthy (ld_provider_event_id lead)
    then ld_source_channel lead +:+ ":" +:+ (match ld_provider_event_id lead with Some e => e | None => "" end)
    else
      let raw_email := dget_or "email" (JStr EmptyString) (ld_raw lead) in
      let raw_name := dget_or "full_name" (dget_or "name" (JStr EmptyString) (ld_raw lead)) (ld_raw lead) in
      ld_source_channel lead +:+ ":" +:+ py_str raw_email +:+ ":" +:+ py_str raw_name in
  take_chars 16 (sha256_hex base).

Definition tool_intake_run (lead : LeadPayload) (dump_json : LeadPayload -> jdict) (case_type_hint : option string)
    (idempotency_key : option string) (actor : string) : M (sys RunStore world) jdict :=
  let key := match idempotency_key with Some k => k | None => lead_key lead end in
  let! candidate_id := uuid4 o_uuids in
  let! run := start_run o_clock o_uuids reg "intake"
    [("lead", JDict (dump_json lead)); ("case_type_hint", jopt case_type_hint)]
    (make_agent_trigger actor (Some key)) (Some key) (Some candidate_id) in
  ret [("run_id", JStr (run_id run)); ("status", JStr (run_status_value (run_status run)));
       ("current_step", jopt (run_current_step run));
       ("is_new", JBool (String.eqb (run_id run) candidate_id))].
End Workflow.

(** ** Parsing *)

Lemma required_gap_spec cfg f conf req g :
  g ∈ required_gap cfg f conf req ->
  ig_field g = req /\
  (attr_missing req f = true /\ ig_severity g = "block" \/
   attr_missing req f = false /\ ig_severity g = "warn" /\
     exists q, dget req conf = Some q /\ (q < ic_confidence_threshold cfg)%Q \/ (1 < ic_confidence_threshold cfg)%Q).
Proof.
  unfold required_gap. destruct (attr_missing req f); [intros ->%list_elem_of_singleton; by split; [|left]|].
  destruct (Qle_bool _ _) eqn:E; cbn [negb]; [by intros ?%elem_of_nil|].
  intros ->%list_elem_of_singleton. split; [done|]. right. do 2 (split; [done|]).
  assert (~ (ic_confidence_threshold cfg <= match dget req conf with Some q => q | None => 1 end)%Q) as Hlt
    by (rewrite <- Qle_bool_iff; congruence).
  apply Qnot_le_lt in Hlt. destruct (dget req conf) as [q|].
  - exists q. by left.
  - exists 0%Q. by right.
Qed.

Lemma parse_lead_run email_validate pattern lead proposal hint cfg f gaps :
  parse_lead email_validate pattern lead proposal hint cfg = Ok (f, gaps) ->
  exists case_cfg type_gaps, let conf := snd (take_proposal (ld_raw lead) proposal) in
    get_case_type cfg (if_case_type f) = Ok case_cfg /\ (type_gaps = [] \/ type_gaps = [no_case_type]) /\
    gaps = type_gaps ++ flat_map (required_gap cfg f conf) (cc_required_fields case_cfg).
Proof.
  unfold parse_lead. destruct (take_proposal (ld_raw lead) proposal) as [raw conf]. unfold res_bind at 1.
  destruct (make_fields email_validate pattern raw hint conf) as [f0|e]; [|done]. cbv zeta.
  unfold res_bind at 1.
  destruct (get_case_type cfg _) as [case_cfg|e] eqn:Ec; [|done]. intros [= <- <-].
  eexists case_cfg, _. split; [|split; [|reflexivity]].
  - destruct (if_case_type f0) as [t|] eqn:Et; cbn [opt_truthy]; [|exact Ec].
    destruct (str_truthy t) eqn:Ett; cbn; [|exact Ec]. by rewrite Et.
  - destruct (opt_truthy (if_case_type f0)); [by left|]. destruct hint; auto.
Qed.

(** Parsing reports what is missing.  The block gaps of a parsed lead are
    exactly the required fields of its case type that are missing or blank, and
    any other gap is the undetermined case type or a required field whose
    recorded confidence is below the threshold. *)
Lemma parse_gaps_exact email_validate pattern lead proposal hint cfg f gaps :
  parse_lead email_validate pattern lead proposal hint cfg = Ok (f, gaps) ->
  (ic_confidence_threshold cfg <= 1)%Q ->
  exists case_cfg, get_case_type cfg (if_case_type f) = Ok case_cfg /\
    (forall name, (exists g, g ∈ gaps /\ ig_severity g = "block" /\ ig_field g = name) <->
       name ∈ cc_required_fields case_cfg /\ attr_missing name f = true) /\
    (forall g, g ∈ gaps -> ig_severity g <> "block" ->
       g = no_case_type \/
       ig_field g ∈ cc_required_fields case_cfg /\ attr_missing (ig_field g) f = false /\
         exists q, dget (ig_field g) (snd (take_proposal (ld_raw lead) proposal)) = Some q /\
           (q < ic_confidence_threshold cfg)%Q).
Proof.
  intros H Hthr. apply parse_lead_run in H as (case_cfg & tg & Hc & Htg & ->).
  exists case_cfg. split; [done|]. set (conf := snd _).
  assert (forall g, g ∈ flat_map (required_gap cfg f conf) (cc_required_fields case_cfg) <->
    exists req, req ∈ cc_required_fields case_cfg /\ g ∈ required_gap cfg f conf req) as Hin.
  { intros g. rewrite list_elem_of_In, in_flat_map. setoid_rewrite <- list_elem_of_In. done. }
  split.
  - intros name. split.
    + intros (g & Hg & Hs & <-). apply elem_of_app in Hg as [Hg|Hg].
      * destruct Htg as [->| ->]; [by apply elem_of_nil in Hg|]. apply list_elem_of_singleton in Hg. by subst.
      * apply Hin in Hg as (req & Hr & Hg). apply required_gap_spec in Hg as (<- & [[Hm _]|(_ & Hw & _)]); [done|].
        by rewrite Hw in Hs.
    + intros [Hr Hm]. eexists. split; [apply elem_of_app; right; apply Hin; exists name; split; [done|]|].
      * unfold required_gap. rewrite Hm. apply list_elem_of_singleton. reflexivity.
      * done.
  - intros g Hg Hs. apply elem_of_app in Hg as [Hg|Hg].
    + left. destruct Htg as [->| ->]; [by apply elem_of_nil in Hg|]. by apply list_elem_of_singleton in Hg.
    + right. apply Hin in Hg as (req & Hr & Hg). apply required_gap_spec in Hg as (<- & [[_ Hb]|(Hm & _ & q & Hq)]);
        [by rewrite Hb in Hs|]. split; [done|]. split; [done|]. destruct Hq as [Hq|Hq]; [by exists q|].
      exfalso. by apply (Qlt_not_le _ _ Hq).
Qed.

(** The confidence of a proposal's field is filed under its dotted domain key,
    the required fields have plain names: a dotted confidence never makes a gap. *)
Lemma dotted_confidence_ignored cfg f proposal raw req :
  Forall (fun x => xf_key x <> req) (xp_fields proposal) -> (ic_confidence_threshold cfg <= 1)%Q ->
  attr_missing req f = false -> required_gap cfg f (snd (take_proposal raw (Some proposal))) req = [].
Proof.
  intros Hk Ht Hm. unfold required_gap. rewrite Hm.
  assert (dget req (snd (take_proposal raw (Some proposal))) = None) as ->.
  { unfold take_proposal.
    assert (forall d : dict string Q, dget req d = None -> forall r,
      dget req (snd (fold_left take_field (xp_fields proposal) (r, d))) = None) as Hf; [|by apply Hf].
    induction Hk as [|x l Hx Hl IH]; intros d Hd r; cbn [fold_left]; [done|].
    assert (dget req (dset (xf_key x) (xf_confidence x) d) = None) as Hd' by (rewrite dget_dset_ne; congruence).
    unfold take_field at 2. destruct (str_in _ _); [destruct (jget _ _)|]; by apply IH. }
  apply Qle_bool_iff in Ht. by rewrite Ht.
Qed.

(** The service is asked not to structure, so its proposal has no field. *)
Lemma unstructured_extraction_empty {T V} uuids sha dec env txt ocr llm profiles audit inp content
    (s s' : sys T V) x :
  xi_structuring inp = false ->
  extract uuids sha dec env txt ocr llm profiles audit inp content s = (s', Ok x) -> xp_fields x = [].
Proof.
  intros Hs. unfold extract. intros H. inv_bind H. destruct (_ =? 0); [done|]. destruct (_ <? _); [done|].
  inv_bind H. destruct a0 as [[c all] ws]. inv_bind H. unfold on_world, zoom, structure_stage in Hb1.
  rewrite Hs in Hb1. cbn in Hb1. assert (a0 = unstructured) as ->.
  { destruct llm; by injection Hb1 as <- <-. }
  cbn in H. inv_bind H. by injection H as <- <-.
Qed.

(** ** Deduplication *)

Definition same_email (f : IntakeFields) (c : Contact) : Prop :=
  exists e, if_email f = Some e /\ e <> EmptyString /\ ct_email c = Some e.

Definition same_a_number (f : IntakeFields) (c : Contact) : Prop :=
  exists a, if_a_number f = Some a /\ a <> EmptyString /\ dget "a_number" (ct_external_ids c) = Some a.

(** [c] is the one candidate with the property, the others are not. *)
Definition only_one (P : Contact -> Prop) (cs : list Contact) (c : Contact) : Prop :=
  exists pre post, cs = pre ++ c :: post /\ P c /\ forall c', c' ∈ pre ++ post -> ~ P c'.

Lemma bfilter_singleton {A} (p : A -> bool) l x :
  bfilter p l = [x] <-> exists pre post, l = pre ++ x :: post /\ p x = true /\
                          forall y, y ∈ pre ++ post -> p y = false.
Proof.
  split.
  - induction l as [|y l IH]; cbn; [done|]. destruct (p y) eqn:E.
    + intros [= -> Hl]. exists [], l. split; [done|]. split; [done|]. intros z Hz. cbn in Hz.
      destruct (p z) eqn:Ez; [|done]. assert (z ∈ bfilter p l) as Hin by (by apply elem_of_bfilter).
      rewrite Hl in Hin. by apply elem_of_nil in Hin.
    + intros H. destruct (IH H) as (pre & post & -> & Hx & Hn). exists (y :: pre), post. split; [done|].
      split; [done|]. intros z [->|Hz]%elem_of_cons; [done|by apply Hn].
  - intros (pre & post & -> & Hx & Hn). rewrite bfilter_app. cbn. rewrite Hx.
    rewrite !bfilter_none; [done| |]; intros y Hy; apply Hn, elem_of_app; auto.
Qed.

Lemma email_matches_one f cs c : email_matches f cs = [c] <-> only_one (same_email f) cs c.
Proof.
  unfold email_matches, only_one, same_email.
  destruct (if_email f) as [e|]; [|split; [done|]; by intros (pre & post & _ & (e & ? & _) & _)].
  unfold str_truthy. destruct (String.eqb_spec e EmptyString) as [->|Hne]; cbn [negb].
  { split; [done|]. intros (pre & post & _ & (e & He & Hn & _) & _). by injection He as <-. }
  assert (forall c, String.eqb (match ct_email c with Some x => x | None => EmptyString end) e = true <->
    exists e0, Some e = Some e0 /\ e0 <> EmptyString /\ ct_email c = Some e0) as Hp.
  { intros c0. rewrite String.eqb_eq. split.
    - intros H. exists e. split; [done|]. split; [done|]. destruct (ct_email c0); congruence.
    - intros (e0 & [= <-] & _ & ->). done. }
  rewrite bfilter_singleton. split; intros (pre & post & E & H1 & H2); exists pre, post; (split; [done|]).
  - split; [by apply Hp|]. intros c' Hc' Hs. apply Hp in Hs. rewrite (H2 c' Hc') in Hs. done.
  - split; [by apply Hp|]. intros c' Hc'. apply not_true_is_false. rewrite Hp. by apply H2.
Qed.

Lemma a_number_matches_one f cs c : a_number_matches f cs = [c] <-> only_one (same_a_number f) cs c.
Proof.
  unfold a_number_matches, only_one, same_a_number.
  destruct (if_a_number f) as [a|]; [|split; [done|]; by intros (pre & post & _ & (e & ? & _) & _)].
  unfold str_truthy. destruct (String.eqb_spec a EmptyString) as [->|Hne]; cbn [negb].
  { split; [done|]. intros (pre & post & _ & (e & He & Hn & _) & _). by injection He as <-. }
  assert (forall c, bool_decide (dget "a_number" (ct_external_ids c) = Some a) = true <->
    exists e0, Some a = Some e0 /\ e0 <> EmptyString /\ dget "a_number" (ct_external_ids c) = Some e0) as Hp.
  { intros c0. rewrite bool_decide_eq_true. split.
    - intros H. exists a. done.
    - intros (e0 & [= <-] & _ & ->). done. }
  rewrite bfilter_singleton. split; intros (pre & post & E & H1 & H2); exists pre, post; (split; [done|]).
  - split; [by apply Hp|]. intros c' Hc' Hs. apply Hp in Hs. rewrite (H2 c' Hc') in Hs. done.
  - split; [by apply Hp|]. intros c' Hc'. apply not_true_is_false. rewrite Hp. by apply H2.
Qed.

(** Contacts are never merged on a guess.  A contact is reused only when it is
    the one candidate with the lead's address or the one with its A-number, and
    it is when it is the one with the address; the contact is new exactly when
    there are no candidates; in every other case the decision is ambiguous, and
    then, and only then, there is a gap, which blocks. *)
Lemma dedupe_never_guesses f cs r gaps :
  decide_duplicate f cs = (r, gaps) ->
  (dd_decision r = ReuseContact -> exists c, dd_contact_match r = Some (match_ref 1 c) /\ gaps = [] /\
     (only_one (same_email f) cs c \/ only_one (same_a_number f) cs c)) /\
  (forall c, only_one (same_email f) cs c -> r = reuse c) /\
  (dd_decision r = NewContact <-> cs = []) /\
  (dd_decision r = Ambiguous <-> exists g, gaps = [g] /\ ig_severity g = "block" /\ ig_field g = "contact_id").
Proof.
  intros H. assert (forall c, only_one (same_email f) cs c -> r = reuse c) as Hemail.
  { intros c Hc. apply email_matches_one in Hc. unfold decide_duplicate in H. rewrite Hc in H.
    destruct cs as [|c0 others]; [|by injection H as <- <-]. unfold email_matches in Hc.
    destruct (if_email f) as [e|]; [destruct (str_truthy e)|]; done. }
  assert (forall c, r = reuse c -> gaps = [] -> dd_decision r = NewContact <-> cs = []) as Hnew.
  { intros c -> _. split; [done|]. intros ->. by injection H. }
  unfold decide_duplicate in H.
  destruct cs as [|c0 others].
  { injection H as <- <-. refine (conj _ (conj Hemail (conj _ _))); [done|done|]. split; [done|]. by intros (g & ? & _). }
  set (cs := c0 :: others) in *.
  destruct (email_matches f cs) as [|e [|e2 es]] eqn:Ee.
  2: { injection H as <- <-. refine (conj _ (conj Hemail (conj _ _))); [|by apply (Hnew e)|split; [done|]; by intros (g & ? & _)].
       intros _. exists e. do 2 (split; [done|]). left. by apply email_matches_one. }
  all: destruct (a_number_matches f cs) as [|a [|a2 l]] eqn:Ea.
  2, 5: injection H as <- <-; (refine (conj _ (conj Hemail (conj _ _))); [|by apply (Hnew a)|split; [done|]; by intros (g & ? & _)]);
       intros _; exists a; do 2 (split; [done|]); right; by apply a_number_matches_one.
  all: destruct others; injection H as <- <-; refine (conj _ (conj Hemail (conj _ _))); try done;
       split; try done; intros _; by eexists.
Qed.

(** ** What sends mail *)

Section IntakeProps.
Context {S V : Type} {SCH : Scheduler S V} {CRM : CRMConnector V} {CC : CaseConnector V} {EC : EmailConnector V}.
Context {EL : EmailLaws V}.
Context {PL : PyModel LeadPayload} {PF : PyModel IntakeFields} {PG : PyModel IntakeGap} {PD : PyModel DedupeResult}.
Context {PC : PyModel Contact} {PM : PyModel Matter}.
Context (clock : nat -> datetime) (uuids : nat -> string) (sha256_hex uuid5 : string -> string).
Context (email_validate : string -> res string) (a_number_pattern : option (string -> bool)).
Context (rules : RuleStore) (cfg : IntakeConfig).

Abbreviation world := (sys (DState S) V).
Context (extraction : option (ExtractInput -> string -> M world ExtractionProposal)).

Abbreviation handlers := (intake_handlers clock uuids sha256_hex uuid5 email_validate a_number_pattern rules cfg
                            extraction).
Abbreviation call := (call_steps handlers).

(** The other ports send no mail. *)
Context (Hcrm : forall c, sends_nothing (crm_upsert_contact c)) (Hfind : forall q, sends_nothing (crm_find_contact q)).
Context (Hcase : forall d, sends_nothing (cc_create_matter d)).
Context (Harm : forall L t ref key, keeps (unsent L) (arm (W := V) t ref key)).
Context (Hext : forall L ex i b, extraction = Some ex -> keeps (unsent L) (ex i b)).

Lemma unsent_search L q : keeps (unsent (T := DState S) L) (search_contacts q).
Proof. unfold search_contacts. apply keeps_try_except; [auto with cam|]. intros; apply keeps_ret. Qed.

Lemma unsent_dedupe L f : keeps (unsent (T := DState S) L) (dedupe_contact f).
Proof.
  pose proof (unsent_search L). unfold dedupe_contact, find_candidates.
  apply keeps_bind; [|intros; apply keeps_ret]. apply keeps_bind.
  - destruct (if_email f) as [e|]; [destruct (str_truthy e)|]; auto with cam.
  - intros [|c l]; [|apply keeps_ret]. destruct (if_full_name f) as [n|]; [destruct (str_truthy n)|]; auto with cam.
Qed.

Lemma unsent_create_contact L f d rid : keeps (unsent (T := DState S) L) (create_contact uuids f d rid).
Proof.
  unfold create_contact. destruct (dd_decision d), (dd_contact_match d); keep_going; auto with cam.
Qed.

Lemma unsent_create_matter L f c cc rid : keeps (unsent (T := DState S) L) (create_matter_step clock f c cc rid).
Proof. unfold create_matter_step. keep_going; auto with cam. Qed.

Lemma unsent_on_sched {A} L (m : M (sys S V) A) : keeps (unsent L) m -> keeps (unsent L) (on_sched m).
Proof. apply world_zoom_sys. Qed.

Lemma unsent_on_deadlines {A} L (m : M DeadlineStore A) : keeps (unsent L) (on_deadlines (S := S) (W := V) m).
Proof. apply world_on_store. Qed.

Hint Resolve unsent_search unsent_dedupe unsent_create_contact unsent_create_matter unsent_on_sched
  unsent_on_deadlines : cam.

Lemma unsent_reminder L now key due rem :
  keeps (unsent L) (resolve_reminder (S := S) (W := V) uuids now key due rem).
Proof. unfold resolve_reminder. keep_going. Qed.

Lemma unsent_schedule L mid rule inputs rr key now :
  keeps (unsent L) (tool_deadline_schedule (S := S) (W := V) clock uuids sha256_hex None mid rule inputs rr key now).
Proof.
  pose proof (unsent_reminder L). unfold tool_deadline_schedule.
  apply keeps_bind; [destruct now; auto with cam|]. intros t.
  apply keeps_bind; [auto with cam|]. intros [sd|]; [apply keeps_ret|].
  apply keeps_bind; [auto with cam|]. intros trace. destruct (dt_lt _ _).
  - unfold schedule_past_due, save, schedule_audit. keep_going; auto with cam.
  - unfold schedule_new, save, schedule_audit. keep_going.
Qed.

Lemma unsent_deadlines L m cc rid : keeps (unsent (T := DState S) L) (compute_deadlines clock uuids sha256_hex rules m cc rid).
Proof.
  unfold compute_deadlines. apply keeps_bind; [auto with cam|]. intros now.
  induction (cc_deadline_rule_ids cc) as [|rule_id l IH]; cbn [schedule_rules]; [apply keeps_ret|].
  apply keeps_bind; [|intros; apply keeps_bind; [exact IH|intros; apply keeps_ret]].
  unfold schedule_rule. apply keeps_try_except; [|by intros []; auto with cam].
  pose proof (fun r => unsent_schedule L (mt_id m) r) as Hs. keep_going.
Qed.

Lemma unsent_welcome L m c f : keeps (unsent (T := DState S) L) (draft_welcome uuids m c f).
Proof. unfold draft_welcome. keep_going. Qed.

Lemma unsent_propose L ctx lead : keeps (unsent L) (propose extraction ctx lead).
Proof.
  unfold propose. destruct extraction as [ex|] eqn:E; [|apply keeps_ret].
  destruct (json_truthy _); [|apply keeps_ret].
  apply keeps_try_except; [|intros; apply keeps_ret]. pose proof (fun i b => Hext L ex i b eq_refl). keep_going.
Qed.

Hint Resolve unsent_deadlines unsent_welcome unsent_propose : cam.

Lemma intake_before_gate L rid context outputs : keeps (unsent L) (call rid context (take 7 INTAKE_STEPS) outputs).
Proof.
  apply keeps_call_steps. intros step Hs. cbn [take INTAKE_STEPS] in Hs.
  rewrite !elem_of_cons, elem_of_nil in Hs. destruct Hs as [->|[->|[->|[->|[->|[->|[->|[]]]]]]]];
    (eexists; split; [reflexivity|]; intros ctx; unfold parse_lead_step, dedupe_contact_step, create_contact_step,
       create_matter_handler, compute_deadlines_step, open_tasks_step, draft_welcome_step; cbv zeta); keep_going.
Qed.
(** C34: one welcome per run, and not before the gate.  Up to the gate the
    workflow sends no mail, whatever its context, the outputs it finds and the
    faults of the connectors.  The step after the gate touches no message but
    the one under this run's key, which once sent stays what it is; when the step
    returns, that message is recorded and is what the step reports, so that
    running it again reports the same message. *)
Theorem welcome_sent_once rid context :
  let key := welcome_key rid in
  let sent (w : world) := ec_sent (sys_world w) in
  (forall outputs w, sent (fst (call rid context (take 7 INTAKE_STEPS) outputs w)) = sent w) /\
  (forall outputs (w w' : world) r, call rid context ["send_welcome"] outputs w = (w', r) ->
     (forall k, k <> key -> dget k (sent w') = dget k (sent w)) /\
     (forall m, dget key (sent w) = Some m -> dget key (sent w') = Some m) /\
     forall outs, r = Ok outs -> exists m, dget key (sent w') = Some m /\
       dget "send_welcome" outs = Some (JDict [("message_id", JStr m)])).
Proof.
  intros key sent. split; [intros outputs w; exact (intake_before_gate _ rid context outputs w eq_refl)|].
  intros outputs w w' r. cbn [call_steps]. unfold bind at 1.
  rewrite (call_step_method handlers rid context "send_welcome" outputs _ w eq_refl).
  set (ctx := new_context rid context outputs (step_key rid "send_welcome")).
  unfold send_welcome_step, send_welcome, lift_res, bind, on_world, zoom.
  destruct (prior_output "draft_welcome" ctx) as [out|e]; [|by intros [= <- <-]].
  assert (forall e, (w, Err (A := jdict) e) = (w', r) -> (forall k, k <> key -> dget k (sent w') = dget k (sent w)) /\
     (forall m, dget key (sent w) = Some m -> dget key (sent w') = Some m) /\
     forall outs, r = Ok outs -> exists m, dget key (sent w') = Some m /\
       dget "send_welcome" outs = Some (JDict [("message_id", JStr m)])) as Hraise by (by intros e [= <- <-]).
  destruct (dget_or "draft_id" (JStr EmptyString) out); try (by apply Hraise).
  change (ctx_run_id ctx) with rid. fold key.
  pose proof (send_other_keys s key) as Ho. pose proof (send_keeps s key (sys_world w)) as Hk.
  destruct (ec_send s key (sys_world w)) as [v [m|e]] eqn:E; intros [= <- <-]; unfold sent; cbn;
    (split; [intros k Hne; specialize (Ho k (sys_world w) Hne); by rewrite E in Ho|]; split; [done|]); [|done].
  intros outs [= <-]. exists m. split; [by apply (send_records _ _ _ _ _ E)|]. unfold set_output. by rewrite dget_dset_eq.
Qed.
End IntakeProps.

(** ** Starting a run *)

Section IntakeRun.
Context {S V : Type} {PL : PyModel LeadPayload}.
Context (sha256_hex : string -> string) (py_str : json -> string) (dump_json : LeadPayload -> jdict).
Context (o_clock : nat -> datetime) (o_uuids : nat -> string) (reg : registry (sys (DState S) V)).

Abbreviation osys := (sys RunStore (sys (DState S) V)).
Abbreviation run_tool lead hint key actor :=
  (tool_intake_run sha256_hex py_str o_clock o_uuids reg lead dump_json hint key actor).

(** The key a call stands under, and what it answers for the run [r]. *)
Definition intake_key (lead : LeadPayload) (key : option string) : string :=
  match key with Some k => k | None => lead_key sha256_hex py_str lead end.

Definition intake_answer (r : WorkflowRun) (candidate : string) : jdict :=
  [("run_id", JStr (run_id r)); ("status", JStr (run_status_value (run_status r)));
   ("current_step", jopt (run_current_step r)); ("is_new", JBool (String.eqb (run_id r) candidate))].

Definition intake_context (lead : LeadPayload) (hint : option string) : jdict :=
  [("lead", JDict (dump_json lead)); ("case_type_hint", jopt hint)].

Definition drawn (s : osys) : osys :=
  mk_sys (sys_store s) (sys_world s) (sys_ticks s) (Datatypes.S (sys_uuids s)).

Lemma tool_intake_start lead hint key actor (s s' : osys) out :
  run_tool lead hint key actor s = (s', Ok out) ->
  let k := intake_key lead key in let candidate := o_uuids (sys_uuids s) in
  exists r, out = intake_answer r candidate /\
    start_run o_clock o_uuids reg "intake" (intake_context lead hint) (make_agent_trigger actor (Some k)) (Some k)
      (Some candidate) (drawn s) = (s', Ok r).
Proof.
  unfold tool_intake_run. fold (intake_key lead key). generalize (intake_key lead key). intros k. cbv zeta. intros H.
  inv_bind H. injection Hb as <- <-. inv_bind H. injection H as <- <-. eexists. split; [reflexivity|]. exact Hb.
Qed.

(** One run per lead.  A call that answers has not touched the outside world;
    its key, the one given or the one derived from the lead, stands for the run
    it answers with.  A new key starts a queued intake run for this lead, under
    the id just drawn, and says so; and every later call under the key, with
    whatever lead, hint and actor, answers with the same run and leaves the
    store as it was. *)
Lemma lead_starts_one_run lead hint key actor (s s1 : osys) out1 :
  let k := intake_key lead key in
  let candidate := o_uuids (sys_uuids s) in
  store_wf (sys_store s) -> k <> EmptyString -> run_tool lead hint key actor s = (s1, Ok out1) ->
  sys_world s1 = sys_world s /\
  exists r, dget k (rs_dedupe (sys_store s1)) = Some (run_id r) /\
    dget (run_id r) (rs_runs (sys_store s1)) = Some r /\ out1 = intake_answer r candidate /\
    (dget k (rs_dedupe (sys_store s)) = None -> run_status r = QUEUED /\ run_workflow r = "intake" /\
       run_context r = intake_context lead hint /\
       (candidate <> EmptyString -> dget "is_new" out1 = Some (JBool true))) /\
    forall lead2 hint2 key2 actor2 s2 out2, intake_key lead2 key2 = k ->
      run_tool lead2 hint2 key2 actor2 s1 = (s2, Ok out2) ->
      out2 = intake_answer r (o_uuids (sys_uuids s1)) /\ sys_store s2 = sys_store s1 /\ sys_world s2 = sys_world s1.
Proof.
  intros k candidate Hwf Hne H. apply tool_intake_start in H as (r & -> & H). fold k candidate in H |- *. clearbody k.
  destruct (start_run_keyed _ _ _ _ _ _ _ _ _ _ _ k (Hwf : store_wf (sys_store (drawn s))) (agent_key _ _) Hne H)
    as (Hw & Hwf1 & Hk & Hg & Hnew).
  split; [exact Hw|]. exists r. do 3 (split; [done|]). split.
  - intros E. change (sys_store (drawn s)) with (sys_store s) in Hnew. rewrite E in Hnew.
    destruct Hnew as (Hq & Hn & Hctx & Hid). do 3 (split; [done|]). intros Hc. cbn. by rewrite (Hid _ eq_refl Hc), String.eqb_refl.
  - intros lead2 hint2 key2 actor2 s2 out2 Ek H2. apply tool_intake_start in H2 as (r2 & -> & H2). rewrite Ek in H2.
    destruct (start_run_keyed _ _ _ _ _ _ _ _ _ _ _ k (Hwf1 : store_wf (sys_store (drawn s1))) (agent_key _ _) Hne H2)
      as (Hw2 & _ & Hk2 & Hg2 & Hst).
    change (sys_store (drawn s1)) with (sys_store s1) in Hst. rewrite Hk in Hst. rewrite Hst in Hk2, Hg2. rewrite Hk in Hk2.
    assert (run_id r2 = run_id r) as E by congruence. rewrite E in Hg2. assert (r2 = r) as -> by congruence. done.
Qed.

(** The key of a lead without an event id is made of its e-mail address and
    name.  Leads that give neither share one key per channel: all but the first
    are taken for repetitions of it. *)
Lemma anonymous_leads_collide lead1 lead2 :
  ld_source_channel lead1 = ld_source_channel lead2 ->
  Forall (fun l => opt_truthy (ld_provider_event_id l) = false /\
            Forall (fun k => dget k (ld_raw l) = None) ["email"; "full_name"; "name"]) [lead1; lead2] ->
  lead_key sha256_hex py_str lead1 = lead_key sha256_hex py_str lead2.
Proof.
  intros Hc H. inversion_clear H as [|? ? [He1 H1] H']. inversion_clear H' as [|? ? [He2 H2] _].
  apply Forall_cons in H1 as [H11 H1]. apply Forall_cons in H1 as [H12 H1]. apply Forall_cons in H1 as [H13 _].
  apply Forall_cons in H2 as [H21 H2]. apply Forall_cons in H2 as [H22 H2]. apply Forall_cons in H2 as [H23 _].
  unfold lead_key, dget_or. by rewrite He1, He2, H11, H12, H13, H21, H22, H23, Hc.
Qed.
End IntakeRun.

(** ** Deadlines at intake

    Every rule of the case type is given one input, [trigger_date].  A rule with
    another trigger makes the step, and so the run, fail. *)
Lemma other_trigger_fails {S V} {SCH : Scheduler S V} clock uuids sha rules matter rid rule_id now rule version
    (w : sys (DState S) V) :
  active rule_id "US" rules = Ok rule -> rule_version rule_id "US" rules = Ok version ->
  dr_trigger rule <> "trigger_date" ->
  dl_get_by_idem (rid +:+ ":deadline:" +:+ rule_id) (ds_store (sys_store w)) = None ->
  snd (schedule_rule clock uuids sha rules matter rid rule_id now w) = Err (MissingTriggerError (dr_trigger rule)).
Proof.
  intros Ha Hv Ht Hn. unfold schedule_rule, try_except, bind at 1, lift_res. rewrite Ha. unfold bind at 1. rewrite Hv.
  unfold bind at 1, tool_deadline_schedule, bind at 1, ret at 1.
  unfold bind at 1, on_deadlines, on_store, zoom, gets. cbn. rewrite Hn.
  unfold compute_due_date, bind, lift_res. cbn. destruct (decide _); [congruence|]. done.
Qed.

(** ** A concrete firm

    Dumps of the records, the reference adapters, an in-memory scheduler, and the
    identity in place of the hashes. *)

Definition int_field (k : string) (d : jdict) : res Z :=
  match dget k d with Some (JInt n) => Ok n | _ => Err (ValidationError k) end.

Definition dict_field (k : string) (d : jdict) : res jdict :=
  match dget k d with Some (JDict x) => Ok x | _ => Err (ValidationError k) end.

Definition dt_fields (t : datetime) : jdict :=
  [("day", JInt (dt_date t)); ("us", JInt (dt_us t)); ("off", JInt (dt_off t))].

Definition of_dt_fields (d : jdict) : res datetime :=
  letr! day := int_field "day" d in letr! us := int_field "us" d in letr! off := int_field "off" d in
  Ok (mk_datetime day us off).

Definition dump_ids (ids : dict string string) : json := JDict (map (fun p => (p.1, JStr p.2)) ids).

Definition ids_field (k : string) (d : jdict) : res (dict string string) :=
  letr! x := dict_field k d in
  map_res (fun p => match p.2 with JStr s => Ok (p.1, s) | _ => Err (ValidationError k) end) x.

Definition strs_field (k : string) (d : jdict) : res (list string) :=
  match dget k d with Some j => str_list_value j | None => Err (ValidationError k) end.

Definition dump_contact (c : Contact) : jdict :=
  [("id", JStr (ct_id c)); ("source", JStr (ct_source c)); ("name", JStr (ct_name c)); ("email", jopt (ct_email c));
   ("phone", jopt (ct_phone c)); ("role", jopt (ct_role c)); ("external_ids", dump_ids (ct_external_ids c))].

Definition read_contact (d : jdict) : res Contact :=
  letr! id := str_field "id" d in letr! source := str_field "source" d in letr! name := str_field "name" d in
  letr! email := opt_str_field "email" d in letr! phone := opt_str_field "phone" d in
  letr! role := opt_str_field "role" d in letr! ids := ids_field "external_ids" d in
  Ok (mk_Contact id source name email phone role ids).

(** A matter without key dates: intake's are. *)
Definition dump_matter (m : Matter) : jdict :=
  [("id", JStr (mt_id m)); ("source", JStr (mt_source m)); ("reference", JStr (mt_reference m));
   ("title", JStr (mt_title m)); ("status", JStr (mt_status m)); ("practice_area", jopt (mt_practice_area m));
   ("client", JDict (dump_contact (mt_client m))); ("responsible", jopt (mt_responsible m));
   ("opened_at", JDict (dt_fields (mt_opened_at m))); ("external_ids", dump_ids (mt_external_ids m))].

Definition read_matter (d : jdict) : res Matter :=
  letr! id := str_field "id" d in letr! source := str_field "source" d in
  letr! reference := str_field "reference" d in letr! title := str_field "title" d in
  letr! status := str_field "status" d in letr! area := opt_str_field "practice_area" d in
  letr! c := dict_field "client" d in letr! client := read_contact c in
  letr! responsible := opt_str_field "responsible" d in
  letr! t := dict_field "opened_at" d in letr! opened := of_dt_fields t in
  letr! ids := ids_field "external_ids" d in
  Ok (mk_Matter id source reference title status area client responsible opened [] ids).

Definition dump_lead (l : LeadPayload) : jdict :=
  [("source_channel", JStr (ld_source_channel l)); ("received_at", JDict (dt_fields (ld_received_at l)));
   ("raw", JDict (ld_raw l)); ("provider_event_id", jopt (ld_provider_event_id l))].

Definition read_lead (d : jdict) : res LeadPayload :=
  letr! channel := str_field "source_channel" d in letr! t := dict_field "received_at" d in
  letr! received := of_dt_fields t in letr! raw := dict_field "raw" d in
  letr! event := opt_str_field "provider_event_id" d in
  Ok (mk_LeadPayload channel received raw [] event).

(** The confidences are left out. *)
Definition dump_fields (f : IntakeFields) : jdict :=
  [("full_name", jopt (if_full_name f)); ("dob", jopt (if_dob f)); ("email", jopt (if_email f));
   ("a_number", jopt (if_a_number f)); ("case_type", jopt (if_case_type f));
   ("prior_filings", jstrs (if_prior_filings f)); ("lead_source", jopt (if_lead_source f))].

Definition read_fields (d : jdict) : res IntakeFields :=
  letr! full_name := opt_str_field "full_name" d in letr! dob := opt_str_field "dob" d in
  letr! email := opt_str_field "email" d in letr! a_number := opt_str_field "a_number" d in
  letr! case_type := opt_str_field "case_type" d in letr! filings := strs_field "prior_filings" d in
  letr! source := opt_str_field "lead_source" d in
  Ok (mk_IntakeFields full_name dob None email None None None a_number None case_type filings source None []).

Definition dump_gap (g : IntakeGap) : jdict :=
  [("field", JStr (ig_field g)); ("reason", JStr (ig_reason g)); ("severity", JStr (ig_severity g))].

Definition read_gap (d : jdict) : res IntakeGap :=
  letr! field := str_field "field" d in letr! reason := str_field "reason" d in
  letr! severity := str_field "severity" d in Ok (mk_IntakeGap field reason severity).

Definition dedupe_decision_value (d : DedupeDecision) : string :=
  match d with ReuseContact => "reuse_contact" | NewContact => "new_contact" | Ambiguous => "ambiguous" end.

Definition dump_match (m : option MatchRef) : json :=
  match m with
  | Some m => JDict [("contact_id", JStr (mr_contact_id m)); ("source", JStr (mr_source m)); ("score", JFloat (mr_score m))]
  | None => JNull
  end.

Definition dump_dedupe (r : DedupeResult) : jdict :=
  [("contact_match", dump_match (dd_contact_match r)); ("matter_match", dump_match (dd_matter_match r));
   ("decision", JStr (dedupe_decision_value (dd_decision r))); ("score", JFloat (dd_score r))].

Definition float_field (k : string) (d : jdict) : res Q :=
  match dget k d with Some (JFloat q) => Ok q | None => Ok 0%Q | _ => Err (ValidationError k) end.

Definition match_field (k : string) (d : jdict) : res (option MatchRef) :=
  match dget k d with
  | Some (JDict m) =>
      letr! id := str_field "contact_id" m in letr! source := str_field "source" m in
      letr! score := float_field "score" m in Ok (Some (mk_MatchRef id source score))
  | Some JNull | None => Ok None
  | _ => Err (ValidationError k)
  end.

Definition read_dedupe (d : jdict) : res DedupeResult :=
  letr! contact := match_field "contact_match" d in letr! matter := match_field "matter_match" d in
  letr! name := str_field "decision" d in
  letr! decision := or_raise (ValidationError "decision")
    (dget name [("reuse_contact", ReuseContact); ("new_contact", NewContact); ("ambiguous", Ambiguous)]) in
  letr! score := float_field "score" d in
  Ok (mk_DedupeResult contact matter decision score).

#[local] Instance lead_model : PyModel LeadPayload := { model_dump := dump_lead; model_validate := read_lead }.
#[local] Instance fields_model : PyModel IntakeFields := { model_dump := dump_fields; model_validate := read_fields }.
#[local] Instance gap_model : PyModel IntakeGap := { model_dump := dump_gap; model_validate := read_gap }.
#[local] Instance dedupe_model : PyModel DedupeResult := { model_dump := dump_dedupe; model_validate := read_dedupe }.
#[local] Instance contact_model : PyModel Contact := { model_dump := dump_contact; model_validate := read_contact }.
#[local] Instance matter_model : PyModel Matter := { model_dump := dump_matter; model_validate := read_matter }.

Definition in_supply (n : nat) : string := "u" +:+ pretty (Z.of_nat n).

#[local] Instance in_case : CaseConnector RefWorld := ref_case in_supply.
#[local] Instance in_crm : CRMConnector RefWorld := ref_crm in_supply.
#[local] Instance in_email : EmailConnector RefWorld := ref_email in_supply.
#[local] Instance in_email_laws : EmailLaws RefWorld := ref_email_laws in_supply.
#[local] Instance in_sched : Scheduler MemScheduler RefWorld := mem_scheduler (fun _ => example_time) in_supply.

Abbreviation in_world := (sys (DState MemScheduler) RefWorld).

Definition in_firm (contacts : list Contact) : in_world :=
  mk_sys (mk_DState empty_deadline_store (mk_MemScheduler [] example_time false))
    (set_crm (mk_Adapter (map (fun c => (ct_id c, c)) contacts) None) empty_ref_world) 0 0.

Definition in_lead (raw : jdict) : LeadPayload := mk_LeadPayload "web" example_time raw [] None.

Abbreviation in_handlers := (intake_handlers (S := MemScheduler) (V := RefWorld) (fun _ => example_time) in_supply
  (fun s => s) (fun s => s) Ok None [] default_intake_config None).

(** The steps up to the gate, from nothing. *)
Abbreviation in_before lead contacts :=
  (call_steps in_handlers "r1" (intake_context dump_lead lead None) (take 7 INTAKE_STEPS) [] (in_firm contacts)).

Definition outputs_of {T} (p : T * res jdict) : jdict := match snd p with Ok o => o | Err _ => [] end.

Definition ada : Contact := mk_Contact "c1" "crm" "Ada" (Some "ada@x.org") None None [].
Definition ada_lead : LeadPayload := in_lead [("full_name", JStr "Ada"); ("email", JStr "ada@x.org")].

Abbreviation in_after := (call_steps in_handlers "r1" (intake_context dump_lead ada_lead None) ["send_welcome"]
  (outputs_of (in_before ada_lead [ada])) (fst (in_before ada_lead [ada]))).

(** The whole workflow on a lead whose sender is known: the contact is reused,
    the matter opened, the welcome drafted, and after the gate sent. *)
Example known_client_welcomed :
  let before := in_before ada_lead [ada] in
  dkeys (ad_data (rw_crm (sys_world (fst before)))) = ["c1"] /\
  dget "draft_welcome" (outputs_of before) = Some (JDict [("draft_id", JStr "u1"); ("gaps", JList [])]) /\
  ec_sent (sys_world (fst before)) = [] /\
  dget "send_welcome" (outputs_of in_after) = Some (JDict [("message_id", JStr "u2")]) /\
  ec_sent (sys_world (fst in_after)) = [("r1:send_welcome", "u2")].
Proof. repeat split. Qed.

Lemma in_crm_sends_nothing c : sends_nothing (crm_upsert_contact (V := RefWorld) c).
Proof.
  intros [ca [cr inj] em dc au n]. cbn. unfold on_adapter. cbn.
  destruct (upsert_contact in_supply c _) as [s r]. reflexivity.
Qed.

Lemma in_find_sends_nothing q : sends_nothing (crm_find_contact (V := RefWorld) q).
Proof.
  intros [ca [cr inj] em dc au n]. cbn. unfold on_adapter. cbn. destruct (find_contact q _) as [s r]. reflexivity.
Qed.

Lemma in_case_sends_nothing d : sends_nothing (cc_create_matter (V := RefWorld) d).
Proof.
  intros [[ca inj] cr em dc au n]. cbn. unfold on_adapter. cbn. destruct (create_matter in_supply d _) as [s r]. reflexivity.
Qed.

Lemma in_arm_unsent L t ref key : keeps (unsent (T := MemScheduler) (V := RefWorld) L) (arm t ref key).
Proof.
  apply keeps_bind; [apply unsent_uuid4|]. intros a.
  apply keeps_bind; [apply unsent_on_store|]. intros []. apply keeps_ret.
Qed.

Lemma welcome_sent_once_witness :
  ec_sent (sys_world (fst (in_before ada_lead [ada]))) = ec_sent (sys_world (in_firm [ada])) /\
  dget "r1:send_welcome" (ec_sent (sys_world (fst in_after))) = Some "u2" /\
  (forall k, k <> welcome_key "r1" ->
     dget k (ec_sent (sys_world (fst in_after))) = dget k (ec_sent (sys_world (fst (in_before ada_lead [ada]))))).
Proof.
  destruct (welcome_sent_once (S := MemScheduler) (V := RefWorld) (fun _ => example_time) in_supply (fun s => s)
    (fun s => s) Ok None [] default_intake_config None in_crm_sends_nothing in_find_sends_nothing
    in_case_sends_nothing in_arm_unsent (fun L ex i b E => match E with end) "r1"
    (intake_context dump_lead ada_lead None)) as [H1 H2].
  split; [apply H1|]. split; [vm_compute; reflexivity|].
  exact (proj1 (H2 (outputs_of (in_before ada_lead [ada])) (fst (in_before ada_lead [ada])) (fst in_after)
    (snd in_after) (surjective_pairing _))).
Defined.

(** A client without an address: there is no draft, and after the review the
    run fails on sending the draft with the empty id. *)
Example no_address_fails_late :
  let lead := in_lead [("full_name", JStr "Ada")] in
  let before := in_before lead [] in
  (exists o, snd before = Ok o) /\
  exists e, snd (call_steps in_handlers "r1" (intake_context dump_lead lead None) ["send_welcome"]
    (outputs_of before) (fst before)) = Err (ConnectorExn e) /\ ce_class e = NotFoundError.
Proof. split; [vm_compute; by eexists|]. eexists. split; [vm_compute; reflexivity|reflexivity]. Qed.

(** The gap of an ambiguous match blocks nothing: a third contact and a matter
    are created before anyone is asked. *)
Example ambiguous_match_creates_contact :
  let before := in_before ada_lead [ada; mk_Contact "c2" "crm" "Ada" (Some "ada@x.org") None None []] in
  let dedupe := match dget "dedupe_contact" (outputs_of before) with
                | Some (JDict o) => dget "dedupe" o | _ => None end in
  dedupe = Some (JDict (dump_dedupe (mk_DedupeResult None None Ambiguous (5 # 10)))) /\
  dkeys (ad_data (rw_crm (sys_world (fst before)))) = ["c1"; "c2"; "u0"] /\
  length (ca_matters (ad_data (rw_case (sys_world (fst before))))) = 1%nat.
Proof. repeat split. Qed.

(** Intake again, for the same lead under a second run, opens a second matter
    with a second contact: the writes carry no idempotency key. *)
Example rerun_creates_again :
  let lead := in_lead [("full_name", JStr "Ada")] in
  let once := fst (in_before lead []) in
  let twice := fst (call_steps in_handlers "r1" (intake_context dump_lead lead None)
                      ["create_contact"; "create_matter"] (outputs_of (in_before lead [])) once) in
  length (ad_data (rw_crm (sys_world once))) = 1%nat /\ length (ad_data (rw_crm (sys_world twice))) = 2%nat /\
  length (ca_matters (ad_data (rw_case (sys_world twice)))) = 2%nat.
Proof. repeat split. Qed.

Definition gap_fields : IntakeFields :=
  mk_IntakeFields (Some " ") None None (Some "ada@x.org") None None None None None None [] None None [].

Definition unsure_proposal : ExtractionProposal :=
  mk_ExtractionProposal "p" "r" "s" [mk_ExtractedField "email" "string" (JStr "ada@x.org") None (1 # 2) true []]
    build_email_coverage "m" None true [].

Lemma parse_gaps_exact_witness :
  exists f gaps,
    parse_lead Ok None (in_lead [("full_name", JStr " ")]) (Some unsure_proposal) JNull default_intake_config = Ok (f, gaps) /\
    map ig_field gaps = ["case_type"; "full_name"; "email"] /\
    ((exists g, g ∈ gaps /\ ig_severity g = "block" /\ ig_field g = "full_name") <->
       "full_name" ∈ ["full_name"; "email"] /\ attr_missing "full_name" f = true).
Proof.
  eexists _, _. split; [vm_compute; reflexivity|]. split; [reflexivity|].
  edestruct (parse_gaps_exact Ok None (in_lead [("full_name", JStr " ")]) (Some unsure_proposal) JNull
    default_intake_config) as (cc & Hc & Hb & _); [vm_compute; reflexivity|by vm_compute|].
  injection Hc as <-. apply (Hb "full_name").
Defined.

Lemma dedupe_never_guesses_witness :
  let f := with_case_type "default" (mk_IntakeFields (Some "Ada") None None (Some "ada@x.org") None None None None None
             None [] None None []) in
  let bob := mk_Contact "c2" "crm" "Ada" (Some "bob@x.org") None None [] in
  decide_duplicate f [bob; ada] = (reuse ada, []) /\
  exists c, dd_contact_match (reuse ada) = Some (match_ref 1 c) /\
    (only_one (same_email f) [bob; ada] c \/ only_one (same_a_number f) [bob; ada] c).
Proof.
  cbv zeta. split; [reflexivity|].
  edestruct (proj1 (dedupe_never_guesses _ _ (reuse ada) [] (eq_refl : decide_duplicate (with_case_type "default"
    (mk_IntakeFields (Some "Ada") None None (Some "ada@x.org") None None None None None None [] None None []))
    [mk_Contact "c2" "crm" "Ada" (Some "bob@x.org") None None []; ada] = _)) eq_refl) as (c & H1 & _ & H2).
  exists c. split; [exact H1|exact H2].
Defined.

(** ** The registered workflow *)

Definition in_registry : registry in_world :=
  fst (register_intake_workflow (S := MemScheduler) (V := RefWorld) (fun _ => example_time) in_supply (fun s => s)
         (fun s => s) Ok None [] default_intake_config None []).

Lemma intake_registered :
  exists d, get_workflow_latest in_registry "intake" = Ok d /\ wd_steps d = INTAKE_STEPS /\ wd_handlers d = in_handlers.
Proof. eexists. split; [reflexivity|]. split; reflexivity. Qed.

Abbreviation in_tool lead := (tool_intake_run (S := MemScheduler) (V := RefWorld) (fun s => s)
  (fun j => match j with JStr s => s | _ => EmptyString end) (fun _ => example_time)
  (fun n => "run" +:+ pretty (Z.of_nat n)) in_registry lead dump_lead None None "agent_service").

Definition in_osys : sys RunStore in_world := mk_sys empty_run_store (in_firm [ada]) 0 0.

Lemma lead_starts_one_run_witness :
  snd (in_tool ada_lead in_osys) = Ok [("run_id", JStr "run0"); ("status", JStr "queued"); ("current_step", JNull);
                                       ("is_new", JBool true)] /\
  snd (in_tool ada_lead (fst (in_tool ada_lead in_osys))) =
    Ok [("run_id", JStr "run0"); ("status", JStr "queued"); ("current_step", JNull); ("is_new", JBool false)] /\
  exists r, dget "web:ada@x.org:Ad" (rs_dedupe (sys_store (fst (in_tool ada_lead in_osys)))) = Some (run_id r) /\
    run_id r = "run0".
Proof.
  split; [reflexivity|]. split; [reflexivity|].
  destruct (lead_starts_one_run (fun s => s) (fun j => match j with JStr s => s | _ => EmptyString end) dump_lead
    (fun _ => example_time) (fun n => "run" +:+ pretty (Z.of_nat n)) in_registry ada_lead None None "agent_service"
    in_osys (fst (in_tool ada_lead in_osys)) [("run_id", JStr "run0"); ("status", JStr "queued");
      ("current_step", JNull); ("is_new", JBool true)] empty_store_wf ltac:(discriminate))
    as (_ & r & H1 & _ & H2 & _); [vm_compute; reflexivity|].
  exists r. split; [exact H1|]. by injection H2.
Defined.
