(* ===== verification/Template.v ===== *)
(** * Template: core/workflows/document_gen/ types, templates, context, rendering

    Template specifications, the in-memory template store with its validation,
    the resolution of variables from the matter and the caller's overrides, gap
    detection, and rendering.  [scan] finds the placeholders as the regular
    expression of renderer.py does; a .docx file goes to docxtpl, a parameter.
    Bytes are strings; decoding is the identity on them, as it is on ASCII. *)

From Stdlib Require Import ZArith Lia Ascii String List QArith.
From stdpp Require Import base list strings pretty.
From S2P Require Import Prelude PyTime Effects Domain PyText Flow.

Open Scope string_scope.
Open Scope list_scope.
Open Scope Z_scope.
Open Scope cam_scope.

(** ** types.py *)

Inductive VarType := TyString | TyDate | TyNumber | TyBool | TyAddress | TyEnum.

#[export] Instance VarType_eq_dec : EqDecision VarType.
Proof. solve_decision. Defined.

Definition var_type_value (t : VarType) : string :=
  match t with
  | TyString => "string" | TyDate => "date" | TyNumber => "number" | TyBool => "bool"
  | TyAddress => "address" | TyEnum => "enum"
  end.

Record TemplateVariable := mk_TemplateVariable {
  tv_name : string;
  tv_label : string;
  tv_required : bool;
  tv_type : VarType;
  tv_enum_values : option (list string);
  tv_source_hint : option string }.

Record TemplateSpec := mk_TemplateSpec {
  ts_name : string;
  ts_version : Z;
  ts_format : string;
  ts_target_form_id : option string;
  ts_privileged_default : bool;
  ts_variables : list TemplateVariable;
  ts_checksum : string }.

Inductive GapReason := GapMissing | GapEmpty | GapTypeMismatch | GapEnumViolation.

Definition gap_reason_value (r : GapReason) : string :=
  match r with
  | GapMissing => "missing" | GapEmpty => "empty" | GapTypeMismatch => "type_mismatch"
  | GapEnumViolation => "enum_violation"
  end.

Record Gap := mk_Gap { gap_variable : string; gap_label : string; gap_reason : GapReason }.

(** [g.model_dump()] and [v.model_dump()] *)
Definition dump_template_gap (g : Gap) : jdict :=
  [("variable", JStr (gap_variable g)); ("label", JStr (gap_label g));
   ("reason", JStr (gap_reason_value (gap_reason g)))].

Definition dump_variable (v : TemplateVariable) : jdict :=
  [("name", JStr (tv_name v)); ("label", JStr (tv_label v)); ("required", JBool (tv_required v));
   ("type", JStr (var_type_value (tv_type v)));
   ("enum_values", match tv_enum_values v with Some l => JList (map JStr l) | None => JNull end);
   ("source_hint", jopt (tv_source_hint v))].

(** ** Placeholders: [\{\{\s*([\w.]+)\s*\}\}] *)

Definition is_word (c : ascii) : bool :=
  let n := code c in
  ((48 <=? n) && (n <=? 57)) || ((65 <=? n) && (n <=? 90)) || ((97 <=? n) && (n <=? 122)) || (n =? 95).

Definition is_name_char (c : ascii) : bool := is_word c || Ascii.eqb c ".".

(** The name characters at the start, and what follows them. *)
Fixpoint take_name (s : string) : string * string :=
  match s with
  | String c s' => if is_name_char c then let '(n, r) := take_name s' in (String c n, r) else (EmptyString, s)
  | EmptyString => (EmptyString, EmptyString)
  end.

(** A placeholder at the start: its variable and what follows it.  The classes of
    the expression are disjoint, so it matches in one way only. *)
Definition match_var (s : string) : option (string * string) :=
  match s with
  | String "{" (String "{" r) =>
      let '(name, r) := take_name (lstrip r) in
      if str_truthy name then
        match lstrip r with
        | String "}" (String "}" rest) => Some (name, rest)
        | _ => None
        end
      else None
  | _ => None
  end.

Inductive piece := Lit (c : ascii) | Slot (name : string).

(** The text as [re.sub] sees it, after [skip] characters. *)
Fixpoint scan (skip : nat) (s : string) : list piece :=
  match s with
  | EmptyString => []
  | String c s' =>
      match skip with
      | S n => scan n s'
      | O =>
          match match_var s with
          | Some (name, rest) => Slot name :: scan (String.length s' - String.length rest) s'
          | None => Lit c :: scan 0 s'
          end
      end
  end.

Definition slots (ps : list piece) : list string :=
  flat_map (fun p => match p with Slot n => [n] | Lit _ => [] end) ps.

(** ** template_store.py *)

Definition TemplateStore : Type := dict string (dict Z (TemplateSpec * string)).

Definition TemplateNotFoundError (name : string) : exn := OtherError "TemplateNotFoundError" name.

Definition is_template_not_found (e : exn) : bool := String.eqb (exn_name e) "TemplateNotFoundError".

Definition TemplateValidationError (msg : string) : exn := OtherError "TemplateValidationError" msg.

(** [word\s*\(] at the start, in lower-cased text. *)
Definition calls_word (word s : string) : bool :=
  starts_with word s &&
  match lstrip (drop_chars (String.length word) s) with
  | String "(" _ => true
  | _ => false
  end.

(** [\bnow\s*\(|random\s*\(|uuid\s*\(], ignoring case; [boundary] tells whether a
    word can begin here. *)
Fixpoint nondeterministic_from (boundary : bool) (s : string) : bool :=
  (boundary && calls_word "now" s) || calls_word "random" s || calls_word "uuid" s ||
  match s with
  | String c s' => nondeterministic_from (negb (is_word c)) s'
  | EmptyString => false
  end.

Definition nondeterministic (text : string) : bool := nondeterministic_from true (str_lower text).

(** The undeclared variables are a set: the message lists them in some order. *)
Definition validate_template (spec : TemplateSpec) (content : string) : res unit :=
  if nondeterministic content then
    Err (TemplateValidationError ("Template " +:+ py_repr (ts_name spec) +:+
      " uses non-deterministic functions (now()/random()/uuid()) — forbidden (DG-NFR-1)."))
  else
    let declared := map tv_name (ts_variables spec) in
    let actual := slots (scan 0 content) in
    match bfilter (fun n => negb (str_in n declared)) actual with
    | [] => Ok tt
    | undeclared => Err (TemplateValidationError ("Template " +:+ py_repr (ts_name spec) +:+
        " uses undeclared variables: {" +:+ str_join ", " (map py_repr (remove_dups undeclared)) +:+
        "}. Add them to TemplateSpec.variables."))
    end.

Section TemplateStore.
Context (sha256_hex : string -> string).

Definition with_spec_checksum (s : TemplateSpec) (checksum : string) : TemplateSpec :=
  mk_TemplateSpec (ts_name s) (ts_version s) (ts_format s) (ts_target_form_id s) (ts_privileged_default s)
    (ts_variables s) checksum.

Definition register_template (spec : TemplateSpec) (content : string) (validate : bool) (store : TemplateStore)
    : res TemplateStore :=
  letr! _ := if validate then validate_template spec content else Ok tt in
  let spec := with_spec_checksum spec (sha256_hex content) in
  let versions := match dget (ts_name spec) store with Some v => v | None => [] end in
  Ok (dset (ts_name spec) (dset (ts_version spec) (spec, content) versions) store).
End TemplateStore.

(** [max] of a non-empty list of version numbers. *)
Definition max_key (n : Z) (l : list Z) : Z := fold_left Z.max l n.

Definition get_template (name : string) (version : option Z) (store : TemplateStore)
    : res (TemplateSpec * string) :=
  match dget name store with
  | Some (((n, _) :: others) as versions) =>
      match version with
      | Some v => or_raise (TemplateNotFoundError (name +:+ "@v" +:+ pretty v)) (dget v versions)
      | None => or_raise (KeyError name) (dget (max_key n (dkeys others)) versions)
      end
  | _ => Err (TemplateNotFoundError name)
  end.

Definition resource_template (name : string) (store : TemplateStore) : res jdict :=
  letr! (spec, _) := get_template name None store in
  Ok [("name", JStr (ts_name spec)); ("version", JInt (ts_version spec)); ("format", JStr (ts_format spec));
      ("target_form_id", jopt (ts_target_form_id spec)); ("privileged_default", JBool (ts_privileged_default spec));
      ("checksum", JStr (ts_checksum spec));
      ("variables", JList (map (fun v => JDict (dump_variable v)) (ts_variables spec)))].

Definition make_simple_template (spec : TemplateSpec) : string :=
  str_join NL (("# " +:+ ts_name spec +:+ " v" +:+ pretty (ts_version spec)) ::
               map (fun v => "{{ " +:+ tv_name v +:+ " }}") (ts_variables spec)).

(** ** context.py *)

(** A value of a variable: JSON, or the dates Python has beside it. *)
Inductive docval := DJson (j : json) | DDatetime (t : datetime) | DDate (d : date).

Definition is_none (v : docval) : bool := match v with DJson JNull => true | _ => false end.

Definition docval_truthy (v : docval) : bool := match v with DJson j => json_truthy j | _ => true end.

Definition month_names : list string :=
  ["January"; "February"; "March"; "April"; "May"; "June"; "July"; "August"; "September"; "October"; "November";
   "December"].

(** [d.strftime("%B %d, %Y")] *)
Definition us_date (d : date) : string :=
  let '(y, m, dd) := ord2ymd d in
  nth (Z.to_nat (m - 1)) month_names EmptyString +:+ " " +:+ pad 2 dd +:+ ", " +:+ pretty y.

(** [str(dt)] *)
Definition datetime_str (t : datetime) : string :=
  date_str (dt_date t) +:+ " " +:+ time_str (dt_us t) +:+ off_str (dt_off t).

Section Context.
(** [str] of a JSON value that is not a string. *)
Context (json_str : json -> string).

Definition docval_str (v : docval) : string :=
  match v with
  | DJson (JStr s) => s
  | DJson j => json_str j
  | DDatetime t => datetime_str t
  | DDate d => date_str d
  end.

Definition format_value (v : docval) (t : VarType) : string :=
  if is_none v then EmptyString
  else match t with
       | TyDate => match v with
                   | DDatetime dt => us_date (dt_date dt)
                   | DDate d => us_date d
                   | _ => docval_str v
                   end
       | TyBool => if docval_truthy v then "Yes" else "No"
       | _ => docval_str v
       end.

Definition opt_val (o : option string) : docval := DJson (jopt o).

Definition domain_map (m : Matter) : dict string docval :=
  [("client.full_name", DJson (JStr (ct_name (mt_client m))));
   ("client.email", opt_val (if opt_truthy (ct_email (mt_client m)) then ct_email (mt_client m) else None));
   ("client.phone", opt_val (ct_phone (mt_client m)));
   ("matter.reference", DJson (JStr (mt_reference m)));
   ("matter.title", DJson (JStr (mt_title m)));
   ("matter.status", DJson (JStr (mt_status m)));
   ("matter.practice_area", opt_val (mt_practice_area m));
   ("matter.opened_at", DDatetime (mt_opened_at m))].

Definition doc_context : Type := dict string (option string).

Definition domain_values (spec : TemplateSpec) (m : Matter) : dict string docval :=
  fold_left (fun d v => dset (tv_name v)
      (match dget (tv_name v) (domain_map m) with Some x => x | None => DJson JNull end) d)
    (ts_variables spec) [].

(** Overrides of declared variables; others are ignored. *)
Definition override (spec : TemplateSpec) (data : dict string docval) (resolved : dict string docval)
    : dict string docval :=
  fold_left (fun d p => if str_in p.1 (map tv_name (ts_variables spec)) then dset p.1 p.2 d else d) data resolved.

(** [var_map[name].type]: the last variable of a name counts. *)
Definition type_of (spec : TemplateSpec) (name : string) : VarType :=
  match dget name (fold_left (fun d v => dset (tv_name v) (tv_type v) d) (ts_variables spec) []) with
  | Some t => t
  | None => TyString
  end.

Definition build_context (spec : TemplateSpec) (m : Matter) (data : option (dict string docval)) : doc_context :=
  let resolved := domain_values spec m in
  let resolved := match data with Some d => override spec d resolved | None => resolved end in
  map (fun p => (p.1, if is_none p.2 then None else Some (format_value p.2 (type_of spec p.1)))) resolved.
End Context.

(** The gap of a required variable, if any. *)
Definition variable_gap (context : doc_context) (v : TemplateVariable) : option Gap :=
  let gap r := Some (mk_Gap (tv_name v) (tv_label v) r) in
  if negb (tv_required v) then None
  else match dget (tv_name v) context with
       | Some (Some s) =>
           if is_blank s then gap GapEmpty
           else match tv_type v, tv_enum_values v with
                | TyNumber, _ => if float_ok s then None else gap GapTypeMismatch
                | TyEnum, Some ((_ :: _) as values) => if str_in s values then None else gap GapEnumViolation
                | _, _ => None
                end
       | _ => gap GapMissing
       end.

Definition detect_gaps (spec : TemplateSpec) (context : doc_context) : list Gap :=
  flat_map (fun v => match variable_gap context v with Some g => [g] | None => [] end) (ts_variables spec).

(** ** renderer.py *)

Definition RenderError (msg : string) : exn := OtherError "RenderError" msg.

Definition gap_token (label : string) : string := "[[MISSING: " +:+ label +:+ "]]".

(** [{ **context, **gap_vars }] *)
Definition render_context (context : doc_context) (gaps : list Gap) : doc_context :=
  fold_left (fun d g => dset (gap_variable g) (Some (gap_token (gap_label g))) d) gaps context.

Definition slot_text (context : doc_context) (name : string) : string :=
  match dget name context with Some (Some v) => v | _ => EmptyString end.

Definition piece_text (context : doc_context) (p : piece) : string :=
  match p with Lit c => String c EmptyString | Slot n => slot_text context n end.

Definition render_text (context : doc_context) (text : string) : string :=
  str_join EmptyString (map (piece_text context) (scan 0 text)).

Definition ZIP_MAGIC : string := "PK" +:+ String (chr 3) (String (chr 4) EmptyString).

Section Render.
(** docxtpl, with its import; and [str] of an exception. *)
Context (docxtpl_render : string -> doc_context -> res string) (exn_str : exn -> string).

Definition render_docxtpl (template : string) (context : doc_context) : res string :=
  match docxtpl_render template context with
  | Ok b => Ok b
  | Err e =>
      if String.eqb (exn_name e) "ImportError"
      then Err (RenderError "docxtpl is not installed; cannot render .docx templates.")
      else Err (RenderError ("DOCX render failed: " +:+ exn_str e))
  end.

Definition render_docx (template : string) (context : doc_context) (gaps : list Gap) : res string :=
  let ctx := render_context context gaps in
  if starts_with ZIP_MAGIC template then render_docxtpl template ctx
  else Ok (render_text ctx template).
End Render.

(** ** Scanning *)

Lemma scan_skip n s : scan n s = scan 0 (drop_chars n s).
Proof. revert s. induction n as [|n IH]; intros [|c s]; try done. exact (IH s). Qed.

(** [r] is what remains of [s] after some of its characters. *)
Definition suffix_of (r s : string) : Prop := exists p, s = p +:+ r.

Lemma suffix_refl s : suffix_of s s.
Proof. by exists EmptyString. Qed.

Lemma suffix_cons c r s : suffix_of r s -> suffix_of r (String c s).
Proof. intros [p ->]. by exists (String c p). Qed.

Lemma suffix_trans a b c : suffix_of a b -> suffix_of b c -> suffix_of a c.
Proof. intros [p ->] [q ->]. exists (q +:+ p). induction q as [|x q IH]; [done|]. exact (f_equal (String x) IH). Qed.

#[local] Hint Resolve suffix_refl suffix_cons : cam.

Lemma lstrip_suffix s : suffix_of (lstrip s) s.
Proof. induction s as [|c s IH]; cbn; [auto with cam|]. destruct (is_space c); auto with cam. Qed.

Lemma take_name_suffix s : suffix_of (snd (take_name s)) s.
Proof.
  induction s as [|c s IH]; cbn; [auto with cam|]. destruct (is_name_char c); [|auto with cam].
  destruct (take_name s). auto with cam.
Qed.

Lemma match_var_suffix c s name rest : match_var (String c s) = Some (name, rest) -> suffix_of rest s.
Proof.
  unfold match_var. intros H. repeat case_match; simplify_eq.
  match goal with H : take_name (lstrip ?r) = _ |- _ =>
    pose proof (take_name_suffix (lstrip r)) as H1; rewrite H in H1; pose proof (lstrip_suffix r) as H2 end.
  match goal with H : lstrip ?r = String _ (String _ rest) |- _ => pose proof (lstrip_suffix r) as H3; rewrite H in H3 end.
  cbn in H1. apply suffix_cons. eapply suffix_trans; [|exact H2]. eapply suffix_trans; [|exact H1].
  eapply suffix_trans; [|exact H3]. auto with cam.
Qed.

Lemma str_join_cons sep x l : str_join sep (x :: l) = x +:+ fold_right (fun y s => sep +:+ y +:+ s) EmptyString l.
Proof.
  revert x. induction l as [|y l IH]; intros x; [by rewrite str_app_nil|]. cbn [str_join fold_right].
  change (match l with [] => y | _ :: _ => y +:+ sep +:+ str_join sep l end) with (str_join sep (y :: l)).
  by rewrite IH.
Qed.

Lemma scan_slot c s name rest :
  match_var (String c s) = Some (name, rest) -> scan 0 (String c s) = Slot name :: scan 0 rest.
Proof.
  intros H. cbn [scan]. rewrite H. f_equal. rewrite scan_skip. f_equal.
  apply match_var_suffix in H as [p ->]. rewrite str_len_app.
  replace (String.length p + String.length rest - String.length rest)%nat with (String.length p) by lia.
  apply drop_chars_app.
Qed.

(** ** Printing a template *)

Definition print_piece (p : piece) : string :=
  match p with Lit c => String c EmptyString | Slot n => "{{ " +:+ n +:+ " }}" end.

Definition print_pieces (ps : list piece) : string := fold_right (fun p s => print_piece p +:+ s) EmptyString ps.

Fixpoint str_forall (f : ascii -> bool) (s : string) : bool :=
  match s with EmptyString => true | String c s' => f c && str_forall f s' end.

(** Literals that cannot begin a placeholder, and names the expression reads. *)
Definition piece_ok (p : piece) : bool :=
  match p with
  | Lit c => negb (Ascii.eqb c "{")
  | Slot n => str_truthy n && str_forall is_name_char n
  end.

Lemma name_char_facts c : is_name_char c = true -> is_space c = false.
Proof.
  unfold is_name_char, is_word, is_space. destruct (Ascii.eqb_spec c "."%char) as [->|]; [done|].
  rewrite orb_false_r. intros H. repeat rewrite ?orb_true_iff, ?andb_true_iff, ?Z.leb_le, ?Z.eqb_eq in H.
  repeat rewrite ?orb_false_iff, ?andb_false_iff, ?Z.leb_gt, ?Z.eqb_neq. lia.
Qed.

Lemma take_name_app n s :
  str_forall is_name_char n = true -> take_name (n +:+ String " " s) = (n, String " " s).
Proof.
  induction n as [|c n IH]; intros H; [done|]. cbn in H. apply andb_true_iff in H as [Hc Hn].
  rewrite str_app_cons. cbn [take_name]. by rewrite Hc, (IH Hn).
Qed.

Lemma match_var_slot n s :
  piece_ok (Slot n) = true -> match_var ("{{ " +:+ n +:+ " }}" +:+ s) = Some (n, s).
Proof.
  cbn [piece_ok]. intros [Ht Hn]%andb_true_iff. destruct n as [|c n]; [done|].
  change (match_var (String "{" (String "{" (String " " (String c n +:+ (String " " ("}}" +:+ s)))))) = Some (String c n, s)).
  unfold match_var. rewrite str_app_cons. cbn [lstrip]. change (is_space " ") with true. cbv iota.
  pose proof Hn as Hn'. cbn in Hn'. apply andb_true_iff in Hn' as [Hc _]. rewrite (name_char_facts c Hc).
  rewrite <- str_app_cons, take_name_app by done. done.
Qed.

Lemma scan_print ps : Forall (fun p => piece_ok p = true) ps -> scan 0 (print_pieces ps) = ps.
Proof.
  induction 1 as [|p ps Hp Hps IH]; [done|]. cbn [print_pieces fold_right]. fold (print_pieces ps).
  destruct p as [c|n].
  - cbn [piece_ok] in Hp. cbn [print_piece]. rewrite str_app_cons. change (EmptyString +:+ ?s) with s.
    cbn [scan]. assert (match_var (String c (print_pieces ps)) = None) as ->; [|by f_equal].
    apply negb_true_iff, Ascii.eqb_neq in Hp. unfold match_var. repeat case_match; congruence.
  - pose proof (match_var_slot n (print_pieces ps) Hp) as Hm. cbn [print_piece].
    rewrite !str_app_assoc. rewrite <- IH at 2. by apply scan_slot.
Qed.

(** A template reads back as it was written.  The placeholders and literals
    found in a printed template are those it was printed from; rendering it
    replaces each placeholder by its variable's text and leaves the rest; and
    what is rendered without placeholders is what was written. *)
Lemma template_roundtrip ps context :
  Forall (fun p => piece_ok p = true) ps ->
  scan 0 (print_pieces ps) = ps /\
  render_text context (print_pieces ps) = str_join EmptyString (map (piece_text context) ps) /\
  (slots ps = [] -> render_text context (print_pieces ps) = print_pieces ps).
Proof.
  intros H%scan_print. split; [done|]. unfold render_text. rewrite H. split; [done|]. clear H.
  destruct ps as [|p ps]; [done|]. cbn [map]. rewrite str_join_cons. revert p.
  induction ps as [|q ps IH]; intros [c|n] Hs; try done.
  specialize (IH q Hs). cbn [map fold_right] in IH |- *. by rewrite IH.
Qed.

(** ** The minimal template *)

Definition header (spec : TemplateSpec) : string := "# " +:+ ts_name spec +:+ " v" +:+ pretty (ts_version spec).

Definition lits (s : string) : list piece := map Lit (list_ascii_of_string s).

Definition simple_pieces (spec : TemplateSpec) : list piece :=
  lits (header spec) ++ flat_map (fun v => lits NL ++ [Slot (tv_name v)]) (ts_variables spec).

Lemma print_app a b : print_pieces (a ++ b) = print_pieces a +:+ print_pieces b.
Proof. induction a as [|p a IH]; [done|]. cbn [app print_pieces fold_right]. fold (print_pieces (a ++ b)) (print_pieces a).
  by rewrite IH, str_app_assoc. Qed.

Lemma print_lits s : print_pieces (lits s) = s.
Proof. induction s as [|c s IH]; [done|]. exact (f_equal (String c) IH). Qed.

Lemma simple_template_printed spec : make_simple_template spec = print_pieces (simple_pieces spec).
Proof.
  unfold make_simple_template, simple_pieces. rewrite print_app, print_lits.
  fold (header spec). rewrite str_join_cons. f_equal.
  induction (ts_variables spec) as [|v l IH]; [done|]. cbn [map flat_map fold_right]. rewrite IH, print_app.
  change (print_pieces (lits NL ++ [Slot (tv_name v)])) with (NL +:+ ("{{ " +:+ tv_name v +:+ " }}") +:+ EmptyString).
  by rewrite !str_app_assoc.
Qed.

Lemma str_has_lower s : str_has "(" (str_lower s) = str_has "(" s.
Proof.
  induction s as [|c s IH]; [done|]. cbn [str_has str_lower str_map]. fold (str_lower s). rewrite IH. f_equal.
  destruct c as [[] [] [] [] [] [] [] []]; reflexivity.
Qed.

Lemma str_has_suffix c r s : suffix_of r s -> str_has c s = false -> str_has c r = false.
Proof. intros [p ->]. rewrite str_has_app. by intros [_ ?]%orb_false_iff. Qed.

Lemma drop_suffix n s : suffix_of (drop_chars n s) s.
Proof. revert s. induction n as [|n IH]; intros [|c s]; cbn; auto with cam. Qed.

Lemma no_call word s : str_has "(" s = false -> calls_word word s = false.
Proof.
  intros H. unfold calls_word. apply andb_false_iff. right.
  assert (str_has "(" (lstrip (drop_chars (String.length word) s)) = false) as Hl.
  { eapply str_has_suffix; [|exact H]. eapply suffix_trans; [apply lstrip_suffix|apply drop_suffix]. }
  destruct (lstrip _) as [|c r]; [done|]. cbn [str_has] in Hl. apply orb_false_iff in Hl as [Hc _].
  destruct (Ascii.eqb_spec "("%char c) as [|Hne]; [done|]. repeat case_match; congruence.
Qed.

Lemma no_calls s b : str_has "(" s = false -> nondeterministic_from b s = false.
Proof.
  revert b. induction s as [|c s IH]; intros b H; cbn [nondeterministic_from];
    rewrite !no_call by done; rewrite andb_false_r; [done|].
  cbn [str_has] in H. apply orb_false_iff in H as [_ H]. by rewrite IH.
Qed.

Lemma name_has_no_paren n : str_forall is_name_char n = true -> str_has "(" n = false.
Proof.
  induction n as [|c n IH]; [done|]. cbn [str_forall str_has]. intros [Hc Hn]%andb_true_iff. rewrite IH by done. rewrite orb_false_r.
  by destruct (Ascii.eqb_spec "("%char c) as [<-|].
Qed.

Lemma slots_app a b : slots (a ++ b) = slots a ++ slots b.
Proof. apply flat_map_app. Qed.

Lemma slots_lits s : slots (lits s) = [].
Proof. induction s as [|c s IH]; [done|]. exact IH. Qed.

(** The minimal template of a specification is accepted, and its placeholders are
    the declared variables, in order, provided the names are names and the
    header holds no brace and no parenthesis. *)
Lemma simple_template_valid spec :
  str_has "{" (header spec) = false -> str_has "(" (header spec) = false ->
  Forall (fun v => piece_ok (Slot (tv_name v)) = true) (ts_variables spec) ->
  validate_template spec (make_simple_template spec) = Ok tt /\
  slots (scan 0 (make_simple_template spec)) = map tv_name (ts_variables spec).
Proof.
  intros Hb Hp Hv. rewrite simple_template_printed.
  assert (Forall (fun p => piece_ok p = true) (simple_pieces spec)) as Hok.
  { unfold simple_pieces. apply Forall_app. split.
    - clear -Hb. revert Hb. generalize (header spec). intros h. induction h as [|c h IH]; [by constructor|]. cbn [str_has].
      intros [Hc Hh]%orb_false_iff. constructor; [|by apply IH]. cbn [piece_ok]. rewrite Ascii.eqb_sym. by rewrite Hc.
    - induction Hv as [|v l Hvv Hl IH]; [by constructor|]. cbn [flat_map]. rewrite Forall_app. split; [|done].
      by repeat constructor. }
  pose proof (scan_print _ Hok) as Hs.
  assert (slots (simple_pieces spec) = map tv_name (ts_variables spec)) as Hsl.
  { unfold simple_pieces. rewrite slots_app, slots_lits. cbn [app]. clear.
    induction (ts_variables spec) as [|v l IH]; [done|]. cbn [flat_map map]. by rewrite slots_app, IH. }
  rewrite Hs. split; [|done]. unfold validate_template. rewrite Hs, Hsl.
  assert (nondeterministic (print_pieces (simple_pieces spec)) = false) as ->.
  { unfold nondeterministic. apply no_calls. rewrite str_has_lower. unfold simple_pieces.
    rewrite print_app, print_lits, str_has_app, Hp. cbn [orb]. clear -Hv.
    induction Hv as [|v l Hvv Hl IH]; [done|]. cbn [flat_map]. rewrite print_app, str_has_app, IH, orb_false_r.
    change (print_pieces (lits NL ++ [Slot (tv_name v)])) with (NL +:+ ("{{ " +:+ tv_name v +:+ " }}") +:+ EmptyString).
    rewrite !str_has_app. cbn [piece_ok] in Hvv. apply andb_true_iff in Hvv as [_ Hn].
    rewrite (name_has_no_paren _ Hn). reflexivity. }
  rewrite bfilter_none; [done|]. intros x Hx. by apply negb_false_iff, str_in_spec.
Qed.

(** ** Gaps *)

Lemma detect_gaps_in spec ctx g :
  g ∈ detect_gaps spec ctx <-> exists v, v ∈ ts_variables spec /\ variable_gap ctx v = Some g.
Proof.
  unfold detect_gaps. rewrite list_elem_of_In, in_flat_map. split.
  - intros (v & Hv & Hg). exists v. split; [by apply list_elem_of_In|]. destruct (variable_gap ctx v); [|done].
    by destruct Hg as [->|[]].
  - intros (v & Hv & Hg). exists v. split; [by apply list_elem_of_In|]. rewrite Hg. by left.
Qed.

Lemma variable_gap_name ctx v g : variable_gap ctx v = Some g -> gap_variable g = tv_name v.
Proof. unfold variable_gap. intros H. repeat case_match; by simplify_eq. Qed.

(** A required variable without a gap has a value that is not blank. *)
Lemma no_gap_value ctx v :
  tv_required v = true -> variable_gap ctx v = None ->
  exists s, dget (tv_name v) ctx = Some (Some s) /\ is_blank s = false.
Proof. unfold variable_gap. intros -> H. repeat case_match; try done; eauto. Qed.

Lemma render_context_spec ctx gaps n :
  match dget n (render_context ctx gaps) with
  | Some (Some s) => (exists g, g ∈ gaps /\ gap_variable g = n /\ s = gap_token (gap_label g)) \/
                     (forall g, g ∈ gaps -> gap_variable g <> n) /\ dget n ctx = Some (Some s)
  | o => (forall g, g ∈ gaps -> gap_variable g <> n) /\ dget n ctx = o
  end.
Proof.
  unfold render_context. revert ctx. induction gaps as [|g gaps IH]; intros ctx; cbn [fold_left].
  - destruct (dget n ctx) as [[s|]|]; [right|..]; (split; [by intros g ?%elem_of_nil|done]).
  - specialize (IH (dset (gap_variable g) (Some (gap_token (gap_label g))) ctx)). rewrite dget_dset in IH.
    assert (forall (P : Gap -> Prop), P g -> (forall g', g' ∈ gaps -> P g') -> forall g', g' ∈ g :: gaps -> P g') as Hall.
    { intros P Hg Hr g' [->|?]%elem_of_cons; auto. }
    destruct (dget n (fold_left _ _ _)) as [[s|]|]; case_decide as Hd.
    + destruct IH as [(g' & ? & ? & ?)|[_ [= <-]]]; left; [exists g'; split; [by right|done]|].
      exists g. split; [by left|done].
    + destruct IH as [(g' & ? & ? & ?)|[? ?]]; [left; exists g'; split; [by right|done]|right].
      split; [by apply Hall; [congruence|]|done].
    + by destruct IH.
    + destruct IH. split; [by apply Hall; [congruence|]|done].
    + by destruct IH.
    + destruct IH. split; [by apply Hall; [congruence|]|done].
Qed.

(** Nothing required is left out silently.  Of a template that was accepted,
    every placeholder names a declared variable.  In what is rendered, the text
    of a variable with a gap is the visible token with the label of such a gap;
    the text of any other variable is its value in the context, which for a
    required one is there and not blank; and a variable has a gap exactly when a
    required declaration of it has no value, a blank one, or one that is not a
    number or not among the values it may take. *)
Lemma gaps_are_visible json_str spec m data content n :
  validate_template spec content = Ok tt -> Slot n ∈ scan 0 content ->
  let ctx := build_context json_str spec m data in
  let gaps := detect_gaps spec ctx in
  let text := slot_text (render_context ctx gaps) n in
  (exists v, v ∈ ts_variables spec /\ tv_name v = n) /\
  ((exists g, g ∈ gaps /\ gap_variable g = n /\ text = gap_token (gap_label g)) \/
   (forall g, g ∈ gaps -> gap_variable g <> n) /\ text = slot_text ctx n /\
   forall v, v ∈ ts_variables spec -> tv_name v = n -> tv_required v = true -> is_blank text = false) /\
  ((exists g, g ∈ gaps /\ gap_variable g = n) <->
   exists v, v ∈ ts_variables spec /\ tv_name v = n /\ tv_required v = true /\
     match dget n ctx with
     | Some (Some s) => is_blank s = true \/ tv_type v = TyNumber /\ float_ok s = false \/
         tv_type v = TyEnum /\ exists values, tv_enum_values v = Some values /\ values <> [] /\ s ∉ values
     | _ => True
     end).
Proof.
  intros Hval Hslot ctx gaps text. split; [|split].
  - unfold validate_template in Hval. destruct (nondeterministic content); [done|].
    destruct (bfilter _ _) as [|x l] eqn:E; [|done].
    assert (n ∈ slots (scan 0 content)) as Hn.
    { apply list_elem_of_In, in_flat_map. exists (Slot n). split; [by apply list_elem_of_In|by left]. }
    destruct (str_in n (map tv_name (ts_variables spec))) eqn:Es.
    + apply str_in_spec, list_elem_of_fmap in Es as (v & -> & Hv). eauto.
    + assert (n ∈ @nil string) as []%elem_of_nil. rewrite <- E. apply elem_of_bfilter. by rewrite Es.
  - pose proof (render_context_spec ctx gaps n) as H. subst text. unfold slot_text.
    destruct (dget n (render_context ctx gaps)) as [[s|]|].
    1: destruct H as [(g & Hg & Hn & ->)|[Hno Hc]]; [left; by exists g|]; right; rewrite Hc.
    2, 3: destruct H as [Hno Hc]; right; rewrite Hc.
    all: do 2 (split; [done|]); intros v Hv Hn Hr.
    all: destruct (variable_gap ctx v) as [g|] eqn:Eg;
      [exfalso; apply (Hno g); [apply detect_gaps_in; by exists v|by rewrite (variable_gap_name _ _ _ Eg)]|].
    all: destruct (no_gap_value _ _ Hr Eg) as (s' & Hs & Hb); rewrite Hn, Hc in Hs; by simplify_eq.
  - split.
    + intros (g & Hg & Hn). apply detect_gaps_in in Hg as (v & Hv & Hg). exists v. split; [done|].
      pose proof (variable_gap_name _ _ _ Hg) as Hn'. split; [congruence|]. rewrite <- Hn, Hn'.
      unfold variable_gap in Hg. destruct (tv_required v); [|done]. split; [done|].
      destruct (dget (tv_name v) ctx) as [[s|]|]; [|done|done]. destruct (is_blank s); [by left|].
      right. destruct (tv_type v); try done.
      * left. split; [done|]. by destruct (float_ok s).
      * right. split; [done|]. destruct (tv_enum_values v) as [[|x l]|]; [done| |done]. exists (x :: l).
        do 2 (split; [done|]). rewrite <- str_in_spec. by destruct (str_in s (x :: l)).
    + intros (v & Hv & <- & Hr & Hm).
      assert (is_Some (variable_gap ctx v)) as [g Hg].
      { unfold variable_gap. rewrite Hr. cbn [negb]. destruct (dget (tv_name v) ctx) as [[s|]|]; try by eexists.
        destruct (is_blank s); [by eexists|]. destruct Hm as [?|[[-> ->]|(-> & values & -> & Hne & Hni)]]; [done|by eexists|].
        destruct values as [|x l]; [done|]. rewrite <- str_in_spec in Hni. destruct (str_in s (x :: l)); [done|by eexists]. }
      exists g. split; [apply detect_gaps_in; by exists v|]. by apply variable_gap_name in Hg.
Qed.

(** ** Concrete templates *)

Definition tpl_matter : Matter :=
  mk_Matter "m1" "case" "REF-1" "Title" "open" None
    (mk_Contact "c1" "crm" "Ada" (Some "ada@x.org") None None []) None (utc_datetime (ymd2ord 2026 3 9) 0) [] [].

Definition tpl_var (name : string) (required : bool) (t : VarType) : TemplateVariable :=
  mk_TemplateVariable name ("<" +:+ name +:+ ">") required t None None.

Definition tpl_spec : TemplateSpec :=
  mk_TemplateSpec "letter" 2 "html" None true
    [tpl_var "client.full_name" true TyString; tpl_var "matter.opened_at" true TyDate; tpl_var "fee" true TyNumber;
     tpl_var "note" false TyString] "".

Definition tpl_text : string := "Dear {{ client.full_name }}, {{matter.opened_at}}: {{  fee }}{{note}} { {x}}".

Example tpl_rendered :
  let ctx := build_context (fun _ => "?") tpl_spec tpl_matter (Some [("fee", DJson (JStr "12x")); ("other", DJson JNull)]) in
  validate_template tpl_spec tpl_text = Ok tt /\
  detect_gaps tpl_spec ctx = [mk_Gap "fee" "<fee>" GapTypeMismatch] /\
  render_text (render_context ctx (detect_gaps tpl_spec ctx)) tpl_text =
    "Dear Ada, March 09, 2026: [[MISSING: <fee>]] { {x}}".
Proof. repeat split. Qed.

Lemma template_roundtrip_witness :
  let ps := [Lit "a"; Slot "client.full_name"; Lit "}"; Slot "x"] in
  print_pieces ps = "a{{ client.full_name }}}{{ x }}" /\ scan 0 (print_pieces ps) = ps /\
  render_text [("x", Some "7"); ("client.full_name", Some "Ada")] (print_pieces ps) = "aAda}7".
Proof.
  cbv zeta. split; [reflexivity|].
  destruct (template_roundtrip [Lit "a"; Slot "client.full_name"; Lit "}"; Slot "x"]
    [("x", Some "7"); ("client.full_name", Some "Ada")]) as (H1 & H2 & _); [repeat constructor|].
  split; [exact H1|exact H2].
Defined.

Lemma gaps_are_visible_witness :
  let ctx := build_context (fun _ => "?") tpl_spec tpl_matter None in
  exists g, g ∈ detect_gaps tpl_spec ctx /\ gap_variable g = "fee" /\
    slot_text (render_context ctx (detect_gaps tpl_spec ctx)) "fee" = "[[MISSING: <fee>]]" /\
    slot_text (render_context ctx (detect_gaps tpl_spec ctx)) "fee" = gap_token (gap_label g).
Proof.
  destruct (gaps_are_visible (fun _ => "?") tpl_spec tpl_matter None tpl_text "fee" eq_refl) as (_ & [H|[H _]] & _).
  - apply list_elem_of_In. vm_compute. tauto.
  - destruct H as (g & H1 & H2 & H3). exists g. split; [exact H1|]. split; [exact H2|]. split; [|exact H3].
    vm_compute. reflexivity.
  - exfalso. apply (H (mk_Gap "fee" "<fee>" GapMissing)); [|reflexivity]. apply list_elem_of_In. vm_compute. tauto.
Defined.

(** The check for non-deterministic functions looks for [uuid(], so [uuid4(] is
    accepted, and it never sees inside a .docx file, which is compressed. *)
Example uuid4_accepted :
  map nondeterministic ["{{ now () }}"; "Random("; "uuid ("; "uuid4("; "know(1)"] = [true; true; true; false; false].
Proof. reflexivity. Qed.

(** A truth value given as text counts as true, whatever it says. *)
Example false_is_yes : format_value (fun _ => "?") (DJson (JStr "false")) TyBool = "Yes".
Proof. reflexivity. Qed.
