(* ===== verification/DocGen.v ===== *)
(** * DocGen: core/workflows/document_gen/ ledger, PDF, tools

    The version ledger with its idempotency records, the storing of documents
    through the document-store port, PDF conversion, and the document.generate and
    form.prefill tools over the templates of [Template].  Tools act on
    [sys VersionLedger V]: the ledger and the outside world [V] behind the ports.
    docxtpl, LibreOffice, WeasyPrint (its import included, which may raise), the
    JSON encoder and SHA-256 are parameters; logs are left out. *)

From Stdlib Require Import ZArith Lia Ascii String List QArith Sorting.Sorted.
From stdpp Require Import base list strings pretty.
From S2P Require Import Prelude PyTime ConnErrors Effects Domain PyText Reference Ports Qc QcChecks Flow Template.

Open Scope string_scope.
Open Scope list_scope.
Open Scope Z_scope.
Open Scope cam_scope.

(** ** version_store.py *)

Definition doc_series : Type := string * string * string.

Record VersionLedger := mk_VersionLedger {
  lg_versions : dict doc_series Z;
  lg_idem : dict string Document;
  lg_checksums : dict string string }.

Definition empty_ledger : VersionLedger := mk_VersionLedger [] [] [].

Definition latest_version (k : doc_series) (l : VersionLedger) : Z :=
  match dget k (lg_versions l) with Some n => n | None => 0 end.

Definition next_version (k : doc_series) : M VersionLedger Z := fun l =>
  let n := latest_version k l + 1 in
  (mk_VersionLedger (dset k n (lg_versions l)) (lg_idem l) (lg_checksums l), Ok n).

Definition lookup_idem (key : string) (l : VersionLedger) : option Document := dget key (lg_idem l).

Definition VersionCollisionError (key : string) : exn :=
  OtherError "VersionCollisionError" ("Idempotency key " +:+ py_repr key +:+
    " collision: stored checksum differs from new content.").

Definition record_idem (key : string) (doc : Document) (checksum : string) : M VersionLedger unit := fun l =>
  match dget key (lg_checksums l) with
  | Some c =>
      if String.eqb c checksum then
        (mk_VersionLedger (lg_versions l) (dset key doc (lg_idem l)) (dset key checksum (lg_checksums l)), Ok tt)
      else (l, Err (VersionCollisionError key))
  | None => (mk_VersionLedger (lg_versions l) (dset key doc (lg_idem l)) (dset key checksum (lg_checksums l)), Ok tt)
  end.

(** ** renderer.py: PDF conversion *)

(** What the conversion finds on the machine: the environment variable
    CAM_PDF_ENGINE, [shutil.which], whether the macOS bundle exists, what
    [import weasyprint] does; a run of LibreOffice on an input file, with its exit
    code, error output and the PDF it leaves; WeasyPrint. *)
Record PdfEnv := mk_PdfEnv {
  pe_engine_env : option string;
  pe_which : string -> option string;
  pe_mac_bundle : bool;
  pe_import_weasyprint : res unit;
  pe_soffice : string -> string -> string -> res (Z * string * option string);
  pe_write_pdf : string -> res string }.

Section Pdf.
Context (env : PdfEnv) (exn_str : exn -> string).

Definition ConvertError (msg : string) : exn := OtherError "ConvertError" msg.

Definition found (name : string) : option string :=
  match pe_which env name with Some p => if str_truthy p then Some p else None | None => None end.

Definition find_libreoffice : option string :=
  match found "libreoffice" with
  | Some p => Some p
  | None => match found "soffice" with
            | Some p => Some p
            | None => if pe_mac_bundle env then Some "/Applications/LibreOffice.app/Contents/MacOS/soffice" else None
            end
  end.

Inductive PdfEngine := LibreOffice | WeasyPrint.

(** [except ImportError] *)
Definition is_import_error (e : exn) : bool := str_in (exn_name e) ["ImportError"; "ModuleNotFoundError"].

Definition has_weasyprint : res bool :=
  match pe_import_weasyprint env with
  | Ok _ => Ok true
  | Err e => if is_import_error e then Ok false else Err e
  end.

Definition detect_pdf_engine : res (option PdfEngine) :=
  let libre := if bool_decide (find_libreoffice = None) then None else Some LibreOffice in
  let weasy := letr! b := has_weasyprint in Ok (if b : bool then Some WeasyPrint else None) in
  let preferred := match pe_engine_env env with Some e => e | None => "auto" end in
  if String.eqb preferred "none" then Ok None
  else if String.eqb preferred "libreoffice" then Ok libre
  else if String.eqb preferred "weasyprint" then weasy
  else match libre with Some e => Ok (Some e) | None => weasy end.

Definition libreoffice_to_pdf (docx : string) : res string :=
  match find_libreoffice with
  | None => Err (ConvertError "LibreOffice binary not found on PATH.")
  | Some binary =>
      letr! (code, stderr, pdf) := pe_soffice env binary "input.docx" docx in
      if negb (code =? 0) then
        Err (ConvertError ("LibreOffice conversion failed (exit " +:+ pretty code +:+ "): " +:+ str_strip stderr))
      else or_raise (ConvertError "LibreOffice produced no output PDF file.") pdf
  end.

(** An HTML file; a missing output is found when it is opened. *)
Definition html_to_pdf (html : string) : res string :=
  match find_libreoffice with
  | None => Err (TypeError "expected str, bytes or os.PathLike object, not NoneType")
  | Some binary =>
      letr! (code, stderr, pdf) := pe_soffice env binary "input.html" html in
      if negb (code =? 0) then Err (ConvertError ("LibreOffice HTML conversion failed: " +:+ str_strip stderr))
      else or_raise (OtherError "FileNotFoundError" "input.pdf") pdf
  end.

Definition weasyprint_to_pdf (content : string) : res string :=
  match pe_import_weasyprint env with
  | Ok _ => pe_write_pdf env content
  | Err e => if is_import_error e then Err (ConvertError "WeasyPrint is not installed.") else Err e
  end.

Definition convert_with (engine : PdfEngine) (content : string) : res string :=
  match engine with
  | LibreOffice => if starts_with ZIP_MAGIC content then libreoffice_to_pdf content else html_to_pdf content
  | WeasyPrint => weasyprint_to_pdf content
  end.

Definition to_pdf (content : string) (mandatory : bool) : res (option string) :=
  letr! engine := detect_pdf_engine in
  match engine with
  | None =>
      if mandatory then Err (ConvertError "PDF conversion is disabled or no engine is available (set CAM_PDF_ENGINE=auto and install LibreOffice or WeasyPrint).")
      else Ok None
  | Some engine =>
      match convert_with engine content with
      | Ok pdf => Ok (Some pdf)
      | Err e =>
          if negb mandatory then Ok None
          else if String.eqb (exn_name e) "ConvertError" then Err e
          else Err (ConvertError ("PDF conversion error: " +:+ exn_str e))
      end
  end.

(** Unless a PDF is mandatory, only choosing the engine can raise. *)
Lemma to_pdf_optional content :
  match to_pdf content false, detect_pdf_engine with
  | Ok _, Ok _ => True
  | Err e, Err e' => e = e'
  | _, _ => False
  end.
Proof.
  unfold to_pdf. destruct detect_pdf_engine as [[engine|]|e]; cbn; [|done..]. by destruct (convert_with _ _).
Qed.

Lemma detect_pdf_engine_err e : detect_pdf_engine = Err e -> pe_import_weasyprint env = Err e /\ is_import_error e = false.
Proof.
  assert ((letr! b := has_weasyprint in Ok (if b : bool then Some WeasyPrint else None)) = Err e ->
    pe_import_weasyprint env = Err e /\ is_import_error e = false) as Hw.
  { unfold has_weasyprint. destruct (pe_import_weasyprint env) as [u|e']; [done|].
    destruct (is_import_error e') eqn:E; [done|]. intros [= ->]. by rewrite E. }
  unfold detect_pdf_engine. set (weasy := res_bind _ _) in *. clearbody weasy.
  repeat match goal with |- (if ?b then _ else _) = _ -> _ => destruct b; try done end.
  case_match; done.
Qed.
End Pdf.

(** ** tools.py *)

Record GenerationResult := mk_GenerationResult {
  gr_document : option Document;
  gr_status : string;
  gr_gaps : list Gap;
  gr_qc_verdict : string;
  gr_template_name : string;
  gr_template_version : Z;
  gr_idempotency_key : string;
  gr_run_id : string;
  gr_warnings : list string }.

Definition determine_status (gaps : list Gap) (qc_verdict : string) : string :=
  match gaps with
  | _ :: _ => "incomplete"
  | [] =>
      if String.eqb qc_verdict "fail" then "blocked"
      else if String.eqb qc_verdict "skipped" then "incomplete"
      else "ready"
  end.

Section Tools.
Context {V : Type} {DS : DocStoreConnector V}.
Context (clock : nat -> datetime) (uuids : nat -> string) (sha256_hex : string -> string).
Context (json_sorted json_canonical : jdict -> string) (json_str : json -> string) (exn_str : exn -> string).
Context (docxtpl_render : string -> doc_context -> res string) (penv : PdfEnv).
Context (late : nat -> bool) (elapsed : nat -> Q) (float_repr : Q -> string) (checks : CheckRegistry).
Context (audit_fn : option (AuditEvent -> M V unit)).
Context (templates : TemplateStore).

Abbreviation world := (sys VersionLedger V).

Definition docgen_idem_key (template_name : string) (version : Z) (context : doc_context) : string :=
  take_chars 24 (sha256_hex (json_sorted
    [("template", JStr template_name); ("version", JInt version);
     ("context", JDict (map (fun p => (p.1, jopt p.2)) context))])).

(** [idem_key_override or docgen_idem_key(...)] *)
Definition generation_key (override : option string) (template_name : string) (spec : TemplateSpec)
    (context : doc_context) : string :=
  match override with
  | Some k => if str_truthy k then k else docgen_idem_key template_name (ts_version spec) context
  | None => docgen_idem_key template_name (ts_version spec) context
  end.

(** [doc_key or template_name] *)
Definition series_of (m : Matter) (template_name : string) (doc_key : option string) : doc_series :=
  (mt_id m, template_name,
   match doc_key with Some k => if str_truthy k then k else template_name | None => template_name end).

Definition DOCX_MIME : string := "application/vnd.openxmlformats-officedocument.wordprocessingml.document".

Definition new_document (id matter_id template_name : string) (version : Z) (privileged : bool)
    (classification : option string) (checksum : string) (now : datetime) : Document :=
  mk_Document id matter_id (template_name +:+ "_v" +:+ pretty version +:+ ".docx") DOCX_MIME EmptyString
    classification version privileged checksum now.

Definition store_document (series : doc_series) (rendered checksum : string) (privileged : bool)
    (classification : option string) (key : string) : M world Document :=
  let '(matter_id, template_name, _) := series in
  let! existing := on_store (gets (lookup_idem key)) in
  match existing with
  | Some doc => ret doc
  | None =>
      let! version := on_store (next_version series) in
      let! id := uuid4 uuids in
      let! now := get_now clock in
      let! stored := on_world (ds_put
        (new_document id matter_id template_name version privileged classification checksum now) rendered) in
      on_store (record_idem key stored checksum) ;;
      ret stored
  end.

Definition docgen_packet (spec : TemplateSpec) (m : Matter) (context : doc_context) (run_id : string) (now : datetime)
    : VerificationPacket :=
  let value n := match dget n context with Some o => o | None => None end in
  mk_VerificationPacket ("qc-docgen-" +:+ run_id) (Some run_id) DocumentGenerate m [] [] [] [] []
    [mk_TemplateBinding (ts_name spec) (map tv_name (bfilter tv_required (ts_variables spec)))
       (fold_left (fun d v => dset (tv_name v) (value (tv_name v)) d) (ts_variables spec) [])]
    [] false now default_qc_config.

Definition run_qc (spec : TemplateSpec) (m : Matter) (context : doc_context) (run_id : string) : M world string :=
  try_except
    (let! now := get_now clock in
     let! created_at := get_now clock in
     let! report := on_world (tool_qc_verify late elapsed float_repr sha256_hex json_canonical audit_fn
       None checks created_at (docgen_packet spec m context run_id now) (Some ["completeness"; "consistency"])) in
     ret (match rep_aggregate report with
          | ABlock => "fail"
          | APassWithWarnings => "warn"
          | APass => "pass"
          end))
    (fun _ => ret "skipped").

(** The digest of [str(sorted(context.keys()))]. *)
Definition context_digest (context : doc_context) : string :=
  take_chars 12 (sha256_hex (py_repr_list (py_sorted String.leb (dkeys context)))).

Definition docgen_audit (run_id template_name : string) (version : Z) (key : string) (gaps : list Gap)
    (qc_verdict status : string) (context : doc_context) : M world unit :=
  match audit_fn with
  | None => ret tt
  | Some f => try_pass (on_world (f (mk_AuditEvent "docgen_service" "document.generate"
      [("template", JStr template_name); ("template_version", JInt version); ("idem_key", JStr key);
       ("context_digest", JStr (context_digest context)); ("gap_count", JInt (Z.of_nat (length gaps)))]
      [("status", JStr status); ("qc_verdict", JStr qc_verdict)] (Some run_id))))
  end.

Definition failed_result (template_name : string) (version : Z) (key run_id warning : string) : GenerationResult :=
  mk_GenerationResult None "failed" [] "skipped" template_name version key run_id [warning].

(** [form_id or template_name] *)
Definition classification_of (spec : TemplateSpec) (template_name : string) : string :=
  match ts_target_form_id spec with Some f => if str_truthy f then f else template_name | None => template_name end.

Definition store_warning (e : exn) : string :=
  if String.eqb (exn_name e) "VersionCollisionError" then exn_str e else "Store error: " +:+ exn_str e.

(** From the rendered bytes on: PDF, check, storing, audit. *)
Definition finish_generation (m : Matter) (template_name : string) (spec : TemplateSpec) (context : doc_context)
    (gaps : list Gap) (key : string) (doc_key : option string) (render_pdf : bool) (run_id rendered : string)
    : M world GenerationResult :=
  let! warnings := lift_res (if render_pdf then
                     letr! pdf := to_pdf penv exn_str rendered false in
                     Ok (match pdf with
                         | Some _ => []
                         | None => ["PDF conversion unavailable; DOCX stored only."]
                         end)
                   else Ok []) in
  let checksum := sha256_hex rendered in
  let! verdict := run_qc spec m context run_id in
  let! outcome := try_except
    (let! d := store_document (series_of m template_name doc_key) rendered checksum (ts_privileged_default spec)
                 (Some (classification_of spec template_name)) key in ret (inl d))
    (fun e => ret (inr e)) in
  match outcome with
  | inl doc =>
      let status := determine_status gaps verdict in
      docgen_audit run_id template_name (ts_version spec) key gaps verdict status context ;;
      ret (mk_GenerationResult (Some doc) status gaps verdict template_name (ts_version spec) key run_id warnings)
  | inr e =>
      docgen_audit run_id template_name (ts_version spec) key gaps verdict "failed" context ;;
      ret (failed_result template_name (ts_version spec) key run_id (store_warning e))
  end.

Definition tool_document_generate (m : Matter) (template_name : string) (data : option (dict string docval))
    (doc_key idem_key_override : option string) (render_pdf : bool) (run_id : option string)
    : M world GenerationResult :=
  let! run_id := match run_id with Some r => if str_truthy r then ret r else uuid4 uuids | None => uuid4 uuids end in
  match get_template template_name None templates with
  | Err _ => ret (failed_result template_name 1 EmptyString run_id ("Template " +:+ py_repr template_name +:+ " not found."))
  | Ok (spec, template) =>
      let context := build_context json_str spec m data in
      let gaps := detect_gaps spec context in
      let key := generation_key idem_key_override template_name spec context in
      let! existing := on_store (gets (lookup_idem key)) in
      match existing with
      | Some doc =>
          ret (mk_GenerationResult (Some doc) "ready" gaps "skipped" template_name (ts_version spec) key run_id [])
      | None =>
          match render_docx docxtpl_render exn_str template context gaps with
          | Err e =>
              docgen_audit run_id template_name (ts_version spec) key gaps "skipped" "failed" context ;;
              ret (failed_result template_name (ts_version spec) key run_id (exn_str e))
          | Ok rendered =>
              finish_generation m template_name spec context gaps key doc_key render_pdf run_id rendered
          end
      end
  end.

Inductive PrefillResult :=
| PrefillFields (resolved : dict string string) (gaps : list Gap) (form_id : string) (version : Z)
| PrefillDocument (r : GenerationResult).

(** [prefill_forms] of the active pack, or its absence. *)
Definition tool_form_prefill (pack_forms : res (dict string string)) (m : Matter) (form_id : string)
    (data : option (dict string docval)) (emit : string) (run_id : option string) : M world PrefillResult :=
  let! forms := lift_res pack_forms in
  match dget form_id forms with
  | None => raise (TemplateNotFoundError form_id)
  | Some template_name =>
      match get_template template_name None templates with
      | Err _ => raise (TemplateNotFoundError form_id)
      | Ok (spec, _) =>
          let context := build_context json_str spec m data in
          let gaps := detect_gaps spec context in
          if String.eqb emit "fields_only" then
            ret (PrefillFields
              (flat_map (fun p => match p.2 with Some v => [(p.1, v)] | None => [] end) context)
              gaps form_id (ts_version spec))
          else
            let! r := tool_document_generate m template_name data None None false run_id in
            ret (PrefillDocument r)
      end
  end.
End Tools.

(** ** The ledger *)

(** A document recorded under a key has its checksum recorded too, and conversely. *)
Definition ledger_ok (l : VersionLedger) : Prop :=
  forall key, dget key (lg_idem l) = None <-> dget key (lg_checksums l) = None.

Lemma empty_ledger_ok : ledger_ok empty_ledger.
Proof. done. Qed.

Section ToolProps.
Context {V : Type} {DS : DocStoreConnector V}.
Context (clock : nat -> datetime) (uuids : nat -> string) (sha256_hex : string -> string).
Context (json_sorted json_canonical : jdict -> string) (json_str : json -> string) (exn_str : exn -> string).
Context (docxtpl_render : string -> doc_context -> res string) (penv : PdfEnv).
Context (late : nat -> bool) (elapsed : nat -> Q) (float_repr : Q -> string) (checks : CheckRegistry).
Context (audit_fn : option (AuditEvent -> M V unit)).
Context (templates : TemplateStore).

Abbreviation world := (sys VersionLedger V).
Abbreviation store := (store_document clock uuids).
Abbreviation generate := (tool_document_generate clock uuids sha256_hex json_sorted json_canonical json_str exn_str
  docxtpl_render penv late elapsed float_repr checks audit_fn templates).

(** What storing a document under a new key does. *)
Lemma store_fresh series rendered checksum privileged cls key (w : world) :
  ledger_ok (sys_store w) -> lookup_idem key (sys_store w) = None ->
  exists draft v r, ds_put draft rendered (sys_world w) = (v, r) /\
    doc_matter_id draft = fst (fst series) /\ doc_version draft = latest_version series (sys_store w) + 1 /\
    doc_privileged draft = privileged /\ doc_checksum draft = checksum /\ doc_classification draft = cls /\
    let versions := dset series (doc_version draft) (lg_versions (sys_store w)) in
    let w1 l := mk_sys l v (S (sys_ticks w)) (S (sys_uuids w)) in
    store series rendered checksum privileged cls key w =
    match r with
    | Ok d => (w1 (mk_VersionLedger versions (dset key d (lg_idem (sys_store w)))
                     (dset key checksum (lg_checksums (sys_store w)))), Ok d)
    | Err e => (w1 (mk_VersionLedger versions (lg_idem (sys_store w)) (lg_checksums (sys_store w))), Err e)
    end.
Proof.
  intros Hok Hn. destruct series as [[mid name] dk]. set (series := (mid, name, dk)).
  set (draft := new_document (uuids (sys_uuids w)) mid name (latest_version series (sys_store w) + 1) privileged cls
                  checksum (clock (sys_ticks w))).
  destruct (ds_put draft rendered (sys_world w)) as [v r] eqn:E. exists draft, v, r. do 6 (split; [done|]). cbv zeta.
  unfold store_document, series at 1, bind at 1, on_store at 1, zoom at 1, gets. cbn. rewrite Hn.
  unfold bind, on_store, zoom, next_version, uuid4, get_now, tick, on_world, zoom, set_store, set_world. cbn. fold series draft. rewrite E.
  destruct r as [d|e]; cbn; [|done]. unfold record_idem. cbn. by rewrite (proj1 (Hok key) Hn).
Qed.

Lemma store_hit series rendered checksum privileged cls key (w : world) doc :
  lookup_idem key (sys_store w) = Some doc -> store series rendered checksum privileged cls key w = (w, Ok doc).
Proof.
  intros H. destruct series as [[mid name] dk]. unfold store_document, bind at 1, on_store at 1, zoom at 1, gets. cbn.
  rewrite H. by destruct w.
Qed.

Lemma ledger_ok_dset versions key d c (l : VersionLedger) :
  ledger_ok l -> ledger_ok (mk_VersionLedger versions (dset key d (lg_idem l)) (dset key c (lg_checksums l))).
Proof. intros H k. cbn. rewrite !dget_dset. case_decide; [done|apply H]. Qed.

(** ** Versions *)

Record StoreReq := mk_StoreReq {
  sq_series : doc_series; sq_rendered : string; sq_checksum : string; sq_privileged : bool;
  sq_classification : option string; sq_key : string }.

Definition store_req (q : StoreReq) : M world Document :=
  store (sq_series q) (sq_rendered q) (sq_checksum q) (sq_privileged q) (sq_classification q) (sq_key q).

(** The versions of the documents of a series that a sequence of calls newly
    stores, in order. *)
Fixpoint stored_versions (k : doc_series) (reqs : list StoreReq) (w : world) : list Z :=
  match reqs with
  | [] => []
  | q :: reqs' =>
      let '(w', r) := store_req q w in
      match lookup_idem (sq_key q) (sys_store w), r with
      | None, Ok d =>
          if decide (sq_series q = k) then doc_version d :: stored_versions k reqs' w' else stored_versions k reqs' w'
      | _, _ => stored_versions k reqs' w'
      end
  end.

Lemma store_req_ledger q (w : world) :
  ledger_ok (sys_store w) -> let '(w', r) := store_req q w in
  ledger_ok (sys_store w') /\
  (forall k, latest_version k (sys_store w) <= latest_version k (sys_store w')).
Proof.
  intros Hok. unfold store_req. destruct (lookup_idem (sq_key q) (sys_store w)) as [doc|] eqn:El.
  - rewrite (store_hit _ _ _ _ _ _ _ _ El). done.
  - destruct (store_fresh (sq_series q) (sq_rendered q) (sq_checksum q) (sq_privileged q) (sq_classification q) _ w Hok El)
      as (draft & v & r & _ & _ & Hv & _ & _ & _ & ->). cbv zeta.
    assert (forall k l, lg_versions l = dset (sq_series q) (doc_version draft) (lg_versions (sys_store w)) ->
      latest_version k (sys_store w) <= latest_version k l) as Hmono.
    { intros k l Hl. unfold latest_version in Hv |- *. rewrite Hl, dget_dset. case_decide as Hd; [|done]. rewrite Hd. lia. }
    destruct r as [d|e]; cbn; split; try (by intros k; apply Hmono); [by apply ledger_ok_dset|].
    intros k. apply Hok.
Qed.

(** Versions never repeat.  Whatever documents are asked to be stored, in
    whatever order, with whatever failures of the document store, the documents
    newly stored of one series (matter, template, document key) have strictly
    increasing versions, above the one the ledger had. *)
Lemma versions_increase k reqs (w : world) :
  ledger_ok (sys_store w) ->
  (forall d b v v' d', ds_put d b v = (v', Ok d') -> doc_version d' = doc_version d) ->
  StronglySorted Z.lt (stored_versions k reqs w) /\
  Forall (fun n => latest_version k (sys_store w) < n) (stored_versions k reqs w).
Proof.
  intros Hok Hput. revert w Hok. induction reqs as [|q reqs IH]; intros w Hok; cbn [stored_versions]; [by repeat constructor|].
  pose proof (store_req_ledger q w Hok) as Hl. destruct (store_req q w) as [w' r] eqn:E. destruct Hl as [Hok' Hmono].
  destruct (IH w' Hok') as [Hs Hf].
  assert (Forall (fun n => latest_version k (sys_store w) < n) (stored_versions k reqs w')) as Hf'.
  { eapply Forall_impl; [exact Hf|]. intros n Hn. cbv beta in *. specialize (Hmono k). lia. }
  destruct (lookup_idem (sq_key q) (sys_store w)) as [doc|] eqn:El; [done|]. destruct r as [d|e]; [|done].
  case_decide as Hk; [|done].
  unfold store_req in E. destruct (store_fresh (sq_series q) (sq_rendered q) (sq_checksum q) (sq_privileged q)
    (sq_classification q) _ w Hok El) as (draft & v & r & Hp & _ & Hv & _ & _ & _ & Hst).
  cbv zeta in Hst. rewrite Hst in E. destruct r as [d'|e]; [|done]. injection E as <- <-.
  rewrite (Hput _ _ _ _ _ Hp). subst k.
  assert (latest_version (sq_series q) (sys_store w) < doc_version draft) as Hlt by lia.
  split; [|by constructor]. constructor; [done|]. eapply Forall_impl; [exact Hf|]. intros n. cbn.
  unfold latest_version at 1. cbn. by rewrite dget_dset_eq.
Qed.

(** ** Generation *)

Lemma run_qc_ok spec m ctx rid (w : world) :
  exists w1 v, run_qc clock sha256_hex json_canonical late elapsed float_repr checks audit_fn spec m ctx rid w = (w1, Ok v) /\
    sys_store w1 = sys_store w /\ (v = "pass" \/ v = "warn" \/ v = "fail" \/ v = "skipped").
Proof.
  pose proof (fun A (m : M V A) => const_on_world (T := VersionLedger) m) as Hc.
  unfold run_qc. match goal with |- context [try_except ?body ?h w] =>
    assert (store_const body) as Hb by (apply const_bind; [auto with cam|intros; apply const_bind; [auto with cam|
      intros; apply const_bind; [apply Hc|intros; apply const_ret]]]); specialize (Hb w); unfold try_except;
    destruct (body w) as [w1 [v|e]] eqn:E end; cbn in Hb; [|by exists w1, "skipped"; split; [|split; [|do 3 right]]].
  exists w1, v. split; [done|]. split; [done|]. inv_bind E. inv_bind E. inv_bind E. injection E as <- <-.
  destruct (rep_aggregate _); auto.
Qed.

Lemma docgen_audit_ok rid name version key gaps verdict status ctx (w : world) :
  exists w1, docgen_audit sha256_hex audit_fn rid name version key gaps verdict status ctx w = (w1, Ok tt) /\
    sys_store w1 = sys_store w.
Proof.
  unfold docgen_audit. destruct audit_fn as [f|]; [|by exists w]. unfold try_pass.
  destruct (on_world _ w) as [w1 r] eqn:E. exists w1. split; [done|].
  eapply const_eq; [|exact E]. apply const_on_world.
Qed.

(** The result of a call whose key is in the ledger. *)
Definition hit_result (doc : Document) (gaps : list Gap) (name : string) (version : Z) (key run_id : string)
    : GenerationResult := mk_GenerationResult (Some doc) "ready" gaps "skipped" name version key run_id [].

(** A document stored by a call: what was asked of the document store, and the
    ledger afterwards. *)
Definition stored_as_asked (m : Matter) (spec : TemplateSpec) (series : doc_series) (rendered key : string)
    (l l' : VersionLedger) (doc : Document) : Prop :=
  exists draft v v', ds_put draft rendered v = (v', Ok doc) /\ doc_matter_id draft = mt_id m /\
    doc_version draft = latest_version series l + 1 /\ doc_privileged draft = ts_privileged_default spec /\
    doc_checksum draft = sha256_hex rendered /\
    lg_versions l' = dset series (doc_version draft) (lg_versions l) /\ lg_idem l' = dset key doc (lg_idem l).

(** How a generation from rendered bytes ends.  A PDF that was asked for and whose
    engine cannot be chosen raises before anything is stored. *)
Definition pdf_raises (pdf_wanted : bool) (e : exn) : Prop :=
  pdf_wanted = true /\ detect_pdf_engine penv = Err e /\ pe_import_weasyprint penv = Err e /\
  is_import_error e = false.

Lemma warnings_cases (pdf_wanted : bool) rendered :
  let warnings := if pdf_wanted then
      letr! pdf := to_pdf penv exn_str rendered false in
      Ok (match pdf with Some _ => [] | None => ["PDF conversion unavailable; DOCX stored only."] end)
    else Ok [] in
  (exists ws, warnings = Ok ws) \/ (exists e, warnings = Err e /\ pdf_raises pdf_wanted e).
Proof.
  cbv zeta. destruct pdf_wanted; [|left; by eexists]. pose proof (to_pdf_optional penv exn_str rendered) as H.
  destruct (to_pdf penv exn_str rendered false) as [pdf|e]; cbn; [left; by eexists|right].
  destruct (detect_pdf_engine penv) as [|e'] eqn:E; [done|]. subst e'. exists e. split; [done|].
  split; [done|]. split; [done|]. by apply detect_pdf_engine_err.
Qed.

Lemma finish_run m name spec ctx gaps key doc_key pdf_wanted rid rendered (w : world) :
  ledger_ok (sys_store w) -> lookup_idem key (sys_store w) = None ->
  (exists e, finish_generation clock uuids sha256_hex json_canonical exn_str penv late elapsed float_repr checks
      audit_fn m name spec ctx gaps key doc_key pdf_wanted rid rendered w = (w, Err e) /\ pdf_raises pdf_wanted e) \/
  exists w' res, finish_generation clock uuids sha256_hex json_canonical exn_str penv late elapsed float_repr checks
      audit_fn m name spec ctx gaps key doc_key pdf_wanted rid rendered w = (w', Ok res) /\
    ledger_ok (sys_store w') /\
    (gr_status res = "failed" /\ gr_document res = None /\ lg_idem (sys_store w') = lg_idem (sys_store w) \/
     exists doc, gr_document res = Some doc /\ gr_gaps res = gaps /\
       gr_status res = determine_status gaps (gr_qc_verdict res) /\
       (gr_qc_verdict res = "pass" \/ gr_qc_verdict res = "warn" \/ gr_qc_verdict res = "fail" \/
        gr_qc_verdict res = "skipped") /\
       stored_as_asked m spec (series_of m name doc_key) rendered key (sys_store w) (sys_store w') doc).
Proof.
  intros Hok Hn. unfold finish_generation.
  destruct (warnings_cases pdf_wanted rendered) as [[ws Ew]|(e & Ew & He)]; rewrite Ew;
    [right|left; exists e; by split].
  unfold bind at 1. cbn [lift_res]. destruct (run_qc_ok spec m ctx rid w) as (w1 & verdict & Eq & Hs & Hv).
  unfold bind at 1. rewrite Eq. rewrite <- Hs in Hok, Hn.
  destruct (store_fresh (series_of m name doc_key) rendered (sha256_hex rendered) (ts_privileged_default spec)
    (Some (classification_of spec name)) key w1 Hok Hn) as (draft & v & r & Hp & Hm & Hver & Hpr & Hc & _ & Hst).
  cbv zeta in Hst. unfold bind at 1, try_except, bind at 1. rewrite Hst. destruct r as [d|e]; cbv beta iota delta [ret].
  - match goal with |- context [docgen_audit _ _ ?a ?b ?c ?d ?e ?f ?g ?h] => unfold bind;
      match goal with |- context [docgen_audit _ _ _ _ _ _ _ _ _ _ ?w2] =>
        destruct (docgen_audit_ok a b c d e f g h w2) as (w3 & -> & Hs3) end end.
    eexists w3, _. split; [reflexivity|]. rewrite Hs3. cbn. split; [by apply ledger_ok_dset|]. right. exists d.
    do 4 (split; [done|]). exists draft, (sys_world w1), v. rewrite <- Hs. done.
  - match goal with |- context [docgen_audit _ _ ?a ?b ?c ?d ?e ?f ?g ?h] => unfold bind;
      match goal with |- context [docgen_audit _ _ _ _ _ _ _ _ _ _ ?w2] =>
        destruct (docgen_audit_ok a b c d e f g h w2) as (w3 & -> & Hs3) end end.
    eexists w3, _. split; [reflexivity|]. rewrite Hs3. cbn. split; [exact Hok|]. left. by rewrite <- Hs.
Qed.

Lemma ready_iff gaps verdict :
  verdict = "pass" \/ verdict = "warn" \/ verdict = "fail" \/ verdict = "skipped" ->
  determine_status gaps verdict = "ready" <-> gaps = [] /\ (verdict = "pass" \/ verdict = "warn").
Proof. intros [->|[->|[->| ->]]]; destruct gaps; cbn; intuition congruence. Qed.
Lemma lookup_step {A} key (f : option Document -> M world A) (w : world) :
  (let! existing := on_store (gets (lookup_idem key)) in f existing) w = f (lookup_idem key (sys_store w)) w.
Proof. by destruct w. Qed.

(** The run id a call works under, and the state after it was chosen. *)
Lemma chosen_run_id rid (w : world) :
  exists w0 id, (match rid with Some r => if str_truthy r then ret r else uuid4 uuids | None => uuid4 uuids end) w =
    (w0, Ok id) /\ sys_store w0 = sys_store w /\ sys_world w0 = sys_world w.
Proof. destruct rid as [r|]; [destruct (str_truthy r)|]; (eexists _, _; split; [reflexivity|done]). Qed.

Lemma generate_hit m name spec template data doc_key override pdf_wanted rid (w : world) doc :
  get_template name None templates = Ok (spec, template) ->
  let ctx := build_context json_str spec m data in
  let key := generation_key sha256_hex json_sorted override name spec ctx in
  lookup_idem key (sys_store w) = Some doc ->
  exists w' id, generate m name data doc_key override pdf_wanted rid w =
    (w', Ok (hit_result doc (detect_gaps spec ctx) name (ts_version spec) key id)) /\
    sys_store w' = sys_store w /\ sys_world w' = sys_world w.
Proof.
  intros Ht ctx key Hk. unfold tool_document_generate, bind at 1. destruct (chosen_run_id rid w) as (w0 & id & -> & Hs & Hw).
  rewrite Ht. fold ctx key. rewrite lookup_step, Hs, Hk. exists w0, id. done.
Qed.

(** C32: what document.generate promises.  A call for a known template under a key
    that is not in the ledger returns, or raises what [import weasyprint] raised
    while the engine of a wanted PDF was chosen, if that was no ImportError, and
    then it has stored and called nothing.  A call that returns either failed,
    without a document and without a record of the key, or the document is the one
    the document store made of the rendered bytes: for this matter, with the next
    version of its series, the checksum of the bytes and the template's
    confidentiality, recorded under the key.  Its status follows from the gaps and
    the quality verdict, and it is ready exactly when there is no gap and the
    check passed; an incomplete or blocked result has its document as well. *)
Theorem generation_sound m name spec template data doc_key override pdf_wanted rid (w : world) :
  ledger_ok (sys_store w) -> get_template name None templates = Ok (spec, template) ->
  let ctx := build_context json_str spec m data in
  let gaps := detect_gaps spec ctx in
  let key := generation_key sha256_hex json_sorted override name spec ctx in
  lookup_idem key (sys_store w) = None ->
  exists w' r, generate m name data doc_key override pdf_wanted rid w = (w', r) /\ ledger_ok (sys_store w') /\
    match r with
    | Err e => pdf_raises pdf_wanted e /\ sys_store w' = sys_store w /\ sys_world w' = sys_world w
    | Ok res =>
        gr_status res = "failed" /\ gr_document res = None /\ lg_idem (sys_store w') = lg_idem (sys_store w) \/
        exists rendered doc, render_docx docxtpl_render exn_str template ctx gaps = Ok rendered /\
          gr_document res = Some doc /\ gr_gaps res = gaps /\
          stored_as_asked m spec (series_of m name doc_key) rendered key (sys_store w) (sys_store w') doc /\
          gr_status res = determine_status gaps (gr_qc_verdict res) /\
          (gr_status res = "ready" <-> gaps = [] /\ (gr_qc_verdict res = "pass" \/ gr_qc_verdict res = "warn"))
    end.
Proof.
  intros Hok Ht ctx gaps key Hk. unfold tool_document_generate, bind at 1.
  destruct (chosen_run_id rid w) as (w0 & id & -> & Hs & Hw). rewrite Ht. fold ctx gaps key.
  rewrite lookup_step, Hs, Hk.
  destruct (render_docx _ _ _ _ _) as [rendered|e] eqn:Er.
  - rewrite <- Hs in Hok, Hk.
    destruct (finish_run m name spec ctx gaps key doc_key pdf_wanted id rendered w0 Hok Hk)
      as [(e & -> & He)|(w' & res & -> & Hok' & Hres)].
    { exists w0, (Err e). by rewrite Hs, Hw in *. }
    rewrite <- Hs. exists w', (Ok res). split; [done|]. split; [done|]. destruct Hres as [?|(doc & Hd & Hg & Hst & Hv & Ha)]; [by left|].
    right. exists rendered, doc. do 5 (split; [done|]). rewrite Hst. by apply ready_iff.
  - unfold bind. destruct (docgen_audit_ok id name (ts_version spec) key gaps "skipped" "failed" ctx w0) as (w1 & -> & Hs1).
    eexists w1, (Ok _). split; [reflexivity|]. rewrite Hs1, Hs. split; [done|]. by left.
Qed.

(** One document per key.  Once a call has answered with a document under a
    key, every call under that key, for whatever matter, template and data,
    answers with that same document, and neither asks the document store for
    anything nor changes the ledger. *)
Lemma one_document_per_key m name spec template data doc_key override pdf_wanted rid (w w1 : world) res doc
    m2 name2 spec2 template2 data2 doc_key2 override2 pdf2 rid2 :
  let key := generation_key sha256_hex json_sorted override name spec (build_context json_str spec m data) in
  ledger_ok (sys_store w) -> get_template name None templates = Ok (spec, template) ->
  generate m name data doc_key override pdf_wanted rid w = (w1, Ok res) -> gr_document res = Some doc ->
  get_template name2 None templates = Ok (spec2, template2) ->
  generation_key sha256_hex json_sorted override2 name2 spec2 (build_context json_str spec2 m2 data2) = key ->
  exists w2 res2, generate m2 name2 data2 doc_key2 override2 pdf2 rid2 w1 = (w2, Ok res2) /\
    gr_document res2 = Some doc /\ gr_status res2 = "ready" /\
    sys_store w2 = sys_store w1 /\ sys_world w2 = sys_world w1.
Proof.
  intros key Hok Ht Hg Hd Ht2 Hkey. assert (lookup_idem key (sys_store w1) = Some doc) as Hrec.
  { destruct (lookup_idem key (sys_store w)) as [d|] eqn:El.
    - destruct (generate_hit m name spec template data doc_key override pdf_wanted rid w d Ht El) as (w' & id & E & Hs & _).
      rewrite E in Hg. injection Hg as <- <-. cbn in Hd. by rewrite Hs, El.
    - unfold tool_document_generate, bind at 1 in Hg. destruct (chosen_run_id rid w) as (w0 & id & E0 & Hs & Hw).
      rewrite E0, Ht in Hg. cbv zeta in Hg. fold key in Hg. rewrite lookup_step, Hs, El in Hg.
      destruct (render_docx _ _ _ _ _) as [rendered|e].
      + rewrite <- Hs in Hok, El.
        destruct (finish_run m name spec (build_context json_str spec m data)
          (detect_gaps spec (build_context json_str spec m data)) key doc_key pdf_wanted id rendered w0 Hok El)
          as [(e & E' & _)|(w' & res' & E' & _ & [(_ & Hn & _)|(d & Hd' & _ & _ & _ & Ha)])];
          rewrite E' in Hg; [done|injection Hg as <- <-; congruence|injection Hg as <- <-]. rewrite Hd in Hd'. injection Hd' as <-.
        destruct Ha as (draft & v & v' & _ & _ & _ & _ & _ & _ & Hi). unfold lookup_idem. rewrite Hi. apply dget_dset_eq.
      + unfold bind in Hg. destruct (docgen_audit_ok id name (ts_version spec) key
          (detect_gaps spec (build_context json_str spec m data)) "skipped" "failed" (build_context json_str spec m data) w0)
          as (w' & E' & _). rewrite E' in Hg. injection Hg as <- <-. done. }
  rewrite <- Hkey in Hrec.
  destruct (generate_hit m2 name2 spec2 template2 data2 doc_key2 override2 pdf2 rid2 w1 doc Ht2 Hrec) as (w2 & id & E & Hs & Hw).
  eexists w2, _. split; [exact E|]. done.
Qed.
End ToolProps.

(** ** A concrete office

    The reference document store, two templates, the registered checks, and the
    identity in place of SHA-256. *)

Definition dg_supply (n : nat) : string := "u" +:+ pretty (Z.of_nat n).
#[local] Instance dg_docs : DocStoreConnector RefWorld := ref_docs dg_supply (fun s => s).

(** The values of the context, one after the other: enough of its JSON text here. *)
Definition dg_json (d : jdict) : string :=
  match dget "context" d with
  | Some (JDict c) => str_join "|" (map (fun p => match p.2 with JStr s => s | _ => "null" end) c)
  | _ => EmptyString
  end.

Definition letter_spec : TemplateSpec :=
  mk_TemplateSpec "letter" 1 "html" None true [tpl_var "client.full_name" true TyString] "".
Definition fee_spec : TemplateSpec :=
  mk_TemplateSpec "fee" 1 "html" None true [tpl_var "client.full_name" true TyString; tpl_var "fee" true TyNumber] "".

Definition dg_templates : TemplateStore :=
  match (letr! s := register_template (fun s => s) letter_spec "Dear {{ client.full_name }}" true [] in
         register_template (fun s => s) fee_spec "{{ client.full_name }}: {{ fee }}" true s) with
  | Ok s => s | Err _ => [] end.

Definition dg_checks : CheckRegistry := register_all (fun _ => "") None true [].
Definition dg_world : sys VersionLedger RefWorld := mk_sys empty_ledger empty_ref_world 0 0.

Definition dg_matter (id name : string) : Matter :=
  mk_Matter id "case" ("REF-" +:+ id) "Title" "open" None
    (mk_Contact ("c" +:+ id) "crm" name (Some "ada@x.org") None None []) None (utc_datetime (ymd2ord 2026 3 9) 0) [] [].

(** A machine with no engine. *)
Definition dg_penv : PdfEnv :=
  mk_PdfEnv None (fun _ => None) false (Err (OtherError "ImportError" "")) (fun _ _ _ => Err (OtherError "OSError" ""))
    (fun _ => Err (OtherError "OSError" "")).

Abbreviation dg_generate m name data :=
  (tool_document_generate (V := RefWorld) (fun _ => utc_datetime (ymd2ord 2026 3 9) 0) dg_supply (fun s => s) dg_json
    dg_json (fun _ => "?") exn_name (fun _ _ => Err (OtherError "ImportError" "")) dg_penv (fun _ => false)
    (fun _ => 0%Q) (fun _ => "") dg_checks None dg_templates m name data None None false (Some "r1")).

Definition document_of (p : sys VersionLedger RefWorld * res GenerationResult) : option Document :=
  match snd p with Ok r => gr_document r | Err _ => None end.
Definition status_of_result (p : sys VersionLedger RefWorld * res GenerationResult) : string :=
  match snd p with Ok r => gr_status r | Err _ => "raised" end.

Example letter_ready :
  let p := dg_generate (dg_matter "m1" "Ada") "letter" None dg_world in
  status_of_result p = "ready" /\
  option_map doc_matter_id (document_of p) = Some "m1" /\ option_map doc_checksum (document_of p) = Some "Dear Ada".
Proof. repeat split; vm_compute; reflexivity. Qed.

(** The key is made of the template and the values shown, not of the matter: a
    second matter whose values agree is given the first one's document. *)
Example other_matters_document :
  let p := dg_generate (dg_matter "m1" "Ada") "letter" None dg_world in
  let q := dg_generate (dg_matter "m2" "Ada") "letter" None (fst p) in
  status_of_result q = "ready" /\ option_map doc_matter_id (document_of q) = Some "m1".
Proof. split; vm_compute; reflexivity. Qed.

(** A document with gaps is incomplete, until the call is repeated. *)
Example incomplete_then_ready :
  let p := dg_generate (dg_matter "m1" "Ada") "fee" None dg_world in
  let q := dg_generate (dg_matter "m1" "Ada") "fee" None (fst p) in
  status_of_result p = "incomplete" /\ status_of_result q = "ready" /\
  match snd q with Ok r => map gap_variable (gr_gaps r) | Err _ => [] end = ["fee"].
Proof. repeat split; vm_compute; reflexivity. Qed.

(** The result of an incomplete generation carries its document. *)
Example incomplete_has_document :
  let p := dg_generate (dg_matter "m1" "Ada") "fee" None dg_world in
  status_of_result p = "incomplete" /\ option_map doc_checksum (document_of p) = Some "Ada: [[MISSING: <fee>]]".
Proof. split; vm_compute; reflexivity. Qed.

(** WeasyPrint is installed but a native library it loads is not: its import
    raises an OSError, which escapes though the PDF is optional. *)
Definition dg_no_library : PdfEnv :=
  mk_PdfEnv None (fun _ => None) false (Err (OtherError "OSError" "cannot load library"))
    (fun _ _ _ => Err (OtherError "OSError" "")) (fun _ => Err (OtherError "OSError" "")).

Example native_library_missing :
  to_pdf dg_no_library exn_name "Dear Ada" false = Err (OtherError "OSError" "cannot load library") /\
  to_pdf dg_penv exn_name "Dear Ada" false = Ok None.
Proof. by split. Qed.

Lemma generation_sound_witness :
  let m := dg_matter "m1" "Ada" in
  let ctx := build_context (fun _ => "?") letter_spec m None in
  exists w' res, dg_generate m "letter" None dg_world = (w', Ok res) /\ gr_status res = "ready" /\
    detect_gaps letter_spec ctx = [] /\ (gr_qc_verdict res = "pass" \/ gr_qc_verdict res = "warn").
Proof.
  destruct (generation_sound (V := RefWorld) (fun _ => utc_datetime (ymd2ord 2026 3 9) 0) dg_supply (fun s => s) dg_json
    dg_json (fun _ => "?") exn_name (fun _ _ => Err (OtherError "ImportError" "")) dg_penv (fun _ => false)
    (fun _ => 0%Q) (fun _ => "") dg_checks None dg_templates (dg_matter "m1" "Ada") "letter"
    (with_spec_checksum letter_spec "Dear {{ client.full_name }}") "Dear {{ client.full_name }}" None None None false
    (Some "r1") dg_world empty_ledger_ok eq_refl eq_refl) as (w' & [res|e] & E & _ & H);
    [|by destruct H as [[H _] _]].
  exists w', res. split; [exact E|].
  assert (gr_status res = "ready") as Hs.
  { transitivity (status_of_result (w', Ok res)); [reflexivity|]. rewrite <- E. vm_compute. reflexivity. }
  split; [exact Hs|]. destruct H as [(Hf & _)|(rendered & doc & _ & _ & _ & _ & _ & Hr)]; [by rewrite Hf in Hs|].
  apply Hr in Hs. exact Hs.
Defined.

Lemma one_document_per_key_witness :
  let p := dg_generate (dg_matter "m1" "Ada") "letter" None dg_world in
  exists doc w2 res2, document_of p = Some doc /\
    dg_generate (dg_matter "m2" "Ada") "letter" None (fst p) = (w2, Ok res2) /\ gr_document res2 = Some doc.
Proof.
  cbv zeta. destruct (dg_generate (dg_matter "m1" "Ada") "letter" None dg_world) as [w1 [res|e]] eqn:E;
    [|exfalso; apply (f_equal status_of_result) in E; vm_compute in E; discriminate E].
  destruct (gr_document res) as [doc|] eqn:Ed;
    [|exfalso; apply (f_equal document_of) in E; cbn [document_of snd] in E; rewrite Ed in E; vm_compute in E; discriminate E].
  destruct (one_document_per_key (V := RefWorld) (fun _ => utc_datetime (ymd2ord 2026 3 9) 0) dg_supply (fun s => s) dg_json
    dg_json (fun _ => "?") exn_name (fun _ _ => Err (OtherError "ImportError" "")) dg_penv (fun _ => false)
    (fun _ => 0%Q) (fun _ => "") dg_checks None dg_templates (dg_matter "m1" "Ada") "letter"
    (with_spec_checksum letter_spec "Dear {{ client.full_name }}") "Dear {{ client.full_name }}" None None None false
    (Some "r1") dg_world w1 res doc (dg_matter "m2" "Ada") "letter"
    (with_spec_checksum letter_spec "Dear {{ client.full_name }}") "Dear {{ client.full_name }}" None None None false
    (Some "r1") empty_ledger_ok eq_refl E Ed eq_refl eq_refl) as (w2 & res2 & E2 & Hd & _).
  exists doc, w2, res2. split; [exact Ed|]. split; [exact E2|exact Hd].
Defined.

Lemma dg_put_keeps_version d b v v' d' :
  ds_put (V := RefWorld) d b v = (v', Ok d') -> doc_version d' = doc_version d.
Proof.
  destruct v as [ca cr em [[ds bs] inj] au n]. cbn. unfold on_adapter, put_doc, maybe_raise, bind, on_data, on_store, zoom, gets.
  cbn. destruct inj as [e|]; cbn; [done|]. destruct (str_truthy (doc_id d)); cbn; by intros [= _ <-].
Qed.

Lemma versions_increase_witness :
  let req name key := mk_StoreReq ("m1", name, name) "bytes" "sum" true None key in
  let reqs := [req "a" "k1"; req "b" "k2"; req "a" "k1"; req "a" "k3"] in
  let versions := stored_versions (V := RefWorld) (fun _ => utc_datetime (ymd2ord 2026 3 9) 0) dg_supply ("m1", "a", "a") reqs dg_world in
  versions = [1; 2] /\ StronglySorted Z.lt versions.
Proof.
  cbv zeta. split; [vm_compute; reflexivity|].
  apply (proj1 (versions_increase (V := RefWorld) (fun _ => utc_datetime (ymd2ord 2026 3 9) 0) dg_supply ("m1", "a", "a")
    [mk_StoreReq ("m1", "a", "a") "bytes" "sum" true None "k1"; mk_StoreReq ("m1", "b", "b") "bytes" "sum" true None "k2";
     mk_StoreReq ("m1", "a", "a") "bytes" "sum" true None "k1"; mk_StoreReq ("m1", "a", "a") "bytes" "sum" true None "k3"]
    dg_world empty_ledger_ok dg_put_keeps_version)).
Defined.
