(* ===== verification/Routing.v ===== *)
(** * Routing: core/workflows/document_routing/

    Classifying a document, resolving where it goes, deriving its name and its
    access-control list, the privilege gate, and the routing service with its
    store of decisions.  The document store is a port ([move] is a parameter);
    hashing and the JSON reader are parameters. *)

From Stdlib Require Import ZArith Lia Ascii String List QArith.
From stdpp Require Import base list strings pretty sorting.
From S2P Require Import Prelude PyTime ConnErrors Effects Domain PyText PyFormat.

Open Scope string_scope.
Open Scope list_scope.
Open Scope Z_scope.
Open Scope cam_scope.

(** ** Types (types.py) *)

Record RouteOptions := mk_RouteOptions {
  ro_force_review : bool; ro_dry_run : bool; ro_recipient_routing_enabled : bool }.

Inductive DestinationKind := DestFolder | DestReviewQueue.

#[export] Instance DestinationKind_eq_dec : EqDecision DestinationKind.
Proof. solve_decision. Defined.

Definition dest_value (k : DestinationKind) : string :=
  match k with DestFolder => "folder" | DestReviewQueue => "review_queue" end.

Record RoutingDestination := mk_RoutingDestination {
  rd_kind : DestinationKind;
  rd_matter_id : option string;
  rd_folder : option string;
  rd_reason : option string }.

Inductive GateResult := GPass | GWarn | GFail.

#[export] Instance GateResult_eq_dec : EqDecision GateResult.
Proof. solve_decision. Defined.

Definition gate_value (g : GateResult) : string :=
  match g with GPass => "pass" | GWarn => "warn" | GFail => "fail" end.

Record GateVerdict := mk_GateVerdict { gv_verdict : GateResult; gv_reason : string }.

Inductive ClassSource := FromRule | FromExtraction | FromFallback.

Inductive Outcome := Moved | Queued | Blocked | Duplicate | DryRun.

#[export] Instance Outcome_eq_dec : EqDecision Outcome.
Proof. solve_decision. Defined.

Definition outcome_value (o : Outcome) : string :=
  match o with
  | Moved => "moved" | Queued => "queued" | Blocked => "blocked" | Duplicate => "duplicate"
  | DryRun => "dry_run"
  end.

Record RoutingDecision := mk_RoutingDecision {
  de_document_id : string;
  de_idempotency_key : string;
  de_classification : string;
  de_confidence : Q;
  de_source : ClassSource;
  de_name : string;
  de_destination : RoutingDestination;
  de_acl_digest : string;
  de_privileged : bool;
  de_recipient_id : option string;
  de_gate_verdict : GateResult;
  de_outcome : Outcome;
  de_routing_intent_version : string }.

Record RouteResult := mk_RouteResult {
  rr_document_id : string;
  rr_classification : string;
  rr_confidence : Q;
  rr_name : string;
  rr_destination : RoutingDestination;
  rr_privileged : bool;
  rr_gate_verdict : string;
  rr_outcome : Outcome;
  rr_idempotency_key : string;
  rr_audit_id : string;
  rr_status : string }.

(** ** Configuration (config.py) *)

Definition DOCUMENT_CLASSES : list string :=
  ["engagement_letter"; "court_filing"; "id_document"; "correspondence"; "internal_memo"; "form_filing";
   "unknown"].

Record ClassificationRule := mk_ClassificationRule {
  cl_class_name : string; cl_keyword_hints : list string; cl_form_id_patterns : list string;
  cl_min_confidence : Q }.

(** [FolderMap.entries] *)
Definition FolderMap : Type := dict string string.

Definition folder_for (class_name : string) (m : FolderMap) : option string := dget class_name m.

Definition missing_classes (classes : list string) (m : FolderMap) : list string :=
  bfilter (fun c => negb (dmem c m)) classes.

(** The message lists the missing classes in an unspecified order. *)
Definition validate_totality (classes : option (list string)) (m : FolderMap) : res unit :=
  match missing_classes (match classes with Some cs => cs | None => DOCUMENT_CLASSES end) m with
  | [] => Ok tt
  | missing => Err (ValueError ("FolderMap is missing entries for classes: {" +:+
      str_join ", " (map py_repr missing) +:+
      "}. Every class including 'unknown' must have a folder mapping."))
  end.

Record RoutingConfig := mk_RoutingConfig {
  rc_classes : list string;
  rc_classification_rules : list ClassificationRule;
  rc_folder_map : FolderMap;
  rc_naming_pattern : string;
  rc_class_policies : dict string (list string);
  rc_classification_threshold : Q;
  rc_routing_intent_version : string }.

(** [__post_init__] *)
Definition new_routing_config (c : RoutingConfig) : res RoutingConfig :=
  letr! _ := validate_totality (Some (rc_classes c)) (rc_folder_map c) in Ok c.

Definition DEFAULT_PATTERN : string := "{matter_reference}_{doc_class}_{date}_v{version}".

Definition default_routing_config : RoutingConfig :=
  mk_RoutingConfig DOCUMENT_CLASSES [] (map (fun c => (c, "docs/" +:+ c)) DOCUMENT_CLASSES) DEFAULT_PATTERN
    (map (fun c => (c, [])) DOCUMENT_CLASSES) (8 # 10) "v1".

Definition review_queue_folder (c : RoutingConfig) : string :=
  match folder_for "unknown" (rc_folder_map c) with
  | Some f => if str_truthy f then f else "review_queue"
  | None => "review_queue"
  end.

Definition allowed_principals_for (class_name : string) (policies : dict string (list string)) : list string :=
  match dget class_name policies with Some l => l | None => [] end.

(** *** [NamingTemplate.render] *)

(** Characters kept by the sanitiser: word characters, dash and dot. *)
Definition safe_char (c : ascii) : bool :=
  let n := code c in
  ((48 <=? n) && (n <=? 57)) || ((65 <=? n) && (n <=? 90)) || ((97 <=? n) && (n <=? 122)) ||
  (n =? 95) || (n =? 45) || (n =? 46) || (128 <=? n).

Definition sanitise (s : string) : string := str_map (fun c => if safe_char c then c else "_"%char) s.

Definition render (format_field : string -> string -> res string) (pattern matter_reference class_name date : string)
    (version : Z) : res string :=
  letr! name := str_format format_field pattern
    [("matter_reference", matter_reference); ("doc_class", class_name); ("date", date); ("version", pretty version)] in
  Ok (sanitise name).

(** ** Classifier (classifier.py) *)

Section Classifier.
(** [float] of a string *)
Context (float_of_str : string -> res Q).

Definition in_classes (s : string) : bool := str_in s DOCUMENT_CLASSES.

(** [field_class in DOCUMENT_CLASSES] for any value of a field. *)
Definition json_in_classes (v : json) : res bool :=
  match v with
  | JStr s => Ok (in_classes s)
  | JList _ => Err (TypeError "unhashable type: 'list'")
  | JDict _ => Err (TypeError "unhashable type: 'dict'")
  | _ => Ok false
  end.

Definition json_float (v : json) : res Q :=
  match v with
  | JFloat q => Ok q
  | JInt z => Ok (inject_Z z)
  | JBool b => Ok (if b then 1%Q else 0%Q)
  | JStr s => float_of_str s
  | JNull | JList _ | JDict _ => Err (TypeError "float() argument must be a string or a real number")
  end.

Definition dget_or (k : string) (default : json) (d : jdict) : json :=
  match dget k d with Some v => v | None => default end.

(** The extraction field with the highest confidence among known classes. *)
Fixpoint best_field (fields : list jdict) (best : option string * Q) : res (option string * Q) :=
  match fields with
  | [] => Ok best
  | f :: fs =>
      let value := dget_or "value" (JStr "") f in
      letr! conf := json_float (dget_or "confidence" (JFloat 0) f) in
      letr! known := json_in_classes value in
      best_field fs (match value with
        | JStr s => if known && negb (Qle_bool conf best.2) then (Some s, conf) else best
        | _ => best
        end)
  end.

Definition rule_matches (name_lower : string) (r : ClassificationRule) : bool :=
  in_classes (cl_class_name r) &&
  existsb (fun hint => str_contains (str_lower hint) name_lower) (cl_keyword_hints r).

Definition classify_by_extraction (cfg : RoutingConfig) (fields : list jdict)
    : res (string * Q * ClassSource) :=
  letr! best := best_field fields (None, 0%Q) in
  match best with
  | (Some c, conf) =>
      if str_truthy c && Qle_bool (rc_classification_threshold cfg) conf then Ok (c, conf, FromExtraction)
      else Ok ("unknown", 0%Q, FromFallback)
  | (None, _) => Ok ("unknown", 0%Q, FromFallback)
  end.

Definition classify_document (doc : Document) (fields : option (list jdict)) (cfg : RoutingConfig)
    : res (string * Q * ClassSource) :=
  let by_rules :=
    match find_first (rule_matches (str_lower (doc_name doc))) (rc_classification_rules cfg) with
    | Some r => Ok (cl_class_name r, 9 # 10, FromRule)
    | None => classify_by_extraction cfg (match fields with Some l => l | None => [] end)
    end in
  match doc_classification doc with
  | Some c => if str_truthy c && in_classes c then Ok (c, 1%Q, FromRule) else by_rules
  | None => by_rules
  end.
End Classifier.

(** ** Namer and resolver (namer.py) *)

(** [now.strftime("%Y%m%d")] *)
Definition compact_date (d : date) : string :=
  let '(y, m, dd) := ord2ymd d in pad 4 y +:+ pad 2 m +:+ pad 2 dd.

Definition derive_name (format_field : string -> string -> res string) (now : datetime) (doc : Document) (class_name : string) (matter : Matter)
    (cfg : RoutingConfig) : res string :=
  render format_field (rc_naming_pattern cfg) (mt_reference matter) class_name (compact_date (dt_date now)) (doc_version doc).

Definition resolve (class_name : string) (matter : option Matter) (force_review : bool) (cfg : RoutingConfig)
    : RoutingDestination :=
  if force_review then
    mk_RoutingDestination DestReviewQueue (option_map mt_id matter) None (Some "force_review=True")
  else
    match matter with
    | None => mk_RoutingDestination DestReviewQueue None None (Some "Matter could not be resolved.")
    | Some m =>
        if String.eqb class_name "unknown" then
          mk_RoutingDestination DestReviewQueue (Some (mt_id m)) None
            (Some "Document class could not be determined.")
        else
          match folder_for class_name (rc_folder_map cfg) with
          | None => mk_RoutingDestination DestReviewQueue (Some (mt_id m)) None
              (Some ("No folder mapping for class " +:+ py_repr class_name +:+ "."))
          | Some folder => mk_RoutingDestination DestFolder (Some (mt_id m))
              (Some (mt_reference m +:+ "/" +:+ folder)) None
          end
    end.

(** ** Access-control lists (acl_builder.py) *)

Section Acl.
(** [json.loads]; [None] is a decoding error.  [str] of a non-string value. *)
Context (json_loads : string -> option json) (json_str : json -> string).

Definition json_text (v : json) : string := match v with JStr s => s | _ => json_str v end.

(** A set of principals: stripped, without blanks and repetitions. *)
Definition principal_set (l : list string) : list string :=
  remove_dups (bfilter str_truthy (map str_strip l)).

Definition csv_principals (external_ids : dict string string) : list string :=
  principal_set (split_on "," (match dget "allowed_principals" external_ids with Some s => s | None => "" end)).

Definition parse_principals (external_ids : dict string string) : list string :=
  match dget "allowed_principals_json" external_ids with
  | Some raw =>
      match json_loads raw with
      | Some (JList l) => principal_set (map json_text l)
      | _ => csv_principals external_ids
      end
  | None => csv_principals external_ids
  end.

(** The principals the matter allows: those of its record and the responsible attorney. *)
Definition matter_allowed (m : Matter) : list string :=
  let allowed := parse_principals (mt_external_ids m) in
  match mt_responsible m with
  | Some r => if str_truthy r && negb (str_in r allowed) then allowed ++ [r] else allowed
  | None => allowed
  end.

Definition granted (allowed class_policy : list string) : list string :=
  match class_policy with
  | [] => allowed
  | _ => bfilter (fun p => str_in p class_policy) allowed
  end.

Definition build_acl (m : Matter) (class_name : string) (cfg : RoutingConfig) : ACL :=
  match matter_allowed m with
  | [] => mk_ACL [] PermRead false
  | allowed => mk_ACL
      (py_sorted String.leb (granted allowed (allowed_principals_for class_name (rc_class_policies cfg))))
      PermRead false
  end.
End Acl.

(** ** Privilege gate (privilege_gate.py) *)

Definition destination_is_external (d : RoutingDestination) : bool := false.

Definition is_some {A} (o : option A) : bool := match o with Some _ => true | None => false end.

Definition gate_check (doc : Document) (dest : RoutingDestination) (recipient_id : option string)
    (caller_claims_external : bool) : GateVerdict :=
  let effective_external := caller_claims_external || destination_is_external dest || is_some recipient_id in
  if negb effective_external then mk_GateVerdict GPass "Internal filing — privilege not at risk."
  else if doc_privileged doc then
    mk_GateVerdict GFail ("Privileged document " +:+ py_repr (doc_id doc) +:+
      " cannot be routed to an external target (external=" +:+ py_bool effective_external +:+
      "). This block is non-overridable (NFR-1).")
  else mk_GateVerdict GPass "Non-privileged document; external routing allowed.".

Definition is_hard_blocked (doc : Document) (dest : RoutingDestination) (recipient_id : option string)
    (caller_claims_external : bool) : bool :=
  bool_decide (gv_verdict (gate_check doc dest recipient_id caller_claims_external) = GFail).

(** ** Routing service (service.py) *)

(** [RoutingDecisionStore._decisions] *)
Definition DecisionStore : Type := dict string RoutingDecision.

Definition lookup_decision (key : string) (st : DecisionStore) : option RoutingDecision := dget key st.

Definition save_decision (d : RoutingDecision) (st : DecisionStore) : DecisionStore :=
  dset (de_idempotency_key d) d st.

Definition all_decisions (st : DecisionStore) : list RoutingDecision := dvalues st.

Definition decision_to_result (d : RoutingDecision) (o : Outcome) (key : string) : RouteResult :=
  mk_RouteResult (de_document_id d) (de_classification d) (de_confidence d) (de_name d) (de_destination d)
    (de_privileged d) (gate_value (de_gate_verdict d)) o key "" "ok".

Section Service.
Context {W : Type} (clock : nat -> datetime) (uuids : nat -> string).
Context (sha256_hex : string -> string) (float_of_str : string -> res Q).
Context (json_loads : string -> option json) (json_str : json -> string) (format_field : string -> string -> res string).
(** [DocStoreConnector.move] *)
Context (move : string -> string -> ACL -> M W Document).
Context (audit_fn : option (AuditEvent -> M W unit)).

Definition RtM (A : Type) : Type := M (sys DecisionStore W) A.

Definition derive_idem_key (document_id checksum : string) (recipient_id : option string) (version : string)
    : string :=
  take_chars 16 (sha256_hex (document_id +:+ ":" +:+ checksum +:+ ":" +:+
    (match recipient_id with Some r => r | None => "" end) +:+ ":" +:+ version)).

Definition route_key (cfg : RoutingConfig) (doc : Document) (recipient_id : option string) : string :=
  derive_idem_key (doc_id doc) (doc_checksum doc) recipient_id (rc_routing_intent_version cfg).

Definition acl_digest (acl : ACL) : string :=
  take_chars 12 (sha256_hex (py_repr_list (py_sorted String.leb (acl_principals acl)))).

Definition route_audit (run_id : string) (doc : Document) (d : RoutingDecision) (o : Outcome) : RtM unit :=
  match audit_fn with
  | None => ret tt
  | Some f => try_pass (on_world (f (mk_AuditEvent "document_routing_service" "document.route"
      [("document_id", JStr (doc_id doc)); ("idem_key", JStr (de_idempotency_key d));
       ("classification", JStr (de_classification d));
       ("destination_kind", JStr (dest_value (rd_kind (de_destination d))))]
      [("outcome", JStr (outcome_value o)); ("gate_verdict", JStr (gate_value (de_gate_verdict d)));
       ("acl_digest", JStr (de_acl_digest d))] (Some run_id))))
  end.

(** Save the decision, audit it, return it as the result. *)
Definition conclude (run_id : string) (doc : Document) (d : RoutingDecision) : RtM RouteResult :=
  on_store (modify (save_decision d)) ;;
  (route_audit run_id doc d (de_outcome d) ;;
  ret (decision_to_result d (de_outcome d) (de_idempotency_key d))).

(** The move; any exception blocks. *)
Definition move_outcome (doc : Document) (dest : RoutingDestination) (acl : ACL) : RtM Outcome :=
  try_except
    (on_world (move (doc_id doc)
       (match rd_folder dest with
        | Some f => if str_truthy f then f else "review_queue"
        | None => "review_queue"
        end) acl) ;; ret Moved)
    (fun _ => ret Blocked).

(** Everything after the idempotency check. *)
Definition route_new (cfg : RoutingConfig) (run_id : string) (doc : Document) (matter : Matter)
    (options : RouteOptions) (fields : option (list jdict)) (recipient_id : option string) : RtM RouteResult :=
  let! c := lift_res (classify_document float_of_str doc fields cfg) in
  let '(class_name, confidence, source) := c in
  let low_confidence := String.eqb class_name "unknown" ||
                        negb (Qle_bool (rc_classification_threshold cfg) confidence) in
  let dest := resolve class_name (Some matter) (ro_force_review options || low_confidence) cfg in
  let! now := get_now clock in
  let! name := lift_res (derive_name format_field now doc class_name matter cfg) in
  let acl := build_acl json_loads json_str matter class_name cfg in
  let gate := gate_check doc dest recipient_id (is_some recipient_id) in
  let decide_as := fun o => mk_RoutingDecision (doc_id doc) (route_key cfg doc recipient_id) class_name
    confidence source name dest (acl_digest acl) (doc_privileged doc) recipient_id (gv_verdict gate) o
    (rc_routing_intent_version cfg) in
  if bool_decide (gv_verdict gate = GFail) then conclude run_id doc (decide_as Blocked)
  else if bool_decide (rd_kind dest = DestReviewQueue) then conclude run_id doc (decide_as Queued)
  else if ro_dry_run options then conclude run_id doc (decide_as DryRun)
  else let! o := move_outcome doc dest acl in conclude run_id doc (decide_as o).

Definition route (cfg : RoutingConfig) (doc : Document) (matter : Matter) (options : RouteOptions)
    (fields : option (list jdict)) (recipient_id run_id : option string) : RtM RouteResult :=
  let! run_id := match run_id with
                 | Some r => if str_truthy r then ret r else uuid4 uuids
                 | None => uuid4 uuids
                 end in
  let key := route_key cfg doc recipient_id in
  let! existing := on_store (gets (lookup_decision key)) in
  match existing with
  | Some d =>
      route_audit run_id doc d Duplicate ;;
      ret (decision_to_result d Duplicate key)
  | None => route_new cfg run_id doc matter options fields recipient_id
  end.
End Service.

(** ** The process-wide configuration and the service that reads it *)

Definition default_options : RouteOptions := mk_RouteOptions false false false.

Record RouteRequest := mk_RouteRequest {
  rq_document_id : string; rq_recipient_id : option string; rq_options : RouteOptions }.

(** The module variable [_config] is the whole state of these two. *)
Definition get_routing_config : M RoutingConfig RoutingConfig := gets (fun cfg => cfg).
Definition set_routing_config (cfg : RoutingConfig) : M RoutingConfig unit := modify (fun _ => cfg).

(** [RoutingService.__init__]: a given configuration, else the one of that moment. *)
Record RoutingService := mk_RoutingService { sv_config : RoutingConfig }.
Definition new_routing_service (config : option RoutingConfig) : M RoutingConfig RoutingService :=
  match config with
  | Some c => ret (mk_RoutingService c)
  | None => let! c := get_routing_config in ret (mk_RoutingService c)
  end.

(** ** Theorems *)

Lemma elem_of_principal_set p l : p ∈ principal_set l <-> exists x, x ∈ l /\ p = str_strip x /\ str_truthy p = true.
Proof.
  unfold principal_set. rewrite elem_of_remove_dups, elem_of_bfilter, list_elem_of_fmap. naive_solver.
Qed.

(** Access-control lists grant the least.  A principal is on the list of a
    filed document exactly when the matter allows it - it is one of the matter's
    recorded principals or its responsible attorney - and the policy of the
    document's class, if it names anyone, names it; the list is sorted, read-only
    and internal, and empty when the matter allows no one. *)
Lemma acl_least_privilege loads js m class_name cfg :
  let acl := build_acl loads js m class_name cfg in
  let policy := allowed_principals_for class_name (rc_class_policies cfg) in
  (forall p, p ∈ acl_principals acl <->
     (p ∈ parse_principals loads js (mt_external_ids m) \/ (mt_responsible m = Some p /\ p <> "")) /\
     (policy = [] \/ p ∈ policy)) /\
  StronglySorted (fun a b => String.leb a b = true) (acl_principals acl) /\
  acl_permission acl = PermRead /\ acl_external acl = false.
Proof.
  intros acl policy.
  assert (forall p, p ∈ matter_allowed loads js m <->
    p ∈ parse_principals loads js (mt_external_ids m) \/ (mt_responsible m = Some p /\ p <> "")) as Hall.
  { intros p. unfold matter_allowed. destruct (mt_responsible m) as [r|]; [|naive_solver].
    unfold str_truthy. destruct (String.eqb_spec r "") as [->|Hr]; cbn [negb andb]; [naive_solver|].
    destruct (str_in r _) eqn:Ein; cbn [negb].
    - apply str_in_spec in Ein. split; [by left|]. intros [?|[[= ->] _]]; done.
    - rewrite elem_of_app, list_elem_of_singleton. naive_solver. }
  assert (forall p, p ∈ granted (matter_allowed loads js m) policy <->
    p ∈ matter_allowed loads js m /\ (policy = [] \/ p ∈ policy)) as Hgr.
  { intros p. unfold granted. destruct policy as [|q qs]; [naive_solver|].
    rewrite elem_of_bfilter, str_in_spec. naive_solver. }
  unfold acl, build_acl. fold policy. destruct (matter_allowed loads js m) as [|a l] eqn:Em.
  - split; [|split; [constructor|done]]. intros p. rewrite <- Hall. cbn. rewrite elem_of_nil. tauto.
  - split; [|split; [|done]].
    + intros p. cbn [acl_principals]. rewrite py_sorted_perm, Hgr. by rewrite <- Hall.
    + apply py_sorted_ok; [apply string_leb_total|apply string_leb_trans].
Qed.

Section ServiceProofs.
Context {W : Type} (clock : nat -> datetime) (uuids : nat -> string).
Context (sha256_hex : string -> string) (float_of_str : string -> res Q).
Context (json_loads : string -> option json) (json_str : json -> string) (format_field : string -> string -> res string).
Context (audit_fn : option (AuditEvent -> M W unit)).
Implicit Types (s : sys DecisionStore W).

Abbreviation route_with move :=
  (route clock uuids sha256_hex float_of_str json_loads json_str format_field move audit_fn).
Abbreviation new_with move :=
  (route_new clock sha256_hex float_of_str json_loads json_str format_field move audit_fn).
Abbreviation key_of := (route_key sha256_hex).

Lemma route_audit_total rid doc d o s :
  exists s', route_audit audit_fn rid doc d o s = (s', Ok tt) /\ sys_store s' = sys_store s.
Proof.
  unfold route_audit. destruct audit_fn as [f|]; [|by exists s]. unfold try_pass, on_world, zoom.
  destruct (f _ _). by eexists.
Qed.

Lemma conclude_ok rid doc d s :
  exists s', conclude audit_fn rid doc d s = (s', Ok (decision_to_result d (de_outcome d) (de_idempotency_key d))) /\
    sys_store s' = save_decision d (sys_store s).
Proof.
  unfold conclude. unfold bind at 1. unfold on_store at 1, zoom at 1, modify. unfold bind.
  destruct (route_audit_total rid doc d (de_outcome d) (set_store (save_decision d (sys_store s)) s)) as (s' & E & Es).
  exists s'. by rewrite E.
Qed.

Lemma move_outcome_ok move doc dest acl s :
  exists s' o, move_outcome (W := W) move doc dest acl s = (s', Ok o) /\ sys_store s' = sys_store s /\
    (o = Moved \/ o = Blocked).
Proof.
  unfold move_outcome, try_except, bind, on_world, zoom.
  destruct (move _ _ _ (sys_world s)) as [w [x|e]]; eexists _, _; (split; [reflexivity|]); auto.
Qed.

(** Which review or filing a classification leads to. *)
Definition route_dest (cfg : RoutingConfig) (matter : Matter) (options : RouteOptions) (c : string) (conf : Q)
    : RoutingDestination :=
  resolve c (Some matter)
    (ro_force_review options || (String.eqb c "unknown" ||
       negb (Qle_bool (rc_classification_threshold cfg) conf))) cfg.

(** The outcome, given how a move would end. *)
Definition expected_outcome (doc : Document) (recipient_id : option string) (dest : RoutingDestination)
    (dry_run : bool) (moved : Outcome) : Outcome :=
  if doc_privileged doc && is_some recipient_id then Blocked
  else if bool_decide (rd_kind dest = DestReviewQueue) then Queued
  else if dry_run then DryRun
  else moved.

Lemma gate_fails doc dest recipient_id :
  bool_decide (gv_verdict (gate_check doc dest recipient_id (is_some recipient_id)) = GFail) =
  doc_privileged doc && is_some recipient_id.
Proof. unfold gate_check. destruct recipient_id, (doc_privileged doc); reflexivity. Qed.

Lemma route_new_spec move cfg rid doc matter options fields recipient_id s :
  match classify_document float_of_str doc fields cfg with
  | Err e => new_with move cfg rid doc matter options fields recipient_id s = (s, Err e)
  | Ok (c, conf, src) =>
      match derive_name format_field (clock (sys_ticks s)) doc c matter cfg with
      | Err e => new_with move cfg rid doc matter options fields recipient_id s = (tick s, Err e)
      | Ok name =>
          exists s' d o, new_with move cfg rid doc matter options fields recipient_id s =
              (s', Ok (decision_to_result d (de_outcome d) (de_idempotency_key d))) /\
            sys_store s' = save_decision d (sys_store s) /\
            de_idempotency_key d = key_of cfg doc recipient_id /\ de_classification d = c /\ de_name d = name /\
            de_destination d = route_dest cfg matter options c conf /\ (o = Moved \/ o = Blocked) /\
            de_outcome d = expected_outcome doc recipient_id (de_destination d) (ro_dry_run options) o
      end
  end.
Proof.
  unfold route_new. destruct (classify_document float_of_str doc fields cfg) as [[[c conf] src]|e]; [|done].
  destruct (derive_name format_field (clock (sys_ticks s)) doc c matter cfg) as [name|e] eqn:En.
  2: { unfold bind at 1, lift_res at 1. cbv beta iota. rewrite bind_get_now, En. done. }
  unfold bind at 1, lift_res at 1. cbv beta iota. rewrite bind_get_now, En.
  unfold bind at 1, lift_res at 1. cbv beta iota zeta. rewrite gate_fails.
  fold (route_dest cfg matter options c conf). unfold expected_outcome.
  destruct (doc_privileged doc && is_some recipient_id) eqn:Eg.
  { match goal with |- context [conclude audit_fn rid doc ?d ?s0] => destruct (conclude_ok rid doc d s0) as (s' & E & Es) end.
    eexists s', _, Moved. split; [exact E|]. split; [exact Es|]. cbn. rewrite ?Eg. auto 10. }
  destruct (bool_decide (rd_kind _ = DestReviewQueue)) eqn:Ed.
  { match goal with |- context [conclude audit_fn rid doc ?d ?s0] => destruct (conclude_ok rid doc d s0) as (s' & E & Es) end.
    eexists s', _, Moved. split; [exact E|]. split; [exact Es|]. cbn. rewrite ?Eg, ?Ed. auto 10. }
  destruct (ro_dry_run options).
  { match goal with |- context [conclude audit_fn rid doc ?d ?s0] => destruct (conclude_ok rid doc d s0) as (s' & E & Es) end.
    eexists s', _, Moved. split; [exact E|]. split; [exact Es|]. cbn. rewrite ?Eg, ?Ed. auto 10. }
  match goal with |- context [move_outcome move doc ?dest ?acl] =>
    destruct (move_outcome_ok move doc dest acl (tick s)) as (s1 & o & E1 & Es1 & Ho) end.
  unfold bind at 1. rewrite E1. cbv beta iota.
  match goal with |- context [conclude audit_fn rid doc ?d ?s0] => destruct (conclude_ok rid doc d s0) as (s' & E & Es) end.
  eexists s', _, o. split; [exact E|]. split; [rewrite Es, Es1; reflexivity|]. cbn. rewrite ?Eg, ?Ed. auto 10.
Qed.

(** Choosing the run id reads neither the store nor the clock. *)
Lemma choose_run_id (run_id : option string) s :
  exists s1 rid, (match run_id with
     | Some r => if str_truthy r then ret r else uuid4 uuids
     | None => uuid4 uuids
     end) s = (s1, Ok rid) /\ sys_store s1 = sys_store s /\ sys_ticks s1 = sys_ticks s.
Proof.
  destruct run_id as [r|]; [destruct (str_truthy r)|]; eexists _, _; (split; [reflexivity|done]).
Qed.

Lemma route_existing move cfg doc matter options fields recipient_id run_id s d :
  lookup_decision (key_of cfg doc recipient_id) (sys_store s) = Some d ->
  exists s', route_with move cfg doc matter options fields recipient_id run_id s =
      (s', Ok (decision_to_result d Duplicate (key_of cfg doc recipient_id))) /\ sys_store s' = sys_store s.
Proof.
  intros Hd. unfold route. destruct (choose_run_id run_id s) as (s1 & rid & E & Es & _).
  unfold bind at 1. rewrite E. unfold bind at 1, on_store at 1, zoom at 1, gets.
  rewrite Es, Hd. set (s2 := set_store _ s1). assert (sys_store s2 = sys_store s) as Es2 by done.
  clearbody s2. destruct (route_audit_total rid doc d Duplicate s2) as (s3 & E3 & Es3).
  exists s3. unfold bind. rewrite E3. split; [done|congruence].
Qed.

Lemma route_fresh move cfg doc matter options fields recipient_id run_id s :
  lookup_decision (key_of cfg doc recipient_id) (sys_store s) = None ->
  exists s1 rid, route_with move cfg doc matter options fields recipient_id run_id s =
      new_with move cfg rid doc matter options fields recipient_id s1 /\
    sys_store s1 = sys_store s /\ sys_ticks s1 = sys_ticks s.
Proof.
  intros Hd. unfold route. destruct (choose_run_id run_id s) as (s1 & rid & E & Es & Et).
  unfold bind at 1. rewrite E. unfold bind at 1, on_store at 1, zoom at 1, gets.
  rewrite Es, Hd. eexists _, rid. split; [reflexivity|]. done.
Qed.

(** C36: a privileged document never reaches an external recipient.  When a
    recipient is named, routing a privileged document behaves the same whatever
    the document store would do - it is never asked to move the document - and
    the result, if there is one, is "blocked" or a duplicate of an earlier one. *)
Theorem privileged_never_moved move move' cfg doc matter options fields recipient_id run_id s :
  doc_privileged doc = true -> recipient_id <> None ->
  let run_with := fun m => route clock uuids sha256_hex float_of_str json_loads json_str format_field m audit_fn cfg doc
    matter options fields recipient_id run_id s in
  run_with move = run_with move' /\
  forall s' r, run_with move = (s', Ok r) -> rr_outcome r = Blocked \/ rr_outcome r = Duplicate.
Proof.
  intros Hp Hr run_with. unfold run_with.
  assert (is_some recipient_id = true) as Hsome by (by destruct recipient_id). split.
  - unfold route. apply bind_cong. intros s1 rid _. apply bind_cong. intros s2 [d|] _; [done|].
    unfold route_new. apply bind_cong. intros s3 [[c conf] src] _. apply bind_cong. intros s4 now _.
    apply bind_cong. intros s5 name _. rewrite gate_fails, Hp, Hsome. done.
  - intros s' r H. destruct (lookup_decision (key_of cfg doc recipient_id) (sys_store s)) as [d|] eqn:El.
    + destruct (route_existing move cfg doc matter options fields recipient_id run_id s d El) as (s2 & E & _).
      rewrite E in H. injection H as _ <-. by right.
    + destruct (route_fresh move cfg doc matter options fields recipient_id run_id s El) as (s1 & rid & E & _ & Et).
      rewrite E in H. pose proof (route_new_spec move cfg rid doc matter options fields recipient_id s1) as Hs.
      destruct (classify_document _ doc fields cfg) as [[[c conf] src]|e]; [|congruence].
      destruct (derive_name _ _ doc c matter cfg) as [name|e]; [|congruence].
      destruct Hs as (s2 & d & o & E2 & _ & _ & _ & _ & _ & _ & Ho). rewrite E2 in H. injection H as _ <-.
      left. cbn. rewrite Ho. unfold expected_outcome. by rewrite Hp, Hsome.
Qed.

(** Routing decides once per key.  With a key not decided before, a call
    either raises, leaving the decisions as they were, or saves exactly the one
    decision it returns: classified and named from the document, sent to the
    destination of its class, blocked if privileged with a recipient, queued if
    for review, not moved on a dry run, and otherwise moved or, when the store
    fails, blocked.  Whatever it decided, dry run and failed move included, every
    later call with the key only reports a duplicate of it. *)
Lemma route_decides_once move cfg doc matter options fields recipient_id run_id s s' x :
  lookup_decision (key_of cfg doc recipient_id) (sys_store s) = None ->
  route_with move cfg doc matter options fields recipient_id run_id s = (s', x) ->
  match x with
  | Err _ => sys_store s' = sys_store s
  | Ok r => exists d c conf src o,
      r = decision_to_result d (de_outcome d) (key_of cfg doc recipient_id) /\
      sys_store s' = save_decision d (sys_store s) /\
      classify_document float_of_str doc fields cfg = Ok (c, conf, src) /\ de_classification d = c /\
      derive_name format_field (clock (sys_ticks s)) doc c matter cfg = Ok (de_name d) /\
      de_destination d = route_dest cfg matter options c conf /\ (o = Moved \/ o = Blocked) /\
      de_outcome d = expected_outcome doc recipient_id (de_destination d) (ro_dry_run options) o /\
      forall move2 matter2 options2 fields2 run2 s2, sys_store s2 = sys_store s' ->
        exists s3, route_with move2 cfg doc matter2 options2 fields2 recipient_id run2 s2 =
            (s3, Ok (decision_to_result d Duplicate (key_of cfg doc recipient_id))) /\
          sys_store s3 = sys_store s'
  end.
Proof.
  intros El H. destruct (route_fresh move cfg doc matter options fields recipient_id run_id s El)
    as (s1 & rid & E & Est & Et).
  rewrite E in H. pose proof (route_new_spec move cfg rid doc matter options fields recipient_id s1) as Hs.
  rewrite Et in Hs. destruct (classify_document _ doc fields cfg) as [[[c conf] src]|e] eqn:Ec.
  2: { rewrite H in Hs. injection Hs as -> ->. exact Est. }
  destruct (derive_name _ _ doc c matter cfg) as [name|e] eqn:En.
  2: { rewrite H in Hs. injection Hs as -> ->. exact Est. }
  destruct Hs as (s2 & d & o & E2 & Es2 & Hkey & Hc & Hn & Hd & Ho & Hout).
  rewrite E2 in H. injection H as <- <-. exists d, c, conf, src, o.
  rewrite Hkey, Es2, Est, Hn. do 8 (split; [done|]).
  intros move2 matter2 options2 fields2 run2 s3 Es3.
  destruct (route_existing move2 cfg doc matter2 options2 fields2 recipient_id run2 s3 d) as (s4 & E4 & Es4).
  - rewrite Es3. unfold lookup_decision, save_decision. rewrite Hkey. apply dget_dset_eq.
  - exists s4. split; [exact E4|congruence].
Qed.
End ServiceProofs.

(** A service keeps the configuration it was made with: setting the process-wide
    one afterwards changes what the next service is made with, and only that. *)
Lemma service_keeps_config config cfg global :
  let '(global', r) := (let! sv := new_routing_service config in
                        set_routing_config cfg ;;
                        (let! sv' := new_routing_service None in ret (sv, sv'))) global in
  global' = cfg /\
  r = Ok (mk_RoutingService (match config with Some c => c | None => global end), mk_RoutingService cfg).
Proof. destruct config; by split. Qed.

(** ** Witnesses *)

Definition ex_route_contact : Contact := mk_Contact "c1" "crm" "Ada Lovelace" None None (Some "client") [].

Definition ex_route_matter : Matter :=
  mk_Matter "m1" "case" "R-1" "Visa" "open" None ex_route_contact (Some "att1")
    (utc_datetime 739000 0) [] [("allowed_principals", "para1, att1")].

Definition ex_route_doc (privileged : bool) : Document :=
  mk_Document "d1" "m1" "I-130 filing.pdf" "application/pdf" "u" (Some "court_filing") 1 privileged "abc"
    (utc_datetime 739000 0).

Definition ex_now : nat -> datetime := fun _ => utc_datetime (ymd2ord 2026 3 9) 0.

Abbreviation ex_route priv recipient dry s :=
  (route (W := nat) ex_now (fun _ => "u") (fun x => x) (fun _ => Ok 0%Q) (fun _ => None) (fun _ => "")
     (fun v _ => Ok v) (fun _ _ _ w => (S w, Ok (ex_route_doc priv))) None default_routing_config (ex_route_doc priv)
     ex_route_matter (mk_RouteOptions false dry false) None recipient (Some "run1") s).

Lemma privileged_never_moved_witness :
  exists s' r, ex_route true (Some "x@y") false (mk_sys [] 0%nat 0 0) = (s', Ok r) /\ sys_world s' = 0%nat /\
    rr_outcome r = Blocked.
Proof.
  destruct (ex_route true (Some "x@y") false (mk_sys [] 0%nat 0 0)) as [s' [r|e]] eqn:E;
    [|vm_compute in E; discriminate].
  exists s', r. split; [reflexivity|].
  destruct (privileged_never_moved (W := nat) ex_now (fun _ => "u") (fun x => x) (fun _ => Ok 0%Q) (fun _ => None)
    (fun _ => "") (fun v _ => Ok v) None (fun _ _ _ w => (S w, Ok (ex_route_doc true)))
    (fun _ _ _ w => (w, Err OverflowError)) default_routing_config (ex_route_doc true) ex_route_matter
    (mk_RouteOptions false false false) None (Some "x@y") (Some "run1") (mk_sys [] 0%nat 0 0)) as [_ H].
  - reflexivity.
  - discriminate.
  - specialize (H s' r E). destruct H as [H|H].
    + split; [vm_compute in E; injection E as <- _; reflexivity|exact H].
    + vm_compute in E. injection E as _ <-. discriminate H.
Defined.

(** A dry run is remembered: the real call after it moves nothing. *)
Lemma route_decides_once_witness :
  exists s' r d s3, ex_route false None true (mk_sys [] 0%nat 0 0) = (s', Ok r) /\ rr_outcome r = DryRun /\
    r = decision_to_result d (de_outcome d) (rr_idempotency_key r) /\
    ex_route false None false s' = (s3, Ok (decision_to_result d Duplicate (rr_idempotency_key r))) /\
    sys_world s3 = 0%nat.
Proof.
  destruct (ex_route false None true (mk_sys [] 0%nat 0 0)) as [s' x] eqn:E.
  pose proof (route_decides_once (W := nat) ex_now (fun _ => "u") (fun x => x) (fun _ => Ok 0%Q) (fun _ => None)
    (fun _ => "") (fun v _ => Ok v) None (fun _ _ _ w => (S w, Ok (ex_route_doc false))) default_routing_config
    (ex_route_doc false) ex_route_matter (mk_RouteOptions false true false) None None (Some "run1")
    (mk_sys [] 0%nat 0 0) s' x eq_refl E) as H.
  destruct x as [r|e]; [|vm_compute in E; discriminate].
  destruct H as (d & c & conf & src & o & Hr & _ & _ & _ & _ & _ & _ & _ & Hdup).
  destruct (Hdup (fun _ _ _ w => (S w, Ok (ex_route_doc false))) ex_route_matter (mk_RouteOptions false false false)
    None (Some "run1") s' eq_refl) as (s3 & E3 & _).
  rewrite Hr. exists s', (decision_to_result d (de_outcome d)
    (route_key (fun x => x) default_routing_config (ex_route_doc false) None)), d, s3.
  split; [reflexivity|]. split; [|split; [reflexivity|split; [exact E3|]]].
  - rewrite <- Hr. vm_compute in E. injection E as _ <-. reflexivity.
  - pose proof (f_equal (fun p => sys_world (fst p)) E3) as Hw. vm_compute in E. injection E as <- _.
    vm_compute in Hw. exact (eq_sym Hw).
Defined.
