(* ===== verification/Packs.v ===== *)
(** * Packs: packs/

    Domain packs: the contract, its validation, the registry with selection and
    plugin discovery, the composition of redaction patterns, the two packs of the
    repository, and their application to the intake and routing configuration and
    to a rule store.  A compiled regular expression is represented by its source.
    The registry compares packs by object identity, so registered packs carry an
    address. *)

From Stdlib Require Import ZArith Lia Ascii String List QArith.
From stdpp Require Import base list strings pretty.
From S2P Require Import Prelude PyTime ConnErrors Effects Rbac DeadlineTypes Compute Rules PyText Qc QcChecks Intake.
From S2P Require Import Routing Domain Schedule.

Open Scope string_scope.
Open Scope list_scope.
Open Scope Z_scope.
Open Scope cam_scope.

(** ** base.py *)

Definition pattern : Type := string.

Definition ENGINE_PII_BASELINE : list pattern :=
  ["\b\d{3}-\d{2}-\d{4}\b";
   "\b\d{4}-\d{2}-\d{2}\b";
   "\b\d{2}/\d{2}/\d{4}\b";
   "\b[A-Za-z0-9._%+\-]+@[A-Za-z0-9.\-]+\.[A-Za-z]{2,}\b";
   "\b(\+?1[\s.-]?)?\(?\d{3}\)?[\s.-]?\d{3}[\s.-]?\d{4}\b"].

Definition PackValidationError (msg : string) : exn := OtherError "PackValidationError" msg.
Definition PackSelectionError (msg : string) : exn := OtherError "PackSelectionError" msg.

Record Terminology := mk_Terminology {
  tm_matter : string; tm_matter_plural : string; tm_contact : string; tm_contact_plural : string;
  tm_deadline : string; tm_document : string; tm_restriction_label : string; tm_practice_noun : string }.

Definition term_slots (t : Terminology) : list string :=
  [tm_matter t; tm_matter_plural t; tm_contact t; tm_contact_plural t; tm_deadline t; tm_document t;
   tm_restriction_label t; tm_practice_noun t].

(** The validator every slot goes through when the model is built. *)
Definition new_terminology (t : Terminology) : res Terminology :=
  if existsb is_blank (term_slots t) then Err (ValidationError "terminology slots must be non-empty strings") else Ok t.

Definition new_restriction (r : RestrictionPolicy) : res RestrictionPolicy :=
  if is_blank (rp_label r) then Err (ValidationError "restriction label must be non-empty") else Ok r.

Record DomainPack := mk_DomainPack {
  dp_name : string;
  dp_version : string;
  dp_terminology : Terminology;
  dp_case_types : dict string CaseTypeConfig;
  dp_default_case_type : string;
  dp_dedupe : DedupeConfig;
  dp_deadline_rules : list DeadlineRule;
  dp_document_classes : list string;
  dp_packet_kinds : list string;
  dp_consistency_identifiers : list string;
  dp_restriction : RestrictionPolicy;
  dp_rbac_roles : dict string (list string);
  dp_pii_patterns : list pattern;
  dp_template_ids : list string;
  dp_identifier_patterns : dict string pattern;
  dp_prefill_forms : dict string string;
  dp_feature_flags : dict string bool }.

Definition ENGINE_REQUIRED_ROLES : list string := ["agent_service"].

(** The composition for a given pack. *)
Definition pii_patterns_of (p : DomainPack) : list pattern := ENGINE_PII_BASELINE ++ dp_pii_patterns p.

Definition pack_err (p : DomainPack) (msg : string) : res unit :=
  Err (PackValidationError ("pack " +:+ py_repr (dp_name p) +:+ ": " +:+ msg)).

(** One case type: its welcome template and its deadline rules. *)
Fixpoint check_rules (p : DomainPack) (ct_name : string) (ids : list string) : res unit :=
  match ids with
  | [] => Ok tt
  | rid :: ids' =>
      if str_in rid (map dr_rule_id (dp_deadline_rules p)) then check_rules p ct_name ids'
      else pack_err p ("case type " +:+ py_repr ct_name +:+ " references unknown deadline rule " +:+ py_repr rid)
  end.

Fixpoint check_case_types (p : DomainPack) (cts : dict string CaseTypeConfig) : res unit :=
  match cts with
  | [] => Ok tt
  | (ct_name, ct) :: cts' =>
      if str_in (cc_welcome_template_id ct) (dp_template_ids p) then
        letr! _ := check_rules p ct_name (cc_deadline_rule_ids ct) in
        check_case_types p cts'
      else pack_err p ("case type " +:+ py_repr ct_name +:+ " references unknown welcome template " +:+
                       py_repr (cc_welcome_template_id ct))
  end.

Definition nonempty {A} (l : list A) : bool := match l with [] => false | _ => true end.

Definition validate_pack (p : DomainPack) : res unit :=
  if negb (str_truthy (dp_name p) && str_truthy (dp_version p)) then
    Err (PackValidationError "pack is missing a name or version")
  else if negb (nonempty (dp_case_types p)) then pack_err p "case_types is empty"
  else if negb (dmem (dp_default_case_type p) (dp_case_types p)) then
    pack_err p ("default_case_type " +:+ py_repr (dp_default_case_type p) +:+ " is not a defined case type")
  else if negb (nonempty (dp_document_classes p)) then pack_err p "document_classes is empty"
  else if negb (nonempty (dp_packet_kinds p)) then pack_err p "packet_kinds is empty"
  else if negb (nonempty (dp_consistency_identifiers p)) then pack_err p "consistency_identifiers is empty"
  else if negb (rp_default_restricted (dp_restriction p)) then
    pack_err p "restriction.default_restricted must be True (a pack may tighten the confidentiality gate, never weaken it)"
  else
    match bfilter (fun x => negb (str_in x (pii_patterns_of p))) ENGINE_PII_BASELINE with
    | (_ :: _) as missing =>
        pack_err p ("PII baseline floor not preserved (" +:+ pretty (Z.of_nat (length missing)) +:+
                    " baseline pattern(s) missing)")
    | [] =>
        letr! _ := check_case_types p (dp_case_types p) in
        match bfilter (fun r => negb (dmem r (dp_rbac_roles p))) ENGINE_REQUIRED_ROLES with
        | [] => Ok tt
        | missing => pack_err p ("missing engine-required RBAC role(s): " +:+ py_repr_list missing)
        end
    end.

Definition run_pack_conformance (p : DomainPack) : res bool := letr! _ := validate_pack p in Ok true.

(** ** The registry *)

Record PackObj := mk_PackObj { po_addr : Z; po_pack : DomainPack }.

Record PackRegistry := mk_PackRegistry { pk_registry : dict string PackObj; pk_active : option PackObj }.

Definition empty_packs : PackRegistry := mk_PackRegistry [] None.

Definition set_packs (d : dict string PackObj) (s : PackRegistry) : PackRegistry := mk_PackRegistry d (pk_active s).

Definition register_pack (o : PackObj) : M PackRegistry unit := fun s =>
  let name := dp_name (po_pack o) in
  match dget name (pk_registry s) with
  | Some o' =>
      if po_addr o' =? po_addr o then (set_packs (dset name o (pk_registry s)) s, Ok tt)
      else (s, Err (PackValidationError ("a different pack is already registered under name " +:+ py_repr name)))
  | None => (set_packs (dset name o (pk_registry s)) s, Ok tt)
  end.

Definition get_active_pack (s : PackRegistry) : res PackObj :=
  or_raise (PackSelectionError
    "no active domain pack — call select_pack()/activate_configured_pack() at startup (CAM_DOMAIN_PACK is required)")
    (pk_active s).

Definition list_registered_pack_names (s : PackRegistry) : list string := py_sorted String.leb (dkeys (pk_registry s)).

Definition select_pack (name : string) : M PackRegistry PackObj := fun s =>
  match dget name (pk_registry s) with
  | None => (s, Err (PackSelectionError ("unknown domain pack " +:+ py_repr name +:+ "; registered packs: " +:+
                  py_repr_list (list_registered_pack_names s))))
  | Some o =>
      match validate_pack (po_pack o) with
      | Ok _ => (mk_PackRegistry (pk_registry s) (Some o), Ok o)
      | Err e => (s, Err e)
      end
  end.

(** [active_pii_patterns(pack)] *)
Definition active_pii_patterns (p : option DomainPack) (s : PackRegistry) : res (list pattern) :=
  match p with
  | Some p => Ok (pii_patterns_of p)
  | None => letr! o := get_active_pack s in Ok (pii_patterns_of (po_pack o))
  end.

(** An entry point: what loading it, and calling it if it is not a pack, gives;
    [None] for an object that is not a pack. *)
Fixpoint load_pack_plugins (eps : list (res (option PackObj))) : M PackRegistry unit :=
  match eps with
  | [] => ret tt
  | ep :: eps' =>
      try_pass (let! o := lift_res ep in
                match o with Some o => register_pack o | None => ret tt end) ;;
      load_pack_plugins eps'
  end.

Definition reset_registry : M PackRegistry unit := fun _ => (empty_packs, Ok tt).

(** ** immigration/pack.py *)

(** A rule with the defaults of the class. *)
Definition plain_rule (rule_id area trigger : string) (offset : Offset) (description : string) : DeadlineRule :=
  mk_DeadlineRule rule_id "US" (Some area) trigger offset "next_business_day" "us_federal" []
    (mk_EscalationPolicy []) description true.

Definition task (title role : string) (sort : Z) : TaskTemplate := mk_TaskTemplate title role None sort.

Definition default_dedupe : DedupeConfig := mk_DedupeConfig 1 (9 # 10) 1 (7 # 10).

Definition IMMIGRATION_CASE_TYPES : dict string CaseTypeConfig :=
  [("family-based", mk_CaseTypeConfig "family-based"
      ["full_name"; "dob"; "country_of_origin"; "current_status"; "email"]
      [task "Collect I-130 petition documents" "paralegal" 1; task "Conflict check" "attorney" 2;
       task "Open matter in case system" "paralegal" 3] ["rfe_response"] "family_based_welcome");
   ("employment-based", mk_CaseTypeConfig "employment-based"
      ["full_name"; "dob"; "country_of_origin"; "current_status"; "email"]
      [task "Collect employer documentation" "paralegal" 1; task "Conflict check" "attorney" 2;
       task "Open matter in case system" "paralegal" 3] [] "employment_based_welcome");
   ("other/uncategorised", mk_CaseTypeConfig "other/uncategorised" ["full_name"; "email"]
      [task "Initial client consultation" "attorney" 1; task "Open matter in case system" "paralegal" 2]
      [] "default_welcome")].

Definition IMMIGRATION_RULES : list DeadlineRule :=
  [plain_rule "rfe_response" "family-based" "rfe_issued_date" (mk_Offset 87 0 0 0 0)
     "RFE response window (illustrative; ASSUMPTION (confirm))."].

Definition permission_value (p : Permission) : string :=
  match p with
  | MATTER_READ => "matter.read" | MATTER_WRITE => "matter.write"
  | CONTACT_READ => "contact.read" | CONTACT_WRITE => "contact.write"
  | DOCUMENT_READ => "document.read" | DOCUMENT_WRITE => "document.write"
  | DOCUMENT_GENERATE => "document.generate" | DOCUMENT_ROUTE => "document.route"
  | DEADLINE_READ => "deadline.read" | DEADLINE_WRITE => "deadline.write"
  | EMAIL_DRAFT => "email.draft" | EMAIL_SEND => "email.send"
  | WORKFLOW_RUN => "workflow.run" | WORKFLOW_STATUS => "workflow.status"
  | GATE_APPROVE => "gate.approve" | AUDIT_EXPORT => "audit.export"
  | RULE_ACTIVATE => "rule.activate" | SECRET_ROTATE => "secret.rotate"
  end.

Definition IMMIGRATION_RBAC_ROLES : dict string (list string) :=
  map (fun r => (role_value r, map permission_value (GRANTS r))) all_roles.

Definition IMMIGRATION_PII : list pattern := ["\bA\d{8,9}\b"; "\b[A-Z]{1,2}\d{6,9}\b"].

Definition PACKET_KINDS : list string :=
  map kind_value [EmailSend; DocumentGenerate; DocumentRoute; IntakeFinalize; Generic].

Definition IMMIGRATION_PACK : DomainPack :=
  mk_DomainPack "immigration" "1.0.0"
    (mk_Terminology "Matter" "Matters" "Client" "Clients" "Deadline" "Document" "Privileged" "practice area")
    IMMIGRATION_CASE_TYPES "other/uncategorised" default_dedupe IMMIGRATION_RULES
    (py_sorted String.leb DOCUMENT_CLASSES) PACKET_KINDS ["a_number"; "receipt_number"]
    (mk_RestrictionPolicy "Privileged" true []) IMMIGRATION_RBAC_ROLES IMMIGRATION_PII
    (map (fun p => cc_welcome_template_id p.2) IMMIGRATION_CASE_TYPES)
    [("a_number", "^A\d{8,9}$")]
    [("I-130", "i130_petition"); ("I-485", "i485_adjustment"); ("N-400", "n400_naturalization");
     ("G-28", "g28_representation")] [].

(** ** consulting/pack.py *)

Definition CONSULTING_CASE_TYPES : dict string CaseTypeConfig :=
  [("advisory", mk_CaseTypeConfig "advisory" ["full_name"; "email"]
      [task "Scope advisory engagement" "consultant" 1; task "Conflict check" "partner" 2;
       task "Open engagement in system" "consultant" 3] ["deliverable_due"] "consulting_welcome");
   ("audit", mk_CaseTypeConfig "audit" ["full_name"; "email"]
      [task "Collect prior-year working papers" "consultant" 1; task "Independence check" "partner" 2]
      [] "default_welcome")].

Definition CONSULTING_RULES : list DeadlineRule :=
  [plain_rule "deliverable_due" "advisory" "engagement_start_date" (mk_Offset 0 30 0 0 0)
     "Advisory deliverable due (illustrative; ASSUMPTION (confirm))."].

Definition CONSULTING_RBAC_ROLES : dict string (list string) :=
  [("partner", ["matter.read"; "matter.write"; "contact.read"; "contact.write"; "document.read"; "document.write";
      "document.generate"; "document.route"; "deadline.read"; "deadline.write"; "email.draft"; "email.send";
      "workflow.run"; "workflow.status"; "gate.approve"; "audit.export"]);
   ("consultant", ["matter.read"; "matter.write"; "contact.read"; "contact.write"; "document.read"; "document.write";
      "document.generate"; "deadline.read"; "deadline.write"; "email.draft"; "workflow.run"; "workflow.status"]);
   ("operations", ["matter.read"; "contact.read"; "document.read"; "deadline.read"; "workflow.status"; "audit.export"]);
   ("agent_service", ["matter.read"; "contact.read"; "document.read"; "deadline.read"; "email.draft"; "workflow.run";
      "workflow.status"]);
   ("admin", ["matter.read"; "matter.write"; "contact.read"; "contact.write"; "document.read"; "document.write";
      "document.generate"; "document.route"; "deadline.read"; "deadline.write"; "email.draft"; "email.send";
      "workflow.run"; "workflow.status"; "gate.approve"; "audit.export"; "rule.activate"; "secret.rotate"])].

Definition CONSULTING_PACK : DomainPack :=
  mk_DomainPack "consulting" "0.1.0"
    (mk_Terminology "Engagement" "Engagements" "Client" "Clients" "Key Date" "Document" "Client-Confidential" "service line")
    CONSULTING_CASE_TYPES "advisory" default_dedupe CONSULTING_RULES
    ["engagement_letter"; "report"; "correspondence"; "working_papers"; "internal_memo"; "unknown"]
    PACKET_KINDS ["client_id"; "engagement_ref"] (mk_RestrictionPolicy "Client-Confidential" true [])
    CONSULTING_RBAC_ROLES [] ["consulting_welcome"; "default_welcome"] [] [] [].

(** The two module-level objects. *)
Definition immigration_obj : PackObj := mk_PackObj 1 IMMIGRATION_PACK.
Definition consulting_obj : PackObj := mk_PackObj 2 CONSULTING_PACK.

Definition set_default (o : PackObj) (d : dict string PackObj) : dict string PackObj :=
  if dmem (dp_name (po_pack o)) d then d else dset (dp_name (po_pack o)) o d.

Definition register_builtin_packs : M PackRegistry unit :=
  modify (fun s => set_packs (set_default consulting_obj (set_default immigration_obj (pk_registry s))) s).

Definition activate_configured_pack (domain_pack : option string) : M PackRegistry PackObj :=
  match domain_pack with
  | Some name =>
      if str_truthy name then register_builtin_packs ;; select_pack name
      else raise (PackSelectionError "CAM_DOMAIN_PACK is not set; no implicit default domain pack (refuse to serve)")
  | None => raise (PackSelectionError "CAM_DOMAIN_PACK is not set; no implicit default domain pack (refuse to serve)")
  end.

(** ** apply.py *)

(** The two configuration singletons. *)
Record EngineConfig := mk_EngineConfig { eg_intake : IntakeConfig; eg_routing : RoutingConfig }.

Definition intake_config_of (p : DomainPack) : IntakeConfig :=
  mk_IntakeConfig (dp_case_types p) (dp_dedupe p) (dp_default_case_type p) (8 # 10).

Definition routing_config_of (p : DomainPack) : RoutingConfig :=
  let classes := remove_dups (dp_document_classes p) in
  mk_RoutingConfig classes [] (map (fun c => (c, "docs/" +:+ c)) classes) DEFAULT_PATTERN
    (map (fun c => (c, [])) classes) (8 # 10) "v1".

Definition apply_intake (p : DomainPack) : M EngineConfig unit :=
  modify (fun c => mk_EngineConfig (intake_config_of p) (eg_routing c)).

Definition apply_routing (p : DomainPack) : M EngineConfig unit :=
  let! r := lift_res (new_routing_config (routing_config_of p)) in
  modify (fun c => mk_EngineConfig (eg_intake c) r).

(** [pack or get_active_pack()] *)
Definition given_or_active (p : option DomainPack) (s : PackRegistry) : res DomainPack :=
  match p with Some p => Ok p | None => letr! o := get_active_pack s in Ok (po_pack o) end.

Definition apply_pack (p : option DomainPack) (s : PackRegistry) : M EngineConfig DomainPack :=
  let! p := lift_res (given_or_active p s) in
  apply_intake p ;; apply_routing p ;; ret p.

Section BuildRules.
Context (sha256_hex : string -> string) (model_dump_json : DeadlineRule -> string).

Definition build_rule_store_from_pack (p : option DomainPack) (s : PackRegistry) : res RuleStore :=
  letr! p := given_or_active p s in
  Ok (fst (for_each (dp_deadline_rules p)
        (fun r => let! _ := register_rule sha256_hex model_dump_json r None in ret tt) [])).
End BuildRules.

(** ** Validation *)

(** What a pack that passes validation satisfies. *)
Record pack_ok (p : DomainPack) : Prop := {
  ok_name : dp_name p <> EmptyString;
  ok_version : dp_version p <> EmptyString;
  ok_default : dp_default_case_type p ∈ dkeys (dp_case_types p);
  ok_classes : dp_document_classes p <> [];
  ok_kinds : dp_packet_kinds p <> [];
  ok_identifiers : dp_consistency_identifiers p <> [];
  ok_restricted : rp_default_restricted (dp_restriction p) = true;
  ok_templates : forall n ct, (n, ct) ∈ dp_case_types p -> cc_welcome_template_id ct ∈ dp_template_ids p;
  ok_rules : forall n ct rid, (n, ct) ∈ dp_case_types p -> rid ∈ cc_deadline_rule_ids ct ->
    exists r, r ∈ dp_deadline_rules p /\ dr_rule_id r = rid;
  ok_roles : forall r, r ∈ ENGINE_REQUIRED_ROLES -> r ∈ dkeys (dp_rbac_roles p) }.

Lemma check_rules_spec p n ids :
  (check_rules p n ids = Ok tt <-> forall rid, rid ∈ ids -> exists r, r ∈ dp_deadline_rules p /\ dr_rule_id r = rid) /\
  (check_rules p n ids = Ok tt \/ exists msg, check_rules p n ids = Err (PackValidationError msg)).
Proof.
  induction ids as [|x ids [IH IH']]; cbn [check_rules]; [split; [split; [by intros _ rid ?%elem_of_nil|done]|by left]|].
  assert (str_in x (map dr_rule_id (dp_deadline_rules p)) = true <->
    exists r, r ∈ dp_deadline_rules p /\ dr_rule_id r = x) as Hx.
  { rewrite str_in_spec, list_elem_of_fmap. split; intros (r & H1 & H2); eauto. }
  destruct (str_in _ _); (split; [|try exact IH'; right; by eexists]).
  - rewrite IH. split.
    + intros H rid [->|Hr]%elem_of_cons; [by apply Hx|by apply H].
    + intros H rid Hr. apply H. by right.
  - split; [done|]. intros H. exfalso. assert (false = true) by (apply Hx, H; by left). done.
Qed.

Lemma check_case_types_spec p cts :
  (check_case_types p cts = Ok tt <-> forall n ct, (n, ct) ∈ cts ->
     cc_welcome_template_id ct ∈ dp_template_ids p /\
     forall rid, rid ∈ cc_deadline_rule_ids ct -> exists r, r ∈ dp_deadline_rules p /\ dr_rule_id r = rid) /\
  (check_case_types p cts = Ok tt \/ exists msg, check_case_types p cts = Err (PackValidationError msg)).
Proof.
  induction cts as [|[n ct] cts [IH IH']]; cbn [check_case_types]; [split; [split; [by intros _ ? ? ?%elem_of_nil|done]|by left]|].
  pose proof (str_in_spec (cc_welcome_template_id ct) (dp_template_ids p)) as Ht.
  destruct (check_rules_spec p n (cc_deadline_rule_ids ct)) as [Hr Hr'].
  destruct (str_in _ _); [|split; [|right; by eexists]].
  2: { split; [done|]. intros H. exfalso. destruct (H n ct) as [Hw _]; [by left|]. by apply Ht in Hw. }
  destruct Hr' as [E|[msg E]]; rewrite E in Hr |- *; cbn [res_bind].
  - split; [|exact IH']. rewrite IH. split.
    + intros H n' ct' [[= -> ->]|Hin]%elem_of_cons; [split; [by apply Ht|by apply Hr]|by eapply H].
    + intros H n' ct' Hin. apply (H n' ct'). by right.
  - split; [|right; by eexists]. split; [done|]. intros H.
    assert (Err (PackValidationError msg) = Ok tt) by (apply Hr; eapply H; by left). done.
Qed.

(** The check of the redaction floor cannot fail: the composition begins with it. *)
Lemma floor_check_vacuous p : bfilter (fun x => negb (str_in x (pii_patterns_of p))) ENGINE_PII_BASELINE = [].
Proof. reflexivity. Qed.

Lemma nonempty_spec {A} (l : list A) : nonempty l = true <-> l <> [].
Proof. by destruct l. Qed.

Lemma truthy_spec s : str_truthy s = true <-> s <> EmptyString.
Proof. unfold str_truthy. rewrite negb_true_iff. apply String.eqb_neq. Qed.

(** Validation accepts exactly the packs that are right, and refuses the others
    with a validation error. *)
Lemma validate_pack_spec p :
  (validate_pack p = Ok tt <-> pack_ok p) /\
  (validate_pack p = Ok tt \/ exists msg, validate_pack p = Err (PackValidationError msg)).
Proof.
  unfold validate_pack. rewrite floor_check_vacuous.
  destruct (str_truthy (dp_name p) && str_truthy (dp_version p)) eqn:E1; cbn [negb].
  2: { apply andb_false_iff in E1. split; [|right; by eexists]. split; [done|].
       intros [?%truthy_spec ?%truthy_spec]. destruct E1; congruence. }
  apply andb_true_iff in E1 as [N1%truthy_spec N2%truthy_spec].
  destruct (nonempty (dp_case_types p)) eqn:E2; cbn [negb].
  2: { split; [|right; by eexists]. split; [done|]. intros [_ _ Hd]. destruct (dp_case_types p); [|done].
       by apply elem_of_nil in Hd. }
  destruct (dmem (dp_default_case_type p) (dp_case_types p)) eqn:E3; cbn [negb].
  2: { split; [|right; by eexists]. split; [done|]. intros [_ _ Hd%dmem_true]. congruence. }
  destruct (nonempty (dp_document_classes p)) eqn:E4; cbn [negb];
    [|split; [split; [done|]; intros [_ _ _ H%nonempty_spec]; congruence|right; by eexists]].
  destruct (nonempty (dp_packet_kinds p)) eqn:E5; cbn [negb];
    [|split; [split; [done|]; intros [_ _ _ _ H%nonempty_spec]; congruence|right; by eexists]].
  destruct (nonempty (dp_consistency_identifiers p)) eqn:E6; cbn [negb];
    [|split; [split; [done|]; intros [_ _ _ _ _ H%nonempty_spec]; congruence|right; by eexists]].
  destruct (rp_default_restricted (dp_restriction p)) eqn:E7; cbn [negb];
    [|split; [split; [done|]; intros [_ _ _ _ _ _ H]; congruence|right; by eexists]].
  destruct (check_case_types_spec p (dp_case_types p)) as [Hc [E|[msg E]]]; rewrite E in Hc |- *; cbn [res_bind].
  - cbn [ENGINE_REQUIRED_ROLES bfilter]. destruct (dmem "agent_service" (dp_rbac_roles p)) eqn:E8; cbn [negb].
    + split; [|by left]. split; [|done]. intros _. pose proof (proj1 Hc eq_refl) as Hct.
      split; [done|done|by apply dmem_true|by apply nonempty_spec..|done| | |].
      * intros n ct Hin. by apply (Hct n ct).
      * intros n ct rid Hin. by apply (Hct n ct).
      * intros r ->%list_elem_of_singleton. by apply dmem_true.
    + split; [|right; by eexists]. split; [done|]. intros [_ _ _ _ _ _ _ _ _ Hr].
      assert ("agent_service" ∈ dkeys (dp_rbac_roles p)) as Hd%dmem_true by (apply Hr; by left). congruence.
  - split; [|right; by eexists]. split; [done|]. intros H.
    assert (Err (PackValidationError msg) = Ok tt); [|done]. apply Hc. intros n ct Hin. split; [by eapply ok_templates|].
    intros rid. by apply (ok_rules p H n ct).
Qed.

(** ** The active pack *)

Inductive pack_call :=
| PcRegister (o : PackObj)
| PcSelect (name : string)
| PcActivate (name : option string)
| PcPlugins (eps : list (res (option PackObj)))
| PcReset.

Definition exec_pack_call (c : pack_call) (s : PackRegistry) : PackRegistry :=
  match c with
  | PcRegister o => fst (register_pack o s)
  | PcSelect name => fst (select_pack name s)
  | PcActivate name => fst (activate_configured_pack name s)
  | PcPlugins eps => fst (load_pack_plugins eps s)
  | PcReset => fst (reset_registry s)
  end.

Definition exec_pack_calls (cs : list pack_call) (s : PackRegistry) : PackRegistry :=
  fold_left (fun s c => exec_pack_call c s) cs s.

Lemma register_active o s : pk_active (fst (register_pack o s)) = pk_active s.
Proof. unfold register_pack. destruct (dget _ _); [destruct (_ =? _)|]; done. Qed.

Lemma plugins_active eps s : pk_active (fst (load_pack_plugins eps s)) = pk_active s.
Proof.
  revert s. induction eps as [|ep eps IH]; intros s; [done|]. cbn [load_pack_plugins].
  unfold bind at 1, try_pass, bind, lift_res. destruct ep as [[o|]|e]; cbn; try apply IH.
  pose proof (register_active o s) as H. destruct (register_pack o s) as [s' r]. cbn in *. by rewrite IH.
Qed.

(** What selecting leaves active: a validated pack, or what was active before. *)
Lemma select_active name s :
  let '(s', r) := select_pack name s in
  match r with
  | Ok o => dget name (pk_registry s) = Some o /\ pack_ok (po_pack o) /\ pk_active s' = Some o
  | Err _ => s' = s
  end.
Proof.
  unfold select_pack. destruct (dget name _) as [o|] eqn:E; [|done].
  destruct (validate_pack_spec (po_pack o)) as [Hv [H|[msg H]]]; rewrite H; [|done].
  split; [done|]. split; [by apply Hv|done].
Qed.

(** Activation makes the configured pack the active one, or raises and leaves the
    active pack as it was. *)
Lemma activate_spec name s :
  let '(s', r) := activate_configured_pack name s in
  match r with
  | Ok o => pk_active s' = Some o /\ pack_ok (po_pack o)
  | Err _ => pk_active s' = pk_active s
  end.
Proof.
  unfold activate_configured_pack. destruct name as [name|]; [|done]. destruct (str_truthy name); [|done].
  unfold bind, register_builtin_packs, modify. pose proof (select_active name
    (set_packs (set_default consulting_obj (set_default immigration_obj (pk_registry s))) s)) as H.
  destruct (select_pack name _) as [s' [o|e]]; [by destruct H as (_ & ? & ?)|by rewrite H].
Qed.

(** Only a pack that is right ever serves.  Whatever is registered, selected,
    activated, discovered or reset, in whatever order, the active pack passed
    validation: its default and every case type's references exist, its
    confidential default is the strict one, it has the engine's own role, and
    the redaction patterns in force contain the engine's floor.  A failed
    selection or activation leaves the active pack as it was, and without an
    active pack nothing serves. *)
Lemma active_pack_valid cs :
  let s := exec_pack_calls cs empty_packs in
  match get_active_pack s with
  | Ok o => pk_active s = Some o /\ pack_ok (po_pack o) /\
      exists ps, active_pii_patterns None s = Ok (ENGINE_PII_BASELINE ++ ps)
  | Err _ => pk_active s = None
  end /\
  (forall name s' e, select_pack name s = (s', Err e) -> s' = s) /\
  (forall name s' e, activate_configured_pack name s = (s', Err e) -> pk_active s' = pk_active s).
Proof.
  intros s. assert (forall o, pk_active s = Some o -> pack_ok (po_pack o)) as Hok.
  { unfold s. assert (forall o, pk_active empty_packs = Some o -> pack_ok (po_pack o)) as H0 by done.
    revert H0. generalize empty_packs. clear s. induction cs as [|c cs IH]; intros s H0; [done|]. apply IH. intros o.
    destruct c as [o'|name|name|eps|]; cbn [exec_pack_call].
    - rewrite register_active. apply H0.
    - pose proof (select_active name s) as H. destruct (select_pack name s) as [s' [o'|e]]; cbn.
      + destruct H as (_ & Hp & ->). by intros [= <-].
      + rewrite H. apply H0.
    - pose proof (activate_spec name s) as H. destruct (activate_configured_pack name s) as [s' [o'|e]]; cbn.
      + destruct H as [-> Hp]. by intros [= <-].
      + rewrite H. apply H0.
    - rewrite plugins_active. apply H0.
    - done. }
  split; [|split].
  - unfold get_active_pack, active_pii_patterns. unfold get_active_pack. destruct (pk_active s) as [o|] eqn:E; [|done].
    split; [done|]. split; [by apply Hok|]. eexists. reflexivity.
  - intros name s' e H. pose proof (select_active name s) as Hs. by rewrite H in Hs.
  - intros name s' e H. pose proof (activate_spec name s) as Hs. by rewrite H in Hs.
Qed.

(** ** Serving a valid pack *)

Section Serve.
Context (sha256_hex : string -> string) (model_dump_json : DeadlineRule -> string).

Abbreviation build p := (build_rule_store_from_pack sha256_hex model_dump_json (Some p)).

(** The rules under a rule id in the store built from a list of rules. *)
Lemma build_entries rules st rid :
  let st' := fst (for_each rules (fun r => let! _ := register_rule sha256_hex model_dump_json r None in ret tt) st) in
  (forall v r, (v, r) ∈ entries rid st' -> (v, r) ∈ entries rid st \/ r ∈ rules /\ dr_rule_id r = rid) /\
  ((exists r, r ∈ rules /\ dr_rule_id r = rid) \/ entries rid st <> [] -> entries rid st' <> []).
Proof.
  revert st. induction rules as [|x rules IH]; intros st st'; [split; [by left|]|].
  { intros [(r & Hr%elem_of_nil & _)|H]; done. }
  subst st'. cbn [for_each]. unfold bind at 1, bind at 1, register_rule at 1. cbn [fst ret].
  set (st1 := append_version _ x st). specialize (IH st1). cbv zeta in IH. destruct IH as [IH1 IH2].
  assert (forall v r, (v, r) ∈ entries rid st1 -> (v, r) ∈ entries rid st \/ r = x /\ dr_rule_id r = rid) as H1.
  { intros v r. unfold st1. rewrite entries_append. case_decide as Hd; [|by left]. destruct (existsb _ _); [by left|].
    intros [H|H]%elem_of_app; [by left|]. apply list_elem_of_singleton in H. right. by simplify_eq. }
  assert (dr_rule_id x = rid -> entries rid st1 <> []) as H2.
  { intros Hd. unfold st1. rewrite entries_append, decide_True by done.
    destruct (existsb _ _) eqn:E; [intros Hn; by rewrite Hn in E|]. by destruct (entries rid st). }
  assert (entries rid st <> [] -> entries rid st1 <> []) as H3.
  { unfold st1. rewrite entries_append. case_decide; [|done]. destruct (existsb _ _); [done|]. by destruct (entries rid st). }
  split.
  - intros v r [H|[H ?]]%IH1; [|right; split; [by right|done]]. apply H1 in H as [H|[-> ?]]; [by left|]. right. split; [by left|done].
  - intros [(r & [->|Hr]%elem_of_cons & Hid)|Hn]; apply IH2; [right; by apply H2|left; by exists r|right; by apply H3].
Qed.

Lemma last_entry_in {A} (l : list A) : l <> [] -> exists x, last_entry l = Some x /\ x ∈ l.
Proof.
  induction l as [|x l IH]; [done|]. intros _. destruct l as [|y l]; [exists x; split; [done|by left]|].
  destruct IH as (z & Hz & Hin); [done|]. exists z. split; [exact Hz|by right].
Qed.

(** Applying a pack never fails: every class gets a folder. *)
Lemma apply_pack_total p s c :
  apply_pack (Some p) s c = (mk_EngineConfig (intake_config_of p) (routing_config_of p), Ok p).
Proof.
  unfold apply_pack, bind at 1, lift_res, given_or_active, bind at 1, apply_intake, modify, bind at 1, apply_routing, bind at 1,
    lift_res, new_routing_config, validate_totality, missing_classes, routing_config_of.
  cbn [rc_classes rc_folder_map]. rewrite bfilter_none; [reflexivity|].
  intros x Hx. apply negb_false_iff, dmem_true. unfold dkeys. rewrite map_map. cbn. by rewrite map_id.
Qed.

(** A valid pack serves.  Applying a pack that passed validation succeeds;
    afterwards every lead, whatever case type it names, gets the configuration
    of one of the pack's case types, and every document class has a folder.  If
    the pack's rules are for the jurisdiction intake asks for, every deadline
    rule of such a configuration is found, active, in the rule store built from
    the pack, and is the pack's. *)
Lemma valid_pack_serves p s c :
  validate_pack p = Ok tt -> Forall (fun r => dr_jurisdiction r = "US") (dp_deadline_rules p) ->
  exists c' store, apply_pack (Some p) s c = (c', Ok p) /\ build p s = Ok store /\
    (forall case_type, exists name cfg, get_case_type (eg_intake c') case_type = Ok cfg /\ (name, cfg) ∈ dp_case_types p /\
       forall rid, rid ∈ cc_deadline_rule_ids cfg ->
         exists rule version, active rid "US" store = Ok rule /\ rule_version rid "US" store = Ok version /\
           rule ∈ dp_deadline_rules p /\ dr_rule_id rule = rid) /\
    (forall cl, cl ∈ dp_document_classes p -> folder_for cl (rc_folder_map (eg_routing c')) = Some ("docs/" +:+ cl)).
Proof.
  intros Hv Hus. apply validate_pack_spec in Hv. eexists _, _. split; [|split; [reflexivity|split]].
  - apply apply_pack_total.
  - cbn [eg_intake]. intros t.
    assert (exists name cfg, get_case_type (intake_config_of p) t = Ok cfg /\ (name, cfg) ∈ dp_case_types p) as (name & cfg & Hg & Hin).
    { pose proof (ok_default p Hv) as Hd. apply dmem_true, dmem_dget in Hd as [d Hd]. unfold get_case_type. cbn. rewrite Hd. cbn.
      set (key := match t with Some _ => _ | None => _ end). destruct (dget key (dp_case_types p)) as [cfg|] eqn:E.
      - exists key, cfg. split; [done|]. by apply dget_Some_in.
      - exists (dp_default_case_type p), d. split; [done|]. by apply dget_Some_in. }
    exists name, cfg. do 2 (split; [done|]). intros rid Hrid. pose proof (ok_rules p Hv _ _ _ Hin Hrid) as Hr.
    destruct (build_entries (dp_deadline_rules p) [] rid) as [H1 H2]. cbv zeta in H1, H2.
    set (st := fst (for_each _ _ _)) in *. specialize (H2 (or_introl Hr)).
    assert (forall v r, (v, r) ∈ entries rid st -> r ∈ dp_deadline_rules p /\ dr_rule_id r = rid) as Hent.
    { intros v r H. by destruct (H1 v r H) as [?%elem_of_nil|?]. }
    assert (matching "US" (entries rid st) = entries rid st) as Hm.
    { apply bfilter_all. intros [v r] H. apply String.eqb_eq. rewrite Forall_forall in Hus. apply Hus. by eapply Hent. }
    destruct (last_entry_in _ H2) as ([v r] & Hl & Hlin). exists r.
    assert (active_entry rid "US" st = Some (v, r)) as Ha by (unfold active_entry; by rewrite Hm).
    assert (active rid "US" st = Ok r) as Hac by (unfold active; by rewrite Ha).
    unfold rule_version. rewrite Hac. cbn [res_bind].
    destruct (find_first _ (rev (entries rid st))) as [[v' r']|] eqn:Ef.
    + exists v'. do 2 (split; [done|]). by eapply Hent.
    + exfalso. eapply find_first_None in Ef; [|apply list_elem_of_In; rewrite <- in_rev; by apply list_elem_of_In].
      cbn in Ef. apply String.eqb_neq in Ef. apply Ef. rewrite Forall_forall in Hus. apply Hus. by eapply Hent.
  - intros cl Hcl. cbn [eg_routing]. unfold folder_for, routing_config_of. cbn [rc_folder_map].
    apply elem_of_remove_dups in Hcl. induction (remove_dups (dp_document_classes p)) as [|x l IH]; [by apply elem_of_nil in Hcl|].
    cbn. case_decide as Hd; [by subst|]. apply IH. by apply elem_of_cons in Hcl as [->|].
Qed.
End Serve.

(** ** The packs of the repository *)

Example builtin_packs_valid : validate_pack IMMIGRATION_PACK = Ok tt /\ validate_pack CONSULTING_PACK = Ok tt /\
  (forall p, p ∈ [IMMIGRATION_PACK; CONSULTING_PACK] -> new_terminology (dp_terminology p) = Ok (dp_terminology p)).
Proof.
  split; [vm_compute; reflexivity|]. split; [vm_compute; reflexivity|].
  intros p [->|[->|[]%elem_of_nil]%elem_of_cons]%elem_of_cons; reflexivity.
Qed.

Definition lax_pack : DomainPack :=
  mk_DomainPack "lax" "1" (dp_terminology CONSULTING_PACK) CONSULTING_CASE_TYPES "audit" default_dedupe CONSULTING_RULES
    ["unknown"] PACKET_KINDS ["client_id"] (mk_RestrictionPolicy "Open" false []) CONSULTING_RBAC_ROLES []
    ["consulting_welcome"; "default_welcome"] [] [] [].

Lemma active_pack_valid_witness :
  let cs := [PcActivate None; PcActivate (Some "consulting"); PcRegister (mk_PackObj 3 lax_pack); PcSelect "lax";
             PcRegister (mk_PackObj 4 CONSULTING_PACK)] in
  list_registered_pack_names (exec_pack_calls cs empty_packs) = ["consulting"; "immigration"; "lax"] /\
  pk_active (exec_pack_calls cs empty_packs) = Some consulting_obj /\ pack_ok CONSULTING_PACK.
Proof.
  cbv zeta. split; [vm_compute; reflexivity|].
  destruct (active_pack_valid [PcActivate None; PcActivate (Some "consulting"); PcRegister (mk_PackObj 3 lax_pack);
    PcSelect "lax"; PcRegister (mk_PackObj 4 CONSULTING_PACK)]) as [H _].
  change (get_active_pack (exec_pack_calls _ _)) with (Ok (A := PackObj) consulting_obj) in H.
  destruct H as (H1 & H2 & _). split; [exact H1|exact H2].
Defined.

Lemma valid_pack_serves_witness :
  exists c' store, apply_pack (Some IMMIGRATION_PACK) empty_packs
      (mk_EngineConfig default_intake_config default_routing_config) = (c', Ok IMMIGRATION_PACK) /\
    build_rule_store_from_pack (fun s => s) (fun _ => "{}") (Some IMMIGRATION_PACK) empty_packs = Ok store /\
    exists name cfg, get_case_type (eg_intake c') (Some "H-1B") = Ok cfg /\ (name, cfg) ∈ IMMIGRATION_CASE_TYPES.
Proof.
  destruct (valid_pack_serves (fun s => s) (fun _ => "{}") IMMIGRATION_PACK empty_packs
    (mk_EngineConfig default_intake_config default_routing_config)) as (c' & store & H1 & H2 & H3 & _);
    [vm_compute; reflexivity|repeat constructor|].
  exists c', store. split; [exact H1|]. split; [exact H2|].
  destruct (H3 (Some "H-1B")) as (name & cfg & H4 & H5 & _). exists name, cfg. split; [exact H4|exact H5].
Defined.

Definition ada_time : datetime := utc_datetime (ymd2ord 2026 3 9) 0.

Definition tpl_matter_of (c : Contact) : Matter :=
  mk_Matter "m1" "case" "REF-1" "Title" "open" None c None ada_time [] [].

(** The first case type of either pack has a rule whose trigger intake never
    gives: with the pack's rules loaded, computing its deadlines fails. *)
Example builtin_deadlines_fail p rule :
  (p, rule) ∈ [(IMMIGRATION_PACK, "rfe_response"); (CONSULTING_PACK, "deliverable_due")] ->
  match build_rule_store_from_pack (fun s => s) (fun _ => "{}") (Some p) empty_packs with
  | Ok store =>
      exists trigger, snd (schedule_rule (S := MemScheduler) (V := unit) (SCH := mem_scheduler (fun _ => ada_time) in_supply)
        (fun _ => ada_time) in_supply (fun s => s) store (tpl_matter_of ada) "r1" rule ada_time
        (mk_sys (mk_DState empty_deadline_store (mk_MemScheduler [] ada_time false)) tt 0 0)) =
        Err (MissingTriggerError trigger)
  | Err _ => False
  end.
Proof. intros [[= -> ->]|[[= -> ->]|[]%elem_of_nil]%elem_of_cons]%elem_of_cons; vm_compute; eauto. Qed.

(** Validation looks at no jurisdiction and no template of a form. *)
Definition stray_pack : DomainPack :=
  mk_DomainPack "stray" "1" (dp_terminology CONSULTING_PACK) CONSULTING_CASE_TYPES "audit" default_dedupe
    [mk_DeadlineRule "deliverable_due" "DE" None "trigger_date" (mk_Offset 1 0 0 0 0) "none" "us_federal" []
       (mk_EscalationPolicy []) "" true]
    ["unknown"] PACKET_KINDS ["client_id"] (mk_RestrictionPolicy "Open" true []) CONSULTING_RBAC_ROLES []
    ["consulting_welcome"; "default_welcome"] [] [("F-1", "no_such_template")] [].

Example stray_pack_accepted :
  validate_pack stray_pack = Ok tt /\
  match build_rule_store_from_pack (fun s => s) (fun _ => "{}") (Some stray_pack) empty_packs with
  | Ok store => is_ok (active "deliverable_due" "US" store)
  | Err _ => true
  end = false.
Proof. split; vm_compute; reflexivity. Qed.
