(* ===== verification/Scrub.v ===== *)
(** * Scrub: obs/observability.py

    The redaction of personal data in logs, spans and metric labels: the active
    patterns, [pii_scrub], the log and span processors, the label sanitiser, and
    the parts of the bootstrap that change them.  The program's patterns are
    written as expressions of [Regex].  Proved: after scrubbing no pattern of the
    engine or of a built-in pack matches anywhere, so scrubbing is idempotent
    and text without personal data is left as it is. *)

From Stdlib Require Import ZArith Lia Ascii String List.
From stdpp Require Import base list strings.
From S2P Require Import Prelude PyTime Effects PyText Base64 Regex Qc Rules Intake Routing Packs.

Open Scope string_scope.
Open Scope list_scope.
Open Scope Z_scope.
Open Scope cam_scope.

(** ** The patterns *)

Definition lit (c : ascii) : re := RSet (Ascii.eqb c).
Definition one_of (cs : string) : ascii -> bool := fun c => str_has c cs.
Definition upper (c : ascii) : bool := (65 <=? code c) && (code c <=? 90).
Definition letter (c : ascii) : bool := upper c || ((97 <=? code c) && (code c <=? 122)).
Definition digits (n : nat) : re := RRep is_digit n (Some n).
Definition separator : re := ROpt (RSet (fun c => is_space c || one_of ".-" c)).

Fixpoint rseq (l : list re) : re :=
  match l with
  | [] => RRep (fun _ => false) 0 None
  | [r] => r
  | r :: l' => RSeq r (rseq l')
  end.

Definition SSN_BODY : re := rseq [digits 3; lit "-"; digits 2; lit "-"; digits 4].
Definition DOB_ISO_BODY : re := rseq [digits 4; lit "-"; digits 2; lit "-"; digits 2].
Definition DOB_US_BODY : re := rseq [digits 2; lit "/"; digits 2; lit "/"; digits 4].
Definition EMAIL_BODY : re :=
  rseq [RRep (fun c => letter c || is_digit c || one_of "._%+-" c) 1 None; lit "@";
        RRep (fun c => letter c || is_digit c || one_of ".-" c) 1 None; lit "."; RRep letter 2 None].
Definition PHONE_BODY : re :=
  rseq [ROpt (rseq [ROpt (lit "+"); lit "1"; separator]); ROpt (lit "("); digits 3; ROpt (lit ")"); separator;
        digits 3; separator; digits 4].
Definition A_NUMBER_BODY : re := rseq [lit "A"; RRep is_digit 8 (Some 9%nat)].
Definition PASSPORT_BODY : re := rseq [RRep upper 1 (Some 2%nat); RRep is_digit 6 (Some 9%nat)].

(** [re.compile] of the sources the program holds; any other goes to the
    parameter. *)
Definition known_patterns : dict string re :=
  [("\b\d{3}-\d{2}-\d{4}\b", SSN_BODY);
   ("\b\d{4}-\d{2}-\d{2}\b", DOB_ISO_BODY);
   ("\b\d{2}/\d{2}/\d{4}\b", DOB_US_BODY);
   ("\b[A-Za-z0-9._%+\-]+@[A-Za-z0-9.\-]+\.[A-Za-z]{2,}\b", EMAIL_BODY);
   ("\b(\+?1[\s.-]?)?\(?\d{3}\)?[\s.-]?\d{3}[\s.-]?\d{4}\b", PHONE_BODY);
   ("\bA\d{8,9}\b", A_NUMBER_BODY);
   ("\b[A-Z]{1,2}\d{6,9}\b", PASSPORT_BODY)].

Definition REDACTED : string := "[REDACTED]".

Section Observability.
Context (compile_other : string -> re).

Definition compile (source : pattern) : re :=
  match dget source known_patterns with Some body => bounded body | None => compile_other source end.

(** The module's state: the patterns, the redaction counter once it is made, the
    run bound to the context, and whether [configure_observability] has run. *)
Record Obs := mk_Obs {
  ob_patterns : list re; ob_redactions : option Z; ob_run_id : option string; ob_configured : bool }.

Definition initial_obs : Obs := mk_Obs (map compile ENGINE_PII_BASELINE) None None false.

(** [PackSelectionError] falls back to the baseline. *)
Definition configure_pii_patterns (pack : option DomainPack) (packs : PackRegistry) : M Obs unit := fun s =>
  match active_pii_patterns pack packs with
  | Ok ps => (mk_Obs (map compile ps) (ob_redactions s) (ob_run_id s) (ob_configured s), Ok tt)
  | Err (OtherError cls msg) =>
      if String.eqb cls "PackSelectionError"
      then (mk_Obs (map compile ENGINE_PII_BASELINE) (ob_redactions s) (ob_run_id s) (ob_configured s), Ok tt)
      else (s, Err (OtherError cls msg))
  | Err e => (s, Err e)
  end.

(** Idempotent; wires the signals and appends the extra patterns. *)
Definition configure_observability (extra_pii_patterns : list string) : M Obs unit := modify (fun s =>
  if ob_configured s then s
  else mk_Obs (ob_patterns s ++ map compile extra_pii_patterns) (Some 0) (ob_run_id s) true).

Definition bind_run_id (run_id : string) : M Obs unit := modify (fun s =>
  mk_Obs (ob_patterns s) (ob_redactions s) (Some run_id) (ob_configured s)).

Definition pii_scrub (patterns : list re) (value : string) : string :=
  fold_left (fun v r => re_sub r REDACTED v) patterns value.

(** [_scrub_dict]: texts, and the texts of nested dictionaries. *)
Fixpoint scrub_value (patterns : list re) (v : json) : json :=
  match v with
  | JStr s => JStr (pii_scrub patterns s)
  | JDict d => JDict (map (fun p => (p.1, scrub_value patterns p.2)) d)
  | _ => v
  end.

Definition scrub_dict (patterns : list re) (d : jdict) : jdict :=
  map (fun p => (p.1, scrub_value patterns p.2)) d.

(** [_pii_structlog_processor]: texts at the top level only, counting changes. *)
Definition pii_structlog_processor (event_dict : jdict) : M Obs jdict := fun s =>
  let scrubbed := map (fun p => (p.1, match p.2 with JStr v => JStr (pii_scrub (ob_patterns s) v) | v => v end)) event_dict in
  let changed := bfilter (fun p => match p.2 with
                                   | JStr v => negb (String.eqb (pii_scrub (ob_patterns s) v) v)
                                   | _ => false end) event_dict in
  (mk_Obs (ob_patterns s) (option_map (fun n => n + Z.of_nat (length changed)) (ob_redactions s)) (ob_run_id s)
     (ob_configured s), Ok scrubbed).

Definition run_id_processor (event_dict : jdict) : M Obs jdict :=
  gets (fun s => match ob_run_id s with Some r => dset "run_id" (JStr r) event_dict | None => event_dict end).

(** [PIISpanProcessor.on_end]: the attributes the span is exported with. *)
Definition on_end (attributes : jdict) : M Obs jdict :=
  gets (fun s => match attributes with [] => [] | _ => scrub_dict (ob_patterns s) attributes end).

Definition sanitize_label (value : string) : M Obs string :=
  gets (fun s => let scrubbed := pii_scrub (ob_patterns s) value in
                 if (64 <? String.length scrubbed)%nat then String.substring 0 61 scrubbed +:+ "..." else scrubbed).

Definition span_attributes_for_run (run_id workflow : option string) : dict string string :=
  (match run_id with Some r => if str_truthy r then [("cam.run_id", r)] else [] | None => [] end) ++
  (match workflow with Some w => if str_truthy w then [("cam.workflow", w)] else [] | None => [] end).

(** The name and the attributes a span is started with. *)
Definition start_workflow_span (workflow_name : string) (run_id step : option string)
    : string * dict string string :=
  (if opt_truthy step then workflow_name +:+ "." +:+ (match step with Some s => s | None => EmptyString end)
   else workflow_name,
   span_attributes_for_run run_id (Some workflow_name)).

End Observability.

(** ** Nothing is left *)

(** No pattern of the list matches anywhere in the text. *)
Definition pii_free (patterns : list re) (s : string) : Prop :=
  forall r, r ∈ patterns -> free r None (list_ascii_of_string s).

Definition LBRACKET : ascii := "["%char.
Definition RBRACKET : ascii := "]"%char.
Definition REDACTED_WORD : list ascii := list_ascii_of_string "REDACTED".

(** The expressions the argument covers. *)
Definition scrubbing (r : re) : Prop :=
  exists body, r = bounded body /\ clean LBRACKET RBRACKET REDACTED_WORD body = true.

Lemma re_sub_list r s :
  list_ascii_of_string (re_sub r REDACTED s) =
    sub_from (length (list_ascii_of_string s)) r (replacement LBRACKET RBRACKET REDACTED_WORD) None (list_ascii_of_string s).
Proof. unfold re_sub. by rewrite list_ascii_of_string_of_list_ascii. Qed.

Lemma scrub_frees ps s done_ :
  Forall scrubbing ps -> Forall scrubbing done_ -> pii_free done_ s ->
  pii_free (done_ ++ ps) (pii_scrub ps s).
Proof.
  revert s done_. induction ps as [|r ps IH]; intros s done_ Hps Hd Hf; [by rewrite app_nil_r|].
  apply Forall_cons in Hps as [Hr Hps]. cbn [pii_scrub fold_left]. fold (pii_scrub ps (re_sub r REDACTED s)).
  change (r :: ps) with ([r] ++ ps). rewrite app_assoc. apply IH; [done| |].
  { apply Forall_app. by split; [|constructor]. }
  destruct Hr as (b & -> & Hb). intros r' [Hr'|Hr'%list_elem_of_singleton]%elem_of_app; rewrite re_sub_list.
  - rewrite list.Forall_forall in Hd. destruct (Hd r' Hr') as (b' & -> & Hb').
    apply sub_keeps_free; [done|done|by left|]. by apply Hf.
  - subst r'. apply sub_frees; [done|done|by left].
Qed.

Lemma scrub_id ps s : pii_free ps s -> pii_scrub ps s = s.
Proof.
  induction ps as [|r ps IH]; intros Hf; [done|]. cbn [pii_scrub fold_left].
  assert (re_sub r REDACTED s = s) as ->.
  { unfold re_sub. rewrite sub_free; [apply string_of_list_ascii_of_string|done|]. apply Hf. left. }
  apply IH. intros r' Hr'. apply Hf. by right.
Qed.

(** The patterns of the engine and of the built-in packs. *)
Definition BUILTIN_SOURCES : list pattern := ENGINE_PII_BASELINE ++ IMMIGRATION_PII.

Definition clean_source (src : pattern) : bool :=
  match dget src known_patterns with Some body => clean LBRACKET RBRACKET REDACTED_WORD body | None => false end.

Lemma builtin_clean : forallb clean_source BUILTIN_SOURCES = true.
Proof. vm_compute. reflexivity. Qed.

Lemma builtin_scrubbing other src : src ∈ BUILTIN_SOURCES -> scrubbing (compile other src).
Proof.
  intros H%list_elem_of_In. pose proof builtin_clean as Hc. rewrite forallb_forall in Hc.
  specialize (Hc src H). unfold clean_source in Hc. unfold compile.
  destruct (dget src known_patterns) as [body|]; [|done]. by exists body.
Qed.

(** C29: Nothing an active pattern of the engine or of a built-in pack matches is left
    in a scrubbed text: neither a match of the last pattern applied nor one that
    an earlier or later replacement brought about.  So scrubbing again changes
    nothing, and a text without any match is left as it is. *)
Theorem scrub_complete (other : string -> re) (sources : list pattern) (s : string) :
  Forall (fun x => x ∈ BUILTIN_SOURCES) sources ->
  let ps := map (compile other) sources in
  pii_free ps (pii_scrub ps s) /\ pii_scrub ps (pii_scrub ps s) = pii_scrub ps s /\
  (pii_free ps s -> pii_scrub ps s = s).
Proof.
  intros Hs ps. assert (Forall scrubbing ps) as Hps.
  { unfold ps. clear ps. induction Hs as [|x l Hx _ IH]; constructor; [by apply builtin_scrubbing|exact IH]. }
  assert (pii_free ps (pii_scrub ps s)) as Hf.
  { apply (scrub_frees ps s []); [done|constructor|]. intros r Hr. by apply elem_of_nil in Hr. }
  split; [exact Hf|]. split; [by apply scrub_id|]. apply scrub_id.
Qed.

(** Metric labels are short. *)
Lemma substring_length n m s : (String.length (String.substring n m s) <= m)%nat.
Proof.
  revert n m. induction s as [|c s IH]; intros [|n] [|m]; cbn; try lia; [specialize (IH 0%nat m); lia | apply IH..].
Qed.

Lemma label_bounded value (s : Obs) l : snd (sanitize_label value s) = Ok l -> (String.length l <= 64)%nat.
Proof.
  unfold sanitize_label, gets. intros [= <-].
  destruct (Nat.ltb_spec 64 (String.length (pii_scrub (ob_patterns s) value))); [|lia].
  pose proof (substring_length 0 61 (pii_scrub (ob_patterns s) value)).
  rewrite str_len_app. cbn [String.length]. lia.
Qed.

(** ** Concrete texts *)

Definition ex_other (source : string) : re := lit "!".

Definition ex_patterns : list re := map (compile ex_other) BUILTIN_SOURCES.

Definition ex_text : string := "A123456789, ssn 123-45-6789, mail ada.l+x@law.example.org or 1 555.123 4567.".

Example scrub_example :
  pii_scrub ex_patterns ex_text = "[REDACTED], ssn [REDACTED], mail [REDACTED] or [REDACTED].".
Proof. vm_compute. reflexivity. Qed.

(** Word boundaries: longer numbers and words are left, and so is the bracket
    before an area code. *)
Example scrub_boundaries :
  map (pii_scrub ex_patterns) ["x123-45-6789"; "1123-45-6789"; "2026-03-09T10:00"; "call (555) 123-4567"] =
  ["x123-45-6789"; "1123-45-6789"; "2026-03-09T10:00"; "call ([REDACTED]"].
Proof. vm_compute. reflexivity. Qed.

Lemma scrub_complete_witness :
  Forall (fun x => x ∈ BUILTIN_SOURCES) BUILTIN_SOURCES /\
  pii_scrub ex_patterns (pii_scrub ex_patterns ex_text) = pii_scrub ex_patterns ex_text.
Proof.
  assert (Forall (fun x => x ∈ BUILTIN_SOURCES) BUILTIN_SOURCES) as H by (apply list.Forall_forall; auto).
  split; [exact H|]. exact (proj1 (proj2 (scrub_complete ex_other BUILTIN_SOURCES ex_text H))).
Defined.

Definition ex_obs : Obs := initial_obs ex_other.
Definition ex_nested : jdict := [("ctx", JDict [("ssn", JStr "123-45-6789")]); ("l", JList [JStr "123-45-6789"])].

(** Logs keep what nested values hold; spans keep what lists hold. *)
Example nested_values_logged :
  snd (pii_structlog_processor ex_nested ex_obs) = Ok ex_nested /\
  snd (on_end ex_nested ex_obs) =
    Ok [("ctx", JDict [("ssn", JStr "[REDACTED]")]); ("l", JList [JStr "123-45-6789"])].
Proof. split; vm_compute; reflexivity. Qed.

(** Selecting the pack's patterns after the bootstrap drops the extra ones. *)
Example extra_patterns_dropped :
  let s := fst ((configure_observability ex_other ["\bA\d{8,9}\b"] ;;
                 configure_pii_patterns ex_other None empty_packs) ex_obs) in
  ob_patterns s = map (compile ex_other) ENGINE_PII_BASELINE.
Proof. reflexivity. Qed.
