(* ===== verification/AuditLog.v ===== *)
(** * AuditLog: core/audit/service.py and the AuditRepository

    The append-only, hash-chained audit log: recording, verification and export.
    The database is outside the repository: the class [AuditTable] has the two
    statements the repository sends (an INSERT, and a SELECT ordered by id) and
    [AuditTableLaws] their documented effect on an append-only table.  SHA-256 is a
    parameter, and so are the encoders of the operations; the main theorem is about
    Python's json as [Json] models it. *)

From Stdlib Require Import ZArith Lia Ascii String List QArith.
From stdpp Require Import base list strings.
From S2P Require Import Prelude PyTime ConnErrors Effects Domain PyText Json.

Open Scope string_scope.
Open Scope list_scope.
Open Scope Z_scope.
Open Scope cam_scope.

(** ** The audit table *)

Class AuditTable (R : Type) := {
  (** Store the record under the next id; the row is read back. *)
  tbl_insert : AuditRecord -> M R AuditRecord;
  (** All rows, by ascending id. *)
  tbl_select : M R (list AuditRecord);
  tbl_rows : R -> list AuditRecord }.

Definition with_id (n : Z) (r : AuditRecord) : AuditRecord :=
  mk_AuditRecord n (ar_actor r) (ar_action r) (ar_inputs r) (ar_outputs r) (ar_approval r) (ar_timestamp r)
    (ar_run_id r) (ar_prev_hash r) (ar_record_hash r).

Class AuditTableLaws (R : Type) `{AuditTable R} := {
  insert_ok r t t' row : tbl_insert r t = (t', Ok row) ->
    (exists n, row = with_id n r /\ forall x, x ∈ tbl_rows t -> ar_id x < n) /\
    tbl_rows t' = tbl_rows t ++ [row];
  insert_err r t t' e : tbl_insert r t = (t', Err e) -> tbl_rows t' = tbl_rows t;
  select_rows t : tbl_rows (fst (tbl_select t)) = tbl_rows t;
  select_ok t l : snd (tbl_select t) = Ok l -> l = tbl_rows t }.

(** A table that never fails. *)
Definition mem_table : Type := list AuditRecord.

Definition next_id (t : mem_table) : Z := fold_right (fun r n => Z.max (ar_id r + 1) n) 1 t.

#[export] Instance mem_table_ops : AuditTable mem_table := {
  tbl_insert r := fun t => let row := with_id (next_id t) r in (t ++ [row], Ok row);
  tbl_select := gets (fun t => t);
  tbl_rows t := t }.

Lemma next_id_above t x : x ∈ t -> ar_id x < next_id t.
Proof.
  induction t as [|r t IH]; [by intros H%elem_of_nil|]. cbn [next_id fold_right]. fold (next_id t).
  intros [->|H]%elem_of_cons; [lia|]. specialize (IH H). lia.
Qed.

#[export] Instance mem_table_laws : AuditTableLaws mem_table.
Proof.
  split; cbn.
  - intros r t t' row [= <- <-]. split; [|done]. exists (next_id t). split; [done|apply next_id_above].
  - done.
  - done.
  - by intros t l [= <-].
Qed.

(** ** AuditRepository *)

Section Audit.
Context {R : Type} `{AuditTable R}.

Definition repo_append (r : AuditRecord) : M R AuditRecord := tbl_insert r.

Definition repo_get_latest : M R (option AuditRecord) :=
  let! rows := tbl_select in ret (last rows).

Definition in_range (start_id end_id : option Z) (r : AuditRecord) : bool :=
  (match start_id with Some a => a <=? ar_id r | None => true end) &&
  (match end_id with Some b => ar_id r <=? b | None => true end).

Definition repo_get_range (start_id end_id : option Z) : M R (list AuditRecord) :=
  let! rows := tbl_select in ret (bfilter (in_range start_id end_id) rows).

(** ** AuditService *)

Context (clock : nat -> datetime) (sha256_hex : string -> string).
(** [json.dumps] with sorted keys, and without. *)
Context (canonical compact : json -> string).

Fixpoint zeros64 (n : nat) : string :=
  match n with O => EmptyString | S n' => String "0"%char (zeros64 n') end.

Definition GENESIS_HASH : string := zeros64 64.
Definition CANONICAL_VERSION : string := "v1".

Definition compute_hash (prev_hash : string) (body : jdict) : string :=
  sha256_hex (prev_hash +:+ canonical (JDict body)).

Definition japproval (a : option jdict) : json := match a with Some d => JDict d | None => JNull end.

(** The hashed fields of a record. *)
Definition record_body (r : AuditRecord) : jdict :=
  [("canonical_version", JStr CANONICAL_VERSION); ("actor", JStr (ar_actor r)); ("action", JStr (ar_action r));
   ("inputs", JDict (ar_inputs r)); ("outputs", JDict (ar_outputs r)); ("approval", japproval (ar_approval r));
   ("timestamp", JStr (isoformat (ar_timestamp r))); ("run_id", jopt (ar_run_id r));
   ("prev_hash", JStr (ar_prev_hash r))].

Definition row_hash (r : AuditRecord) : string := compute_hash (ar_prev_hash r) (record_body r).

Definition with_hash (h : string) (r : AuditRecord) : AuditRecord :=
  mk_AuditRecord (ar_id r) (ar_actor r) (ar_action r) (ar_inputs r) (ar_outputs r) (ar_approval r)
    (ar_timestamp r) (ar_run_id r) (ar_prev_hash r) h.

Definition record (actor action : string) (inputs outputs : jdict) (run_id : option string)
    (approval : option jdict) : M (sys R Datatypes.unit) AuditRecord :=
  let! latest := on_store repo_get_latest in
  let prev_hash := match latest with Some r => ar_record_hash r | None => GENESIS_HASH end in
  let! now := get_now clock in
  let draft := mk_AuditRecord 0 actor action inputs outputs approval now run_id prev_hash "" in
  on_store (repo_append (with_hash (row_hash draft) draft)).

Record VerifyResult := mk_VerifyResult { vr_ok : bool; vr_first_bad_id : option Z }.

Fixpoint verify_rows (expected_prev : string) (rows : list AuditRecord) : VerifyResult :=
  match rows with
  | [] => mk_VerifyResult true None
  | r :: rows' =>
      if negb (String.eqb (ar_prev_hash r) expected_prev) then mk_VerifyResult false (Some (ar_id r))
      else if negb (String.eqb (ar_record_hash r) (row_hash r)) then mk_VerifyResult false (Some (ar_id r))
      else verify_rows (ar_record_hash r) rows'
  end.

Definition verify (start_id end_id : option Z) : M R VerifyResult :=
  let! rows := repo_get_range start_id end_id in ret (verify_rows GENESIS_HASH rows).

Definition export_line (r : AuditRecord) : string :=
  compact (JDict
    [("id", JInt (ar_id r)); ("actor", JStr (ar_actor r)); ("action", JStr (ar_action r));
     ("inputs", JDict (ar_inputs r)); ("outputs", JDict (ar_outputs r)); ("approval", japproval (ar_approval r));
     ("timestamp", JStr (isoformat (ar_timestamp r))); ("run_id", jopt (ar_run_id r));
     ("prev_hash", JStr (ar_prev_hash r)); ("record_hash", JStr (ar_record_hash r))]).

Definition export (start_id end_id : option Z) : M R string :=
  let! rows := repo_get_range start_id end_id in
  ret (str_join (String (chr 10) EmptyString) (map export_line rows)).
End Audit.

(** ** Theorems *)

Record AuditCall := mk_AuditCall {
  ac_actor : string; ac_action : string; ac_inputs : jdict; ac_outputs : jdict; ac_run_id : option string;
  ac_approval : option jdict }.

Section AuditProofs.
Context {R : Type} `{AuditTableLaws R}.
Context (clock : nat -> datetime) (sha256_hex : string -> string) (canonical : json -> string).

Abbreviation check := (verify_rows sha256_hex canonical).
Abbreviation hash := (row_hash sha256_hex canonical).
Abbreviation record_it c := (record clock sha256_hex canonical (ac_actor c) (ac_action c) (ac_inputs c)
  (ac_outputs c) (ac_run_id c) (ac_approval c)).

Definition record_all (cs : list AuditCall) : M (sys R Datatypes.unit) Datatypes.unit :=
  for_each cs (fun c => try_pass (record_it c)).

Definition log_rows (s : sys R Datatypes.unit) : list AuditRecord := tbl_rows (sys_store s).

(** The chain itself: each row carries its hash and its predecessor's. *)
Fixpoint chained (prev : string) (rows : list AuditRecord) : Prop :=
  match rows with
  | [] => True
  | r :: rows' => ar_prev_hash r = prev /\ ar_record_hash r = hash r /\ chained (ar_record_hash r) rows'
  end.

Lemma verify_chained prev rows :
  check prev rows = mk_VerifyResult true None <-> chained prev rows.
Proof.
  revert prev. induction rows as [|r rows IH]; intros prev; cbn [verify_rows chained]; [done|].
  destruct (String.eqb_spec (ar_prev_hash r) prev) as [E|E]; cbn [negb]; [|split; [done|tauto]].
  destruct (String.eqb_spec (ar_record_hash r) (hash r)) as [E2|E2]; cbn [negb]; [|split; [done|tauto]].
  rewrite IH. tauto.
Qed.

Definition last_hash (prev : string) (rows : list AuditRecord) : string :=
  match last rows with Some r => ar_record_hash r | None => prev end.

Lemma last_hash_cons prev r rows : last_hash prev (r :: rows) = last_hash (ar_record_hash r) rows.
Proof. unfold last_hash. rewrite last_cons. by destruct (last rows). Qed.

Lemma chained_snoc prev rows r :
  chained prev (rows ++ [r]) <->
  chained prev rows /\ ar_prev_hash r = last_hash prev rows /\ ar_record_hash r = hash r.
Proof.
  revert prev. induction rows as [|x rows IH]; intros prev; cbn [app chained]; [unfold last_hash; cbn; tauto|].
  rewrite IH, last_hash_cons. tauto.
Qed.

Lemma select_same s s' r : on_store tbl_select s = (s', r) -> log_rows s' = log_rows s.
Proof.
  unfold on_store, zoom. pose proof (select_rows (sys_store s)) as Hs.
  destruct (tbl_select (sys_store s)) as [t x]. by intros [= <- _].
Qed.

Lemma latest_spec s s' o :
  on_store repo_get_latest s = (s', Ok o) -> log_rows s' = log_rows s /\ o = last (log_rows s).
Proof.
  unfold repo_get_latest, on_store, zoom, bind. pose proof (select_rows (sys_store s)) as Hs.
  pose proof (select_ok (sys_store s)) as Hk. unfold log_rows.
  destruct (tbl_select (sys_store s)) as [t [l|e]]; [|done]. intros [= <- <-].
  by rewrite (Hk l).
Qed.

Lemma latest_err s s' e : on_store repo_get_latest s = (s', Err e) -> log_rows s' = log_rows s.
Proof.
  unfold repo_get_latest, on_store, zoom, bind. pose proof (select_rows (sys_store s)) as Hs. unfold log_rows.
  destruct (tbl_select (sys_store s)) as [t [l|e']]; [done|]. by intros [= <- _].
Qed.

(** One call appends one chained row, or none. *)
Lemma record_chained c s s' x :
  record_it c s = (s', x) ->
  log_rows s' = log_rows s \/
  exists row, log_rows s' = log_rows s ++ [row] /\ ar_prev_hash row = last_hash GENESIS_HASH (log_rows s) /\
    ar_record_hash row = hash row /\ (forall x, x ∈ log_rows s -> ar_id x < ar_id row).
Proof.
  unfold record. unfold bind at 1. destruct (on_store repo_get_latest s) as [s1 [o|e]] eqn:E1.
  2: { intros [= <- _]. left. by eapply latest_err. }
  apply latest_spec in E1 as [E1 ->]. rewrite bind_get_now. set (now := clock (sys_ticks s1)). cbv zeta.
  unfold on_store, zoom, repo_append. change (sys_store (tick s1)) with (sys_store s1).
  match goal with |- context [tbl_insert ?r ?t] => destruct (tbl_insert r t) as [t' [row|e]] eqn:E2 end;
    intros [= <- _].
  - right. apply insert_ok in E2 as [(n & Hrow & Hn) Ht]. exists row.
    unfold log_rows at 1. cbn [sys_store set_store]. rewrite Ht. fold (log_rows s1) in *. rewrite E1 in *. split; [done|]. by subst row.
  - left. apply insert_err in E2. unfold log_rows at 1. cbn [sys_store set_store]. by rewrite E2.
Qed.

Lemma record_all_chained cs s :
  chained GENESIS_HASH (log_rows s) -> chained GENESIS_HASH (log_rows (fst (record_all cs s))).
Proof.
  revert s. induction cs as [|c cs IH]; intros s Hc; [done|]. unfold record_all. cbn [for_each].
  unfold bind, try_pass at 1. pose proof (record_chained c s) as Hr.
  destruct (record_it c s) as [s1 x]. specialize (Hr s1 x eq_refl). apply IH. destruct Hr as [->|(row & -> & Hp & Hh & _)]; [done|].
  by apply chained_snoc.
Qed.

(** What is recorded on a log that verifies leaves a log that verifies. *)
Lemma recording_stays_verified cs s v :
  snd (verify sha256_hex canonical None None (sys_store s)) = Ok (mk_VerifyResult true None) ->
  snd (verify sha256_hex canonical None None (sys_store (fst (record_all cs s)))) = Ok v ->
  v = mk_VerifyResult true None.
Proof.
  assert (forall t v, snd (verify sha256_hex canonical None None t) = Ok v ->
    v = check GENESIS_HASH (tbl_rows t)) as Hv.
  { intros t v'. unfold verify, repo_get_range, bind. pose proof (select_ok t) as Hk.
    destruct (tbl_select t) as [t' [l|e]]; [|done]. intros [= <-]. rewrite <- (Hk l) by done.
    assert (bfilter (in_range None None) l = l) as -> by (clear; induction l; cbn; congruence). done. }
  intros H1 H2. apply Hv in H1, H2. rewrite H2. apply verify_chained, record_all_chained. by apply verify_chained.
Qed.

(** Two chains of one length that end in the same hash agree row by row, when
    rows with the same hash do ([E]) and agree on their predecessor's hash. *)
Lemma chained_same (E : AuditRecord -> AuditRecord -> Prop) prev prev' rows rows' :
  (forall r r', E r r' -> ar_prev_hash r = ar_prev_hash r') ->
  (forall r r', r ∈ rows -> r' ∈ rows' -> hash r = hash r' -> E r r') ->
  chained prev rows -> chained prev' rows' -> length rows = length rows' ->
  last_hash prev rows = last_hash prev' rows' -> Forall2 E rows rows'.
Proof.
  intros HE. revert rows'. induction rows as [|r rows IH] using rev_ind; intros rows' Hcf Hc Hc' Hlen Hlast.
  - by destruct rows' as [|]; [constructor|].
  - destruct rows' as [|r' rows' _] using rev_ind; [by rewrite length_app in Hlen; cbn in Hlen; lia|].
    rewrite !length_app in Hlen. cbn in Hlen. assert (length rows = length rows') as Hl by lia.
    apply chained_snoc in Hc as (Hc & Hp & Hh). apply chained_snoc in Hc' as (Hc' & Hp' & Hh').
    unfold last_hash at 1 2 in Hlast. rewrite !last_snoc in Hlast.
    assert (E r r') as Hb.
    { apply Hcf; [apply elem_of_app; right; by apply list_elem_of_singleton..|]. congruence. }
    apply Forall2_app; [|by constructor]. apply IH; [|done..|].
    + intros x x' Hx Hx'. apply Hcf; apply elem_of_app; by left.
    + apply HE in Hb. congruence.
Qed.

(** Every row of a chain names a hash of the width the first one does. *)
Lemma chained_prev_width n prev rows : (forall t, String.length (sha256_hex t) = n) ->
  String.length prev = n -> chained prev rows -> Forall (fun r => String.length (ar_prev_hash r) = n) rows.
Proof.
  intros Hsha. revert prev. induction rows as [|r rows IH]; intros prev Hp; [constructor|].
  intros (Hpr & Hh & Hc). constructor; [by rewrite Hpr|]. apply (IH (ar_record_hash r)); [|done]. rewrite Hh. apply Hsha.
Qed.

(** Verifying a range that does not start at the first row reports the range's
    first row as broken, however intact the log is. *)
Lemma verify_later_range_fails r1 r2 rows :
  chained GENESIS_HASH (r1 :: r2 :: rows) -> ar_record_hash r1 <> GENESIS_HASH ->
  check GENESIS_HASH (r2 :: rows) = mk_VerifyResult false (Some (ar_id r2)).
Proof.
  intros (_ & _ & Hp & _) Hne. cbn [verify_rows]. rewrite Hp.
  by rewrite (proj2 (String.eqb_neq _ _) Hne).
Qed.
End AuditProofs.

(** ** With Python's json

    The canonical text of a body is [json.dumps] with sorted keys and the narrow
    separators. *)

Section Seal.
Context {R : Type} `{AuditTableLaws R}.
Context (clock : nat -> datetime) (sha256_hex : string -> string).
Context (float_repr : Q -> string) (parse_float : string -> json).

Abbreviation canonical := (json_dumps float_repr CANONICAL).
Abbreviation check := (verify_rows sha256_hex canonical).

(** The text a row's hash is taken of. *)
Definition hashed_text (r : AuditRecord) : string :=
  ar_prev_hash r +:+ canonical (JDict (record_body r)).

Definition carried (r : AuditRecord) : Prop := faithful float_repr parse_float (JDict (record_body r)).

(** The same event: every hashed field is the same, dicts up to the order of
    their keys. *)
Definition same_event (r r' : AuditRecord) : Prop :=
  ar_actor r = ar_actor r' /\ ar_action r = ar_action r' /\ ar_run_id r = ar_run_id r' /\
  isoformat (ar_timestamp r) = isoformat (ar_timestamp r') /\ ar_prev_hash r = ar_prev_hash r' /\
  in_order CANONICAL (JDict (ar_inputs r)) = in_order CANONICAL (JDict (ar_inputs r')) /\
  in_order CANONICAL (JDict (ar_outputs r)) = in_order CANONICAL (JDict (ar_outputs r')) /\
  in_order CANONICAL (japproval (ar_approval r)) = in_order CANONICAL (japproval (ar_approval r')).

Lemma str_app_inj a a' b b' :
  String.length a = String.length a' -> a +:+ b = a' +:+ b' -> a = a' /\ b = b'.
Proof.
  revert a'. induction a as [|c a IH]; intros [|c' a'] Hl E; try done.
  rewrite !str_app_cons in E. injection E as -> E. injection Hl as Hl. by destruct (IH a' Hl E) as [-> ->].
Qed.

Lemma body_same_event r r' : carried r -> carried r' ->
  canonical (JDict (record_body r)) = canonical (JDict (record_body r')) -> same_event r r'.
Proof.
  intros Hr Hr' E. apply (dumps_inj float_repr parse_float (fun _ => JNull) CANONICAL) in E; [|done..].
  assert (Hk : forall k r, dget k (ordered CANONICAL (map (fun p => (p.1, in_order CANONICAL p.2)) (record_body r))) =
    option_map (in_order CANONICAL) (dget k (record_body r))).
  { intros k x. rewrite dget_ordered by by apply (bool_decide_unpack _).
    unfold record_body. cbn. by repeat case_decide. }
  assert (Hf : forall k, option_map (in_order CANONICAL) (dget k (record_body r)) =
    option_map (in_order CANONICAL) (dget k (record_body r'))).
  { intros k. rewrite <- !Hk. f_equal.
    exact (f_equal (fun j => match j with JDict d => d | _ => [] end) E). }
  assert (Hg : forall k a b, dget k (record_body r) = Some a -> dget k (record_body r') = Some b ->
    in_order CANONICAL a = in_order CANONICAL b).
  { intros k a b Ha Hb. specialize (Hf k). rewrite Ha, Hb in Hf. exact (f_equal (from_option id JNull) Hf). }
  clear Hf Hk E Hr Hr'. unfold same_event. split_and!.
  - by injection (Hg "actor" _ _ eq_refl eq_refl).
  - by injection (Hg "action" _ _ eq_refl eq_refl).
  - pose proof (Hg "run_id" _ _ eq_refl eq_refl) as Hrun.
    destruct (ar_run_id r), (ar_run_id r'); cbn in Hrun; congruence.
  - by injection (Hg "timestamp" _ _ eq_refl eq_refl).
  - by injection (Hg "prev_hash" _ _ eq_refl eq_refl).
  - exact (Hg "inputs" _ _ eq_refl eq_refl).
  - exact (Hg "outputs" _ _ eq_refl eq_refl).
  - exact (Hg "approval" _ _ eq_refl eq_refl).
Qed.

(** C13: the audit log is tamper-evident.  Whatever calls were made and whatever
    the database refused, a log that verified before still verifies.  Two logs
    of the same length that both verify and end in the same hash record the same
    events, row by row: no row of a verified log can be altered without changing
    the last hash, unless SHA-256 gives one digest for two of the texts hashed.
    The rows hold what JSON can carry. *)
Theorem audit_log_tamper_evident cs s rows rows' :
  (snd (verify sha256_hex canonical None None (sys_store s)) = Ok (mk_VerifyResult true None) ->
   forall v,
     snd (verify sha256_hex canonical None None (sys_store (fst (record_all clock sha256_hex canonical cs s)))) = Ok v ->
     v = mk_VerifyResult true None) /\
  (check GENESIS_HASH rows = mk_VerifyResult true None -> check GENESIS_HASH rows' = mk_VerifyResult true None ->
   length rows = length rows' -> last_hash GENESIS_HASH rows = last_hash GENESIS_HASH rows' ->
   Forall carried rows -> Forall carried rows' ->
   (forall t, String.length (sha256_hex t) = 64%nat) ->
   (forall r r', r ∈ rows -> r' ∈ rows' -> sha256_hex (hashed_text r) = sha256_hex (hashed_text r') ->
      hashed_text r = hashed_text r') ->
   Forall2 same_event rows rows').
Proof.
  split; [intros Hv v; by apply recording_stays_verified|].
  intros H1 H2 Hlen Hlast Hr Hr' Hsha Hcol. apply verify_chained in H1, H2.
  pose proof (chained_prev_width sha256_hex canonical 64 GENESIS_HASH rows Hsha eq_refl H1) as W1.
  pose proof (chained_prev_width sha256_hex canonical 64 GENESIS_HASH rows' Hsha eq_refl H2) as W2.
  apply (chained_same sha256_hex canonical same_event GENESIS_HASH GENESIS_HASH); [|intros r r' Hi Hi' Heq|done..].
  - by intros r r' (_ & _ & _ & _ & Hp & _).
  - apply Hcol in Heq; [|done..]. rewrite Forall_forall in Hr, Hr', W1, W2.
    apply str_app_inj in Heq as [_ Heq]; [|by rewrite W1, W2]. apply body_same_event; auto.
Qed.
End Seal.

(** ** Witness *)

Definition ex_audit_calls : list AuditCall :=
  [mk_AuditCall "u1" "matter.create" [("id", JStr "m1")] [] (Some "r1") None;
   mk_AuditCall "u2" "document.route" [] [("outcome", JStr "moved")] None None].

Definition ex_audit_clock : nat -> datetime := fun n => utc_datetime (739000 + Z.of_nat n) 0.

(** The actor and action stand in for the encoding; the hash keeps everything. *)
Definition ex_canonical (j : json) : string :=
  match j with
  | JDict d => str_join "|" (map (fun p => match p.2 with JStr s => s | _ => "" end) d)
  | _ => ""
  end.

Definition ex_log : list AuditRecord :=
  log_rows (fst (record_all (R := mem_table) ex_audit_clock (fun x => x) ex_canonical ex_audit_calls
    (mk_sys [] tt 0 0))).

(** A stand-in for SHA-256: 64 digits. *)
Fixpoint low_digits (n : nat) (h : Z) : string :=
  match n with O => EmptyString | S n' => String (hex_char (h mod 16)) (low_digits n' (h / 16)) end.

Lemma low_digits_length n h : String.length (low_digits n h) = n.
Proof. revert h. induction n as [|n IH]; intros h; [done|]. cbn. by rewrite IH. Qed.

Definition ex_sha (t : string) : string :=
  low_digits 64 (fold_left (fun h c => (h * 257 + code c) mod 2 ^ 256) (list_ascii_of_string t) 7).

Definition ex_sealed : list AuditRecord :=
  log_rows (fst (record_all (R := mem_table) ex_audit_clock ex_sha (json_dumps micro_repr CANONICAL) ex_audit_calls
    (mk_sys [] tt 0 0))).

Definition no_collision (sha : string -> string) (texts : list string) : bool :=
  forallb (fun t => forallb (fun t' => negb (String.eqb (sha t) (sha t')) || String.eqb t t') texts) texts.

Lemma no_collision_spec sha texts t t' :
  no_collision sha texts = true -> t ∈ texts -> t' ∈ texts -> sha t = sha t' -> t = t'.
Proof.
  unfold no_collision. intros H Ht Ht' E. rewrite forallb_forall in H.
  specialize (H t (proj1 (list_elem_of_In _ _) Ht)). rewrite forallb_forall in H.
  specialize (H t' (proj1 (list_elem_of_In _ _) Ht')). rewrite E, String.eqb_refl in H. by apply String.eqb_eq.
Qed.

Lemma ex_sealed_carried : Forall (carried micro_repr micro_read) ex_sealed.
Proof.
  assert (H : forallb (fun r => carries (fun _ => false) (JDict (record_body r))) ex_sealed = true)
    by (vm_compute; reflexivity).
  rewrite forallb_forall in H. rewrite list.Forall_forall. intros r Hr.
  by apply (carries_faithful _ _ (fun _ => false)), H, list_elem_of_In.
Qed.

Lemma audit_log_tamper_evident_witness :
  length ex_sealed = 2%nat /\
  verify_rows ex_sha (json_dumps micro_repr CANONICAL) GENESIS_HASH ex_sealed = mk_VerifyResult true None /\
  Forall2 (same_event) ex_sealed ex_sealed.
Proof.
  split; [vm_compute; reflexivity|].
  destruct (audit_log_tamper_evident (R := mem_table) ex_audit_clock ex_sha micro_repr micro_read ex_audit_calls
    (mk_sys [] tt 0 0) ex_sealed ex_sealed) as [H1 H2].
  split; [apply H1; vm_compute; reflexivity|].
  apply H2; [vm_compute; reflexivity..|reflexivity|reflexivity|apply ex_sealed_carried|apply ex_sealed_carried
            |intros t; apply low_digits_length|].
  intros r r' Hr Hr'. apply (no_collision_spec ex_sha (map (hashed_text micro_repr) ex_sealed)).
  - vm_compute. reflexivity.
  - by apply list_elem_of_fmap_2.
  - by apply list_elem_of_fmap_2.
Defined.
