(* ===== verification/AuditRace.v ===== *)
(** * AuditRace: AuditService.record under the event loop

    [core/audit/service.py]: [record] reads the latest row and then appends one
    that names its hash; nothing keeps another request's [record] from doing the
    same in between.  [record_coro] is the call with its suspension points.
    Proved for every interleaving: rows are only appended; each appended row
    carries one call's values and its own hash, and names the hash of the row that
    was the latest at a moment since the calls began; and a call that returned has
    its row in the log.  The rows need not form one chain: two calls that overlap
    name the same predecessor, and the log they leave does not verify. *)

From Stdlib Require Import ZArith Lia Ascii String List.
From stdpp Require Import base list strings relations numbers.
From S2P Require Import Prelude PyTime ConnErrors Effects Domain AuditLog Coroutine.

Open Scope string_scope.
Open Scope list_scope.
Open Scope Z_scope.
Open Scope cam_scope.

Section AuditRace.
Context {R : Type} `{AuditTableLaws R}.
Context (clock : nat -> datetime) (sha256_hex : string -> string) (canonical : json -> string).

Abbreviation hash := (row_hash sha256_hex canonical).

Definition ACoro (A : Type) : Type := Coro (sys R Datatypes.unit) A.

Definition draft_record (c : AuditCall) (latest : option AuditRecord) (now : datetime) : AuditRecord :=
  let prev_hash := match latest with Some r => ar_record_hash r | None => GENESIS_HASH end in
  let draft := mk_AuditRecord 0 (ac_actor c) (ac_action c) (ac_inputs c) (ac_outputs c) (ac_approval c)
                 now (ac_run_id c) prev_hash "" in
  with_hash (hash draft) draft.

Definition record_coro (c : AuditCall) : ACoro AuditRecord :=
  clet! latest := await (on_store repo_get_latest) in
  clet! now := await (get_now clock) in
  await (on_store (repo_append (draft_record c latest now))).

Lemma record_coro_run c s :
  run_coro (record_coro c) s =
    record clock sha256_hex canonical (ac_actor c) (ac_action c) (ac_inputs c) (ac_outputs c)
      (ac_run_id c) (ac_approval c) s.
Proof.
  apply run_cbind_eq; [apply run_await|]. intros latest s1.
  apply run_cbind_eq; [apply run_await|]. intros now s2. apply run_await.
Qed.

(** The row has the values the call was given. *)
Definition carries (c : AuditCall) (r : AuditRecord) : Prop :=
  ar_actor r = ac_actor c /\ ar_action r = ac_action c /\ ar_inputs r = ac_inputs c /\
  ar_outputs r = ac_outputs c /\ ar_approval r = ac_approval c /\ ar_run_id r = ac_run_id c.

Definition carries_one (calls : list AuditCall) (r : AuditRecord) : Prop := exists c, c ∈ calls /\ carries c r.

Section Rooted.
Context (calls : list AuditCall) (base : list AuditRecord).

(** The log had the rows [p] at a moment between [base] and [rows]. *)
Definition moment (p rows : list AuditRecord) : Prop := base `prefix_of` p /\ p `prefix_of` rows.

(** Every row appended to [base] holds a call's values, hashes itself, and names
    the row that was the last one at a moment after [base] and before it. *)
Definition rooted (rows : list AuditRecord) : Prop :=
  forall before r after, rows = before ++ r :: after -> base `prefix_of` before ->
    carries_one calls r /\ ar_record_hash r = hash r /\
    exists p, moment p before /\ ar_prev_hash r = last_hash GENESIS_HASH p.

Definition appends (rows rows' : list AuditRecord) : Prop :=
  rows `prefix_of` rows' /\ (base `prefix_of` rows -> rooted rows -> rooted rows').

Definition audit_guarantee (s s' : sys R Datatypes.unit) : Prop := appends (log_rows s) (log_rows s').

#[local] Instance audit_guarantee_preorder : PreOrder audit_guarantee.
Proof.
  unfold audit_guarantee, appends. split; [intros s; split; [reflexivity|done]|].
  intros s1 s2 s3 [P1 R1] [P2 R2]. split; [by etrans|]. intros Hb Hr. apply R2; [by etrans|auto].
Qed.

Lemma unchanged_guarantee s s' : log_rows s' = log_rows s -> audit_guarantee s s'.
Proof. intros E. unfold audit_guarantee, appends. rewrite E. split; [reflexivity|done]. Qed.

Lemma rooted_base : rooted base.
Proof.
  intros before r after -> Hp. apply prefix_length in Hp. rewrite length_app in Hp. cbn in Hp. lia.
Qed.

Lemma rooted_snoc rows r :
  rooted rows -> carries_one calls r -> ar_record_hash r = hash r ->
  (exists p, moment p rows /\ ar_prev_hash r = last_hash GENESIS_HASH p) -> rooted (rows ++ [r]).
Proof.
  intros Hr Hc Hh Hk before r' after Heq.
  destruct after as [|x after _] using rev_ind.
  - apply app_inj_tail in Heq as [-> ->]. done.
  - rewrite app_comm_cons, app_assoc in Heq. apply app_inj_tail in Heq as [-> _]. by eapply Hr.
Qed.

(** ** What one call does *)

Definition begun (s : sys R Datatypes.unit) : Prop := base `prefix_of` log_rows s.

(** [latest] was the last row at a moment since [base]. *)
Definition read_at (latest : option AuditRecord) (s : sys R Datatypes.unit) : Prop :=
  exists p, moment p (log_rows s) /\ latest = list.last p.

Definition in_log (r : AuditRecord) (s : sys R Datatypes.unit) : Prop := r ∈ log_rows s.

Abbreviation obeys := (obeys audit_guarantee).
Abbreviation stable := (stable audit_guarantee).

Lemma begun_stable : stable begun.
Proof. intros s s' [Hp _] Hb. unfold begun. by etrans. Qed.

Lemma read_at_stable latest : stable (read_at latest).
Proof. intros s s' [Hp _] (p & [Hb Hl] & ->). exists p. split; [|done]. split; [done|by etrans]. Qed.

Lemma in_log_stable r : stable (in_log r).
Proof. intros s s' [[l Hl] _] Hr. unfold in_log in *. rewrite Hl. apply elem_of_app. by left. Qed.

(** Inserting a row that hashes itself and names a row read since [base] keeps
    the log rooted. *)
Lemma insert_guarantee c latest now s :
  c ∈ calls -> read_at latest s ->
  let m := on_store (repo_append (draft_record c latest now)) in
  audit_guarantee s (m s).1 /\ forall row, (m s).2 = Ok row -> in_log row (m s).1.
Proof.
  intros Hc (p & Hp & Hl) m. subst m. unfold in_log, on_store, zoom, repo_append.
  destruct (tbl_insert _ _) as [t [row|e]] eqn:E; cbn [fst snd].
  - apply insert_ok in E as [(n & -> & _) Et]. unfold audit_guarantee, appends.
    assert (log_rows (set_store t s) = log_rows s ++ [with_id n (draft_record c latest now)]) as -> by exact Et.
    split.
    + split; [by apply prefix_app_r|]. intros _ Hr. apply rooted_snoc; [done|by exists c|done|].
      exists p. split; [done|]. subst latest. unfold last_hash. cbn. by destruct (list.last p).
    + intros row [= <-]. apply elem_of_app. right. by left.
  - apply insert_err in E. split; [|done]. by apply unchanged_guarantee.
Qed.

Lemma record_obeys c : c ∈ calls -> obeys begun in_log (record_coro c).
Proof.
  intros Hc. eapply obeys_cbind.
  { apply (obeys_await _ _ read_at); [apply read_at_stable|]. intros s Hs.
    destruct (on_store repo_get_latest s) as [s' [o|e]] eqn:E.
    - apply latest_spec in E as [El ->]. split; [by apply unchanged_guarantee|].
      intros o [= <-]. exists (log_rows s). cbn. rewrite El. by repeat split.
    - apply latest_err in E. split; [by apply unchanged_guarantee|done]. }
  intros latest. eapply obeys_cbind.
  { apply (obeys_await _ _ (fun _ => read_at latest)); [intros _; apply read_at_stable|].
    intros s Hs. split; [by apply unchanged_guarantee|]. by intros now _. }
  intros now. apply obeys_await; [apply in_log_stable|]. intros s Hs. by apply insert_guarantee.
Qed.
End Rooted.

Lemma record_bounded c : bounded 3 (record_coro c).
Proof.
  apply (bounded_cbind 1 2); [done|]. intros latest. by apply (bounded_cbind 1 1).
Qed.

(** C15: However many calls of [record] are in flight and however they are
    interleaved, no row of the log is lost or changed.  Every row appended since
    they began holds the values one of the calls was given and its own hash, and
    its [prev_hash] is the hash of the row that was the latest (the genesis hash
    if there was none) at a moment since they began and before it was appended.
    Every call that returned has its row in the log; and the interleaving ends
    within three steps a call. *)
Theorem concurrent_records_rooted (calls : list AuditCall) s q n :
  nsteps pool_step n (s, map record_coro calls) q ->
  log_rows s `prefix_of` log_rows q.1 /\
  (forall before r after, log_rows q.1 = before ++ r :: after -> log_rows s `prefix_of` before ->
     carries_one calls r /\ ar_record_hash r = hash r /\
     exists p, (log_rows s `prefix_of` p /\ p `prefix_of` before) /\
       ar_prev_hash r = last_hash GENESIS_HASH p) /\
  (forall i row, q.2 !! i = Some (CReturn (Ok row)) -> row ∈ log_rows q.1) /\
  (n <= 3 * length calls)%nat.
Proof.
  intros Hn. set (base := log_rows s).
  pose proof (audit_guarantee_preorder calls base).
  destruct (pool_obeys (audit_guarantee calls base) in_log (s, map record_coro calls) q) as [[Hp Hr] HF].
  - apply Forall_map, Forall_forall. intros c Hc%list_elem_of_In. exists (begun base).
    split; [apply begun_stable|]. split; [exists []; by rewrite app_nil_r|].
    apply record_obeys, Hc.
  - by eapply rtc_nsteps_2.
  - split; [done|]. split; [apply (Hr ltac:(reflexivity) (rooted_base calls base))|]. split.
    + intros i row Hi. by apply (on_course_return _ _ _ _ (proj1 (Forall_lookup _ _) HF i _ Hi)).
    + apply (pool_terminates _ (replicate (length calls) 3%nat)) in Hn.
      * rewrite sum_list_replicate in Hn. lia.
      * apply Forall2_replicate_l; [by cbn; rewrite length_map|].
        apply Forall_map, Forall_true. intros c. apply record_bounded.
Qed.

End AuditRace.

(** ** Two requests at once *)

Definition ex_audit_pool : pool (S := sys mem_table Datatypes.unit) AuditRecord :=
  (mk_sys [] tt 0 0, map (record_coro ex_audit_clock (fun x => x) ex_canonical) ex_audit_calls).

Definition ex_audit_run (schedule : list nat) : list AuditRecord :=
  log_rows (run_schedule schedule ex_audit_pool).1.

(** Both read the empty log before either appends: each row names the genesis
    hash, so the second one breaks the chain although nothing was tampered with. *)
Lemma overlapping_records_fork :
  let rows := ex_audit_run [0; 1; 0; 1; 0; 1]%nat in
  map ar_prev_hash rows = [GENESIS_HASH; GENESIS_HASH] /\
  verify_rows (fun x => x) ex_canonical GENESIS_HASH rows = mk_VerifyResult false (Some 2) /\
  verify_rows (fun x => x) ex_canonical GENESIS_HASH (ex_audit_run [0; 0; 0; 1; 1; 1]%nat) =
    mk_VerifyResult true None.
Proof. vm_compute. by repeat split. Qed.

Lemma concurrent_records_rooted_witness :
  length (ex_audit_run [0; 1; 0; 1; 0; 1]%nat) = 2%nat /\
  forall r, ex_audit_run [0; 1; 0; 1; 0; 1]%nat !! 1%nat = Some r ->
    ar_record_hash r = row_hash (fun x => x) ex_canonical r.
Proof.
  split; [vm_compute; reflexivity|].
  destruct (rtc_nsteps_1 _ _ (schedule_reaches [0; 1; 0; 1; 0; 1]%nat ex_audit_pool)) as [n Hn].
  destruct (concurrent_records_rooted ex_audit_clock (fun x => x) ex_canonical ex_audit_calls
           (mk_sys [] tt 0 0) _ n Hn) as (_ & Hr & _).
  intros r Hl. apply list_elem_of_split_length in Hl as (l1 & l2 & E & _).
  destruct (Hr l1 r l2 E (prefix_nil l1)) as (_ & Hh & _). exact Hh.
Defined.
