(* ===== verification/Schema.v ===== *)
(** * Schema: tables as the migrations and the ORM classes declare them

    Columns and table constraints as SQLAlchemy's declarations write them, the
    table a declaration stands for, and the DDL statements of the migrations.
    The database is not part of the program: [Ddl] is what the migrations use of
    it, and [DdlLaws] its documented behaviour, that a statement does to the
    catalogue what [sch_op] says or fails and leaves it alone (DDL is
    transactional).  Two facts carry the migrations: a script run on a schema
    that has none of its names adds what it makes on the empty one ([run_frame]),
    and the undoing script restores the schema exactly ([run_undo]). *)

From Stdlib Require Import ZArith Lia Ascii String List.
From stdpp Require Import base list strings gmap.
From S2P Require Import Prelude Effects PyText.

Open Scope string_scope.
Open Scope list_scope.
Open Scope Z_scope.
Open Scope cam_scope.

(** ** Declarations *)

Inductive sql_type :=
| SString (length : option Z)
| SText
| SInteger
| SBigInteger
| SBoolean
| SDateTime (timezone : bool)
| SJSONB.

#[export] Instance sql_type_eq_dec : EqDecision sql_type.
Proof. solve_decision. Defined.

(** [sa.Column(name, type, ...)]; [None] for an argument that is not given. *)
Record Column := mk_Column {
  c_name : string;
  c_type : sql_type;
  c_nullable : option bool;
  c_server_default : option string;
  c_autoincrement : bool;
  c_primary_key : bool;
  c_unique : bool;
  c_foreign_key : option string }.

(** The arguments of [op.create_table] after the name, and of a mapped class. *)
Inductive table_arg :=
| TColumn (c : Column)
| PrimaryKeyConstraint (cols : list string)
| ForeignKeyConstraint (cols refs : list string)
| UniqueConstraint (cols : list string) (name : option string).

(** ** The table a declaration stands for *)

Record ColSpec := mk_ColSpec {
  cs_type : sql_type;
  cs_nullable : bool;
  cs_autoincrement : bool;
  cs_default : option string }.

(** Columns referring to columns of another table. *)
Record ForeignKey := mk_ForeignKey {
  fk_columns : list string;
  fk_table : string;
  fk_refs : list string }.

Record Table := mk_Table {
  tb_columns : list (string * ColSpec);
  tb_primary_key : list string;
  tb_foreign_keys : list ForeignKey;
  tb_uniques : list (list string) }.

#[export] Instance ColSpec_eq_dec : EqDecision ColSpec.
Proof. solve_decision. Defined.
#[export] Instance ForeignKey_eq_dec : EqDecision ForeignKey.
Proof. solve_decision. Defined.

Definition argument_error (what : string) : exn := OtherError "ArgumentError" what.
Definition programming_error (what : string) : exn := OtherError "ProgrammingError" what.

(** A reference names a table and a column of it, separated by a dot. *)
Definition parse_ref (r : string) : res (string * string) :=
  match split_on "." r with
  | [t; c] => Ok (t, c)
  | _ => Err (argument_error r)
  end.

(** The references of one constraint are columns of one table. *)
Definition foreign_key (cols refs : list string) : res ForeignKey :=
  letr! targets := map_res parse_ref refs in
  match targets with
  | [] => Err (argument_error "no reference")
  | (t, _) :: _ =>
      if forallb (fun r => String.eqb r.1 t) targets && (length cols =? length refs)%nat
      then Ok (mk_ForeignKey cols t (map snd targets))
      else Err (argument_error t)
  end.

Definition spec_of (c : Column) : ColSpec :=
  mk_ColSpec (c_type c)
    (match c_nullable c with Some b => b | None => negb (c_primary_key c) end)
    (c_autoincrement c) (c_server_default c).

(** A table argument adds to the table; a column may carry its own key,
    uniqueness and reference. *)
Definition add_arg (t : Table) (a : table_arg) : res Table :=
  match a with
  | TColumn c =>
      letr! fks := match c_foreign_key c with
                   | Some r => letr! fk := foreign_key [c_name c] [r] in Ok [fk]
                   | None => Ok []
                   end in
      Ok (mk_Table (tb_columns t ++ [(c_name c, spec_of c)])
            (tb_primary_key t ++ if c_primary_key c then [c_name c] else [])
            (tb_foreign_keys t ++ fks)
            (tb_uniques t ++ if c_unique c then [[c_name c]] else []))
  | PrimaryKeyConstraint cols =>
      Ok (mk_Table (tb_columns t) (tb_primary_key t ++ cols) (tb_foreign_keys t) (tb_uniques t))
  | ForeignKeyConstraint cols refs =>
      letr! fk := foreign_key cols refs in
      Ok (mk_Table (tb_columns t) (tb_primary_key t) (tb_foreign_keys t ++ [fk]) (tb_uniques t))
  | UniqueConstraint cols _ =>
      Ok (mk_Table (tb_columns t) (tb_primary_key t) (tb_foreign_keys t) (tb_uniques t ++ [cols]))
  end.

Definition column_names (t : Table) : list string := map fst (tb_columns t).

Definition subset_of (l l' : list string) : bool := forallb (fun x => str_in x l') l.

(** No column twice; keys and constraints name columns of the table. *)
Definition table_valid (t : Table) : bool :=
  bool_decide (NoDup (column_names t)) && subset_of (tb_primary_key t) (column_names t) &&
  forallb (fun fk => subset_of (fk_columns fk) (column_names t)) (tb_foreign_keys t) &&
  forallb (fun u => subset_of u (column_names t)) (tb_uniques t).

Definition table_of (args : list table_arg) : res Table :=
  letr! t := fold_left (fun r a => letr! t := r in add_arg t a) args (Ok (mk_Table [] [] [] [])) in
  if table_valid t then Ok t else Err (argument_error "column not found").

(** ** The catalogue and its statements *)

Inductive dml_event := EvInsert | EvUpdate | EvDelete.

#[export] Instance dml_event_eq_dec : EqDecision dml_event.
Proof. solve_decision. Defined.

(** [CREATE TRIGGER ... BEFORE events ... FOR EACH ROW EXECUTE FUNCTION f()]. *)
Record Trigger := mk_Trigger { tr_events : list dml_event; tr_function : string }.

Record schema := mk_schema {
  sc_tables : gmap string Table;
  sc_functions : gmap string string;
  sc_triggers : gmap (string * string) Trigger }.

Definition empty_schema : schema := mk_schema ∅ ∅ ∅.

Inductive ddl :=
| CreateTable (name : string) (args : list table_arg)
| DropTable (name : string)
| CreateOrReplaceFunction (name body : string)
| CreateTrigger (name table : string) (tr : Trigger)
| DropTriggerIfExists (name table : string)
| DropFunctionIfExists (name : string).

Definition set_tables (m : gmap string Table) (s : schema) : schema :=
  mk_schema m (sc_functions s) (sc_triggers s).
Definition set_functions (m : gmap string string) (s : schema) : schema :=
  mk_schema (sc_tables s) m (sc_triggers s).
Definition set_triggers (m : gmap (string * string) Trigger) (s : schema) : schema :=
  mk_schema (sc_tables s) (sc_functions s) m.

(** The referenced columns are the key or a unique group of an existing table. *)
Definition fk_resolves (tables : gmap string Table) (fk : ForeignKey) : bool :=
  match tables !! fk_table fk with
  | Some t => bool_decide (fk_refs fk ∈ tb_primary_key t :: tb_uniques t)
  | None => false
  end.

Definition refers_to (name : string) (t : Table) : bool :=
  existsb (fun fk => String.eqb (fk_table fk) name) (tb_foreign_keys t).

(** Another table refers to [name]. *)
Definition has_dependent (name : string) (tables : gmap string Table) : bool :=
  existsb (fun '(n, t) => negb (String.eqb n name) && refers_to name t) (map_to_list tables).

Definition function_used (name : string) (triggers : gmap (string * string) Trigger) : bool :=
  existsb (fun '(_, tr) => String.eqb (tr_function tr) name) (map_to_list triggers).

Definition sch_op (op : ddl) (s : schema) : res schema :=
  match op with
  | CreateTable name args =>
      letr! t := table_of args in
      match sc_tables s !! name with
      | Some _ => Err (programming_error "DuplicateTable")
      | None =>
          if forallb (fk_resolves (<[name := t]> (sc_tables s))) (tb_foreign_keys t)
          then Ok (set_tables (<[name := t]> (sc_tables s)) s)
          else Err (programming_error "UndefinedTable")
      end
  | DropTable name =>
      match sc_tables s !! name with
      | None => Err (programming_error "UndefinedTable")
      | Some _ =>
          if has_dependent name (sc_tables s) then Err (programming_error "DependentObjectsStillExist")
          else Ok (set_triggers (filter (fun '((t, _), _) => t <> name) (sc_triggers s))
                     (set_tables (delete name (sc_tables s)) s))
      end
  | CreateOrReplaceFunction name body => Ok (set_functions (<[name := body]> (sc_functions s)) s)
  | CreateTrigger name table tr =>
      match sc_tables s !! table, sc_functions s !! tr_function tr, sc_triggers s !! (table, name) with
      | None, _, _ => Err (programming_error "UndefinedTable")
      | _, None, _ => Err (programming_error "UndefinedFunction")
      | _, _, Some _ => Err (programming_error "DuplicateObject")
      | Some _, Some _, None => Ok (set_triggers (<[(table, name) := tr]> (sc_triggers s)) s)
      end
  | DropTriggerIfExists name table => Ok (set_triggers (delete (table, name) (sc_triggers s)) s)
  | DropFunctionIfExists name =>
      if function_used name (sc_triggers s) then Err (programming_error "DependentObjectsStillExist")
      else Ok (set_functions (delete name (sc_functions s)) s)
  end.

Fixpoint sch_run (ops : list ddl) (s : schema) : res schema :=
  match ops with
  | [] => Ok s
  | op :: ops' => letr! s' := sch_op op s in sch_run ops' s'
  end.

(** ** The database *)

Class Ddl (Db : Type) := {
  ddl_exec : ddl -> M Db unit;
  ddl_view : Db -> schema }.

Class DdlLaws (Db : Type) `{Ddl Db} : Prop := {
  ddl_exec_view : forall op db,
    match ddl_exec op db, sch_op op (ddl_view db) with
    | (db', Ok _), Ok s => ddl_view db' = s
    | (db', Err _), Err _ => ddl_view db' = ddl_view db
    | _, _ => False
    end }.

(** A revision's statements, one after the other. *)
Definition ddl_script {Db} `{Ddl Db} (ops : list ddl) : M Db unit := for_each ops ddl_exec.

(** The catalogue itself is a database. *)
#[export] Instance schema_ddl : Ddl schema := {|
  ddl_exec op := fun s => match sch_op op s with Ok s' => (s', Ok tt) | Err e => (s, Err e) end;
  ddl_view s := s |}.

#[export] Instance schema_ddl_laws : DdlLaws schema.
Proof. split. intros op s. cbn. by destruct (sch_op op s). Qed.

Section Scripts.
Context {Db : Type} `{DdlLaws Db}.

Lemma script_ok ops db s :
  sch_run ops (ddl_view db) = Ok s ->
  exists db', ddl_script ops db = (db', Ok tt) /\ ddl_view db' = s.
Proof.
  revert db. induction ops as [|op ops IH]; cbn; intros db.
  - intros [= <-]. by exists db.
  - unfold res_bind. destruct (sch_op op (ddl_view db)) as [s1|e] eqn:Eo; [|done]. intros Hr.
    pose proof (ddl_exec_view op db) as Hl. rewrite Eo in Hl. unfold ddl_script. cbn. unfold bind.
    destruct (ddl_exec op db) as [db1 [u|e]]; [subst s1|done]. by apply IH.
Qed.

Lemma script_sound ops db db' u :
  ddl_script ops db = (db', Ok u) -> sch_run ops (ddl_view db) = Ok (ddl_view db').
Proof.
  revert db. induction ops as [|op ops IH]; cbn; intros db.
  - by intros [= <- _].
  - unfold ddl_script. cbn. unfold bind. pose proof (ddl_exec_view op db) as Hl.
    destruct (ddl_exec op db) as [db1 [v|e]]; [|done].
    destruct (sch_op op (ddl_view db)) as [s1|e]; [|done]. subst s1. apply IH.
Qed.

End Scripts.

Lemma sch_run_app ops1 ops2 s :
  sch_run (ops1 ++ ops2) s = letr! s' := sch_run ops1 s in sch_run ops2 s'.
Proof.
  revert s. induction ops1 as [|op ops1 IH]; intros s; [done|]. cbn.
  destruct (sch_op op s); cbn; [apply IH|done].
Qed.

(** ** Well-formed catalogues *)

Record schema_wf (s : schema) : Prop := mk_schema_wf {
  wf_references : forall n t fk, sc_tables s !! n = Some t -> fk ∈ tb_foreign_keys t ->
    is_Some (sc_tables s !! fk_table fk);
  wf_triggers : forall t n tr, sc_triggers s !! (t, n) = Some tr ->
    is_Some (sc_tables s !! t) /\ is_Some (sc_functions s !! tr_function tr) }.

Lemma empty_schema_wf : schema_wf empty_schema.
Proof. split; intros *; cbn; by rewrite lookup_empty. Qed.

(** The statement makes something. *)
Definition makes (op : ddl) : bool :=
  match op with
  | CreateTable _ _ | CreateOrReplaceFunction _ _ | CreateTrigger _ _ _ => true
  | _ => false
  end.

(** The name the statement makes is free. *)
Definition fresh (s : schema) (op : ddl) : Prop :=
  match op with
  | CreateTable n _ => sc_tables s !! n = None
  | CreateOrReplaceFunction n _ => sc_functions s !! n = None
  | CreateTrigger n t _ => sc_triggers s !! (t, n) = None
  | _ => False
  end.

Lemma is_Some_insert {K V} `{Countable K} (m : gmap K V) k k' v :
  is_Some (m !! k') -> is_Some (<[k := v]> m !! k').
Proof. intros [x Hx]. destruct (decide (k = k')) as [->|]; [rewrite lookup_insert_eq | rewrite lookup_insert_ne]; eauto. Qed.

Lemma make_wf op s s' : makes op = true -> sch_op op s = Ok s' -> schema_wf s -> schema_wf s'.
Proof.
  intros Hm Ho [Hr Ht]. destruct op as [n args|n|n body|n t tr|n t|n]; try done; cbn in Ho.
  - destruct (table_of args) as [tb|e]; [|done]. cbn in Ho.
    destruct (sc_tables s !! n) eqn:En; [done|]. destruct (forallb _ _) eqn:Ef; [|done].
    injection Ho as <-. split; cbn.
    + intros m t fk Hm' Hin. destruct (decide (n = m)) as [->|Hne].
      * rewrite lookup_insert_eq in Hm'. injection Hm' as <-.
        rewrite forallb_forall in Ef. specialize (Ef fk (proj1 (list_elem_of_In _ _) Hin)).
        unfold fk_resolves in Ef. by destruct (_ !! fk_table fk).
      * rewrite lookup_insert_ne in Hm' by done. apply is_Some_insert. eauto.
    + intros t n' tr Htr. destruct (Ht _ _ _ Htr). split; [by apply is_Some_insert|done].
  - injection Ho as <-. split; cbn; [done|]. intros t n' tr Htr. destruct (Ht _ _ _ Htr).
    split; [done|by apply is_Some_insert].
  - destruct (sc_tables s !! t) eqn:Et; [|done]. destruct (sc_functions s !! tr_function tr) eqn:Ef; [|done].
    destruct (sc_triggers s !! (t, n)) eqn:En; [done|]. injection Ho as <-. split; cbn; [done|].
    intros t' n' tr'. destruct (decide ((t, n) = (t', n'))) as [Heq|Hne].
    + rewrite Heq, lookup_insert_eq. injection Heq as <- <-. intros [= <-]. by rewrite Et, Ef.
    + rewrite lookup_insert_ne by done. apply Ht.
Qed.

Lemma make_keeps_tables op s s' n t :
  makes op = true -> sch_op op s = Ok s' -> sc_tables s !! n = Some t -> sc_tables s' !! n = Some t.
Proof.
  intros Hm Ho Hn. destruct op as [m args|m|m body|m t' tr|m t'|m]; try done; cbn in Ho.
  - destruct (table_of args) as [tb|e]; [|done]. cbn in Ho.
    destruct (sc_tables s !! m) eqn:Em; [done|]. destruct (forallb _ _); [|done].
    injection Ho as <-. cbn. rewrite lookup_insert_ne by congruence. done.
  - by injection Ho as <-.
  - destruct (sc_tables s !! t'); [|done]. destruct (sc_functions s !! tr_function tr); [|done].
    destruct (sc_triggers s !! (t', m)); [done|]. by injection Ho as <-.
Qed.

(** ** Undoing *)

Definition undo (op : ddl) : ddl :=
  match op with
  | CreateTable n _ => DropTable n
  | CreateOrReplaceFunction n _ => DropFunctionIfExists n
  | CreateTrigger n t _ => DropTriggerIfExists n t
  | op => op
  end.

Definition undo_script (ops : list ddl) : list ddl := rev (map undo ops).

Lemma existsb_map_to_list {K V} `{Countable K} (f : K * V -> bool) (m : gmap K V) :
  (forall k v, m !! k = Some v -> f (k, v) = false) -> existsb f (map_to_list m) = false.
Proof.
  intros Hf. apply not_true_is_false. rewrite existsb_exists. intros ([k v] & Hin & Hk).
  apply list_elem_of_In, elem_of_map_to_list in Hin. by rewrite Hf in Hk.
Qed.

Lemma schema_eta s t f g :
  t = sc_tables s -> f = sc_functions s -> g = sc_triggers s -> mk_schema t f g = s.
Proof. intros -> -> ->. by destruct s. Qed.

(** A table no other one refers to, and that has no triggers, comes off cleanly. *)
Lemma undo_create_table n t s :
  schema_wf s -> sc_tables s !! n = None ->
  sch_op (DropTable n) (set_tables (<[n := t]> (sc_tables s)) s) = Ok s.
Proof.
  intros [Hr Ht] Hn. cbn. rewrite lookup_insert_eq.
  assert (Hd : has_dependent n (<[n := t]> (sc_tables s)) = false).
  { apply existsb_map_to_list. intros m t' Hm. destruct (String.eqb_spec m n) as [->|Hne]; [done|].
    rewrite lookup_insert_ne in Hm by done. cbn. apply not_true_is_false. unfold refers_to.
    rewrite existsb_exists. intros (fk & Hin & Heq%String.eqb_eq).
    destruct (Hr m t' fk Hm (proj2 (list_elem_of_In _ _) Hin)) as [x Hx]. by rewrite Heq, Hn in Hx. }
  rewrite Hd. f_equal. apply schema_eta; cbn; [by rewrite delete_insert_id|done|].
  apply map_filter_id. intros [t' m] tr Htr. cbn. intros ->.
  destruct (Ht _ _ _ Htr) as [[x Hx] _]. by rewrite Hn in Hx.
Qed.

Lemma undo_restores op s s' :
  makes op = true -> fresh s op -> schema_wf s -> sch_op op s = Ok s' -> sch_op (undo op) s' = Ok s.
Proof.
  intros Hm Hf Hw Ho. destruct op as [n args|n|n body|n t tr|n t|n]; try done; cbn in Ho, Hf.
  - destruct (table_of args) as [tb|e]; [|done]. cbn in Ho. rewrite Hf in Ho.
    destruct (forallb _ _); [|done]. injection Ho as <-. by apply undo_create_table.
  - injection Ho as <-. cbn. unfold function_used.
    rewrite existsb_map_to_list.
    + f_equal. apply schema_eta; cbn; [done|by rewrite delete_insert_id|done].
    + intros [t m] tr Htr. apply String.eqb_neq. intros Heq.
      destruct (wf_triggers _ Hw _ _ _ Htr) as [_ [x Hx]]. congruence.
  - rewrite Hf in Ho. destruct (sc_tables s !! t); [|done]. destruct (sc_functions s !! _); [|done].
    injection Ho as <-. cbn. f_equal. apply schema_eta; cbn; [done|done|by rewrite delete_insert_id].
Qed.

(** The names are free at each statement of the script. *)
Fixpoint fresh_run (ops : list ddl) (s : schema) : Prop :=
  match ops with
  | [] => True
  | op :: ops' => makes op = true /\ fresh s op /\
      forall s', sch_op op s = Ok s' -> fresh_run ops' s'
  end.

Lemma run_wf ops s s' : fresh_run ops s -> sch_run ops s = Ok s' -> schema_wf s -> schema_wf s'.
Proof.
  revert s. induction ops as [|op ops IH]; cbn; intros s Hf; [by intros [= <-]|].
  destruct Hf as (Hm & _ & Hf). unfold res_bind. destruct (sch_op op s) as [s1|e] eqn:Eo; [|done].
  intros Hr Hw. eapply IH; [by apply Hf|done|by eapply make_wf].
Qed.

Lemma run_keeps_tables ops s s' n t :
  fresh_run ops s -> sch_run ops s = Ok s' -> sc_tables s !! n = Some t -> sc_tables s' !! n = Some t.
Proof.
  revert s. induction ops as [|op ops IH]; cbn; intros s Hf; [by intros [= <-]|].
  destruct Hf as (Hm & _ & Hf). unfold res_bind. destruct (sch_op op s) as [s1|e] eqn:Eo; [|done].
  intros Hr Hn. eapply IH; [by apply Hf|done|by eapply make_keeps_tables].
Qed.

Lemma run_undo ops s s' :
  schema_wf s -> fresh_run ops s -> sch_run ops s = Ok s' -> sch_run (undo_script ops) s' = Ok s.
Proof.
  unfold undo_script. revert s. induction ops as [|op ops IH]; cbn; intros s Hw Hf; [by intros [= <-]|].
  destruct Hf as (Hm & Hf & Hk). unfold res_bind. destruct (sch_op op s) as [s1|e] eqn:Eo; [|done].
  intros Hr. rewrite sch_run_app, (IH s1); [|by eapply make_wf|by apply Hk|done].
  cbn. by rewrite (undo_restores op s s1).
Qed.

(** ** Framing *)

(** The catalogue [s] with the objects of [a] added. *)
Definition merge_schema (a s : schema) : schema :=
  mk_schema (sc_tables a ∪ sc_tables s) (sc_functions a ∪ sc_functions s)
    (sc_triggers a ∪ sc_triggers s).

Lemma merge_empty s : merge_schema empty_schema s = s.
Proof. apply schema_eta; cbn; by rewrite left_id_L by apply _. Qed.

Lemma fk_resolves_mono m m' fk : fk_resolves m fk = true -> fk_resolves (m ∪ m') fk = true.
Proof.
  unfold fk_resolves. destruct (m !! fk_table fk) as [t|] eqn:E; [|done].
  by rewrite (lookup_union_Some_l _ _ _ _ E).
Qed.

Lemma op_frame op a a' s :
  makes op = true -> fresh a op -> fresh s op -> sch_op op a = Ok a' ->
  fresh (merge_schema a s) op /\ sch_op op (merge_schema a s) = Ok (merge_schema a' s).
Proof.
  intros Hm Ha Hf Ho. destruct op as [n args|n|n body|n t tr|n t|n]; try done; cbn in Ho, Hf, Ha |- *;
    rewrite lookup_union_None_2 by done.
  - split; [done|]. destruct (table_of args) as [tb|e]; [|done]. cbn in Ho |- *.
    rewrite Ha in Ho. destruct (forallb _ _) eqn:Ef; [|done]. injection Ho as <-.
    rewrite insert_union_l, (proj2 (forallb_forall _ _)); [done|]. intros fk Hin.
    apply fk_resolves_mono. rewrite forallb_forall in Ef. by apply Ef.
  - split; [done|]. injection Ho as <-. unfold merge_schema, set_functions. cbn.
    by rewrite insert_union_l.
  - split; [done|]. rewrite Ha in Ho. destruct (sc_tables a !! t) as [x|] eqn:Et; [|done].
    destruct (sc_functions a !! tr_function tr) as [f|] eqn:Ef; [|done]. injection Ho as <-.
    rewrite (lookup_union_Some_l _ _ _ _ Et), (lookup_union_Some_l _ _ _ _ Ef).
    unfold merge_schema, set_triggers. cbn. by rewrite insert_union_l.
Qed.

(** A script of fresh names adds to any catalogue what it makes on another one. *)
Lemma run_frame ops a a' s :
  fresh_run ops a -> Forall (fresh s) ops -> sch_run ops a = Ok a' ->
  fresh_run ops (merge_schema a s) /\ sch_run ops (merge_schema a s) = Ok (merge_schema a' s).
Proof.
  revert a. induction ops as [|op ops IH]; cbn; intros a Hr Hf; [by intros [= <-]|].
  destruct Hr as (Hm & Ha & Hk). apply Forall_cons in Hf as [Hf1 Hf].
  unfold res_bind. destruct (sch_op op a) as [a1|e] eqn:Eo; [|done]. intros Hrun.
  destruct (op_frame op a a1 s Hm Ha Hf1 Eo) as [Hfm Hop]. rewrite Hop.
  destruct (IH a1 (Hk a1 eq_refl) Hf Hrun) as [Hfr Hrun'].
  split; [|done]. split; [done|]. split; [done|]. by intros s' [= <-].
Qed.

(** ** Checking a script by evaluation *)

Definition fresh_b (s : schema) (op : ddl) : bool :=
  match op with
  | CreateTable n _ => match sc_tables s !! n with None => true | Some _ => false end
  | CreateOrReplaceFunction n _ => match sc_functions s !! n with None => true | Some _ => false end
  | CreateTrigger n t _ => match sc_triggers s !! (t, n) with None => true | Some _ => false end
  | _ => false
  end.

Fixpoint fresh_run_b (ops : list ddl) (s : schema) : bool :=
  match ops with
  | [] => true
  | op :: ops' => makes op && fresh_b s op &&
      match sch_op op s with Ok s' => fresh_run_b ops' s' | Err _ => true end
  end.

Lemma fresh_b_spec s op : fresh_b s op = true -> fresh s op.
Proof. destruct op; cbn; try done; by case_match. Qed.

Lemma fresh_run_b_spec ops s : fresh_run_b ops s = true -> fresh_run ops s.
Proof.
  revert s. induction ops as [|op ops IH]; cbn; intros s; [done|].
  intros [[Hm Hf%fresh_b_spec]%andb_prop Hr]%andb_prop. split; [done|]. split; [done|].
  intros s' Ho. rewrite Ho in Hr. by apply IH.
Qed.

Lemma fresh_run_app ops1 ops2 s :
  fresh_run (ops1 ++ ops2) s ->
  fresh_run ops1 s /\ forall s1, sch_run ops1 s = Ok s1 -> fresh_run ops2 s1.
Proof.
  revert s. induction ops1 as [|op ops1 IH]; cbn; intros s Hf.
  - split; [done|]. by intros s1 [= <-].
  - destruct Hf as (Hm & Hf & Hk). unfold res_bind. split.
    + split; [done|]. split; [done|]. intros s' Ho. by apply IH, Hk.
    + intros s1. destruct (sch_op op s) as [s'|e]; [|done]. by apply IH, Hk.
Qed.
