(* ===== verification/Migrations.v ===== *)
(** * Migrations: persistence/migrations, persistence/models.py, core/orchestrator/orm.py

    The three Alembic revisions as the statements their [upgrade] and [downgrade]
    issue, the twelve ORM classes as their declarations, and the environment's
    choice of database URL.  The theorems compare the two descriptions of one
    schema: upgrading builds the tables the classes declare, with every reference
    resolved and the audit trigger in place, except that the revisions give a
    server default to the columns for which the classes have a Python-side
    [default=] only; and downgrading takes a database back to what it was. *)

From Stdlib Require Import ZArith Lia Ascii String List.
From stdpp Require Import base list strings gmap pretty.
From S2P Require Import Prelude Effects PyText Schema.

Open Scope string_scope.
Open Scope list_scope.
Open Scope Z_scope.
Open Scope cam_scope.

(** ** Column declarations *)

Definition string_ : sql_type := SString None.
Definition timestamptz : sql_type := SDateTime true.

Definition column (name : string) (ty : sql_type) : Column :=
  mk_Column name ty None None false false false None.
Definition nullable (b : bool) (c : Column) : Column :=
  mk_Column (c_name c) (c_type c) (Some b) (c_server_default c) (c_autoincrement c)
    (c_primary_key c) (c_unique c) (c_foreign_key c).
Definition server_default (d : string) (c : Column) : Column :=
  mk_Column (c_name c) (c_type c) (c_nullable c) (Some d) (c_autoincrement c)
    (c_primary_key c) (c_unique c) (c_foreign_key c).
Definition autoincrement (c : Column) : Column :=
  mk_Column (c_name c) (c_type c) (c_nullable c) (c_server_default c) true
    (c_primary_key c) (c_unique c) (c_foreign_key c).
Definition primary_key (c : Column) : Column :=
  mk_Column (c_name c) (c_type c) (c_nullable c) (c_server_default c) (c_autoincrement c)
    true (c_unique c) (c_foreign_key c).
Definition unique (c : Column) : Column :=
  mk_Column (c_name c) (c_type c) (c_nullable c) (c_server_default c) (c_autoincrement c)
    (c_primary_key c) true (c_foreign_key c).
Definition references (r : string) (c : Column) : Column :=
  mk_Column (c_name c) (c_type c) (c_nullable c) (c_server_default c) (c_autoincrement c)
    (c_primary_key c) (c_unique c) (Some r).
Definition not_null (name : string) (ty : sql_type) : Column := nullable false (column name ty).
Definition null_ok (name : string) (ty : sql_type) : Column := nullable true (column name ty).

(** ** The tables the revisions create *)

Definition contacts_args : list table_arg :=
  [TColumn (not_null "id" string_);
   TColumn (not_null "source" string_);
   TColumn (not_null "name" string_);
   TColumn (null_ok "email" string_);
   TColumn (null_ok "phone" string_);
   TColumn (null_ok "role" string_);
   TColumn (server_default "{}" (not_null "external_ids" SJSONB));
   PrimaryKeyConstraint ["id"]].

Definition matters_args : list table_arg :=
  [TColumn (not_null "id" string_);
   TColumn (not_null "source" string_);
   TColumn (not_null "reference" string_);
   TColumn (not_null "title" string_);
   TColumn (not_null "status" string_);
   TColumn (null_ok "practice_area" string_);
   TColumn (not_null "client_id" string_);
   TColumn (null_ok "responsible" string_);
   TColumn (not_null "opened_at" timestamptz);
   TColumn (server_default "{}" (not_null "external_ids" SJSONB));
   ForeignKeyConstraint ["client_id"] ["contacts.id"];
   PrimaryKeyConstraint ["id"]].

Definition documents_args : list table_arg :=
  [TColumn (not_null "id" string_);
   TColumn (not_null "matter_id" string_);
   TColumn (not_null "name" string_);
   TColumn (not_null "mime_type" string_);
   TColumn (not_null "uri" string_);
   TColumn (null_ok "classification" string_);
   TColumn (not_null "version" SInteger);
   TColumn (server_default "true" (not_null "privileged" SBoolean));
   TColumn (not_null "checksum" string_);
   TColumn (not_null "created_at" timestamptz);
   ForeignKeyConstraint ["matter_id"] ["matters.id"];
   PrimaryKeyConstraint ["id"]].

Definition deadlines_args : list table_arg :=
  [TColumn (not_null "id" string_);
   TColumn (not_null "matter_id" string_);
   TColumn (not_null "name" string_);
   TColumn (not_null "due_at" timestamptz);
   TColumn (null_ok "rule_id" string_);
   TColumn (server_default "pending" (not_null "status" string_));
   TColumn (server_default "0" (not_null "escalation_level" SInteger));
   ForeignKeyConstraint ["matter_id"] ["matters.id"];
   PrimaryKeyConstraint ["id"]].

Definition communications_args : list table_arg :=
  [TColumn (not_null "id" string_);
   TColumn (null_ok "matter_id" string_);
   TColumn (not_null "direction" string_);
   TColumn (not_null "channel" string_);
   TColumn (null_ok "subject" string_);
   TColumn (not_null "body" SText);
   TColumn (not_null "status" string_);
   TColumn (server_default "[]" (not_null "participants" SJSONB));
   ForeignKeyConstraint ["matter_id"] ["matters.id"];
   PrimaryKeyConstraint ["id"]].

Definition tasks_args : list table_arg :=
  [TColumn (not_null "id" string_);
   TColumn (not_null "matter_id" string_);
   TColumn (not_null "title" string_);
   TColumn (null_ok "assignee" string_);
   TColumn (null_ok "due_at" timestamptz);
   TColumn (not_null "status" string_);
   ForeignKeyConstraint ["matter_id"] ["matters.id"];
   PrimaryKeyConstraint ["id"]].

Definition audit_log_args : list table_arg :=
  [TColumn (autoincrement (not_null "id" SBigInteger));
   TColumn (not_null "actor" string_);
   TColumn (not_null "action" string_);
   TColumn (server_default "{}" (not_null "inputs" SJSONB));
   TColumn (server_default "{}" (not_null "outputs" SJSONB));
   TColumn (null_ok "approval" SJSONB);
   TColumn (not_null "timestamp" timestamptz);
   TColumn (null_ok "run_id" string_);
   TColumn (not_null "prev_hash" (SString (Some 64)));
   TColumn (not_null "record_hash" (SString (Some 64)));
   PrimaryKeyConstraint ["id"]].

Definition workflow_runs_args : list table_arg :=
  [TColumn (not_null "id" string_);
   TColumn (not_null "workflow" string_);
   TColumn (not_null "workflow_version" SInteger);
   TColumn (server_default "queued" (not_null "status" string_));
   TColumn (null_ok "current_step" string_);
   TColumn (not_null "trigger" SJSONB);
   TColumn (server_default "{}" (not_null "context" SJSONB));
   TColumn (null_ok "last_error" SJSONB);
   TColumn (unique (null_ok "dedupe_key" string_));
   TColumn (not_null "created_at" timestamptz);
   TColumn (not_null "updated_at" timestamptz);
   PrimaryKeyConstraint ["id"]].

Definition workflow_step_states_args : list table_arg :=
  [TColumn (autoincrement (not_null "id" SInteger));
   TColumn (not_null "run_id" string_);
   TColumn (not_null "step" string_);
   TColumn (not_null "seq" SInteger);
   TColumn (server_default "pending" (not_null "status" string_));
   TColumn (server_default "0" (not_null "attempt" SInteger));
   TColumn (not_null "idem_key" string_);
   TColumn (null_ok "input" SJSONB);
   TColumn (null_ok "output" SJSONB);
   TColumn (null_ok "error" SJSONB);
   TColumn (null_ok "started_at" timestamptz);
   TColumn (null_ok "ended_at" timestamptz);
   ForeignKeyConstraint ["run_id"] ["workflow_runs.id"];
   PrimaryKeyConstraint ["id"];
   UniqueConstraint ["run_id"; "step"] (Some "uq_run_step")].

Definition gate_requests_args : list table_arg :=
  [TColumn (not_null "id" string_);
   TColumn (not_null "run_id" string_);
   TColumn (not_null "step" string_);
   TColumn (not_null "required_role" string_);
   TColumn (server_default "1" (not_null "quorum" SInteger));
   TColumn (server_default "pending" (not_null "status" string_));
   TColumn (not_null "channels" SJSONB);
   TColumn (not_null "created_at" timestamptz);
   TColumn (not_null "expires_at" timestamptz);
   ForeignKeyConstraint ["run_id"] ["workflow_runs.id"];
   PrimaryKeyConstraint ["id"]].

Definition approval_decisions_args : list table_arg :=
  [TColumn (autoincrement (not_null "id" SInteger));
   TColumn (not_null "gate_request_id" string_);
   TColumn (not_null "run_id" string_);
   TColumn (not_null "step" string_);
   TColumn (not_null "decision" string_);
   TColumn (not_null "actor" string_);
   TColumn (not_null "channel" string_);
   TColumn (not_null "token_id" string_);
   TColumn (null_ok "reason" SText);
   TColumn (not_null "decided_at" timestamptz);
   ForeignKeyConstraint ["gate_request_id"] ["gate_requests.id"];
   ForeignKeyConstraint ["run_id"] ["workflow_runs.id"];
   PrimaryKeyConstraint ["id"]].

Definition approval_tokens_args : list table_arg :=
  [TColumn (not_null "id" string_);
   TColumn (not_null "gate_request_id" string_);
   TColumn (not_null "run_id" string_);
   TColumn (not_null "step" string_);
   TColumn (not_null "key_id" string_);
   TColumn (not_null "token_hash" (SString (Some 64)));
   TColumn (not_null "channel" string_);
   TColumn (not_null "expires_at" timestamptz);
   TColumn (null_ok "used_at" timestamptz);
   ForeignKeyConstraint ["gate_request_id"] ["gate_requests.id"];
   ForeignKeyConstraint ["run_id"] ["workflow_runs.id"];
   PrimaryKeyConstraint ["id"];
   UniqueConstraint ["id"] (Some "uq_token_id")].

Definition scheduled_deadlines_args : list table_arg :=
  [TColumn (primary_key (column "deadline_id" string_));
   TColumn (not_null "matter_id" string_);
   TColumn (not_null "rule_ref" SJSONB);
   TColumn (not_null "trace" SJSONB);
   TColumn (unique (not_null "idempotency_key" string_));
   TColumn (server_default "false" (not_null "flagged_past_due_on_create" SBoolean));
   TColumn (server_default "0" (not_null "escalation_level" SInteger))].

Definition scheduled_reminders_args : list table_arg :=
  [TColumn (primary_key (column "id" string_));
   TColumn (references "scheduled_deadlines.deadline_id" (not_null "deadline_id" string_));
   TColumn (not_null "fire_at" timestamptz);
   TColumn (not_null "offset_data" SJSONB);
   TColumn (server_default "armed" (not_null "status" string_));
   TColumn (unique (not_null "idempotency_key" string_));
   TColumn (server_default "[]" (not_null "redundant_arm_ids" SJSONB))].

Definition rule_version_registry_args : list table_arg :=
  [TColumn (primary_key (autoincrement (column "id" SInteger)));
   TColumn (not_null "rule_id" string_);
   TColumn (not_null "jurisdiction" string_);
   TColumn (not_null "rule_version" (SString (Some 16)));
   TColumn (not_null "yaml_blob" SText);
   TColumn (not_null "loaded_at" timestamptz)].

(** ** The revisions *)

Record Revision := mk_Revision {
  rv_revision : string;
  rv_down_revision : option string;
  rv_upgrade : list ddl;
  rv_downgrade : list ddl }.

(** The function and the trigger of [op.execute] in revision 001. *)
Definition audit_log_immutable_body : string :=
  "RAISE EXCEPTION 'audit_log rows are immutable; UPDATE and DELETE are prohibited.';".
Definition trg_audit_log_immutable : Trigger :=
  mk_Trigger [EvUpdate; EvDelete] "audit_log_immutable".

Definition upgrade_001 : list ddl :=
  [CreateTable "contacts" contacts_args;
   CreateTable "matters" matters_args;
   CreateTable "documents" documents_args;
   CreateTable "deadlines" deadlines_args;
   CreateTable "communications" communications_args;
   CreateTable "tasks" tasks_args;
   CreateTable "audit_log" audit_log_args;
   CreateOrReplaceFunction "audit_log_immutable" audit_log_immutable_body;
   CreateTrigger "trg_audit_log_immutable" "audit_log" trg_audit_log_immutable].

Definition downgrade_001 : list ddl :=
  [DropTriggerIfExists "trg_audit_log_immutable" "audit_log";
   DropFunctionIfExists "audit_log_immutable";
   DropTable "audit_log";
   DropTable "tasks";
   DropTable "communications";
   DropTable "deadlines";
   DropTable "documents";
   DropTable "matters";
   DropTable "contacts"].

Definition upgrade_002 : list ddl :=
  [CreateTable "workflow_runs" workflow_runs_args;
   CreateTable "workflow_step_states" workflow_step_states_args;
   CreateTable "gate_requests" gate_requests_args;
   CreateTable "approval_decisions" approval_decisions_args;
   CreateTable "approval_tokens" approval_tokens_args].

Definition downgrade_002 : list ddl :=
  [DropTable "approval_tokens";
   DropTable "approval_decisions";
   DropTable "gate_requests";
   DropTable "workflow_step_states";
   DropTable "workflow_runs"].

Definition upgrade_003 : list ddl :=
  [CreateTable "scheduled_deadlines" scheduled_deadlines_args;
   CreateTable "scheduled_reminders" scheduled_reminders_args;
   CreateTable "rule_version_registry" rule_version_registry_args].

Definition downgrade_003 : list ddl :=
  [DropTable "rule_version_registry";
   DropTable "scheduled_reminders";
   DropTable "scheduled_deadlines"].

Definition revision_001 : Revision := mk_Revision "001" None upgrade_001 downgrade_001.
Definition revision_002 : Revision := mk_Revision "002" (Some "001") upgrade_002 downgrade_002.
Definition revision_003 : Revision := mk_Revision "003" (Some "002") upgrade_003 downgrade_003.

Definition revisions : list Revision := [revision_001; revision_002; revision_003].

(** Each revision follows the one before it: the history has one head. *)
Fixpoint linked (previous : option string) (l : list Revision) : bool :=
  match l with
  | [] => true
  | r :: l' => bool_decide (rv_down_revision r = previous) && linked (Some (rv_revision r)) l'
  end.

(** [alembic upgrade] through the first [n] revisions, and [alembic downgrade]
    from the [j]-th to the [i]-th. *)
Definition upgrade_to (n : nat) : list ddl := concat (map rv_upgrade (firstn n revisions)).
Definition downgrade_from (j i : nat) : list ddl :=
  concat (map rv_downgrade (rev (skipn i (firstn j revisions)))).

(** ** The ORM classes *)

Inductive py_default := DStr (s : string) | DBool (b : bool) | DInt (z : Z) | DDict | DList.

(** [mapped_column(..., default=...)]; a reference without a type has that of its
    annotation.  [default=] is applied by SQLAlchemy when it inserts a row and is
    no part of the table; only [server_default=], which no class uses, would be. *)
Record MappedColumn := mapped_column { m_column : Column; m_default : option py_default }.

Record OrmModel := mk_OrmModel {
  om_class : string;
  om_tablename : string;
  om_columns : list MappedColumn;
  om_table_args : list table_arg }.

Definition Contact_model : OrmModel := mk_OrmModel "ContactORM" "contacts"
  [mapped_column (primary_key (column "id" string_)) None;
   mapped_column (not_null "source" string_) None;
   mapped_column (not_null "name" string_) None;
   mapped_column (null_ok "email" string_) None;
   mapped_column (null_ok "phone" string_) None;
   mapped_column (null_ok "role" string_) None;
   mapped_column (not_null "external_ids" SJSONB) (Some DDict)]
  [].

Definition Matter_model : OrmModel := mk_OrmModel "MatterORM" "matters"
  [mapped_column (primary_key (column "id" string_)) None;
   mapped_column (not_null "source" string_) None;
   mapped_column (not_null "reference" string_) None;
   mapped_column (not_null "title" string_) None;
   mapped_column (not_null "status" string_) None;
   mapped_column (null_ok "practice_area" string_) None;
   mapped_column (references "contacts.id" (not_null "client_id" string_)) None;
   mapped_column (null_ok "responsible" string_) None;
   mapped_column (not_null "opened_at" timestamptz) None;
   mapped_column (not_null "external_ids" SJSONB) (Some DDict)]
  [].

Definition Document_model : OrmModel := mk_OrmModel "DocumentORM" "documents"
  [mapped_column (primary_key (column "id" string_)) None;
   mapped_column (references "matters.id" (not_null "matter_id" string_)) None;
   mapped_column (not_null "name" string_) None;
   mapped_column (not_null "mime_type" string_) None;
   mapped_column (not_null "uri" string_) None;
   mapped_column (null_ok "classification" string_) None;
   mapped_column (not_null "version" SInteger) None;
   mapped_column (not_null "privileged" SBoolean) (Some (DBool true));
   mapped_column (not_null "checksum" string_) None;
   mapped_column (not_null "created_at" timestamptz) None]
  [].

Definition Deadline_model : OrmModel := mk_OrmModel "DeadlineORM" "deadlines"
  [mapped_column (primary_key (column "id" string_)) None;
   mapped_column (references "matters.id" (not_null "matter_id" string_)) None;
   mapped_column (not_null "name" string_) None;
   mapped_column (not_null "due_at" timestamptz) None;
   mapped_column (null_ok "rule_id" string_) None;
   mapped_column (not_null "status" string_) (Some (DStr "pending"));
   mapped_column (not_null "escalation_level" SInteger) (Some (DInt 0))]
  [].

Definition Communication_model : OrmModel := mk_OrmModel "CommunicationORM" "communications"
  [mapped_column (primary_key (column "id" string_)) None;
   mapped_column (references "matters.id" (null_ok "matter_id" string_)) None;
   mapped_column (not_null "direction" string_) None;
   mapped_column (not_null "channel" string_) None;
   mapped_column (null_ok "subject" string_) None;
   mapped_column (not_null "body" SText) None;
   mapped_column (not_null "status" string_) None;
   mapped_column (not_null "participants" SJSONB) (Some DList)]
  [].

Definition Task_model : OrmModel := mk_OrmModel "TaskORM" "tasks"
  [mapped_column (primary_key (column "id" string_)) None;
   mapped_column (references "matters.id" (not_null "matter_id" string_)) None;
   mapped_column (not_null "title" string_) None;
   mapped_column (null_ok "assignee" string_) None;
   mapped_column (null_ok "due_at" timestamptz) None;
   mapped_column (not_null "status" string_) None]
  [].

Definition AuditLog_model : OrmModel := mk_OrmModel "AuditLogORM" "audit_log"
  [mapped_column (primary_key (autoincrement (column "id" SBigInteger))) None;
   mapped_column (not_null "actor" string_) None;
   mapped_column (not_null "action" string_) None;
   mapped_column (not_null "inputs" SJSONB) (Some DDict);
   mapped_column (not_null "outputs" SJSONB) (Some DDict);
   mapped_column (null_ok "approval" SJSONB) None;
   mapped_column (not_null "timestamp" timestamptz) None;
   mapped_column (null_ok "run_id" string_) None;
   mapped_column (not_null "prev_hash" (SString (Some 64))) None;
   mapped_column (not_null "record_hash" (SString (Some 64))) None]
  [].

Definition WorkflowRun_model : OrmModel := mk_OrmModel "WorkflowRunORM" "workflow_runs"
  [mapped_column (primary_key (column "id" string_)) None;
   mapped_column (not_null "workflow" string_) None;
   mapped_column (not_null "workflow_version" SInteger) None;
   mapped_column (not_null "status" string_) (Some (DStr "queued"));
   mapped_column (null_ok "current_step" string_) None;
   mapped_column (not_null "trigger" SJSONB) None;
   mapped_column (not_null "context" SJSONB) (Some DDict);
   mapped_column (null_ok "last_error" SJSONB) None;
   mapped_column (unique (null_ok "dedupe_key" string_)) None;
   mapped_column (not_null "created_at" timestamptz) None;
   mapped_column (not_null "updated_at" timestamptz) None]
  [].

Definition WorkflowStepState_model : OrmModel := mk_OrmModel "WorkflowStepStateORM"
  "workflow_step_states"
  [mapped_column (primary_key (autoincrement (column "id" SInteger))) None;
   mapped_column (references "workflow_runs.id" (not_null "run_id" string_)) None;
   mapped_column (not_null "step" string_) None;
   mapped_column (not_null "seq" SInteger) None;
   mapped_column (not_null "status" string_) (Some (DStr "pending"));
   mapped_column (not_null "attempt" SInteger) (Some (DInt 0));
   mapped_column (not_null "idem_key" string_) None;
   mapped_column (null_ok "input" SJSONB) None;
   mapped_column (null_ok "output" SJSONB) None;
   mapped_column (null_ok "error" SJSONB) None;
   mapped_column (null_ok "started_at" timestamptz) None;
   mapped_column (null_ok "ended_at" timestamptz) None]
  [UniqueConstraint ["run_id"; "step"] (Some "uq_run_step")].

Definition GateRequest_model : OrmModel := mk_OrmModel "GateRequestORM" "gate_requests"
  [mapped_column (primary_key (column "id" string_)) None;
   mapped_column (references "workflow_runs.id" (not_null "run_id" string_)) None;
   mapped_column (not_null "step" string_) None;
   mapped_column (not_null "required_role" string_) None;
   mapped_column (not_null "quorum" SInteger) (Some (DInt 1));
   mapped_column (not_null "status" string_) (Some (DStr "pending"));
   mapped_column (not_null "channels" SJSONB) None;
   mapped_column (not_null "created_at" timestamptz) None;
   mapped_column (not_null "expires_at" timestamptz) None]
  [].

Definition ApprovalDecision_model : OrmModel := mk_OrmModel "ApprovalDecisionORM"
  "approval_decisions"
  [mapped_column (primary_key (autoincrement (column "id" SInteger))) None;
   mapped_column (references "gate_requests.id" (not_null "gate_request_id" string_)) None;
   mapped_column (references "workflow_runs.id" (not_null "run_id" string_)) None;
   mapped_column (not_null "step" string_) None;
   mapped_column (not_null "decision" string_) None;
   mapped_column (not_null "actor" string_) None;
   mapped_column (not_null "channel" string_) None;
   mapped_column (not_null "token_id" string_) None;
   mapped_column (null_ok "reason" SText) None;
   mapped_column (not_null "decided_at" timestamptz) None]
  [].

Definition ApprovalToken_model : OrmModel := mk_OrmModel "ApprovalTokenORM" "approval_tokens"
  [mapped_column (primary_key (column "id" string_)) None;
   mapped_column (references "gate_requests.id" (not_null "gate_request_id" string_)) None;
   mapped_column (references "workflow_runs.id" (not_null "run_id" string_)) None;
   mapped_column (not_null "step" string_) None;
   mapped_column (not_null "key_id" string_) None;
   mapped_column (not_null "token_hash" (SString (Some 64))) None;
   mapped_column (not_null "channel" string_) None;
   mapped_column (not_null "expires_at" timestamptz) None;
   mapped_column (null_ok "used_at" timestamptz) None]
  [UniqueConstraint ["id"] (Some "uq_token_id")].

(** The two modules that declare classes on the shared [Base]. *)
Definition persistence_models : list OrmModel :=
  [Contact_model; Matter_model; Document_model; Deadline_model; Communication_model; Task_model;
   AuditLog_model].
Definition orchestrator_models : list OrmModel :=
  [WorkflowRun_model; WorkflowStepState_model; GateRequest_model; ApprovalDecision_model;
   ApprovalToken_model].
Definition orm_models : list OrmModel := persistence_models ++ orchestrator_models.

(** The table a class declares. *)
Definition declared_table (m : OrmModel) : res Table :=
  table_of (map (fun c => TColumn (m_column c)) (om_columns m) ++ om_table_args m).

(** [_IMMUTABILITY_TRIGGER_SQL] of models.py. *)
Definition IMMUTABILITY_TRIGGER_SQL : list ddl :=
  [CreateOrReplaceFunction "audit_log_immutable" audit_log_immutable_body;
   DropTriggerIfExists "trg_audit_log_immutable" "audit_log";
   CreateTrigger "trg_audit_log_immutable" "audit_log" trg_audit_log_immutable].

(** ** env.py *)

(** [s.replace(old, new)] for a non-empty [old]; [skip] characters of an
    occurrence are still to be passed over. *)
Fixpoint replace_from (skip : nat) (old new s : string) : string :=
  match s with
  | EmptyString => EmptyString
  | String c s' =>
      match skip with
      | S k => replace_from k old new s'
      | O => if starts_with old s then new +:+ replace_from (String.length old - 1) old new s'
             else String c (replace_from 0 old new s')
      end
  end.
Definition str_replace (old new s : string) : string := replace_from 0 old new s.

(** The URL the environment variables give, if any, for a synchronous driver. *)
Definition env_db_url (database_url migration_url : option string) : option string :=
  match database_url with
  | Some u => if str_truthy u then Some u else migration_url
  | None => migration_url
  end.
Definition sync_url (database_url migration_url : option string) : option string :=
  match env_db_url database_url migration_url with
  | Some u => if str_truthy u then Some (str_replace "+asyncpg" "" u) else None
  | None => None
  end.

(** [target_metadata]: what importing [cam.persistence.models] registers. *)
Definition target_metadata : list OrmModel := persistence_models.

(** ** The history *)

(** The revisions form one line from the empty history. *)
Lemma revisions_linked : linked None revisions = true.
Proof. reflexivity. Qed.

(** Later revisions extend the script, and the downgrades undo them. *)
Lemma upgrade_split i j : (i <= j <= 3)%nat ->
  exists ops, upgrade_to j = upgrade_to i ++ ops /\ downgrade_from j i = undo_script ops.
Proof.
  intros H. exists (concat (map rv_upgrade (skipn i (firstn j revisions)))).
  destruct i as [|[|[|[|i]]]], j as [|[|[|[|j]]]]; try lia; split; reflexivity.
Qed.

(** What the whole history makes on an empty database. *)
Definition head_schema : schema :=
  match sch_run (upgrade_to 3) empty_schema with Ok s => s | Err _ => empty_schema end.

Lemma head_schema_run : sch_run (upgrade_to 3) empty_schema = Ok head_schema.
Proof. vm_compute. reflexivity. Qed.

Lemma history_fresh : fresh_run (upgrade_to 3) empty_schema.
Proof. apply fresh_run_b_spec. vm_compute. reflexivity. Qed.

(** The same table with no server defaults. *)
Definition without_default (c : ColSpec) : ColSpec :=
  mk_ColSpec (cs_type c) (cs_nullable c) (cs_autoincrement c) None.
Definition without_defaults (t : Table) : Table :=
  mk_Table (map (fun c => (fst c, without_default (snd c))) (tb_columns t)) (tb_primary_key t)
    (tb_foreign_keys t) (tb_uniques t).

(** The text of a server default that gives the value of a Python one. *)
Definition same_value (d : py_default) : string :=
  match d with
  | DStr s => s
  | DBool b => if b then "true" else "false"
  | DInt z => pretty z
  | DDict => "{}"
  | DList => "[]"
  end.

(** The server defaults of a table, and the Python-side ones of a class. *)
Definition server_defaults (t : Table) : list (string * option string) :=
  map (fun c => (fst c, cs_default (snd c))) (tb_columns t).
Definition client_defaults (m : OrmModel) : list (string * option py_default) :=
  map (fun c => (c_name (m_column c), m_default c)) (om_columns m).

(** [t] is the table of class [m] in a database the revisions made: the declared
    table, which has no server default, and besides it, on exactly the columns for
    which the class has a Python-side default, a server default of that value. *)
Definition migrated_table (m : OrmModel) (t : Table) : Prop :=
  declared_table m = Ok (without_defaults t) /\
  server_defaults t = map (fun cd => (fst cd, option_map same_value (snd cd))) (client_defaults m).

(** Every class finds its table, column for column. *)
Lemma head_matches_models m :
  m ∈ orm_models ->
  exists t, migrated_table m t /\ sc_tables head_schema !! om_tablename m = Some t.
Proof.
  intros Hm. apply list_elem_of_In in Hm. revert m Hm. apply List.Forall_forall.
  repeat constructor; (eexists; split; [|vm_compute; reflexivity]; split; vm_compute; reflexivity).
Qed.

(** The columns the database fills in and the classes' own tables would not:
    a table made from a class's metadata rejects a row inserted without them. *)
Definition migration_only_defaults : list (string * list string) :=
  map (fun m => (om_tablename m,
    map fst (bfilter (fun cd => bool_decide (is_Some (snd cd))) (client_defaults m)))) orm_models.

Example migration_only_defaults_ex :
  bfilter (fun x => negb (bool_decide (snd x = []))) migration_only_defaults =
  [("contacts", ["external_ids"]); ("matters", ["external_ids"]); ("documents", ["privileged"]);
   ("deadlines", ["status"; "escalation_level"]); ("communications", ["participants"]);
   ("audit_log", ["inputs"; "outputs"]); ("workflow_runs", ["status"; "context"]);
   ("workflow_step_states", ["status"; "attempt"]); ("gate_requests", ["quorum"; "status"])].
Proof. vm_compute. reflexivity. Qed.

Lemma upgrade_head s :
  Forall (fresh s) (upgrade_to 3) ->
  fresh_run (upgrade_to 3) s /\ sch_run (upgrade_to 3) s = Ok (merge_schema head_schema s).
Proof.
  intros Hf. pose proof (run_frame _ _ _ s history_fresh Hf head_schema_run) as H.
  by rewrite merge_empty in H.
Qed.

Section Upgrade.
Context {Db : Type} `{DdlLaws Db}.

(** C14: On a database whose catalogue is well formed and has none of the names the
    revisions use, upgrading to the head succeeds and keeps what was there.  The
    catalogue stays well formed, so every foreign key refers to an existing
    table; each of the twelve ORM classes finds its table with exactly the
    columns, types, nullability, keys, references and unique groups it declares,
    and with server defaults, of which the class declares none, on exactly the
    columns for which it has a Python-side default, of that default's value; and
    updates and deletes of [audit_log] rows run the function that raises. *)
Theorem upgrade_matches_models (db : Db) :
  schema_wf (ddl_view db) -> Forall (fresh (ddl_view db)) (upgrade_to 3) ->
  exists db', ddl_script (upgrade_to 3) db = (db', Ok tt) /\ schema_wf (ddl_view db') /\
    (forall m, m ∈ orm_models -> exists t, migrated_table m t /\
       sc_tables (ddl_view db') !! om_tablename m = Some t) /\
    (sc_triggers (ddl_view db') !! ("audit_log", "trg_audit_log_immutable") =
       Some (mk_Trigger [EvUpdate; EvDelete] "audit_log_immutable") /\
     sc_functions (ddl_view db') !! "audit_log_immutable" = Some audit_log_immutable_body) /\
    (forall n t, sc_tables (ddl_view db) !! n = Some t -> sc_tables (ddl_view db') !! n = Some t).
Proof.
  intros Hw Hf. destruct (upgrade_head _ Hf) as [Hfr Hr].
  destruct (script_ok _ _ _ Hr) as (db' & Hs & Hv). exists db'. rewrite Hv.
  split; [done|]. split; [by eapply run_wf|]. split_and!.
  - intros m Hm. destruct (head_matches_models m Hm) as (t & Ht & Hl). exists t.
    split; [done|]. cbn [merge_schema sc_tables]. by apply lookup_union_Some_l.
  - cbn [merge_schema sc_triggers]. apply lookup_union_Some_l. vm_compute. reflexivity.
  - cbn [merge_schema sc_functions]. apply lookup_union_Some_l. vm_compute. reflexivity.
  - intros n t Hn. by eapply run_keeps_tables.
Qed.

(** C21: Downgrading restores: from the catalogue revision [j] made, the downgrades
    down to revision [i] succeed and give back the catalogue of revision [i],
    whatever else the database holds; down to 0, the one it started with. *)
Theorem downgrade_restores (db dbi dbj : Db) i j u v :
  (i <= j <= 3)%nat ->
  schema_wf (ddl_view db) -> Forall (fresh (ddl_view db)) (upgrade_to 3) ->
  ddl_script (upgrade_to i) db = (dbi, Ok u) -> ddl_script (upgrade_to j) db = (dbj, Ok v) ->
  exists db', ddl_script (downgrade_from j i) dbj = (db', Ok tt) /\ ddl_view db' = ddl_view dbi.
Proof.
  intros Hij Hw Hf Hi%script_sound Hj%script_sound.
  destruct (upgrade_head _ Hf) as [Hfr _].
  destruct (upgrade_split j 3) as (later & He & _); [lia|]. rewrite He in Hfr.
  apply fresh_run_app in Hfr as [Hfr _].
  destruct (upgrade_split i j Hij) as (ops & Hup & Hdn). rewrite Hup in Hfr, Hj.
  apply fresh_run_app in Hfr as [Hfi Hfo]. specialize (Hfo _ Hi).
  rewrite sch_run_app, Hi in Hj. cbn in Hj. rewrite Hdn.
  apply script_ok, run_undo; [|done|done]. by apply (run_wf (upgrade_to i) (ddl_view db)).
Qed.

End Upgrade.

(** ** Around the history *)

(** Running [_IMMUTABILITY_TRIGGER_SQL] where the function and the trigger of
    revision 001 are in place changes nothing. *)
Lemma immutability_sql_idempotent s t :
  sc_tables s !! "audit_log" = Some t ->
  sc_functions s !! "audit_log_immutable" = Some audit_log_immutable_body ->
  sc_triggers s !! ("audit_log", "trg_audit_log_immutable") = Some trg_audit_log_immutable ->
  sch_run IMMUTABILITY_TRIGGER_SQL s = Ok s.
Proof.
  intros Ht Hf Hg. cbn. rewrite Ht, lookup_insert_eq, lookup_delete_eq. cbn. f_equal.
  apply schema_eta; cbn; [done|by apply insert_id|]. rewrite insert_delete_eq. by apply insert_id.
Qed.

(** Each listed name is a table of the head and is not in a list of names. *)
Ltac unmapped :=
  repeat first [apply List.Forall_nil | apply List.Forall_cons;
    [split; [vm_compute; discriminate | apply (bool_decide_unpack _); vm_compute; exact I] |]].

(** The tables of revision 003 belong to no ORM class. *)
Lemma deadline_tables_unmapped n :
  n ∈ ["scheduled_deadlines"; "scheduled_reminders"; "rule_version_registry"] ->
  sc_tables head_schema !! n <> None /\ n ∉ map om_tablename orm_models.
Proof.
  intros Hn. apply list_elem_of_In in Hn. revert n Hn. apply List.Forall_forall.
  unmapped.
Qed.

(** Autogeneration compares with [target_metadata], which has none of the
    orchestrator's tables. *)
Lemma target_metadata_incomplete m :
  m ∈ orchestrator_models ->
  sc_tables head_schema !! om_tablename m <> None /\
  om_tablename m ∉ map om_tablename target_metadata.
Proof.
  intros Hm. apply list_elem_of_In in Hm. revert m Hm. apply List.Forall_forall.
  unfold orchestrator_models. unmapped.
Qed.

(** No variable, or empty ones, leave alembic.ini's URL; the first non-empty one wins. *)
Lemma sync_url_cases u m :
  sync_url None None = None /\ sync_url (Some "") (Some "") = None /\
  (str_truthy u = true -> sync_url (Some u) m = Some (str_replace "+asyncpg" "" u)) /\
  (str_truthy u = true -> sync_url None (Some u) = Some (str_replace "+asyncpg" "" u)) /\
  (str_truthy u = true -> sync_url (Some "") (Some u) = Some (str_replace "+asyncpg" "" u)).
Proof. unfold sync_url, env_db_url. split_and!; try done; intros H; cbn; by rewrite !H. Qed.

Example sync_url_ex :
  sync_url (Some "postgresql+asyncpg://u:p@h/db") None = Some "postgresql://u:p@h/db".
Proof. reflexivity. Qed.

(** ** A database that holds Alembic's own table *)

Definition ex_version_table : Table :=
  mk_Table [("version_num", mk_ColSpec (SString (Some 32)) false false None)] ["version_num"] [] [].
Definition ex_database : schema := mk_schema {["alembic_version" := ex_version_table]} ∅ ∅.
Definition ex_upgraded (n : nat) : schema := fst (ddl_script (upgrade_to n) ex_database).

Lemma ex_database_wf : schema_wf (ddl_view ex_database).
Proof.
  split; cbn.
  - intros n t fk [<- <-]%lookup_singleton_Some Hin. by apply elem_of_nil in Hin.
  - intros t n tr. by rewrite lookup_empty.
Qed.

Lemma ex_database_fresh : Forall (fresh (ddl_view ex_database)) (upgrade_to 3).
Proof. repeat constructor. Qed.

Lemma upgrade_matches_models_witness :
  exists db', ddl_script (upgrade_to 3) ex_database = (db', Ok tt) /\ schema_wf (ddl_view db') /\
    sc_tables (ddl_view db') !! "alembic_version" = Some ex_version_table.
Proof.
  destruct (upgrade_matches_models (Db := schema) ex_database ex_database_wf ex_database_fresh)
    as (db' & Hs & Hw & _ & _ & Hk).
  exists db'. split; [exact Hs|]. split; [exact Hw|]. apply Hk. vm_compute. reflexivity.
Defined.

Lemma downgrade_restores_witness :
  exists db', ddl_script (downgrade_from 3 1) (ex_upgraded 3) = (db', Ok tt) /\
    ddl_view db' = ddl_view (ex_upgraded 1).
Proof.
  apply (downgrade_restores (Db := schema) ex_database (ex_upgraded 1) (ex_upgraded 3) 1 3 tt tt).
  - lia.
  - exact ex_database_wf.
  - exact ex_database_fresh.
  - vm_compute. reflexivity.
  - vm_compute. reflexivity.
Defined.
