(* ===== verification/Sidecar.v ===== *)
(** * Sidecar: startup and the pack inspector

    sidecar/main.py configures the parts of the library one after the other and
    goes on when one of them fails; sidecar/pack_inspector.py shows a pack.
    The process is a record of the module-level states of the parts.  Settings,
    secrets, packs, redaction, cryptography, the connector registry and the
    webhook route are those of the other files; creating a database engine and
    the adapters' constructors are parameters. *)

From Stdlib Require Import ZArith Lia Ascii String List QArith.
From stdpp Require Import base list strings pretty.
From S2P Require Import Prelude PyTime ConnErrors Effects PyText States RunStore Idem Base64 Gates Registry Webhook DeadlineTypes QcChecks Intake Routing Packs Regex Scrub Crypto Settings.

Open Scope string_scope.
Open Scope list_scope.
Open Scope Z_scope.
Open Scope cam_scope.

(** ** main.py *)

Inductive RunStoreBackend := PostgresBackend | InMemoryBackend.

(** What [configure_db] was last called with. *)
Record DbConfig := mk_DbConfig { db_url : string; db_pool_size : Z; db_max_overflow : Z }.

(** [b"\x00" * 32] *)
Definition ZERO_KEY : string := string_of_list_ascii (repeat zero 32).

(** Step 5: the key approval tokens are signed with. *)
Definition signing_key_of (environ : dict string string) : string :=
  match dget "CAM_ENCRYPTION_KEK" environ with
  | Some raw_kek =>
      if str_truthy raw_kek then match b64decode raw_kek with Some k => k | None => ZERO_KEY end else ZERO_KEY
  | None => ZERO_KEY
  end.

Section Startup.
Context {A N R W : Type} {AE : Aead} (urandom : nat -> nat -> string) (compile_other : string -> re).
Context (json_dumps : json -> string) (float_str : Q -> string).
Context (environ : dict string string) (run_sops : string -> option string -> M W (Z * string * string)).
Context (yaml_load json_load : string -> res json).
(** [create_async_engine]; the adapters and the normaliser of the reference connector. *)
Context (create_engine : string -> Z -> Z -> res unit).
Context (ref_case ref_crm ref_email ref_docstore : A) (ref_normaliser : N).

(** [app.state] *)
Record SidecarState := mk_SidecarState {
  sd_signing_key : string;
  sd_run_store : RunStoreBackend;
  sd_webhooks : AppState (W := W) }.

Record Process := mk_Process {
  ps_obs : Obs;
  ps_packs : PackRegistry;
  ps_engine : EngineConfig;
  ps_crypto : CryptoModule;
  ps_registry : Registry A N;
  ps_db : option DbConfig;
  ps_app : option SidecarState }.

Definition PM (X : Type) : Type := M (sys Process W) X.

Definition set_obs (x : Obs) (p : Process) : Process :=
  mk_Process x (ps_packs p) (ps_engine p) (ps_crypto p) (ps_registry p) (ps_db p) (ps_app p).
Definition set_pack_registry (x : PackRegistry) (p : Process) : Process :=
  mk_Process (ps_obs p) x (ps_engine p) (ps_crypto p) (ps_registry p) (ps_db p) (ps_app p).
Definition set_engine (x : EngineConfig) (p : Process) : Process :=
  mk_Process (ps_obs p) (ps_packs p) x (ps_crypto p) (ps_registry p) (ps_db p) (ps_app p).
Definition set_crypto (x : CryptoModule) (p : Process) : Process :=
  mk_Process (ps_obs p) (ps_packs p) (ps_engine p) x (ps_registry p) (ps_db p) (ps_app p).
Definition set_registry (x : Registry A N) (p : Process) : Process :=
  mk_Process (ps_obs p) (ps_packs p) (ps_engine p) (ps_crypto p) x (ps_db p) (ps_app p).
Definition set_db (x : option DbConfig) (p : Process) : Process :=
  mk_Process (ps_obs p) (ps_packs p) (ps_engine p) (ps_crypto p) (ps_registry p) x (ps_app p).
Definition set_app (x : option SidecarState) (p : Process) : Process :=
  mk_Process (ps_obs p) (ps_packs p) (ps_engine p) (ps_crypto p) (ps_registry p) (ps_db p) x.

Definition on_obs {X} (m : M Obs X) : PM X := on_store (zoom ps_obs set_obs m).
Definition on_packs {X} (m : M PackRegistry X) : PM X := on_store (zoom ps_packs set_pack_registry m).
Definition on_engine {X} (m : M EngineConfig X) : PM X := on_store (zoom ps_engine set_engine m).
Definition on_crypto {X} (m : M CryptoModule X) : PM X := on_store (zoom ps_crypto set_crypto m).
Definition on_registry {X} (m : M (Registry A N) X) : PM X := on_store (zoom ps_registry set_registry m).

(** uow.py: [configure_db] and [get_session_factory]. *)
Definition configure_db (url : string) (pool_size max_overflow : Z) : PM unit :=
  lift_res (create_engine url pool_size max_overflow) ;;
  on_store (modify (set_db (Some (mk_DbConfig url pool_size max_overflow)))).

Definition get_session_factory : PM DbConfig :=
  let! db := on_store (gets ps_db) in
  lift_res (or_raise (RuntimeError "Database not configured.  Call configure_db() at startup.") db).

(** connectors/reference/__init__.py *)
Definition register_reference_adapters : M (Registry A N) unit :=
  register_connector "reference"
    (mk_Entry (Some ref_case) (Some ref_crm) (Some ref_email) (Some ref_docstore) (Some ref_normaliser) None).

(** [loader.get_secret(name)] of a loader built for the call. *)
Definition fetch_secret (st : Settings) (name : string) : PM string :=
  let! loader := lift_res (build_secret_loader st) in
  on_world (fun w =>
    let '(s', r) := get_secret json_dumps float_str environ run_sops yaml_load json_load loader name (mk_sys None w 0%nat 0%nat) in
    (sys_world s', r)).

(** [settings] is what [Settings.model_validate({})] gives, at every step. *)
Context (settings : res Settings).

Definition configure_signals : PM unit :=
  let! _ := lift_res settings in on_obs (configure_observability compile_other []).

Definition select_domain_pack : PM unit :=
  let! st := lift_res settings in
  let! pack := on_packs (activate_configured_pack (st_domain_pack st)) in
  let! packs := on_store (gets ps_packs) in
  let! _ := on_engine (apply_pack (Some (po_pack pack)) packs) in
  on_obs (configure_pii_patterns compile_other None packs).

Definition binascii_error : exn := OtherError "Error" "Incorrect padding".

Definition load_kek : PM string :=
  let! st := lift_res settings in
  let! kek_b64 := fetch_secret st (st_encryption_kek_secret_name st) in
  lift_res (or_raise binascii_error (b64decode kek_b64)).

Definition init_crypto : PM unit :=
  let! kek := load_kek in
  on_crypto (Crypto.configure_crypto kek None).

Definition init_database : PM unit :=
  let! st := lift_res settings in
  configure_db (st_database_url st) (st_database_pool_size st) (st_database_max_overflow st).

Definition choose_run_store : PM RunStoreBackend :=
  try_except (let! _ := lift_res settings in let! _ := get_session_factory in ret PostgresBackend)
    (fun _ => ret InMemoryBackend).

(** [_NoopTriggerSink.enqueue] *)
Definition noop_enqueue (event : Event) : M W string := ret "noop".

(** The application as it is when [lifespan] yields. *)
Definition lifespan : PM unit :=
  try_pass configure_signals ;;
  try_pass select_domain_pack ;;
  try_pass init_crypto ;;
  try_pass (on_registry register_reference_adapters) ;;
  try_pass init_database ;;
  let! run_store := choose_run_store in
  on_store (modify (set_app (Some (mk_SidecarState (signing_key_of environ) run_store
    (mk_AppState [] false (Some noop_enqueue)))))).

(** [GET /health] *)
Definition health : json := JDict [("status", JStr "ok"); ("service", JStr "cam-sidecar")].

(** ** What startup leaves

    Each step changes its own part of the process, or nothing. *)

(** The pack that becomes active, if any. *)
Definition pack_choice (packs : PackRegistry) : option PackObj :=
  match settings with
  | Ok st => match snd (activate_configured_pack (st_domain_pack st) packs) with Ok o => Some o | Err _ => None end
  | Err _ => None
  end.

(** Packs, configuration and patterns agree with the choice. *)
Definition packs_ready (p p' : Process) : Prop :=
  match pack_choice (ps_packs p) with
  | Some o =>
      pk_active (ps_packs p') = Some o /\ pack_ok (po_pack o) /\
      ps_engine p' = mk_EngineConfig (intake_config_of (po_pack o)) (routing_config_of (po_pack o)) /\
      ob_patterns (ps_obs p') = map (compile compile_other) (pii_patterns_of (po_pack o))
  | None =>
      pk_active (ps_packs p') = pk_active (ps_packs p) /\ ps_engine p' = ps_engine p /\
      ob_patterns (ps_obs p') = ob_patterns (ps_obs p)
  end.

Lemma signals_step (s : sys Process W) :
  exists o, try_pass configure_signals s = (set_store (set_obs o (sys_store s)) s, Ok tt) /\
    ob_patterns o = ob_patterns (ps_obs (sys_store s)).
Proof.
  destruct s as [p w ti u], p as [ob pk eg cr rg db ap]. unfold try_pass, configure_signals, bind, lift_res.
  destruct settings as [st|e]; [|by exists ob].
  unfold on_obs, on_store, zoom, configure_observability, modify. cbn. destruct (ob_configured ob); [by exists ob|].
  eexists. split; [reflexivity|]. cbn. by rewrite app_nil_r.
Qed.

Lemma packs_step (s : sys Process W) :
  exists o pk eg, let p' := set_obs o (set_engine eg (set_pack_registry pk (sys_store s))) in
    try_pass select_domain_pack s = (set_store p' s, Ok tt) /\ packs_ready (sys_store s) p'.
Proof.
  destruct s as [p w ti u], p as [ob pk eg cr rg db ap]. unfold try_pass, select_domain_pack, packs_ready, pack_choice.
  destruct settings as [st|e]; [|by exists ob, pk, eg]. cbn [sys_store ps_packs].
  unfold bind, lift_res, on_packs at 1, on_store, zoom. cbn [sys_store ps_packs].
  pose proof (activate_spec (st_domain_pack st) pk) as Ha.
  destruct (activate_configured_pack (st_domain_pack st) pk) as [pk' [o|e]]; cbn [snd].
  - destruct Ha as [Hact Hok]. cbn. unfold on_engine, on_store, zoom. cbn -[apply_pack]. rewrite apply_pack_total.
    cbn. unfold on_obs, on_store, zoom, configure_pii_patterns, active_pii_patterns, get_active_pack. cbn.
    rewrite Hact. cbn. by exists (mk_Obs (map (compile compile_other) (pii_patterns_of (po_pack o))) (ob_redactions ob) (ob_run_id ob)
      (ob_configured ob)), pk', (mk_EngineConfig (intake_config_of (po_pack o)) (routing_config_of (po_pack o))).
  - by exists ob, pk', eg.
Qed.

Lemma load_kek_world (s : sys Process W) : exists w, fst (load_kek s) = set_world w s.
Proof.
  assert (forall s : sys Process W, exists w, s = set_world w s) as Hid by (intros [p w ti u]; by exists w).
  unfold load_kek, fetch_secret, bind, lift_res. destruct settings as [st|e]; [|apply Hid].
  destruct (build_secret_loader st) as [l|e]; [|apply Hid]. unfold on_world, zoom.
  destruct (get_secret _ _ _ _ _ _ _ _ _) as [s1 [v|e]]; cbn; by eexists.
Qed.

(** The service startup installs, if the key can be had and has the right length. *)
Definition crypto_ready (s : sys Process W) (cm : CryptoModule) : Prop :=
  match snd (load_kek s) with
  | Ok kek => if Nat.eqb (String.length kek) _KEY_SIZE
              then cm_service cm = Some (mk_CryptoService kek None) else cm = ps_crypto (sys_store s)
  | Err _ => cm = ps_crypto (sys_store s)
  end.

Lemma crypto_step (s : sys Process W) :
  exists cm w, try_pass init_crypto s = (set_world w (set_store (set_crypto cm (sys_store s)) s), Ok tt) /\
    crypto_ready s cm.
Proof.
  unfold try_pass, init_crypto, bind, crypto_ready. destruct (load_kek_world s) as [w Hw].
  destruct (load_kek s) as [s1 r]. cbn [fst snd] in *. subst s1. destruct s as [p w0 ti u], p as [ob pk eg cr rg db ap].
  destruct r as [kek|e]; [|by exists cr, w]. unfold on_crypto, on_store, zoom. cbn.
  unfold Crypto.configure_crypto, new_service. destruct (Nat.eqb _ _); [|by exists cr, w]. by eexists _, w.
Qed.

(** The database is configured when its address makes an engine. *)
Definition db_after (p : Process) : option DbConfig :=
  match settings with
  | Ok st => match create_engine (st_database_url st) (st_database_pool_size st) (st_database_max_overflow st) with
             | Ok _ => Some (mk_DbConfig (st_database_url st) (st_database_pool_size st) (st_database_max_overflow st))
             | Err _ => ps_db p
             end
  | Err _ => ps_db p
  end.

Lemma database_step (s : sys Process W) :
  try_pass init_database s = (set_store (set_db (db_after (sys_store s)) (sys_store s)) s, Ok tt).
Proof.
  destruct s as [p w ti u], p as [ob pk eg cr rg db ap].
  unfold try_pass, init_database, db_after, bind, lift_res. destruct settings as [st|e]; [|done].
  unfold configure_db, bind, lift_res. by destruct (create_engine _ _ _).
Qed.

Definition run_store_after (p : Process) : RunStoreBackend :=
  match settings, ps_db p with Ok _, Some _ => PostgresBackend | _, _ => InMemoryBackend end.

Lemma run_store_step (s : sys Process W) : choose_run_store s = (s, Ok (run_store_after (sys_store s))).
Proof.
  destruct s as [p w ti u], p as [ob pk eg cr rg db ap].
  unfold choose_run_store, try_except, bind, lift_res, get_session_factory, run_store_after.
  destruct settings as [st|e]; [|done]. by destruct db.
Qed.

(** Startup always ends with an application that serves.  Whatever settings,
    secrets, packs, database and registry are like, no failure of a step stops
    the next one: the application has the signing key of the environment, a run
    store (PostgreSQL exactly when the settings load and a database is
    configured) and the reference connector; a pack that can be activated is
    active, was validated, and intake, routing and redaction follow it, and
    otherwise pack, configuration and redaction are as they were; the key from
    the secret store, if it can be had and is 32 bytes long, encrypts. *)
Lemma startup_always_serves (s : sys Process W) :
  exists s' app, lifespan s = (s', Ok tt) /\ ps_app (sys_store s') = Some app /\
    app = mk_SidecarState (signing_key_of environ)
            (match settings, db_after (sys_store s) with Ok _, Some _ => PostgresBackend | _, _ => InMemoryBackend end)
            (mk_AppState [] false (Some noop_enqueue)) /\
    ps_db (sys_store s') = db_after (sys_store s) /\
    packs_ready (sys_store s) (sys_store s') /\
    en_normaliser (entry_of "reference" (ps_registry (sys_store s'))) = Some ref_normaliser /\
    exists s1, sys_world s1 = sys_world s /\ crypto_ready s1 (ps_crypto (sys_store s')) /\
      ps_crypto (sys_store s1) = ps_crypto (sys_store s).
Proof.
  destruct (signals_step s) as (o1 & E1 & H1). set (s1 := set_store _ s) in E1.
  destruct (packs_step s1) as (o2 & pk & eg & E2 & H2). cbv zeta in E2, H2. set (s2 := set_store _ s1) in E2.
  destruct (crypto_step s2) as (cm & w & E3 & H3). set (s3 := set_world w _) in E3.
  set (s4 := fst (try_pass (on_registry register_reference_adapters) s3)).
  assert (try_pass (on_registry register_reference_adapters) s3 = (s4, Ok tt)) as E4 by done.
  pose proof (database_step s4) as E5. set (s5 := set_store _ s4) in E5. pose proof (run_store_step s5) as E6.
  eexists _, _. unfold lifespan.
  rewrite (bind_ok_eq _ _ _ _ _ E1), (bind_ok_eq _ _ _ _ _ E2), (bind_ok_eq _ _ _ _ _ E3), (bind_ok_eq _ _ _ _ _ E4),
    (bind_ok_eq _ _ _ _ _ E5), (bind_ok_eq _ _ _ _ _ E6).
  split; [reflexivity|]. split; [reflexivity|]. split; [done|]. split; [done|]. split; [|split; [|exists s2; done]].
  - revert H2. unfold packs_ready, s1. cbn -[activate_configured_pack]. destruct (pack_choice _); [done|].
    intros (? & ? & H). by rewrite H, H1.
  - unfold entry_of. cbn. by rewrite dget_dset_eq.
Qed.

End Startup.

(** ** Consequences *)

(** No redis client is set at startup, so the route turns every delivery away
    before it is looked at, and nothing changes. *)
Lemma webhooks_refused {A R W : Type} `{RedisOps R} (clock : nat -> datetime) (hmac_hex : string -> string -> string)
    (json_loads : string -> option json) (py_float : string -> option pyfloat) (sink : option (Event -> M W string))
    (g : Registry A (string -> json -> M (sys R W) (option Event))) c raw headers (s : sys R W) :
  exists code, ingest_webhook clock hmac_hex json_loads py_float g (mk_AppState [] false sink) c raw headers s = (s, Ok code) /\
    (code = 404 \/ code = 413 \/ code = 503).
Proof.
  unfold ingest_webhook. case_match; [exists 404; split; [done|by auto]|].
  case_match; [exists 413; split; [done|by auto]|]. exists 503; split; [done|by auto].
Qed.

(** When the key is not in the environment (it may be in a vault or a SOPS file,
    where step 2 looks for it), approval tokens are signed with 32 zero bytes:
    anybody can make a token for any claims, and it verifies. *)
Lemma unset_key_forgeable (sign : string -> string -> string) (json_dumps_sorted : json -> string)
    (json_loads : string -> option json) (environ : dict string string) payload :
  dget "CAM_ENCRYPTION_KEK" environ = None ->
  is_ascii (sign ZERO_KEY (b64 (json_dumps_sorted payload))) = true ->
  json_loads (json_dumps_sorted payload) = Some payload ->
  verify_token sign json_loads (raw_token_of sign json_dumps_sorted ZERO_KEY payload) (signing_key_of environ) = Ok (inl payload).
Proof.
  intros He Ha Hj. unfold signing_key_of. rewrite He. apply verify_token_accepts. eexists.
  split; [apply b64_no_dot|]. split; [reflexivity|]. split; [done|]. by rewrite decode_payload_b64.
Qed.

(** ** pack_inspector.py *)

(** The response: a body, or the status and the detail of an [HTTPException]. *)
Definition Response : Type := (json + Z * json)%type.

Definition active_name (s : PackRegistry) : option string :=
  match get_active_pack s with Ok o => Some (dp_name (po_pack o)) | Err _ => None end.

Definition is_active_name (s : PackRegistry) (name : string) : bool :=
  match active_name s with Some n => String.eqb n name | None => false end.

(** A pack has no attribute [description]. *)
Definition list_entry (s : PackRegistry) (p : DomainPack) : json :=
  JDict [("name", JStr (dp_name p)); ("version", JStr (dp_version p)); ("description", JStr EmptyString);
         ("is_active", JBool (is_active_name s (dp_name p)))].

Definition list_packs (s : PackRegistry) : json :=
  JDict [("packs", JList (flat_map (fun name =>
    match dget name (pk_registry s) with Some o => [list_entry s (po_pack o)] | None => [] end)
    (list_registered_pack_names s)))].

Definition serialize_terminology (p : DomainPack) : json :=
  let t := dp_terminology p in
  JDict [("matter", JStr (tm_matter t)); ("matter_plural", JStr (tm_matter_plural t)); ("contact", JStr (tm_contact t));
         ("contact_plural", JStr (tm_contact_plural t)); ("deadline", JStr (tm_deadline t)); ("document", JStr (tm_document t));
         ("restriction_label", JStr (tm_restriction_label t)); ("practice_noun", JStr (tm_practice_noun t))].

Definition serialize_case_types (p : DomainPack) : json :=
  JList (map (fun ct => JDict (("id", JStr (cc_case_type ct)) ::
    (if String.eqb (cc_case_type ct) (dp_default_case_type p) then [("default", JBool true)] else [])))
    (dvalues (dp_case_types p))).

Definition serialize_document_classes (p : DomainPack) : json := JList (map JStr (dp_document_classes p)).

Definition serialize_restriction (p : DomainPack) : json :=
  let r := dp_restriction p in
  JDict [("label", JStr (rp_label r)); ("default_restricted", JBool (rp_default_restricted r));
         ("extra_predicate_count", JInt (Z.of_nat (length (rp_extra_predicates r))))].

Definition serialize_pii (p : DomainPack) : json :=
  let pack_count := Z.of_nat (length (dp_pii_patterns p)) in
  JDict [("baseline_count", JInt (Z.of_nat (length ENGINE_PII_BASELINE))); ("pack_addition_count", JInt pack_count);
         ("addition_labels", JList (if 0 <? pack_count then [JStr "a_number"; JStr "passport"] else []));
         ("patterns_redacted", JBool true)].

Definition inspect_pack (s : PackRegistry) (name : string) : Response :=
  match dget name (pk_registry s) with
  | None =>
      inr (404, JDict [("error", JStr "pack_not_found"); ("requested", JStr name);
                       ("registered", JList (map JStr (list_registered_pack_names s)))])
  | Some o =>
      let p := po_pack o in
      inl (JDict [("name", JStr (dp_name p)); ("version", JStr (dp_version p));
        ("is_active", JBool (is_active_name s name)); ("terminology", serialize_terminology p);
        ("case_types", serialize_case_types p); ("default_case_type", JStr (dp_default_case_type p));
        ("deadline_rules_count", JInt (Z.of_nat (length (dp_deadline_rules p))));
        ("deadline_rule_ids", JList (map (fun r => JStr (dr_rule_id r)) (dp_deadline_rules p)));
        ("document_classes", serialize_document_classes p); ("restriction_policy", serialize_restriction p);
        ("rbac_roles", JList (map JStr (dkeys (dp_rbac_roles p)))); ("pii_patterns", serialize_pii p);
        ("feature_flags", JDict [])])
  end.

(** *** What the inspector cannot show *)

(** A pack without its expressions: how many redaction patterns there are is
    left, what they match, and how identifiers look, is not. *)
Definition redact_pack (p : DomainPack) : DomainPack :=
  mk_DomainPack (dp_name p) (dp_version p) (dp_terminology p) (dp_case_types p) (dp_default_case_type p) (dp_dedupe p)
    (dp_deadline_rules p) (dp_document_classes p) (dp_packet_kinds p) (dp_consistency_identifiers p) (dp_restriction p)
    (dp_rbac_roles p) (map (fun _ => EmptyString) (dp_pii_patterns p)) (dp_template_ids p) [] (dp_prefill_forms p)
    (dp_feature_flags p).

Definition redact_obj (o : PackObj) : PackObj := mk_PackObj (po_addr o) (redact_pack (po_pack o)).

Definition redact_registry (s : PackRegistry) : PackRegistry :=
  mk_PackRegistry (map (fun e => (e.1, redact_obj e.2)) (pk_registry s)) (option_map redact_obj (pk_active s)).

Lemma redacted_lookup s name : dget name (pk_registry (redact_registry s)) = option_map redact_obj (dget name (pk_registry s)).
Proof. apply dget_map. Qed.

Lemma redacted_active s : active_name (redact_registry s) = active_name s.
Proof. unfold active_name, get_active_pack, redact_registry. by destruct (pk_active s). Qed.

Lemma redacted_names s : list_registered_pack_names (redact_registry s) = list_registered_pack_names s.
Proof. unfold list_registered_pack_names, redact_registry, dkeys. cbn. by rewrite map_map. Qed.

Lemma redacted_is_active s name : is_active_name (redact_registry s) name = is_active_name s name.
Proof. unfold is_active_name. by rewrite redacted_active. Qed.

Lemma redacted_pii p : serialize_pii (redact_pack p) = serialize_pii p.
Proof. unfold serialize_pii. cbn [dp_pii_patterns redact_pack]. by rewrite length_map. Qed.

Lemma inspect_redacted s name : inspect_pack (redact_registry s) name = inspect_pack s name.
Proof.
  unfold inspect_pack. rewrite redacted_lookup, redacted_names.
  destruct (dget name (pk_registry s)) as [o|]; [|done]. cbn [option_map redact_obj po_pack].
  by rewrite redacted_is_active, redacted_pii.
Qed.

Lemma list_redacted s : list_packs (redact_registry s) = list_packs s.
Proof.
  unfold list_packs. rewrite redacted_names. do 4 f_equal. apply flat_map_ext. intros name.
  rewrite redacted_lookup. destruct (dget name (pk_registry s)); [|done]. cbn. unfold list_entry. cbn.
  by rewrite redacted_is_active.
Qed.

(** The inspector shows no expression.  Its answers depend on the redacted
    registry only: two processes whose packs differ in what they redact or in how
    they recognise identifiers give the same answers.  They are true as well:
    a name is answered with a pack exactly when it is registered, and a pack is
    shown as active exactly when it has the name of the active one. *)
Lemma inspector_redacts (s s' : PackRegistry) :
  (redact_registry s = redact_registry s' ->
     list_packs s = list_packs s' /\ forall name, inspect_pack s name = inspect_pack s' name) /\
  (forall name, dget name (pk_registry s) = None <-> exists d, inspect_pack s name = inr (404, d)) /\
  (forall name o, dget name (pk_registry s) = Some o ->
     exists d, inspect_pack s name = inl (JDict d) /\ dget "version" d = Some (JStr (dp_version (po_pack o))) /\
       exists b, dget "is_active" d = Some (JBool b) /\
         (b = true <-> exists a, pk_active s = Some a /\ dp_name (po_pack a) = name)).
Proof.
  split; [|split].
  - intros H. split; [by rewrite <- list_redacted, H, list_redacted|].
    intros name. by rewrite <- inspect_redacted, H, inspect_redacted.
  - intros name. unfold inspect_pack. destruct (dget name (pk_registry s)); [|by split; [eexists|]].
    split; [done|]. by intros [d ?].
  - intros name o Ho. unfold inspect_pack. rewrite Ho. eexists. split; [reflexivity|]. split; [reflexivity|].
    eexists. split; [reflexivity|]. unfold is_active_name, active_name, get_active_pack.
    destruct (pk_active s) as [a|]; cbn; [|naive_solver]. rewrite String.eqb_eq. naive_solver.
Qed.

(** ** Concrete processes *)

Definition ex_blank : Process (A := unit) (N := unit) (W := unit) :=
  mk_Process (initial_obs ex_other) empty_packs (mk_EngineConfig default_intake_config default_routing_config)
    (mk_CryptoModule None 0) [] None None.

Definition ex_with_pack (pack : option string) : Settings :=
  mk_Settings "postgresql+asyncpg://db" 10 20 "redis://r" "env" None None None None "CAM_ENCRYPTION_KEK" None "INFO"
    "case-automation-mcp" "us-east-1" pack [] true false [].

Definition ex_environ : dict string string := [("CAM_ENCRYPTION_KEK", b64encode ex_kek)].

Definition ex_startup (settings : res Settings) (environ : dict string string) : sys Process unit * res unit :=
  lifespan (AE := toy_aead) ex_other (fun _ => EmptyString) (fun _ => EmptyString) environ (fun _ _ => raise AssertionError)
    (fun _ => Err AssertionError) (fun _ => Err AssertionError) (fun _ _ _ => Ok tt) tt tt tt tt tt settings
    (mk_sys ex_blank tt 0%nat 0%nat).

Example startup_configured :
  let p := sys_store (fst (ex_startup (Ok (ex_with_pack (Some "consulting"))) ex_environ)) in
  option_map (fun o => dp_name (po_pack o)) (pk_active (ps_packs p)) = Some "consulting" /\
  cm_service (ps_crypto p) = Some (mk_CryptoService ex_kek None) /\
  option_map (fun a => (sd_signing_key a, sd_run_store a)) (ps_app p) = Some (ex_kek, PostgresBackend).
Proof. vm_compute. auto. Qed.

(** Without a pack, a secret or even settings the application is served all the
    same, with no pack active and the known signing key. *)
Example startup_fails_open :
  let r := ex_startup (Err (ValidationError "Settings")) [] in
  snd r = Ok tt /\ pk_active (ps_packs (sys_store (fst r))) = None /\ cm_service (ps_crypto (sys_store (fst r))) = None /\
  option_map (fun a => (sd_signing_key a, sd_run_store a)) (ps_app (sys_store (fst r))) = Some (ZERO_KEY, InMemoryBackend).
Proof. vm_compute. auto. Qed.

(** The key that encrypts the data is also the key that signs approvals. *)
Example one_key_for_both :
  let p := sys_store (fst (ex_startup (Ok (ex_with_pack None)) ex_environ)) in
  option_map cs_kek (cm_service (ps_crypto p)) = option_map sd_signing_key (ps_app p).
Proof. vm_compute. reflexivity. Qed.

Definition ex_patterned (patterns : list pattern) : DomainPack :=
  mk_DomainPack "tax" "1" (dp_terminology CONSULTING_PACK) (dp_case_types CONSULTING_PACK) (dp_default_case_type CONSULTING_PACK)
    (dp_dedupe CONSULTING_PACK) (dp_deadline_rules CONSULTING_PACK) (dp_document_classes CONSULTING_PACK)
    (dp_packet_kinds CONSULTING_PACK) (dp_consistency_identifiers CONSULTING_PACK) (dp_restriction CONSULTING_PACK)
    (dp_rbac_roles CONSULTING_PACK) patterns (dp_template_ids CONSULTING_PACK) [] [] [("beta", true)].

Definition ex_registry (patterns : list pattern) : PackRegistry :=
  mk_PackRegistry [("tax", mk_PackObj 7 (ex_patterned patterns))] (Some (mk_PackObj 7 (ex_patterned patterns))).

Lemma inspector_redacts_witness :
  redact_registry (ex_registry ["\bEIN\d+\b"]) = redact_registry (ex_registry ["\bVAT\d+\b"]) /\
  inspect_pack (ex_registry ["\bEIN\d+\b"]) "tax" = inspect_pack (ex_registry ["\bVAT\d+\b"]) "tax" /\
  exists d, inspect_pack (ex_registry ["\bEIN\d+\b"]) "none" = inr (404, d).
Proof.
  assert (redact_registry (ex_registry ["\bEIN\d+\b"]) = redact_registry (ex_registry ["\bVAT\d+\b"])) as H by reflexivity.
  split; [exact H|]. split.
  - exact (proj2 (proj1 (inspector_redacts (ex_registry ["\bEIN\d+\b"]) (ex_registry ["\bVAT\d+\b"])) H) "tax").
  - apply (proj1 (proj1 (proj2 (inspector_redacts (ex_registry ["\bEIN\d+\b"]) (ex_registry []))) "none")). reflexivity.
Defined.

(** The labels of the added patterns are the immigration pack's for every pack,
    and no feature flag is shown. *)
Example labels_of_another_pack :
  match inspect_pack (ex_registry ["\bEIN\d+\b"]) "tax" with
  | inl (JDict d) =>
      dget "feature_flags" d = Some (JDict []) /\
      match dget "pii_patterns" d with
      | Some (JDict pii) => dget "addition_labels" pii = Some (JList [JStr "a_number"; JStr "passport"])
      | _ => False
      end
  | _ => False
  end.
Proof. vm_compute. auto. Qed.
