(* ===== verification/Metrics.v ===== *)
(** * Metrics: core/orchestrator/metrics.py

    The eight Prometheus metrics of the orchestrator.  The module-level variables
    are the names of the metrics created so far; the client library is an
    interface with the laws of its counters and gauges.  Recording must never
    disturb the workflow: every failure is swallowed. *)

From Stdlib Require Import ZArith Lia Ascii String List QArith.
From stdpp Require Import base list strings.
From S2P Require Import Prelude PyTime ConnErrors Effects.

Open Scope string_scope.
Open Scope list_scope.
Open Scope Z_scope.
Open Scope cam_scope.

(** ** The client library *)

(** Creating a metric under a name that is taken raises; a sample is found by the
    metric's name and the values of its labels. *)
Class PromClient (W : Type) := {
  pm_create : string -> M W unit;
  pm_add : string -> list string -> Z -> M W unit;
  pm_observe : string -> list string -> Q -> M W unit;
  pm_registered : W -> list string;
  pm_value : W -> string -> list string -> Z }.

Class PromLaws (W : Type) `{PromClient W} := {
  create_new n w : n ∉ pm_registered w ->
    exists w', pm_create n w = (w', Ok tt) /\ pm_registered w' = n :: pm_registered w /\ pm_value w' = pm_value w;
  add_ok n l d w : n ∈ pm_registered w ->
    exists w', pm_add n l d w = (w', Ok tt) /\ pm_registered w' = pm_registered w /\
      forall n' l', pm_value w' n' l' = pm_value w n' l' + (if decide ((n', l') = (n, l)) then d else 0);
  observe_ok n l x w : n ∈ pm_registered w ->
    exists w', pm_observe n l x w = (w', Ok tt) /\ pm_registered w' = pm_registered w /\ pm_value w' = pm_value w }.

(** ** The module *)

Definition RUNS_TOTAL : string := "cam_workflow_runs_total".
Definition STEP_RETRIES : string := "cam_workflow_step_retries_total".
Definition GATE_DWELL : string := "cam_workflow_gate_dwell_seconds".
Definition PARKED_BACKLOG : string := "cam_workflow_parked_backlog".
Definition APPROVAL_DECISIONS : string := "cam_workflow_approval_decisions_total".
Definition IDEM_SHORT_CIRCUITS : string := "cam_workflow_idempotency_short_circuits_total".
Definition RESUME_RECOVERIES : string := "cam_workflow_resume_recoveries_total".
Definition TOKEN_FAILURES : string := "cam_workflow_token_verify_failures_total".

(** In the order of creation. *)
Definition METRICS : list string :=
  [RUNS_TOTAL; STEP_RETRIES; GATE_DWELL; PARKED_BACKLOG; APPROVAL_DECISIONS; IDEM_SHORT_CIRCUITS; RESUME_RECOVERIES;
   TOKEN_FAILURES].

Section Metrics.
Context {W : Type} `{PromClient W}.

(** The variables that are not [None]. *)
Definition MM (A : Type) : Type := M (sys (list string) W) A.

Definition assigned (name : string) (made : list string) : bool := existsb (String.eqb name) made.

Definition create_metric (name : string) : MM unit :=
  on_world (pm_create name) ;; on_store (modify (fun made => made ++ [name])).

Definition init_metrics : MM unit :=
  try_pass (let! made := on_store (gets id) in
            if assigned RUNS_TOTAL made then ret tt else for_each METRICS create_metric).

(** A method of a variable that is [None] raises. *)
Definition with_metric (name : string) (use : M W unit) : MM unit :=
  let! made := on_store (gets id) in
  if assigned name made then on_world use else raise (AttributeError "'NoneType' object has no attribute 'labels'").

Definition record_run_status (workflow status : string) : MM unit :=
  init_metrics ;;
  try_pass (with_metric RUNS_TOTAL (pm_add RUNS_TOTAL [workflow; status] 1) ;;
            if String.eqb status "parked" then with_metric PARKED_BACKLOG (pm_add PARKED_BACKLOG [] 1)
            else if String.eqb status "succeeded" then with_metric PARKED_BACKLOG (pm_add PARKED_BACKLOG [] (-1))
            else ret tt).

Definition record_step_retry (workflow step : string) : MM unit :=
  init_metrics ;; try_pass (with_metric STEP_RETRIES (pm_add STEP_RETRIES [workflow; step] 1)).

Definition record_gate_dwell (workflow : string) (dwell_seconds : Q) : MM unit :=
  init_metrics ;; try_pass (with_metric GATE_DWELL (pm_observe GATE_DWELL [workflow] dwell_seconds)).

Definition record_approval_decision (channel decision : string) : MM unit :=
  init_metrics ;; try_pass (with_metric APPROVAL_DECISIONS (pm_add APPROVAL_DECISIONS [channel; decision] 1)).

Definition record_token_verify_failure (reason : string) : MM unit :=
  init_metrics ;; try_pass (with_metric TOKEN_FAILURES (pm_add TOKEN_FAILURES [reason] 1)).

Definition record_idem_short_circuit : MM unit :=
  init_metrics ;; try_pass (with_metric IDEM_SHORT_CIRCUITS (pm_add IDEM_SHORT_CIRCUITS [] 1)).

Definition record_resume_recovery : MM unit :=
  init_metrics ;; try_pass (with_metric RESUME_RECOVERIES (pm_add RESUME_RECOVERIES [] 1)).

End Metrics.

(** ** What is counted *)

Inductive Report :=
| RpRun (workflow status : string)
| RpRetry (workflow step : string)
| RpDwell (workflow : string) (seconds : Q)
| RpDecision (channel decision : string)
| RpTokenFailure (reason : string)
| RpShortCircuit
| RpRecovery.

(** The samples a report changes, and by how much. *)
Definition increments (r : Report) : list (string * list string * Z) :=
  match r with
  | RpRun wf st => (RUNS_TOTAL, [wf; st], 1) ::
      (if String.eqb st "parked" then [(PARKED_BACKLOG, [], 1)]
       else if String.eqb st "succeeded" then [(PARKED_BACKLOG, [], -1)] else [])
  | RpRetry wf step => [(STEP_RETRIES, [wf; step], 1)]
  | RpDwell _ _ => []
  | RpDecision ch d => [(APPROVAL_DECISIONS, [ch; d], 1)]
  | RpTokenFailure why => [(TOKEN_FAILURES, [why], 1)]
  | RpShortCircuit => [(IDEM_SHORT_CIRCUITS, [], 1)]
  | RpRecovery => [(RESUME_RECOVERIES, [], 1)]
  end.

Fixpoint total (n : string) (l : list string) (incs : list (string * list string * Z)) : Z :=
  match incs with
  | [] => 0
  | (n', l', d) :: incs' => (if decide ((n, l) = (n', l')) then d else 0) + total n l incs'
  end.

Lemma total_app n l a b : total n l (a ++ b) = total n l a + total n l b.
Proof. induction a as [|[[n' l'] d] a IH]; cbn; [done|]. rewrite IH. lia. Qed.

Section Counting.
Context {W : Type} {PC : PromClient W}.

Definition report (r : Report) : MM (W := W) unit :=
  match r with
  | RpRun wf st => record_run_status wf st
  | RpRetry wf step => record_step_retry wf step
  | RpDwell wf q => record_gate_dwell wf q
  | RpDecision ch d => record_approval_decision ch d
  | RpTokenFailure why => record_token_verify_failure why
  | RpShortCircuit => record_idem_short_circuit
  | RpRecovery => record_resume_recovery
  end.

Lemma try_pass_total {S A} (m : M S A) s : exists s', try_pass m s = (s', Ok tt).
Proof. unfold try_pass. destruct (m s). by eexists. Qed.

(** Whatever the client library does, reporting returns. *)
Lemma report_total (r : Report) (s : sys (list string) W) : exists s', report r s = (s', Ok tt).
Proof.
  destruct (try_pass_total (let! made := on_store (gets id) in
    if assigned RUNS_TOTAL made then ret tt else for_each METRICS create_metric) s) as [s1 E].
  destruct r; unfold report, record_run_status, record_step_retry, record_gate_dwell, record_approval_decision,
    record_token_verify_failure, record_idem_short_circuit, record_resume_recovery;
    rewrite (bind_ok_eq init_metrics _ _ _ _ E); apply try_pass_total.
Qed.

Context {PL : PromLaws W}.

(** Either nothing is created yet, and no name is taken, or everything is. *)
Definition metrics_inv (s : sys (list string) W) : Prop :=
  (sys_store s = [] /\ forall n, n ∈ METRICS -> n ∉ pm_registered (sys_world s)) \/
  (sys_store s = METRICS /\ forall n, n ∈ METRICS -> n ∈ pm_registered (sys_world s)).

Lemma create_all (l made : list string) (w : W) ti u :
  NoDup l -> (forall n, n ∈ l -> n ∉ pm_registered w) ->
  exists w', for_each l create_metric (mk_sys made w ti u) = (mk_sys (made ++ l) w' ti u, Ok tt) /\
    pm_value w' = pm_value w /\ forall n, n ∈ l \/ n ∈ pm_registered w -> n ∈ pm_registered w'.
Proof.
  revert made w. induction l as [|n l IH]; intros made w Hnd Hno.
  { exists w. rewrite app_nil_r. repeat split; try done. by intros n [?%elem_of_nil|]. }
  apply NoDup_cons in Hnd as [Hni Hnd].
  destruct (create_new n w) as (w1 & E & Hr & Hv); [apply Hno; by left|].
  destruct (IH (made ++ [n]) w1) as (w2 & E2 & Hv2 & Hr2); [done| |].
  { intros m Hm. rewrite Hr, not_elem_of_cons. split; [by intros ->|]. apply Hno. by right. }
  assert (create_metric n (mk_sys made w ti u) = (mk_sys (made ++ [n]) w1 ti u, Ok tt)) as E1.
  { unfold create_metric, bind, on_world, on_store, zoom. cbn. by rewrite E. }
  exists w2. cbn [for_each]. rewrite (bind_ok_eq _ _ _ _ _ E1), E2, <- app_assoc. repeat split; [congruence|]. intros m Hm. apply Hr2. rewrite Hr, elem_of_cons.
  destruct Hm as [[->|]%elem_of_cons|]; auto.
Qed.

Lemma METRICS_nodup : NoDup METRICS.
Proof. apply (bool_decide_unpack (NoDup METRICS)). vm_compute. exact I. Qed.

Lemma init_ready (s : sys (list string) W) : metrics_inv s ->
  exists s1, init_metrics s = (s1, Ok tt) /\ sys_store s1 = METRICS /\
    (forall n, n ∈ METRICS -> n ∈ pm_registered (sys_world s1)) /\ pm_value (sys_world s1) = pm_value (sys_world s).
Proof.
  destruct s as [made w ti u]. unfold metrics_inv. cbn [sys_store sys_world]. intros [[-> Hno]|[-> Hyes]].
  - destruct (create_all METRICS [] w ti u METRICS_nodup Hno) as (w' & E & Hv & Hr).
    exists (mk_sys METRICS w' ti u). split; [|split; [done|split; [|done]]].
    + unfold init_metrics, try_pass.
      match goal with |- context [bind ?m ?k ?s] => change (bind m k s) with (for_each METRICS create_metric s) end.
      by rewrite E.
    + intros n Hn. apply Hr. by left.
  - by exists (mk_sys METRICS w ti u).
Qed.

Lemma assigned_in n : n ∈ METRICS -> assigned n METRICS = true.
Proof. intros Hn. apply existsb_exists. exists n. split; [by apply list_elem_of_In|apply String.eqb_refl]. Qed.

Lemma use_metric n l d (s : sys (list string) W) :
  n ∈ METRICS -> sys_store s = METRICS -> n ∈ pm_registered (sys_world s) ->
  exists w, with_metric n (pm_add n l d) s = (set_world w s, Ok tt) /\ pm_registered w = pm_registered (sys_world s) /\
    forall n' l', pm_value w n' l' = pm_value (sys_world s) n' l' + (if decide ((n', l') = (n, l)) then d else 0).
Proof.
  destruct s as [made w ti u]. cbn [sys_store sys_world]. intros Hn -> Hr.
  destruct (add_ok n l d w Hr) as (w' & E & Hreg & Hv). exists w'. split; [|done].
  unfold with_metric, bind, on_store, on_world, zoom, gets. cbn -[METRICS assigned].
  rewrite assigned_in by done. cbn. by rewrite E.
Qed.

(** A use of a metric in the state initialisation leaves. *)
Lemma guarded_use n l d (s : sys (list string) W) :
  sys_store s = METRICS -> (forall m, m ∈ METRICS -> m ∈ pm_registered (sys_world s)) -> n ∈ METRICS ->
  exists w, let s' := set_world w s in with_metric n (pm_add n l d) s = (s', Ok tt) /\ sys_store s' = METRICS /\
    (forall m, m ∈ METRICS -> m ∈ pm_registered (sys_world s')) /\
    forall n' l', pm_value (sys_world s') n' l' = pm_value (sys_world s) n' l' + total n' l' [(n, l, d)].
Proof.
  intros Hst Hreg Hn. destruct (use_metric n l d s Hn Hst (Hreg n Hn)) as (w & E & Hr & Hv). exists w.
  split; [done|]. split; [done|]. split; [intros m Hm; cbn; rewrite Hr; by apply Hreg|].
  intros n' l'. cbn. rewrite Hv. lia.
Qed.

Lemma in_metrics n : bool_decide (n ∈ METRICS) = true -> n ∈ METRICS.
Proof. intros H. by apply bool_decide_eq_true_1 in H. Qed.

(** One report: it returns, and its increments are made. *)
Lemma report_counted (r : Report) (s : sys (list string) W) : metrics_inv s ->
  exists s', report r s = (s', Ok tt) /\ metrics_inv s' /\
    forall n l, pm_value (sys_world s') n l = pm_value (sys_world s) n l + total n l (increments r).
Proof.
  intros Hinv. destruct (init_ready s Hinv) as (s0 & E0 & Hst & Hreg & Hv).
  assert (forall n l d, n ∈ METRICS -> exists s', (init_metrics ;; try_pass (with_metric n (pm_add n l d))) s = (s', Ok tt) /\
    metrics_inv s' /\ forall n' l', pm_value (sys_world s') n' l' = pm_value (sys_world s) n' l' + total n' l' [(n, l, d)]) as Hone.
  { intros n l d Hn. destruct (guarded_use n l d s0 Hst Hreg Hn) as (w & E & Hs & Hr & Hw). exists (set_world w s0).
    rewrite (bind_ok_eq _ _ _ _ _ E0). unfold try_pass. rewrite E. split; [done|]. split; [by right|].
    intros n' l'. by rewrite Hw, Hv. }
  destruct r as [wf st|wf step|wf q|ch d|why| |]; try by apply Hone, in_metrics.
  - unfold report, record_run_status. rewrite (bind_ok_eq _ _ _ _ _ E0). unfold try_pass.
    destruct (guarded_use RUNS_TOTAL [wf; st] 1 s0 Hst Hreg) as (w & E & Hs & Hr & Hw); [by apply in_metrics|].
    rewrite (bind_ok_eq _ _ _ _ _ E). unfold increments. rewrite Hv in Hw.
    assert (PARKED_BACKLOG ∈ METRICS) as Hp by by apply in_metrics.
    destruct (String.eqb st "parked"); [|destruct (String.eqb st "succeeded")].
    + destruct (guarded_use PARKED_BACKLOG [] 1 (set_world w s0) Hs Hr Hp) as (w' & E' & Hs' & Hr' & Hw').
      rewrite E'. eexists. split; [reflexivity|]. split; [by right|]. intros n l. rewrite Hw', Hw. cbn. lia.
    + destruct (guarded_use PARKED_BACKLOG [] (-1) (set_world w s0) Hs Hr Hp) as (w' & E' & Hs' & Hr' & Hw').
      rewrite E'. eexists. split; [reflexivity|]. split; [by right|]. intros n l. rewrite Hw', Hw. cbn. lia.
    + eexists. split; [reflexivity|]. split; [by right|]. apply Hw.
  - unfold report, record_gate_dwell. rewrite (bind_ok_eq _ _ _ _ _ E0). destruct s0 as [made w ti u]. cbn in Hst. subst made.
    destruct (observe_ok GATE_DWELL [wf] q w) as (w' & E & Hr & Hw); [by apply Hreg, in_metrics|].
    exists (mk_sys METRICS w' ti u). unfold try_pass, with_metric, bind, on_store, on_world, zoom, gets. cbn -[METRICS assigned].
    rewrite assigned_in by by apply in_metrics. cbn -[METRICS]. rewrite E. split; [done|].
    split; [right; split; [done|]; intros m Hm; cbn; rewrite Hr; by apply Hreg|]. intros n l. cbn in *. rewrite Hw, Hv. lia.
Qed.

(** Reports are counted exactly: from a fresh module every report returns, and
    each sample changes by the sum of what the reports say of it; in particular
    the backlog is the number of runs reported parked less the number of runs
    reported succeeded, parked before or not. *)
Lemma reports_counted (rs : list Report) (s : sys (list string) W) :
  metrics_inv s ->
  exists s', for_each rs report s = (s', Ok tt) /\ metrics_inv s' /\
    forall n l, pm_value (sys_world s') n l = pm_value (sys_world s) n l + total n l (flat_map increments rs).
Proof.
  revert s. induction rs as [|r rs IH]; intros s Hinv; [exists s; repeat split; [done|cbn; lia]|].
  destruct (report_counted r s Hinv) as (s1 & E1 & Hinv1 & Hv1). destruct (IH s1 Hinv1) as (s2 & E2 & Hinv2 & Hv2).
  exists s2. cbn [for_each flat_map]. rewrite (bind_ok_eq _ _ _ _ _ E1), E2. repeat split; [done|].
  intros n l. rewrite Hv2, Hv1, total_app. lia.
Qed.

End Counting.

(** ** A client in memory *)

Record MemProm := mk_MemProm { mp_names : list string; mp_samples : list (string * list string * Z) }.

#[export] Instance mem_prom : PromClient MemProm := {
  pm_create n := fun w =>
    if existsb (String.eqb n) (mp_names w) then (w, Err (ValueError "Duplicated timeseries in CollectorRegistry"))
    else (mk_MemProm (n :: mp_names w) (mp_samples w), Ok tt);
  pm_add n l d := modify (fun w => mk_MemProm (mp_names w) (mp_samples w ++ [(n, l, d)]));
  pm_observe _ _ _ := ret tt;
  pm_registered := mp_names;
  pm_value w n l := total n l (mp_samples w) }.

#[export] Instance mem_prom_laws : PromLaws MemProm.
Proof.
  split; cbn.
  - intros n w Hn. destruct (existsb _ _) eqn:E; [|by eexists].
    apply existsb_exists in E as (x & Hx & ->%String.eqb_eq). destruct Hn. by apply list_elem_of_In.
  - intros n l d w _. eexists. split; [reflexivity|]. split; [done|]. intros n' l'. cbn. rewrite total_app. cbn. lia.
  - intros n l x w _. by exists w.
Qed.

(** A run that succeeds without ever being parked makes the backlog negative. *)
Example backlog_negative :
  let s := fst (for_each [RpRun "intake" "succeeded"] report (mk_sys [] (mk_MemProm [] []) 0%nat 0%nat)) in
  pm_value (sys_world s) PARKED_BACKLOG [] = -1.
Proof. vm_compute. reflexivity. Qed.

(** When the name of one metric is taken, that metric and those after it are
    never counted, as every later initialisation is skipped. *)
Example name_taken :
  let s := fst (for_each [RpRecovery; RpRun "intake" "queued"; RpRecovery] report
                  (mk_sys [] (mk_MemProm [RESUME_RECOVERIES] []) 0%nat 0%nat)) in
  pm_value (sys_world s) RESUME_RECOVERIES [] = 0 /\ pm_value (sys_world s) RUNS_TOTAL ["intake"; "queued"] = 1.
Proof. vm_compute. auto. Qed.
