(* ===== verification/Telemetry.v ===== *)
(** * Telemetry: the bootstrap of obs/observability.py

    [configure_observability] as its steps: the extra patterns, the log pipeline
    with its processors in their order and its level filter, the span processors,
    the providers and the redaction counter.  A log call runs the pipeline, the
    end of a span runs the span processors.  structlog and the OTLP exporter are
    interfaces with their documented behaviour; [Scrub] has the processors of the
    module itself.  Proved: exactly which parts of what a configured process logs
    and exports are scrubbed (the top-level texts of a log event, the texts of a
    span's attributes and of dictionaries in them) and that the rest, keys, lists
    and, in a log event, nested values, is passed on as it is; for the places the
    processors do not look there are examples; and the bootstrap does to the
    module's state what [Scrub.configure_observability] says. *)

From Stdlib Require Import ZArith Lia Ascii String List.
From stdpp Require Import base list sets strings.
From S2P Require Import Prelude PyTime Effects PyText Regex Qc Packs Scrub Metrics.

Open Scope string_scope.
Open Scope list_scope.
Open Scope Z_scope.
Open Scope cam_scope.

(** ** The library's processors *)

(** structlog's own processors and renderer. *)
Class LogLib := {
  merge_contextvars : jdict -> jdict;
  add_log_level : string -> jdict -> jdict;
  time_stamper : jdict -> jdict;
  stack_info_renderer : jdict -> jdict;
  format_exc_info : jdict -> jdict;
  json_renderer : jdict -> string }.

(** Each of those after the scrubber writes one key, and removes at most its own
    argument; the last two only act on an event that carries theirs. *)
Class LogLaws `{LogLib} : Prop := {
  add_log_level_only m d k : k <> "level" -> dget k (add_log_level m d) = dget k d;
  time_stamper_only d k : k <> "timestamp" -> dget k (time_stamper d) = dget k d;
  stack_info_only d k : k <> "stack" -> k <> "stack_info" ->
    dget k (stack_info_renderer d) = dget k d;
  stack_info_absent d : dget "stack_info" d = None -> stack_info_renderer d = d;
  exc_info_only d k : k <> "exception" -> k <> "exc_info" -> dget k (format_exc_info d) = dget k d;
  exc_info_absent d : dget "exc_info" d = None -> format_exc_info d = d }.

Inductive Processor :=
| MergeContextvars | RunIdProcessor | PIIProcessor | AddLogLevel | TimeStamper
| StackInfoRenderer | FormatExcInfo.

(** The processors before the renderer, in the order they are configured. *)
Definition PROCESSORS : list Processor :=
  [MergeContextvars; RunIdProcessor; PIIProcessor; AddLogLevel; TimeStamper; StackInfoRenderer;
   FormatExcInfo].

(** The attributes of the logging module that are levels. *)
Definition LOGGING_LEVELS : dict string Z :=
  [("CRITICAL", 50); ("FATAL", 50); ("ERROR", 40); ("WARNING", 30); ("WARN", 30); ("INFO", 20);
   ("DEBUG", 10); ("NOTSET", 0)].

(** [getattr(logging, log_level.upper(), 20)] *)
Definition min_level (log_level : string) : Z :=
  match dget (str_upper log_level) LOGGING_LEVELS with Some n => n | None => 20 end.

(** ** The process's telemetry *)

Inductive SpanProcessor := PIISpanProcessor | BatchOTLP (endpoint : string) | InMemorySink.

Record LogConfig := mk_LogConfig { lc_processors : list Processor; lc_min_level : Z }.
Record TracerConfig := mk_TracerConfig { tc_service : string; tc_processors : list SpanProcessor }.

(** [te_lines]: what the renderer was given, line by line. *)
Record Telemetry := mk_Telemetry {
  te_obs : Obs;
  te_log : option LogConfig;
  te_tracer : option TracerConfig;
  te_meter : option string;
  te_lines : list jdict }.

Definition with_obs (o : Obs) (t : Telemetry) : Telemetry :=
  mk_Telemetry o (te_log t) (te_tracer t) (te_meter t) (te_lines t).
Definition on_obs {A} (m : M Obs A) : M Telemetry A := zoom te_obs with_obs m.

Definition add_pattern (r : re) : M Obs unit := modify (fun o =>
  mk_Obs (ob_patterns o ++ [r]) (ob_redactions o) (ob_run_id o) (ob_configured o)).
Definition make_counter : M Obs unit := modify (fun o =>
  mk_Obs (ob_patterns o) (Some 0) (ob_run_id o) (ob_configured o)).
Definition mark_configured : M Obs unit := modify (fun o =>
  mk_Obs (ob_patterns o) (ob_redactions o) (ob_run_id o) true).

Definition PII_REDACTIONS_TOTAL : string := "cam_pii_redactions_total".

Section Bootstrap.
Context {W : Type} `{PromClient W} `{LogLib}.
Context (compile_other : string -> re).
(** [re.compile] raises on the source. *)
Context (re_error : pattern -> bool).
(** [OTLPSpanExporter(endpoint=...)], and whether its module is installed. *)
Context (otlp_installed : bool) (otlp_exporter : string -> M W unit).

Definition TM (A : Type) : Type := M (sys Telemetry W) A.
Definition obs {A} (m : M Obs A) : TM A := on_store (on_obs m).

Definition append_pattern (source : pattern) : TM unit :=
  if re_error source then raise (OtherError "error" source)
  else obs (add_pattern (compile compile_other source)).

(** [structlog.configure(...)] *)
Definition configure_structlog (log_level : string) : TM unit :=
  on_store (modify (fun t => mk_Telemetry (te_obs t) (Some (mk_LogConfig PROCESSORS (min_level log_level)))
                               (te_tracer t) (te_meter t) (te_lines t))).

(** The exporter's processor: an endpoint without the exporter's module, and no
    endpoint, leave the in-memory sink. *)
Definition export_processor (otel_endpoint : option string) : TM SpanProcessor :=
  if opt_truthy otel_endpoint then
    let endpoint := match otel_endpoint with Some e => e | None => EmptyString end in
    if otlp_installed then on_world (otlp_exporter endpoint) ;; ret (BatchOTLP endpoint)
    else ret InMemorySink
  else ret InMemorySink.

Definition configure_traces (service_name : string) (otel_endpoint : option string) : TM unit :=
  let! p := export_processor otel_endpoint in
  on_store (modify (fun t => mk_Telemetry (te_obs t) (te_log t)
    (Some (mk_TracerConfig service_name [PIISpanProcessor; p])) (te_meter t) (te_lines t))).

Definition configure_meter (service_name : string) : TM unit :=
  on_store (modify (fun t => mk_Telemetry (te_obs t) (te_log t) (te_tracer t) (Some service_name)
    (te_lines t))).

Definition bootstrap (service_name log_level : string) (otel_endpoint : option string)
    (extra_pii_patterns : list pattern) : TM unit :=
  let! configured := on_store (gets (fun t => ob_configured (te_obs t))) in
  if configured then ret tt
  else
    for_each extra_pii_patterns append_pattern ;;
    (configure_structlog log_level ;;
     (configure_traces service_name otel_endpoint ;;
      (configure_meter service_name ;;
       (on_world (pm_create PII_REDACTIONS_TOTAL) ;;
        obs (make_counter ;; mark_configured))))).

(** ** Using it *)

Definition process (method : string) (p : Processor) (d : jdict) : M Obs jdict :=
  match p with
  | MergeContextvars => ret (merge_contextvars d)
  | RunIdProcessor => run_id_processor d
  | PIIProcessor => pii_structlog_processor d
  | AddLogLevel => ret (add_log_level method d)
  | TimeStamper => ret (time_stamper d)
  | StackInfoRenderer => ret (stack_info_renderer d)
  | FormatExcInfo => ret (format_exc_info d)
  end.

Fixpoint run_processors (method : string) (ps : list Processor) (d : jdict) : M Obs jdict :=
  match ps with
  | [] => ret d
  | p :: ps' => let! d' := process method p d in run_processors method ps' d'
  end.

(** [log.<method>(event, **fields)] on a configured process: a call below the
    level returns without a line. *)
Definition log_call (method : string) (level : Z) (event_dict : jdict) : M Telemetry unit :=
  let! cfg := gets te_log in
  match cfg with
  | Some cfg =>
      if level <? lc_min_level cfg then ret tt
      else let! d := on_obs (run_processors method (lc_processors cfg) event_dict) in
           modify (fun t => mk_Telemetry (te_obs t) (te_log t) (te_tracer t) (te_meter t)
                              (te_lines t ++ [d]))
  | None => ret tt
  end.

(** The span's attributes pass from processor to processor; each exporter takes
    those it is handed. *)
Fixpoint end_span (ps : list SpanProcessor) (attributes : jdict)
    : M Obs (list (SpanProcessor * jdict)) :=
  match ps with
  | [] => ret []
  | PIISpanProcessor :: ps' => let! clean := on_end attributes in end_span ps' clean
  | p :: ps' => let! out := end_span ps' attributes in ret ((p, attributes) :: out)
  end.

(** [trace_connector_call]: the tracer, the span's name and its attributes. *)
Definition get_tracer (name : string) : string := name.
Definition get_meter (name : string) : string := name.
Definition get_run_id : M Obs (option string) := gets ob_run_id.
Definition trace_connector_call (connector operation : string) : string * string * jdict :=
  (get_tracer ("cam.connector." +:+ connector), connector +:+ "." +:+ operation,
   [("cam.connector", JStr connector); ("cam.operation", JStr operation)]).

End Bootstrap.

(** ** What leaves the process *)

Section Scrubbed.
Context {W : Type} `{PromClient W} {LL : LogLib} {laws : LogLaws}.
Context (compile_other : string -> re) (re_error : pattern -> bool).
Context (otlp_installed : bool) (otlp_exporter : string -> M W unit).

Abbreviation bootstrap := (bootstrap compile_other re_error otlp_installed otlp_exporter).
Abbreviation append_pattern := (append_pattern (W := W) compile_other re_error).
Abbreviation export_processor := (export_processor otlp_installed otlp_exporter).

(** What becomes of a value in a log event: a text is scrubbed, so that no pattern
    matches it any more; any other value, whatever it holds, is the same. *)
Definition log_scrubbed (ps : list re) (v v' : json) : Prop :=
  match v with
  | JStr s => v' = JStr (pii_scrub ps s) /\ pii_free ps (pii_scrub ps s)
  | _ => v' = v
  end.

(** What becomes of a span attribute: the same, but a dictionary keeps its keys
    and has each of its values treated so in turn.  A list is not looked into. *)
Fixpoint attr_scrubbed (ps : list re) (v v' : json) : Prop :=
  match v with
  | JStr s => v' = JStr (pii_scrub ps s) /\ pii_free ps (pii_scrub ps s)
  | JDict d =>
      exists d', v' = JDict d' /\
        (fix all (d d' : jdict) : Prop :=
           match d, d' with
           | [], [] => True
           | (k, v) :: d, (k', v') :: d' => k' = k /\ attr_scrubbed ps v v' /\ all d d'
           | _, _ => False
           end) d d'
  | _ => v' = v
  end.

(** Patterns whose replacement leaves nothing any of them matches. *)
Definition complete (ps : list re) : Prop := forall s, pii_free ps (pii_scrub ps s).

Lemma builtin_complete sources :
  Forall (fun x => x ∈ BUILTIN_SOURCES) sources -> complete (map (compile compile_other) sources).
Proof.
  intros Hs s. apply (scrub_frees _ s []).
  - clear s. induction Hs as [|x l Hx _ IH]; constructor; [by apply builtin_scrubbing|exact IH].
  - constructor.
  - intros r Hr. by apply elem_of_nil in Hr.
Qed.

Lemma scrub_value_spec ps : complete ps -> forall v, attr_scrubbed ps v (scrub_value ps v).
Proof.
  intros Hc. fix IH 1. intros [| | | |s|l|d]; cbn; try done.
  eexists. split; [reflexivity|]. induction d as [|[k v] d IHd]; cbn; [exact I|].
  split; [done|]. split; [apply IH|exact IHd].
Qed.

(** The process is wired to scrub with [ps] and to log from [lvl] up. *)
Definition wired (ps : list re) (lvl : Z) (t : Telemetry) : Prop :=
  ob_patterns (te_obs t) = ps /\ te_log t = Some (mk_LogConfig PROCESSORS lvl) /\
  exists service p, te_tracer t = Some (mk_TracerConfig service [PIISpanProcessor; p]) /\
    p <> PIISpanProcessor.

(** Keys the library's processors write, or take their argument from. *)
Definition LIBRARY_KEYS : list string :=
  ["level"; "timestamp"; "stack"; "stack_info"; "exception"; "exc_info"].

(** The line has, under every key but these, what the event had, scrubbed. *)
Definition line_scrubbed (ps : list re) (but : list string) (event line : jdict) : Prop :=
  forall k, k ∉ but ->
    match dget k event with
    | Some v => exists v', dget k line = Some v' /\ log_scrubbed ps v v'
    | None => dget k line = None
    end.

Lemma line_scrubbed_key ps but (f : jdict -> jdict) e d :
  (forall k, k ∉ but -> dget k (f d) = dget k d) -> line_scrubbed ps but e d -> line_scrubbed ps but e (f d).
Proof. intros Hf Hd k Hk. rewrite Hf by done. by apply Hd. Qed.

Lemma line_scrubbed_weaken ps but but' e d :
  (forall k, k ∈ but -> k ∈ but') -> line_scrubbed ps but e d -> line_scrubbed ps but' e d.
Proof. intros Hs Hd k Hk. apply Hd. auto. Qed.

(** The event after the run id and the scrubber. *)
Definition run_id_event (o : Obs) (d : jdict) : jdict :=
  match ob_run_id o with Some r => dset "run_id" (JStr r) d | None => d end.
Definition scrub_text (ps : list re) (v : json) : json :=
  match v with JStr s => JStr (pii_scrub ps s) | v => v end.
Definition scrub_event (ps : list re) (d : jdict) : jdict :=
  map (fun p => (p.1, scrub_text ps p.2)) d.
Definition rendered (o : Obs) (method : string) (d : jdict) : jdict :=
  format_exc_info (stack_info_renderer (time_stamper (add_log_level method
    (scrub_event (ob_patterns o) (run_id_event o (merge_contextvars d)))))).

Lemma pii_structlog_spec d o :
  exists o', pii_structlog_processor d o = (o', Ok (scrub_event (ob_patterns o) d)) /\
    ob_patterns o' = ob_patterns o.
Proof.
  unfold pii_structlog_processor, scrub_event.
  rewrite (map_ext _ (fun p => (p.1, scrub_text (ob_patterns o) p.2))) by (by intros [k []]).
  eexists. split; [reflexivity|done].
Qed.

Lemma run_processors_spec method d o :
  exists o', run_processors method PROCESSORS d o = (o', Ok (rendered o method d)) /\
    ob_patterns o' = ob_patterns o.
Proof.
  destruct (pii_structlog_spec (run_id_event o (merge_contextvars d)) o) as (o' & Hp & Ho).
  exists o'. split; [|done]. unfold PROCESSORS. cbn [run_processors process].
  rewrite (bind_ok_eq _ _ _ o (merge_contextvars d)) by done.
  rewrite (bind_ok_eq _ _ _ o (run_id_event o (merge_contextvars d))) by done.
  by rewrite (bind_ok_eq _ _ _ _ _ Hp).
Qed.

Lemma scrub_event_get ps d k : dget k (scrub_event ps d) = option_map (scrub_text ps) (dget k d).
Proof. apply (dget_map (scrub_text ps)). Qed.

Lemma scrub_event_spec ps d : complete ps -> line_scrubbed ps [] d (scrub_event ps d).
Proof.
  intros Hc k _. rewrite scrub_event_get. destruct (dget k d) as [v|]; [|done].
  exists (scrub_text ps v). split; [done|]. by destruct v.
Qed.

(** The event with its level and timestamp. *)
Definition stamped (o : Obs) (method : string) (d : jdict) : jdict :=
  time_stamper (add_log_level method (scrub_event (ob_patterns o) (run_id_event o (merge_contextvars d)))).

(** The event as the scrubber finds it. *)
Abbreviation scrub_input o d := (run_id_event o (merge_contextvars d)).

Lemma not_in_cons (k x : string) l : k ∉ x :: l -> k <> x /\ k ∉ l.
Proof. apply not_elem_of_cons. Qed.

Lemma stamped_scrubbed o method d :
  complete (ob_patterns o) ->
  line_scrubbed (ob_patterns o) ["level"; "timestamp"] (scrub_input o d) (stamped o method d).
Proof.
  intros Hc. unfold stamped. apply line_scrubbed_key.
  { intros k [_ [Hk _]%not_in_cons]%not_in_cons. by apply time_stamper_only. }
  apply line_scrubbed_key.
  { intros k [Hk _]%not_in_cons. by apply add_log_level_only. }
  eapply line_scrubbed_weaken; [|by apply scrub_event_spec]. intros k Hk. by apply elem_of_nil in Hk.
Qed.

Lemma stamped_absent o method d k :
  k <> "run_id" -> k <> "level" -> k <> "timestamp" ->
  dget k (merge_contextvars d) = None -> dget k (stamped o method d) = None.
Proof.
  intros Hr Hl Ht Hd. unfold stamped. rewrite time_stamper_only, add_log_level_only by done.
  rewrite scrub_event_get. unfold run_id_event.
  destruct (ob_run_id o); [rewrite dget_dset_ne by done|]; by rewrite Hd.
Qed.

(** The library's keys apart, the renderer's input is the event scrubbed; an
    event without a traceback or a stack only has its level and time added. *)
Lemma rendered_scrubbed o method d :
  complete (ob_patterns o) ->
  line_scrubbed (ob_patterns o) LIBRARY_KEYS (scrub_input o d) (rendered o method d) /\
  (dget "stack_info" (merge_contextvars d) = None -> dget "exc_info" (merge_contextvars d) = None ->
   line_scrubbed (ob_patterns o) ["level"; "timestamp"] (scrub_input o d) (rendered o method d)).
Proof.
  intros Hc. pose proof (stamped_scrubbed o method d Hc) as Hs.
  change (rendered o method d) with (format_exc_info (stack_info_renderer (stamped o method d))).
  split.
  - unfold LIBRARY_KEYS. apply line_scrubbed_key.
    { intros k Hk. repeat (apply not_in_cons in Hk as [? Hk]). by apply exc_info_only. }
    apply line_scrubbed_key.
    { intros k Hk. repeat (apply not_in_cons in Hk as [? Hk]). by apply stack_info_only. }
    eapply line_scrubbed_weaken; [|exact Hs]. intros k Hk. set_solver.
  - intros Hst Hex. rewrite stack_info_absent, exc_info_absent; [exact Hs|..]; by apply stamped_absent.
Qed.

(** Logging keeps the wiring. *)
Lemma log_call_spec ps lvl method level d t :
  wired ps lvl t ->
  exists t', log_call method level d t = (t', Ok tt) /\ wired ps lvl t' /\
    te_lines t' = te_lines t ++ (if level <? lvl then [] else [rendered (te_obs t) method d]).
Proof.
  intros (Hp & Hl & Ht). unfold log_call, bind, gets. rewrite Hl. cbn [lc_min_level lc_processors].
  destruct (level <? lvl).
  - exists t. rewrite app_nil_r. by split_and!.
  - unfold on_obs, zoom. destruct (run_processors_spec method d (te_obs t)) as (o' & -> & Ho).
    eexists. split; [reflexivity|]. split; [|done]. split_and!; [by cbn; rewrite Ho|done|done].
Qed.

(** The exporter is handed the scrubbed attributes. *)
Lemma end_span_spec p attributes o :
  p <> PIISpanProcessor -> complete (ob_patterns o) ->
  exists clean, end_span [PIISpanProcessor; p] attributes o = (o, Ok [(p, clean)]) /\
    Forall2 (fun kv kv' => kv'.1 = kv.1 /\ attr_scrubbed (ob_patterns o) kv.2 kv'.2) attributes clean.
Proof.
  intros Hp Hc. eexists. split; [destruct p; done|].
  assert (Forall2 (fun kv kv' => kv'.1 = kv.1 /\ attr_scrubbed (ob_patterns o) kv.2 kv'.2) attributes
    (scrub_dict (ob_patterns o) attributes)) as H1.
  { induction attributes as [|kv l IH]; constructor; [|done]. split; [done|by apply scrub_value_spec]. }
  by destruct attributes.
Qed.

(** ** The bootstrap *)

Lemma append_patterns_ok extra s s' u :
  for_each extra append_pattern s = (s', Ok u) ->
  te_obs (sys_store s') =
    mk_Obs (ob_patterns (te_obs (sys_store s)) ++ map (compile compile_other) extra)
      (ob_redactions (te_obs (sys_store s))) (ob_run_id (te_obs (sys_store s)))
      (ob_configured (te_obs (sys_store s))).
Proof.
  revert s. induction extra as [|x extra IH]; cbn [for_each]; intros s.
  - intros [= <- _]. cbn. rewrite app_nil_r. by destruct (te_obs (sys_store s)).
  - unfold bind at 1, append_pattern at 1. destruct (re_error x); [done|]. cbn.
    intros Hr. rewrite (IH _ Hr). cbn. by rewrite <- app_assoc.
Qed.

Lemma export_processor_const ep : store_const (export_processor ep).
Proof. unfold export_processor. repeat case_match; auto with cam. Qed.

Lemma export_processor_ok ep s s' p : export_processor ep s = (s', Ok p) -> p <> PIISpanProcessor.
Proof.
  unfold export_processor. destruct (opt_truthy ep); [|by intros [= _ <-]].
  destruct otlp_installed; [|by intros [= _ <-]]. intros H'. inv_bind H'. by injection H' as _ <-.
Qed.

Lemma on_store_gets {A} (f : Telemetry -> A) (s : sys Telemetry W) :
  on_store (gets f) s = (s, Ok (f (sys_store s))).
Proof. by destruct s. Qed.

(** A bootstrap that returns wired the process and left the module's state as
    [Scrub.configure_observability] does. *)
Lemma bootstrap_ok service level ep extra s s' u :
  ob_configured (te_obs (sys_store s)) = false ->
  bootstrap service level ep extra s = (s', Ok u) ->
  wired (ob_patterns (te_obs (sys_store s)) ++ map (compile compile_other) extra) (min_level level)
    (sys_store s') /\
  te_obs (sys_store s') = fst (configure_observability compile_other extra (te_obs (sys_store s))).
Proof.
  intros Hc. unfold bootstrap. rewrite (bind_ok_eq _ _ s s false) by (by rewrite on_store_gets, Hc).
  intros Hb. inv_bind Hb. apply append_patterns_ok in Hb0. inv_bind Hb. injection Hb1 as <- _.
  inv_bind Hb. unfold configure_traces in Hb1. inv_bind Hb1.
  pose proof (const_eq _ _ _ _ (export_processor_const ep) Hb2) as Hs.
  apply export_processor_ok in Hb2. injection Hb1 as <- _. cbn in Hs.
  inv_bind Hb. injection Hb1 as <- _. inv_bind Hb.
  pose proof (const_eq _ _ _ _ (const_on_world _) Hb1) as Hw.
  injection Hb as <- _. cbn in *. rewrite Hw. cbn. rewrite Hs. cbn. rewrite Hb0. cbn.
  unfold configure_observability, modify. rewrite Hc. split; [|done].
  split_and!; [done|done|]. by exists service, a2.
Qed.

(** A second bootstrap does nothing. *)
Lemma bootstrap_idempotent service level ep extra s :
  ob_configured (te_obs (sys_store s)) = true -> bootstrap service level ep extra s = (s, Ok tt).
Proof. intros Hc. unfold bootstrap. by rewrite (bind_ok_eq _ _ s s true) by (by rewrite on_store_gets, Hc). Qed.

(** C16: Once the bootstrap has returned, with the engine's or a built-in pack's
    patterns active, the process is wired, and stays wired from one log call to
    the next.  Of a log call below the level nothing is written.  The line of any
    other has, under every key but the level and timestamp and, for an event that
    carries a traceback or a stack, those these are rendered to, what the event
    had there: a text with everything the patterns match replaced, so that none
    matches it, and any other value, a list or a dictionary with whatever texts
    it holds, unchanged.  A span ends with exactly one exporter taking its
    attributes under their own keys: texts scrubbed likewise, in nested
    dictionaries too, and lists unchanged.  Keys are not scrubbed. *)
Theorem signals_scrubbed service level ep extra sources s s' u :
  Forall (fun x => x ∈ BUILTIN_SOURCES) (sources ++ extra) ->
  ob_patterns (te_obs (sys_store s)) = map (compile compile_other) sources ->
  ob_configured (te_obs (sys_store s)) = false ->
  bootstrap service level ep extra s = (s', Ok u) ->
  let ps := map (compile compile_other) (sources ++ extra) in
  wired ps (min_level level) (sys_store s') /\
  forall t, wired ps (min_level level) t ->
    (forall method lvl event, exists t', log_call method lvl event t = (t', Ok tt) /\
       wired ps (min_level level) t' /\
       if lvl <? min_level level then te_lines t' = te_lines t
       else exists line, te_lines t' = te_lines t ++ [line] /\
         let given := run_id_event (te_obs t) (merge_contextvars event) in
         line_scrubbed ps LIBRARY_KEYS given line /\
         (dget "stack_info" (merge_contextvars event) = None ->
          dget "exc_info" (merge_contextvars event) = None ->
          line_scrubbed ps ["level"; "timestamp"] given line)) /\
    (forall tc attributes, te_tracer t = Some tc -> exists p clean,
       end_span (tc_processors tc) attributes (te_obs t) = (te_obs t, Ok [(p, clean)]) /\
       Forall2 (fun kv kv' => kv'.1 = kv.1 /\ attr_scrubbed ps kv.2 kv'.2) attributes clean).
Proof.
  intros Hb Hp Hc Hr ps.
  assert (Hcomp : complete ps) by (by apply builtin_complete).
  split.
  { unfold ps. rewrite map_app, <- Hp. by apply (bootstrap_ok service level ep extra s s' u). }
  intros t Ht. pose proof Ht as (Hps & _ & service' & p & Htr & Hpn). split.
  - intros method lvl event. destruct (log_call_spec _ _ method lvl event t Ht) as (t' & He & Hw & Hl).
    exists t'. split; [done|]. split; [done|]. destruct (lvl <? min_level level).
    + by rewrite app_nil_r in Hl.
    + eexists. split; [exact Hl|]. cbv zeta. rewrite <- Hps. apply rendered_scrubbed. by rewrite Hps.
  - intros tc attributes Htc. rewrite Htr in Htc. injection Htc as <-. exists p.
    rewrite <- Hps. apply end_span_spec; [done|by rewrite Hps].
Qed.

End Scrubbed.

(** ** A concrete process *)

(** The exception as its class and message; rendered as the traceback's last line. *)
Definition ex_traceback (v : json) : json :=
  match v with JList [JStr cls; JStr msg] => JStr (cls +:+ ": " +:+ msg) | v => v end.

(** Processors with structlog's behaviour: the traceback's text becomes the
    exception, nothing is bound to the context. *)
#[export] Instance ex_log_lib : LogLib := {|
  merge_contextvars d := d;
  add_log_level m d := dset "level" (JStr m) d;
  time_stamper d := dset "timestamp" (JStr "2026-03-09T10:00:00Z") d;
  stack_info_renderer d :=
    match dget "stack_info" d with Some v => dset "stack" v (bfilter (fun p => negb (String.eqb p.1 "stack_info")) d) | None => d end;
  format_exc_info d :=
    match dget "exc_info" d with Some v => dset "exception" (ex_traceback v) (bfilter (fun p => negb (String.eqb p.1 "exc_info")) d) | None => d end;
  json_renderer d := "" |}.

Lemma dget_without k k' (d : jdict) :
  k <> k' -> dget k (bfilter (fun p => negb (String.eqb p.1 k')) d) = dget k d.
Proof.
  intros Hk. induction d as [|[k2 v] d IH]; [done|]. cbn.
  destruct (String.eqb_spec k2 k') as [->|Hne]; cbn; [rewrite decide_False by done; exact IH|].
  by rewrite IH.
Qed.

#[export] Instance ex_log_laws : LogLaws.
Proof.
  split; cbn.
  - intros m d k Hk. by apply dget_dset_ne.
  - intros d k Hk. by apply dget_dset_ne.
  - intros d k Hk Hk'. case_match; [|done]. rewrite dget_dset_ne by done. by apply dget_without.
  - by intros d ->.
  - intros d k Hk Hk'. case_match; [|done]. rewrite dget_dset_ne by done. by apply dget_without.
  - by intros d ->.
Qed.

Definition ex_telemetry : Telemetry := mk_Telemetry (initial_obs ex_other) None None None [].
Definition ex_process (taken : list string) : sys Telemetry MemProm :=
  mk_sys ex_telemetry (mk_MemProm taken []) 0%nat 0%nat.
Definition ex_bootstrap (extra : list pattern) : TM (W := MemProm) unit :=
  bootstrap ex_other (fun _ => false) false (fun _ => ret tt) "cam" "info" (Some "otel:4317") extra.

Definition ex_configured : Telemetry := sys_store (fst (ex_bootstrap IMMIGRATION_PII (ex_process []))).

Definition ex_event : jdict :=
  [("event", JStr "lead"); ("text", JStr "ssn 123-45-6789"); ("exc_info", JList [JStr "ValueError"; JStr "123-45-6789"]);
   ("nested", JDict [("ssn", JStr "123-45-6789")])].

Definition ex_lines : list jdict := te_lines (fst (log_call "info" 20 ex_event ex_configured)).

(** A field is scrubbed; the traceback is rendered after the scrubber has run,
    and a nested dictionary is not looked into, so both keep the number. *)
Example traceback_unscrubbed :
  map (fun l => (dget "text" l, dget "exception" l, dget "nested" l)) ex_lines =
    [(Some (JStr "ssn [REDACTED]"), Some (JStr "ValueError: 123-45-6789"),
      Some (JDict [("ssn", JStr "123-45-6789")]))].
Proof. vm_compute. reflexivity. Qed.

(** Of a span's attributes the texts are scrubbed, in dictionaries too, and lists
    and keys are not. *)
Example attribute_list_unscrubbed :
  end_span [PIISpanProcessor; InMemorySink]
    [("note", JStr "ssn 123-45-6789"); ("nested", JDict [("ssn", JStr "123-45-6789")]);
     ("numbers", JList [JStr "123-45-6789"]); ("123-45-6789", JInt 1)] (te_obs ex_configured) =
  (te_obs ex_configured,
   Ok [(InMemorySink,
        [("note", JStr "ssn [REDACTED]"); ("nested", JDict [("ssn", JStr "[REDACTED]")]);
         ("numbers", JList [JStr "123-45-6789"]); ("123-45-6789", JInt 1)])]).
Proof. vm_compute. reflexivity. Qed.

Example debug_below_level : te_lines (fst (log_call "debug" 10 ex_event ex_configured)) = [].
Proof. vm_compute. reflexivity. Qed.

(** An unknown level name means INFO. *)
Example min_level_ex : map min_level ["info"; "Warning"; "verbose"; ""] = [20; 30; 20; 20].
Proof. reflexivity. Qed.

(** The counter's name is taken: the bootstrap raises after adding its patterns,
    and every retry adds them again. *)
Example failed_bootstrap_readds :
  let s1 := fst (ex_bootstrap ["\bA\d{8,9}\b"] (ex_process [PII_REDACTIONS_TOTAL])) in
  let s2 := fst (ex_bootstrap ["\bA\d{8,9}\b"] s1) in
  is_ok (snd (ex_bootstrap ["\bA\d{8,9}\b"] s1)) = false /\
  ob_configured (te_obs (sys_store s2)) = false /\
  (length (ob_patterns (te_obs (sys_store s2))) = length ENGINE_PII_BASELINE + 2)%nat.
Proof. vm_compute. by repeat split. Qed.

Lemma builtin_sources_listed : Forall (fun x => x ∈ BUILTIN_SOURCES) (ENGINE_PII_BASELINE ++ IMMIGRATION_PII).
Proof. apply list.Forall_forall. auto. Qed.

Lemma signals_scrubbed_witness :
  wired (map (compile ex_other) (ENGINE_PII_BASELINE ++ IMMIGRATION_PII)) 20 ex_configured /\
  length ex_lines = 1%nat.
Proof.
  split; [|vm_compute; reflexivity].
  apply (signals_scrubbed (W := MemProm) ex_other (fun _ => false) false (fun _ => ret tt) "cam" "info"
           (Some "otel:4317") IMMIGRATION_PII ENGINE_PII_BASELINE (ex_process [])
           (fst (ex_bootstrap IMMIGRATION_PII (ex_process []))) tt).
  - exact builtin_sources_listed.
  - reflexivity.
  - reflexivity.
  - reflexivity.
Defined.
