(* ===== verification/DocsGen.v ===== *)
(** * DocsGen: docs/generator.py

    Reference documentation derived from the models' JSON schemas, and the check
    that the file on disk is up to date.  A model is its name, its docstring and
    its schema, which pydantic computes; a file system is an interface. *)

From Stdlib Require Import ZArith Lia Ascii String List QArith.
From stdpp Require Import base list strings pretty.
From S2P Require Import Prelude PyTime Effects PyText PyFormat.

Open Scope string_scope.
Open Scope list_scope.
Open Scope Z_scope.
Open Scope cam_scope.

(** A model class: [__name__], its own [__doc__], [inspect.getdoc(model)] (which
    may come from a parent class) and [model_json_schema()]. *)
Record Model := mk_Model {
  dm_name : string; dm_doc : option string; dm_getdoc : option string; dm_schema : jdict }.

Definition NEWLINE : string := String (chr 10) EmptyString.
Definition TICK : string := "`".

Section Generator.
Context (str_other : json -> string).

(** [f"{v}"] *)
Definition shown (v : json) : string := match v with JStr s => s | _ => str_other v end.

(** [v.split("/")[-1]] *)
Definition ref_name (s : string) : string := List.last (split_on "/"%char s) EmptyString.

Definition as_text (v : json) : res string :=
  match v with JStr s => Ok s | _ => Err (TypeError "sequence item: expected str instance") end.

(** [_type_label] of a schema, whose union is a list of schemas; the labels of the
    alternatives are joined, so each must be text. *)
Fixpoint type_label (info : json) : res json :=
  match info with
  | JDict d =>
      match (fix find (l : jdict) : option (res json) :=
        match l with
        | [] => None
        | (k, v) :: l' =>
            if String.eqb k "anyOf" then
              Some (match v with
                    | JList ts =>
                        letr! types := (fix go (l : list json) : res (list json) :=
                          match l with
                          | [] => Ok []
                          | t :: l' => letr! x := type_label t in letr! r := go l' in Ok (x :: r)
                          end) ts in
                        letr! labels := map_res as_text types in
                        Ok (JStr (str_join " | " labels))
                    | _ => Err (TypeError "object is not iterable")
                    end)
            else find l'
        end) d with
      | Some r => r
      | None =>
          match dget "type" d with
          | Some t => Ok t
          | None =>
              match dget "$ref" d with
              | Some (JStr r) => Ok (JStr (ref_name r))
              | Some _ => Err (AttributeError "split")
              | None => Ok (JStr "any")
              end
          end
      end
  | _ => Err (TypeError "argument of type is not iterable")
  end.

Definition get_or (k : string) (default : json) (d : jdict) : json :=
  match dget k d with Some v => v | None => default end.

Definition field_row (required_fields : list string) (name : string) (info : json) : res string :=
  letr! t := type_label info in
  match info with
  | JDict d =>
      Ok ("| " +:+ TICK +:+ name +:+ TICK +:+ " | " +:+ TICK +:+ shown t +:+ TICK +:+ " | " +:+
          (if str_in name required_fields then "✓" else EmptyString) +:+ " | " +:+
          shown (get_or "description" (JStr EmptyString) d) +:+ " |")
  | _ => Err (AttributeError "get")
  end.

(** The names in a list of texts. *)
Fixpoint names_in (l : list json) : list string :=
  match l with [] => [] | JStr s :: l' => s :: names_in l' | _ :: l' => names_in l' end.

Fixpoint rows_of (required_fields : list string) (fields : jdict) : res (list string) :=
  match fields with
  | [] => Ok []
  | (name, info) :: fields' =>
      letr! row := field_row required_fields name info in
      letr! rows := rows_of required_fields fields' in
      Ok (row :: rows)
  end.

Definition table_of (schema : jdict) : res (list string) :=
  match get_or "properties" (JDict []) schema with
  | JDict ((_ :: _) as fields) =>
      let required := match get_or "required" (JList []) schema with JList l => names_in l | _ => [] end in
      letr! rows := rows_of required fields in
      Ok ("| Field | Type | Required | Description |" :: "|-------|------|----------|-------------|" :: rows)
  | v => if json_truthy v then Err (AttributeError "items") else Ok []
  end.

Definition or_empty (o : option string) : string := match o with Some s => s | None => EmptyString end.

Definition generate_model_doc (m : Model) : res string :=
  let class_doc := or_empty (dm_getdoc m) in
  letr! table := table_of (dm_schema m) in
  Ok (str_join NEWLINE (["## " +:+ TICK +:+ dm_name m +:+ TICK +:+ NEWLINE] ++
                   (if str_truthy class_doc then [class_doc +:+ NEWLINE] else []) ++ table) +:+ NEWLINE).

(** [not model.__doc__ or not model.__doc__.strip()] *)
Definition undocumented (m : Model) : bool :=
  match dm_doc m with Some d => negb (str_truthy d) || negb (str_truthy (str_strip d)) | None => true end.

Definition generate_module_docs (models : list Model) (module_title preamble : string) : res string :=
  letr! sections := map_res generate_model_doc models in
  match map dm_name (bfilter undocumented models) with
  | [] => Ok (str_join NEWLINE ((("# " +:+ module_title +:+ NEWLINE) :: (if str_truthy preamble then [preamble +:+ NEWLINE] else [])) ++ sections))
  | missing => Err (ValueError ("The following models are missing docstrings: " +:+ py_repr_list missing +:+
                      ". Add a class-level docstring before generating docs."))
  end.

(** ** The file *)

Context {F : Type} (exists_file : string -> F -> bool) (read_text : string -> M F string).
Context (mkdir_parent : string -> M F unit) (write_text : string -> string -> M F unit).

Definition DEFAULT_TITLE : string := "Domain Model".

Definition check_drift (models : list Model) (docs_path : string) : M F bool :=
  let! generated := lift_res (generate_module_docs models DEFAULT_TITLE EmptyString) in
  let! there := gets (exists_file docs_path) in
  if there then let! text := read_text docs_path in ret (String.eqb text generated) else ret false.

Definition write_docs (models : list Model) (docs_path : string) : M F unit :=
  let! content := lift_res (generate_module_docs models DEFAULT_TITLE EmptyString) in
  mkdir_parent docs_path ;; write_text docs_path content.

End Generator.

(** ** What the document says *)

Lemma ok_value {A} (a b : A) : Ok a = Ok b -> a = b.
Proof. congruence. Qed.

Section Documents.
Context (str_other : json -> string).

Lemma rows_of_in required fields rows name info :
  rows_of str_other required fields = Ok rows -> (name, info) ∈ fields ->
  exists row, field_row str_other required name info = Ok row /\ row ∈ rows.
Proof.
  revert rows. induction fields as [|[n i] fields IH]; intros rows H Hin; [by apply elem_of_nil in Hin|].
  cbn [rows_of] in H. destruct (field_row _ _ n i) as [row|] eqn:E; [cbn in H|done].
  destruct (rows_of _ _ fields) as [rows'|]; [cbn in H|done]. injection H as <-.
  apply elem_of_cons in Hin as [[= -> ->]|Hin]; [exists row; split; [done|by left]|].
  destruct (IH rows' eq_refl Hin) as (r & Hr & Hi). exists r. split; [done|by right].
Qed.

Definition required_of (schema : jdict) : list string :=
  match get_or "required" (JList []) schema with JList l => names_in l | _ => [] end.

Definition properties_of (schema : jdict) : jdict :=
  match get_or "properties" (JDict []) schema with JDict d => d | _ => [] end.

Lemma table_of_in schema rows name info :
  table_of str_other schema = Ok rows -> (name, info) ∈ properties_of schema ->
  exists row, field_row str_other (required_of schema) name info = Ok row /\ row ∈ rows.
Proof.
  unfold table_of, properties_of, required_of. intros H Hin.
  destruct (get_or "properties" (JDict []) schema) as [| | | | | |[|p d]]; try by apply elem_of_nil in Hin.
  destruct (rows_of _ _ _) as [rows'|] eqn:E; [cbn in H|done]. injection H as <-.
  destruct (rows_of_in _ _ _ _ _ E Hin) as (row & Hr & Hi). exists row. split; [done|by do 2 right].
Qed.

Lemma map_res_in {A B} (f : A -> res B) l ys x : map_res f l = Ok ys -> x ∈ l -> exists y, f x = Ok y /\ y ∈ ys.
Proof.
  revert ys. induction l as [|a l IH]; intros ys H Hx; [by apply elem_of_nil in Hx|]. cbn in H.
  destruct (f a) as [y|] eqn:Ey; [cbn in H|done]. destruct (map_res f l) as [r|]; [cbn in H|done]. injection H as <-.
  apply elem_of_cons in Hx as [->|Hx]; [exists y; split; [done|by left]|].
  destruct (IH r eq_refl Hx) as (z & Hz & Hi). exists z. split; [done|by right].
Qed.

Context {F : Type} (exists_file : string -> F -> bool) (read_text : string -> M F string).
Context (mkdir_parent : string -> M F unit) (write_text : string -> string -> M F unit).
Hypothesis write_read : forall p t f f', write_text p t f = (f', Ok tt) -> exists_file p f' = true /\ read_text p f' = (f', Ok t).

(** The documentation is complete and the check is exact.  When a document is
    generated every model in it has a docstring of its own, and the document
    contains the model's heading and, for every field of its schema, the row
    with the field's name, type, description and required mark; one model
    without a docstring, or a field whose type has no label, and nothing is
    generated.  What was written passes the drift check, and the check passes
    only when the file holds exactly what is generated. *)
Lemma docs_complete (models : list Model) (path : string) (f : F) :
  (forall text title preamble, generate_module_docs str_other models title preamble = Ok text ->
     forall m, m ∈ models -> undocumented m = false /\
       str_contains ("## " +:+ TICK +:+ dm_name m +:+ TICK) text = true /\
       forall name info, (name, info) ∈ properties_of (dm_schema m) ->
         exists row, field_row str_other (required_of (dm_schema m)) name info = Ok row /\ str_contains row text = true) /\
  (forall m title preamble, m ∈ models -> undocumented m = true ->
     exists e, generate_module_docs str_other models title preamble = Err e) /\
  (forall f', write_docs str_other mkdir_parent write_text models path f = (f', Ok tt) ->
     check_drift str_other exists_file read_text models path f' = (f', Ok true)) /\
  (forall f', check_drift str_other exists_file read_text models path f = (f', Ok true) ->
     exists text, generate_module_docs str_other models DEFAULT_TITLE EmptyString = Ok text /\ read_text path f = (f', Ok text)).
Proof.
  assert (forall m, m ∈ models -> undocumented m = true ->
    exists x l, map dm_name (bfilter undocumented models) = x :: l) as Hbad.
  { intros m Hm Hu. assert (m ∈ bfilter undocumented models) as Hin by by apply elem_of_bfilter.
    destruct (bfilter undocumented models) as [|y l]; [by apply elem_of_nil in Hin|]. by eexists _, _. }
  split; [|split; [|split]].
  - intros text title preamble H m Hm. unfold generate_module_docs in H.
    destruct (map_res _ models) as [sections|] eqn:Es; [cbn [res_bind] in H|done].
    destruct (undocumented m) eqn:Hu.
    { destruct (Hbad m Hm Hu) as (x & l & E). by rewrite E in H. }
    split; [done|]. destruct (map dm_name _); [|done]. apply ok_value in H as <-.
    destruct (map_res_in _ _ _ _ Es Hm) as (sec & Hsec & Hin). unfold generate_model_doc in Hsec.
    destruct (table_of _ (dm_schema m)) as [table|] eqn:Et; [cbn [res_bind] in Hsec|done]. apply ok_value in Hsec.
    assert (forall x, x ∈ (["## " +:+ TICK +:+ dm_name m +:+ TICK +:+ NEWLINE] ++
        (if str_truthy (or_empty (dm_getdoc m)) then [or_empty (dm_getdoc m) +:+ NEWLINE] else []) ++ table) ->
      part_of x (str_join NEWLINE (((("# " +:+ title +:+ NEWLINE) :: (if str_truthy preamble then [preamble +:+ NEWLINE] else [])) ++ sections)))) as Hpart.
    { intros x Hx. apply (part_trans x sec).
      - rewrite <- Hsec. apply part_app_l. by apply part_join.
      - apply part_join, elem_of_app. by right. }
    split.
    + apply part_contains. eapply part_trans; [|apply Hpart; by left].
      exists EmptyString, NEWLINE. by rewrite !str_app_assoc.
    + intros name info Hn. destruct (table_of_in _ _ _ _ Et Hn) as (row & Hr & Hi). exists row. split; [done|].
      apply part_contains, Hpart. rewrite !elem_of_app. by right; right.
  - intros m title preamble Hm Hu. destruct (Hbad m Hm Hu) as (x & l & E). unfold generate_module_docs. rewrite E.
    destruct (map_res _ models); cbn; by eexists.
  - intros f' H. unfold write_docs, check_drift, bind, lift_res, gets in *.
    destruct (generate_module_docs _ _ _ _) as [text|]; [|done]. destruct (mkdir_parent path f) as [f1 [[]|]]; [|done].
    destruct (write_read _ _ _ _ H) as [He Hr]. rewrite He, Hr. unfold ret. by rewrite String.eqb_refl.
  - intros f' H. unfold check_drift, bind, lift_res, gets, ret in H.
    destruct (generate_module_docs _ _ _ _) as [text|]; [|done]. exists text. split; [done|].
    destruct (exists_file path f); [|done]. destruct (read_text path f) as [f1 [t|]]; [|done].
    injection H as -> Ht. by apply String.eqb_eq in Ht as ->.
Qed.

End Documents.

(** ** A concrete file system *)

(** One file, absent or with its text. *)
Definition disk_write (p t : string) (f : option string) : option string * res unit := (Some t, Ok tt).
Definition disk_read (p : string) (f : option string) : option string * res string :=
  (f, match f with Some t => Ok t | None => Err (OtherError "FileNotFoundError" "No such file") end).
Definition disk_has (p : string) (f : option string) : bool := match f with Some _ => true | None => false end.

Definition party_schema : jdict :=
  [("properties", JDict
     [("name", JDict [("type", JStr "string"); ("description", JStr "Full name")]);
      ("dob", JDict [("anyOf", JList [JDict [("type", JStr "string")]; JDict [("type", JStr "null")]])])]);
   ("required", JList [JStr "name"])].

Definition Party_doc : Model := mk_Model "Party" (Some "A party.") (Some "A party.") party_schema.

(** A subclass without a docstring of its own shows its parent's text, and is
    still refused. *)
Definition Silent_doc : Model := mk_Model "Silent" None (Some "A party.") party_schema.

Example party_row_dob :
  field_row (fun _ => EmptyString) ["name"] "dob"
    (JDict [("anyOf", JList [JDict [("type", JStr "string")]; JDict [("$ref", JStr "#/$defs/Period")]])]) =
  Ok "| `dob` | `string | Period` |  |  |".
Proof. vm_compute. reflexivity. Qed.

Example silent_refused :
  generate_module_docs (fun _ => EmptyString) [Party_doc; Silent_doc] DEFAULT_TITLE EmptyString =
  Err (ValueError "The following models are missing docstrings: ['Silent']. Add a class-level docstring before generating docs.").
Proof. vm_compute. reflexivity. Qed.

Lemma docs_complete_witness :
  exists f', write_docs (fun _ => EmptyString) (fun _ => ret tt) disk_write [Party_doc] "docs/domain.md" None = (f', Ok tt) /\
    check_drift (fun _ => EmptyString) disk_has disk_read [Party_doc] "docs/domain.md" f' = (f', Ok true).
Proof.
  eexists. split; [vm_compute; reflexivity|].
  apply (docs_complete (fun _ => EmptyString) disk_has disk_read (fun _ => ret tt) disk_write
    ltac:(intros p t f f' [= <-]; done) [Party_doc] "docs/domain.md" None).
  vm_compute. reflexivity.
Defined.
